(* ===== verification/_CoqProject ===== *)
-Q . S2P
Prelude.v
PopCount.v
BitVector.v
BitForeach.v
BitTheorems.v
Frame.v
FrameFacts.v
Arena.v
ArenaFacts.v
ArenaSteps.v
ArenaTheorems.v
FixedArray.v
HashArray.v
HashArrayFacts.v
HashMap.v
HashMapFacts.v
SortedVector.v
SEArray.v
UdfSchema.v
Serialization.v
SerialFacts.v
SerialLaws.v
UdfObject.v
SqlText.v
UdfError.v
SqlClient.v
UdfDdl.v
SqlFacts.v
DdlFacts.v
DdlRep.v
DdlSteps.v
DdlRequests.v
SqlDemo.v
DdlTheorems.v
UdfMgr.v
UdfMgrFacts.v
SchemaTheorems.v
PyApi.v
BatchSize.v
BatchTheorems.v
UdfMeta.v
UdfCreate.v
UdfFacts.v
UdfWire.v
WireTheorems.v
WireFindings.v
UdfExpr.v
ExprTheorems.v
IArray.v
UdfRefresh.v
RefreshTheorems.v
RawExpr.v
UdfStmt.v
StmtFacts.v
UdfCall.v
CallFacts.v
UdfPlan.v
PlanFacts.v
UdfGen.v
UdfProduce.v
UdfCmd.v
QueryTheorems.v
PlanTheorems.v
ProduceTheorems.v
LifeTheorems.v
PUStore.v
PUStoreFacts.v
Operator.v
OperatorFacts.v
PUCell.v
PUCellFacts.v
PUOp.v
UdfInit.v
PUOpFacts.v
PUOpRun.v
PUOpNext.v
Demo.v
EngineTheorems.v
PUTheorems.v
PUFindings.v
