(* ===== verification/Prelude.v ===== *)
(** * Verification of the Python UDF execution of IMBridge

    IMBridge runs user-defined functions written in Python inside OceanBase.  A
    query with Python UDFs gets an operator of its own, [ObPythonUDFOp]
    ([src/src/sql/engine/python_udf_engine/ob_python_udf_op.cpp] and [.h]), which
    pulls batches from its child, keeps the rows it needs in buffers, calls the
    user functions on batches whose size adapts to the measured throughput, and
    hands the rows with the results to its parent.  This library models that
    operator and the parts of the engine it works on, and proves what it does.

    ** The program's parts and the files

    - [Prelude] (this file): return codes ([ob_errno.h]), 64-bit words, the
      conversions to signed widths, and the automation for them.
    - [PopCount], [BitVector], [BitForeach]: [ObBitVectorImpl] of
      [sql/engine/ob_bit_vector.h], the bit maps of skipped rows, nulls and
      evaluation flags.  A bit vector is its list of 64-bit words.
    - [Frame], [FrameFacts]: the memory of an expression, the four vector formats
      ([share/vector/*_format.h]), [ObDatum], and [ObExpr::init_vector],
      [cast_to_uniform], [eval_vector] ([sql/engine/expr/ob_expr.cpp]).  The
      reserved buffer of an expression is one list of bytes and pointers are
      offsets into it, so that overlapping writes overlap in the model.
    - [FixedArray]: [ObFixedArrayImpl]; it also declares the class [Allocator],
      which says whether a request for memory succeeds.
    - [PyApi]: the interface of the interpreter and of numpy, which are not part
      of the repository: a class of operations and a class of the laws the
      engine relies on, with the contract of a user function.
    - [BatchSize]: the control of the batch size ([modify_desirable]), in IEEE
      binary64 arithmetic.
    - [PUStore], [PUStoreFacts]: [ObBatchRows] ([sql/engine/ob_batch_rows.h]) and
      the two buffers, [ObColInputStore] (columns passed through) and
      [ObPUInputStore] (arguments of one UDF).
    - [PUCell], [PUCellFacts]: [ObPythonUDFCell], one UDF of the operator.
    - [PUOp], [PUOpFacts], [PUOpRun], [PUOpNext]: [ObPUStoreController] and
      [ObPythonUDFOp]; its invariant, its run from [inner_open] to the last
      batch, and its place under [ObOperator::get_next_batch].
    - [Operator], [OperatorFacts]: the base class [ObOperator]
      ([sql/engine/ob_operator.cpp]): the startup filters, the batch loop, the
      filters, the projection and the format conversion, against a class [VectorOp] which a concrete
      operator instantiates ([PUOpNext] does so for the Python UDF operator).
    - [HashArray], [HashArrayFacts], [HashMap], [HashMapFacts]: the pointer hash
      map of [lib/hash/ob_pointer_hashmap.h], one array with linear probing and
      the map of up to four of them; a client's view is a finite map.
    - [SortedVector]: [ObVector] and [ObSortedVector] ([lib/container/ob_vector.ipp]).
    - [UdfSchema], [UdfMgr], [UdfMgrFacts]: the catalogue of Python functions
      ([share/schema/ob_python_udf_mgr.cpp]), built on the two containers.
    - [SEArray]: [ObSEArrayImpl] ([lib/container/ob_se_array.h]).
    - [Serialization]: the codecs of [lib/utility/serialization.h], the framing of
      [lib/utility/ob_unify_serialize.h] and the (de)serialization of strings and
      arrays, over a memory of bytes; the class [Serial] has one instance per
      overload of [encode] and [decode].  [SerialFacts] and [SerialLaws] prove the
      class of laws [SerialLaws] for each: image, room, round trip.
    - [UdfObject], [UdfMeta]: [ObPythonUDF], [ObPythonUDFMeta] and
      [ObPythonUdfInfo] ([share/schema/ob_python_udf.cpp],
      [sql/engine/expr/ob_expr_python_udf.cpp], [sql/resolver/expr/ob_raw_expr.cpp]).
    - [UdfCreate]: the resolver of the create statement
      ([sql/resolver/ddl/ob_create_python_udf_resolver.cpp]).
    - [UdfExpr]: the expression of a call before execution: result type, checks,
      import of the code, code generation.  [UdfError]: the report of an exception.
    - [UdfFacts], [UdfWire]: lemmas on the two groups above.
    - [SqlText]: [ObSqlString] and the macros that build statements
      ([lib/string/ob_sql_string.cpp], [lib/mysqlclient/ob_mysql_proxy.h]).
    - [SqlClient]: the inner SQL service, which is a parameter: a class of
      operations, a reader of the statements the code sends, and the class of
      laws [SqlLaws]; [SqlDemo] is a small service that obeys them.
    - [UdfDdl]: creation, deletion and look-up of functions, from the root server
      ([rootserver/ob_root_service.cpp], [ob_ddl_service.cpp],
      [ob_ddl_operator.cpp]) to the SQL service
      ([share/schema/ob_python_udf_sql_service.cpp]) and back
      ([share/schema/ob_multi_version_schema_service.cpp]).
    - [SqlFacts], [DdlFacts], [DdlRep], [DdlSteps], [DdlRequests]: the statements
      are read back as meant, and the table stands for a catalogue.
    - [IArray]: the array interface [ObIArray] as a class with laws, the instance
      for [ObSEArray], and the helpers over it ([lib/container/ob_iarray.h],
      [lib/utility/utility.h]).
    - [RawExpr]: resolved expressions, shared objects of a heap, and the walks over
      them ([sql/resolver/expr/ob_raw_expr_util.cpp]); [UdfStmt], [StmtFacts]: the
      calls and filters of a statement ([sql/resolver/dml/ob_dml_stmt.cpp],
      [ob_select_stmt.cpp], [ob_dml_resolver.cpp], [ob_select_resolver.cpp]).
    - [UdfCall], [CallFacts]: the resolution of a call
      ([sql/resolver/expr/ob_raw_expr_resolver_impl.cpp]).
    - [UdfCmd]: the drop statement and the executors of both statements
      ([sql/resolver/ddl/ob_drop_python_udf_resolver.cpp],
      [sql/engine/cmd/ob_python_udf_executor.cpp]).
    - [UdfPlan], [PlanFacts]: the operator in the plan, over a heap of operators
      ([sql/optimizer/ob_select_log_plan.cpp], [ob_log_plan.cpp]); the rest of the
      optimizer is the class [Planner].
    - [UdfProduce]: who computes which expression
      ([ObAllocExprContext], [mark_expr_produced], [allocate_expr_post] of
      [sql/optimizer/ob_logical_operator.cpp] and [ob_log_python_udf.cpp]).
    - [UdfGen]: [ObLogPythonUDF] and its code generation
      ([sql/optimizer/ob_log_python_udf.cpp],
      [sql/code_generator/ob_static_engine_cg.cpp]).
    - [UdfInit]: the import of the functions by the operator ([init_udfs]), shown to
      agree with the import at code generation, and the operator's row path.
    - [Arena], [ArenaFacts], [ArenaSteps]: [PageArena]
      ([lib/allocator/page_arena.h]) on pages at addresses; the allocator of the
      pages is the class [PageAllocator] with the laws [PageAllocatorLaws].
    - [UdfRefresh]: the functions of a tenant are read from the table
      ([share/schema/ob_schema_retrieve_utils.ipp], [ob_schema_service_sql_impl.cpp])
      into objects with an arena of their own, and an increment is applied to the
      catalogue ([ob_server_schema_service.cpp]).
    - [Demo]: a small concrete engine (an allocator, an interpreter with two
      functions, a plan, a child) at which all hypotheses are shown to hold.
    - [BitTheorems], [BatchTheorems], [EngineTheorems], [PUTheorems],
      [PUFindings], [SchemaTheorems],
      [WireTheorems], [WireFindings], [ExprTheorems], [DdlTheorems],
      [QueryTheorems], [PlanTheorems], [ProduceTheorems], [LifeTheorems],
      [ArenaTheorems], [RefreshTheorems]: the properties, with an instance of each that has
      hypotheses.

    ** How code becomes definitions

    A C++ function that returns [int ret] is a function to a code and the new
    state.  Where the C++ call may have no defined result (a failed assertion, a
    read of memory never written, a write past a buffer, an uncaught exception)
    the model is an [option] and [None] is that case; the theorems that a call
    returns exclude it.  Machine integers are integers with the conversions
    written out where the code converts ([to_int32] in [save_batch], 64-bit words
    everywhere in the bit vector) and where a member can outgrow its width (the
    [int] members of the batch-size control wrap at 32 bits).  Lengths and indices, [int64_t] in the code,
    are not wrapped: they are bounded by the sizes of buffers that exist.

    Loops are structural where the code counts.  Some take fuel: [process_loop]
    (as many rounds as saved rows; each round takes at least one), [fill_loop]
    (one round per result the child still has, plus one for its end),
    [next_loop] of [ObOperator], [dec_loop] (twenty digits, enough for 64 bits),
    [grow] (64 doublings, the bound of the code), [put_vi] (ten and five rounds, the longest
    encodings of 64 and 32 bits) and [get_vi] (one round per byte of the memory,
    after which the next read is outside), the walks of [RawExpr] (one level per
    object, enough without cycles) and [split_loop] (one round per condition, plus
    one).  For each the theorems show that this
    much is enough: [do_process_equals_process_all], [python_udf_op_correct],
    [next_batch_filtered], [varint_codec], [contains_spec], [extract_spec] and
    [python_udf_filters_split] conclude that the call returns.  The loops over the
    pages of an arena take one round per page and one more ([arena_blocks_disjoint]),
    the walks of [UdfProduce] one level per expression ([calls_are_produced]).

    ** What is shown

    - The operator as a whole (C1): read to its end it delivers exactly the
      child's rows that were not skipped, in order, with every pass-through
      column unchanged and every UDF column holding the function of the row's SQL
      values.  The conditions are those the code needs ([run_ok], [int_args],
      [sizes_ok]): supported types, arguments projected by the child, no NULLs,
      strings that fit their reserved buffers, integer arguments in 32 bits, fewer
      rows than the 32-bit batch sizes have room for.  [PUFindings] runs the
      operator outside these conditions and shows what happens: long strings,
      NULLs, computed and wide arguments; [batch_size_overflows] shows the size.
    - Its parts: adaptive batching does not change results (C2), the buffers
      return what they were given, NULLs apart, and stay within their memory (C5,
      C6), errors (C3, C4, C7), the batch-size control (C8, C9).
    - The engine below: bit vectors (C15 to C18), the batch loop with filters
      (C19), format conversion, which keeps values and NULLs (C20, C21), fixed arrays (C22), the arena its memory
      comes from: blocks that do not overlap and pages that are not lost (C11), and
      requests that are served (C12).
    - The catalogue: the manager is a finite map from tenant and name to schemas
      (C23), its copies and the lookup by id (C24, C25), over a hash map that is a
      finite map (C26) and a vector sorted by key (C27), and a refresh of it as
      deletions and insertions of that map (C28).
    - The way of a function from its definition to the worker: what a query knows
      of a function reaches the worker (C29), a create statement reaches the root
      server (C30), over integer codecs (C31) and frames (C32) that stay in their
      buffers and arrays that are lists (C33).  [WireFindings] shows where the
      wire format is not robust: reads past a truncated message, lengths and
      counts that overflow, and members that are never sent.
    - Before execution: the parameters of a call have the declared types (C34) and
      the handlers are renamed in the imported body (C35).
    - The system table: the root server keeps a catalogue of functions whatever
      fails (C36), and when nothing fails it answers as the catalogue does and
      look-ups find what was created (C37).  Both are for names without quotes and
      backslashes: the server puts a name into its statements as it is, so another
      name can be created and then neither found nor dropped.
    - A query with Python functions: the conditions that call one are moved to the
      filters of the operator (C38), a call is bound to the function the table
      holds (C39; an out-of-range batch size is ignored, and the names [bin] and
      [oct] are those of system functions), every candidate plan gets one operator
      with its calls, filters and inputs, above an exchange when the plan is
      distributed (C40), the operator becomes the producer of its calls and outputs
      what operators above need (C10), and code generation fills the operator's
      specification with them (C14).
    - The life of a function, over all these parts (C13): created, called, dropped,
      under a name that C37 and C39 allow.

    ** What is not modelled

    Reference counts of Python objects, the logging, the run-time statistics and
    the session's status checks do not affect the values.  Of the way
    of a function to the executor, the grammar, the first pass over the producers
    ([allocate_expr_pre]), the pushing of filters, the explain text and
    [fetch_all_python_udf_info], whose statement names a column the table does not
    have, are not modelled; the codecs of values ([ObObj]) and of floating-point
    numbers are not used by these objects.  Of the arena, [join] and [assign] do not
    compile when used, and the builds with memory diagnosis or sanity checks and the
    contents of the blocks are left out.  The rest of
    OceanBase (storage, transactions, the network, costs and the search for plans
    in the optimizer) is the host of this code and is outside the library.

    ** Plan

    The parts of the program that carry Python functions are modelled from the
    statement that creates one to the rows a query gets; nothing further is planned.
    Parts named above as left out would come next: the other entry points of
    expressions, and opening, closing and rescanning in the operator's base class. *)
From stdpp Require Export base tactics list numbers option strings gmap.
From Stdlib Require Export ZArith Lia.
#[global] Open Scope Z_scope.

(** * Return codes *)

(** The codes of [deps/oblib/src/lib/ob_errno.h] the modelled functions
    return; every C++ function that returns [int ret] returns one of them. *)
Definition OB_SUCCESS : Z := 0.
Definition OB_ERROR : Z := -4000.
Definition OB_INVALID_ARGUMENT : Z := -4002.
Definition OB_ARRAY_OUT_OF_RANGE : Z := -4003.
Definition OB_INIT_TWICE : Z := -4005.
Definition OB_NOT_INIT : Z := -4006.
Definition OB_NOT_SUPPORTED : Z := -4007.
Definition OB_ITER_END : Z := -4008.
Definition OB_ALLOCATE_MEMORY_FAILED : Z := -4013.
Definition OB_ERR_SYS : Z := -4015.
Definition OB_ERR_UNEXPECTED : Z := -4016.
Definition OB_ENTRY_EXIST : Z := -4017.
Definition OB_ENTRY_NOT_EXIST : Z := -4018.
Definition OB_SIZE_OVERFLOW : Z := -4019.
Definition OB_BUF_NOT_ENOUGH : Z := -4024.
Definition OB_FILE_NOT_EXIST : Z := -4027.
Definition OB_DESERIALIZE_ERROR : Z := -4034.
Definition OB_INIT_FAIL : Z := -4104.
Definition OB_HASH_EXIST : Z := -4200.
Definition OB_HASH_NOT_EXIST : Z := -4201.
Definition OB_ERR_PARSER_SYNTAX : Z := -5006.
Definition OB_ERR_PRIMARY_KEY_DUPLICATE : Z := -5024.
Definition OB_ERR_COLUMN_NOT_FOUND : Z := -5031.
Definition OB_ERR_PARAM_SIZE : Z := -5054.
Definition OB_ERR_FUNCTION_UNKNOWN : Z := -5055.
Definition OB_ERR_INVALID_PYTHON_UDF : Z := -7300.

(** [OB_SUCC(ret)] and [OB_FAIL(ret)]. *)
Definition OB_SUCC (ret : Z) : bool := Z.eqb ret OB_SUCCESS.
Definition OB_FAIL (ret : Z) : bool := negb (OB_SUCC ret).

(** * Machine integers *)

(** 64-bit unsigned arithmetic: results reduced modulo [2^64], complement and
    left shift at that width. *)
Definition W64 : Z := 2 ^ 64.
Definition uwrap64 (x : Z) : Z := x mod W64.
Definition bnot64 (x : Z) : Z := uwrap64 (Z.lnot x).
Definition shl64 (x n : Z) : Z := uwrap64 (Z.shiftl x n).

(** Conversion of an integer to a signed [w]-bit type (two's complement). *)
Definition swrap (w x : Z) : Z := (x + 2 ^ (w - 1)) mod 2 ^ w - 2 ^ (w - 1).
Definition to_int32 (x : Z) : Z := swrap 32 x.
Definition to_int64 (x : Z) : Z := swrap 64 x.

Lemma swrap_small w x :
  0 < w -> - 2 ^ (w - 1) <= x < 2 ^ (w - 1) -> swrap w x = x.
Proof.
  intros Hw Hx. unfold swrap.
  assert (2 ^ w = 2 * 2 ^ (w - 1)) as E
    by (rewrite <- Z.pow_succ_r by lia; f_equal; lia).
  rewrite Z.mod_small; lia.
Qed.

Lemma swrap_range w x :
  0 < w -> - 2 ^ (w - 1) <= swrap w x < 2 ^ (w - 1).
Proof.
  intros Hw. unfold swrap.
  assert (2 ^ w = 2 * 2 ^ (w - 1)) as E
    by (rewrite <- Z.pow_succ_r by lia; f_equal; lia).
  assert (0 < 2 ^ (w - 1)) by (apply Z.pow_pos_nonneg; lia).
  pose proof (Z.mod_pos_bound (x + 2 ^ (w - 1)) (2 ^ w) ltac:(lia)). lia.
Qed.

Lemma uwrap64_range x : 0 <= uwrap64 x < W64.
Proof. apply Z.mod_pos_bound. reflexivity. Qed.

Lemma uwrap64_small x : 0 <= x < W64 -> uwrap64 x = x.
Proof. apply Z.mod_small. Qed.

(** Bits of 64-bit results, below the width. *)
Lemma testbit_uwrap64 x b : b < 64 -> Z.testbit (uwrap64 x) b = Z.testbit x b.
Proof. intros. unfold uwrap64, W64. now rewrite Z.mod_pow2_bits_low. Qed.

Lemma testbit_high x b : 0 <= x < W64 -> 64 <= b -> Z.testbit x b = false.
Proof.
  intros Hx Hb. rewrite <- (Z.mod_small x W64) by assumption.
  unfold W64. apply Z.mod_pow2_bits_high. lia.
Qed.

Lemma testbit_bnot64 x b :
  0 <= b < 64 -> Z.testbit (bnot64 x) b = negb (Z.testbit x b).
Proof.
  intros. unfold bnot64. rewrite testbit_uwrap64 by lia. apply Z.lnot_spec. lia.
Qed.

Lemma testbit_one b r : 0 <= b -> Z.testbit (Z.shiftl 1 r) b = (b =? r).
Proof.
  intros Hb. destruct (Z.ltb_spec r 0) as [Hr | Hr].
  - rewrite Z.shiftl_spec by lia. destruct (Z.eqb_spec b r); [lia |].
    change 1 with (2 ^ 0). apply Z.pow2_bits_false. lia.
  - rewrite Z.shiftl_1_l, Z.pow2_bits_eqb by lia. apply Z.eqb_sym.
Qed.

Lemma testbit_low_mask b r :
  0 <= r -> 0 <= b -> Z.testbit (Z.shiftl 1 r - 1) b = (b <? r).
Proof.
  intros. rewrite Z.shiftl_1_l, Z.sub_1_r, <- Z.ones_equiv.
  now apply Z.testbit_ones_nonneg.
Qed.

Lemma testbit_high_mask b r :
  0 <= r -> 0 <= b < 64 -> Z.testbit (shl64 (W64 - 1) r) b = (r <=? b).
Proof.
  intros Hr Hb. unfold shl64. rewrite testbit_uwrap64 by lia.
  rewrite Z.shiftl_spec by lia.
  destruct (Z.leb_spec r b).
  - unfold W64. rewrite Z.sub_1_r, <- Z.ones_equiv. apply Z.ones_spec_low. lia.
  - apply Z.testbit_neg_r. lia.
Qed.

(** Two 64-bit words are equal when their 64 bits are. *)
Lemma word_ext x y :
  0 <= x < W64 -> 0 <= y < W64 ->
  (forall b, 0 <= b < 64 -> Z.testbit x b = Z.testbit y b) -> x = y.
Proof.
  intros Hx Hy H. apply Z.bits_inj'. intros n Hn.
  destruct (Z.lt_ge_cases n 64); [apply H; lia |].
  now rewrite !testbit_high by lia.
Qed.

Lemma word_zero_iff x :
  0 <= x < W64 -> (x = 0 <-> forall b, 0 <= b < 64 -> Z.testbit x b = false).
Proof.
  intros Hx. split.
  - intros -> b _. apply Z.testbit_0_l.
  - intros H. apply word_ext; [lia | unfold W64; lia |].
    intros b Hb. now rewrite Z.testbit_0_l, H.
Qed.

Lemma land_lt n x y : 0 <= n -> 0 <= x < 2 ^ n -> 0 <= y -> 0 <= Z.land x y < 2 ^ n.
Proof.
  intros Hn Hx Hy. split; [apply Z.land_nonneg; lia |].
  rewrite <- (Z.mod_small x (2 ^ n)), <- Z.land_ones by lia.
  rewrite <- Z.land_assoc, (Z.land_comm (Z.ones n)), Z.land_assoc, Z.land_ones by lia.
  apply Z.mod_pos_bound. lia.
Qed.

Lemma land_range x y : 0 <= x < W64 -> 0 <= y -> 0 <= Z.land x y < W64.
Proof. apply (land_lt 64). lia. Qed.

Lemma lor_range x y : 0 <= x < W64 -> 0 <= y < W64 -> 0 <= Z.lor x y < W64.
Proof.
  intros Hx Hy. split; [apply Z.lor_nonneg; lia |].
  destruct (Z.eq_dec (Z.lor x y) 0) as [-> | Hne]; [unfold W64; lia |].
  assert (0 <= Z.lor x y) by (apply Z.lor_nonneg; lia).
  apply Z.log2_lt_pow2; [lia |]. rewrite Z.log2_lor by lia.
  assert (forall z, 0 <= z < W64 -> Z.log2 z < 64) as Hz.
  { intros z Hz. destruct (Z.eq_dec z 0) as [-> |]; [reflexivity |].
    apply Z.log2_lt_pow2; unfold W64 in Hz; lia. }
  pose proof (Hz x Hx). pose proof (Hz y Hy). lia.
Qed.

(** The automation of 64-bit words: [wordbits] holds the bit-level rewrites,
    [wordrange] the range facts. *)
Create Rewrite HintDb wordbits.
#[export] Hint Rewrite Z.land_spec Z.lor_spec Z.lxor_spec Z.testbit_0_l : wordbits.
#[export] Hint Rewrite testbit_uwrap64 testbit_bnot64 testbit_one
  testbit_low_mask testbit_high_mask using lia : wordbits.
Create HintDb wordrange discriminated.
#[export] Hint Resolve uwrap64_range land_range lor_range : wordrange.

(** ** [ObPythonUDF::PyUdfRetType], the types of Python functions *)
Inductive PyUdfRetType := UDF_UNINITIAL | STRING | INTEGER | REAL | DECIMAL.
#[export] Instance PyUdfRetType_eq_dec : EqDecision PyUdfRetType.
Proof. solve_decision. Defined.
