(* ===== verification/PopCount.v ===== *)
(** The bit count of one 64-bit word: [ObBitVectorImpl::popcount64] of
    [src/src/sql/engine/ob_bit_vector.h], and its equivalence with the plain
    count of the set bits.

    The code's branch without [__POPCNT__] adds neighbouring fields of 2, 4 and
    8 bits in parallel.  The proof reads the word as a list of bytes: each step
    acts on the bytes independently, and on one byte it is checked on all 256
    values. *)
From S2P Require Import Prelude.

(** The number of [i] in [[lo, hi)] with [p i]. *)
Fixpoint count_nat (n : nat) (lo : Z) (p : Z -> bool) : Z :=
  match n with
  | O => 0
  | S n' => Z.b2z (p lo) + count_nat n' (lo + 1) p
  end.
Definition count (lo hi : Z) (p : Z -> bool) : Z := count_nat (Z.to_nat (hi - lo)) lo p.

(** The portable branch of [popcount64] (no [__POPCNT__]). *)
Definition popcount64 (v : Z) : Z :=
  if v =? 0 then 0
  else
    let v1 := uwrap64 (v - Z.land (Z.shiftr v 1) 0x5555555555555555) in
    let v2 := uwrap64 (Z.land v1 0x3333333333333333
                       + Z.land (Z.shiftr v1 2) 0x3333333333333333) in
    Z.shiftr (uwrap64 (Z.land (uwrap64 (v2 + Z.shiftr v2 4)) 0x0F0F0F0F0F0F0F0F
                       * 0x0101010101010101)) 56.

(** ** Counting *)

Lemma count_nat_ext n lo p q :
  (forall i, lo <= i < lo + Z.of_nat n -> p i = q i) ->
  count_nat n lo p = count_nat n lo q.
Proof.
  revert lo. induction n as [| n IH]; intros lo H; simpl; [reflexivity |].
  rewrite H by lia. f_equal. apply IH. intros i Hi. apply H. lia.
Qed.

Lemma count_nat_app n m lo p :
  count_nat (n + m) lo p = count_nat n lo p + count_nat m (lo + Z.of_nat n) p.
Proof.
  revert lo. induction n as [| n IH]; intros lo.
  - cbn [Nat.add count_nat]. replace (lo + Z.of_nat 0) with lo by lia. lia.
  - cbn [Nat.add count_nat]. rewrite IH.
    replace (lo + Z.of_nat (S n)) with (lo + 1 + Z.of_nat n) by lia. lia.
Qed.

Lemma count_nat_shift n lo k p :
  count_nat n (lo + k) p = count_nat n lo (fun i => p (i + k)).
Proof.
  revert lo. induction n as [| n IH]; intros lo; simpl; [reflexivity |].
  f_equal. rewrite <- IH. f_equal. lia.
Qed.

Lemma count_nat_bound n lo p : 0 <= count_nat n lo p <= Z.of_nat n.
Proof.
  revert lo. induction n as [| n IH]; intros lo; cbn [count_nat]; [lia |].
  specialize (IH (lo + 1)). destruct (p lo); simpl; lia.
Qed.

Lemma count_split lo mid hi p :
  lo <= mid <= hi -> count lo hi p = count lo mid p + count mid hi p.
Proof.
  intros H. unfold count.
  replace (Z.to_nat (hi - lo)) with (Z.to_nat (mid - lo) + Z.to_nat (hi - mid))%nat by lia.
  rewrite count_nat_app. do 2 f_equal. lia.
Qed.

Lemma count_ext lo hi p q :
  (forall i, lo <= i < hi -> p i = q i) -> count lo hi p = count lo hi q.
Proof. intros H. apply count_nat_ext. intros i Hi. apply H. lia. Qed.

Lemma count_bound lo hi p : lo <= hi -> 0 <= count lo hi p <= hi - lo.
Proof. intros H. pose proof (count_nat_bound (Z.to_nat (hi - lo)) lo p). unfold count. lia. Qed.

Lemma count_shift lo hi k p :
  count (lo + k) (hi + k) p = count lo hi (fun i => p (i + k)).
Proof. unfold count. rewrite count_nat_shift. do 2 f_equal; lia. Qed.

Lemma count_none lo hi p :
  (forall i, lo <= i < hi -> p i = false) -> count lo hi p = 0.
Proof.
  intros H. rewrite (count_ext lo hi p (fun _ => false)) by exact H.
  unfold count. remember (Z.to_nat (hi - lo)) as n eqn:E. clear. revert lo.
  induction n as [| n IH]; intros lo; simpl; [reflexivity | apply IH].
Qed.

(** ** Words as lists of bytes *)

Fixpoint bytes_val (bs : list Z) : Z :=
  match bs with [] => 0 | c :: bs' => c + 256 * bytes_val bs' end.
Definition is_byte (c : Z) : Prop := 0 <= c < 256.

Fixpoint word_bytes (n : nat) (v : Z) : list Z :=
  match n with O => [] | S n' => v mod 256 :: word_bytes n' (v / 256) end.

Lemma bytes_val_word_bytes n v :
  0 <= v < 256 ^ Z.of_nat n -> bytes_val (word_bytes n v) = v.
Proof.
  revert v. induction n as [| n IH]; intros v Hv; cbn [word_bytes bytes_val].
  - change (256 ^ Z.of_nat 0) with 1 in Hv. lia.
  - rewrite Nat2Z.inj_succ, Z.pow_succ_r in Hv by lia.
    rewrite IH. { pose proof (Z.div_mod v 256). lia. }
    split; [apply Z.div_pos; lia | apply Z.div_lt_upper_bound; lia].
Qed.

Lemma word_bytes_ok n v : Forall is_byte (word_bytes n v).
Proof.
  revert v. induction n as [| n IH]; intros v; simpl; constructor; [| apply IH].
  apply Z.mod_pos_bound. lia.
Qed.

Lemma testbit_cat c r b :
  is_byte c -> 0 <= b ->
  Z.testbit (c + 256 * r) b = if b <? 8 then Z.testbit c b else Z.testbit r (b - 8).
Proof.
  intros Hc Hb. destruct (Z.ltb_spec b 8).
  - rewrite <- (Z.mod_pow2_bits_low _ 8) by lia.
    change (2 ^ 8) with 256. rewrite Z.mul_comm, Z.mod_add by lia.
    rewrite Z.mod_small by exact Hc. reflexivity.
  - replace b with ((b - 8) + 8) at 1 by lia.
    rewrite <- Z.div_pow2_bits by lia. change (2 ^ 8) with 256.
    rewrite Z.mul_comm, Z.div_add by lia. now rewrite Z.div_small.
Qed.

(** [land] acts on the low byte and on the rest separately. *)
Lemma land_cat c r c' r' :
  is_byte c -> is_byte c' ->
  Z.land (c + 256 * r) (c' + 256 * r') = Z.land c c' + 256 * Z.land r r'.
Proof.
  intros Hc Hc'.
  assert (is_byte (Z.land c c')) as Hl.
  { split; [apply Z.land_nonneg; unfold is_byte in *; lia |].
    destruct (Z.eq_dec (Z.land c c') 0); [lia |].
    change 256 with (2 ^ 8). apply Z.log2_lt_pow2.
    - assert (0 <= Z.land c c') by (apply Z.land_nonneg; unfold is_byte in *; lia). lia.
    - eapply Z.le_lt_trans; [apply Z.log2_land; unfold is_byte in *; lia |].
      apply Z.min_lt_iff. left. destruct (Z.eq_dec c 0) as [-> |]; [reflexivity |].
      apply Z.log2_lt_pow2; unfold is_byte in *; lia. }
  apply Z.bits_inj'. intros b Hb.
  rewrite Z.land_spec, !testbit_cat by assumption.
  destruct (Z.ltb_spec b 8); now rewrite Z.land_spec.
Qed.

Lemma shiftr_cat c r s :
  0 <= s <= 8 ->
  Z.shiftr (c + 256 * r) s = Z.shiftr c s + 2 ^ (8 - s) * r.
Proof.
  intros Hs. rewrite !Z.shiftr_div_pow2 by lia.
  replace 256 with (2 ^ (8 - s) * 2 ^ s)
    by (rewrite <- Z.pow_add_r by lia; replace (8 - s + s) with 8 by lia; reflexivity).
  rewrite <- Z.mul_assoc, (Z.mul_comm (2 ^ s)), Z.mul_assoc.
  rewrite Z.div_add by (apply Z.pow_nonzero; lia). reflexivity.
Qed.

Definition rep (m : Z) (bs : list Z) : Z := bytes_val (map (fun _ => m) bs).

Lemma forall_bytes (P : Z -> bool) :
  forallb P (map Z.of_nat (seq 0 256)) = true -> forall c, is_byte c -> P c = true.
Proof.
  intros H c Hc. rewrite forallb_forall in H. apply H.
  rewrite in_map_iff. exists (Z.to_nat c). unfold is_byte in Hc. split; [lia |].
  apply in_seq. lia.
Qed.

(** A shift by [s] followed by a mask that keeps only the low [8 - s] bits of
    each byte acts bytewise. *)
Lemma shift_mask_bytes s m bs :
  0 <= s <= 8 -> 0 <= m < 2 ^ (8 - s) -> Forall is_byte bs ->
  Z.land (Z.shiftr (bytes_val bs) s) (rep m bs)
  = bytes_val (map (fun c => Z.land (Z.shiftr c s) m) bs).
Proof.
  intros Hs Hm Hbs.
  assert (is_byte m) as Hmb.
  { split; [lia |]. apply Z.lt_le_trans with (2 ^ (8 - s)); [lia |].
    change 256 with (2 ^ 8). apply Z.pow_le_mono_r; lia. }
  unfold rep. induction Hbs as [| c bs Hc _ IH]; cbn [map bytes_val].
  - now rewrite Z.shiftr_0_l, Z.land_0_l.
  - rewrite shiftr_cat by lia. set (r := bytes_val bs) in *.
    assert (0 <= Z.shiftr c s < 2 ^ (8 - s)) as Hcs.
    { rewrite Z.shiftr_div_pow2 by lia. unfold is_byte in Hc.
      split; [apply Z.div_pos; [lia | apply Z.pow_pos_nonneg; lia] |].
      apply Z.div_lt_upper_bound; [apply Z.pow_pos_nonneg; lia |].
      rewrite <- Z.pow_add_r by lia. replace (s + (8 - s)) with 8 by lia. lia. }
    assert (0 < 2 ^ s) by (apply Z.pow_pos_nonneg; lia).
    assert (2 ^ (8 - s) * 2 ^ s = 256) as E
      by (rewrite <- Z.pow_add_r by lia; replace (8 - s + s) with 8 by lia; reflexivity).
    pose proof (Z.div_mod r (2 ^ s) ltac:(lia)) as Hdm.
    pose proof (Z.mod_pos_bound r (2 ^ s) ltac:(lia)).
    assert (2 ^ (8 - s) * r = 256 * Z.shiftr r s + 2 ^ (8 - s) * (r mod 2 ^ s)) as Er
      by (rewrite (Z.shiftr_div_pow2 r) by lia; rewrite <- E; rewrite Hdm at 1; ring).
    replace (Z.shiftr c s + 2 ^ (8 - s) * r)
      with ((Z.shiftr c s + 2 ^ (8 - s) * (r mod 2 ^ s)) + 256 * Z.shiftr r s) by lia.
    rewrite land_cat; [| unfold is_byte; nia | exact Hmb].
    rewrite <- IH. f_equal. apply Z.bits_inj'. intros b Hb.
    rewrite !Z.land_spec. destruct (Z.lt_ge_cases b (8 - s)) as [Hlt | Hge].
    + f_equal. rewrite <- (Z.mod_pow2_bits_low (_ + _) (8 - s)) by lia.
      rewrite Z.mul_comm, Z.mod_add by (apply Z.pow_nonzero; lia).
      now rewrite Z.mod_small.
    + assert (Z.testbit m b = false) as ->; [| now rewrite !andb_false_r].
      rewrite <- (Z.mod_small m (2 ^ (8 - s))) by lia.
      apply Z.mod_pow2_bits_high. lia.
Qed.

(** ** The three field additions, bytewise *)

Definition p1 (c : Z) : Z := c - Z.land (Z.shiftr c 1) 0x55.
Definition p2 (c : Z) : Z := Z.land (Z.shiftr c 0) 0x33 + Z.land (Z.shiftr c 2) 0x33.
Definition p3 (c : Z) : Z := (c + Z.shiftr c 4) mod 16.

Lemma bytes_val_add (f g : Z -> Z) (bs : list Z) :
  bytes_val (map f bs) + bytes_val (map g bs) = bytes_val (map (fun c => f c + g c) bs).
Proof. induction bs as [| c bs IH]; cbn [map bytes_val]; lia. Qed.

Lemma bytes_val_sub (g : Z -> Z) (bs : list Z) :
  bytes_val bs - bytes_val (map g bs) = bytes_val (map (fun c => c - g c) bs).
Proof. induction bs as [| c bs IH]; cbn [map bytes_val]; lia. Qed.

Lemma bytes_val_range bs :
  Forall is_byte bs -> 0 <= bytes_val bs < 256 ^ Z.of_nat (length bs).
Proof.
  induction 1 as [| c bs Hc _ IH]; cbn [bytes_val length]; [lia |].
  rewrite Nat2Z.inj_succ, Z.pow_succ_r by lia. unfold is_byte in Hc. lia.
Qed.

(** The bytes after the second step hold two nibbles, each at most 4. *)
Definition nibbles4 (c : Z) : Prop := 0 <= c /\ c mod 16 <= 4 /\ c / 16 <= 4.

Lemma nibbles4_byte c : nibbles4 c -> is_byte c /\ c <= 68.
Proof.
  unfold nibbles4, is_byte. intros (H0 & H1 & H2).
  pose proof (Z.div_mod c 16 ltac:(lia)). lia.
Qed.

Lemma bytes_val_mod16 bs : Forall nibbles4 bs -> 0 <= bytes_val bs mod 16 <= 4.
Proof.
  intros H. split; [apply Z.mod_pos_bound; lia |].
  destruct H as [| c bs Hc _]; cbn [bytes_val]; [rewrite Z.mod_0_l; lia |].
  replace (c + 256 * bytes_val bs) with (c + (16 * bytes_val bs) * 16) by lia.
  rewrite Z.mod_add by lia. apply Hc.
Qed.

Lemma add_shift4_bytes bs :
  Forall nibbles4 bs ->
  Z.land (bytes_val bs + Z.shiftr (bytes_val bs) 4) (rep 15 bs)
  = bytes_val (map p3 bs).
Proof.
  unfold rep. induction 1 as [| c bs Hc Hbs IH]; cbn [map bytes_val].
  - apply Z.land_0_r.
  - rewrite shiftr_cat by lia. change (2 ^ (8 - 4)) with 16.
    set (r := bytes_val bs) in *.
    pose proof (bytes_val_mod16 bs Hbs) as Hr. fold r in Hr.
    pose proof (nibbles4_byte c Hc) as [Hb Hc68]. unfold is_byte in Hb.
    pose proof (Z.div_mod r 16 ltac:(lia)).
    assert (Z.shiftr c 4 = c / 16) as Esc by (now rewrite Z.shiftr_div_pow2 by lia).
    destruct Hc as (_ & _ & Hc4). pose proof (Z.div_pos c 16 ltac:(lia) ltac:(lia)).
    replace (c + 256 * r + (Z.shiftr c 4 + 16 * r))
      with ((c + Z.shiftr c 4 + 16 * (r mod 16)) + 256 * (r + Z.shiftr r 4))
      by (rewrite (Z.shiftr_div_pow2 r 4) by lia; change (2 ^ 4) with 16; lia).
    rewrite land_cat; [| unfold is_byte; lia | unfold is_byte; lia].
    rewrite IH. f_equal. change 15 with (Z.ones 4). rewrite Z.land_ones by lia.
    unfold p3. change (2 ^ 4) with 16.
    rewrite (Z.mul_comm 16), Z.mod_add by lia. reflexivity.
Qed.

(** On one byte, the composition of the steps is the bit count; checked on all
    256 values. *)
Definition byte_count_ok (c : Z) : bool :=
  (p3 (p2 (p1 c)) =? count 0 8 (Z.testbit c))
  && (0 <=? p1 c) && (p1 c <? 256)
  && (0 <=? p2 (p1 c)) && (p2 (p1 c) mod 16 <=? 4) && (p2 (p1 c) / 16 <=? 4).

Lemma byte_steps c :
  is_byte c ->
  p3 (p2 (p1 c)) = count 0 8 (Z.testbit c) /\ is_byte (p1 c) /\ nibbles4 (p2 (p1 c)).
Proof.
  intros Hc. pose proof (forall_bytes byte_count_ok ltac:(vm_compute; reflexivity) c Hc) as H.
  unfold byte_count_ok in H. rewrite !andb_true_iff, !Z.leb_le, Z.ltb_lt, Z.eqb_eq in H.
  unfold is_byte, nibbles4. lia.
Qed.

Definition sum_list (l : list Z) : Z := foldr Z.add 0 l.

Lemma count_bytes bs :
  Forall is_byte bs ->
  count 0 (8 * Z.of_nat (length bs)) (Z.testbit (bytes_val bs))
  = sum_list (map (fun c => count 0 8 (Z.testbit c)) bs).
Proof.
  induction 1 as [| c bs Hc _ IH]; [reflexivity |]. cbn [length map bytes_val].
  rewrite (count_split 0 8) by lia. unfold sum_list in *. cbn [foldr]. f_equal.
  - apply count_ext. intros i Hi. rewrite testbit_cat by (assumption || lia).
    destruct (Z.ltb_spec i 8); [reflexivity | lia].
  - rewrite <- IH. replace (8 * Z.of_nat (S (length bs))) with (8 * Z.of_nat (length bs) + 8) by lia.
    change 8 with (0 + 8) at 1. rewrite count_shift. apply count_ext. intros i Hi.
    rewrite testbit_cat by (assumption || lia).
    destruct (Z.ltb_spec (i + 8) 8); [lia | f_equal; lia].
Qed.

(** The multiplication gathers the eight byte counts in the top byte. *)
Lemma gather_bytes a b c d e f g h :
  0 <= a <= 8 -> 0 <= b <= 8 -> 0 <= c <= 8 -> 0 <= d <= 8 ->
  0 <= e <= 8 -> 0 <= f <= 8 -> 0 <= g <= 8 -> 0 <= h <= 8 ->
  Z.shiftr (uwrap64 (bytes_val [a; b; c; d; e; f; g; h] * 0x0101010101010101)) 56
  = sum_list [a; b; c; d; e; f; g; h].
Proof.
  intros. cbn [bytes_val sum_list foldr]. unfold uwrap64, W64.
  rewrite Z.shiftr_div_pow2 by lia.
  change (2 ^ 64) with 18446744073709551616. change (2 ^ 56) with 72057594037927936.
  set (hi := (b+c+d+e+f+g+h) + 256*((c+d+e+f+g+h) + 256*((d+e+f+g+h) + 256*((e+f+g+h)
             + 256*((f+g+h) + 256*((g+h) + 256*h)))))).
  set (low := a + 256*((a+b) + 256*((a+b+c) + 256*((a+b+c+d) + 256*((a+b+c+d+e)
              + 256*((a+b+c+d+e+f) + 256*(a+b+c+d+e+f+g))))))).
  set (s := a + (b + (c + (d + (e + (f + (g + (h + 0)))))))).
  match goal with
  | |- ?x mod _ / _ = _ =>
      replace x with ((low + s * 72057594037927936) + hi * 18446744073709551616)
        by (subst hi low s; lia)
  end.
  rewrite Z.mod_add by lia. rewrite Z.mod_small by (subst low s; lia).
  rewrite Z.div_add by lia. rewrite Z.div_small by (subst low; lia). lia.
Qed.

(** ** The equivalence *)

Lemma step1_bytes bs :
  Forall is_byte bs ->
  bytes_val bs - Z.land (Z.shiftr (bytes_val bs) 1) (rep 0x55 bs) = bytes_val (map p1 bs).
Proof.
  intros H. rewrite shift_mask_bytes by (assumption || lia). apply bytes_val_sub.
Qed.

Lemma step2_bytes bs :
  Forall is_byte bs ->
  Z.land (bytes_val bs) (rep 0x33 bs) + Z.land (Z.shiftr (bytes_val bs) 2) (rep 0x33 bs)
  = bytes_val (map p2 bs).
Proof.
  intros H. rewrite <- (Z.shiftr_0_r (bytes_val bs)) at 1.
  rewrite !shift_mask_bytes by (assumption || lia). apply bytes_val_add.
Qed.

Lemma bytes_val_le68 bs :
  Forall nibbles4 bs -> 255 * bytes_val bs <= 68 * (256 ^ Z.of_nat (length bs) - 1).
Proof.
  induction 1 as [| c bs Hc _ IH]; cbn [bytes_val length]; [lia |].
  rewrite Nat2Z.inj_succ, Z.pow_succ_r by lia.
  apply nibbles4_byte in Hc. lia.
Qed.

Lemma step3_bytes bs :
  length bs = 8%nat -> Forall nibbles4 bs ->
  Z.land (uwrap64 (bytes_val bs + Z.shiftr (bytes_val bs) 4)) (rep 15 bs)
  = bytes_val (map p3 bs).
Proof.
  intros Hl H. rewrite uwrap64_small; [now apply add_shift4_bytes |].
  pose proof (bytes_val_le68 bs H) as Hb. rewrite Hl in Hb.
  assert (0 <= bytes_val bs) as H0.
  { apply bytes_val_range. eapply Forall_impl; [exact H |].
    intros c Hc. apply (nibbles4_byte c Hc). }
  rewrite Z.shiftr_div_pow2 by lia. change (2 ^ 4) with 16.
  pose proof (Z.div_pos (bytes_val bs) 16 H0 ltac:(lia)).
  pose proof (Z.div_le_upper_bound (bytes_val bs) 16 (bytes_val bs) ltac:(lia) ltac:(lia)).
  change (256 ^ Z.of_nat 8) with W64 in Hb. lia.
Qed.

Lemma gather_list bs :
  length bs = 8%nat -> Forall (fun c => 0 <= c <= 8) bs ->
  Z.shiftr (uwrap64 (bytes_val bs * 0x0101010101010101)) 56 = sum_list bs.
Proof.
  intros Hl H. do 8 (destruct bs as [| ? bs]; [discriminate |]).
  destruct bs; [| discriminate]. rewrite !Forall_cons in H.
  apply gather_bytes; intuition.
Qed.

(** The parallel additions of [popcount64] count the set bits of the word. *)
Lemma popcount64_spec v :
  0 <= v < W64 -> popcount64 v = count 0 64 (Z.testbit v).
Proof.
  intros Hv. unfold popcount64. destruct (Z.eqb_spec v 0) as [-> | _].
  { symmetry. apply count_none. intros. apply Z.testbit_0_l. }
  remember (word_bytes 8 v) as bs eqn:Ebs.
  assert (length bs = 8%nat) as Hl by now rewrite Ebs.
  assert (bytes_val bs = v) as Ev by (subst; apply bytes_val_word_bytes; exact Hv).
  assert (Forall is_byte bs) as H0 by (subst bs; apply word_bytes_ok).
  clear Ebs. subst v.
  assert (Forall is_byte (map p1 bs)) as H1.
  { apply Forall_map. eapply Forall_impl; [exact H0 |]. intros c Hc. apply byte_steps, Hc. }
  assert (Forall nibbles4 (map p2 (map p1 bs))) as H2.
  { apply Forall_map, Forall_map. eapply Forall_impl; [exact H0 |].
    intros c Hc. apply byte_steps, Hc. }
  assert (Forall is_byte (map p2 (map p1 bs))) as H2'.
  { eapply Forall_impl; [exact H2 |]. intros c Hc. apply (nibbles4_byte c Hc). }
  assert (forall m l, length l = 8%nat -> rep m l = rep m (repeat 0 8)) as Hrep.
  { intros m l E. do 8 (destruct l as [| ? l]; [discriminate |]).
    destruct l; [reflexivity | discriminate]. }
  assert (forall l, length l = 8%nat -> Forall is_byte l ->
            uwrap64 (bytes_val l) = bytes_val l) as Hw.
  { intros l E Hb. apply uwrap64_small. pose proof (bytes_val_range l Hb) as Hr.
    rewrite E in Hr. exact Hr. }
  change 0x5555555555555555 with (rep 0x55 (repeat 0 8)).
  change 0x3333333333333333 with (rep 0x33 (repeat 0 8)).
  change 0x0F0F0F0F0F0F0F0F with (rep 15 (repeat 0 8)).
  rewrite <- (Hrep 0x55 bs), step1_bytes, Hw by (rewrite ?length_map; assumption).
  rewrite <- (Hrep 0x33 (map p1 bs)), step2_bytes, Hw by (rewrite ?length_map; assumption).
  rewrite <- (Hrep 15 (map p2 (map p1 bs))), step3_bytes by (rewrite ?length_map; assumption).
  rewrite gather_list; [| now rewrite !length_map |].
  - change 64 with (8 * Z.of_nat 8). rewrite <- Hl, count_bytes by assumption.
    f_equal. rewrite !map_map. apply map_ext_in. intros c Hc.
    apply byte_steps. rewrite Forall_forall in H0. apply H0, list_elem_of_In, Hc.
  - apply Forall_map, Forall_map, Forall_map. eapply Forall_impl; [exact H0 |].
    intros c Hc. destruct (byte_steps c Hc) as [-> _].
    pose proof (count_bound 0 8 (Z.testbit c)). lia.
Qed.
