(* ===== verification/BitVector.v ===== *)
(** The bit vector of vectorised execution: [ObBitVector], that is
    [ObBitVectorImpl<uint64_t>] of [src/src/sql/engine/ob_bit_vector.h].

    A vector is the list of its 64-bit words ([data_]).  The C++ type carries no
    size ("the caller's responsibility to make sure memory is enough"), so every
    pointwise theorem has the capacity hypothesis [fits v n]: the memory holds
    at least [n] bits. *)
From S2P Require Import Prelude PopCount.

Module ObBitVector.

(** ** The representation *)

Abbreviation t := (list Z).

Definition WORD_BITS : Z := 64.
Definition BYTES_PER_WORD : Z := 8.
Definition CHAR_BIT : Z := 8.

(** [data_[i]], and the assignment [data_[i] = w]. *)
Definition wd (v : t) (i : Z) : Z := default 0 (v !! Z.to_nat i).
Definition set_wd (v : t) (i w : Z) : t := <[Z.to_nat i := w]> v.

(** Every word is a [uint64_t]. *)
Definition wf (v : t) : Prop := Forall (fun w => 0 <= w < W64) v.
(** The memory holds [n] bits. *)
Definition fits (v : t) (n : Z) : Prop := n <= WORD_BITS * Z.of_nat (length v).

(** [for (i = lo; i < hi; i++) data_[i] = f(i, data_[i])]. *)
Fixpoint for_words_nat (n : nat) (lo : Z) (f : Z -> Z -> Z) (v : t) : t :=
  match n with
  | O => v
  | S n' => for_words_nat n' (lo + 1) f (set_wd v lo (f lo (wd v lo)))
  end.
Definition for_words (lo hi : Z) (f : Z -> Z -> Z) (v : t) : t :=
  for_words_nat (Z.to_nat (hi - lo)) lo f v.

(** [for (i = lo; ok && i < hi; i++) ok = p(i)]. *)
Fixpoint all_words_nat (n : nat) (lo : Z) (p : Z -> bool) : bool :=
  match n with
  | O => true
  | S n' => if p lo then all_words_nat n' (lo + 1) p else false
  end.
Definition all_words (lo hi : Z) (p : Z -> bool) : bool :=
  all_words_nat (Z.to_nat (hi - lo)) lo p.

(** ** The operations of the header *)

Definition word_count (size : Z) : Z := (size + WORD_BITS - 1) / WORD_BITS.
Definition byte_count (size : Z) : Z := (size + CHAR_BIT - 1) / CHAR_BIT.
Definition memory_size (size : Z) : Z := word_count size * BYTES_PER_WORD.

(** [MEMSET(data_, 0, memory_size(size))]: whole words. *)
Definition init (size : Z) (v : t) : t :=
  for_words 0 (memory_size size / BYTES_PER_WORD) (fun _ _ => 0) v.
Definition reset (size : Z) (v : t) : t := init size v.

Definition at_ (v : t) (idx : Z) : bool :=
  negb (Z.land (wd v (idx / WORD_BITS)) (shl64 1 (idx mod WORD_BITS)) =? 0).

Definition set (v : t) (idx : Z) : t :=
  set_wd v (idx / WORD_BITS)
    (Z.lor (wd v (idx / WORD_BITS)) (shl64 1 (idx mod WORD_BITS))).

Definition unset (v : t) (idx : Z) : t :=
  set_wd v (idx / WORD_BITS)
    (Z.land (wd v (idx / WORD_BITS)) (bnot64 (shl64 1 (idx mod WORD_BITS)))).

Definition bit_or_assign (v : t) (idx : Z) (b : bool) : t :=
  set_wd v (idx / WORD_BITS)
    (Z.lor (wd v (idx / WORD_BITS)) (shl64 (Z.b2z b) (idx mod WORD_BITS))).

(** The byte of [w] at byte offset [k] (little endian), and the word with the
    low [k] bytes taken from [src] and the others from [dst]. *)
Definition low_bytes_from (k : Z) (dst src : Z) : Z :=
  Z.lor (Z.land src (Z.shiftl 1 (CHAR_BIT * k) - 1))
        (Z.land dst (bnot64 (Z.shiftl 1 (CHAR_BIT * k) - 1))).

(** [MEMCPY(data_, src.data_, byte_count(size))]. *)
Definition deep_copy (dst src : t) (size : Z) : t :=
  let n := byte_count size in
  let cnt := n / BYTES_PER_WORD in
  let v := for_words 0 cnt (fun i _ => wd src i) dst in
  if n mod BYTES_PER_WORD =? 0 then v
  else set_wd v cnt (low_bytes_from (n mod BYTES_PER_WORD) (wd v cnt) (wd src cnt)).

Definition is_superset_of (v other : t) (size : Z) : bool :=
  all_words 0 (word_count size)
    (fun i => Z.land (bnot64 (wd v i)) (wd other i) =? 0).

Definition is_subset_of (v other : t) (size : Z) : bool :=
  is_superset_of other v size.

(** The mask [(1LU << n) - 1]. *)
Definition low_mask (n : Z) : Z := Z.shiftl 1 n - 1.

Definition bit_op_zero (l r : t) (size : Z) (op : Z -> Z -> Z) : bool :=
  let cnt := size / WORD_BITS in
  let passed := all_words 0 cnt (fun i => op (wd l i) (wd r i) =? 0) in
  if passed && negb (size mod WORD_BITS =? 0) then
    Z.land (op (wd l cnt) (wd r cnt)) (low_mask (size mod WORD_BITS)) =? 0
  else passed.

Definition bit_calculate (v l r : t) (size : Z) (op : Z -> Z -> Z) : t :=
  let cnt := size / WORD_BITS in
  let v1 := for_words 0 cnt (fun i _ => op (wd l i) (wd r i)) v in
  if size mod WORD_BITS =? 0 then v1
  else
    let m := low_mask (size mod WORD_BITS) in
    set_wd v1 cnt (Z.lor (Z.land (op (wd l cnt) (wd r cnt)) m)
                         (Z.land (wd v1 cnt) (bnot64 m))).

Definition bit_not (v other : t) (size : Z) : t :=
  let cnt := size / WORD_BITS in
  let v1 := for_words 0 cnt (fun i _ => bnot64 (wd other i)) v in
  if size mod WORD_BITS =? 0 then v1
  else
    let m := low_mask (size mod WORD_BITS) in
    set_wd v1 cnt (Z.lor (Z.land (bnot64 (wd other cnt)) m)
                         (Z.land (wd v1 cnt) (bnot64 m))).

(** The overload that complements the vector in place. *)
Definition bit_not_self (v : t) (size : Z) : t :=
  let cnt := size / WORD_BITS in
  let v1 := for_words 0 cnt (fun _ w => bnot64 w) v in
  if size mod WORD_BITS =? 0 then v1
  else
    let m := low_mask (size mod WORD_BITS) in
    set_wd v1 cnt (Z.lor (Z.land (bnot64 (wd v1 cnt)) m)
                         (Z.land (wd v1 cnt) (bnot64 m))).

(** [for (i = lo; i < hi; ++i) bit_cnt += popcount64(data_[i])]. *)
Fixpoint sum_words_nat (n : nat) (lo : Z) (v : t) : Z :=
  match n with
  | O => 0
  | S n' => popcount64 (wd v lo) + sum_words_nat n' (lo + 1) v
  end.
Definition sum_words (lo hi : Z) (v : t) : Z :=
  sum_words_nat (Z.to_nat (hi - lo)) lo v.

Definition accumulate_bit_cnt (v : t) (size : Z) : Z :=
  let cnt := size / WORD_BITS in
  let remain := size mod WORD_BITS in
  let bit_cnt := sum_words 0 cnt v in
  if 0 <? remain then bit_cnt + popcount64 (Z.land (wd v cnt) (low_mask remain))
  else bit_cnt.

(** The overload on an [EvalBound] [[start, end)]. *)
Definition accumulate_bit_cnt_bound (v : t) (start_ end_ : Z) : Z :=
  let s := start_ / WORD_BITS in
  let e := end_ / WORD_BITS in
  let c0 := sum_words s e v in
  let front := start_ mod WORD_BITS in
  let c1 := if 0 <? front then c0 - popcount64 (Z.land (wd v s) (low_mask front)) else c0 in
  let back := end_ mod WORD_BITS in
  if 0 <? back then c1 + popcount64 (Z.land (wd v e) (low_mask back)) else c1.

Definition set_all (v : t) (size : Z) : t :=
  let v1 := for_words 0 (size / WORD_BITS) (fun _ _ => W64 - 1) v in
  if size mod WORD_BITS =? 0 then v1
  else set_wd v1 (size / WORD_BITS)
         (Z.lor (wd v1 (size / WORD_BITS)) (low_mask (size mod WORD_BITS))).

Definition is_all_true (v : t) (size : Z) : bool :=
  let cnt := size / WORD_BITS in
  let remain := size mod WORD_BITS in
  let r := all_words 0 cnt (fun i => W64 - 1 =? wd v i) in
  if r && (0 <? remain) then Z.land (wd v cnt) (low_mask remain) =? low_mask remain
  else r.

Definition is_all_false (v : t) (size : Z) : bool :=
  let cnt := size / WORD_BITS in
  let remain := size mod WORD_BITS in
  let r := all_words 0 cnt (fun i => 0 =? wd v i) in
  if r && (0 <? remain) then Z.land (wd v cnt) (low_mask remain) =? 0 else r.

(** [get_start_end_mask]: the masks and word indices of [[start_idx, end_idx)]. *)
Record masks := mkMasks
  { start_mask : Z; end_mask : Z; start_cnt : Z; end_cnt : Z }.
Definition get_start_end_mask (start_idx end_idx : Z) : masks :=
  {| start_mask := shl64 (W64 - 1) (start_idx mod WORD_BITS);
     end_mask := low_mask (end_idx mod WORD_BITS);
     start_cnt := start_idx / WORD_BITS;
     end_cnt := end_idx / WORD_BITS |}.

Definition is_all_true_range (v : t) (start_idx end_idx : Z) : bool :=
  let m := get_start_end_mask start_idx end_idx in
  if start_cnt m =? end_cnt m then
    let one := Z.land (start_mask m) (end_mask m) in
    Z.land (wd v (start_cnt m)) one =? one
  else
    let r := (Z.land (wd v (start_cnt m)) (start_mask m) =? start_mask m)
             && all_words (start_cnt m + 1) (end_cnt m) (fun i => W64 - 1 =? wd v i) in
    if 0 <? end_mask m then
      r && (Z.land (wd v (end_cnt m)) (end_mask m) =? end_mask m)
    else r.

Definition set_all_range (v : t) (start_idx end_idx : Z) : t :=
  let m := get_start_end_mask start_idx end_idx in
  if start_cnt m =? end_cnt m then
    set_wd v (start_cnt m)
      (Z.lor (wd v (start_cnt m)) (Z.land (start_mask m) (end_mask m)))
  else
    let v1 := set_wd v (start_cnt m) (Z.lor (wd v (start_cnt m)) (start_mask m)) in
    let v2 := for_words (start_cnt m + 1) (end_cnt m) (fun _ _ => W64 - 1) v1 in
    if 0 <? end_mask m then
      set_wd v2 (end_cnt m) (Z.lor (wd v2 (end_cnt m)) (end_mask m))
    else v2.

Definition unset_all_range (v : t) (start_idx end_idx : Z) : t :=
  let m := get_start_end_mask start_idx end_idx in
  if start_cnt m =? end_cnt m then
    set_wd v (start_cnt m)
      (Z.land (wd v (start_cnt m)) (bnot64 (Z.land (start_mask m) (end_mask m))))
  else
    let v1 := set_wd v (start_cnt m)
                (Z.land (wd v (start_cnt m)) (bnot64 (start_mask m))) in
    let v2 := for_words (start_cnt m + 1) (end_cnt m) (fun _ _ => 0) v1 in
    if 0 <? end_mask m then
      set_wd v2 (end_cnt m) (Z.land (wd v2 (end_cnt m)) (bnot64 (end_mask m)))
    else v2.

(** The word update shared by the masked range operations:
    [(old & ~mask) | (new & mask)]. *)
Definition masked (old new mask : Z) : Z :=
  Z.lor (Z.land old (bnot64 mask)) (Z.land new mask).

Definition deep_copy_range (v src : t) (start_idx end_idx : Z) : t :=
  let m := get_start_end_mask start_idx end_idx in
  if start_cnt m =? end_cnt m then
    set_wd v (start_cnt m)
      (masked (wd v (start_cnt m)) (wd src (start_cnt m))
              (Z.land (start_mask m) (end_mask m)))
  else
    let v1 := set_wd v (start_cnt m)
                (masked (wd v (start_cnt m)) (wd src (start_cnt m)) (start_mask m)) in
    let v2 := for_words (start_cnt m + 1) (end_cnt m) (fun i _ => wd src i) v1 in
    if 0 <? end_mask m then
      set_wd v2 (end_cnt m)
        (masked (wd v2 (end_cnt m)) (wd src (end_cnt m)) (end_mask m))
    else v2.

Definition bit_or (v src : t) (start_idx end_idx : Z) : t :=
  let m := get_start_end_mask start_idx end_idx in
  if start_cnt m =? end_cnt m then
    set_wd v (start_cnt m)
      (Z.lor (wd v (start_cnt m))
         (Z.land (wd src (start_cnt m)) (Z.land (start_mask m) (end_mask m))))
  else
    let v1 := set_wd v (start_cnt m)
                (Z.lor (wd v (start_cnt m)) (Z.land (wd src (start_cnt m)) (start_mask m))) in
    let v2 := for_words (start_cnt m + 1) (end_cnt m)
                (fun i w => Z.lor w (wd src i)) v1 in
    if 0 <? end_mask m then
      set_wd v2 (end_cnt m)
        (Z.lor (wd v2 (end_cnt m)) (Z.land (wd src (end_cnt m)) (end_mask m)))
    else v2.

(** The [EvalBound] overloads of [bit_calculate], [bit_not] and [bit_op_zero]. *)
Definition bit_calculate_bound (v l r : t) (start_idx end_idx : Z)
    (op : Z -> Z -> Z) : t :=
  let m := get_start_end_mask start_idx end_idx in
  if start_cnt m =? end_cnt m then
    set_wd v (start_cnt m)
      (masked (wd v (start_cnt m)) (op (wd l (start_cnt m)) (wd r (start_cnt m)))
              (Z.land (start_mask m) (end_mask m)))
  else
    let v1 := set_wd v (start_cnt m)
                (masked (wd v (start_cnt m)) (op (wd l (start_cnt m)) (wd r (start_cnt m)))
                        (start_mask m)) in
    let v2 := for_words (start_cnt m + 1) (end_cnt m)
                (fun i _ => op (wd l i) (wd r i)) v1 in
    if 0 <? end_mask m then
      set_wd v2 (end_cnt m)
        (masked (wd v2 (end_cnt m)) (op (wd l (end_cnt m)) (wd r (end_cnt m)))
                (end_mask m))
    else v2.

Definition bit_not_bound (v other : t) (start_idx end_idx : Z) : t :=
  bit_calculate_bound v other other start_idx end_idx (fun x _ => bnot64 x).

Definition bit_op_zero_bound (l r : t) (start_idx end_idx : Z)
    (op : Z -> Z -> Z) : bool :=
  let m := get_start_end_mask start_idx end_idx in
  if start_cnt m =? end_cnt m then
    Z.land (op (wd l (start_cnt m)) (wd r (start_cnt m)))
           (Z.land (start_mask m) (end_mask m)) =? 0
  else
    let p1 := Z.land (op (wd l (start_cnt m)) (wd r (start_cnt m))) (start_mask m) =? 0 in
    let p2 := if p1 then all_words (start_cnt m + 1) (end_cnt m)
                           (fun i => op (wd l i) (wd r i) =? 0)
              else false in
    if p2 && (0 <? end_mask m) then
      Z.land (op (wd l (end_cnt m)) (wd r (end_cnt m))) (end_mask m) =? 0
    else p2.

(** ** Words and bits *)

Lemma length_set_wd v i w : length (set_wd v i w) = length v.
Proof. apply length_insert. Qed.

Lemma wd_set_wd v i w k :
  0 <= i -> 0 <= k -> i < Z.of_nat (length v) ->
  wd (set_wd v i w) k = if k =? i then w else wd v k.
Proof.
  intros Hi Hk Hl. unfold wd, set_wd. destruct (Z.eqb_spec k i) as [-> | Hne].
  - rewrite list_lookup_insert_eq; [reflexivity | lia].
  - rewrite list_lookup_insert_ne; [reflexivity | lia].
Qed.

Lemma length_for_words lo hi f v : length (for_words lo hi f v) = length v.
Proof.
  unfold for_words. generalize (Z.to_nat (hi - lo)). intros n.
  revert lo v. induction n as [| n IH]; intros lo v; simpl; [reflexivity |].
  now rewrite IH, length_set_wd.
Qed.

Lemma wd_for_words lo hi f v k :
  0 <= lo -> 0 <= k -> hi <= Z.of_nat (length v) ->
  wd (for_words lo hi f v) k =
  if (lo <=? k) && (k <? hi) then f k (wd v k) else wd v k.
Proof.
  unfold for_words. intros Hlo Hk Hhi.
  remember (Z.to_nat (hi - lo)) as n eqn:Hn. revert lo v Hlo Hhi Hn.
  induction n as [| n IH]; intros lo v Hlo Hhi Hn; cbn [for_words_nat].
  - destruct (Z.leb_spec lo k), (Z.ltb_spec k hi); simpl; try reflexivity; lia.
  - rewrite IH by (rewrite ?length_set_wd; lia).
    rewrite !wd_set_wd by lia.
    destruct (Z.leb_spec lo k), (Z.leb_spec (lo + 1) k), (Z.ltb_spec k hi),
      (Z.eqb_spec k lo); simpl; subst; try reflexivity; lia.
Qed.

Lemma all_words_spec lo hi p :
  all_words lo hi p = true <-> forall i, lo <= i < hi -> p i = true.
Proof.
  unfold all_words. remember (Z.to_nat (hi - lo)) as n eqn:Hn. revert lo Hn.
  induction n as [| n IH]; intros lo Hn; cbn [all_words_nat].
  - split; [intros _ i Hi; lia | reflexivity].
  - destruct (p lo) eqn:E.
    + rewrite IH by lia. split; intros H i Hi.
      * destruct (Z.eq_dec i lo) as [-> |]; [exact E | apply H; lia].
      * apply H. lia.
    + split; [discriminate |]. intros H. rewrite <- E. apply H. lia.
Qed.

Lemma wd_range v i : wf v -> 0 <= wd v i < W64.
Proof.
  intros Hv. unfold wd. destruct (v !! Z.to_nat i) as [w |] eqn:E; simpl.
  - eapply Forall_lookup in E; [exact E | exact Hv].
  - unfold W64. lia.
Qed.
#[local] Hint Resolve wd_range : wordrange.

Lemma low_mask_range n : 0 <= n < 64 -> 0 <= low_mask n < W64.
Proof.
  intros Hn. unfold low_mask, W64. rewrite Z.shiftl_1_l.
  assert (2 ^ n < 2 ^ 64) by (apply Z.pow_lt_mono_r; lia).
  assert (0 < 2 ^ n) by (apply Z.pow_pos_nonneg; lia). lia.
Qed.

Lemma testbit_mask b r : 0 <= r -> 0 <= b -> Z.testbit (low_mask r) b = (b <? r).
Proof. apply testbit_low_mask. Qed.

Lemma testbit_all_ones b : 0 <= b < 64 -> Z.testbit (W64 - 1) b = true.
Proof.
  intros Hb. unfold W64. rewrite Z.sub_1_r, <- Z.ones_equiv.
  apply Z.ones_spec_low. lia.
Qed.

Lemma testbit_bit b r : 0 <= b < 64 -> Z.testbit (shl64 1 r) b = (b =? r).
Proof.
  intros. unfold shl64. rewrite testbit_uwrap64 by lia. apply testbit_one. lia.
Qed.

Lemma testbit_masked old new mask b :
  0 <= b < 64 ->
  Z.testbit (masked old new mask) b =
  if Z.testbit mask b then Z.testbit new b else Z.testbit old b.
Proof.
  intros. unfold masked. autorewrite with wordbits.
  destruct (Z.testbit mask b), (Z.testbit old b), (Z.testbit new b); reflexivity.
Qed.
#[local] Hint Rewrite testbit_mask testbit_all_ones testbit_bit testbit_masked
  using lia : wordbits.

(** The test of the code, [data_[idx / 64] & (1LU << (idx % 64))], is the bit. *)
Lemma at_testbit v idx :
  0 <= idx -> at_ v idx = Z.testbit (wd v (idx / 64)) (idx mod 64).
Proof.
  intros Hi. unfold at_. change WORD_BITS with 64.
  pose proof (Z.mod_pos_bound idx 64 ltac:(lia)) as Hm.
  set (r := idx mod 64) in *. set (w := wd v (idx / 64)).
  destruct (Z.testbit w r) eqn:E; apply eq_true_iff_eq; rewrite negb_true_iff, Z.eqb_neq.
  - split; [reflexivity |]. intros _ Hz.
    apply (f_equal (fun x => Z.testbit x r)) in Hz.
    rewrite Z.land_spec, testbit_bit, E, Z.eqb_refl, Z.testbit_0_l in Hz by lia.
    discriminate.
  - split; [| discriminate]. intros Hz. exfalso. apply Hz. apply Z.bits_inj'.
    intros n Hn. rewrite Z.land_spec, Z.testbit_0_l.
    destruct (Z.lt_ge_cases n 64) as [Hlt | Hge].
    + rewrite testbit_bit by lia. destruct (Z.eqb_spec n r) as [-> |].
      * now rewrite E.
      * apply andb_false_r.
    + rewrite (testbit_high (shl64 1 r)); [apply andb_false_r | | lia].
      apply uwrap64_range.
Qed.

(** Position arithmetic: [j] is bit [j mod 64] of word [j / 64]. *)
Ltac split_pos j :=
  let q := fresh "q" in let b := fresh "b" in
  pose proof (Z.mod_pos_bound j 64 ltac:(lia));
  pose proof (Z.div_mod j 64 ltac:(lia));
  set (q := j / 64) in *; set (b := j mod 64) in *; clearbody q b.

(** Closes a pointwise goal: reduce [at_] to bits of words, read the updated
    words, evaluate the masks and finish on the order of the positions. *)
Ltac bv_len := repeat first [rewrite length_set_wd | rewrite length_for_words]; lia.
Ltac bv_cases :=
  repeat first [ rewrite wd_set_wd by bv_len | rewrite wd_for_words by bv_len ].
Ltac bv_tests :=
  repeat match goal with
    | |- context [?a =? ?b] => destruct (Z.eqb_spec a b)
    | |- context [?a <? ?b] => destruct (Z.ltb_spec a b)
    | |- context [?a <=? ?b] => destruct (Z.leb_spec a b)
    end.
Ltac bv_bool :=
  repeat match goal with
    | |- context [Z.testbit ?x ?i] => destruct (Z.testbit x i)
    end; simpl; rewrite ?andb_true_r, ?andb_false_r, ?orb_false_r, ?orb_true_r;
  try reflexivity; try (exfalso; lia).
Ltac bv_point :=
  bv_cases; bv_tests; simpl; subst; try (exfalso; lia);
  autorewrite with wordbits; bv_tests; simpl; subst; try (exfalso; lia); bv_bool.

Lemma at_set v i j :
  0 <= i -> 0 <= j -> fits v (i + 1) ->
  at_ (set v i) j = (j =? i) || at_ v j.
Proof.
  unfold fits, set. change WORD_BITS with 64. intros Hi Hj Hf.
  rewrite !at_testbit by lia. split_pos i. split_pos j. bv_point.
Qed.

Lemma at_unset v i j :
  0 <= i -> 0 <= j -> fits v (i + 1) ->
  at_ (unset v i) j = negb (j =? i) && at_ v j.
Proof.
  unfold fits, unset. change WORD_BITS with 64. intros Hi Hj Hf.
  rewrite !at_testbit by lia. split_pos i. split_pos j. bv_point.
Qed.

Lemma at_bit_or_assign v i x j :
  0 <= i -> 0 <= j -> fits v (i + 1) ->
  at_ (bit_or_assign v i x) j = ((j =? i) && x) || at_ v j.
Proof.
  unfold fits, bit_or_assign. change WORD_BITS with 64. intros Hi Hj Hf.
  rewrite !at_testbit by lia. split_pos i. split_pos j. destruct x; simpl Z.b2z.
  - bv_point.
  - change (shl64 0 b) with (uwrap64 (Z.shiftl 0 b)).
    rewrite Z.shiftl_0_l. bv_point.
Qed.

Lemma word_count_spec size :
  0 <= size -> 0 <= word_count size /\ size <= 64 * word_count size < size + 64.
Proof.
  intros Hs. unfold word_count. change WORD_BITS with 64.
  pose proof (Z.div_mod (size + 64 - 1) 64 ltac:(lia)).
  pose proof (Z.mod_pos_bound (size + 64 - 1) 64 ltac:(lia)). lia.
Qed.

Lemma byte_count_spec size :
  0 <= size -> 0 <= byte_count size /\ size <= 8 * byte_count size < size + 8.
Proof.
  intros Hs. unfold byte_count. change CHAR_BIT with 8.
  pose proof (Z.div_mod (size + 8 - 1) 8 ltac:(lia)).
  pose proof (Z.mod_pos_bound (size + 8 - 1) 8 ltac:(lia)). lia.
Qed.

Lemma at_reset v size j :
  0 <= size -> 0 <= j -> fits v size ->
  at_ (reset size v) j = negb (j <? 64 * word_count size) && at_ v j.
Proof.
  unfold fits, reset, init, memory_size. change WORD_BITS with 64.
  intros Hs Hj Hf. change BYTES_PER_WORD with 8. rewrite Z.div_mul by lia.
  pose proof (word_count_spec size Hs). set (c := word_count size) in *.
  rewrite !at_testbit by lia. split_pos j. bv_point.
Qed.

Lemma low_mask_pos r : 0 <= r -> (0 <? low_mask r) = (0 <? r).
Proof.
  intros Hr. unfold low_mask. rewrite Z.shiftl_1_l.
  destruct (Z.ltb_spec 0 r), (Z.ltb_spec 0 (2 ^ r - 1)); try reflexivity; exfalso.
  - assert (2 ^ 0 < 2 ^ r) by (apply Z.pow_lt_mono_r; lia). lia.
  - assert (r = 0) by lia. subst. simpl in *. lia.
Qed.

Lemma testbit_low_bytes k dst src b :
  0 <= k -> 0 <= b < 64 ->
  Z.testbit (low_bytes_from k dst src) b =
  if b <? 8 * k then Z.testbit src b else Z.testbit dst b.
Proof.
  intros Hk Hb. unfold low_bytes_from. change CHAR_BIT with 8.
  autorewrite with wordbits. bv_tests; bv_bool.
Qed.
#[local] Hint Rewrite testbit_low_bytes using lia : wordbits.

Lemma at_deep_copy dst src size j :
  0 <= size -> 0 <= j -> fits dst size ->
  at_ (deep_copy dst src size) j =
  if j <? 8 * byte_count size then at_ src j else at_ dst j.
Proof.
  unfold fits, deep_copy. change WORD_BITS with 64. change BYTES_PER_WORD with 8.
  intros Hs Hj Hf. pose proof (byte_count_spec size Hs).
  set (n := byte_count size) in *. rewrite !at_testbit by lia.
  pose proof (Z.mod_pos_bound n 8 ltac:(lia)).
  pose proof (Z.div_mod n 8 ltac:(lia)).
  set (c := n / 8) in *. set (k := n mod 8) in *. clearbody n c k.
  split_pos j. destruct (Z.eqb_spec k 0); bv_point.
Qed.

(** A word operation that acts bit by bit. *)
Definition bitwise (op : Z -> Z -> Z) (f : bool -> bool -> bool) : Prop :=
  forall x y b, 0 <= b < 64 ->
    Z.testbit (op x y) b = f (Z.testbit x b) (Z.testbit y b).

Section Pointwise.
Context (op : Z -> Z -> Z) (f : bool -> bool -> bool) (Hop : bitwise op f).
#[local] Hint Rewrite Hop using lia : wordbits.

Lemma at_bit_calculate v l r size j :
  0 <= size -> 0 <= j -> fits v size ->
  at_ (bit_calculate v l r size op) j =
  if j <? size then f (at_ l j) (at_ r j) else at_ v j.
Proof.
  unfold fits, bit_calculate. change WORD_BITS with 64. intros Hs Hj Hf.
  rewrite !at_testbit by lia. split_pos size. split_pos j.
  destruct (Z.eqb_spec b 0); bv_point.
Qed.

Lemma at_bit_calculate_bound v l r s e j :
  0 <= s < e -> 0 <= j -> fits v e ->
  at_ (bit_calculate_bound v l r s e op) j =
  if (s <=? j) && (j <? e) then f (at_ l j) (at_ r j) else at_ v j.
Proof.
  unfold fits, bit_calculate_bound, get_start_end_mask. change WORD_BITS with 64.
  cbn [start_mask end_mask start_cnt end_cnt]. intros Hs Hj Hf.
  rewrite !at_testbit by lia. split_pos s. split_pos e. split_pos j.
  rewrite low_mask_pos by lia.
  destruct (Z.eqb_spec q q0), (Z.ltb_spec 0 b0); bv_point.
Qed.
End Pointwise.

Lemma bitwise_not : bitwise (fun x _ => bnot64 x) (fun x _ => negb x).
Proof. intros x y b Hb. now apply testbit_bnot64. Qed.

Lemma at_bit_not v other size j :
  0 <= size -> 0 <= j -> fits v size ->
  at_ (bit_not v other size) j = if j <? size then negb (at_ other j) else at_ v j.
Proof.
  apply (at_bit_calculate (fun x _ => bnot64 x) (fun x _ => negb x) bitwise_not
           v other other).
Qed.

Lemma at_bit_not_bound v other s e j :
  0 <= s < e -> 0 <= j -> fits v e ->
  at_ (bit_not_bound v other s e) j =
  if (s <=? j) && (j <? e) then negb (at_ other j) else at_ v j.
Proof.
  apply (at_bit_calculate_bound (fun x _ => bnot64 x) (fun x _ => negb x) bitwise_not
           v other other).
Qed.

Lemma at_set_all v size j :
  0 <= size -> 0 <= j -> fits v size ->
  at_ (set_all v size) j = (j <? size) || at_ v j.
Proof.
  unfold fits, set_all. change WORD_BITS with 64. intros Hs Hj Hf.
  rewrite !at_testbit by lia. split_pos size. split_pos j.
  destruct (Z.eqb_spec b 0); bv_point.
Qed.

(** The shared start of the range lemmas. *)
Ltac bv_range s e j :=
  unfold fits, get_start_end_mask; change WORD_BITS with 64;
  cbn [start_mask end_mask start_cnt end_cnt];
  let Hs := fresh in let Hj := fresh in let Hf := fresh in intros Hs Hj Hf;
  rewrite !at_testbit by lia; split_pos s; split_pos e; split_pos j;
  rewrite low_mask_pos by lia;
  match goal with
  | |- context [?a =? ?b] => destruct (Z.eqb_spec a b)
  end;
  match goal with
  | |- context [0 <? ?b] => destruct (Z.ltb_spec 0 b); bv_point
  | _ => bv_point
  end.

Lemma at_set_all_range v s e j :
  0 <= s < e -> 0 <= j -> fits v e ->
  at_ (set_all_range v s e) j = ((s <=? j) && (j <? e)) || at_ v j.
Proof. unfold set_all_range. bv_range s e j. Qed.

Lemma at_unset_all_range v s e j :
  0 <= s < e -> 0 <= j -> fits v e ->
  at_ (unset_all_range v s e) j = negb ((s <=? j) && (j <? e)) && at_ v j.
Proof. unfold unset_all_range. bv_range s e j. Qed.

Lemma at_deep_copy_range v src s e j :
  0 <= s < e -> 0 <= j -> fits v e ->
  at_ (deep_copy_range v src s e) j =
  if (s <=? j) && (j <? e) then at_ src j else at_ v j.
Proof. unfold deep_copy_range. bv_range s e j. Qed.

Lemma at_bit_or v src s e j :
  0 <= s < e -> 0 <= j -> fits v e ->
  at_ (bit_or v src s e) j = ((s <=? j) && (j <? e) && at_ src j) || at_ v j.
Proof. unfold bit_or. bv_range s e j. Qed.

Lemma at_bit_not_self v size j :
  0 <= size -> 0 <= j -> fits v size ->
  at_ (bit_not_self v size) j = if j <? size then negb (at_ v j) else at_ v j.
Proof.
  unfold fits, bit_not_self. change WORD_BITS with 64. intros Hs Hj Hf.
  rewrite !at_testbit by lia. split_pos size. split_pos j.
  destruct (Z.eqb_spec b 0); bv_point.
Qed.

(** ** Counting *)

(** The bits of word [q] are the positions [64 q .. 64 q + 63]. *)
Lemma at_word v q b : 0 <= q -> 0 <= b < 64 -> at_ v (b + 64 * q) = Z.testbit (wd v q) b.
Proof.
  intros Hq Hb. rewrite at_testbit by lia.
  rewrite (Z.mul_comm 64), Z.div_add, Z.div_small, Z.mod_add, Z.mod_small by lia. reflexivity.
Qed.

Lemma popcount_word v q :
  wf v -> 0 <= q -> popcount64 (wd v q) = count (64 * q) (64 * (q + 1)) (at_ v).
Proof.
  intros Hv Hq. rewrite popcount64_spec by now apply wd_range.
  replace (64 * q) with (0 + 64 * q) by lia.
  replace (64 * (q + 1)) with (64 + 64 * q) by lia.
  rewrite count_shift. apply count_ext. intros i Hi. now rewrite at_word by lia.
Qed.

(** [popcount64(data_[q] & ((1LU << r) - 1))] counts the first [r] bits of word [q]. *)
Lemma popcount_low v q r :
  wf v -> 0 <= q -> 0 <= r < 64 ->
  popcount64 (Z.land (wd v q) (low_mask r)) = count (64 * q) (64 * q + r) (at_ v).
Proof.
  intros Hv Hq Hr.
  rewrite popcount64_spec
    by (apply land_range; [now apply wd_range | apply low_mask_range; lia]).
  rewrite (count_split 0 r) by lia. rewrite (count_none r 64).
  2:{ intros i Hi. rewrite Z.land_spec, testbit_mask by lia.
      destruct (Z.ltb_spec i r); [lia | apply andb_false_r]. }
  rewrite Z.add_0_r. replace (64 * q) with (0 + 64 * q) at 1 by lia.
  rewrite (Z.add_comm (64 * q) r), count_shift. apply count_ext. intros i Hi.
  rewrite at_word, Z.land_spec, testbit_mask by lia.
  destruct (Z.ltb_spec i r); [apply andb_true_r | lia].
Qed.

Lemma sum_words_count lo hi v :
  wf v -> 0 <= lo <= hi -> sum_words lo hi v = count (64 * lo) (64 * hi) (at_ v).
Proof.
  intros Hv [Hlo Hle]. unfold sum_words.
  remember (Z.to_nat (hi - lo)) as n eqn:Hn. revert lo Hlo Hle Hn.
  induction n as [| n IH]; intros lo Hlo Hle Hn; cbn [sum_words_nat].
  - symmetry. apply count_none. intros. lia.
  - rewrite IH, popcount_word by (lia || assumption).
    symmetry. apply count_split. lia.
Qed.

Lemma count_accumulate v size :
  wf v -> 0 <= size -> accumulate_bit_cnt v size = count 0 size (at_ v).
Proof.
  intros Hv Hs. unfold accumulate_bit_cnt. change WORD_BITS with 64.
  pose proof (Z.div_pos size 64 Hs ltac:(lia)).
  rewrite sum_words_count by (assumption || lia). split_pos size.
  destruct (Z.ltb_spec 0 b).
  - rewrite popcount_low by (assumption || lia).
    rewrite (count_split 0 (64 * q) size) by lia. do 2 f_equal; lia.
  - f_equal; lia.
Qed.

Lemma count_accumulate_bound v s e :
  wf v -> 0 <= s <= e -> accumulate_bit_cnt_bound v s e = count s e (at_ v).
Proof.
  intros Hv Hs. unfold accumulate_bit_cnt_bound. change WORD_BITS with 64.
  pose proof (Z.div_pos s 64 ltac:(lia) ltac:(lia)).
  pose proof (Z.div_le_mono s e 64 ltac:(lia) ltac:(lia)).
  rewrite sum_words_count by (assumption || lia).
  split_pos s. split_pos e. rewrite !popcount_low by (assumption || lia).
  assert (count (64 * q) s (at_ v) + count s e (at_ v) = count (64 * q) e (at_ v))
    by (symmetry; apply count_split; lia).
  assert (count (64 * q) (64 * q0) (at_ v) + count (64 * q0) e (at_ v)
          = count (64 * q) e (at_ v)) by (symmetry; apply count_split; lia).
  replace (64 * q + b) with s by lia. replace (64 * q0 + b0) with e by lia.
  assert (b = 0 -> count (64 * q) s (at_ v) = 0) by (intros; apply count_none; lia).
  assert (b0 = 0 -> count (64 * q0) e (at_ v) = 0) by (intros; apply count_none; lia).
  destruct (Z.ltb_spec 0 b), (Z.ltb_spec 0 b0); lia.
Qed.

(** ** The tests over all bits *)

Lemma eqb_bits x y :
  0 <= x < W64 -> 0 <= y < W64 ->
  (x =? y) = true <-> forall b, 0 <= b < 64 -> Z.testbit x b = Z.testbit y b.
Proof.
  intros Hx Hy. rewrite Z.eqb_eq. split; [now intros -> |]. now apply word_ext.
Qed.

(** A property of the positions of [[s, e)], word by word. *)
Lemma forall_pos (P : Z -> Prop) s e :
  0 <= s ->
  (forall j, s <= j < e -> P j) <->
  (forall q b, 0 <= q -> 0 <= b < 64 -> s <= b + 64 * q < e -> P (b + 64 * q)).
Proof.
  intros Hs. split; [auto |]. intros H j Hj.
  pose proof (Z.div_mod j 64 ltac:(lia)) as E.
  pose proof (Z.mod_pos_bound j 64 ltac:(lia)).
  pose proof (Z.div_pos j 64 ltac:(lia) ltac:(lia)).
  replace j with (j mod 64 + 64 * (j / 64)) by lia. apply H; lia.
Qed.

(** Words [[lo, hi)] hold whole, the last one under a mask: the shape shared by
    [bit_op_zero], [is_all_true] and [is_all_false]. *)
Lemma words_and_rest (P : Z -> Prop) (p : Z -> bool) (last : bool) size :
  0 <= size ->
  (forall q, 0 <= q < size / 64 ->
     (p q = true <-> forall b, 0 <= b < 64 -> P (b + 64 * q))) ->
  (last = true <-> forall b, 0 <= b < size mod 64 -> P (b + 64 * (size / 64))) ->
  (if all_words 0 (size / 64) p && (0 <? size mod 64) then last
   else all_words 0 (size / 64) p) = true
  <-> forall j, 0 <= j < size -> P j.
Proof.
  intros Hs Hp Hl. rewrite forall_pos by lia.
  pose proof (Z.div_pos size 64 Hs ltac:(lia)). split_pos size.
  assert (all_words 0 q p = true <->
          forall k b, 0 <= k < q -> 0 <= b < 64 -> P (b + 64 * k)) as Hall.
  { rewrite all_words_spec. split.
    - intros Ha k b' Hk. revert b'. apply Hp; [lia |]. apply Ha. lia.
    - intros Ha k Hk. apply Hp; [lia |]. intros b' Hb'. apply Ha; lia. }
  destruct (Z.ltb_spec 0 b) as [Hb | Hb].
  - rewrite andb_true_r. destruct (all_words 0 q p) eqn:E.
    + rewrite Hl. split.
      * intros Hlast k b' Hk Hb' Hj. destruct (Z.lt_ge_cases k q).
        -- apply (proj1 Hall); [reflexivity | lia | lia].
        -- replace k with q by lia. apply Hlast. lia.
      * intros Ha b' Hb'. apply Ha; lia.
    + split; [discriminate |]. intros Ha. apply Hall. intros k b' Hk Hb'. apply Ha; lia.
  - rewrite andb_false_r, Hall. split; intros Ha k b' Hk Hb'; [intros; apply Ha | apply Ha]; lia.
Qed.

Section Zero.
Context (op : Z -> Z -> Z) (f : bool -> bool -> bool) (Hop : bitwise op f).
Context (Hrange : forall x y, 0 <= x < W64 -> 0 <= y < W64 -> 0 <= op x y < W64).
#[local] Hint Rewrite Hop using lia : wordbits.

Lemma op_zero_word l r q m (M : Z -> bool) :
  wf l -> wf r -> 0 <= q -> 0 <= m ->
  (forall b, 0 <= b < 64 -> Z.testbit m b = M b) ->
  (Z.land (op (wd l q) (wd r q)) m =? 0) = true <->
  forall b, 0 <= b < 64 -> M b = true ->
            f (at_ l (b + 64 * q)) (at_ r (b + 64 * q)) = false.
Proof.
  intros Hl Hr Hq Hm HM.
  rewrite eqb_bits; [| apply land_range; auto using wd_range | unfold W64; lia].
  split; intros H b Hb; specialize (H b Hb); rewrite !at_word in * by lia;
    rewrite Z.land_spec, HM, Hop, Z.testbit_0_l in * by lia.
  - intros HMb. rewrite HMb, andb_true_r in H. exact H.
  - destruct (M b); [now rewrite H | apply andb_false_r].
Qed.

Lemma op_zero_full l r q :
  wf l -> wf r -> 0 <= q ->
  (op (wd l q) (wd r q) =? 0) = true <->
  forall b, 0 <= b < 64 -> f (at_ l (b + 64 * q)) (at_ r (b + 64 * q)) = false.
Proof.
  intros Hl Hr Hq. rewrite eqb_bits; [| auto using wd_range | unfold W64; lia].
  split; intros H b Hb; specialize (H b Hb); rewrite !at_word in * by lia;
    rewrite Hop, Z.testbit_0_l in * by lia; exact H.
Qed.

Lemma bit_op_zero_iff l r size :
  wf l -> wf r -> 0 <= size ->
  bit_op_zero l r size op = true <->
  forall j, 0 <= j < size -> f (at_ l j) (at_ r j) = false.
Proof.
  intros Hl Hr Hs. unfold bit_op_zero. change WORD_BITS with 64.
  assert (negb (size mod 64 =? 0) = (0 <? size mod 64)) as ->.
  { pose proof (Z.mod_pos_bound size 64 ltac:(lia)).
    destruct (Z.eqb_spec (size mod 64) 0), (Z.ltb_spec 0 (size mod 64));
      reflexivity || lia. }
  pose proof (Z.mod_pos_bound size 64 ltac:(lia)).
  pose proof (Z.div_pos size 64 Hs ltac:(lia)).
  apply (words_and_rest (fun j => f (at_ l j) (at_ r j) = false)); [assumption | |].
  - intros q Hq. apply op_zero_full; assumption || lia.
  - rewrite (op_zero_word l r _ _ (fun b => b <? size mod 64)) by
      (try assumption; try apply low_mask_range; try lia;
       intros; now apply testbit_mask).
    split; intros Ha b Hb; [apply Ha; [lia | now apply Z.ltb_lt] |].
    intros Hlt. apply Z.ltb_lt in Hlt. apply Ha. lia.
Qed.
End Zero.

Lemma is_all_false_iff v size :
  wf v -> 0 <= size ->
  is_all_false v size = true <-> forall j, 0 <= j < size -> at_ v j = false.
Proof.
  intros Hv Hs.
  rewrite <- (bit_op_zero_iff (fun x _ => x) (fun x _ => x)) with (r := v);
    [| now intros ? | auto | assumption | assumption | assumption].
  unfold is_all_false, bit_op_zero. change WORD_BITS with 64.
  assert (forall lo hi, all_words lo hi (fun i => 0 =? wd v i)
                        = all_words lo hi (fun i => wd v i =? 0)) as ->.
  { intros. apply eq_true_iff_eq. rewrite !all_words_spec.
    split; intros H i Hi; rewrite Z.eqb_sym; auto. }
  pose proof (Z.mod_pos_bound size 64 ltac:(lia)).
  destruct (Z.eqb_spec (size mod 64) 0), (Z.ltb_spec 0 (size mod 64)); reflexivity || lia.
Qed.

Lemma is_all_true_iff v size :
  wf v -> 0 <= size ->
  is_all_true v size = true <-> forall j, 0 <= j < size -> at_ v j = true.
Proof.
  intros Hv Hs. unfold is_all_true. change WORD_BITS with 64.
  pose proof (Z.mod_pos_bound size 64 ltac:(lia)).
  pose proof (Z.div_pos size 64 Hs ltac:(lia)).
  apply (words_and_rest (fun j => at_ v j = true)); [assumption | |].
  - intros q Hq. rewrite eqb_bits; [| unfold W64; lia | now apply wd_range].
    split; intros H' b Hb; specialize (H' b Hb); rewrite at_word in * by lia;
      rewrite testbit_all_ones in * by lia; congruence.
  - rewrite eqb_bits;
      [| apply land_range; [now apply wd_range | apply low_mask_range; lia]
       | apply low_mask_range; lia].
    split; intros H' b Hb.
    + specialize (H' b ltac:(lia)). rewrite at_word by lia.
      rewrite Z.land_spec, testbit_mask in H' by lia.
      destruct (Z.ltb_spec b (size mod 64)); [| lia]. now rewrite andb_true_r in H'.
    + rewrite Z.land_spec, testbit_mask by lia.
      destruct (Z.ltb_spec b (size mod 64)); [| apply andb_false_r].
      rewrite <- at_word by lia. now rewrite H' by lia.
Qed.

(** The same shape on a range [[s, e)]: one masked word, or a first masked word,
    whole words and a last masked one. *)
Lemma range_words (P : Z -> Prop) (p : Z -> bool) (one first last : bool) s e :
  0 <= s < e ->
  (one = true <-> forall b, 0 <= b < 64 -> s mod 64 <= b < e mod 64 -> P (b + 64 * (s / 64))) ->
  (first = true <-> forall b, 0 <= b < 64 -> s mod 64 <= b -> P (b + 64 * (s / 64))) ->
  (forall q, 0 <= q -> (p q = true <-> forall b, 0 <= b < 64 -> P (b + 64 * q))) ->
  (last = true <-> forall b, 0 <= b < e mod 64 -> P (b + 64 * (e / 64))) ->
  (if s / 64 =? e / 64 then one
   else first && all_words (s / 64 + 1) (e / 64) p && (if 0 <? e mod 64 then last else true)) = true
  <-> forall j, s <= j < e -> P j.
Proof.
  intros Hse H1 Hf Hp Hl. rewrite forall_pos by lia.
  pose proof (Z.div_pos s 64 ltac:(lia) ltac:(lia)). pose proof (Z.div_le_mono s e 64 ltac:(lia) ltac:(lia)).
  split_pos s. split_pos e. destruct (Z.eqb_spec q q0) as [<- | Hne].
  - rewrite H1. split; intros Ha.
    + intros k c Hk Hc Hj. assert (k = q) as -> by lia. apply Ha; lia.
    + intros c Hc Hj. apply Ha; lia.
  - assert ((if 0 <? b0 then last else true) = true <-> forall c, 0 <= c < b0 -> P (c + 64 * q0)) as Hl'.
    { destruct (Z.ltb_spec 0 b0); [exact Hl |]. split; [intros _ c Hc; lia | reflexivity]. }
    rewrite !andb_true_iff, Hf, all_words_spec, Hl'. split.
    + intros [[Ha Hb] Hc] k c Hk Hcr Hj. destruct (Z.eq_dec k q) as [-> |]; [apply Ha; lia |].
      destruct (Z.eq_dec k q0) as [-> |]; [apply Hc; lia |]. apply (Hp k Hk); [apply Hb; lia | lia].
    + intros Ha. split; [split |].
      * intros c Hc Hs. apply Ha; lia.
      * intros k Hk. apply Hp; [lia |]. intros c Hc. apply Ha; lia.
      * intros c Hc. apply Ha; lia.
Qed.

Lemma shl64_range x k : 0 <= shl64 x k < W64.
Proof. apply uwrap64_range. Qed.

(** A word under a mask is the mask when all its selected bits are set. *)
Lemma masked_all v q m (M : Z -> bool) :
  wf v -> 0 <= q -> 0 <= m < W64 -> (forall b, 0 <= b < 64 -> Z.testbit m b = M b) ->
  (Z.land (wd v q) m =? m) = true <-> forall b, 0 <= b < 64 -> M b = true -> at_ v (b + 64 * q) = true.
Proof.
  intros Hv Hq Hm HM. rewrite eqb_bits; [| apply land_range; [now apply wd_range | lia] | exact Hm].
  split; intros Ha b Hb; specialize (Ha b Hb); rewrite at_word in * by lia; rewrite Z.land_spec, HM in * by lia.
  - intros E. rewrite E, andb_true_r in Ha. exact Ha.
  - destruct (M b); [now rewrite Ha | apply andb_false_r].
Qed.

Lemma is_all_true_range_iff v s e :
  wf v -> 0 <= s < e ->
  is_all_true_range v s e = true <-> forall j, s <= j < e -> at_ v j = true.
Proof.
  intros Hv Hse. unfold is_all_true_range, get_start_end_mask. cbn [start_mask end_mask start_cnt end_cnt].
  change WORD_BITS with 64. pose proof (Z.mod_pos_bound s 64 ltac:(lia)). pose proof (Z.mod_pos_bound e 64 ltac:(lia)).
  pose proof (Z.div_pos s 64 ltac:(lia) ltac:(lia)). pose proof (Z.div_pos e 64 ltac:(lia) ltac:(lia)).
  pose proof (low_mask_range (e mod 64) ltac:(lia)) as Hlm. rewrite low_mask_pos by lia.
  rewrite <- (range_words (fun j => at_ v j = true) (fun i => W64 - 1 =? wd v i)
     (Z.land (wd v (s / 64)) (Z.land (shl64 (W64 - 1) (s mod 64)) (low_mask (e mod 64)))
        =? Z.land (shl64 (W64 - 1) (s mod 64)) (low_mask (e mod 64)))
     (Z.land (wd v (s / 64)) (shl64 (W64 - 1) (s mod 64)) =? shl64 (W64 - 1) (s mod 64))
     (Z.land (wd v (e / 64)) (low_mask (e mod 64)) =? low_mask (e mod 64)) s e Hse).
  - destruct (s / 64 =? e / 64); [reflexivity |]. destruct (0 <? e mod 64); [reflexivity |]. now rewrite andb_true_r.
  - rewrite (masked_all v (s / 64) _ (fun b => (s mod 64 <=? b) && (b <? e mod 64)));
      [| assumption | assumption | apply land_range; [apply shl64_range | lia] |].
    + split; intros Ha b Hb Hr; apply Ha; try lia; rewrite ?andb_true_iff, ?Z.leb_le, ?Z.ltb_lt in *; lia.
    + intros b Hb. rewrite Z.land_spec, testbit_high_mask, testbit_mask by lia. reflexivity.
  - rewrite (masked_all v (s / 64) _ (fun b => s mod 64 <=? b)); [| assumption | assumption | apply shl64_range |].
    + split; intros Ha b Hb Hr; apply Ha; try lia; now apply Z.leb_le.
    + intros b Hb. now apply testbit_high_mask.
  - intros q Hq. rewrite eqb_bits; [| unfold W64; lia | now apply wd_range].
    split; intros Ha b Hb; specialize (Ha b Hb); rewrite at_word in * by lia;
      rewrite testbit_all_ones in * by lia; congruence.
  - rewrite (masked_all v (e / 64) _ (fun b => b <? e mod 64)) by
      (try assumption; intros; now apply testbit_mask).
    split; intros Ha b Hb; [| intros Hr; apply Z.ltb_lt in Hr]; apply Ha; lia.
Qed.

Lemma bit_op_zero_bound_iff op f l r s e :
  bitwise op f -> (forall x y, 0 <= x < W64 -> 0 <= y < W64 -> 0 <= op x y < W64) ->
  wf l -> wf r -> 0 <= s < e ->
  bit_op_zero_bound l r s e op = true <-> forall j, s <= j < e -> f (at_ l j) (at_ r j) = false.
Proof.
  intros Hop Hrange Hl Hr Hse. unfold bit_op_zero_bound, get_start_end_mask.
  cbn [start_mask end_mask start_cnt end_cnt]. change WORD_BITS with 64.
  pose proof (Z.mod_pos_bound s 64 ltac:(lia)). pose proof (Z.mod_pos_bound e 64 ltac:(lia)).
  pose proof (Z.div_pos s 64 ltac:(lia) ltac:(lia)). pose proof (Z.div_pos e 64 ltac:(lia) ltac:(lia)).
  pose proof (low_mask_range (e mod 64) ltac:(lia)) as Hlm. pose proof (shl64_range (W64 - 1) (s mod 64)) as Hsm.
  rewrite low_mask_pos by lia.
  rewrite <- (range_words (fun j => f (at_ l j) (at_ r j) = false) (fun i => op (wd l i) (wd r i) =? 0)
     (Z.land (op (wd l (s / 64)) (wd r (s / 64))) (Z.land (shl64 (W64 - 1) (s mod 64)) (low_mask (e mod 64))) =? 0)
     (Z.land (op (wd l (s / 64)) (wd r (s / 64))) (shl64 (W64 - 1) (s mod 64)) =? 0)
     (Z.land (op (wd l (e / 64)) (wd r (e / 64))) (low_mask (e mod 64)) =? 0) s e Hse).
  - destruct (s / 64 =? e / 64); [reflexivity |].
    destruct (_ =? 0), (all_words _ _ _), (0 <? e mod 64); cbn [andb]; reflexivity.
  - rewrite (op_zero_word op f Hop Hrange l r (s / 64) _ (fun b => (s mod 64 <=? b) && (b <? e mod 64)));
      [| assumption | assumption | assumption | apply Z.land_nonneg; lia |].
    + split; intros Ha b Hb Hb'; apply Ha; try lia; rewrite ?andb_true_iff, ?Z.leb_le, ?Z.ltb_lt in *; lia.
    + intros b Hb. rewrite Z.land_spec, testbit_high_mask, testbit_mask by lia. reflexivity.
  - rewrite (op_zero_word op f Hop Hrange l r (s / 64) _ (fun b => s mod 64 <=? b)) by
      (try assumption; try lia; intros; now apply testbit_high_mask).
    split; intros Ha b Hb Hb'; apply Ha; try lia; now apply Z.leb_le.
  - intros q Hq. now apply op_zero_full.
  - rewrite (op_zero_word op f Hop Hrange l r (e / 64) _ (fun b => b <? e mod 64)) by
      (try assumption; try lia; intros; now apply testbit_mask).
    split; intros Ha b Hb; [| intros Hb'; apply Z.ltb_lt in Hb']; apply Ha; lia.
Qed.

(** [is_superset_of] compares whole words: all positions up to the end of the
    last word of the size. *)
Lemma is_superset_of_iff v other size :
  wf v -> wf other -> 0 <= size ->
  is_superset_of v other size = true <->
  forall j, 0 <= j < 64 * word_count size -> at_ other j = true -> at_ v j = true.
Proof.
  intros Hv Ho Hs. unfold is_superset_of. rewrite all_words_spec.
  pose proof (word_count_spec size Hs). set (c := word_count size) in *.
  rewrite (forall_pos (fun j => at_ other j = true -> at_ v j = true)) by lia.
  assert (forall q, 0 <= q ->
    (Z.land (bnot64 (wd v q)) (wd other q) =? 0) = true <->
    forall b, 0 <= b < 64 -> at_ other (b + 64 * q) = true -> at_ v (b + 64 * q) = true) as W.
  { intros q Hq. rewrite eqb_bits;
      [| apply land_range; [apply uwrap64_range | now apply wd_range] | unfold W64; lia].
    split; intros Ha b Hb; specialize (Ha b Hb); rewrite !at_word in * by lia;
      rewrite Z.land_spec, testbit_bnot64, Z.testbit_0_l in * by lia;
      destruct (Z.testbit (wd v q) b), (Z.testbit (wd other q) b); simpl in *; intuition congruence. }
  split.
  - intros Ha q b Hq Hb Hj. apply W; [lia | apply Ha; lia | lia].
  - intros Ha q Hq. apply W; [lia |]. intros b Hb. apply Ha; lia.
Qed.

(** ** Memory stays memory *)

Lemma wf_set_wd v i w : wf v -> 0 <= w < W64 -> wf (set_wd v i w).
Proof. intros Hv Hw. unfold wf, set_wd. now apply Forall_insert. Qed.

Lemma wf_for_words lo hi f v :
  wf v -> (forall i w, 0 <= w < W64 -> 0 <= f i w < W64) -> wf (for_words lo hi f v).
Proof.
  intros Hv Hf. unfold for_words. generalize (Z.to_nat (hi - lo)). intros n.
  revert lo v Hv. induction n as [| n IH]; intros lo v Hv; simpl; [exact Hv |].
  apply IH, wf_set_wd; [exact Hv |]. apply Hf, wd_range, Hv.
Qed.

Lemma wf_reset size v : wf v -> wf (reset size v).
Proof. intros Hv. apply wf_for_words; [exact Hv |]. intros; unfold W64; lia. Qed.

Lemma length_reset size v : length (reset size v) = length v.
Proof. apply length_for_words. Qed.

Lemma wf_deep_copy dst src size : wf dst -> wf src -> wf (deep_copy dst src size).
Proof.
  intros Hd Hs. unfold deep_copy.
  assert (wf (for_words 0 (byte_count size / BYTES_PER_WORD) (fun i _ => wd src i) dst)) as Hf
    by (apply wf_for_words; [exact Hd | intros; now apply wd_range]).
  destruct (_ =? 0); [exact Hf |]. apply wf_set_wd; [exact Hf |].
  unfold low_bytes_from. set (r := byte_count size mod BYTES_PER_WORD).
  assert (0 <= Z.shiftl 1 (CHAR_BIT * r) - 1).
  { rewrite Z.shiftl_1_l. assert (0 < 2 ^ (CHAR_BIT * r)); [| lia].
    apply Z.pow_pos_nonneg; [lia |]. change CHAR_BIT with 8.
    pose proof (Z.mod_pos_bound (byte_count size) BYTES_PER_WORD eq_refl). lia. }
  apply lor_range; apply land_range; auto using wd_range. apply uwrap64_range.
Qed.

Lemma length_deep_copy dst src size : length (deep_copy dst src size) = length dst.
Proof.
  unfold deep_copy. destruct (_ =? 0); rewrite ?length_set_wd; apply length_for_words.
Qed.

Lemma length_set_all v size : length (set_all v size) = length v.
Proof. unfold set_all. destruct (_ =? 0); rewrite ?length_set_wd; apply length_for_words. Qed.

Lemma wf_set_all v size : wf v -> wf (set_all v size).
Proof.
  intros Hv. unfold set_all.
  assert (wf (for_words 0 (size / WORD_BITS) (fun _ _ => W64 - 1) v)) as Hf
    by (apply wf_for_words; [exact Hv | intros; unfold W64; lia]).
  destruct (_ =? 0); [exact Hf |]. apply wf_set_wd; [exact Hf |].
  apply lor_range; [now apply wd_range |]. apply low_mask_range.
  pose proof (Z.mod_pos_bound size WORD_BITS eq_refl). unfold WORD_BITS in *. lia.
Qed.

End ObBitVector.
