(* ===== verification/BitForeach.v ===== *)
(** The iteration over the set (or clear) bits of an [ObBitVector]:
    [inner_foreach_one_word], [inner_foreach], [foreach] and [flip_foreach] of
    [src/src/sql/engine/ob_bit_vector.h].

    The callback is any function on a state that returns a code; the theorem
    at the end says the loops call it on exactly the selected positions of the
    range, in increasing order, and stop at the first code that is not
    [OB_SUCCESS]. *)
From S2P Require Import Prelude PopCount BitVector.

Module BitForeach.
Import ObBitVector.

(** [__builtin_ctz] on a non-zero 16-bit value. *)
Fixpoint ctz_from (n : nat) (i x : Z) : Z :=
  match n with
  | O => i
  | S n' => if Z.testbit x i then i else ctz_from n' (i + 1) x
  end.
Definition ctz (x : Z) : Z := ctz_from 16 0 x.

Section Foreach.
Context {St : Type} (op : Z -> St -> Z * St).

(** [for (j = 0; OB_SUCC(ret) && j < step_size; j++) ret = op(j + tmp_step)],
    the remaining [n] iterations. *)
Fixpoint full_step (n : nat) (k : Z) (st : St) : Z * St :=
  match n with
  | O => (OB_SUCCESS, st)
  | S n' => let '(ret, st') := op k st in
            if OB_SUCC ret then full_step n' (k + 1) st' else (ret, st')
  end.

(** The do-while over the set bits of one step. *)
Fixpoint sparse_step (fuel : nat) (step_val tmp_step : Z) (st : St) : Z * St :=
  match fuel with
  | O => (OB_SUCCESS, st)
  | S n =>
      let '(ret, st') := op (ctz step_val + tmp_step) st in
      let step_val' := Z.land step_val (step_val - 1) in
      if (0 <? step_val') && OB_SUCC ret then sparse_step n step_val' tmp_step st'
      else (ret, st')
  end.

Definition step_size : Z := 16.

(** The do-while over the 16-bit steps of one word. *)
Fixpoint word_steps (fuel : nat) (tmp_s_word tmp_step : Z) (st : St) : Z * St :=
  match fuel with
  | O => (OB_SUCCESS, st)
  | S n =>
      let step_val := Z.land tmp_s_word 0xFFFF in
      let '(ret, st') :=
        if 0xFFFF =? step_val then full_step (Z.to_nat step_size) tmp_step st
        else if 0 <? step_val then sparse_step 16 step_val tmp_step st
        else (OB_SUCCESS, st) in
      let tmp_s_word' := Z.shiftr tmp_s_word step_size in
      if (0 <? tmp_s_word') && OB_SUCC ret
      then word_steps n tmp_s_word' (tmp_step + step_size) st'
      else (ret, st')
  end.

(** The result carries the reference parameter [step], advanced by
    [WORD_BITS] at every call. *)
Definition inner_foreach_one_word (s_word step : Z) (st : St) : Z * Z * St :=
  let '(ret, st') :=
    if 0 <? s_word then word_steps 4 s_word step st else (OB_SUCCESS, st) in
  (ret, step + WORD_BITS, st').

Definition flip (IS_FLIP : bool) (w : Z) : Z := if IS_FLIP then bnot64 w else w.

(** [for (i = start_cnt + 1; i < end_cnt && OB_SUCC(ret); ++i)], the
    remaining [n] words from word [i]. *)
Fixpoint middle_words (n : nat) (IS_FLIP : bool) (skip : list Z) (i step : Z) (st : St)
    : Z * Z * St :=
  match n with
  | O => (OB_SUCCESS, step, st)
  | S n' =>
      let '(ret, step', st') := inner_foreach_one_word (flip IS_FLIP (wd skip i)) step st in
      if OB_SUCC ret then middle_words n' IS_FLIP skip (i + 1) step' st'
      else (ret, step', st')
  end.

Definition inner_foreach (IS_FLIP : bool) (skip : list Z) (start_idx end_idx : Z)
    (st : St) : Z * St :=
  let m := get_start_end_mask start_idx end_idx in
  let step := WORD_BITS * start_cnt m in
  if start_cnt m =? end_cnt m then
    let one_word_mask := Z.land (start_mask m) (end_mask m) in
    let s_word := Z.land (flip IS_FLIP (wd skip (start_cnt m))) one_word_mask in
    let '(ret, _, st1) := inner_foreach_one_word s_word step st in (ret, st1)
  else
    let s_word := flip IS_FLIP (wd skip (start_cnt m)) in
    let s_word := if 0 <? start_mask m then Z.land s_word (start_mask m) else s_word in
    let '(ret, step1, st1) := inner_foreach_one_word s_word step st in
    let '(ret, step2, st2) :=
      if OB_FAIL ret then (ret, step1, st1)
      else middle_words (Z.to_nat (end_cnt m - (start_cnt m + 1))) IS_FLIP skip
             (start_cnt m + 1) step1 st1 in
    if OB_SUCC ret then
      if 0 <? end_mask m then
        let s_word := Z.land (flip IS_FLIP (wd skip (end_cnt m))) (end_mask m) in
        let '(ret, _, st3) := inner_foreach_one_word s_word step2 st2 in (ret, st3)
      else (ret, st2)
    else (ret, st2).

(** The public entry points; a plain [size] is the bound [[0, size)]. *)
Definition flip_foreach (skip : list Z) (size : Z) (st : St) : Z * St :=
  inner_foreach true skip 0 size st.
Definition foreach (skip : list Z) (size : Z) (st : St) : Z * St :=
  inner_foreach false skip 0 size st.
Definition flip_foreach_bound (skip : list Z) (s e : Z) (st : St) : Z * St :=
  inner_foreach true skip s e st.
Definition foreach_bound (skip : list Z) (s e : Z) (st : St) : Z * St :=
  inner_foreach false skip s e st.

(** ** The reference: the callback on a list of positions *)

Fixpoint run_list (ks : list Z) (st : St) : Z * St :=
  match ks with
  | [] => (OB_SUCCESS, st)
  | k :: ks' => let '(ret, st') := op k st in
                if OB_SUCC ret then run_list ks' st' else (ret, st')
  end.

Lemma run_list_app ks ks' st :
  run_list (ks ++ ks') st =
  let '(ret, st') := run_list ks st in
  if OB_SUCC ret then run_list ks' st' else (ret, st').
Proof.
  revert st. induction ks as [| k ks IH]; intros st; simpl; [reflexivity |].
  destruct (op k st) as [ret st'] eqn:E. destruct (OB_SUCC ret) eqn:S; [apply IH |].
  now rewrite S.
Qed.
End Foreach.

(** The positions of [lo, lo + n) that satisfy [p], in increasing order. *)
Fixpoint positions (n : nat) (lo : Z) (p : Z -> bool) : list Z :=
  match n with
  | O => []
  | S n' => if p lo then lo :: positions n' (lo + 1) p else positions n' (lo + 1) p
  end.
Definition selected (s e : Z) (p : Z -> bool) : list Z := positions (Z.to_nat (e - s)) s p.

Lemma positions_ext n lo p q :
  (forall i, lo <= i < lo + Z.of_nat n -> p i = q i) -> positions n lo p = positions n lo q.
Proof.
  revert lo. induction n as [| n IH]; intros lo H; simpl; [reflexivity |].
  rewrite (H lo) by lia. rewrite (IH (lo + 1)); [reflexivity |].
  intros i Hi. apply H. lia.
Qed.

Lemma positions_app n m lo p :
  positions (n + m) lo p = positions n lo p ++ positions m (lo + Z.of_nat n) p.
Proof.
  revert lo. induction n as [| n IH]; intros lo; cbn [Nat.add positions].
  - simpl. do 2 f_equal. lia.
  - rewrite IH. replace (lo + Z.of_nat (S n)) with (lo + 1 + Z.of_nat n) by lia.
    destruct (p lo); reflexivity.
Qed.

Lemma positions_none n lo p :
  (forall i, lo <= i < lo + Z.of_nat n -> p i = false) -> positions n lo p = [].
Proof.
  revert lo. induction n as [| n IH]; intros lo H; simpl; [reflexivity |].
  rewrite H by lia. apply IH. intros i Hi. apply H. lia.
Qed.

Lemma selected_split s m e p :
  s <= m <= e -> selected s e p = selected s m p ++ selected m e p.
Proof.
  intros H. unfold selected.
  replace (Z.to_nat (e - s)) with (Z.to_nat (m - s) + Z.to_nat (e - m))%nat by lia.
  rewrite positions_app. do 2 f_equal. lia.
Qed.

Lemma selected_ext s e p q :
  (forall i, s <= i < e -> p i = q i) -> selected s e p = selected s e q.
Proof. intros H. apply positions_ext. intros i Hi. apply H. lia. Qed.

Lemma selected_none s e p :
  (forall i, s <= i < e -> p i = false) -> selected s e p = [].
Proof. intros H. apply positions_none. intros i Hi. apply H. lia. Qed.

Lemma selected_shift s e k p :
  selected (s + k) (e + k) p = map (fun i => i + k) (selected s e (fun i => p (i + k))).
Proof.
  unfold selected. replace (e + k - (s + k)) with (e - s) by lia.
  generalize (Z.to_nat (e - s)). intros n. revert s.
  induction n as [| n IH]; intros s; simpl; [reflexivity |].
  replace (s + k + 1) with (s + 1 + k) by lia. rewrite IH. destruct (p (s + k)); reflexivity.
Qed.

(** The list is what it says: exactly the positions of the range that satisfy
    the test, strictly increasing. *)
Lemma elem_of_selected s e p i :
  i ∈ selected s e p <-> s <= i < e /\ p i = true.
Proof.
  unfold selected. remember (Z.to_nat (e - s)) as n eqn:Hn. revert s Hn.
  induction n as [| n IH]; intros s Hn; cbn [positions].
  - rewrite elem_of_nil. split; [tauto | lia].
  - specialize (IH (s + 1) ltac:(lia)). destruct (p s) eqn:E.
    + rewrite elem_of_cons, IH. split.
      * intros [-> | H]; [split; [lia | exact E] | split; [lia | tauto]].
      * intros [H Hp]. destruct (Z.eq_dec i s); [now left | right; split; [lia | exact Hp]].
    + rewrite IH. split; intros [H Hp]; split; try lia; try exact Hp.
      destruct (Z.eq_dec i s); [congruence | lia].
Qed.

(** ** The lowest set bit *)

Lemma ctz_from_spec n i x :
  (exists k, i <= k < i + Z.of_nat n /\ Z.testbit x k = true) ->
  let k := ctz_from n i x in
  i <= k < i + Z.of_nat n /\ Z.testbit x k = true
  /\ forall j, i <= j < k -> Z.testbit x j = false.
Proof.
  revert i. induction n as [| n IH]; intros i (k & Hk & Hb); [lia |].
  cbn [ctz_from]. destruct (Z.testbit x i) eqn:E.
  - repeat split; [lia | lia | exact E | intros; lia].
  - destruct (IH (i + 1)) as (H1 & H2 & H3).
    { exists k. split; [| exact Hb]. destruct (Z.eq_dec k i); [congruence | lia]. }
    repeat split; [lia | lia | exact H2 |].
    intros j Hj. destruct (Z.eq_dec j i) as [-> |]; [exact E | apply H3; lia].
Qed.

(** [x & (x - 1)] clears the lowest set bit of [x] and nothing else. *)
Lemma clear_lowest x k b :
  0 <= k -> Z.testbit x k = true -> (forall i, 0 <= i < k -> Z.testbit x i = false) ->
  0 <= b -> Z.testbit (Z.land x (x - 1)) b = Z.testbit x b && negb (b =? k).
Proof.
  intros Hk Hx Hlow Hb. rewrite Z.land_spec.
  assert (x mod 2 ^ k = 0) as Hm.
  { apply Z.bits_inj'. intros i Hi. rewrite Z.testbit_0_l.
    destruct (Z.lt_ge_cases i k).
    - rewrite Z.mod_pow2_bits_low by lia. apply Hlow. lia.
    - apply Z.mod_pow2_bits_high. lia. }
  assert (0 < 2 ^ k) by (apply Z.pow_pos_nonneg; lia).
  set (y := x / 2 ^ k). assert (x = 2 ^ k * y) as Ex.
  { pose proof (Z.div_mod x (2 ^ k) ltac:(lia)). subst y. lia. }
  assert (Z.odd y = true) as Hodd.
  { rewrite <- Z.bit0_odd. unfold y. now rewrite Z.div_pow2_bits by lia. }
  apply Z.odd_spec in Hodd as [m Em].
  destruct (Z.lt_trichotomy b k) as [Hlt | [-> | Hgt]].
  - now rewrite Hlow by lia.
  - rewrite Z.eqb_refl, Hx. simpl.
    assert (x - 1 = (2 ^ k - 1) + (2 * m) * 2 ^ k) as -> by lia.
    rewrite <- (Z.sub_0_r k) at 3. replace (k - 0) with (0 + k) by lia.
    rewrite <- Z.div_pow2_bits by lia. rewrite Z.div_add by lia.
    rewrite Z.div_small by lia. rewrite Z.add_0_l. apply Z.testbit_even_0.
  - destruct (Z.eqb_spec b k); [lia |]. rewrite andb_true_r.
    destruct (Z.testbit x b) eqn:E; [| reflexivity]. simpl.
    replace b with ((b - k) + k) in E |- * by lia.
    rewrite <- Z.div_pow2_bits in E |- * by lia. fold y in E.
    assert (x - 1 = (2 ^ k - 1) + (2 * m) * 2 ^ k) as -> by lia.
    rewrite Z.div_add, Z.div_small, Z.add_0_l by lia. rewrite Em in E.
    replace (b - k) with (Z.succ (b - k - 1)) in E |- * by lia.
    rewrite Z.testbit_odd_succ in E by lia. now rewrite Z.testbit_even_succ by lia.
Qed.

(** The positions of a word lose their head when the lowest bit is cleared. *)
Lemma selected_ctz n x :
  0 < x < 2 ^ Z.of_nat n -> (n <= 16)%nat ->
  selected 0 (Z.of_nat n) (Z.testbit x)
  = ctz x :: selected 0 (Z.of_nat n) (Z.testbit (Z.land x (x - 1))).
Proof.
  intros Hx Hn.
  assert (exists k, 0 <= k < Z.of_nat n /\ Z.testbit x k = true) as (k0 & Hk0 & Hb0).
  { exists (Z.log2 x). split; [split; [apply Z.log2_nonneg | apply Z.log2_lt_pow2; lia] |].
    apply Z.bit_log2. lia. }
  destruct (ctz_from_spec 16 0 x) as (Hk & Hb & Hlow).
  { exists k0. split; [lia | exact Hb0]. }
  change (ctz_from 16 0 x) with (ctz x) in *. set (k := ctz x) in *.
  assert (k < Z.of_nat n) as Hkn.
  { destruct (Z.lt_ge_cases k (Z.of_nat n)); [assumption |].
    rewrite Hlow in Hb0 by lia. discriminate. }
  rewrite !(selected_split 0 k (Z.of_nat n)) by lia.
  rewrite (selected_none 0 k (Z.testbit x)) by (intros; apply Hlow; lia).
  rewrite (selected_none 0 k)
    by (intros; rewrite (clear_lowest x k) by (assumption || lia); now rewrite Hlow by lia).
  rewrite !(selected_split k (k + 1) (Z.of_nat n)) by lia.
  unfold selected at 1 3. replace (Z.to_nat (k + 1 - k)) with 1%nat by lia. simpl.
  rewrite Hb, (clear_lowest x k k) by (assumption || lia). rewrite Z.eqb_refl, andb_false_r.
  simpl. f_equal. apply selected_ext. intros i Hi.
  rewrite (clear_lowest x k i) by (assumption || lia).
  destruct (Z.eqb_spec i k); [lia | now rewrite andb_true_r].
Qed.

(** ** The loops against the reference *)

Section Equivalence.
Context {St : Type} (op : Z -> St -> Z * St).
Implicit Type st : St.

Abbreviation bits_at x n base :=
  (selected base (base + n) (fun i => Z.testbit x (i - base))).

Lemma bits_at_map x n base :
  bits_at x n base = map (fun i => i + base) (selected 0 n (Z.testbit x)).
Proof.
  replace base with (0 + base) at 1 by lia. rewrite (Z.add_comm base n), selected_shift.
  f_equal. apply selected_ext. intros i _. f_equal. lia.
Qed.

Lemma full_step_spec n k st :
  full_step op n k st = run_list op (selected k (k + Z.of_nat n) (fun _ => true)) st.
Proof.
  unfold selected. replace (Z.to_nat (k + Z.of_nat n - k)) with n by lia.
  revert k st. induction n as [| n IH]; intros k st; simpl; [reflexivity |].
  destruct (op k st) as [ret st']. destruct (OB_SUCC ret); [apply IH | reflexivity].
Qed.

Lemma positions_length n lo p : (length (positions n lo p) <= n)%nat.
Proof.
  revert lo. induction n as [| n IH]; intros lo; simpl; [lia |].
  specialize (IH (lo + 1)). destruct (p lo); simpl; lia.
Qed.

Lemma land_pred_range x : 0 < x < 2 ^ 16 -> 0 <= Z.land x (x - 1) < 2 ^ 16.
Proof.
  intros Hx. apply land_lt; lia.
Qed.

Lemma sparse_step_spec fuel x base st :
  0 < x < 2 ^ 16 ->
  (length (selected 0 16 (Z.testbit x)) <= fuel)%nat ->
  sparse_step op fuel x base st = run_list op (bits_at x 16 base) st.
Proof.
  rewrite bits_at_map.
  revert x st. induction fuel as [| fuel IH]; intros x st Hx Hl.
  - change 16 with (Z.of_nat 16) in Hl. rewrite selected_ctz in Hl by lia. simpl in Hl. lia.
  - change 16 with (Z.of_nat 16) in Hl |- *. rewrite selected_ctz in Hl |- * by lia.
    cbn [sparse_step map run_list length] in *.
    destruct (op (ctz x + base) st) as [ret st'].
    pose proof (land_pred_range x Hx). set (x' := Z.land x (x - 1)) in *.
    destruct (OB_SUCC ret) eqn:E; [| now rewrite andb_false_r].
    rewrite andb_true_r. destruct (Z.ltb_spec 0 x').
    + apply IH; [lia |]. change 16 with (Z.of_nat 16). lia.
    + replace x' with 0 by lia. rewrite selected_none by (intros; apply Z.testbit_0_l).
      simpl. unfold OB_SUCC in E. apply Z.eqb_eq in E. now rewrite E.
Qed.

(** One 16-bit step of a word. *)
Definition one_step (c base : Z) st : Z * St :=
  if 0xFFFF =? c then full_step op (Z.to_nat step_size) base st
  else if 0 <? c then sparse_step op 16 c base st else (OB_SUCCESS, st).

Lemma one_step_spec c base st :
  0 <= c < 2 ^ 16 -> one_step c base st = run_list op (bits_at c 16 base) st.
Proof.
  intros Hc. unfold one_step. destruct (Z.eqb_spec 0xFFFF c) as [<- | _].
  - rewrite full_step_spec. f_equal. apply selected_ext. intros i Hi.
    symmetry. change 0xFFFF with (Z.ones 16). apply Z.ones_spec_low.
    change (Z.of_nat (Z.to_nat step_size)) with 16 in Hi. lia.
  - destruct (Z.ltb_spec 0 c).
    + apply sparse_step_spec; [lia | apply positions_length].
    + replace c with 0 by lia. rewrite selected_none by (intros; apply Z.testbit_0_l).
      reflexivity.
Qed.

Lemma land_ffff x : Z.land x 0xFFFF = x mod 2 ^ 16.
Proof. change 0xFFFF with (Z.ones 16). apply Z.land_ones. lia. Qed.

(** The positions of a word: its low 16 bits, then the rest. *)
Lemma bits_at_step w n base :
  0 <= n ->
  bits_at w (n + 16) base
  = bits_at (Z.land w 0xFFFF) 16 base ++ bits_at (Z.shiftr w 16) n (base + 16).
Proof.
  intros Hn. rewrite (selected_split base (base + 16)) by lia. f_equal.
  - apply selected_ext. intros i Hi. rewrite land_ffff. symmetry.
    apply Z.mod_pow2_bits_low. lia.
  - replace (base + 16 + n) with (base + (n + 16)) by lia.
    apply selected_ext. intros i Hi. rewrite Z.shiftr_spec by lia. f_equal. lia.
Qed.

Lemma word_steps_spec n w base st :
  0 < w < 2 ^ (16 * Z.of_nat n) ->
  word_steps op n w base st = run_list op (bits_at w (16 * Z.of_nat n) base) st.
Proof.
  revert w base st. induction n as [| n IH]; intros w base st Hw.
  - change (2 ^ (16 * Z.of_nat 0)) with 1 in Hw. lia.
  - replace (16 * Z.of_nat (S n)) with (16 * Z.of_nat n + 16) in * by lia.
    rewrite bits_at_step, run_list_app by lia.
    cbn [word_steps]. fold (one_step (Z.land w 0xFFFF) base st).
    rewrite one_step_spec by (rewrite land_ffff; apply Z.mod_pos_bound; lia).
    destruct (run_list op _ st) as [ret st'].
    change step_size with 16. destruct (OB_SUCC ret) eqn:E; [| now rewrite andb_false_r].
    rewrite andb_true_r. destruct (Z.ltb_spec 0 (Z.shiftr w 16)).
    + apply IH. split; [lia |]. rewrite Z.shiftr_div_pow2 by lia.
      apply Z.div_lt_upper_bound; [lia |]. rewrite <- Z.pow_add_r by lia.
      now rewrite Z.add_comm.
    + assert (0 <= Z.shiftr w 16) by (apply Z.shiftr_nonneg; lia).
      replace (Z.shiftr w 16) with 0 by lia.
      rewrite selected_none by (intros; apply Z.testbit_0_l).
      simpl. unfold OB_SUCC in E. apply Z.eqb_eq in E. now rewrite E.
Qed.

Lemma one_word_spec w step st :
  0 <= w < W64 ->
  inner_foreach_one_word op w step st =
  let '(ret, st') := run_list op (bits_at w 64 step) st in (ret, step + 64, st').
Proof.
  intros Hw. unfold inner_foreach_one_word. change WORD_BITS with 64.
  destruct (Z.ltb_spec 0 w).
  - rewrite word_steps_spec by (split; [lia | apply Hw]). reflexivity.
  - replace w with 0 by lia. rewrite selected_none by (intros; apply Z.testbit_0_l).
    reflexivity.
Qed.

(** The selection test on positions: set bits, or clear bits when flipped. *)
Definition chosen (IS_FLIP : bool) (v : list Z) (i : Z) : bool := xorb IS_FLIP (at_ v i).

Lemma flip_range f w : 0 <= w < W64 -> 0 <= flip f w < W64.
Proof. intros Hw. destruct f; [apply uwrap64_range | exact Hw]. Qed.

Lemma flip_chosen f v q b :
  0 <= q -> 0 <= b < 64 -> Z.testbit (flip f (wd v q)) b = chosen f v (b + 64 * q).
Proof.
  intros Hq Hb. unfold chosen, flip. rewrite at_word by lia.
  destruct f; [apply testbit_bnot64; lia | now rewrite xorb_false_l].
Qed.

(** One word under a mask that keeps the positions of [[s, e)]. *)
Lemma masked_word_spec f v q m s e st :
  wf v -> 0 <= q -> 0 <= m -> 64 * q <= s -> s <= e -> e <= 64 * q + 64 ->
  (forall b, 0 <= b < 64 -> Z.testbit m b = (s <=? b + 64 * q) && (b + 64 * q <? e)) ->
  inner_foreach_one_word op (Z.land (flip f (wd v q)) m) (64 * q) st =
  let '(ret, st') := run_list op (selected s e (chosen f v)) st in (ret, 64 * q + 64, st').
Proof.
  intros Hv Hq Hm Hs Hse He HM.
  rewrite one_word_spec by (apply land_range; [apply flip_range, wd_range |]; assumption).
  replace (selected s e (chosen f v)) with (bits_at (Z.land (flip f (wd v q)) m) 64 (64 * q));
    [reflexivity |].
  rewrite (selected_split (64 * q) s), (selected_split s e) by lia.
  rewrite (selected_none (64 * q) s), (selected_none e), app_nil_r; simpl.
  - apply selected_ext. intros i Hi.
    rewrite Z.land_spec, HM, flip_chosen by lia.
    replace (i - 64 * q + 64 * q) with i by lia.
    destruct (Z.leb_spec s i), (Z.ltb_spec i e); try lia. apply andb_true_r.
  - intros i Hi. rewrite Z.land_spec, HM by lia.
    destruct (Z.leb_spec s (i - 64 * q + 64 * q)),
      (Z.ltb_spec (i - 64 * q + 64 * q) e); try lia; apply andb_false_r.
  - intros i Hi. rewrite Z.land_spec, HM by lia.
    destruct (Z.leb_spec s (i - 64 * q + 64 * q)),
      (Z.ltb_spec (i - 64 * q + 64 * q) e); try lia; apply andb_false_r.
Qed.

Lemma middle_words_spec n f v i st :
  wf v -> 0 <= i ->
  exists step',
    middle_words op n f v i (64 * i) st =
    (let '(ret, st') := run_list op (selected (64 * i) (64 * (i + Z.of_nat n)) (chosen f v)) st
     in (ret, step', st'))
    /\ ((run_list op (selected (64 * i) (64 * (i + Z.of_nat n)) (chosen f v)) st).1 = OB_SUCCESS ->
        step' = 64 * (i + Z.of_nat n)).
Proof.
  intros Hv. revert i st. induction n as [| n IH]; intros i st Hi.
  - exists (64 * i). rewrite Z.add_0_r, selected_none by (intros; lia).
    split; [reflexivity | lia].
  - rewrite (selected_split (64 * i) (64 * i + 64)) by lia.
    cbn [middle_words].
    assert (flip f (wd v i) = Z.land (flip f (wd v i)) (Z.ones 64)) as ->.
    { rewrite Z.land_ones by lia. symmetry. apply Z.mod_small.
      apply flip_range, wd_range, Hv. }
    rewrite (masked_word_spec f v i (Z.ones 64) (64 * i) (64 * i + 64));
      [| assumption | lia | discriminate | lia | lia | lia |].
    2:{ intros b Hb. rewrite Z.ones_spec_low by lia.
        destruct (Z.leb_spec (64 * i) (b + 64 * i)), (Z.ltb_spec (b + 64 * i) (64 * i + 64));
          reflexivity || lia. }
    rewrite run_list_app.
    destruct (run_list op (selected (64 * i) (64 * i + 64) _) st) as [ret st'].
    destruct (OB_SUCC ret) eqn:E.
    + destruct (IH (i + 1) st' ltac:(lia)) as (step' & H1 & H2).
      replace (64 * i + 64) with (64 * (i + 1)) by lia.
      replace (i + Z.of_nat (S n)) with (i + 1 + Z.of_nat n) by lia.
      exists step'. split; [exact H1 | exact H2].
    + exists (64 * i + 64). split; [reflexivity |]. simpl. intros ->. discriminate.
Qed.

Lemma start_mask_range r : 0 <= r < 64 -> 0 < shl64 (W64 - 1) r < W64.
Proof.
  intros Hr. pose proof (uwrap64_range (Z.shiftl (W64 - 1) r)).
  assert (shl64 (W64 - 1) r <> 0) as Hne.
  { intros E. apply (f_equal (fun x => Z.testbit x r)) in E.
    rewrite testbit_high_mask, Z.testbit_0_l, Z.leb_refl in E by lia. discriminate. }
  unfold shl64 in *. lia.
Qed.

Lemma inner_foreach_spec f v s e st :
  wf v -> 0 <= s < e ->
  inner_foreach op f v s e st = run_list op (selected s e (chosen f v)) st.
Proof.
  intros Hv Hse. unfold inner_foreach, get_start_end_mask.
  cbn [start_mask end_mask start_cnt end_cnt]. change WORD_BITS with 64.
  pose proof (Z.div_pos s 64 ltac:(lia) ltac:(lia)).
  pose proof (Z.div_le_mono s e 64 ltac:(lia) ltac:(lia)).
  split_pos s. split_pos e. pose proof (start_mask_range b ltac:(lia)).
  pose proof (low_mask_range b0 ltac:(lia)).
  destruct (Z.eqb_spec q q0) as [<- | Hne].
  - rewrite (masked_word_spec f v q _ s e); try assumption; try lia.
    + destruct (run_list op _ st); reflexivity.
    + apply Z.land_nonneg. lia.
    + intros b' Hb'. rewrite Z.land_spec, testbit_high_mask, testbit_mask by lia.
      f_equal; apply eq_true_iff_eq; rewrite ?Z.leb_le, ?Z.ltb_lt; lia.
  - destruct (Z.ltb_spec 0 (shl64 (W64 - 1) b)) as [_ |]; [| lia].
    rewrite (masked_word_spec f v q _ s (64 * q + 64)); try assumption; try lia.
    2:{ intros b' Hb'. rewrite testbit_high_mask by lia.
        apply eq_true_iff_eq. rewrite andb_true_iff, !Z.leb_le, Z.ltb_lt. lia. }
    rewrite (selected_split s (64 * q + 64) e), run_list_app by lia.
    destruct (run_list op (selected s (64 * q + 64) _) st) as [ret st1].
    unfold OB_FAIL. destruct (OB_SUCC ret) eqn:E; cbn [negb]; [| now rewrite E].
    replace (64 * q + 64) with (64 * (q + 1)) by lia.
    destruct (middle_words_spec (Z.to_nat (q0 - (q + 1))) f v (q + 1) st1 Hv ltac:(lia))
      as (step' & -> & Hstep).
    replace (q + 1 + Z.of_nat (Z.to_nat (q0 - (q + 1)))) with q0 in * by lia.
    rewrite (selected_split _ (64 * q0) e), run_list_app by lia.
    destruct (run_list op (selected (64 * (q + 1)) (64 * q0) _) st1) as [ret2 st2].
    destruct (OB_SUCC ret2) eqn:E2; [| reflexivity].
    unfold OB_SUCC in E2. apply Z.eqb_eq in E2. rewrite (Hstep E2).
    rewrite low_mask_pos by lia. destruct (Z.ltb_spec 0 b0).
    + rewrite (masked_word_spec f v q0 _ (64 * q0) e); try assumption; try lia.
      * destruct (run_list op _ st2); reflexivity.
      * intros b' Hb'. rewrite testbit_mask by lia.
        apply eq_true_iff_eq. rewrite andb_true_iff, Z.leb_le, !Z.ltb_lt. lia.
    + rewrite selected_none by (intros; lia). now rewrite E2.
Qed.
End Equivalence.
End BitForeach.
