(* ===== verification/BitTheorems.v ===== *)
(** The properties of [ObBitVector]: bit counts, updates of a range, tests and
    iteration, each against its meaning on single positions. *)
From S2P Require Import Prelude PopCount BitVector BitForeach.
Import ObBitVector BitForeach.

(** C15.  Both [accumulate_bit_cnt]s, which count whole words with the parallel
    [popcount64] and mask the words at the ends, return the number of positions of
    the range that are set. *)
Theorem bit_count_correct v s e size :
  wf v -> 0 <= s <= e -> 0 <= size ->
  accumulate_bit_cnt v size = count 0 size (at_ v)
  /\ accumulate_bit_cnt_bound v s e = count s e (at_ v).
Proof. auto using count_accumulate, count_accumulate_bound. Qed.

Lemma bit_count_correct_witness :
  accumulate_bit_cnt [0xF0F; 0xFF] 70 = 14 /\ accumulate_bit_cnt_bound [0xF0F; 0xFF] 9 66 = 5.
Proof.
  destruct (bit_count_correct [0xF0F; 0xFF] 9 66 70) as [-> ->];
    [repeat constructor; unfold W64; lia | lia | lia | split; vm_compute; reflexivity].
Defined.

(** C16.  The updates that work on whole words and what they change.  [set_all] and
    [unset_all] of a range, the copy of a range, [bit_or] and [bit_not] of a range
    act on exactly the positions of the range and keep the others;
    [deep_copy(src, size)] copies the bytes that hold the size, so it also copies
    the positions up to the end of the last byte. *)
Theorem range_updates v src s e j :
  0 <= s < e -> 0 <= j -> fits v e ->
  let inside := (s <=? j) && (j <? e) in
  at_ (set_all_range v s e) j = (inside || at_ v j)
  /\ at_ (unset_all_range v s e) j = (negb inside && at_ v j)
  /\ at_ (deep_copy_range v src s e) j = (if inside then at_ src j else at_ v j)
  /\ at_ (bit_or v src s e) j = ((inside && at_ src j) || at_ v j)
  /\ at_ (bit_not_bound v src s e) j = (if inside then negb (at_ src j) else at_ v j)
  /\ at_ (deep_copy v src e) j = (if j <? 8 * byte_count e then at_ src j else at_ v j).
Proof.
  intros Hs Hj Hf inside.
  split; [now apply at_set_all_range |]. split; [now apply at_unset_all_range |].
  split; [now apply at_deep_copy_range |]. split; [now apply at_bit_or |].
  split; [now apply at_bit_not_bound |]. apply at_deep_copy; [lia | lia | exact Hf].
Qed.

Lemma range_updates_witness :
  at_ (unset_all_range [W64 - 1; W64 - 1] 60 70) 64 = false
  /\ at_ (unset_all_range [W64 - 1; W64 - 1] 60 70) 70 = true.
Proof.
  destruct (range_updates [W64 - 1; W64 - 1] [] 60 70 64) as (_ & -> & _);
    [lia | lia | vm_compute; discriminate |].
  destruct (range_updates [W64 - 1; W64 - 1] [] 60 70 70) as (_ & -> & _);
    [lia | lia | vm_compute; discriminate |].
  split; reflexivity.
Defined.

(** C17.  The word-wise tests decide the statement about positions:
    [is_all_true], [is_all_false], [is_all_true] of a range, and [bit_op_zero] for
    any operation that acts bit by bit.  [is_superset_of] compares whole words, so
    it decides inclusion up to the end of the last word of the size. *)
Theorem bit_tests_decide v w s e op f :
  wf v -> wf w -> 0 <= s < e ->
  bitwise op f -> (forall x y, 0 <= x < W64 -> 0 <= y < W64 -> 0 <= op x y < W64) ->
  (is_all_true v e = true <-> forall j, 0 <= j < e -> at_ v j = true)
  /\ (is_all_false v e = true <-> forall j, 0 <= j < e -> at_ v j = false)
  /\ (is_all_true_range v s e = true <-> forall j, s <= j < e -> at_ v j = true)
  /\ (bit_op_zero v w e op = true <-> forall j, 0 <= j < e -> f (at_ v j) (at_ w j) = false)
  /\ (bit_op_zero_bound v w s e op = true
      <-> forall j, s <= j < e -> f (at_ v j) (at_ w j) = false)
  /\ (is_superset_of v w e = true
      <-> forall j, 0 <= j < 64 * word_count e -> at_ w j = true -> at_ v j = true).
Proof.
  intros Hv Hw Hse Hop Hr.
  split; [apply is_all_true_iff; assumption || lia |].
  split; [apply is_all_false_iff; assumption || lia |].
  split; [now apply is_all_true_range_iff |].
  split; [apply bit_op_zero_iff; assumption || lia |].
  split; [now apply bit_op_zero_bound_iff |].
  apply is_superset_of_iff; assumption || lia.
Qed.

Lemma bit_tests_decide_witness :
  is_all_true_range [0xF8; 0] 3 8 = true /\ at_ [0xF8; 0] 5 = true.
Proof.
  destruct (bit_tests_decide [0xF8; 0] [0; 0] 3 8 (fun x _ => x) (fun x _ => x)) as (_ & _ & [H _] & _).
  - repeat constructor; unfold W64; lia.
  - repeat constructor; unfold W64; lia.
  - lia.
  - intros x y b _. reflexivity.
  - intros x y Hx _. exact Hx.
  - split; [vm_compute; reflexivity |]. apply H; [vm_compute; reflexivity | lia].
Defined.

(** C18.  [foreach] and [flip_foreach], which split the range into words and each
    word into four 16-bit steps (all ones, sparse by [ctz], or empty), call the
    operation on exactly the set (or clear) positions of the range, once each and
    in increasing order, and stop at the first code that is not [OB_SUCCESS]. *)
Theorem foreach_visits_selected {St} (op : Z -> St -> Z * St) v s e (st : St) :
  wf v -> 0 <= s < e ->
  foreach_bound op v s e st = run_list op (selected s e (at_ v)) st
  /\ flip_foreach_bound op v s e st = run_list op (selected s e (fun i => negb (at_ v i))) st
  /\ (forall i, i ∈ selected s e (at_ v) <-> s <= i < e /\ at_ v i = true).
Proof.
  intros Hv Hse. unfold foreach_bound, flip_foreach_bound. rewrite !inner_foreach_spec by assumption.
  split; [reflexivity |]. split; [reflexivity |]. intros i. apply elem_of_selected.
Qed.

Lemma foreach_visits_selected_witness :
  flip_foreach_bound (fun i (l : list Z) => (OB_SUCCESS, l ++ [i])) [W64 - 1 - 0x10; 1] 2 67 []
  = (OB_SUCCESS, [4; 65; 66]).
Proof.
  destruct (foreach_visits_selected (fun i (l : list Z) => (OB_SUCCESS, l ++ [i]))
              [W64 - 1 - 0x10; 1] 2 67 []) as (_ & -> & _);
    [repeat constructor; unfold W64; lia | lia | vm_compute; reflexivity].
Defined.
