(* ===== verification/Frame.v ===== *)
(** The memory an expression owns in an evaluation frame, and the vector
    formats over it: [ObDatum] ([share/datum/ob_datum.h]), the fixed, discrete,
    continuous and uniform formats ([share/vector/*_format.h]), and
    [ObExpr::init_vector], [cast_to_uniform], [eval_vector] and the pointer
    resets of [sql/engine/expr/ob_expr.cpp].

    One expression's slots are a record [ExprMem]; its reserved buffer is one
    flat list of bytes, so that two cells that overlap in memory overlap in the
    model.  A pointer is null, an offset into that buffer, or memory owned by
    somebody else (a child's batch, an arena, a Python object), represented by
    the bytes it points to.  [None] is a call that does not return: a failed
    [OB_ASSERT], or an access outside the memory that exists. *)
From S2P Require Import Prelude PopCount BitVector.

Abbreviation bytes := (list Z).
Abbreviation words := (list Z).

(** ** Memory *)

Definition slice (l : bytes) (off len : Z) : option bytes :=
  if (0 <=? off) && (0 <=? len) && (off + len <=? Z.of_nat (length l))
  then Some (take (Z.to_nat len) (drop (Z.to_nat off) l)) else None.

Definition splice (l : bytes) (off : Z) (b : bytes) : option bytes :=
  if (0 <=? off) && (off + Z.of_nat (length b) <=? Z.of_nat (length l))
  then Some (take (Z.to_nat off) l ++ b ++ drop (Z.to_nat off + length b) l) else None.

(** [a[i]] and [a[i] = x] on an array of known length. *)
Definition rd {A} (l : list A) (i : Z) : option A :=
  if 0 <=? i then l !! Z.to_nat i else None.
Definition wr {A} (l : list A) (i : Z) (x : A) : option (list A) :=
  if (0 <=? i) && (i <? Z.of_nat (length l)) then Some (<[Z.to_nat i := x]> l) else None.

Inductive ptr := PNull | PFrame (off : Z) | PExt (b : bytes).

Definition padd (p : ptr) (k : Z) : ptr :=
  match p with
  | PNull => PNull
  | PFrame off => PFrame (off + k)
  | PExt b => PExt (drop (Z.to_nat k) b)
  end.

(** The [len] bytes at [p]; [buf] is the reserved buffer. *)
Definition deref (buf : bytes) (p : ptr) (len : Z) : option bytes :=
  match p with
  | PNull => if len =? 0 then Some [] else None
  | PFrame off => slice buf off len
  | PExt b => slice b 0 len
  end.

(** [MEMCPY(p, b, |b|)], for a destination in the reserved buffer.  A copy of
    no bytes touches no memory; the model has no writes through a pointer to
    memory the expression does not own. *)
Definition memcpy_to (buf : bytes) (p : ptr) (b : bytes) : option bytes :=
  if Z.of_nat (length b) =? 0 then Some buf
  else match p with PFrame off => splice buf off b | _ => None end.

(** Little-endian encoding of an integer in [n] bytes, and back (unsigned). *)
Fixpoint le_encode (n : nat) (v : Z) : bytes :=
  match n with O => [] | S n' => v mod 256 :: le_encode n' (v / 256) end.
Definition le_decode (b : bytes) : Z := bytes_val b.
Definition int64_bytes (v : Z) : bytes := le_encode 8 v.
(** [*int_]: the first eight bytes as an [int64_t]. *)
Definition bytes_int64 (b : bytes) : Z := to_int64 (le_decode b).

(** ** Types *)

Inductive VectorFormat :=
  VEC_INVALID | VEC_FIXED | VEC_DISCRETE | VEC_CONTINUOUS | VEC_UNIFORM | VEC_UNIFORM_CONST.
#[export] Instance VectorFormat_eq_dec : EqDecision VectorFormat.
Proof. solve_decision. Defined.

(** The object types the engine's switches name, and any other. *)
Inductive ObObjType :=
  | ObNullType | ObTinyIntType | ObSmallIntType | ObMediumIntType | ObInt32Type | ObIntType
  | ObDoubleType | ObNumberType | ObVarcharType | ObCharType | ObTinyTextType | ObTextType
  | ObMediumTextType | ObLongTextType | ObOtherType (code : Z).
#[export] Instance ObObjType_eq_dec : EqDecision ObObjType.
Proof. solve_decision. Defined.

Inductive VecValueTypeClass :=
  | VEC_TC_NULL | VEC_TC_INTEGER | VEC_TC_UINTEGER | VEC_TC_FLOAT | VEC_TC_DOUBLE
  | VEC_TC_FIXED_DOUBLE | VEC_TC_NUMBER | VEC_TC_DATETIME | VEC_TC_DATE | VEC_TC_TIME
  | VEC_TC_YEAR | VEC_TC_EXTEND | VEC_TC_UNKNOWN | VEC_TC_STRING | VEC_TC_BIT
  | VEC_TC_ENUM_SET | VEC_TC_ENUM_SET_INNER | VEC_TC_TIMESTAMP_TZ | VEC_TC_TIMESTAMP_TINY
  | VEC_TC_RAW | VEC_TC_INTERVAL_YM | VEC_TC_INTERVAL_DS | VEC_TC_ROWID | VEC_TC_LOB
  | VEC_TC_JSON | VEC_TC_GEO | VEC_TC_UDT | VEC_TC_DEC_INT32 | VEC_TC_DEC_INT64
  | VEC_TC_DEC_INT128 | VEC_TC_DEC_INT256 | VEC_TC_DEC_INT512 | MAX_VEC_TC.

(** The classes of the [VEC_CONTINUOUS] and [VEC_DISCRETE] switches. *)
Definition is_discrete_vec (tc : VecValueTypeClass) : bool :=
  match tc with
  | VEC_TC_NUMBER | VEC_TC_EXTEND | VEC_TC_STRING | VEC_TC_ENUM_SET_INNER | VEC_TC_RAW
  | VEC_TC_ROWID | VEC_TC_LOB | VEC_TC_JSON | VEC_TC_GEO | VEC_TC_UDT => true
  | _ => false
  end.

(** The classes of the [VEC_FIXED] switch. *)
Definition is_fixed_length_vec (tc : VecValueTypeClass) : bool :=
  match tc with
  | VEC_TC_NULL | MAX_VEC_TC => false
  | _ => negb (is_discrete_vec tc)
  end.

(** The classes of the uniform switches: all of them. *)
Definition is_uniform_vec (tc : VecValueTypeClass) : bool :=
  match tc with MAX_VEC_TC => false | _ => true end.

(** [sizeof(RTCType<tc>)] for the fixed classes. *)
Definition sizeof_tc (tc : VecValueTypeClass) : Z :=
  match tc with
  | VEC_TC_FLOAT | VEC_TC_DATE | VEC_TC_DEC_INT32 => 4
  | VEC_TC_YEAR => 1
  | VEC_TC_TIMESTAMP_TZ => 12
  | VEC_TC_TIMESTAMP_TINY => 10
  | VEC_TC_INTERVAL_DS | VEC_TC_DEC_INT128 => 16
  | VEC_TC_DEC_INT256 => 32
  | VEC_TC_DEC_INT512 => 64
  | VEC_TC_NULL => 0
  | _ => 8
  end.

(** ** Datums *)

(** [ObDatumDesc] keeps the length and the null flag in one packed word;
    assigning [pack_] a length clears the null flag. *)
Record ObDatum := mkDatum { ptr_ : ptr; len_ : Z; null_ : bool }.

Definition set_null (d : ObDatum) : ObDatum := mkDatum (ptr_ d) 0 true.
Definition set_pack (d : ObDatum) (len : Z) : ObDatum := mkDatum (ptr_ d) len false.

(** ** The slots of one expression in its frame *)

Record ExprMem := mkMem
  { format_ : VectorFormat;         (* VectorHeader::format_ *)
    data_ : ptr;                    (* ObFixedLengthBase::data_ *)
    flen_ : Z;                      (* ObFixedLengthBase::len_ *)
    ptrs_ : list ptr;               (* ObDiscreteBase::ptrs_ *)
    lens_ : list Z;                 (* ObDiscreteBase::lens_ *)
    cdata_ : bytes;                 (* ObContinuousBase::data_ *)
    offsets_ : list Z;              (* ObContinuousBase::offsets_ *)
    nulls_ : words;                 (* the null bitmap *)
    datums_ : list ObDatum;         (* locate_batch_datums *)
    udatums_ : option (list ObDatum); (* ObUniformBase::datums_; None: datums_ *)
    res_buf_ : bytes;               (* the reserved result buffer *)
    evaluated_ : bool;              (* ObEvalInfo *)
    projected_ : bool;
    eval_flags_ : words }.          (* get_evaluated_flags *)

Definition with_format (m : ExprMem) (f : VectorFormat) : ExprMem :=
  mkMem f (data_ m) (flen_ m) (ptrs_ m) (lens_ m) (cdata_ m) (offsets_ m) (nulls_ m)
    (datums_ m) (udatums_ m) (res_buf_ m) (evaluated_ m) (projected_ m) (eval_flags_ m).
Definition with_fixed (m : ExprMem) (p : ptr) (len : Z) (nulls : words) : ExprMem :=
  mkMem (format_ m) p len (ptrs_ m) (lens_ m) (cdata_ m) (offsets_ m) nulls
    (datums_ m) (udatums_ m) (res_buf_ m) (evaluated_ m) (projected_ m) (eval_flags_ m).
Definition with_discrete (m : ExprMem) (ptrs : list ptr) (lens : list Z) (nulls : words) : ExprMem :=
  mkMem (format_ m) (data_ m) (flen_ m) ptrs lens (cdata_ m) (offsets_ m) nulls
    (datums_ m) (udatums_ m) (res_buf_ m) (evaluated_ m) (projected_ m) (eval_flags_ m).
Definition with_cont (m : ExprMem) (d : bytes) (offs : list Z) (nulls : words) : ExprMem :=
  mkMem (format_ m) (data_ m) (flen_ m) (ptrs_ m) (lens_ m) d offs nulls
    (datums_ m) (udatums_ m) (res_buf_ m) (evaluated_ m) (projected_ m) (eval_flags_ m).
Definition with_datums (m : ExprMem) (ds : list ObDatum) : ExprMem :=
  mkMem (format_ m) (data_ m) (flen_ m) (ptrs_ m) (lens_ m) (cdata_ m) (offsets_ m) (nulls_ m)
    ds (udatums_ m) (res_buf_ m) (evaluated_ m) (projected_ m) (eval_flags_ m).
Definition with_udatums (m : ExprMem) (u : option (list ObDatum)) : ExprMem :=
  mkMem (format_ m) (data_ m) (flen_ m) (ptrs_ m) (lens_ m) (cdata_ m) (offsets_ m) (nulls_ m)
    (datums_ m) u (res_buf_ m) (evaluated_ m) (projected_ m) (eval_flags_ m).
Definition with_res_buf (m : ExprMem) (b : bytes) : ExprMem :=
  mkMem (format_ m) (data_ m) (flen_ m) (ptrs_ m) (lens_ m) (cdata_ m) (offsets_ m) (nulls_ m)
    (datums_ m) (udatums_ m) b (evaluated_ m) (projected_ m) (eval_flags_ m).
Definition with_flags (m : ExprMem) (ev pr : bool) (fl : words) : ExprMem :=
  mkMem (format_ m) (data_ m) (flen_ m) (ptrs_ m) (lens_ m) (cdata_ m) (offsets_ m) (nulls_ m)
    (datums_ m) (udatums_ m) (res_buf_ m) ev pr fl.

(** ** The vector formats *)

(** [ObUniformFormat<IS_CONST>::get_datum]. *)
Definition get_datum (m : ExprMem) (idx : Z) : option ObDatum :=
  rd (default (datums_ m) (udatums_ m))
     (if decide (format_ m = VEC_UNIFORM_CONST) then 0 else idx).

(** [get_payload(idx, payload, length)] of the four formats. *)
Definition fixed_get_payload (m : ExprMem) (idx : Z) : option (ptr * Z) :=
  Some (padd (data_ m) (flen_ m * idx), flen_ m).
Definition disc_get_payload (m : ExprMem) (idx : Z) : option (ptr * Z) :=
  p ← rd (ptrs_ m) idx; len ← rd (lens_ m) idx; Some (p, len).
Definition cont_get_payload (m : ExprMem) (idx : Z) : option (ptr * Z) :=
  o ← rd (offsets_ m) idx; o' ← rd (offsets_ m) (idx + 1);
  Some (PExt (drop (Z.to_nat o) (cdata_ m)), o' - o).
Definition uni_get_payload (m : ExprMem) (idx : Z) : option (ptr * Z) :=
  d ← get_datum m idx; Some (ptr_ d, len_ d).

(** The virtual call [vector->get_payload]. *)
Definition get_payload (m : ExprMem) (idx : Z) : option (ptr * Z) :=
  match format_ m with
  | VEC_INVALID => None
  | VEC_FIXED => fixed_get_payload m idx
  | VEC_DISCRETE => disc_get_payload m idx
  | VEC_CONTINUOUS => cont_get_payload m idx
  | VEC_UNIFORM | VEC_UNIFORM_CONST => uni_get_payload m idx
  end.

(** [is_null(idx)] of the formats with a null bitmap and of the uniform ones. *)
Definition bitmap_is_null (m : ExprMem) (idx : Z) : bool := ObBitVector.at_ (nulls_ m) idx.
Definition uni_is_null (m : ExprMem) (idx : Z) : option bool :=
  d ← get_datum m idx; Some (null_ d).

Definition is_null (m : ExprMem) (idx : Z) : option bool :=
  match format_ m with
  | VEC_INVALID => None
  | VEC_FIXED | VEC_DISCRETE | VEC_CONTINUOUS => Some (bitmap_is_null m idx)
  | VEC_UNIFORM | VEC_UNIFORM_CONST => uni_is_null m idx
  end.

(** The bytes of cell [idx], whatever its null flag says. *)
Definition payload_bytes (m : ExprMem) (idx : Z) : option bytes :=
  '(p, len) ← get_payload m idx; deref (res_buf_ m) p len.

(** [if (nulls_->at(idx)) unset_null(idx)]. *)
Definition unset_if_null (nulls : words) (idx : Z) : words :=
  if ObBitVector.at_ nulls idx then ObBitVector.unset nulls idx else nulls.

Definition set_datum_at (m : ExprMem) (idx : Z) (f : ObDatum -> option ObDatum) : option ExprMem :=
  match udatums_ m with
  | Some _ => None
  | None =>
      let i := if decide (format_ m = VEC_UNIFORM_CONST) then 0 else idx in
      d ← rd (datums_ m) i; d' ← f d; ds ← wr (datums_ m) i d'; Some (with_datums m ds)
  end.

(** [set_payload(idx, payload, length)] of the four formats; [b] is the memory
    at [payload], [length] bytes of it. *)
Definition fixed_set_payload (m : ExprMem) (idx : Z) (b : bytes) : option ExprMem :=
  if Z.of_nat (length b) =? flen_ m then
    buf ← memcpy_to (res_buf_ m) (padd (data_ m) (flen_ m * idx)) b;
    Some (with_res_buf (with_fixed m (data_ m) (flen_ m) (unset_if_null (nulls_ m) idx)) buf)
  else None.
Definition disc_set_payload (m : ExprMem) (idx : Z) (b : bytes) : option ExprMem :=
  p ← rd (ptrs_ m) idx;
  buf ← memcpy_to (res_buf_ m) p b;
  lens ← wr (lens_ m) idx (Z.of_nat (length b));
  Some (with_res_buf (with_discrete m (ptrs_ m) lens (unset_if_null (nulls_ m) idx)) buf).
Definition cont_set_payload (m : ExprMem) (idx : Z) (b : bytes) : option ExprMem :=
  o ← rd (offsets_ m) idx;
  d ← splice (cdata_ m) o b;
  offs ← wr (offsets_ m) (idx + 1) (o + Z.of_nat (length b));
  Some (with_cont m d offs (unset_if_null (nulls_ m) idx)).
Definition uni_set_payload (m : ExprMem) (idx : Z) (b : bytes) : option ExprMem :=
  d ← get_datum m idx;
  buf ← memcpy_to (res_buf_ m) (ptr_ d) b;
  m' ← set_datum_at m idx (fun d => Some (set_pack d (Z.of_nat (length b))));
  Some (with_res_buf m' buf).

(** The virtual call [vector->set_payload]. *)
Definition set_payload (m : ExprMem) (idx : Z) (b : bytes) : option ExprMem :=
  match format_ m with
  | VEC_INVALID => None
  | VEC_FIXED => fixed_set_payload m idx b
  | VEC_DISCRETE => disc_set_payload m idx b
  | VEC_CONTINUOUS => cont_set_payload m idx b
  | VEC_UNIFORM | VEC_UNIFORM_CONST => uni_set_payload m idx b
  end.

(** [set_payload_shallow(idx, payload, length)], for a payload in memory the
    expression does not own; the fixed and continuous formats copy. *)
Definition disc_set_payload_shallow (m : ExprMem) (idx : Z) (b : bytes) : option ExprMem :=
  ptrs ← wr (ptrs_ m) idx (PExt b);
  lens ← wr (lens_ m) idx (Z.of_nat (length b));
  Some (with_discrete m ptrs lens (unset_if_null (nulls_ m) idx)).
Definition uni_set_payload_shallow (m : ExprMem) (idx : Z) (b : bytes) : option ExprMem :=
  set_datum_at m idx (fun _ => Some (mkDatum (PExt b) (Z.of_nat (length b)) false)).

Definition set_payload_shallow (m : ExprMem) (idx : Z) (b : bytes) : option ExprMem :=
  match format_ m with
  | VEC_DISCRETE => disc_set_payload_shallow m idx b
  | VEC_UNIFORM | VEC_UNIFORM_CONST => uni_set_payload_shallow m idx b
  | _ => set_payload m idx b
  end.

(** [ObIVector::set_int], [set_double] (the double as its 64 bits) and
    [set_string]. *)
Definition set_int (m : ExprMem) (idx v : Z) : option ExprMem := set_payload m idx (int64_bytes v).
Definition set_double (m : ExprMem) (idx bits : Z) : option ExprMem := set_payload m idx (int64_bytes bits).
Definition set_string (m : ExprMem) (idx : Z) (b : bytes) : option ExprMem := set_payload_shallow m idx b.

(** ** Expressions *)

Abbreviation ObEvalCtx := (gmap Z ExprMem).

(** An [ObExpr] as the engine uses it; [eid] stands for the offsets of its
    slots in the frames.  [eval_vector_func_] is the function pointer the code
    generator stores: it may read the whole context. *)
Record ObExpr := mkExpr
  { eid : Z;
    datum_type : ObObjType;         (* datum_meta_.type_ *)
    value_tc : VecValueTypeClass;   (* get_vec_value_tc() *)
    batch_result_ : bool;
    is_fixed_length_data_ : bool;
    is_const_expr : bool;
    rich_format : bool;             (* enable_rich_format() *)
    res_buf_len_ : Z;
    has_eval_batch_func : bool;     (* eval_batch_func_ is not null *)
    default_eval_vector : bool;     (* eval_vector_func_ is the default one *)
    eval_vector_func_ : option (ObEvalCtx -> words -> Z -> option (Z * ObEvalCtx)) }.

Definition get_default_res_format (e : ObExpr) : VectorFormat :=
  if negb (batch_result_ e) then VEC_UNIFORM_CONST
  else if decide (datum_type e = ObNullType) then VEC_UNIFORM
  else if is_fixed_length_data_ e then VEC_FIXED else VEC_DISCRETE.

(** [for (i = 0; i < size; i++) a[i] = f(i, a[i])]. *)
Fixpoint fill_nat {A} (n : nat) (i : Z) (f : Z -> A -> A) (l : list A) : option (list A) :=
  match n with
  | O => Some l
  | S n' => match l with [] => None | x :: l' => l'' ← fill_nat n' (i + 1) f l'; Some (f i x :: l'') end
  end.
Definition fill {A} (size : Z) (f : Z -> A -> A) (l : list A) : option (list A) :=
  fill_nat (Z.to_nat size) 0 f l.

Definition reset_datums_ptr (e : ObExpr) (m : ExprMem) (size : Z) : option ExprMem :=
  ds ← fill size (fun i d => mkDatum (PFrame (i * res_buf_len_ e)) (len_ d) (null_ d)) (datums_ m);
  Some (with_datums m ds).

Definition reset_discretes_ptr (e : ObExpr) (m : ExprMem) (size : Z) : option ExprMem :=
  ps ← fill size (fun i _ => PFrame (i * res_buf_len_ e)) (ptrs_ m);
  Some (with_discrete m ps (lens_ m) (nulls_ m)).

(** [VectorHeader::init_uniform_const_vector], on the frame's datums. *)
Definition init_uniform_const_vector (tc : VecValueTypeClass) (m : ExprMem) : Z * ExprMem :=
  let m := with_format m VEC_UNIFORM_CONST in
  if is_uniform_vec tc then (OB_SUCCESS, with_udatums m None) else (OB_INVALID_ARGUMENT, m).

(** [set_max_row_cnt], a bound kept for assertions, is not part of the state. *)
Definition init_vector (e : ObExpr) (m : ExprMem) (format : VectorFormat) (size : Z)
    (use_reserve_buf : bool) : option (Z * ExprMem) :=
  let m := with_format m format in
  if negb (batch_result_ e) && negb (bool_decide (format = VEC_UNIFORM_CONST))
  then Some (OB_ERR_UNEXPECTED, m)
  else match format with
  | VEC_FIXED =>
      let m := with_fixed m (data_ m) (flen_ m) (ObBitVector.reset size (nulls_ m)) in
      if is_fixed_length_vec (value_tc e)
      then Some (OB_SUCCESS, with_fixed m (PFrame 0) (sizeof_tc (value_tc e)) (nulls_ m))
      else Some (OB_INVALID_ARGUMENT, m)
  | VEC_CONTINUOUS =>
      let m := with_cont m (cdata_ m) (offsets_ m) (ObBitVector.reset size (nulls_ m)) in
      if is_discrete_vec (value_tc e) then Some (OB_SUCCESS, m)
      else Some (OB_INVALID_ARGUMENT, m)
  | VEC_DISCRETE =>
      let m := with_discrete m (ptrs_ m) (lens_ m) (ObBitVector.reset size (nulls_ m)) in
      m ← (if use_reserve_buf then reset_discretes_ptr e m size else Some m);
      if is_discrete_vec (value_tc e) then Some (OB_SUCCESS, m)
      else Some (OB_INVALID_ARGUMENT, m)
  | VEC_UNIFORM =>
      m ← (if use_reserve_buf then reset_datums_ptr e m size else Some m);
      if is_uniform_vec (value_tc e) then Some (OB_SUCCESS, with_udatums m None)
      else Some (OB_INVALID_ARGUMENT, m)
  | VEC_UNIFORM_CONST =>
      m ← (if use_reserve_buf then reset_datums_ptr e m 1 else Some m);
      Some (init_uniform_const_vector (value_tc e) m)
  | VEC_INVALID => Some (OB_ERR_UNEXPECTED, m)
  end.

Definition init_vector_for_write (e : ObExpr) (m : ExprMem) (format : VectorFormat) (size : Z)
    : option (Z * ExprMem) := init_vector e m format size true.

(** The datum [cast_to_uniform] writes for row [i]. *)
Definition uniform_datum (p : ptr) (len : Z) (null : bool) : ObDatum :=
  mkDatum p (if null then 0 else len) null.

(** The loop of a [cast_to_uniform] case: [cell i] is the pointer and the
    length the case reads for row [i]. *)
Fixpoint cast_loop (n : nat) (i : Z) (cell : Z -> option (ptr * Z)) (nulls : words)
    (ds : list ObDatum) : option (list ObDatum) :=
  match n with
  | O => Some ds
  | S n' =>
      match ds with
      | [] => None
      | _ :: ds' =>
          '(p, len) ← cell i;
          r ← cast_loop n' (i + 1) cell nulls ds';
          Some (uniform_datum p len (ObBitVector.at_ nulls i) :: r)
      end
  end.

Definition cast_to_uniform (e : ObExpr) (size : Z) (m : ExprMem) : option (Z * ExprMem) :=
  match format_ m with
  | VEC_INVALID => Some (OB_SUCCESS, m)
  | VEC_FIXED | VEC_DISCRETE | VEC_CONTINUOUS =>
      ds ← cast_loop (Z.to_nat size) 0 (get_payload m) (nulls_ m) (datums_ m);
      init_vector e (with_datums m ds) VEC_UNIFORM size false
  | VEC_UNIFORM | VEC_UNIFORM_CONST =>
      match udatums_ m with
      | None => Some (OB_SUCCESS, m)
      | Some _ => Some (OB_ERR_UNEXPECTED, m)
      end
  end.

(** [ObExpr::set_all_null]. *)
Definition set_all_null (m : ExprMem) (size : Z) : option ExprMem :=
  match format_ m with
  | VEC_UNIFORM | VEC_UNIFORM_CONST =>
      ds ← fill size (fun _ => set_null) (datums_ m); Some (with_datums m ds)
  | _ => Some (with_fixed m (data_ m) (flen_ m) (ObBitVector.set_all (nulls_ m) size))
  end.

Definition is_const_skip (skip : words) (size : Z) : bool :=
  negb (ObBitVector.accumulate_bit_cnt_bound skip 0 size <? size).

(** [eval_vector(ctx, skip, bound)] on the bound [[0, size)]; the overload on an
    [ObBatchRows] passes its skip and size.  The stack-depth check is left out. *)
Definition eval_vector (e : ObExpr) (ctx : ObEvalCtx) (skip : words) (size : Z)
    : option (Z * ObEvalCtx) :=
  m ← ctx !! eid e;
  let BATCH_SIZE := if batch_result_ e then size else 1 in
  let const_skip := is_const_skip skip size in
  let rt_skip := if batch_result_ e then skip else [Z.b2z const_skip] in
  '(ret, m) ←
    (if bool_decide (format_ m = VEC_INVALID)
        && (projected_ m || evaluated_ m || bool_decide (eval_vector_func_ e = None))
     then init_vector e m (if batch_result_ e then VEC_UNIFORM else VEC_UNIFORM_CONST)
            BATCH_SIZE false
     else Some (OB_SUCCESS, m));
  '(ret, m, need_evaluate) ←
    (if OB_FAIL ret then Some (ret, m, false)
     else if projected_ m || negb (has_eval_batch_func e)
             || (negb (batch_result_ e) && evaluated_ m)
     then Some (ret, m, false)
     else if negb (evaluated_ m) then
       let m := with_flags m (batch_result_ e) (projected_ m)
                  (ObBitVector.reset BATCH_SIZE (eval_flags_ m)) in
       let format := if default_eval_vector e && batch_result_ e then VEC_UNIFORM
                     else get_default_res_format e in
       '(ret, m) ← init_vector_for_write e m format BATCH_SIZE;
       Some (ret, m, batch_result_ e || negb const_skip)
     else
       Some (ret, m, negb (ObBitVector.bit_op_zero rt_skip (eval_flags_ m) BATCH_SIZE
                             (fun l r => bnot64 (Z.lor l r)))));
  let ctx := <[eid e := m]> ctx in
  if OB_SUCC ret && need_evaluate then
    f ← eval_vector_func_ e;
    '(ret, ctx) ← f ctx rt_skip BATCH_SIZE;
    m ← ctx !! eid e;
    if OB_FAIL ret then
      m ← set_all_null m BATCH_SIZE; Some (ret, <[eid e := m]> ctx)
    else Some (ret, <[eid e := with_flags m true (projected_ m) (eval_flags_ m)]> ctx)
  else Some (ret, ctx).
