(* ===== verification/FrameFacts.v ===== *)
(** Facts on the frame model: reading back what was written, casting a column
    to the uniform format, and refilling an expression's reserved buffer. *)
From S2P Require Import Prelude PopCount BitVector Frame.

(** ** Slices *)

Lemma slice_Some l off len b :
  slice l off len = Some b <->
  0 <= off /\ 0 <= len /\ off + len <= Z.of_nat (length l)
  /\ b = take (Z.to_nat len) (drop (Z.to_nat off) l).
Proof.
  unfold slice. destruct (Z.leb_spec 0 off), (Z.leb_spec 0 len),
    (Z.leb_spec (off + len) (Z.of_nat (length l))); simpl;
    (split; [intros [= <-]; repeat split; lia || reflexivity
            | intros (? & ? & ? & ->); reflexivity || lia]).
Qed.

Lemma splice_Some l off b l' :
  splice l off b = Some l' <->
  0 <= off /\ off + Z.of_nat (length b) <= Z.of_nat (length l)
  /\ l' = take (Z.to_nat off) l ++ b ++ drop (Z.to_nat off + length b) l.
Proof.
  unfold splice. destruct (Z.leb_spec 0 off),
    (Z.leb_spec (off + Z.of_nat (length b)) (Z.of_nat (length l))); simpl;
    (split; [intros [= <-]; repeat split; lia || reflexivity
            | intros (? & ? & ->); reflexivity || lia]).
Qed.

Lemma splice_length l off b l' : splice l off b = Some l' -> length l' = length l.
Proof.
  rewrite splice_Some. intros (H0 & H1 & ->).
  rewrite !length_app, length_take, length_drop. lia.
Qed.

Lemma slice_length l off len b : slice l off len = Some b -> Z.of_nat (length b) = len.
Proof.
  rewrite slice_Some. intros (H0 & H1 & H2 & ->). rewrite length_take, length_drop. lia.
Qed.

Lemma slice_splice_same l off b l' :
  splice l off b = Some l' -> slice l' off (Z.of_nat (length b)) = Some b.
Proof.
  intros H. pose proof (splice_length _ _ _ _ H) as Hl.
  apply splice_Some in H as (H0 & H1 & ->). apply slice_Some.
  repeat split; try lia. rewrite drop_app_length', take_app_length'; [reflexivity | lia |].
  rewrite length_take. lia.
Qed.

(** A write leaves what lies before it as it was. *)
Lemma slice_splice_before l off b l' off' len :
  splice l off b = Some l' -> off' + len <= off -> slice l' off' len = slice l off' len.
Proof.
  intros H Hle. pose proof (splice_length _ _ _ _ H) as Hl.
  apply splice_Some in H as (H0 & H1 & E). unfold slice. rewrite Hl.
  destruct (Z.leb_spec 0 off'), (Z.leb_spec 0 len); simpl; try reflexivity.
  destruct (Z.leb_spec (off' + len) (Z.of_nat (length l))); [| reflexivity].
  f_equal. subst l'. rewrite drop_app_le by (rewrite length_take; lia).
  rewrite take_app_le by (rewrite length_drop, length_take; lia).
  rewrite skipn_firstn_comm, take_take. f_equal. lia.
Qed.

(** ** Encodings *)

Lemma le_encode_length n v : length (le_encode n v) = n.
Proof. revert v. induction n as [| n IH]; intros v; simpl; [reflexivity | now rewrite IH]. Qed.

Lemma le_encode_word_bytes n v : le_encode n v = word_bytes n v.
Proof. revert v. induction n as [| n IH]; intros v; simpl; [reflexivity | now rewrite IH]. Qed.

Lemma word_bytes_mod n v : word_bytes n (v mod 256 ^ Z.of_nat n) = word_bytes n v.
Proof.
  revert v. induction n as [| n IH]; intros v; [reflexivity |]. cbn [word_bytes].
  rewrite Nat2Z.inj_succ, Z.pow_succ_r by lia.
  assert (0 < 256 ^ Z.of_nat n) by (apply Z.pow_pos_nonneg; lia).
  rewrite Z.rem_mul_r by lia. f_equal.
  - rewrite Z.mul_comm, Z.mod_add by lia. apply Z.mod_mod. lia.
  - rewrite (Z.mul_comm 256 (_ mod _)), Z.div_add by lia. rewrite (Z.div_small (v mod 256)).
    + rewrite Z.add_0_l. apply IH.
    + apply Z.mod_pos_bound. lia.
Qed.

(** An [int64_t] written to memory reads back. *)
Lemma bytes_int64_bytes v : bytes_int64 (int64_bytes v) = to_int64 v.
Proof.
  unfold bytes_int64, int64_bytes, le_decode. rewrite le_encode_word_bytes, <- word_bytes_mod.
  rewrite bytes_val_word_bytes by (apply Z.mod_pos_bound; lia).
  change (256 ^ Z.of_nat 8) with (2 ^ 64). unfold to_int64, swrap.
  rewrite Zplus_mod_idemp_l. reflexivity.
Qed.

(** ** Arrays *)

Lemma rd_Some {A} (l : list A) i x : rd l i = Some x <-> 0 <= i /\ l !! Z.to_nat i = Some x.
Proof.
  unfold rd. destruct (Z.leb_spec 0 i); split; [auto | tauto | discriminate | lia].
Qed.

Lemma rd_nat {A} (l : list A) k : rd l (Z.of_nat k) = l !! k.
Proof. unfold rd. rewrite Nat2Z.id. destruct (Z.leb_spec 0 (Z.of_nat k)); [reflexivity | lia]. Qed.

Lemma rd_is_Some {A} (l : list A) i :
  0 <= i < Z.of_nat (length l) -> exists x, rd l i = Some x.
Proof.
  intros H. destruct (lookup_lt_is_Some_2 l (Z.to_nat i)) as [x Hx]; [lia |].
  exists x. apply rd_Some. split; [lia | exact Hx].
Qed.

Lemma wr_Some {A} (l : list A) i x :
  0 <= i < Z.of_nat (length l) -> wr l i x = Some (<[Z.to_nat i := x]> l).
Proof.
  intros H. unfold wr.
  destruct (Z.leb_spec 0 i), (Z.ltb_spec i (Z.of_nat (length l))); reflexivity || lia.
Qed.

Lemma rd_wr_eq {A} (l : list A) i x l' : wr l i x = Some l' -> rd l' i = Some x.
Proof.
  unfold wr. destruct (Z.leb_spec 0 i), (Z.ltb_spec i (Z.of_nat (length l))); try discriminate.
  intros [= <-]. apply rd_Some. split; [lia |]. apply list_lookup_insert_eq. lia.
Qed.

Lemma rd_wr_ne {A} (l : list A) i j x l' :
  wr l i x = Some l' -> i <> j -> rd l' j = rd l j.
Proof.
  unfold wr, rd. destruct (Z.leb_spec 0 i), (Z.ltb_spec i (Z.of_nat (length l))); try discriminate.
  intros [= <-] Hne. destruct (Z.leb_spec 0 j); [| reflexivity].
  apply list_lookup_insert_ne. lia.
Qed.

Lemma wr_length {A} (l : list A) i x l' : wr l i x = Some l' -> length l' = length l.
Proof.
  unfold wr. destruct ((0 <=? i) && (i <? Z.of_nat (length l))); [| discriminate].
  intros [= <-]. apply length_insert.
Qed.

Lemma fill_nat_spec {A} n i (f : Z -> A -> A) (l : list A) :
  (n <= length l)%nat ->
  exists l', fill_nat n i f l = Some l' /\ length l' = length l
    /\ (forall k x, (k < n)%nat -> l !! k = Some x -> l' !! k = Some (f (i + Z.of_nat k) x))
    /\ (forall k, (n <= k)%nat -> l' !! k = l !! k).
Proof.
  revert i l. induction n as [| n IH]; intros i l Hl.
  - exists l. repeat split; intros; lia || reflexivity.
  - destruct l as [| x l]; [simpl in Hl; lia |]. simpl in Hl.
    destruct (IH (i + 1) l ltac:(lia)) as (l' & E & Hlen & Hin & Hout).
    exists (f i x :: l'). cbn [fill_nat]. rewrite E. repeat split.
    + simpl. now rewrite Hlen.
    + intros [| k] y Hk Hy; simpl in *.
      * injection Hy as <-. do 2 f_equal. lia.
      * rewrite (Hin k y) by (lia || assumption). do 2 f_equal. lia.
    + intros [| k] Hk; [lia |]. simpl. apply Hout. lia.
Qed.

Lemma fill_spec {A} size (f : Z -> A -> A) (l : list A) :
  0 <= size <= Z.of_nat (length l) ->
  exists l', fill size f l = Some l' /\ length l' = length l
    /\ (forall k x, 0 <= k < size -> rd l k = Some x -> rd l' k = Some (f k x)).
Proof.
  intros H. destruct (fill_nat_spec (Z.to_nat size) 0 f l ltac:(lia)) as (l' & E & Hl & Hin & _).
  exists l'. split; [exact E |]. split; [exact Hl |]. intros k x Hk Hx.
  apply rd_Some in Hx as [_ Hx]. apply rd_Some. split; [lia |].
  rewrite (Hin (Z.to_nat k) x) by (lia || assumption). do 2 f_equal. lia.
Qed.

(** ** Capacity and kinds of expressions *)

(** The slots of [e] hold [n] rows. *)
Definition cap (e : ObExpr) (n : Z) (m : ExprMem) : Prop :=
  ObBitVector.fits (nulls_ m) n
  /\ n <= Z.of_nat (length (datums_ m)) /\ n <= Z.of_nat (length (ptrs_ m))
  /\ n <= Z.of_nat (length (lens_ m)) /\ n * res_buf_len_ e <= Z.of_nat (length (res_buf_ m)).

(** A batch expression of a fixed-width or of a variable-width type, laid out
    as the code generator does. *)
Definition fixed_expr (e : ObExpr) : Prop :=
  batch_result_ e = true /\ is_fixed_length_data_ e = true /\ datum_type e <> ObNullType
  /\ is_fixed_length_vec (value_tc e) = true
  /\ res_buf_len_ e = sizeof_tc (value_tc e) /\ 0 < res_buf_len_ e.
Definition var_expr (e : ObExpr) : Prop :=
  batch_result_ e = true /\ is_fixed_length_data_ e = false /\ datum_type e <> ObNullType
  /\ is_discrete_vec (value_tc e) = true /\ 0 <= res_buf_len_ e.
Definition batch_expr (e : ObExpr) : Prop := fixed_expr e \/ var_expr e.

Lemma batch_expr_result e : batch_expr e -> batch_result_ e = true.
Proof. intros [H | H]; apply H. Qed.

Lemma batch_expr_uniform e : batch_expr e -> is_uniform_vec (value_tc e) = true.
Proof.
  intros [H | H]; destruct H as (_ & _ & _ & H & _); destruct (value_tc e); try reflexivity; discriminate.
Qed.

Lemma batch_expr_len e : batch_expr e -> 0 <= res_buf_len_ e.
Proof. unfold batch_expr, fixed_expr, var_expr. intuition lia. Qed.

(** The flags the two records share. *)
Definition same_flags (m m' : ExprMem) : Prop :=
  evaluated_ m' = evaluated_ m /\ projected_ m' = projected_ m /\ eval_flags_ m' = eval_flags_ m.

Lemma same_flags_refl m : same_flags m m.
Proof. repeat split. Qed.
Lemma same_flags_trans m1 m2 m3 : same_flags m1 m2 -> same_flags m2 m3 -> same_flags m1 m3.
Proof. unfold same_flags. intuition congruence. Qed.
#[export] Instance same_flags_preorder : PreOrder same_flags.
Proof. split; [exact same_flags_refl | exact same_flags_trans]. Qed.

(** ** Cells and columns *)

(** Row [j] is not null and its payload is [b]. *)
Definition holds (m : ExprMem) (j : Z) (b : bytes) : Prop :=
  is_null m j = Some false /\ payload_bytes m j = Some b.

Definition column_format (f : VectorFormat) : Prop :=
  f = VEC_FIXED \/ f = VEC_DISCRETE \/ f = VEC_CONTINUOUS \/ f = VEC_UNIFORM.

(** The vector shows the rows [cells]. *)
Definition column (m : ExprMem) (cells : list bytes) : Prop :=
  column_format (format_ m) /\ udatums_ m = None
  /\ (length cells <= length (datums_ m))%nat
  /\ forall k b, cells !! k = Some b -> holds m (Z.of_nat k) b.

(** A uniform column: the frame's datums show the rows. *)
Lemma uniform_datum_of m cells k b :
  column m cells -> format_ m = VEC_UNIFORM -> cells !! k = Some b ->
  exists d, rd (datums_ m) (Z.of_nat k) = Some d /\ null_ d = false
            /\ deref (res_buf_ m) (ptr_ d) (len_ d) = Some b.
Proof.
  intros (_ & Hu & _ & H) Hf Hk. destruct (H k b Hk) as [Hn Hp].
  unfold is_null, bitmap_is_null, uni_is_null, payload_bytes, get_payload, fixed_get_payload, disc_get_payload, cont_get_payload, uni_get_payload, get_datum in Hn, Hp.
  rewrite Hf, Hu in Hn, Hp. simpl in Hn, Hp.
  destruct (rd (datums_ m) (Z.of_nat k)) as [d |]; [| discriminate].
  exists d. simpl in *. repeat split; congruence.
Qed.

Lemma cast_loop_spec m n i ds :
  (n <= length ds)%nat -> 0 <= i ->
  (forall k, (k < n)%nat -> exists p len, get_payload m (i + Z.of_nat k) = Some (p, len)) ->
  exists ds', cast_loop n i (get_payload m) (nulls_ m) ds = Some ds' /\ length ds' = length ds
    /\ forall k p len, (k < n)%nat -> get_payload m (i + Z.of_nat k) = Some (p, len) ->
         ds' !! k = Some (uniform_datum p len (ObBitVector.at_ (nulls_ m) (i + Z.of_nat k))).
Proof.
  revert i ds. induction n as [| n IH]; intros i ds Hl Hi Hg.
  - exists ds. repeat split. intros; lia.
  - destruct ds as [| d ds]; [simpl in Hl; lia |]. simpl in Hl.
    destruct (Hg 0%nat ltac:(lia)) as (p & len & Hp). rewrite Z.add_0_r in Hp.
    destruct (IH (i + 1) ds ltac:(lia) ltac:(lia)) as (ds' & E & Hlen & Hd).
    { intros k Hk. destruct (Hg (S k) ltac:(lia)) as (p' & len' & E').
      exists p', len'. rewrite <- E'. f_equal. lia. }
    exists (uniform_datum p len (ObBitVector.at_ (nulls_ m) i) :: ds').
    cbn [cast_loop]. rewrite Hp. simpl. rewrite E. simpl. repeat split; [now rewrite Hlen |].
    intros [| k] p' len' Hk Hg'.
    + rewrite Z.add_0_r in *. simpl. congruence.
    + replace (i + Z.of_nat (S k)) with (i + 1 + Z.of_nat k) in * by lia.
      simpl. apply Hd; [lia | exact Hg'].
Qed.

(** The vector shows the rows [cells], [None] a NULL, whose slot is there all the same. *)
Definition shows (m : ExprMem) (j : Z) (c : option bytes) : Prop :=
  match c with
  | Some b => holds m j b
  | None => is_null m j = Some true /\ is_Some (get_payload m j)
  end.
Definition nullable_column (m : ExprMem) (cells : list (option bytes)) : Prop :=
  column_format (format_ m) /\ udatums_ m = None /\ (length cells <= length (datums_ m))%nat
  /\ forall k c, cells !! k = Some c -> shows m (Z.of_nat k) c.

Lemma column_nullable m cells : column m cells <-> nullable_column m (map Some cells).
Proof.
  unfold column, nullable_column. rewrite length_map. setoid_rewrite list_lookup_fmap.
  split; intros (Hf & Hu & Hl & Hh); split_and!; auto; intros k.
  - intros c. destruct (cells !! k) as [b |] eqn:E; [| discriminate]. intros [= <-]. exact (Hh k b E).
  - intros b Hb. specialize (Hh k (Some b)). rewrite Hb in Hh. exact (Hh eq_refl).
Qed.
(** What a row shows is in the payload and in the bitmap of the formats that have one. *)
Lemma shows_cell m k c : column_format (format_ m) -> format_ m <> VEC_UNIFORM -> shows m k c ->
  exists p len, get_payload m k = Some (p, len) /\ ObBitVector.at_ (nulls_ m) k = bool_decide (c = None)
    /\ forall b, c = Some b -> deref (res_buf_ m) p len = Some b.
Proof.
  intros Hf Hn Hs.
  assert (forall b, is_null m k = Some b -> ObBitVector.at_ (nulls_ m) k = b) as Hb.
  { intros b. unfold is_null, bitmap_is_null. destruct Hf as [E | [E | [E | E]]]; rewrite E; congruence. }
  destruct c as [b |]; cbn [shows] in Hs.
  - destruct Hs as [H1 H2]. unfold payload_bytes in H2. destruct (get_payload m k) as [[p len] |]; [| discriminate].
    exists p, len. rewrite (Hb _ H1). split_and!; [reflexivity | reflexivity |]. intros b' [= <-]. exact H2.
  - destruct Hs as [H1 [[p len] H2]]. exists p, len. rewrite (Hb _ H1). now split_and!.
Qed.

Lemma cast_nullable e m cells :
  batch_expr e -> nullable_column m cells ->
  exists m', cast_to_uniform e (Z.of_nat (length cells)) m = Some (OB_SUCCESS, m')
    /\ nullable_column m' cells /\ format_ m' = VEC_UNIFORM /\ same_flags m m'
    /\ (forall n, cap e n m -> cap e n m').
Proof.
  intros He Hc. pose proof Hc as (Hf & Hu & Hl & Hh).
  destruct (decide (format_ m = VEC_UNIFORM)) as [Hun | Hun].
  { exists m. split; [unfold cast_to_uniform; now rewrite Hun, Hu |]. split; [exact Hc |]. split; [exact Hun |].
    split; [reflexivity | auto]. }
  destruct (cast_loop_spec m (length cells) 0 (datums_ m) Hl ltac:(lia)) as (ds' & E & Hlen & Hd).
  { intros k Hk. destruct (lookup_lt_is_Some_2 cells k Hk) as [c Hk']. destruct (shows_cell m _ c Hf Hun (Hh k c Hk')) as (p & len & Hp & _). eauto. }
  assert (cast_to_uniform e (Z.of_nat (length cells)) m
          = Some (OB_SUCCESS, with_udatums (with_format (with_datums m ds') VEC_UNIFORM) None)) as Hcast.
  { unfold cast_to_uniform. rewrite Nat2Z.id. rewrite E.
    destruct Hf as [Ef | [Ef | [Ef | Ef]]]; rewrite Ef; try congruence; simpl; unfold init_vector;
      rewrite (batch_expr_result e He), (batch_expr_uniform e He); reflexivity. }
  eexists. split; [exact Hcast |].
  split; [split; [now right; right; right | split; [reflexivity | split]]
         | split; [reflexivity | split; [now repeat split |]]].
  - simpl. rewrite Hlen. exact Hl.
  - intros k c Hk. destruct (shows_cell m _ c Hf Hun (Hh k c Hk)) as (p & len & Hp & Hat & Hb).
    specialize (Hd k p len (lookup_lt_Some _ _ _ Hk) Hp). rewrite Z.add_0_l, Hat in Hd.
    unfold shows, holds, is_null, payload_bytes, get_payload, uni_is_null, uni_get_payload, get_datum. simpl.
    rewrite rd_nat, Hd. destruct c as [b |]; simpl; [| eauto].
    split; [reflexivity | exact (Hb b eq_refl)].
  - intros n. unfold cap. simpl. rewrite Hlen. intuition.
Qed.
Lemma cast_column e m cells :
  batch_expr e -> column m cells ->
  exists m', cast_to_uniform e (Z.of_nat (length cells)) m = Some (OB_SUCCESS, m')
    /\ column m' cells /\ format_ m' = VEC_UNIFORM /\ same_flags m m'
    /\ (forall n, cap e n m -> cap e n m').
Proof.
  rewrite column_nullable. intros He Hm. destruct (cast_nullable e m _ He Hm) as (m' & E & Hc & ?).
  rewrite length_map in E. exists m'. rewrite column_nullable. auto.
Qed.

(** ** Refilling a vector *)

(** [m] is a fixed or discrete vector over its own reserved buffer, [n] cells
    of [L] bytes, none of them null. *)
Record writable (n L : Z) (m : ExprMem) : Prop := mkWritable
  { w_nulls : forall i, 0 <= i < n -> ObBitVector.at_ (nulls_ m) i = false;
    w_len : 0 <= L;
    w_buf : n * L <= Z.of_nat (length (res_buf_ m));
    w_format : (format_ m = VEC_FIXED /\ data_ m = PFrame 0 /\ flen_ m = L /\ 0 < L)
               \/ (format_ m = VEC_DISCRETE /\ n <= Z.of_nat (length (lens_ m))
                   /\ forall i, 0 <= i < n -> rd (ptrs_ m) i = Some (PFrame (i * L))) }.

(** A payload the cell has room for. *)
Definition cell_fits (m : ExprMem) (L : Z) (b : bytes) : Prop :=
  (format_ m = VEC_FIXED -> Z.of_nat (length b) = L) /\ Z.of_nat (length b) <= L.

Lemma memcpy_slot buf i L n b :
  0 <= i < n -> 0 <= L -> n * L <= Z.of_nat (length buf) -> Z.of_nat (length b) <= L ->
  exists buf', memcpy_to buf (PFrame (i * L)) b = Some buf' /\ length buf' = length buf
    /\ slice buf' (i * L) (Z.of_nat (length b)) = Some b
    /\ forall off len, off + len <= i * L -> slice buf' off len = slice buf off len.
Proof.
  intros Hi HL Hbuf Hb. unfold memcpy_to.
  assert ((i + 1) * L <= n * L) by (apply Z.mul_le_mono_nonneg_r; lia).
  assert (0 <= i * L) by lia.
  destruct (Z.eqb_spec (Z.of_nat (length b)) 0) as [E | E].
  - exists buf. repeat split. apply slice_Some. destruct b; [| simpl in E; lia].
    repeat split; simpl; lia.
  - destruct (splice buf (i * L) b) as [buf' |] eqn:Es.
    + exists buf'. split; [reflexivity |]. split; [eapply splice_length, Es |].
      split; [eapply slice_splice_same, Es |].
      intros off len Hle. eapply slice_splice_before; [exact Es | exact Hle].
    + exfalso. unfold splice in Es.
      destruct (Z.leb_spec 0 (i * L)); [| lia]. simpl in Es.
      destruct (Z.leb_spec (i * L + Z.of_nat (length b)) (Z.of_nat (length buf))); [discriminate | lia].
Qed.

(** What every write to a cell leaves alone. *)
Definition same_shape (m m' : ExprMem) : Prop :=
  same_flags m m' /\ format_ m' = format_ m /\ datums_ m' = datums_ m /\ udatums_ m' = udatums_ m
  /\ nulls_ m' = nulls_ m /\ length (ptrs_ m') = length (ptrs_ m)
  /\ length (lens_ m') = length (lens_ m) /\ length (res_buf_ m') = length (res_buf_ m).

#[export] Instance same_shape_preorder : PreOrder same_shape.
Proof.
  split; [intros m; repeat split |].
  intros m1 m2 m3 (F & ?) (F' & ?). unfold same_shape.
  split; [now transitivity m2 | intuition congruence].
Qed.

Lemma same_shape_cap e n m m' : same_shape m m' -> cap e n m -> cap e n m'.
Proof.
  intros (_ & _ & Hd & _ & Hn & Hp & Hl & Hr). unfold cap. now rewrite Hd, Hn, Hp, Hl, Hr.
Qed.

Lemma holds_of_slice m j L b :
  0 <= j -> ObBitVector.at_ (nulls_ m) j = false ->
  ((format_ m = VEC_FIXED /\ data_ m = PFrame 0 /\ flen_ m = L /\ Z.of_nat (length b) = L)
   \/ (format_ m = VEC_DISCRETE /\ rd (ptrs_ m) j = Some (PFrame (j * L))
       /\ rd (lens_ m) j = Some (Z.of_nat (length b)))) ->
  slice (res_buf_ m) (j * L) (Z.of_nat (length b)) = Some b -> holds m j b.
Proof.
  intros Hj Hn Hf Hs. unfold holds, is_null, bitmap_is_null, uni_is_null, payload_bytes, get_payload, fixed_get_payload, disc_get_payload, cont_get_payload, uni_get_payload.
  destruct Hf as [(Ef & Ed & El & Hlen) | (Ef & Ep & El)]; rewrite Ef, Hn.
  - split; [reflexivity |]. rewrite Ed, El. simpl. rewrite <- Hs. f_equal; lia.
  - split; [reflexivity |]. rewrite Ep. simpl. rewrite El. exact Hs.
Qed.

Lemma set_payload_ok n L m j b :
  writable n L m -> 0 <= j < n -> cell_fits m L b ->
  exists m', set_payload m j b = Some m' /\ writable n L m' /\ same_shape m m'
    /\ holds m' j b /\ (forall i c, 0 <= i < j -> holds m i c -> Z.of_nat (length c) <= L -> holds m' i c).
Proof.
  intros [Hn HL Hbuf Hf] Hj [Hfit HbL].
  destruct (memcpy_slot (res_buf_ m) j L n b Hj HL Hbuf HbL) as (buf' & Em & Hlb & Hs & Hpre).
  assert (unset_if_null (nulls_ m) j = nulls_ m) as Hun
    by (unfold unset_if_null; now rewrite Hn by lia).
  assert (forall i, 0 <= i < j -> i * L + L <= j * L) as Hslot by (intros; nia).
  destruct Hf as [(Ef & Ed & El & HL0) | (Ef & Hl & Hp)].
  - specialize (Hfit Ef).
    assert (set_payload m j b = Some (with_res_buf (with_fixed m (data_ m) (flen_ m) (nulls_ m)) buf')) as Hset.
    { unfold set_payload, fixed_set_payload, disc_set_payload. rewrite Ef, El. destruct (Z.eqb_spec (Z.of_nat (length b)) L); [| lia].
      rewrite Ed. simpl padd. replace (0 + L * j) with (j * L) by lia.
      rewrite Em, Hun. reflexivity. }
    eexists. split; [exact Hset |].
    split; [constructor; simpl; [exact Hn | exact HL | lia | now left] |].
    split; [repeat split; simpl; auto |]. split.
    + apply (holds_of_slice _ j L b); simpl; auto; lia.
    + intros i c Hi [Hic Hpc] Hlc. split; [exact Hic |].
      unfold payload_bytes, get_payload, fixed_get_payload, disc_get_payload, cont_get_payload, uni_get_payload in *. simpl. rewrite Ef, Ed, El in *. simpl in *.
      rewrite Hpre; [exact Hpc |]. specialize (Hslot i Hi). lia.
  - destruct (rd_is_Some (lens_ m) j ltac:(lia)) as [l0 Hl0].
    pose proof (wr_Some (lens_ m) j (Z.of_nat (length b)) ltac:(lia)) as Hwr.
    set (lens' := <[Z.to_nat j := Z.of_nat (length b)]> (lens_ m)) in *.
    assert (set_payload m j b = Some (with_res_buf (with_discrete m (ptrs_ m) lens' (nulls_ m)) buf')) as Hset.
    { unfold set_payload, fixed_set_payload, disc_set_payload. rewrite Ef, (Hp j Hj). simpl. rewrite Em. simpl. rewrite Hwr, Hun. reflexivity. }
    eexists. split; [exact Hset |].
    split; [constructor; simpl; [exact Hn | exact HL | lia |] |].
    { right. split; [exact Ef |]. split; [now rewrite (wr_length _ _ _ _ Hwr) | exact Hp]. }
    split; [repeat split; simpl; auto; eapply wr_length, Hwr |]. split.
    + apply (holds_of_slice _ j L b); simpl; auto; [lia |]. right.
      split; [exact Ef |]. split; [now apply Hp | eapply rd_wr_eq, Hwr].
    + intros i c Hi [Hic Hpc] Hlc. split; [exact Hic |].
      unfold payload_bytes, get_payload, fixed_get_payload, disc_get_payload, cont_get_payload, uni_get_payload in *. simpl. rewrite Ef in *.
      rewrite (Hp i) in * by lia. simpl in *. rewrite (rd_wr_ne _ _ _ _ _ Hwr) by lia.
      destruct (rd (lens_ m) i) as [li |]; [| discriminate]. simpl in *.
      pose proof (slice_length _ _ _ _ Hpc) as Hli.
      rewrite Hpre; [exact Hpc |]. specialize (Hslot i Hi). lia.
Qed.

(** [for (j = 0; j < n; ++j) dst->set_...(j, ...)]. *)
Fixpoint write_cells (w : ExprMem -> Z -> bytes -> option ExprMem) (m : ExprMem) (j : Z)
    (bs : list bytes) : option ExprMem :=
  match bs with
  | [] => Some m
  | b :: bs' => m' ← w m j b; write_cells w m' (j + 1) bs'
  end.

Lemma write_cells_ok n L m j bs pre :
  writable n L m -> 0 <= j -> j + Z.of_nat (length bs) <= n ->
  Forall (cell_fits m L) bs ->
  Z.of_nat (length pre) = j -> Forall (fun c => Z.of_nat (length c) <= L) pre ->
  (forall k c, pre !! k = Some c -> holds m (Z.of_nat k) c) ->
  exists m', write_cells set_payload m j bs = Some m' /\ writable n L m' /\ same_shape m m'
    /\ forall k c, (pre ++ bs) !! k = Some c -> holds m' (Z.of_nat k) c.
Proof.
  revert m j pre. induction bs as [| b bs IH]; intros m j pre Hw Hj Hn Hfit Hpl Hpre Hh.
  - exists m. rewrite app_nil_r. split; [reflexivity |]. split; [exact Hw |].
    split; [reflexivity | exact Hh].
  - apply Forall_cons in Hfit as [Hb Hbs]. simpl length in Hn.
    destruct (set_payload_ok n L m j b Hw ltac:(lia) Hb) as (m1 & E & Hw1 & Hs1 & Hhj & Hhi).
    destruct (IH m1 (j + 1) (pre ++ [b]) Hw1) as (m' & E' & Hw' & Hs' & Hh').
    + lia.
    + lia.
    + eapply Forall_impl; [exact Hbs |]. intros c [H1 H2]. split; [| exact H2].
      destruct Hs1 as (_ & -> & _). exact H1.
    + rewrite length_app. simpl. lia.
    + apply Forall_app. split; [exact Hpre |]. constructor; [apply Hb | constructor].
    + intros k c Hk. apply lookup_app_Some in Hk as [Hk | [Hk1 Hk2]].
      * apply Hhi; [| now apply Hh |].
        -- apply lookup_lt_Some in Hk. lia.
        -- rewrite Forall_lookup in Hpre. eauto.
      * destruct (k - length pre)%nat eqn:Ek; [| discriminate]. injection Hk2 as <-.
        replace (Z.of_nat k) with j by lia. exact Hhj.
    + exists m'. cbn [write_cells]. rewrite E. simpl. split; [exact E' |].
      split; [exact Hw' |]. split; [now transitivity m1 |].
      now rewrite <- app_assoc in Hh'.
Qed.

(** [init_vector] on the default format gives a vector to write to. *)
Lemma init_writable e m n size :
  batch_expr e -> cap e n m -> 0 <= size <= n ->
  exists m', init_vector e m (get_default_res_format e) size true = Some (OB_SUCCESS, m')
    /\ writable size (res_buf_len_ e) m' /\ cap e n m' /\ same_flags m m'
    /\ format_ m' = get_default_res_format e /\ udatums_ m' = udatums_ m.
Proof.
  intros He (Hfits & Hd & Hp & Hl & Hb) Hs.
  assert (forall i, 0 <= i < size -> ObBitVector.at_ (ObBitVector.reset size (nulls_ m)) i = false) as Hat.
  { intros i Hi. rewrite ObBitVector.at_reset; [| lia | lia |].
    - pose proof (ObBitVector.word_count_spec size ltac:(lia)).
      destruct (Z.ltb_spec i (64 * ObBitVector.word_count size)); [reflexivity | lia].
    - unfold ObBitVector.fits in *. lia. }
  assert (ObBitVector.fits (ObBitVector.reset size (nulls_ m)) n) as Hfits'.
  { unfold ObBitVector.fits, ObBitVector.reset, ObBitVector.init in *.
    now rewrite ObBitVector.length_for_words. }
  pose proof (batch_expr_len e He) as HL.
  assert (size * res_buf_len_ e <= n * res_buf_len_ e) by (apply Z.mul_le_mono_nonneg_r; lia).
  unfold get_default_res_format, init_vector. rewrite (batch_expr_result e He). simpl negb.
  destruct He as [(_ & Hfx & Hty & Htc & HLs & HL0) | (_ & Hfx & Hty & Htc & _)];
    rewrite Hfx; destruct (decide (datum_type e = ObNullType)); try contradiction; simpl;
    rewrite Htc.
  - eexists. split; [reflexivity |]. split; [constructor; simpl; [exact Hat | exact HL | lia | left; repeat split; auto] |].
    split; [unfold cap; simpl; auto |]. repeat split; reflexivity.
  - unfold reset_discretes_ptr. simpl.
    destruct (fill_spec size (fun i _ => PFrame (i * res_buf_len_ e)) (ptrs_ m) ltac:(lia))
      as (ps & -> & Hpl & Hps). simpl.
    eexists. split; [reflexivity |]. split; [constructor; simpl; [exact Hat | exact HL | lia |] |].
    + right. split; [reflexivity |]. split; [lia |]. intros i Hi.
      destruct (rd_is_Some (ptrs_ m) i ltac:(lia)) as [x Hx]. exact (Hps i x Hi Hx).
    + split; [unfold cap; simpl; rewrite Hpl; auto |]. repeat split; reflexivity.
Qed.

(** ** Shallow writes to a discrete vector *)

Definition disc_ready (n : Z) (m : ExprMem) : Prop :=
  format_ m = VEC_DISCRETE /\ n <= Z.of_nat (length (ptrs_ m)) /\ n <= Z.of_nat (length (lens_ m))
  /\ forall i, 0 <= i < n -> ObBitVector.at_ (nulls_ m) i = false.

Lemma set_string_ok n m j b :
  disc_ready n m -> 0 <= j < n ->
  exists m', set_string m j b = Some m' /\ disc_ready n m' /\ same_shape m m'
    /\ holds m' j b /\ (forall i c, i <> j -> holds m i c -> holds m' i c).
Proof.
  intros (Hf & Hp & Hl & Hn) Hj. unfold set_string, set_payload_shallow, disc_set_payload_shallow. rewrite Hf.
  pose proof (wr_Some (ptrs_ m) j (PExt b) ltac:(lia)) as Ep. rewrite Ep.
  pose proof (wr_Some (lens_ m) j (Z.of_nat (length b)) ltac:(lia)) as El. cbn [mbind option_bind].
  rewrite El. cbn [mbind option_bind]. unfold unset_if_null. rewrite Hn by lia.
  eexists. split; [reflexivity |].
  split; [unfold disc_ready; simpl; rewrite !length_insert; auto |].
  split; [repeat split; simpl; rewrite ?length_insert; reflexivity |].
  unfold holds, is_null, bitmap_is_null, uni_is_null, payload_bytes, get_payload, fixed_get_payload, disc_get_payload, cont_get_payload, uni_get_payload. simpl. rewrite Hf. split.
  - rewrite Hn by lia. split; [reflexivity |]. rewrite (rd_wr_eq _ _ _ _ Ep), (rd_wr_eq _ _ _ _ El).
    simpl. apply slice_Some. rewrite Nat2Z.id. repeat split; try lia. simpl. now rewrite take_ge.
  - intros i c Hne [H1 H2]. split; [exact H1 |].
    rewrite (rd_wr_ne _ _ _ _ _ Ep), (rd_wr_ne _ _ _ _ _ El) by lia. exact H2.
Qed.

Lemma write_strings_ok n m j bs pre :
  disc_ready n m -> 0 <= j -> j + Z.of_nat (length bs) <= n -> Z.of_nat (length pre) = j ->
  (forall k c, pre !! k = Some c -> holds m (Z.of_nat k) c) ->
  exists m', write_cells set_string m j bs = Some m' /\ same_shape m m'
    /\ forall k c, (pre ++ bs) !! k = Some c -> holds m' (Z.of_nat k) c.
Proof.
  revert m j pre. induction bs as [| b bs IH]; intros m j pre Hd Hj Hn Hpl Hh.
  - exists m. rewrite app_nil_r. split; [reflexivity |]. split; [reflexivity | exact Hh].
  - simpl length in Hn.
    destruct (set_string_ok n m j b Hd ltac:(lia)) as (m1 & E & Hd1 & Hs1 & Hhj & Hhi).
    destruct (IH m1 (j + 1) (pre ++ [b]) Hd1) as (m' & E' & Hs' & Hh').
    + lia.
    + lia.
    + rewrite length_app. simpl. lia.
    + intros k c Hk. apply lookup_app_Some in Hk as [Hk | [Hk1 Hk2]].
      * apply Hhi; [| now apply Hh]. apply lookup_lt_Some in Hk. lia.
      * destruct (k - length pre)%nat eqn:Ek; [| discriminate]. injection Hk2 as <-.
        replace (Z.of_nat k) with j by lia. exact Hhj.
    + exists m'. cbn [write_cells]. rewrite E. simpl. split; [exact E' |].
      split; [now transitivity m1 |]. now rewrite <- app_assoc in Hh'.
Qed.
