(* ===== verification/Arena.v ===== *)
(** [PageArena] of [deps/oblib/src/lib/allocator/page_arena.h]: memory taken from
    pages that are given back together, the allocator behind schema objects,
    expressions and operators ([ObArenaAllocator]).

    A pointer to a page is its address and the pages are a map from addresses:
    links, [cur_page_] and [tailer_] are pointers as in the code, and a pointer to
    a page that was given back, or a failed [abort_unless], is a run without a
    result ([None]).  The allocator of the pages is the class [PageAllocator].
    The contents of the memory and the build with memory diagnosis or sanity checks
    are not modelled; nor are [join] and [assign], which do not compile when used. *)
From S2P Require Import Prelude.

(** ** One page *)
Module Page.
(** [block_] is the size of the block, which the allocator of the pages keeps. *)
Record t := mk { next_page_ : option Z; alloc_end_ : Z; page_end_ : Z; block_ : Z }.
Definition sizeof : Z := 32.

(** [buf_] of the page at [p], behind its four members. *)
Definition buf_ (p : Z) : Z := p + sizeof.
Definition new (p sz : Z) : t := mk None (buf_ p) (p + sz) sz.
Definition remain (pg : t) : Z := page_end_ pg - alloc_end_ pg.
Definition raw_size (p : Z) (pg : t) : Z := page_end_ pg - buf_ p + sizeof.
Definition reuse_size (p : Z) (pg : t) : Z := page_end_ pg - buf_ p.

Definition set_next (pg : t) (next : option Z) : t := mk next (alloc_end_ pg) (page_end_ pg) (block_ pg).
Definition set_end (pg : t) (e : Z) : t := mk (next_page_ pg) e (page_end_ pg) (block_ pg).

Definition alloc (pg : t) (sz : Z) : option Z * t :=
  if sz <=? 0 then (None, pg)
  else if sz <=? remain pg then (Some (alloc_end_ pg), set_end pg (alloc_end_ pg + sz))
  else (None, pg).
Definition alloc_down (pg : t) (sz : Z) : option Z * t :=
  (Some (page_end_ pg - sz), mk (next_page_ pg) (alloc_end_ pg) (page_end_ pg - sz) (block_ pg)).
Definition reuse (p : Z) (pg : t) : t := set_end pg (buf_ p).
End Page.

(** Where a block of so many bytes is, when there is memory, given the pages in use. *)
Class PageAllocator := page_alloc : gmap Z Page.t -> Z -> option Z.

(** [get_align_offset]: the alignment itself when the address has it already. *)
Definition get_align_offset (p alignment : Z) : Z := alignment - Z.land p (alignment - 1).
Definition ob_aligned_to2 (x alignment : Z) : Z := Z.land (x + (alignment - 1)) (Z.lnot (alignment - 1)).

Module PageArena.

Record TracerContext := mkTc { tc_header_ : option Z; tc_cur_page_ : Page.t; tc_pages_ : Z; tc_used_ : Z; tc_total_ : Z }.
Definition sizeof_TracerContext : Z := 64.

Record t := mk
  { cur_page_ : option Z; header_ : option Z; tailer_ : option Z; page_limit_ : Z; page_size_ : Z;
    pages_ : Z; used_ : Z; total_ : Z; tc_ : option TracerContext; mem_ : gmap Z Page.t }.

Definition new (page_size : Z) : t := mk None None None 0 page_size 0 0 0 None ∅.

(** Assignments to single members. *)
Definition set_cur (a : t) (p : option Z) : t :=
  mk p (header_ a) (tailer_ a) (page_limit_ a) (page_size_ a) (pages_ a) (used_ a) (total_ a) (tc_ a) (mem_ a).
Definition set_header (a : t) (p : option Z) : t :=
  mk (cur_page_ a) p (tailer_ a) (page_limit_ a) (page_size_ a) (pages_ a) (used_ a) (total_ a) (tc_ a) (mem_ a).
Definition set_tailer (a : t) (p : option Z) : t :=
  mk (cur_page_ a) (header_ a) p (page_limit_ a) (page_size_ a) (pages_ a) (used_ a) (total_ a) (tc_ a) (mem_ a).
Definition set_limit (a : t) (n : Z) : t :=
  mk (cur_page_ a) (header_ a) (tailer_ a) n (page_size_ a) (pages_ a) (used_ a) (total_ a) (tc_ a) (mem_ a).
Definition set_stats (a : t) (pages used total : Z) : t :=
  mk (cur_page_ a) (header_ a) (tailer_ a) (page_limit_ a) (page_size_ a) pages used total (tc_ a) (mem_ a).
Definition set_tc (a : t) (tc : option TracerContext) : t :=
  mk (cur_page_ a) (header_ a) (tailer_ a) (page_limit_ a) (page_size_ a) (pages_ a) (used_ a) (total_ a) tc (mem_ a).
Definition set_mem (a : t) (m : gmap Z Page.t) : t :=
  mk (cur_page_ a) (header_ a) (tailer_ a) (page_limit_ a) (page_size_ a) (pages_ a) (used_ a) (total_ a) (tc_ a) m.
Definition add_used (a : t) (n : Z) : t := set_stats a (pages_ a) (used_ a + n) (total_ a).
Definition put (a : t) (p : Z) (pg : Page.t) : t := set_mem a (<[p := pg]> (mem_ a)).

(** [p->f()]. *)
Definition on_page (a : t) (p : Z) (f : Page.t -> option Z * Page.t) : option (option Z * t) :=
  pg ← mem_ a !! p; let '(r, pg) := f pg in Some (r, put a p pg).
(** [*link = v], where the link is [header_] or the [next_page_] of a page. *)
Definition write_link (a : t) (link v : option Z) : option t :=
  match link with
  | None => Some (set_header a v)
  | Some q => pg ← mem_ a !! q; Some (put a q (Page.set_next pg v))
  end.
(** The loops over pages end with the last page at the latest. *)
Definition fuel (a : t) : nat := S (size (mem_ a)).

Section Ops.
Context `{PageAllocator}.
Implicit Type a : t.

(** ** Pages *)
Definition alloc_new_page a (sz : Z) : option Z * t :=
  match page_alloc (mem_ a) sz with
  | Some p => (Some p, set_stats (put a p (Page.new p sz)) (pages_ a + 1) (used_ a) (total_ a + sz))
  | None => (None, a)
  end.
Definition free_page a (p : Z) : t := set_mem a (delete p (mem_ a)).

Definition insert_head a (page : Z) : option t :=
  pg ← mem_ a !! page;
  let a := match header_ a with Some h => put a page (Page.set_next pg (Some h)) | None => a end in
  Some (set_header a (Some page)).
Definition insert_tail a (page : Z) : option t :=
  a ← match tailer_ a with
      | Some q => pg ← mem_ a !! q; Some (put a q (Page.set_next pg (Some page)))
      | None => Some a
      end;
  Some (set_tailer a (Some page)).

Definition extend_page a (sz : Z) : option (option Z * t) :=
  match cur_page_ a with
  | None => Some (None, a)
  | Some c =>
      pg ← mem_ a !! c;
      match Page.next_page_ pg with
      | Some n => npg ← mem_ a !! n; Some (Some n, put a n (Page.reuse n npg))
      | None =>
          let '(page, a) := alloc_new_page a sz in
          match page with
          | None => Some (None, a)
          | Some p => a ← insert_tail a p; Some (Some p, a)
          end
      end
  end.

Definition lookup_next_page a (sz : Z) : option (bool * t) :=
  match cur_page_ a with
  | None => Some (false, a)
  | Some c =>
      pg ← mem_ a !! c;
      match Page.next_page_ pg with
      | None => Some (false, a)
      | Some n =>
          npg ← mem_ a !! n;
          if sz <=? Page.reuse_size n npg
          then Some (true, set_cur (put a n (Page.reuse n npg)) (Some n))
          else Some (false, a)
      end
  end.

(** The loop of [ensure_cur_page]: the link behind the last page. *)
Fixpoint last_link (n : nat) (m : gmap Z Page.t) (link v : option Z) : option (option Z) :=
  match n with
  | O => None
  | S n' =>
      match v with
      | None => Some link
      | Some p => pg ← m !! p; last_link n' m (Some p) (Page.next_page_ pg)
      end
  end.
Definition ensure_cur_page a : option t :=
  match cur_page_ a with
  | Some _ => Some a
  | None =>
      let '(page, a) := alloc_new_page a (page_size_ a) in
      let a := set_cur a page in
      match page with
      | None => Some a
      | Some p =>
          link ← last_link (fuel a) (mem_ a) None (header_ a);
          match tailer_ a with
          | Some _ => None
          | None =>
              a ← write_link (set_tailer a (Some p)) link (Some p);
              pg ← mem_ a !! p;
              Some (set_limit a (Page.remain pg))
          end
      end
  end.

Definition is_normal_overflow a (sz : Z) : bool := sz <=? page_limit_ a.
Definition is_large_page a (p : Z) (pg : Page.t) : bool := page_size_ a <? Page.raw_size p pg.

Definition alloc_big a (sz : Z) : option (option Z * t) :=
  let '(page, a) := alloc_new_page a (to_int64 (sz + Page.sizeof)) in
  match page with
  | None => Some (None, a)
  | Some p => a ← insert_head a p; on_page a p (fun pg => Page.alloc pg sz)
  end.

(** ** Allocation *)

(** [new_page = extend_page(page_size_)] and the use of the page; the current one
    when there is no other. *)
Definition extend_and a (f : Page.t -> option Z * Page.t) : option (option Z * t) :=
  '(new_page, a) ← extend_page a (page_size_ a);
  let a := match new_page with Some p => set_cur a (Some p) | None => a end in
  match cur_page_ a with Some c => on_page a c f | None => Some (None, a) end.

(** The text [_alloc], [_alloc_aligned] and [alloc_down] share.  [common] is the
    attempt on the current page, with the bytes skipped; [other] takes the memory
    from the page that follows. *)
Definition alloc_in (common : Page.t -> option (option Z * Page.t * Z)) (other : Page.t -> option Z * Page.t) a (sz : Z) :
    option (option Z * t) :=
  '(ret, a) ←
    (if uwrap64 (sz + Page.sizeof) <=? uwrap64 (page_size_ a) then
       a ← ensure_cur_page a;
       match cur_page_ a with
       | None => Some (None, a)
       | Some c =>
           if 0 <? sz then
             pg ← mem_ a !! c;
             match common pg with
             | Some (ret, pg, skipped) => Some (ret, add_used (put a c pg) skipped)
             | None =>
                 if is_normal_overflow a sz then
                   extend_and a other
                 else
                   '(found, a) ← lookup_next_page a sz;
                   if (found : bool) then match cur_page_ a with Some c => on_page a c other | None => None end
                   else alloc_big a sz
             end
           else Some (None, a)
       end
     else alloc_big a sz);
  Some (ret, match ret with Some _ => add_used a sz | None => a end).

Definition alloc_common (sz : Z) (pg : Page.t) : option (option Z * Page.t * Z) :=
  if sz <=? Page.remain pg then let '(ret, pg) := Page.alloc pg sz in Some (ret, pg, 0) else None.
Definition alloc a (sz : Z) : option (option Z * t) := alloc_in (alloc_common sz) (fun pg => Page.alloc pg sz) a sz.

Definition aligned_common (sz alignment : Z) (pg : Page.t) : option (option Z * Page.t * Z) :=
  let align_offset := get_align_offset (Page.alloc_end_ pg) alignment in
  let adjusted_sz := sz + align_offset in
  if adjusted_sz <=? Page.remain pg then
    let '(ret, pg) := Page.alloc pg adjusted_sz in Some (Some (default 0 ret + align_offset), pg, align_offset)
  else None.
Definition alloc_aligned a (sz alignment : Z) : option (option Z * t) :=
  alloc_in (aligned_common sz alignment) (fun pg => Page.alloc pg sz) a sz.

Definition down_common (sz : Z) (pg : Page.t) : option (option Z * Page.t * Z) :=
  if sz <=? Page.remain pg then let '(ret, pg) := Page.alloc_down pg sz in Some (ret, pg, 0) else None.
Definition alloc_down a (sz : Z) : option (option Z * t) :=
  alloc_in (down_common sz) (fun pg => Page.alloc_down pg sz) a sz.

Definition realloc a (p oldsz newsz : Z) : option (option Z * t) :=
  match cur_page_ a with
  | None => Some (None, a)
  | Some c =>
      pg ← mem_ a !! c;
      if (p + oldsz =? Page.alloc_end_ pg) && (p + newsz <? Page.page_end_ pg)
      then Some (Some p, put a c (Page.set_end pg (p + newsz)))
      else alloc a newsz
  end.

(** The search of [alloc_aligned_bf]: the offset and size for the last page, and
    the best page with what it has left. *)
Fixpoint best_fit (n : nat) (m : gmap Z Page.t) (sz alignment : Z) (page : option Z)
    (align_offset adjusted_sz : Z) (best : option (Z * Z)) : option (Z * Z * option (Z * Z)) :=
  match n with
  | O => None
  | S n' =>
      match page with
      | None => Some (align_offset, adjusted_sz, best)
      | Some p =>
          pg ← m !! p;
          let align_offset := get_align_offset (Page.alloc_end_ pg) alignment in
          let adjusted_sz := sz + align_offset in
          let best :=
            if adjusted_sz <=? Page.remain pg then
              match best with
              | Some (_, best_remain) =>
                  if Page.remain pg - adjusted_sz <? best_remain then Some (p, Page.remain pg - adjusted_sz) else best
              | None => Some (p, Page.remain pg - adjusted_sz)
              end
            else best in
          best_fit n' m sz alignment (Page.next_page_ pg) align_offset adjusted_sz best
      end
  end.
Definition alloc_aligned_bf a (sz alignment : Z) : option (option Z * t) :=
  a ← ensure_cur_page a;
  '(align_offset, adjusted_sz, best) ← best_fit (fuel a) (mem_ a) sz alignment (header_ a) 0 0 None;
  match best with
  | Some _ =>
      c ← cur_page_ a;
      '(ret, a) ← on_page a c (fun pg => Page.alloc pg adjusted_sz);
      Some (match ret with Some r => (Some (r + align_offset), add_used a adjusted_sz) | None => (None, a) end)
  | None =>
      let adjusted_sz := sz + alignment in
      '(ret, a) ←
        (if is_normal_overflow a adjusted_sz then
           extend_and a (fun pg => Page.alloc pg adjusted_sz)
         else alloc_big a adjusted_sz);
      Some (match ret with Some r => (Some (ob_aligned_to2 r alignment), add_used a adjusted_sz) | None => (None, a) end)
  end.

(** ** Giving back *)
Fixpoint free_large_loop (n : nat) a (link entry : option Z) : option t :=
  match n with
  | O => None
  | S n' =>
      match entry with
      | None => Some a
      | Some e =>
          pg ← mem_ a !! e;
          if is_large_page a e pg then
            a ← write_link a link (Page.next_page_ pg);
            let a := set_stats a (pages_ a - 1) (used_ a) (total_ a - Page.raw_size e pg) in
            free_large_loop n' (free_page a e) link (Page.next_page_ pg)
          else free_large_loop n' (set_tailer a (Some e)) (Some e) (Page.next_page_ pg)
      end
  end.
Definition free_large_pages a : option t :=
  a ← free_large_loop (fuel a) a None (header_ a);
  Some (match header_ a with None => set_tailer a None | Some _ => a end).

Fixpoint free_loop (n : nat) a : option t :=
  match n with
  | O => None
  | S n' =>
      match header_ a with
      | None => Some a
      | Some p => pg ← mem_ a !! p; free_loop n' (free_page (set_header a (Page.next_page_ pg)) p)
      end
  end.
Definition free a : option t :=
  a ← free_loop (fuel a) a;
  Some (set_tc (set_stats (set_tailer (set_cur a None) None) 0 0 0) None).

(** [free_remain_one_page]: all pages but the first that is not large. *)
Fixpoint remain_loop (n : nat) a (remain_page : option Z) : option (option Z * t) :=
  match n with
  | O => None
  | S n' =>
      match header_ a with
      | None => Some (remain_page, a)
      | Some p =>
          pg ← mem_ a !! p;
          let keep := match remain_page with None => negb (is_large_page a p pg) | Some _ => false end in
          if keep then remain_loop n' (set_header a (Page.next_page_ pg)) (Some p)
          else remain_loop n' (free_page (set_header a (Page.next_page_ pg)) p) remain_page
      end
  end.
Definition free_remain_one_page a : option t :=
  '(remain_page, a) ← remain_loop (fuel a) a None;
  let a := set_cur (set_header a remain_page) remain_page in
  a ← match remain_page with
      | None => Some (set_stats a 0 (used_ a) 0)
      | Some c =>
          pg ← mem_ a !! c;
          let pg := Page.reuse c (Page.set_next pg None) in
          Some (set_stats (put a c pg) 1 (used_ a) (Page.raw_size c pg))
      end;
  Some (set_tc (set_stats (set_tailer a (cur_page_ a)) (pages_ a) 0 (total_ a)) None).

(** [partial_slow_free] without its pauses. *)
Fixpoint slow_loop (n : nat) a (remain_size : Z) : option t :=
  match n with
  | O => None
  | S n' =>
      match header_ a with
      | None => Some a
      | Some p =>
          if (remain_size =? 0) || (remain_size <? total_ a) then
            pg ← mem_ a !! p;
            let a := set_stats (set_header a (Page.next_page_ pg)) (pages_ a - 1) (used_ a) (total_ a - Page.raw_size p pg) in
            slow_loop n' (free_page a p) remain_size
          else Some a
      end
  end.
Definition partial_slow_free a (remain_size : Z) : option t :=
  a ← slow_loop (fuel a) a remain_size;
  let a := set_cur a (header_ a) in
  let a := match header_ a with None => set_tailer a None | Some _ => a end in
  Some (set_stats a (pages_ a) 0 (total_ a)).

(** ** Tracers *)
Definition set_tracer a : option (bool * t) :=
  match header_ a with
  | None => Some (true, a)
  | Some _ =>
      '(has_tc, a) ←
        match tc_ a with
        | Some _ => Some (true, a)
        | None =>
            '(ret, a) ← alloc a sizeof_TracerContext;
            Some (match ret with Some _ => (true, a) | None => (false, a) end)
        end;
      if (has_tc : bool) then
        c ← cur_page_ a;
        pg ← mem_ a !! c;
        Some (true, set_tc a (Some (mkTc (header_ a) (Page.set_next pg (Some c)) (pages_ a) (used_ a) (total_ a))))
      else Some (false, a)
  end.

Fixpoint revert_large (n : nat) a (upto : option Z) : option t :=
  match n with
  | O => None
  | S n' =>
      if bool_decide (header_ a = upto) then Some a
      else match header_ a with
           | None => Some a
           | Some p => pg ← mem_ a !! p; revert_large n' (set_header (free_page a p) (Page.next_page_ pg)) upto
           end
  end.
(** The pages behind page [c]. *)
Fixpoint revert_normal (n : nat) a (c : Z) : option t :=
  match n with
  | O => None
  | S n' =>
      pg ← mem_ a !! c;
      match Page.next_page_ pg with
      | None => Some a
      | Some p =>
          npg ← mem_ a !! p;
          revert_normal n' (put (free_page a p) c (Page.set_next pg (Page.next_page_ npg))) c
      end
  end.
Definition revert_tracer a : option (bool * t) :=
  match tc_ a with
  | Some tc =>
      a ← revert_large (fuel a) a (tc_header_ tc);
      let c := Page.next_page_ (tc_cur_page_ tc) in
      let a := set_tailer (set_cur a c) c in
      c ← c;
      a ← revert_normal (fuel a) a c;
      Some (true, set_stats a (tc_pages_ tc) (tc_used_ tc) (tc_total_ tc))
  | None => a ← free a; Some (true, a)
  end.

(** ** Reuse *)
Definition fast_reuse a : option t :=
  let a := set_cur (set_stats a (pages_ a) 0 (total_ a)) (header_ a) in
  a ← match cur_page_ a with
      | Some c => pg ← mem_ a !! c; Some (put a c (Page.reuse c pg))
      | None => Some a
      end;
  Some (set_tc a None).
Definition reuse a : option t := a ← free_large_pages a; fast_reuse a.
End Ops.
End PageArena.

(** ** [ObArenaAllocator]: pages of a normal block, memory aligned to 16 bytes *)
Module ObArenaAllocator.
Definition OB_MALLOC_NORMAL_BLOCK_SIZE : Z := 2 ^ 13 - 256.
Definition t := PageArena.t.
Definition new : t := PageArena.new OB_MALLOC_NORMAL_BLOCK_SIZE.
Definition alloc `{PageAllocator} (a : t) (sz : Z) : option (option Z * t) := PageArena.alloc_aligned a sz 16.
Definition realloc `{PageAllocator} (a : t) (ptr oldsz newsz : Z) : option (option Z * t) := PageArena.realloc a ptr oldsz newsz.
Definition clear (a : t) : option t := PageArena.free a.
Definition reset (a : t) : option t := PageArena.free a.
Definition reset_remain_one_page (a : t) : option t := PageArena.free_remain_one_page a.
Definition reuse (a : t) : option t := PageArena.reuse a.
End ObArenaAllocator.
