(* ===== verification/ArenaFacts.v ===== *)
(** The invariant of [PageArena] and the operations that preserve it: the pages
    form one list from [header_], disjoint blocks of memory, and the blocks handed
    out since the last reset are disjoint parts of them. *)
From Stdlib Require Import List.
From S2P Require Import Prelude Arena.

(** What the arena relies on: a block that is given is disjoint from those in use,
    and aligned as [malloc] aligns. *)
Class PageAllocatorLaws `{PageAllocator} := {
  page_alloc_pos m sz p : page_alloc m sz = Some p -> 0 < sz -> 0 < p /\ p mod 16 = 0;
  page_alloc_fresh m sz p q pg :
    page_alloc m sz = Some p -> 0 < sz -> m !! q = Some pg -> p + sz <= q \/ q + Page.block_ pg <= p
}.

Module ArenaFacts.
Import PageArena.
Abbreviation mem := (gmap Z Page.t).

(** Members of an arena after assignments. *)
Ltac arena_simpl :=
  cbn [mem_ cur_page_ header_ tailer_ page_limit_ page_size_ pages_ used_ total_ tc_ set_cur set_header set_tailer set_limit
       set_stats set_tc set_mem put add_used free_page mbind option_bind fst snd].

(** ** Lists of pages *)
Fixpoint chain (m : mem) (p : option Z) (l : list Z) : Prop :=
  match l with
  | [] => p = None
  | q :: l' => p = Some q /\ exists pg, m !! q = Some pg /\ chain m (Page.next_page_ pg) l'
  end.

Fixpoint after (c : Z) (l : list Z) : list Z :=
  match l with
  | [] => []
  | q :: l' => if q =? c then l' else after c l'
  end.

Lemma chain_ext (m m' : mem) l : forall p,
  (forall q pg, q ∈ l -> m !! q = Some pg -> exists pg', m' !! q = Some pg' /\ Page.next_page_ pg' = Page.next_page_ pg) ->
  chain m p l -> chain m' p l.
Proof.
  induction l as [| q l IH]; intros p Hm Hc; [exact Hc |]. destruct Hc as (-> & pg & Hq & Hc). split; [reflexivity |].
  destruct (Hm q pg (list_elem_of_here _ _) Hq) as (pg' & Hq' & E). exists pg'. split; [exact Hq' |]. rewrite E.
  apply IH; [| exact Hc]. intros r pr Hr. apply Hm. now apply list_elem_of_further.
Qed.

Lemma chain_put (m : mem) q pg p l : q ∉ l -> chain m p l -> chain (<[q := pg]> m) p l.
Proof.
  intros Hq. apply chain_ext. intros r pr Hr Hp. exists pr. split; [| reflexivity].
  rewrite lookup_insert_ne; [exact Hp |]. intros ->. contradiction.
Qed.

Lemma chain_put_next (m : mem) q pg0 pg p l :
  m !! q = Some pg0 -> Page.next_page_ pg = Page.next_page_ pg0 -> chain m p l -> chain (<[q := pg]> m) p l.
Proof.
  intros Hq Hn. apply chain_ext. intros r pr Hr Hp. destruct (decide (r = q)) as [-> | Hne].
  - exists pg. rewrite lookup_insert_eq. split; congruence.
  - exists pr. now rewrite lookup_insert_ne by congruence.
Qed.

Lemma chain_delete (m : mem) q p l : q ∉ l -> chain m p l -> chain (delete q m) p l.
Proof.
  intros Hq. apply chain_ext. intros r pr Hr Hp. exists pr. split; [| reflexivity].
  rewrite lookup_delete_ne; [exact Hp |]. intros ->. contradiction.
Qed.

Lemma chain_lookup (m : mem) p l q : chain m p l -> q ∈ l -> is_Some (m !! q).
Proof.
  revert p. induction l as [| r l IH]; intros p Hc Hq; [now apply elem_of_nil in Hq |].
  destruct Hc as (_ & pg & Hr & Hc). apply elem_of_cons in Hq as [-> | Hq]; eauto.
Qed.

Lemma chain_head (m : mem) p l : chain m p l -> p = head l.
Proof. destruct l; simpl; [auto | intros [-> _]; reflexivity]. Qed.

(** The list from a page of the list is what comes after it. *)
Lemma chain_after (m : mem) p l c pg : chain m p l -> m !! c = Some pg -> c ∈ l -> chain m (Page.next_page_ pg) (after c l).
Proof.
  revert p. induction l as [| r l IH]; intros p Hc Hm Hin; [now apply elem_of_nil in Hin |].
  destruct Hc as (_ & pr & Hr & Hc). simpl. destruct (Z.eqb_spec r c) as [-> | Hne].
  - rewrite Hm in Hr. now injection Hr as <-.
  - apply elem_of_cons in Hin as [-> | Hin]; [contradiction | eauto].
Qed.

Lemma after_in c l q : q ∈ after c l -> q ∈ l.
Proof.
  induction l as [| r l IH]; simpl; [auto |]. destruct (r =? c); intros Hq; apply list_elem_of_further; auto.
Qed.

Lemma after_self c l : NoDup l -> c ∉ after c l.
Proof.
  induction 1 as [| r l Hr Hn IH]; simpl; [apply not_elem_of_nil |].
  destruct (Z.eqb_spec r c) as [-> |]; assumption.
Qed.

Lemma after_nil c l : c ∈ l -> after c l = [] -> last l = Some c.
Proof.
  induction l as [| r l IH]; intros Hc Ha; [now apply elem_of_nil in Hc |]. simpl in Ha.
  destruct (Z.eqb_spec r c) as [-> | Hne]; [now subst |].
  apply elem_of_cons in Hc as [-> | Hc]; [contradiction |]. rewrite last_cons, (IH Hc Ha). reflexivity.
Qed.

Lemma after_app c l p : c ∈ l -> after c (l ++ [p]) = after c l ++ [p].
Proof.
  induction l as [| r l IH]; intros Hc; [now apply elem_of_nil in Hc |]. simpl.
  destruct (Z.eqb_spec r c) as [-> | Hne]; [reflexivity |].
  apply elem_of_cons in Hc as [-> | Hc]; [contradiction | auto].
Qed.

Lemma after_last l p : p ∉ l -> after p (l ++ [p]) = [].
Proof.
  induction l as [| r l IH]; intros Hp; simpl; [now rewrite Z.eqb_refl |].
  apply not_elem_of_cons in Hp as [Hne Hp]. destruct (Z.eqb_spec r p); [congruence | auto].
Qed.

Lemma after_mid c l1 l2 : c ∉ l1 -> after c (l1 ++ c :: l2) = l2.
Proof.
  induction l1 as [| r l1 IH]; intros Hc; simpl; [now rewrite Z.eqb_refl |].
  apply not_elem_of_cons in Hc as [Hne Hc]. destruct (Z.eqb_spec r c); [congruence | auto].
Qed.

(** What comes after the page that follows [c] comes after [c]. *)
Lemma after_next c n l l' : NoDup l -> after c l = n :: l' -> after n l = l'.
Proof.
  induction 1 as [| r l Hr Hn IH]; simpl; [discriminate |]. intros E.
  destruct (Z.eqb_spec r c) as [-> | Hne].
  - subst l. destruct (Z.eqb_spec c n) as [-> |]; [exfalso; apply Hr; apply list_elem_of_here |].
    simpl. now rewrite Z.eqb_refl.
  - destruct (Z.eqb_spec r n) as [-> |]; [| auto]. exfalso. apply Hr, (after_in c). rewrite E. apply list_elem_of_here.
Qed.

Lemma chain_snoc (m : mem) p pg l : forall h, chain m h l -> NoDup l -> p ∉ l -> m !! p = Some pg -> Page.next_page_ pg = None ->
  match last l with
  | None => chain m (Some p) (l ++ [p])
  | Some t => exists pt, m !! t = Some pt /\ chain (<[t := Page.set_next pt (Some p)]> m) h (l ++ [p])
  end.
Proof.
  induction l as [| r l IH]; intros h Hc Hn Hp Hm Hnext.
  - simpl. eauto.
  - destruct Hc as (-> & pr & Hr & Hc). apply NoDup_cons in Hn as [Hrl Hn]. apply not_elem_of_cons in Hp as [Hne Hp].
    specialize (IH _ Hc Hn Hp Hm Hnext). rewrite last_cons. destruct (last l) as [t |] eqn:El.
    + destruct IH as (pt & Ht & IH). exists pt. split; [exact Ht |]. simpl. split; [reflexivity |].
      assert (t <> r) as Htr. { intros ->. apply Hrl. apply last_Some in El as [l0 ->]. set_solver. }
      exists pr. rewrite lookup_insert_ne by auto. auto.
    + apply last_None in El as ->. exists pr. split; [exact Hr |]. simpl. split; [reflexivity |].
      eexists. rewrite lookup_insert_eq. split; [reflexivity |]. simpl. split; [reflexivity |]. exists pg.
      rewrite lookup_insert_ne by congruence. auto.
Qed.

(** ** The invariant *)
Record wf (a : t) (l : list Z) : Prop := mkWf
  { w_chain : chain (mem_ a) (header_ a) l;
    w_nodup : NoDup l;
    w_dom : forall q, is_Some (mem_ a !! q) -> q ∈ l;
    w_count : pages_ a = Z.of_nat (length l);
    w_size : Page.sizeof <= page_size_ a < 2 ^ 62;
    w_page : forall q pg, mem_ a !! q = Some pg ->
      0 < q /\ q mod 16 = 0 /\ Page.buf_ q <= Page.alloc_end_ pg <= Page.page_end_ pg
      /\ Page.page_end_ pg = q + Page.block_ pg /\ page_size_ a <= Page.block_ pg;
    w_block : forall q r pg pr, q <> r -> mem_ a !! q = Some pg -> mem_ a !! r = Some pr ->
      q + Page.block_ pg <= r \/ r + Page.block_ pr <= q;
    w_limit : forall q pg, mem_ a !! q = Some pg -> Page.block_ pg = page_size_ a -> page_limit_ a = page_size_ a - Page.sizeof }.

(** Both pointers to pages, or neither; without a current page all pages are full. *)
Definition cursor (a : t) (l : list Z) : Prop :=
  match cur_page_ a with
  | None => tailer_ a = None /\ forall q pg, mem_ a !! q = Some pg -> Page.remain pg = 0
  | Some c => c ∈ l /\ tailer_ a = last l /\ page_limit_ a = page_size_ a - Page.sizeof
  end.
(** The pages behind the current one hold nothing. *)
Definition idle (a : t) (l : list Z) (q : Z) : Prop :=
  match cur_page_ a with None => False | Some c => q ∈ after c l end.

(** A block is an address and a size. *)
Abbreviation block := (Z * Z)%type.
Definition disjoint (x y : block) : Prop := x.1 + x.2 <= y.1 \/ y.1 + y.2 <= x.1.
(** The block is in the part of the page that was handed out. *)
Definition within (q : Z) (pg : Page.t) (x : block) : Prop := Page.buf_ q <= x.1 /\ x.1 + x.2 <= Page.alloc_end_ pg.
Record owns (a : t) (l : list Z) (live : list block) : Prop := mkOwns
  { o_in : forall x, x ∈ live -> 0 < x.2 /\ exists q pg, mem_ a !! q = Some pg /\ ~ idle a l q /\ within q pg x;
    o_disj : ForallOrdPairs disjoint live }.

Definition inv (a : t) (live : list block) : Prop := exists l, wf a l /\ cursor a l /\ owns a l live.

(** An arena without pages. *)
Lemma inv_empty a : mem_ a = ∅ -> header_ a = None -> cur_page_ a = None -> tailer_ a = None -> pages_ a = 0 ->
  Page.sizeof <= page_size_ a < 2 ^ 62 -> inv a [].
Proof.
  intros Hm Hh Hc Ht Hp Hs. exists []. split; [split; rewrite ?Hm, ?Hh, ?Hp |].
  - reflexivity.
  - apply NoDup_nil_2.
  - intros q [? Hq]. now rewrite lookup_empty in Hq.
  - reflexivity.
  - exact Hs.
  - intros q pg Hq. now rewrite lookup_empty in Hq.
  - intros q r pg pr _ Hq. now rewrite lookup_empty in Hq.
  - intros q pg Hq. now rewrite lookup_empty in Hq.
  - split; [| split; [intros x Hx; now apply elem_of_nil in Hx | constructor]].
    unfold cursor. rewrite Hc, Hm. split; [exact Ht |]. intros q pg Hq. now rewrite lookup_empty in Hq.
Qed.

Lemma new_inv page_size : Page.sizeof <= page_size < 2 ^ 62 -> inv (new page_size) [].
Proof. intros Hs. now apply inv_empty. Qed.

(** Members the invariant does not mention. *)
Lemma wf_ext a a' l : wf a l -> mem_ a' = mem_ a -> header_ a' = header_ a -> pages_ a' = pages_ a ->
  page_size_ a' = page_size_ a -> page_limit_ a' = page_limit_ a -> wf a' l.
Proof. intros [] E1 E2 E3 E4 E5. split; rewrite ?E1, ?E2, ?E3, ?E4, ?E5; auto. Qed.

Lemma owns_ext a a' l live : owns a l live -> mem_ a' = mem_ a -> cur_page_ a' = cur_page_ a -> owns a' l live.
Proof.
  intros [Hin Hd] E1 E2. split; [| exact Hd]. intros x Hx. destruct (Hin x Hx) as (Hp & q & pg & Hq & Hi & Hw).
  split; [exact Hp |]. exists q, pg. unfold idle in *. now rewrite E1, E2.
Qed.

Lemma inv_add_used a live n : inv a live -> inv (add_used a n) live.
Proof.
  intros (l & Hw & Hc & Ho). exists l. split; [now apply (wf_ext a) |]. split; [exact Hc | now apply (owns_ext a)].
Qed.

Lemma pairs_sublist {A} (R : A -> A -> Prop) l1 l2 : l1 `sublist_of` l2 -> ForallOrdPairs R l2 -> ForallOrdPairs R l1.
Proof.
  induction 1 as [| x l1 l2 Hs IH | x l1 l2 Hs IH]; intros Hf; [constructor | |]; inversion Hf as [| ? ? Hx Hl]; subst; auto.
  constructor; auto. rewrite List.Forall_forall in *. intros y Hy. apply Hx. apply list_elem_of_In. apply list_elem_of_In in Hy.
  eapply elem_of_submseteq; [exact Hy | now apply sublist_submseteq].
Qed.

Lemma pairs_perm {A} (R : A -> A -> Prop) l1 l2 : (forall x y, R x y -> R y x) -> l1 ≡ₚ l2 -> ForallOrdPairs R l1 -> ForallOrdPairs R l2.
Proof.
  intros Hsym. induction 1 as [| x l1 l2 Hp IH | x y l | l1 l2 l3 H1 IH1 H2 IH2]; intros Hf; auto.
  - inversion Hf as [| ? ? Hx Hl]; subst. constructor; [now rewrite <- Hp | auto].
  - inversion Hf as [| ? ? Hx Hl]; subst. inversion Hl as [| ? ? Hy Hl']; subst. inversion Hx as [| ? ? Hxy Hx']; subst.
    repeat constructor; auto.
Qed.

(** A client may forget blocks. *)
Lemma inv_sublist a live live' : inv a live -> live' `sublist_of` live -> inv a live'.
Proof.
  intros (l & Hw & Hc & [Hin Hd]) Hs. exists l. split; [exact Hw |]. split; [exact Hc |].
  split; [| now apply (pairs_sublist _ _ live)]. intros x Hx. apply Hin.
  eapply elem_of_submseteq; [exact Hx | now apply sublist_submseteq].
Qed.

Lemma inv_perm a live live' : inv a live -> live ≡ₚ live' -> inv a live'.
Proof.
  intros (l & Hw & Hc & [Hin Hd]) Hp. exists l. split; [exact Hw |]. split; [exact Hc |]. split.
  - intros x Hx. apply Hin. now rewrite Hp.
  - apply (pairs_perm _ live); auto. unfold disjoint. tauto.
Qed.

(** The list without the first [x]. *)
Fixpoint remove_one {A} `{EqDecision A} (x : A) (l : list A) : list A :=
  match l with
  | [] => []
  | y :: l' => if decide (x = y) then l' else y :: remove_one x l'
  end.
Lemma remove_one_perm {A} `{EqDecision A} (x : A) l : x ∈ l -> x :: remove_one x l ≡ₚ l.
Proof.
  induction l as [| y l IH]; intros Hx; [now apply elem_of_nil in Hx |]. simpl. destruct (decide (x = y)) as [-> | Hne]; [reflexivity |].
  apply elem_of_cons in Hx as [-> | Hx]; [contradiction |]. rewrite <- (IH Hx) at 2. apply Permutation_swap.
Qed.

(** ** Taking memory from a page *)

(** [pg'] is [pg] with the block of [n] bytes at [s] taken from its free part. *)
Definition carves (pg pg' : Page.t) (s n : Z) : Prop :=
  Page.next_page_ pg' = Page.next_page_ pg /\ Page.block_ pg' = Page.block_ pg /\ Page.page_end_ pg' = Page.page_end_ pg
  /\ Page.alloc_end_ pg <= s /\ s + n <= Page.alloc_end_ pg' <= Page.page_end_ pg.

Lemma wf_put a l q pg pg' : wf a l -> mem_ a !! q = Some pg ->
  Page.next_page_ pg' = Page.next_page_ pg -> Page.block_ pg' = Page.block_ pg -> Page.page_end_ pg' = Page.page_end_ pg ->
  Page.buf_ q <= Page.alloc_end_ pg' <= Page.page_end_ pg -> wf (put a q pg') l.
Proof.
  intros Hw Hq Hn Hb He Ha. destruct Hw as [Hc Hnd Hd Hct Hs Hp Hbl Hl]. split; simpl; auto.
  - now apply (chain_put_next _ _ pg).
  - intros r [pr Hr]. destruct (decide (r = q)) as [-> | Hne]; [eauto |]. rewrite lookup_insert_ne in Hr by congruence. eauto.
  - intros r pr Hr. destruct (decide (r = q)) as [-> | Hne].
    + rewrite lookup_insert_eq in Hr. injection Hr as <-. destruct (Hp q pg Hq) as (? & ? & ? & ? & ?). rewrite Hb, He. auto.
    + rewrite lookup_insert_ne in Hr by congruence. eauto.
  - assert (forall r pr, <[q := pg']> (mem_ a) !! r = Some pr ->
        exists pr', mem_ a !! r = Some pr' /\ Page.block_ pr' = Page.block_ pr) as Hold.
    { intros r pr Hr. destruct (decide (r = q)) as [-> | Hne].
      - rewrite lookup_insert_eq in Hr. injection Hr as <-. eauto.
      - rewrite lookup_insert_ne in Hr by congruence. eauto. }
    intros r r' pr pr' Hne Hr Hr'. destruct (Hold r pr Hr) as (? & Hx & <-), (Hold r' pr' Hr') as (? & Hy & <-). eauto.
  - intros r pr Hr. destruct (decide (r = q)) as [-> | Hne].
    + rewrite lookup_insert_eq in Hr. injection Hr as <-. rewrite Hb. eauto.
    + rewrite lookup_insert_ne in Hr by congruence. eauto.
Qed.

(** The free part of a page meets no block in use. *)
Lemma free_part a l live c pg x s n : wf a l -> owns a l live -> mem_ a !! c = Some pg -> x ∈ live ->
  Page.alloc_end_ pg <= s -> s + n <= Page.page_end_ pg -> 0 < n -> disjoint (s, n) x.
Proof.
  intros Hw Ho Hc Hx Hs Hn Hpos. destruct (o_in a l live Ho x Hx) as (Hx0 & q & pq & Hq & _ & Hin).
  unfold disjoint, within in *. simpl. destruct (w_page a l Hw c pg Hc) as (_ & _ & Hc1 & Hc2 & _).
  destruct (w_page a l Hw q pq Hq) as (_ & _ & Hq1 & Hq2 & _). unfold Page.buf_, Page.sizeof in *.
  destruct (decide (q = c)) as [-> | Hne].
  - rewrite Hc in Hq. injection Hq as <-. lia.
  - destruct (w_block a l Hw q c pq pg Hne Hq Hc); lia.
Qed.

Lemma owns_put a l live c pg pg' s n : wf a l -> owns a l live -> mem_ a !! c = Some pg -> ~ idle a l c -> 0 < n ->
  carves pg pg' s n -> owns (put a c pg') l ((s, n) :: live).
Proof.
  intros Hw Ho Hc Hi Hpos (_ & _ & He & Hs & Hs'). destruct (w_page a l Hw c pg Hc) as (_ & _ & Hb & _ & _). split.
  - intros x Hx. apply elem_of_cons in Hx as [-> | Hx].
    + split; [exact Hpos |]. exists c, pg'. simpl. rewrite lookup_insert_eq. split; [reflexivity |]. split; [exact Hi |].
      unfold within. simpl. lia.
    + destruct (o_in a l live Ho x Hx) as (Hx0 & q & pq & Hq & Hqi & Hin). split; [exact Hx0 |].
      destruct (decide (q = c)) as [-> | Hne].
      * exists c, pg'. simpl. rewrite lookup_insert_eq. split; [reflexivity |]. split; [exact Hi |].
        rewrite Hc in Hq. injection Hq as <-. unfold within in *. lia.
      * exists q, pq. simpl. rewrite lookup_insert_ne by congruence. auto.
  - constructor; [| exact (o_disj a l live Ho)]. rewrite List.Forall_forall. intros x Hx. apply list_elem_of_In in Hx.
    apply (free_part a l live c pg); auto; lia.
Qed.

(** ** What a request answers *)

(** Null, or a block of the size asked for; [Q] is what is promised of its address. *)
Definition answers (live : list block) (sz : Z) (Q : Z -> Prop) (r : option Z) (a : t) : Prop :=
  match r with None => inv a live | Some s => inv a ((s, sz) :: live) /\ Q s end.

Lemma take_current a l live c pg pg' s n (Q : Z -> Prop) : wf a l -> cursor a l -> owns a l live -> cur_page_ a = Some c ->
  mem_ a !! c = Some pg -> 0 < n -> carves pg pg' s n -> Q s -> answers live n Q (Some s) (put a c pg').
Proof.
  intros Hw Hcu Ho Hc Hm Hpos Hcv HQ. split; [| exact HQ]. exists l. pose proof Hcv as (Hn & Hb & He & Hs & Hs').
  destruct (w_page a l Hw c pg Hm) as (_ & _ & Hbuf & _ & _).
  split; [apply (wf_put a l c pg); auto; lia |].
  split; [unfold cursor in *; cbn [cur_page_ put set_mem]; rewrite Hc in *; exact Hcu |]. apply (owns_put a l live c pg); auto.
  unfold idle. rewrite Hc. apply after_self, Hw.
Qed.

Lemma page_alloc_carves pg n : 0 < n -> n <= Page.remain pg ->
  Page.alloc pg n = (Some (Page.alloc_end_ pg), Page.set_end pg (Page.alloc_end_ pg + n))
  /\ carves pg (Page.set_end pg (Page.alloc_end_ pg + n)) (Page.alloc_end_ pg) n.
Proof.
  intros Hp Hr. unfold Page.alloc, Page.remain in *. destruct (Z.leb_spec n 0); [lia |].
  rewrite (proj2 (Z.leb_le _ _)) by lia. split; [reflexivity |]. unfold carves. simpl. repeat split; lia.
Qed.

(** The block that ends where the free part of a page begins is in that page, and
    every other block of it comes before. *)
Lemma last_block a l live c pg p n : wf a l -> owns a l ((p, n) :: live) -> mem_ a !! c = Some pg ->
  p + n = Page.alloc_end_ pg ->
  Page.buf_ c <= p /\ forall x, x ∈ live -> within c pg x -> x.1 + x.2 <= p.
Proof.
  intros Hw [Hin Hd] Hc He. destruct (Hin (p, n) (list_elem_of_here _ _)) as (Hp & q & pq & Hq & _ & Hqw).
  unfold within in Hqw. simpl in *. destruct (w_page a l Hw c pg Hc) as (_ & _ & Hb & Hbe & _), (w_page a l Hw q pq Hq) as (_ & _ & Hqb & Hqe & _).
  assert (q = c) as ->.
  { destruct (decide (q = c)) as [| Hne]; [assumption | exfalso]. unfold Page.buf_, Page.sizeof in *.
    destruct (w_block a l Hw q c pq pg Hne Hq Hc); lia. }
  split; [lia |]. intros x Hx [Hx1 Hx2]. inversion Hd as [| ? ? Hall _]; subst. rewrite List.Forall_forall in Hall.
  destruct (Hin x (list_elem_of_further _ _ _ Hx)) as [Hxp _]. apply list_elem_of_In in Hx. specialize (Hall x Hx).
  unfold disjoint in Hall. simpl in Hall. lia.
Qed.

Lemma resize_last a l live c pg p n n' : wf a l -> cursor a l -> owns a l ((p, n) :: live) -> cur_page_ a = Some c ->
  mem_ a !! c = Some pg -> p + n = Page.alloc_end_ pg -> 0 < n' -> p + n' <= Page.page_end_ pg ->
  inv (put a c (Page.set_end pg (p + n'))) ((p, n') :: live).
Proof.
  intros Hw Hcu Ho Hc Hm He Hn' Hfit. destruct (last_block a l live c pg p n Hw Ho Hm He) as [Hp Hbefore].
  exists l. split; [apply (wf_put a l c pg); auto; simpl; lia |].
  split; [unfold cursor in *; arena_simpl; rewrite Hc in *; exact Hcu |].
  assert (~ idle a l c) as Hi by (unfold idle; rewrite Hc; apply after_self, Hw). destruct Ho as [Hin Hd]. split.
  - intros x Hx. apply elem_of_cons in Hx as [-> | Hx].
    + split; [exact Hn' |]. exists c, (Page.set_end pg (p + n')). arena_simpl. rewrite lookup_insert_eq. split; [reflexivity |].
      split; [exact Hi |]. unfold within. simpl. lia.
    + destruct (Hin x (list_elem_of_further _ _ _ Hx)) as (Hx0 & q & pq & Hq & Hqi & Hqw). split; [exact Hx0 |].
      destruct (decide (q = c)) as [-> | Hne].
      * exists c, (Page.set_end pg (p + n')). arena_simpl. rewrite lookup_insert_eq. split; [reflexivity |]. split; [exact Hi |].
        rewrite Hm in Hq. injection Hq as <-. specialize (Hbefore x Hx Hqw). unfold within in *. simpl. lia.
      * exists q, pq. arena_simpl. rewrite lookup_insert_ne by auto. auto.
  - inversion Hd as [| ? ? _ Hl]; subst. constructor; [| exact Hl]. rewrite List.Forall_forall. intros x Hx. apply list_elem_of_In in Hx.
    destruct (Hin x (list_elem_of_further _ _ _ Hx)) as (Hx0 & q & pq & Hq & _ & Hqw). unfold disjoint. simpl.
    destruct (decide (q = c)) as [-> | Hne].
    + rewrite Hm in Hq. injection Hq as <-. specialize (Hbefore x Hx Hqw). lia.
    + destruct (w_page a l Hw c pg Hm) as (_ & _ & Hb & Hbe & _), (w_page a l Hw q pq Hq) as (_ & _ & Hqb & Hqe & _).
      unfold within, Page.buf_, Page.sizeof in *. destruct (w_block a l Hw q c pq pg Hne Hq Hm); lia.
Qed.

(** ** A new page *)
Definition same_bounds (x y : Page.t) : Prop :=
  Page.alloc_end_ x = Page.alloc_end_ y /\ Page.page_end_ x = Page.page_end_ y /\ Page.block_ x = Page.block_ y.

(** [a'] is [a] with a new page of [sz] bytes at [p]; links may have changed. *)
Record grows `{PageAllocator} (a a' : t) (p sz : Z) : Prop := mkGrows
  { g_alloc : page_alloc (mem_ a) sz = Some p;
    g_size : page_size_ a <= sz;
    g_new : exists pg, mem_ a' !! p = Some pg /\ same_bounds (Page.new p sz) pg;
    g_old : forall q, q <> p ->
      match mem_ a !! q, mem_ a' !! q with
      | Some x, Some y => same_bounds x y
      | None, None => True
      | _, _ => False
      end;
    g_pages : pages_ a' = pages_ a + 1;
    g_page_size : page_size_ a' = page_size_ a;
    g_limit : page_limit_ a' = page_size_ a - Page.sizeof \/ page_limit_ a' = page_limit_ a /\ page_size_ a < sz }.

Section Grow.
Context `{PageAllocatorLaws}.

Lemma fresh_page a l sz p : wf a l -> page_alloc (mem_ a) sz = Some p -> page_size_ a <= sz ->
  0 < p /\ p mod 16 = 0 /\ mem_ a !! p = None /\ p ∉ l.
Proof.
  intros Hw Hp Hs. pose proof (w_size a l Hw) as Hsz. unfold Page.sizeof in Hsz.
  destruct (page_alloc_pos _ _ _ Hp ltac:(lia)) as [Hpos H16]. split; [exact Hpos |]. split; [exact H16 |].
  assert (mem_ a !! p = None) as Hn.
  { destruct (mem_ a !! p) as [pg |] eqn:E; [exfalso | reflexivity].
    destruct (page_alloc_fresh _ _ _ _ _ Hp ltac:(lia) E); [lia |]. destruct (w_page a l Hw p pg E) as (_ & _ & _ & _ & Hb). lia. }
  split; [exact Hn |]. intros Hin. destruct (chain_lookup _ _ _ _ (w_chain a l Hw) Hin) as [? E]. congruence.
Qed.

Lemma grow_old a a' p sz q pq : grows a a' p sz -> q <> p -> mem_ a' !! q = Some pq ->
  exists pg, mem_ a !! q = Some pg /\ same_bounds pg pq.
Proof. intros Hg Hne Hq. pose proof (g_old _ _ _ _ Hg q Hne) as Ho. rewrite Hq in Ho. destruct (mem_ a !! q); [eauto | contradiction]. Qed.

Lemma wf_grow a a' l l' p sz : wf a l -> grows a a' p sz -> chain (mem_ a') (header_ a') l' -> l' ≡ₚ p :: l -> wf a' l'.
Proof.
  intros Hw Hg Hc Hl. destruct (fresh_page a l sz p Hw (g_alloc _ _ _ _ Hg) (g_size _ _ _ _ Hg)) as (Hp0 & Hp16 & Hpn & Hpl).
  pose proof (g_new _ _ _ _ Hg) as (pg & Hnew & Hb1 & Hb2 & Hb3). pose proof (g_size _ _ _ _ Hg) as Hsz.
  pose proof (w_size a l Hw) as Hps. unfold Page.sizeof in Hps. cbn [Page.new Page.alloc_end_ Page.page_end_ Page.block_] in Hb1, Hb2, Hb3.
  split; auto.
  - rewrite Hl. constructor; [exact Hpl | apply Hw].
  - intros q [pq Hq]. rewrite Hl. destruct (decide (q = p)) as [-> | Hne]; [apply list_elem_of_here |].
    destruct (grow_old _ _ _ _ _ _ Hg Hne Hq) as (x & Hx & _). apply list_elem_of_further, (w_dom a l Hw). eauto.
  - rewrite (g_pages _ _ _ _ Hg), (w_count a l Hw), Hl. simpl. lia.
  - rewrite (g_page_size _ _ _ _ Hg). apply Hw.
  - intros q pq Hq. rewrite (g_page_size _ _ _ _ Hg). destruct (decide (q = p)) as [-> | Hne].
    + rewrite Hnew in Hq. injection Hq as <-. unfold Page.buf_, Page.sizeof in *. repeat split; lia.
    + destruct (grow_old _ _ _ _ _ _ Hg Hne Hq) as (x & Hx & E1 & E2 & E3). rewrite <- E1, <- E2, <- E3. exact (w_page a l Hw q x Hx).
  - assert (forall q pq, q <> p -> mem_ a' !! q = Some pq -> p + sz <= q \/ q + Page.block_ pq <= p) as Hfr.
    { intros q pq Hne Hq. destruct (grow_old _ _ _ _ _ _ Hg Hne Hq) as (x & Hx & _ & _ & <-).
      apply (page_alloc_fresh _ _ _ _ _ (g_alloc _ _ _ _ Hg)); [lia | exact Hx]. }
    intros q r pq pr Hne Hq Hr. destruct (decide (q = p)) as [-> | Hqp]; [| destruct (decide (r = p)) as [-> | Hrp]].
    + rewrite Hnew in Hq. injection Hq as <-. rewrite <- Hb3. apply (Hfr r pr); auto.
    + rewrite Hnew in Hr. injection Hr as <-. rewrite <- Hb3. destruct (Hfr q pq Hqp Hq); auto.
    + destruct (grow_old _ _ _ _ _ _ Hg Hqp Hq) as (x & Hx & _ & _ & <-), (grow_old _ _ _ _ _ _ Hg Hrp Hr) as (y & Hy & _ & _ & <-).
      exact (w_block a l Hw q r x y Hne Hx Hy).
  - intros q pq Hq Hbq. rewrite (g_page_size _ _ _ _ Hg) in *. destruct (g_limit _ _ _ _ Hg) as [E | [E Hlt]]; [exact E |]. rewrite E.
    destruct (decide (q = p)) as [-> | Hne]; [rewrite Hnew in Hq; injection Hq as <-; lia |].
    destruct (grow_old _ _ _ _ _ _ Hg Hne Hq) as (x & Hx & _ & _ & Eb). apply (w_limit a l Hw q x Hx). congruence.
Qed.

Lemma owns_grow a a' l l' live p sz : wf a l -> owns a l live -> grows a a' p sz ->
  (forall q, q <> p -> idle a' l' q -> idle a l q) -> owns a' l' live.
Proof.
  intros Hw [Hin Hd] Hg Hi. split; [| exact Hd]. intros x Hx. destruct (Hin x Hx) as (Hp & q & pg & Hq & Hqi & Hxw).
  split; [exact Hp |]. destruct (fresh_page a l sz p Hw (g_alloc _ _ _ _ Hg) (g_size _ _ _ _ Hg)) as (_ & _ & Hpn & _).
  assert (q <> p) as Hne by congruence. pose proof (g_old _ _ _ _ Hg q Hne) as Ho. rewrite Hq in Ho.
  destruct (mem_ a' !! q) as [pq |] eqn:E; [| contradiction]. destruct Ho as (E1 & _ & _).
  exists q, pq. split; [exact E |]. split; [auto |]. unfold within in *. now rewrite <- E1.
Qed.
End Grow.
End ArenaFacts.
