(* ===== verification/ArenaSteps.v ===== *)
(** Each operation of [PageArena] against its invariant: requests answer with null
    or with a block of their own, and the operations that give back end with an
    arena that holds nothing. *)
From S2P Require Import Prelude Arena ArenaFacts.

Module ArenaSteps.
Import PageArena ArenaFacts.

(** The allocator of the pages had no memory. *)
Definition refused `{PageAllocator} : Prop := exists m n, 0 < n /\ page_alloc m n = None.

Lemma chain_last (m : mem) l : forall n link v, chain m v l -> (length l < n)%nat ->
  last_link n m link v = Some (match last l with Some q => Some q | None => link end).
Proof.
  induction l as [| q l IH]; intros n link v Hc Hn; (destruct n; [simpl in Hn; lia |]); simpl.
  - now rewrite Hc.
  - destruct Hc as (-> & pg & Hq & Hc). rewrite Hq. cbn [mbind option_bind].
    rewrite (IH n (Some q) _ Hc) by (simpl in Hn; lia). rewrite last_cons. now destruct (last l).
Qed.

(** The pages of the list are the pages there are. *)
Lemma length_pages a l : wf a l -> size (mem_ a) = length l.
Proof.
  intros Hw. rewrite <- size_dom, <- (size_list_to_set (C := gset Z) l) by apply Hw. f_equal. apply set_eq. intros q.
  rewrite elem_of_dom, elem_of_list_to_set. split; [apply Hw |]. apply (chain_lookup _ _ _ _ (w_chain a l Hw)).
Qed.

Section Steps.
Context `{PageAllocatorLaws}.

(** ** Large blocks *)
Lemma big_grows a l live p sz : wf a l -> cursor a l -> owns a l live -> page_alloc (mem_ a) (sz + Page.sizeof) = Some p ->
  page_size_ a < sz + Page.sizeof ->
  let a1 := set_stats (put a p (Page.new p (sz + Page.sizeof))) (pages_ a + 1) (used_ a) (total_ a + (sz + Page.sizeof)) in
  exists a2 pg, insert_head a1 p = Some a2 /\ mem_ a2 !! p = Some pg /\ same_bounds (Page.new p (sz + Page.sizeof)) pg
    /\ cur_page_ a2 = cur_page_ a /\ tailer_ a2 = tailer_ a /\ page_limit_ a2 = page_limit_ a /\ page_size_ a2 = page_size_ a
    /\ (forall q, q <> p -> mem_ a2 !! q = mem_ a !! q)
    /\ wf a2 (p :: l) /\ owns a2 (p :: l) live.
Proof.
  intros Hw Hcu Ho Hp Hs a1. destruct (fresh_page a l _ p Hw Hp ltac:(lia)) as (Hp0 & Hp16 & Hpn & Hpl).
  set (pg := Page.set_next (Page.new p (sz + Page.sizeof)) (header_ a)).
  assert (exists a2, insert_head a1 p = Some a2 /\ mem_ a2 = <[p := pg]> (mem_ a) /\ header_ a2 = Some p
    /\ cur_page_ a2 = cur_page_ a /\ tailer_ a2 = tailer_ a /\ page_limit_ a2 = page_limit_ a /\ page_size_ a2 = page_size_ a
    /\ pages_ a2 = pages_ a + 1) as (a2 & Hi & Hm & Hh & Hc & Ht & Hl & Hps & Hpg).
  { unfold insert_head, a1. cbn [mem_ set_stats put set_mem header_]. rewrite lookup_insert_eq. cbn [mbind option_bind].
    eexists. split; [reflexivity |]. destruct (header_ a) as [h |] eqn:Eh; cbn [mem_ set_header put set_mem set_stats];
      rewrite ?insert_insert_eq; repeat split; auto. }
  assert (grows a a2 p (sz + Page.sizeof)) as Hg.
  { split; auto; [lia | |].
    - exists pg. rewrite Hm, lookup_insert_eq. repeat split.
    - intros q Hne. rewrite Hm, lookup_insert_ne by auto. destruct (mem_ a !! q); repeat split. }
  exists a2, pg. rewrite Hm, lookup_insert_eq. split; [exact Hi |]. do 6 (split; [try reflexivity; try repeat split; assumption |]).
  split; [intros q Hne; now rewrite lookup_insert_ne by auto |]. split.
  - apply (wf_grow a a2 l _ p (sz + Page.sizeof)); auto. rewrite Hm, Hh. split; [reflexivity |]. exists pg.
    rewrite lookup_insert_eq. split; [reflexivity |]. apply chain_put; [exact Hpl | apply Hw].
  - apply (owns_grow a a2 l _ live p (sz + Page.sizeof)); auto. intros q Hne. unfold idle, cursor in *. rewrite Hc.
    destruct (cur_page_ a) as [c |]; [| auto]. simpl. destruct (Z.eqb_spec p c) as [-> |]; [| auto].
    now destruct Hcu as [Hin _].
Qed.

(** The outcome of a request: it answers, and with null only when refused. *)
Definition served (live : list block) (sz : Z) (Q : Z -> Prop) (o : option (option Z * t)) : Prop :=
  exists r a, o = Some (r, a) /\ answers live sz Q r a /\ (r = None -> refused).

Lemma big_ok a l live sz Q : wf a l -> cursor a l -> owns a l live -> 0 < sz < 2 ^ 62 -> page_size_ a < sz + Page.sizeof ->
  (forall q, q mod 16 = 0 -> Q (Page.buf_ q)) -> served live sz Q (alloc_big a sz).
Proof.
  intros Hw Hcu Ho Hsz Hps HQ. unfold served, alloc_big, alloc_new_page, to_int64.
  rewrite swrap_small by (unfold Page.sizeof; lia). destruct (page_alloc _ _) as [p |] eqn:Hp.
  - destruct (big_grows a l live p sz Hw Hcu Ho Hp Hps) as (a2 & pg & -> & Hm & (E1 & E2 & E3) & Hc & Ht & Hl & Hs & Hq & Hw2 & Ho2).
    cbn [Page.new Page.alloc_end_ Page.page_end_ Page.block_] in E1, E2, E3. cbn [mbind option_bind]. unfold on_page. rewrite Hm.
    cbn [mbind option_bind]. destruct (page_alloc_carves pg sz) as [-> Hcv]; [lia | unfold Page.remain; rewrite <- E1, <- E2; unfold Page.buf_; lia |].
    destruct (w_page a2 _ Hw2 p pg Hm) as (_ & H16 & _ & _ & _). assert (~ idle a2 (p :: l) p) as Hid.
    { destruct (fresh_page a l _ p Hw Hp ltac:(lia)) as (_ & _ & _ & Hpl). unfold idle, cursor in *. rewrite Hc.
      destruct (cur_page_ a) as [c |]; [| tauto]. simpl. destruct (Z.eqb_spec p c) as [-> |]; [auto |].
      intros Hin. apply Hpl, (after_in c), Hin. }
    eexists _, _. split; [reflexivity |]. split; [| discriminate]. split; [| rewrite <- E1; auto].
    exists (p :: l). split; [apply (wf_put a2 _ p pg); auto; destruct Hcv as (_ & _ & _ & _ & Hcv); destruct (w_page a2 _ Hw2 p pg Hm) as (_ & _ & Hb & _ & _); lia |].
    split; [| apply (owns_put a2 _ live p pg); auto; lia]. unfold cursor in *. cbn [cur_page_ put set_mem tailer_ page_limit_ page_size_ mem_].
    rewrite Hc, Ht, Hl, Hs. destruct (cur_page_ a) as [c |].
    + destruct Hcu as (Hin & -> & ->). split; [now apply list_elem_of_further |]. split; [| reflexivity].
      rewrite last_cons. destruct (last l) eqn:El; [reflexivity |]. apply last_None in El as ->. now apply elem_of_nil in Hin.
    + destruct Hcu as [-> Hfull]. split; [reflexivity |]. intros q pq Hpq. destruct (decide (q = p)) as [-> | Hne].
      * rewrite lookup_insert_eq in Hpq. injection Hpq as <-. unfold Page.remain. simpl. rewrite <- E1, <- E2. unfold Page.buf_. lia.
      * rewrite lookup_insert_ne, Hq in Hpq by auto. eauto.
  - eexists _, _. split; [reflexivity |]. split; [exists l; auto |]. intros _. exists (mem_ a), (sz + Page.sizeof).
    split; [unfold Page.sizeof; lia | exact Hp].
Qed.

(** ** The first page, and the next *)

(** The current page is there, with the invariant. *)
Definition ready (live : list block) (a : t) (c : Z) : Prop :=
  exists l, wf a l /\ cursor a l /\ owns a l live /\ cur_page_ a = Some c.

(** A page appended to the list and made the current one. *)
Lemma append_ready a l live p a' : wf a l -> owns a l live -> grows a a' p (page_size_ a) ->
  chain (mem_ a') (header_ a') (l ++ [p]) -> cur_page_ a' = Some p -> tailer_ a' = Some p ->
  page_limit_ a' = page_size_ a - Page.sizeof -> ready live a' p.
Proof.
  intros Hw Ho Hg Hch Hc Ht Hl. destruct (fresh_page a l _ p Hw (g_alloc _ _ _ _ Hg) ltac:(lia)) as (_ & _ & _ & Hpl).
  exists (l ++ [p]). split; [| split; [| split; [| exact Hc]]].
  - apply (wf_grow a a' l _ p (page_size_ a)); auto. rewrite Permutation_app_comm. reflexivity.
  - unfold cursor. rewrite Hc, Ht, Hl, last_snoc, (g_page_size _ _ _ _ Hg). split; [| auto]. set_solver.
  - apply (owns_grow a a' l _ live p (page_size_ a)); auto. intros q _. unfold idle. rewrite Hc, after_last by exact Hpl.
    intros Hq. now apply elem_of_nil in Hq.
Qed.

Lemma ensure_ok a l live : wf a l -> cursor a l -> owns a l live ->
  exists a', ensure_cur_page a = Some a' /\ page_size_ a' = page_size_ a
    /\ match cur_page_ a' with Some c => ready live a' c | None => a' = a /\ refused end.
Proof.
  intros Hw Hcu Ho. unfold ensure_cur_page. destruct (cur_page_ a) as [c |] eqn:Ec.
  { exists a. rewrite Ec. split; [reflexivity |]. split; [reflexivity |]. exists l. auto. }
  unfold alloc_new_page. destruct (page_alloc _ _) as [p |] eqn:Hp.
  2: { eexists. split; [reflexivity |]. split; [reflexivity |]. simpl. split; [now destruct a; simpl in *; subst |].
       exists (mem_ a), (page_size_ a). split; [pose proof (w_size a l Hw); unfold Page.sizeof in *; lia | exact Hp]. }
  unfold cursor in Hcu. rewrite Ec in Hcu. destruct Hcu as [Ht _].
  destruct (fresh_page a l _ p Hw Hp ltac:(lia)) as (_ & _ & Hpn & Hpl).
  set (pg := Page.new p (page_size_ a)). set (m := <[p := pg]> (mem_ a)).
  assert (m !! p = Some pg) as Hmp by apply lookup_insert_eq.
  assert (chain m (header_ a) l) as Hch by (apply chain_put; [exact Hpl | apply Hw]).
  unfold fuel. arena_simpl. fold pg m. rewrite (chain_last m l _ _ _ Hch).
  2: { unfold m. rewrite map_size_insert_None, (length_pages a l Hw) by exact Hpn. lia. }
  arena_simpl. rewrite Ht.
  pose proof (chain_snoc m p pg l (header_ a) Hch (w_nodup a l Hw) Hpl Hmp eq_refl) as Hsn.
  assert (Page.remain pg = page_size_ a - Page.sizeof) as Hrem by (unfold Page.remain, Page.buf_; simpl; unfold Page.buf_; lia).
  destruct (last l) as [q |] eqn:El; unfold write_link; arena_simpl; fold m.
  - destruct Hsn as (pq & Hq & Hsn). fold m. assert (q <> p) as Hne by (apply last_Some in El as [? ->]; set_solver).
    rewrite Hq. arena_simpl. rewrite lookup_insert_ne, lookup_insert_eq by auto.
    arena_simpl. eexists. split; [reflexivity |]. split; [reflexivity |]. arena_simpl.
    apply (append_ready a l); auto.
    split; auto; [lia | |].
    + exists pg. arena_simpl. fold m. rewrite lookup_insert_ne by auto. rewrite Hmp. repeat split.
    + intros r Hr. arena_simpl. destruct (decide (r = q)) as [-> | Hrq].
      * rewrite lookup_insert_eq. unfold m in Hq. rewrite lookup_insert_ne in Hq by auto. rewrite Hq. repeat split.
      * rewrite lookup_insert_ne by auto. unfold m. rewrite lookup_insert_ne by auto. destruct (mem_ a !! r); repeat split.
  - rewrite Hmp. arena_simpl.
    eexists. split; [reflexivity |]. split; [reflexivity |]. apply (append_ready a l); auto.
    split; auto; [lia | |].
    + exists pg. repeat split. exact Hmp.
    + intros r Hr. arena_simpl. unfold m. rewrite lookup_insert_ne by auto. destruct (mem_ a !! r); repeat split.
Qed.

(** A page behind the current one is emptied and made the current one. *)
Lemma next_ready a l live c n l' pg : wf a l -> cursor a l -> owns a l live -> cur_page_ a = Some c -> after c l = n :: l' ->
  mem_ a !! n = Some pg -> ready live (set_cur (put a n (Page.reuse n pg)) (Some n)) n.
Proof.
  intros Hw Hcu Ho Hc Ha Hn. exists l. destruct (w_page a l Hw n pg Hn) as (_ & _ & Hb & _ & _).
  split; [| split; [| split; [| reflexivity]]].
  - apply (wf_ext (put a n (Page.reuse n pg))); auto. apply (wf_put a l n pg); auto. simpl. lia.
  - unfold cursor in *. rewrite Hc in Hcu. arena_simpl. destruct Hcu as (_ & Ht & Hl). split; [| auto].
    apply (after_in c). rewrite Ha. apply list_elem_of_here.
  - destruct Ho as [Hin Hd]. split; [| exact Hd]. intros x Hx. destruct (Hin x Hx) as (Hp & q & pq & Hq & Hi & Hxw).
    split; [exact Hp |]. unfold idle in Hi. rewrite Hc, Ha in Hi. exists q, pq. arena_simpl.
    rewrite lookup_insert_ne by (intros ->; apply Hi, list_elem_of_here). split; [exact Hq |]. split; [| exact Hxw].
    unfold idle. arena_simpl. rewrite (after_next c n l l' (w_nodup a l Hw) Ha). intros Hq'. apply Hi. now apply list_elem_of_further.
Qed.

Lemma extend_ok a l live c : wf a l -> cursor a l -> owns a l live -> cur_page_ a = Some c ->
  exists r a1, extend_page a (page_size_ a) = Some (r, a1)
    /\ match r with
       | None => a1 = a /\ refused
       | Some n => ready live (set_cur a1 (Some n)) n
                   /\ exists pg, mem_ a1 !! n = Some pg /\ Page.alloc_end_ pg = Page.buf_ n /\ page_size_ a - Page.sizeof <= Page.remain pg
       end.
Proof.
  intros Hw Hcu Ho Hc. unfold extend_page. rewrite Hc. assert (c ∈ l /\ tailer_ a = last l /\ page_limit_ a = page_size_ a - Page.sizeof) as (Hin & Ht & Hl)
    by (unfold cursor in Hcu; now rewrite Hc in Hcu).
  destruct (chain_lookup _ _ _ _ (w_chain a l Hw) Hin) as [pg Hm]. rewrite Hm. cbn [mbind option_bind].
  pose proof (chain_after _ _ _ _ _ (w_chain a l Hw) Hm Hin) as Hch. destruct (after c l) as [| n l'] eqn:Ha.
  - simpl in Hch. rewrite Hch. unfold alloc_new_page. destruct (page_alloc _ _) as [p |] eqn:Hp.
    2: { eexists None, _. split; [reflexivity |]. split; [reflexivity |]. exists (mem_ a), (page_size_ a).
         split; [pose proof (w_size a l Hw); unfold Page.sizeof in *; lia | exact Hp]. }
    pose proof (after_nil c l Hin Ha) as Hlast. destruct (fresh_page a l _ p Hw Hp ltac:(lia)) as (_ & _ & Hpn & Hpl).
    assert (c <> p) as Hne by (intros ->; contradiction).
    set (np := Page.new p (page_size_ a)). set (m := <[p := np]> (mem_ a)). assert (m !! p = Some np) as Hmp by apply lookup_insert_eq.
    assert (m !! c = Some pg) as Hmc by (unfold m; now rewrite lookup_insert_ne by auto).
    pose proof (chain_snoc m p np l (header_ a) ltac:(apply chain_put; [exact Hpl | apply Hw]) (w_nodup a l Hw) Hpl Hmp eq_refl) as Hsn.
    rewrite Hlast in Hsn. destruct Hsn as (pt & Hpt & Hsn). rewrite Hmc in Hpt. injection Hpt as <-.
    unfold insert_tail. arena_simpl. fold m. rewrite Ht, Hlast, Hmc. arena_simpl.
    eexists (Some p), _. split; [reflexivity |]. arena_simpl. fold m. split.
    + apply (append_ready a l); auto. split; auto; [lia | |].
      * exists np. arena_simpl. fold m. rewrite lookup_insert_ne, Hmp by auto. repeat split.
      * intros q Hq. arena_simpl. fold m. destruct (decide (q = c)) as [-> | Hqc].
        -- rewrite lookup_insert_eq, Hm. repeat split.
        -- rewrite lookup_insert_ne by auto. unfold m. rewrite lookup_insert_ne by auto. destruct (mem_ a !! q); repeat split.
    + exists np. rewrite lookup_insert_ne, Hmp by auto. split; [reflexivity |]. split; [reflexivity |].
      unfold Page.remain, np. simpl. unfold Page.buf_. lia.
  - destruct Hch as (-> & pn & Hn & Hch). rewrite Hn. cbn [mbind option_bind]. eexists (Some n), _. split; [reflexivity |].
    split; [now apply (next_ready a l live c n l') |]. exists (Page.reuse n pn). arena_simpl. rewrite lookup_insert_eq.
    split; [reflexivity |]. split; [reflexivity |]. destruct (w_page a l Hw n pn Hn) as (_ & _ & _ & He & Hs).
    unfold Page.remain. simpl. unfold Page.buf_. lia.
Qed.

(** ** Requests *)

(** The attempt on the current page takes a block from its free part. *)
Definition common_ok (sz : Z) (Q : Z -> Prop) (common : Page.t -> option (option Z * Page.t * Z)) : Prop :=
  forall pg, match common pg with
             | None => True
             | Some (ret, pg', _) => exists s, ret = Some s /\ Q s /\ carves pg pg' s sz
             end.

(** A block from an empty page with room. *)
Lemma empty_page_serves live a n pg sz Q : ready live a n -> mem_ a !! n = Some pg -> Page.alloc_end_ pg = Page.buf_ n ->
  0 < sz <= Page.remain pg -> (forall q, q mod 16 = 0 -> Q (Page.buf_ q)) ->
  served live sz Q (on_page a n (fun pg => Page.alloc pg sz)).
Proof.
  intros (l & Hw & Hcu & Ho & Hc) Hm He Hsz HQ. unfold on_page. rewrite Hm. cbn [mbind option_bind].
  destruct (page_alloc_carves pg sz) as [-> Hcv]; [lia | lia |]. eexists _, _. split; [reflexivity |]. split; [| discriminate].
  apply (take_current a l live n pg); auto; [lia |]. rewrite He. apply HQ, (w_page a l Hw n pg Hm).
Qed.

(** The current page, with room or without. *)
Lemma current_answers live a l c pg sz : wf a l -> cursor a l -> owns a l live -> cur_page_ a = Some c ->
  mem_ a !! c = Some pg -> 0 < sz ->
  exists r a', on_page a c (fun pg => Page.alloc pg sz) = Some (r, a') /\ answers live sz (fun _ => True) r a'.
Proof.
  intros Hw Hcu Ho Hc Hm Hsz. unfold on_page. rewrite Hm. cbn [mbind option_bind].
  destruct (Z.leb_spec sz (Page.remain pg)) as [Hfit | Hno].
  - destruct (page_alloc_carves pg sz) as [-> Hcv]; [lia | lia |]. eexists _, _. split; [reflexivity |].
    now apply (take_current a l live c pg).
  - unfold Page.alloc. destruct (Z.leb_spec sz 0); [lia |]. rewrite (proj2 (Z.leb_gt _ _)) by lia.
    eexists _, _. split; [reflexivity |]. simpl. unfold put. rewrite insert_id by exact Hm.
    exists l. split; [now apply (wf_ext a) |]. split; [exact Hcu | now apply (owns_ext a)].
Qed.

Lemma current_serves live a l c pg sz (Q : Z -> Prop) : wf a l -> cursor a l -> owns a l live -> cur_page_ a = Some c ->
  mem_ a !! c = Some pg -> 0 < sz -> (forall s, Q s) -> refused -> served live sz Q (on_page a c (fun pg => Page.alloc pg sz)).
Proof.
  intros Hw Hcu Ho Hc Hm Hsz HQ Href. destruct (current_answers live a l c pg sz Hw Hcu Ho Hc Hm Hsz) as (r & a' & -> & Ha).
  exists r, a'. split; [reflexivity |]. split; [| auto]. destruct r; [split; [apply Ha | apply HQ] | exact Ha].
Qed.

Lemma served_used live sz Q o : served live sz Q o ->
  served live sz Q ('(ret, a) ← o; Some (ret, match ret with Some _ => add_used a sz | None => a end)).
Proof.
  intros (r & a & -> & Ha & Hr). cbn [mbind option_bind]. eexists _, _. split; [reflexivity |]. split; [| exact Hr].
  destruct r; [| exact Ha]. destruct Ha as [Hi HQ]. split; [now apply inv_add_used | exact HQ].
Qed.

(** The page behind the current one, or a new page. *)
Lemma overflow_ok a l live c sz (Q : Z -> Prop) : wf a l -> cursor a l -> owns a l live -> cur_page_ a = Some c ->
  0 < sz <= page_size_ a - Page.sizeof ->
  (forall q, q mod 16 = 0 -> Q (Page.buf_ q)) -> (refused -> forall s, Q s) ->
  served live sz Q (extend_and a (fun pg => Page.alloc pg sz)).
Proof.
  intros Hw Hcu Ho Hc Hsz HQ HQr. unfold extend_and. destruct (extend_ok a l live c Hw Hcu Ho Hc) as (r & a2 & -> & Hr). cbn [mbind option_bind].
  destruct r as [n |].
  - destruct Hr as (Hrd & pn & Hn & He & Hrem). arena_simpl. apply (empty_page_serves live (set_cur a2 (Some n)) n pn); auto. lia.
  - destruct Hr as [-> Href]. rewrite Hc. assert (c ∈ l) as Hin by (unfold cursor in Hcu; rewrite Hc in Hcu; tauto).
    destruct (chain_lookup _ _ _ _ (w_chain a l Hw) Hin) as [pg Hm]. apply (current_serves live a l c pg); auto; lia.
Qed.

Lemma alloc_in_ok a live sz Q common : inv a live -> 0 < sz < 2 ^ 62 -> common_ok sz Q common ->
  (forall q, q mod 16 = 0 -> Q (Page.buf_ q)) -> (refused -> forall s, Q s) ->
  served live sz Q (alloc_in common (fun pg => Page.alloc pg sz) a sz).
Proof.
  intros (l & Hw & Hcu & Ho) Hsz Hcm HQ HQr. unfold alloc_in. apply served_used. pose proof (w_size a l Hw) as Hps.
  rewrite !uwrap64_small by (unfold Page.sizeof, W64 in *; lia).
  destruct (Z.leb_spec (sz + Page.sizeof) (page_size_ a)) as [Hle | Hgt]; [| apply (big_ok a l); auto].
  destruct (ensure_ok a l live Hw Hcu Ho) as (a1 & -> & Hs1 & Hr). cbn [mbind option_bind].
  destruct (cur_page_ a1) as [c |] eqn:Ec.
  2: { destruct Hr as [-> Href]. eexists None, _. split; [reflexivity |]. split; [exists l; auto | auto]. }
  rewrite (proj2 (Z.ltb_lt 0 sz)) by lia. destruct Hr as (l1 & Hw1 & Hcu1 & Ho1 & _).
  assert (c ∈ l1 /\ page_limit_ a1 = page_size_ a1 - Page.sizeof) as (Hin & Hlim)
    by (unfold cursor in Hcu1; rewrite Ec in Hcu1; tauto).
  destruct (chain_lookup _ _ _ _ (w_chain a1 l1 Hw1) Hin) as [pg Hm]. rewrite Hm. cbn [mbind option_bind].
  specialize (Hcm pg). destruct (common pg) as [[[ret pg'] skipped] |].
  - destruct Hcm as (s & -> & Hq & Hcv). eexists _, _. split; [reflexivity |]. split; [| discriminate].
    destruct (take_current a1 l1 live c pg pg' s sz Q) as [Hi HQs]; auto; [lia |]. split; [now apply inv_add_used | exact HQs].
  - unfold is_normal_overflow. rewrite Hlim, (proj2 (Z.leb_le _ _)) by lia. apply (overflow_ok a1 l1 live c); auto. lia.
Qed.

Lemma alloc_served a live sz : inv a live -> 0 < sz < 2 ^ 62 -> served live sz (fun _ => True) (alloc a sz).
Proof.
  intros Hi Hs. apply alloc_in_ok; auto. intros pg. unfold alloc_common. destruct (Z.leb_spec sz (Page.remain pg)); [| exact I].
  destruct (page_alloc_carves pg sz) as [-> Hcv]; [lia | lia |]. eauto.
Qed.

(** The address is a multiple of the alignment, unless a page was refused. *)
Definition aligned (alignment s : Z) : Prop := s mod alignment = 0 \/ refused.

Lemma align_offset_spec p k : 0 <= k -> let alignment := 2 ^ k in
  0 < get_align_offset p alignment <= alignment /\ (p + get_align_offset p alignment) mod alignment = 0.
Proof.
  intros Hk alignment. unfold get_align_offset. assert (0 < alignment) as Ha by (apply Z.pow_pos_nonneg; lia).
  assert (Z.land p (alignment - 1) = p mod alignment) as ->
    by (unfold alignment; rewrite Z.sub_1_r, <- Z.ones_equiv, Z.land_ones by lia; reflexivity).
  pose proof (Z.mod_pos_bound p alignment Ha). split; [lia |].
  replace (p + (alignment - p mod alignment)) with (alignment * (p / alignment + 1)); [now rewrite Z.mul_comm, Z.mod_mul by lia |].
  pose proof (Z.div_mod p alignment). lia.
Qed.

Lemma buf_aligned k q : 0 <= k <= 4 -> q mod 16 = 0 -> Page.buf_ q mod 2 ^ k = 0.
Proof.
  intros Hk Hq. unfold Page.buf_, Page.sizeof. apply Z.mod_divide; [apply Z.pow_nonzero; lia |].
  apply Z.mod_divide in Hq; [| lia]. destruct Hq as [x ->]. exists ((x + 2) * 2 ^ (4 - k)).
  rewrite <- Z.mul_assoc, <- Z.pow_add_r by lia. replace (4 - k + k) with 4 by lia. lia.
Qed.

(** Alignments up to that of the pages. *)
Lemma alloc_aligned_served a live sz k : inv a live -> 0 < sz < 2 ^ 62 -> 0 <= k <= 4 ->
  served live sz (aligned (2 ^ k)) (alloc_aligned a sz (2 ^ k)).
Proof.
  intros Hi Hs Hk. apply alloc_in_ok; auto.
  - intros pg. unfold aligned_common. set (off := get_align_offset _ _).
    destruct (Z.leb_spec (sz + off) (Page.remain pg)); [| exact I].
    destruct (align_offset_spec (Page.alloc_end_ pg) k ltac:(lia)) as [Hoff Hal]. fold off in Hoff, Hal.
    destruct (page_alloc_carves pg (sz + off)) as [-> (E1 & E2 & E3 & E4 & E5)]; [lia | lia |].
    eexists. split; [reflexivity |]. split; [left; exact Hal |]. unfold carves. simpl in *. repeat split; lia.
  - intros q Hq. left. now apply buf_aligned.
  - intros Hr s. now right.
Qed.

(** A block that is the last of the current page may be resized in place. *)
Lemma realloc_served a live p oldsz newsz : inv a ((p, oldsz) :: live) -> 0 < newsz < 2 ^ 62 ->
  exists r a', realloc a p oldsz newsz = Some (r, a') /\ (r = None -> refused \/ cur_page_ a = None)
    /\ match r with None => inv a' ((p, oldsz) :: live) | Some s => inv a' ((s, newsz) :: live) end.
Proof.
  intros Hi Hn. unfold realloc. destruct (cur_page_ a) as [c |] eqn:Ec; [| exists None, a; auto].
  pose proof Hi as (l & Hw & Hcu & Ho). assert (c ∈ l) as Hin by (unfold cursor in Hcu; rewrite Ec in Hcu; tauto).
  destruct (chain_lookup _ _ _ _ (w_chain a l Hw) Hin) as [pg Hm]. rewrite Hm. cbn [mbind option_bind].
  destruct (Z.eqb_spec (p + oldsz) (Page.alloc_end_ pg)) as [He | _]; [destruct (Z.ltb_spec (p + newsz) (Page.page_end_ pg)) as [Hl | _] |].
  2, 3: destruct (alloc_served a ((p, oldsz) :: live) newsz Hi Hn) as (r & a' & -> & Ha & Hr); exists r, a'; (split; [reflexivity |]);
        (split; [auto |]); destruct r; [destruct Ha as [Ha _]; apply (inv_sublist _ _ _ Ha); repeat constructor; reflexivity | exact Ha].
  exists (Some p), (put a c (Page.set_end pg (p + newsz))). split; [reflexivity |]. split; [discriminate |].
  apply (resize_last a l live c pg p oldsz); auto; lia.
Qed.

(** ** The best fit *)

Lemma inv_narrow a live s n s' n' : inv a ((s, n) :: live) -> s <= s' -> s' + n' <= s + n -> 0 < n' -> inv a ((s', n') :: live).
Proof.
  intros (l & Hw & Hc & [Hin Hd]) H1 H2 H3. exists l. split; [exact Hw |]. split; [exact Hc |]. split.
  - intros x Hx. apply elem_of_cons in Hx as [-> | Hx]; [| apply Hin; now apply list_elem_of_further].
    destruct (Hin (s, n) (list_elem_of_here _ _)) as (_ & q & pg & Hq & Hi & Hqw). split; [exact H3 |]. exists q, pg.
    split; [exact Hq |]. split; [exact Hi |]. unfold within in *. simpl in *. lia.
  - inversion Hd as [| ? ? Hall Hl]; subst. constructor; [| exact Hl]. rewrite List.Forall_forall in *. intros x Hx.
    specialize (Hall x Hx). unfold disjoint in *. simpl in *. lia.
Qed.

(** The search sees every page; the offset is that of the last. *)
Lemma best_fit_ok (m : mem) sz k l : 0 < sz -> 0 <= k -> forall n p off adj best, chain m p l -> (length l < n)%nat ->
  (best <> None -> adj = sz + off /\ 0 <= off /\ exists q pg, m !! q = Some pg /\ sz <= Page.remain pg) ->
  exists off' adj' best', best_fit n m sz (2 ^ k) p off adj best = Some (off', adj', best')
    /\ (best' <> None -> adj' = sz + off' /\ 0 <= off' /\ exists q pg, m !! q = Some pg /\ sz <= Page.remain pg).
Proof.
  intros Hsz Hk. induction l as [| q l IH]; intros n p off adj best Hc Hn Hb; (destruct n; [simpl in Hn; lia |]); simpl.
  - rewrite Hc. eexists _, _, _. split; [reflexivity | exact Hb].
  - destruct Hc as (-> & pg & Hq & Hc). rewrite Hq. cbn [mbind option_bind].
    destruct (align_offset_spec (Page.alloc_end_ pg) k Hk) as [Ho _]. apply IH; [exact Hc | simpl in Hn; lia |].
    intros Hne. split; [reflexivity |]. split; [lia |].
    destruct (Z.leb_spec (sz + get_align_offset (Page.alloc_end_ pg) (2 ^ k)) (Page.remain pg)); [| now apply Hb in Hne].
    exists q, pg. split; [exact Hq | lia].
Qed.

Lemma aligned_to2_range x k : 0 <= k -> x <= ob_aligned_to2 x (2 ^ k) < x + 2 ^ k.
Proof.
  intros Hk. unfold ob_aligned_to2. assert (0 < 2 ^ k) as Ha by (apply Z.pow_pos_nonneg; lia).
  replace (Z.lnot (2 ^ k - 1)) with (Z.lnot (Z.ones k)) by (rewrite Z.ones_equiv, Z.sub_1_r; reflexivity).
  rewrite <- Z.ldiff_land, Z.ldiff_ones_r by lia. pose proof (Z.div_mod (x + (2 ^ k - 1)) (2 ^ k)). pose proof (Z.mod_pos_bound (x + (2 ^ k - 1)) (2 ^ k) Ha).
  rewrite Z.shiftl_mul_pow2, Z.shiftr_div_pow2 by lia. lia.
Qed.

(** Once there is a current page: the block is in the memory taken, whatever page
    the offset was computed for. *)
Lemma aligned_bf_ok a live c sz k : ready live a c -> 0 <= k -> 0 < sz -> sz + 2 ^ k < 2 ^ 62 ->
  exists r a', alloc_aligned_bf a sz (2 ^ k) = Some (r, a') /\ answers live sz (fun _ => True) r a'.
Proof.
  intros (l & Hw & Hcu & Ho & Ec) Hk Hsz Hmax. assert (0 < 2 ^ k) as H2k by (apply Z.pow_pos_nonneg; lia).
  assert (c ∈ l /\ page_limit_ a = page_size_ a - Page.sizeof) as [Hin Hlim] by (unfold cursor in Hcu; rewrite Ec in Hcu; tauto).
  destruct (chain_lookup _ _ _ _ (w_chain a l Hw) Hin) as [pg Hm].
  unfold alloc_aligned_bf, ensure_cur_page. rewrite Ec. cbn [mbind option_bind].
  destruct (best_fit_ok (mem_ a) sz k l Hsz Hk (fuel a) (header_ a) 0 0 None) as (off & adj & best & -> & Hbest);
    [apply Hw | unfold fuel; rewrite (length_pages a l Hw); lia | congruence |]. cbn [mbind option_bind].
  destruct best as [best |].
  - destruct (Hbest ltac:(discriminate)) as (-> & Hoff & _). rewrite Ec. cbn [mbind option_bind].
    destruct (current_answers live a l c pg (sz + off)) as (r & a2 & -> & Ha); auto; [lia |]. cbn [mbind option_bind].
    destruct r as [s |]; eexists _, _; (split; [reflexivity |]); [| exact Ha]. split; [| exact I]. apply inv_add_used.
    apply (inv_narrow a2 live s (sz + off)); [apply Ha | lia..].
  - assert (served live (sz + 2 ^ k) (fun _ => True) (if is_normal_overflow a (sz + 2 ^ k)
        then extend_and a (fun pg => Page.alloc pg (sz + 2 ^ k)) else alloc_big a (sz + 2 ^ k))) as (r & a2 & -> & Ha & _).
    { unfold is_normal_overflow. rewrite Hlim. destruct (Z.leb_spec (sz + 2 ^ k) (page_size_ a - Page.sizeof)).
      - apply (overflow_ok a l live c); auto. lia.
      - apply (big_ok a l live); auto; lia. }
    cbn [mbind option_bind]. destruct r as [s |]; eexists _, _; (split; [reflexivity |]); [| exact Ha]. split; [| exact I].
    apply inv_add_used. pose proof (aligned_to2_range s k Hk). apply (inv_narrow a2 live s (sz + 2 ^ k)); [apply Ha | lia..].
Qed.
End Steps.
End ArenaSteps.

(** ** Giving back: [free], [free_remain_one_page] and [reuse] end with an arena that
    holds nothing; what they keep, and the first block after a reuse. *)
Module ArenaFree.
Import PageArena ArenaFacts ArenaSteps.

(** ** Taking pages from the list *)
Lemma chain_pop (m : mem) p q l : q ∉ l -> NoDup l -> chain m p (q :: l) ->
  exists pg, m !! q = Some pg /\ p = Some q /\ chain (delete q m) (Page.next_page_ pg) l.
Proof. intros Hq _ (-> & pg & Hm & Hc). exists pg. split; [exact Hm |]. split; [reflexivity |]. now apply chain_delete. Qed.

Lemma chain_unlink (m : mem) e pg l2 l1 : forall h, chain m h (l1 ++ e :: l2) -> NoDup (l1 ++ e :: l2) -> m !! e = Some pg ->
  match last l1 with
  | None => chain (delete e m) (Page.next_page_ pg) l2
  | Some q => exists pq, m !! q = Some pq /\ chain (delete e (<[q := Page.set_next pq (Page.next_page_ pg)]> m)) h (l1 ++ l2)
  end.
Proof.
  induction l1 as [| r l1 IH]; intros h Hc Hn He.
  - destruct Hc as (_ & pe & He' & Hc). rewrite He in He'. injection He' as <-. apply NoDup_cons in Hn as [Hn _].
    now apply chain_delete.
  - destruct Hc as (-> & pr & Hr & Hc). cbn [app] in Hn. apply NoDup_cons in Hn as [Hrl Hn]. specialize (IH _ Hc Hn He).
    assert (r <> e) as Hre by set_solver. rewrite last_cons. destruct (last l1) as [q |] eqn:El.
    + destruct IH as (pq & Hq & IH). exists pq. split; [exact Hq |]. cbn [app chain]. split; [reflexivity |].
      assert (q <> r). { apply last_Some in El as [? ->]. set_solver. }
      exists pr. rewrite lookup_delete_ne, lookup_insert_ne by auto. auto.
    + apply last_None in El as ->. exists pr. split; [exact Hr |]. cbn [app chain]. split; [reflexivity |].
      eexists. rewrite lookup_delete_ne, lookup_insert_eq by auto. split; [reflexivity |]. simpl.
      apply (chain_ext (delete e m)); [| exact IH]. intros q pq Hq Hm. exists pq. split; [| reflexivity].
      assert (q <> r) by set_solver. assert (q <> e) by (intros ->; now rewrite lookup_delete_eq in Hm).
      rewrite lookup_delete_ne in Hm |- * by auto. now rewrite lookup_insert_ne by auto.
Qed.

(** A page of another arena's list is gone; the others keep their bounds. *)
Lemma wf_less a a' l l' : wf a l -> chain (mem_ a') (header_ a') l' -> l' `sublist_of` l ->
  (forall q, is_Some (mem_ a' !! q) -> q ∈ l') -> pages_ a' = Z.of_nat (length l') ->
  page_size_ a' = page_size_ a -> page_limit_ a' = page_limit_ a ->
  (forall q pg', mem_ a' !! q = Some pg' -> exists pg, mem_ a !! q = Some pg /\ same_bounds pg pg') -> wf a' l'.
Proof.
  intros Hw Hc Hs Hd Hp Hz Hl Hm. split; auto.
  - eapply sublist_NoDup; [apply Hw | exact Hs].
  - rewrite Hz. apply Hw.
  - intros q pg' Hq. destruct (Hm q pg' Hq) as (pg & Hq' & E1 & E2 & E3). rewrite Hz, <- E1, <- E2, <- E3. exact (w_page a l Hw q pg Hq').
  - intros q r pg pr Hne Hq Hr. destruct (Hm q pg Hq) as (x & Hx & _ & _ & <-), (Hm r pr Hr) as (y & Hy & _ & _ & <-).
    exact (w_block a l Hw q r x y Hne Hx Hy).
  - intros q pg Hq Hb. destruct (Hm q pg Hq) as (x & Hx & _ & _ & E). rewrite Hz, Hl in *. apply (w_limit a l Hw q x Hx). congruence.
Qed.

Lemma owns_nil a l : owns a l [].
Proof. split; [intros x Hx; now apply elem_of_nil in Hx | constructor]. Qed.

(** ** [free] *)
Lemma free_loop_ok l : forall n a, chain (mem_ a) (header_ a) l -> NoDup l -> (forall q, is_Some (mem_ a !! q) -> q ∈ l) ->
  (length l < n)%nat ->
  exists a', free_loop n a = Some a' /\ mem_ a' = ∅ /\ header_ a' = None /\ page_size_ a' = page_size_ a.
Proof.
  induction l as [| q l IH]; intros n a Hc Hn Hd Hlen; (destruct n; [simpl in Hlen; lia |]); cbn [free_loop].
  - simpl in Hc. rewrite Hc. exists a. split; [reflexivity |]. split; [| auto]. apply map_eq. intros q. rewrite lookup_empty.
    destruct (mem_ a !! q) eqn:E; [| reflexivity]. exfalso. assert (q ∈ []) as Hq by (apply Hd; eauto). now apply elem_of_nil in Hq.
  - apply NoDup_cons in Hn as [Hq Hn]. destruct (chain_pop _ _ _ _ Hq Hn Hc) as (pg & Hm & -> & Hc'). rewrite Hm. cbn [mbind option_bind].
    destruct (IH n (free_page (set_header a (Page.next_page_ pg)) q)) as (a' & -> & E1 & E2 & E3); auto; [| simpl in Hlen; lia |].
    + intros r [pr Hr]. arena_simpl. cbn [mem_ free_page set_mem set_header] in Hr. apply lookup_delete_Some in Hr as [Hne Hr].
      assert (r ∈ q :: l) as Hin by (apply Hd; eauto). now apply elem_of_cons in Hin as [-> |].
    + exists a'. auto.
Qed.

Lemma free_ok a live : inv a live -> exists a', free a = Some a' /\ inv a' [] /\ mem_ a' = ∅ /\ page_size_ a' = page_size_ a.
Proof.
  intros (l & Hw & _ & _). unfold free.
  destruct (free_loop_ok l (fuel a) a) as (a' & -> & Hm & Hh & Hs); try apply Hw; [unfold fuel; rewrite (length_pages a l Hw); lia |].
  cbn [mbind option_bind]. eexists. split; [reflexivity |]. split; [| split; [exact Hm | exact Hs]]. apply inv_empty; auto. arena_simpl. rewrite Hs. apply Hw.
Qed.

(** ** [free_remain_one_page] *)

(** The loop keeps the page it had, or else the first page that is not large. *)
Lemma remain_loop_ok l : forall n a kept, chain (mem_ a) (header_ a) l -> NoDup l -> (length l < n)%nat ->
  (forall q, is_Some (mem_ a !! q) -> q ∈ l \/ kept = Some q) -> (forall c, kept = Some c -> is_Some (mem_ a !! c) /\ c ∉ l) ->
  exists r a', remain_loop n a kept = Some (r, a') /\ page_size_ a' = page_size_ a /\ page_limit_ a' = page_limit_ a
    /\ (forall q pg, mem_ a' !! q = Some pg -> r = Some q /\ mem_ a !! q = Some pg)
    /\ (forall c, r = Some c -> exists pg, mem_ a' !! c = Some pg /\ (kept = Some c \/ is_large_page a c pg = false)).
Proof.
  induction l as [| q l IH]; intros n a kept Hc Hn Hlen Hd Hk; (destruct n; [simpl in Hlen; lia |]); cbn [remain_loop].
  { simpl in Hc. rewrite Hc. exists kept, a. do 3 (split; [auto |]). split.
    - intros q pg Hq. split; [| exact Hq]. destruct (Hd q) as [Hin | ?]; [eauto | now apply elem_of_nil in Hin | assumption].
    - intros c Hkc. destruct (Hk c Hkc) as [[pg Hm] _]. eauto. }
  apply NoDup_cons in Hn as [Hq Hn]. simpl in Hlen. pose proof Hc as (-> & pg & Hm & Hc'). rewrite Hm. cbn [mbind option_bind].
  destruct (match kept with None => negb (is_large_page a q pg) | Some _ => false end) eqn:Ek.
  - destruct kept; [discriminate |]. apply negb_true_iff in Ek.
    destruct (IH n (set_header a (Page.next_page_ pg)) (Some q)) as (r & a' & -> & E1 & E2 & E3 & E4); auto; [lia | | |].
    { intros x Hx. destruct (Hd x Hx) as [Hin | ?]; [| discriminate]. apply elem_of_cons in Hin as [-> |]; auto. }
    { intros c [= <-]. arena_simpl. eauto. }
    exists r, a'. do 4 (split; [auto |]). intros c Hr. destruct (E4 c Hr) as (pc & Hpc & [[= <-] | Hl]); exists pc; (split; [exact Hpc |]); right; [| exact Hl].
    destruct (E3 _ _ Hpc) as [_ Hpc']. cbn [mem_ set_header] in Hpc'. congruence.
  - assert (kept <> Some q) as Hkq by (intros E; destruct (Hk q E) as [_ Hnin]; apply Hnin, list_elem_of_here).
    destruct (IH n (free_page (set_header a (Page.next_page_ pg)) q) kept) as (r & a' & -> & E1 & E2 & E3 & E4); auto; [| lia | | |].
    { arena_simpl. now apply chain_delete. }
    { arena_simpl. intros x [px Hx]. apply lookup_delete_Some in Hx as [Hne Hx]. destruct (Hd x) as [Hin | ?]; [eauto | | auto].
      apply elem_of_cons in Hin as [-> |]; [contradiction | auto]. }
    { intros c Hc1. destruct (Hk c Hc1) as [[pc Hpc] Hnin]. arena_simpl. rewrite lookup_delete_ne by congruence.
      split; [eauto |]. intros Hin. apply Hnin. now apply list_elem_of_further. }
    exists r, a'. do 3 (split; [auto |]). split; [| exact E4]. intros x px Hx. destruct (E3 x px Hx) as [Hr Hx'].
    cbn [mem_ free_page set_mem set_header] in Hx'. apply lookup_delete_Some in Hx' as [_ Hx']. auto.
Qed.

(** A page that is not large has the normal size. *)
Lemma normal_block a l q pg : wf a l -> mem_ a !! q = Some pg -> is_large_page a q pg = false -> Page.block_ pg = page_size_ a.
Proof.
  intros Hw Hq Hl. destruct (w_page a l Hw q pg Hq) as (_ & _ & _ & He & Hb). unfold is_large_page, Page.raw_size, Page.buf_ in Hl.
  apply Z.ltb_ge in Hl. lia.
Qed.

Lemma remain_ok a live : inv a live -> exists a', free_remain_one_page a = Some a' /\ inv a' [] /\ page_size_ a' = page_size_ a.
Proof.
  intros (l & Hw & _ & _). unfold free_remain_one_page.
  destruct (remain_loop_ok l (fuel a) a None) as (r & a1 & -> & E1 & E2 & E3 & E4); try apply Hw;
    [unfold fuel; rewrite (length_pages a l Hw); lia | intros q Hq; left; now apply Hw | discriminate |].
  cbn [mbind option_bind]. destruct r as [c |].
  - destruct (E4 c eq_refl) as (pg & Hm & [? | Hlarge]); [discriminate |]. arena_simpl. rewrite Hm. arena_simpl.
    destruct (E3 c pg Hm) as [_ Hm0]. pose proof (normal_block a l c pg Hw Hm0 Hlarge) as Hb.
    eexists. split; [reflexivity |]. split; [| exact E1]. exists [c].
    pose proof (w_page a l Hw c pg Hm0) as (P1 & P2 & P3 & P4 & P5). pose proof (w_limit a l Hw c pg Hm0 Hb) as Hlim.
    assert (forall q pq, <[c := Page.reuse c (Page.set_next pg None)]> (mem_ a1) !! q = Some pq ->
              q = c /\ pq = Page.reuse c (Page.set_next pg None)) as Hone.
    { intros q pq Hq. destruct (decide (q = c)) as [-> | Hne]; [rewrite lookup_insert_eq in Hq; split; congruence |].
      rewrite lookup_insert_ne in Hq by auto. destruct (E3 q pq Hq) as [[= ->] _]. contradiction. }
    split; [split; arena_simpl | split; [| apply owns_nil]].
    + split; [reflexivity |]. eexists. rewrite lookup_insert_eq. split; reflexivity.
    + apply NoDup_singleton.
    + intros q [pq Hq]. apply Hone in Hq as [-> _]. apply list_elem_of_here.
    + reflexivity.
    + rewrite E1. apply Hw.
    + intros q pq Hq. apply Hone in Hq as [-> ->]. rewrite E1. simpl. unfold Page.buf_ in *. repeat split; lia.
    + intros q x pq px Hne Hq Hx. apply Hone in Hq as [-> _], Hx as [-> _]. contradiction.
    + rewrite E1, E2. auto.
    + unfold cursor. arena_simpl. rewrite E1, E2. split; [apply list_elem_of_here | auto].
  - arena_simpl. eexists. split; [reflexivity |]. split; [| exact E1]. apply inv_empty; arena_simpl; auto; [| rewrite E1; apply Hw].
    apply map_eq. intros q. rewrite lookup_empty. destruct (mem_ a1 !! q) eqn:E; [| reflexivity]. now destruct (E3 _ _ E).
Qed.

(** ** [reuse] *)
Definition normal (a : t) (q : Z) : bool := match mem_ a !! q with Some pg => negb (is_large_page a q pg) | None => false end.

(** One large page is taken out. *)
Lemma unlink_ok a l1 e l2 pg : wf a (l1 ++ e :: l2) -> mem_ a !! e = Some pg ->
  exists a1, write_link a (last l1) (Page.next_page_ pg) = Some a1 /\ pages_ a1 = pages_ a
    /\ let a2 := free_page (set_stats a1 (pages_ a1 - 1) (used_ a1) (total_ a1 - Page.raw_size e pg)) e in
       wf a2 (l1 ++ l2) /\ cur_page_ a2 = cur_page_ a /\ tailer_ a2 = tailer_ a /\ page_size_ a2 = page_size_ a /\ page_limit_ a2 = page_limit_ a
       /\ forall q, q <> e -> match mem_ a !! q, mem_ a2 !! q with Some x, Some y => same_bounds x y | None, None => True | _, _ => False end.
Proof.
  intros Hw He. pose proof (chain_unlink _ e pg l2 l1 _ (w_chain a _ Hw) (w_nodup a _ Hw) He) as Hun.
  assert (NoDup (l1 ++ e :: l2)) as Hnd by apply Hw. apply NoDup_app in Hnd as (_ & Hd1 & Hd2). apply NoDup_cons in Hd2 as [Hd2 _].
  assert (l1 ++ l2 `sublist_of` l1 ++ e :: l2) as Hsub by (apply sublist_app; [reflexivity | now apply sublist_cons]).
  assert (pages_ a - 1 = Z.of_nat (length (l1 ++ l2))) as Hcnt by (rewrite (w_count a _ Hw), !length_app; simpl; lia).
  assert (forall q, q ∈ l1 ++ e :: l2 -> q <> e -> q ∈ l1 ++ l2) as Hin.
  { intros q Hq Hne. apply elem_of_app in Hq as [? | Hq]; apply elem_of_app; [now left |]. apply elem_of_cons in Hq as [-> |]; [contradiction | now right]. }
  unfold write_link. destruct (last l1) as [q |] eqn:El.
  - destruct Hun as (pq & Hq & Hch). rewrite Hq. cbn [mbind option_bind]. assert (q <> e) as Hqe.
    { intros ->. apply (Hd1 e); [apply last_Some in El as [? ->]; set_solver | apply list_elem_of_here]. }
    eexists. split; [reflexivity |]. split; [reflexivity |]. arena_simpl.
    assert (forall x, x <> e -> match mem_ a !! x, delete e (<[q := Page.set_next pq (Page.next_page_ pg)]> (mem_ a)) !! x with
                                | Some x, Some y => same_bounds x y | None, None => True | _, _ => False end) as Hsame.
    { intros x Hx. rewrite lookup_delete_ne by auto. destruct (decide (x = q)) as [-> | Hxq].
      - rewrite lookup_insert_eq, Hq. repeat split.
      - rewrite lookup_insert_ne by auto. destruct (mem_ a !! x); repeat split. }
    split; [| do 4 (split; [reflexivity |]); exact Hsame].
    apply (wf_less a _ (l1 ++ e :: l2)); auto; arena_simpl.
    + intros x [px Hx]. assert (x <> e) as Hxe by (intros ->; now rewrite lookup_delete_eq in Hx). apply Hin; [| exact Hxe].
      apply (w_dom a _ Hw). specialize (Hsame x Hxe). rewrite Hx in Hsame. destruct (mem_ a !! x); [eauto | contradiction].
    + intros x px Hx. assert (x <> e) as Hxe by (intros ->; now rewrite lookup_delete_eq in Hx).
      specialize (Hsame x Hxe). rewrite Hx in Hsame. destruct (mem_ a !! x); [eauto | contradiction].
  - apply last_None in El as ->. eexists. split; [reflexivity |]. split; [reflexivity |]. arena_simpl.
    assert (forall x, x <> e -> match mem_ a !! x, delete e (mem_ a) !! x with
                                | Some x, Some y => same_bounds x y | None, None => True | _, _ => False end) as Hsame.
    { intros x Hx. rewrite lookup_delete_ne by auto. destruct (mem_ a !! x); repeat split. }
    split; [| do 4 (split; [reflexivity |]); exact Hsame].
    apply (wf_less a _ (e :: l2)); auto; arena_simpl.
    + intros x [px Hx]. apply lookup_delete_Some in Hx as [Hxe Hx]. apply Hin; [| auto]. apply (w_dom a _ Hw). eauto.
    + intros x px Hx. apply lookup_delete_Some in Hx as [_ Hx]. exists px. repeat split. exact Hx.
Qed.

Lemma normal_same a a' q : match mem_ a !! q, mem_ a' !! q with Some x, Some y => same_bounds x y | None, None => True | _, _ => False end ->
  page_size_ a' = page_size_ a -> normal a' q = normal a q.
Proof.
  unfold normal, is_large_page, Page.raw_size. intros Hs Hz. destruct (mem_ a !! q), (mem_ a' !! q); try tauto.
  destruct Hs as (_ & E & _). now rewrite E, Hz.
Qed.

Lemma free_large_loop_ok l2 : forall n a l1, wf a (l1 ++ l2) -> (length l2 < n)%nat -> (l1 <> [] -> tailer_ a = last l1) ->
  exists a', free_large_loop n a (last l1) (head l2) = Some a' /\ wf a' (l1 ++ List.filter (normal a) l2)
    /\ cur_page_ a' = cur_page_ a /\ page_size_ a' = page_size_ a /\ page_limit_ a' = page_limit_ a
    /\ (l1 ++ List.filter (normal a) l2 <> [] -> tailer_ a' = last (l1 ++ List.filter (normal a) l2))
    /\ forall q y, mem_ a' !! q = Some y -> exists x, mem_ a !! q = Some x /\ same_bounds x y.
Proof.
  induction l2 as [| e l2 IH]; intros n a l1 Hw Hlen Ht; (destruct n; [simpl in Hlen; lia |]); cbn [free_large_loop head List.filter].
  { exists a. rewrite app_nil_r in *. do 5 (split; [auto |]). split; [exact Ht |]. intros q y Hq. exists y. now repeat split. }
  simpl in Hlen. assert (e ∈ l1 ++ e :: l2) as Hin by set_solver. destruct (chain_lookup _ _ _ _ (w_chain a _ Hw) Hin) as [pg Hm].
  rewrite Hm. cbn [mbind option_bind].
  assert (normal a e = negb (is_large_page a e pg)) as -> by (unfold normal; now rewrite Hm).
  assert (Page.next_page_ pg = head l2) as Hnext.
  { apply chain_head with (m := mem_ a). pose proof (chain_after _ _ _ _ _ (w_chain a _ Hw) Hm Hin) as Hc.
    rewrite after_mid in Hc; [exact Hc |]. pose proof (w_nodup a _ Hw) as Hnd. apply NoDup_app in Hnd as (_ & Hd & _).
    intros He. apply (Hd e He), list_elem_of_here. }
  destruct (is_large_page a e pg) eqn:El; cbn [negb].
  - destruct (unlink_ok a l1 e l2 pg Hw Hm) as (a1 & -> & _ & Hw2 & Ec & Et & Es & Ell & Hsame). cbn [mbind option_bind].
    set (a2 := free_page _ e) in *. rewrite Hnext.
    destruct (IH n a2 l1 Hw2) as (a' & -> & Hw' & F1 & F2 & F3 & F4 & F5); [lia | now rewrite Et |].
    assert (List.filter (normal a2) l2 = List.filter (normal a) l2) as Ef.
    { apply filter_ext_in. intros q Hq. apply normal_same; [| exact Es]. apply Hsame. intros ->.
      pose proof (w_nodup a _ Hw) as Hnd. apply NoDup_app in Hnd as (_ & _ & Hnd). apply NoDup_cons in Hnd as [Hnd _].
      apply Hnd. now apply list_elem_of_In. }
    rewrite Ef in *. exists a'. rewrite F1, F2, F3, Ec, Es, Ell. do 5 (split; [auto |]). split; [exact F4 |].
    intros q y Hq. destruct (F5 q y Hq) as (x & Hx & (G1 & G2 & G3)). assert (q <> e) as Hqe.
    { intros ->. unfold a2 in Hx. cbn [mem_ free_page set_mem set_stats] in Hx. now rewrite lookup_delete_eq in Hx. }
    specialize (Hsame q Hqe). rewrite Hx in Hsame. destruct (mem_ a !! q) as [z |]; [| contradiction]. exists z.
    destruct Hsame as (H1 & H2 & H3). split; [reflexivity |]. unfold same_bounds. intuition congruence.
  - rewrite Hnext. replace (l1 ++ e :: l2) with ((l1 ++ [e]) ++ l2) in Hw by now rewrite <- app_assoc.
    destruct (IH n (set_tailer a (Some e)) (l1 ++ [e])) as (a' & Hl & Hw' & F1 & F2 & F3 & F4 & F5); [now apply (wf_ext a) | lia | intros _; now rewrite last_snoc |].
    rewrite last_snoc in Hl. rewrite Hl. exists a'. rewrite <- !app_assoc in *. do 5 (split; [auto |]). split; [exact F4 | exact F5].
Qed.

Lemma free_large_ok a l : wf a l ->
  exists a', free_large_pages a = Some a' /\ wf a' (List.filter (normal a) l) /\ page_size_ a' = page_size_ a
    /\ tailer_ a' = last (List.filter (normal a) l)
    /\ forall q y, mem_ a' !! q = Some y -> exists x, mem_ a !! q = Some x /\ same_bounds x y.
Proof.
  intros Hw. unfold free_large_pages.
  destruct (free_large_loop_ok l (fuel a) a []) as (a' & Hl & Hw' & _ & Es & _ & Ht & Hsame); [exact Hw | unfold fuel; rewrite (length_pages a l Hw); lia | congruence |].
  cbn [last app] in *. rewrite (chain_head _ _ _ (w_chain a l Hw)), Hl. cbn [mbind option_bind].
  rewrite (chain_head _ _ _ (w_chain _ _ Hw')). eexists. split; [reflexivity |].
  destruct (List.filter (normal a) l) as [| q l'] eqn:Ef; cbn [head].
  - split; [now apply (wf_ext a') |]. auto.
  - split; [exact Hw' |]. split; [exact Es |]. split; [apply Ht; discriminate | exact Hsame].
Qed.

(** The pages of normal size stay, and the first of them is used first. *)
Lemma reuse_spec a l : wf a l ->
  exists a', reuse a = Some a' /\ inv a' [] /\ page_size_ a' = page_size_ a /\ cur_page_ a' = head (List.filter (normal a) l)
    /\ forall c, cur_page_ a' = Some c ->
         exists pg, mem_ a' !! c = Some pg /\ Page.alloc_end_ pg = Page.buf_ c /\ Page.remain pg = page_size_ a - Page.sizeof.
Proof.
  intros Hw. unfold reuse. destruct (free_large_ok a l Hw) as (a1 & -> & Hw1 & Es & Ht & Hsame). cbn [mbind option_bind].
  unfold fast_reuse. arena_simpl. pose proof (chain_head _ _ _ (w_chain _ _ Hw1)) as Hh. rewrite Hh.
  destruct (List.filter (normal a) l) as [| c l'] eqn:Ef; cbn [head].
  - arena_simpl. eexists. split; [reflexivity |]. split; [| split; [exact Es | split; [reflexivity | discriminate]]].
    apply inv_empty; auto; arena_simpl; [| rewrite (w_count _ _ Hw1); reflexivity | rewrite Es; apply Hw].
    apply map_eq. intros q. rewrite lookup_empty. destruct (mem_ a1 !! q) eqn:E; [| reflexivity].
    exfalso. assert (q ∈ []) as Hq by (apply (w_dom _ _ Hw1); eauto). now apply elem_of_nil in Hq.
  - assert (c ∈ List.filter (normal a) l) as Hin by (rewrite Ef; apply list_elem_of_here).
    destruct (chain_lookup _ _ _ c (w_chain _ _ Hw1) (list_elem_of_here _ _)) as [pg Hm]. rewrite Hm. arena_simpl.
    assert (Page.block_ pg = page_size_ a) as Hb.
    { apply list_elem_of_In, filter_In in Hin as [_ Hn]. destruct (Hsame c pg Hm) as (x & Hx & _ & _ & <-).
      unfold normal in Hn. rewrite Hx in Hn. apply negb_true_iff in Hn. exact (normal_block a l c x Hw Hx Hn). }
    destruct (w_page _ _ Hw1 c pg Hm) as (P1 & P2 & P3 & P4 & P5).
    eexists. split; [reflexivity |]. split; [| split; [exact Es | split; [reflexivity |]]].
    + exists (c :: l'). split; [| split; [| apply owns_nil]].
      * apply (wf_ext (put a1 c (Page.reuse c pg))); auto. apply (wf_put _ _ c pg); auto. simpl. lia.
      * unfold cursor. arena_simpl. split; [apply list_elem_of_here |]. split; [exact Ht |].
        apply (w_limit _ _ Hw1 c pg Hm). now rewrite Es.
    + intros q [= <-]. exists (Page.reuse c pg). arena_simpl. rewrite lookup_insert_eq. split; [reflexivity |].
      split; [reflexivity |]. unfold Page.remain. simpl. unfold Page.buf_. lia.
Qed.

Lemma reuse_ok a live : inv a live -> exists a', reuse a = Some a' /\ inv a' [] /\ page_size_ a' = page_size_ a.
Proof. intros (l & Hw & _ & _). destruct (reuse_spec a l Hw) as (a' & Hr & Hi & Hs & _). eauto. Qed.

(** The first block on an empty page starts behind the page's members and the
    padding, whatever was there before. *)
Lemma first_block `{PageAllocator} a c pg sz : cur_page_ a = Some c -> mem_ a !! c = Some pg -> Page.alloc_end_ pg = Page.buf_ c ->
  c mod 16 = 0 -> 0 < sz -> sz + 16 <= Page.remain pg -> Page.remain pg = page_size_ a - Page.sizeof -> page_size_ a < 2 ^ 62 ->
  exists a', alloc_aligned a sz 16 = Some (Some (Page.buf_ c + 16), a').
Proof.
  intros Hc Hm He H16 Hsz Hfit Hrem Hmax. unfold alloc_aligned, alloc_in, ensure_cur_page.
  rewrite !uwrap64_small by (unfold Page.sizeof, W64 in *; lia). rewrite (proj2 (Z.leb_le _ _)) by lia. rewrite Hc.
  cbn [mbind option_bind]. rewrite Hc, (proj2 (Z.ltb_lt 0 sz)) by lia. rewrite Hm. cbn [mbind option_bind]. unfold aligned_common.
  assert (get_align_offset (Page.alloc_end_ pg) 16 = 16) as ->.
  { unfold get_align_offset. rewrite He. change (16 - 1) with (Z.ones 4). rewrite Z.land_ones by lia.
    rewrite (buf_aligned 4 c) by (auto; lia). reflexivity. }
  rewrite (proj2 (Z.leb_le _ _)) by lia. destruct (page_alloc_carves pg (sz + 16)) as [-> _]; [lia | lia |].
  cbn [default mbind option_bind]. rewrite He. eexists. reflexivity.
Qed.
End ArenaFree.
