(* ===== verification/ArenaTheorems.v ===== *)
(** The properties of [PageArena]: a client's view of the arena as a state machine,
    the safety of the blocks it hands out and that requests are served, and what
    some of its operations do not do. *)
From S2P Require Import Prelude Arena ArenaFacts ArenaSteps.
Import PageArena ArenaFacts ArenaSteps ArenaFree.

(** ** A client *)
Module ArenaClient.

(** The calls of a client.  Alignments are powers of two up to that of the pages. *)
Inductive op :=
| Alloc (sz : Z)
| AllocAligned (sz k : Z)
| Realloc (p oldsz newsz : Z)
| Reuse
| Free
| FreeRemainOnePage.

Section Machine.
Context `{PageAllocator}.

Definition void (o : option t) : option (option Z * t) := a ← o; Some (None, a).
Definition step (a : t) (o : op) : option (option Z * t) :=
  match o with
  | Alloc sz => alloc a sz
  | AllocAligned sz k => alloc_aligned a sz (2 ^ k)
  | Realloc p oldsz newsz => realloc a p oldsz newsz
  | Reuse => void (reuse a)
  | Free => void (free a)
  | FreeRemainOnePage => void (free_remain_one_page a)
  end.

(** What a client may ask, with these blocks in use: blocks of some size, and to
    resize a block it has. *)
Definition size_ok (sz : Z) : Prop := 0 < sz < 2 ^ 62.
Definition legal (live : list block) (o : op) : Prop :=
  match o with
  | Alloc sz => size_ok sz
  | AllocAligned sz k => size_ok sz /\ 0 <= k <= 4
  | Realloc p oldsz newsz => (p, oldsz) ∈ live /\ size_ok newsz
  | _ => True
  end.
(** The blocks in use after the call. *)
Definition taken (live : list block) (o : op) (r : option Z) : list block :=
  match o, r with
  | (Alloc sz | AllocAligned sz _), Some s => (s, sz) :: live
  | (Alloc _ | AllocAligned _ _), None => live
  | Realloc p oldsz newsz, Some s => (s, newsz) :: remove_one (p, oldsz) live
  | Realloc _ _ _, None => live
  | _, _ => []
  end.

Inductive reach (page_size : Z) : t -> list block -> Prop :=
| reach_new : reach page_size (new page_size) []
| reach_step a live o r a' :
    reach page_size a live -> legal live o -> step a o = Some (r, a') -> reach page_size a' (taken live o r).

(** The calls of a list one after the other, as long as they are legal. *)
#[global] Instance legal_dec live o : Decision (legal live o).
Proof. destruct o; cbn [legal]; unfold size_ok; apply _. Defined.
Fixpoint run (a : t) (live : list block) (os : list op) : option (t * list block) :=
  match os with
  | [] => Some (a, live)
  | o :: os' => if decide (legal live o) then '(r, a) ← step a o; run a (taken live o r) os' else None
  end.

Lemma run_reach page_size os : forall a live a' live', reach page_size a live -> run a live os = Some (a', live') ->
  reach page_size a' live'.
Proof.
  induction os as [| o os IH]; intros a live a' live' Hr Hrun; cbn [run] in Hrun; [now injection Hrun as <- <- |].
  destruct (decide (legal live o)) as [Hl |]; [| discriminate]. destruct (step a o) as [[r a1] |] eqn:Es; [| discriminate].
  cbn in Hrun. apply (IH a1 (taken live o r)); [| exact Hrun]. exact (reach_step page_size a live o r a1 Hr Hl Es).
Qed.

Context `{!PageAllocatorLaws}.

(** A legal call returns, and keeps the invariant. *)
Lemma step_ok a live o : inv a live -> legal live o -> exists r a', step a o = Some (r, a') /\ inv a' (taken live o r).
Proof.
  intros Hi Hl. destruct o as [sz | sz k | p oldsz newsz | | |]; cbn [step legal taken] in *.
  - destruct (alloc_served a live sz Hi Hl) as (r & a' & -> & Ha & _). exists r, a'. split; [reflexivity |].
    destruct r; [apply Ha | exact Ha].
  - destruct (alloc_aligned_served a live sz k Hi (proj1 Hl) (proj2 Hl)) as (r & a' & -> & Ha & _). exists r, a'. split; [reflexivity |].
    destruct r; [apply Ha | exact Ha].
  - destruct Hl as [Hin Hn]. pose proof (inv_perm a live _ Hi (symmetry (remove_one_perm _ _ Hin))) as Hi'.
    destruct (realloc_served a (remove_one (p, oldsz) live) p oldsz newsz Hi' Hn) as (r & a' & -> & _ & Ha). exists r, a'.
    split; [reflexivity |]. destruct r; [exact Ha |]. apply (inv_perm _ _ _ Ha). now apply remove_one_perm.
  - destruct (reuse_ok a live Hi) as (a' & -> & Ha & _). cbn. eauto.
  - destruct (free_ok a live Hi) as (a' & -> & Ha & _). cbn. eauto.
  - destruct (remain_ok a live Hi) as (a' & -> & Ha & _). cbn. eauto.
Qed.

Lemma reach_inv page_size a live : Page.sizeof <= page_size < 2 ^ 62 -> reach page_size a live -> inv a live.
Proof.
  intros Hs. induction 1 as [| a live o r a' _ IH Hl Hst]; [now apply new_inv |].
  destruct (step_ok a live o IH Hl) as (r' & a'' & Hst' & Hi). rewrite Hst in Hst'. now injection Hst' as <- <-.
Qed.
End Machine.
End ArenaClient.
Import ArenaClient.

(** ** The properties *)
Section Properties.
Context `{PageAllocatorLaws}.

(** C11. The blocks of a page arena do not overlap.  In every state a client reaches
    from a new arena with [alloc], [alloc_aligned], [realloc] of a block it has,
    [reuse], [free] and [free_remain_one_page], the blocks in use (those handed out
    since all were last given back) are pairwise disjoint and each lies in one page,
    behind its members and in the part that was handed out; the pages are disjoint,
    [pages_] is their number, and [free] gives all of them back, so that no page is
    lost; and every further legal call returns: no loop runs on, no pointer to a page
    given back is used, and no [abort_unless] fails. *)
Theorem arena_blocks_disjoint page_size a live :
  Page.sizeof <= page_size < 2 ^ 62 -> reach page_size a live ->
  ForallOrdPairs disjoint live
  /\ (forall s n, (s, n) ∈ live -> 0 < n /\ exists q pg, mem_ a !! q = Some pg
        /\ Page.buf_ q <= s /\ s + n <= Page.alloc_end_ pg <= q + Page.block_ pg)
  /\ (forall q q' pg pg', q <> q' -> mem_ a !! q = Some pg -> mem_ a !! q' = Some pg' ->
        disjoint (q, Page.block_ pg) (q', Page.block_ pg'))
  /\ pages_ a = Z.of_nat (size (mem_ a)) /\ (exists a', free a = Some a' /\ mem_ a' = ∅)
  /\ (forall o, legal live o -> exists r a', step a o = Some (r, a')).
Proof.
  intros Hs Hr. pose proof (reach_inv page_size a live Hs Hr) as Hi. pose proof Hi as (l & Hw & _ & [Hin Hd]). split; [exact Hd |]. split.
  { intros s n Hx. destruct (Hin _ Hx) as (Hn & q & pg & Hq & _ & Hb & He). destruct (w_page a l Hw q pg Hq) as (_ & _ & Ha & Hpe & _).
    split; [exact Hn |]. exists q, pg. simpl in *. repeat split; try assumption; lia. }
  split; [intros q q' pg pg' Hne Hq Hq'; exact (w_block a l Hw q q' pg pg' Hne Hq Hq') |].
  split; [rewrite (length_pages a l Hw); apply Hw |]. split; [destruct (free_ok a live Hi) as (a' & ? & _ & ? & _); eauto |]. intros o Ho. destruct (step_ok a live o Hi Ho) as (r & a' & E & _). eauto.
Qed.

(** C12. Requests are served.  In every state a client reaches, while the allocator of
    the pages has memory, [alloc] and [alloc_aligned] return a block, and that of
    [alloc_aligned] has the alignment asked for (up to that of the pages): from the
    current page, from a page kept by an earlier [reuse], from a new page, or as a
    page of its own when it is too large for one. *)
Theorem arena_requests_served page_size a live sz k :
  Page.sizeof <= page_size < 2 ^ 62 -> reach page_size a live -> (forall m n, 0 < n -> page_alloc m n <> None) ->
  size_ok sz -> 0 <= k <= 4 ->
  (exists s a', alloc a sz = Some (Some s, a'))
  /\ exists s a', alloc_aligned a sz (2 ^ k) = Some (Some s, a') /\ s mod 2 ^ k = 0.
Proof.
  intros Hs Hr Hmem Hsz Hk. pose proof (reach_inv page_size a live Hs Hr) as Hi.
  assert (~ refused) as Hno by (intros (m & n & Hn & E); exact (Hmem m n Hn E)). split.
  - destruct (alloc_served a live sz Hi Hsz) as (r & a' & -> & _ & Hnull). destruct r as [s |]; [eauto | now destruct Hno; apply Hnull].
  - destruct (alloc_aligned_served a live sz k Hi Hsz Hk) as (r & a' & -> & Ha & Hnull).
    destruct r as [s |]; [| now destruct Hno; apply Hnull]. destruct Ha as [_ [Hal | Href]]; [eauto | contradiction].
Qed.
End Properties.

(** ** A concrete arena *)
Section Witness.

(** Blocks one behind the other, at multiples of 16. *)
Definition top (m : gmap Z Page.t) : Z := map_fold (fun q pg acc => Z.max acc (q + Page.block_ pg)) 0 m.
Definition bump : PageAllocator := fun m _ => Some (16 * (top m / 16 + 1)).

Lemma top_spec m : 0 <= top m /\ forall q pg, m !! q = Some pg -> q + Page.block_ pg <= top m.
Proof.
  unfold top. apply (map_fold_weak_ind (fun r m => 0 <= r /\ forall q pg, m !! q = Some pg -> q + Page.block_ pg <= r)).
  - split; [lia |]. intros q pg Hq. now rewrite lookup_empty in Hq.
  - intros q pg m' r Hq [Hr IH]. split; [lia |]. intros q' pg' Hq'. destruct (decide (q' = q)) as [-> | Hne].
    + rewrite lookup_insert_eq in Hq'. injection Hq' as <-. lia.
    + rewrite lookup_insert_ne in Hq' by auto. specialize (IH q' pg' Hq'). lia.
Qed.

Lemma bump_laws : PageAllocatorLaws (H := bump).
Proof.
  split.
  - intros m sz p [= <-] _. pose proof (top_spec m) as [Ht _]. assert (0 <= top m / 16) by (apply Z.div_pos; lia).
    split; [lia |]. rewrite Z.mul_comm. apply Z.mod_mul. lia.
  - intros m sz p q pg [= <-] _ Hq. right. pose proof (proj2 (top_spec m) q pg Hq). pose proof (Z.mul_succ_div_gt (top m) 16). lia.
Qed.

(** A small block, one larger than a page, and a third; the third is
    resized in place and the first is moved. *)
Definition demo_ops : list op := [Alloc 10; AllocAligned 200 4; Alloc 20; Realloc 58 20 25; Realloc 48 10 30].
Definition demo_run : option (t * list block) := run (H := bump) (new 128) [] demo_ops.
Definition demo_arena : t := default (new 128) (fst <$> demo_run).
Definition demo_live : list block := [(83, 30); (58, 25); (192, 200)].

Lemma demo_reach : reach (H := bump) 128 demo_arena demo_live.
Proof. apply (run_reach (H := bump) 128 demo_ops (new 128) []); [apply reach_new | vm_compute; reflexivity]. Qed.

Lemma arena_blocks_disjoint_witness :
  Page.sizeof <= 128 < 2 ^ 62 /\ ForallOrdPairs disjoint demo_live /\ pages_ demo_arena = 2
  /\ exists r a', step (H := bump) demo_arena Reuse = Some (r, a').
Proof.
  assert (Page.sizeof <= 128 < 2 ^ 62) as Hs by (unfold Page.sizeof; lia). split; [exact Hs |].
  destruct (arena_blocks_disjoint (H0 := bump_laws) 128 demo_arena demo_live Hs demo_reach) as (Hd & _ & _ & Hp & _ & Hst).
  split; [exact Hd |]. split; [exact Hp |]. exact (Hst Reuse I).
Defined.

Lemma arena_requests_served_witness :
  exists s a', alloc_aligned (H := bump) demo_arena 100 8 = Some (Some s, a') /\ s mod 8 = 0.
Proof.
  assert (Page.sizeof <= 128 < 2 ^ 62) as Hs by (unfold Page.sizeof; lia).
  exact (proj2 (arena_requests_served (H0 := bump_laws) 128 demo_arena demo_live 100 3 Hs demo_reach
    ltac:(intros m n _; discriminate) ltac:(unfold size_ok; lia) ltac:(lia))).
Defined.

(** ** What some operations do not do *)
#[local] Existing Instance bump.

(** When the first page after [free] is a large one, [fast_reuse] makes it the
    current page with [tailer_] null: the next page is not linked, and [free] does
    not give it back. *)
Example fast_reuse_loses_a_page :
  ('(_, a) ← alloc (new 128) 10; a ← free a; '(_, a) ← alloc a 200; a ← fast_reuse a;
   '(_, a) ← alloc a 90; '(_, a) ← alloc a 90; '(_, a) ← alloc a 90; a ← free a;
   Some (pages_ a, size (mem_ a))) = Some (0, 1%nat).
Proof. vm_compute. reflexivity. Qed.

(** [revert_tracer] restores the counters but not the current page: a block taken
    since [set_tracer] is not given back. *)
Example revert_keeps_the_page :
  ('(_, a) ← alloc (new 256) 10; '(_, a) ← set_tracer a;
   '(p, b) ← alloc a 20; '(_, b) ← revert_tracer b; '(q, _) ← alloc b 20;
   Some (used_ b =? used_ a, p, q)) = Some (true, Some 122, Some 142).
Proof. vm_compute. reflexivity. Qed.

(** [alloc_aligned_bf] computes the offset for the last page and takes the memory
    from the current one: after a [reuse] its blocks are not aligned. *)
Example best_fit_not_aligned :
  ('(_, a) ← alloc_aligned_bf (new 256) 90 16; '(_, a) ← alloc_aligned_bf a 199 16; a ← reuse a;
   '(p, _) ← alloc_aligned_bf a 7 16; Some p) = Some (Some 57).
Proof. vm_compute. reflexivity. Qed.

(** It returns null while the page it found has room. *)
Example best_fit_null_with_room :
  ('(_, a) ← alloc_aligned_bf (new 256) 90 16; '(_, a) ← alloc_aligned_bf a 150 16;
   '(p, b) ← alloc_aligned_bf a 60 16; pg ← mem_ b !! 16; Some (p, Page.remain pg)) = Some (None, 118).
Proof. vm_compute. reflexivity. Qed.

(** [alloc_down] lowers the end of a page for good: after a [reuse] a block may
    start in front of its page (here at 138, the page at 160). *)
Example alloc_down_before_page :
  ('(_, a) ← alloc_down (new 128) 50; '(_, a) ← alloc_down a 80; a ← reuse a; '(_, a) ← alloc a 40;
   '(p, a) ← alloc_down a 70; Some (p, cur_page_ a)) = Some (Some 138, Some 160).
Proof. vm_compute. reflexivity. Qed.

(** [realloc] returns null in an arena that has large blocks only. *)
Example realloc_large_null : ('(p, a) ← alloc (new 128) 200; '(q, _) ← realloc a 48 200 210; Some (p, q)) = Some (Some 48, None).
Proof. vm_compute. reflexivity. Qed.
End Witness.
