(* ===== verification/FixedArray.v ===== *)
(** [ObFixedArrayImpl] of [deps/oblib/src/lib/container/ob_fixed_array.h]: an
    array whose capacity is fixed by the first [init].

    [data_] is [None] while the pointer is null and otherwise holds the
    [init_cnt_] constructed elements.  Whether a request to the allocator
    succeeds is the parameter [alloc_ok]. *)
From S2P Require Import Prelude.

(** The allocators of the engine: whether a request of so many bytes succeeds. *)
Class Allocator := alloc_ok : Z -> bool.

Module ObFixedArray.

Record t (A : Type) := mk { data_ : option (list A); count_ : Z; capacity_ : Z }.
Arguments mk {A}. Arguments data_ {A}. Arguments count_ {A}. Arguments capacity_ {A}.

Definition UINT32_MAX : Z := 2 ^ 32 - 1.
Definition sizeof_ptr : Z := 8.

Section Ops.
Context `{Allocator} {A : Type}.
Implicit Type a : t A.

(** The constructor: null data, no capacity. *)
Definition empty : t A := mk None 0 0.

Definition init_cnt_ a : Z := Z.of_nat (length (default [] (data_ a))).

Definition init a (capacity : Z) : Z * t A :=
  if (capacity <? 0) || (UINT32_MAX <? capacity) then (OB_INVALID_ARGUMENT, a)
  else match data_ a with
  | Some _ => (OB_INIT_TWICE, a)
  | None =>
      if capacity =? 0 then (OB_SUCCESS, a)
      else
        let real_capacity := if capacity_ a =? 0 then capacity else capacity_ a in
        if alloc_ok (real_capacity * sizeof_ptr)
        then (OB_SUCCESS, mk (Some []) 0 real_capacity)
        else (OB_ALLOCATE_MEMORY_FAILED, a)
  end.

Definition reserve a (capacity : Z) : Z * t A :=
  let '(ret, a) :=
    if (capacity <? 0) || (UINT32_MAX <? capacity) then (OB_INVALID_ARGUMENT, a)
    else match data_ a with
    | None => init a capacity
    | Some _ => (OB_SUCCESS, a)
    end in
  if OB_SUCC ret && (capacity_ a <? capacity) then (OB_SIZE_OVERFLOW, a) else (ret, a).

Definition push_back a (obj : A) : Z * t A :=
  let '(ret, a) :=
    match data_ a with
    | None => if 0 <? capacity_ a then reserve a (capacity_ a) else (OB_NOT_INIT, a)
    | Some _ => if capacity_ a <=? count_ a then (OB_SIZE_OVERFLOW, a) else (OB_SUCCESS, a)
    end in
  if OB_SUCC ret then
    let d := default [] (data_ a) in
    if init_cnt_ a <=? count_ a
    then (ret, mk (Some (d ++ [obj])) (count_ a + 1) (capacity_ a))
    else (ret, mk (Some (<[Z.to_nat (count_ a) := obj]> d)) (count_ a + 1) (capacity_ a))
  else (ret, a).

(** [pop_back(T &obj)]. *)
Definition pop_back a : Z * option A * t A :=
  if count_ a <=? 0 then (OB_ENTRY_NOT_EXIST, None, a)
  else (OB_SUCCESS, default [] (data_ a) !! Z.to_nat (count_ a - 1),
        mk (data_ a) (count_ a - 1) (capacity_ a)).

(** [at(idx, obj)], and the reference [at(idx)] where it is in range. *)
Definition at_ a (idx : Z) : Z * option A :=
  if (idx <? 0) || (count_ a <=? idx) then (OB_ARRAY_OUT_OF_RANGE, None)
  else (OB_SUCCESS, default [] (data_ a) !! Z.to_nat idx).

(** [destroy]; [reset] and [reuse] call it. *)
Definition destroy a : t A := mk None 0 0.
Definition clear a : t A := mk (data_ a) 0 (capacity_ a).

Fixpoint push_all a (xs : list A) : Z * t A :=
  match xs with
  | [] => (OB_SUCCESS, a)
  | x :: xs' => let '(ret, a) := push_back a x in
                if OB_SUCC ret then push_all a xs' else (ret, a)
  end.

(** [assign(other)], for another array with the elements [xs]. *)
Definition assign a (xs : list A) : Z * t A :=
  let '(ret, a) :=
    match data_ a with
    | None => if 0 <? Z.of_nat (length xs) then init a (Z.of_nat (length xs))
              else (OB_SUCCESS, clear a)
    | Some _ => (OB_SUCCESS, clear a)
    end in
  if OB_SUCC ret then push_all a xs else (ret, a).

(** The elements a client sees: the first [count_]. *)
Definition elems a : list A := take (Z.to_nat (count_ a)) (default [] (data_ a)).

(** ** The invariant and the operations *)

Definition wf a : Prop :=
  0 <= count_ a <= init_cnt_ a /\ (data_ a <> None -> init_cnt_ a <= capacity_ a).

Lemma wf_empty : wf empty.
Proof. unfold wf, init_cnt_. simpl. split; [lia | intros []; reflexivity]. Qed.

(** [push_back] into an array with room appends and keeps the invariant;
    into a full one it fails with [OB_SIZE_OVERFLOW] and changes nothing. *)
Lemma push_back_spec a x :
  wf a -> data_ a <> None ->
  if count_ a <? capacity_ a
  then exists a', push_back a x = (OB_SUCCESS, a') /\ wf a' /\ data_ a' <> None
         /\ elems a' = elems a ++ [x] /\ capacity_ a' = capacity_ a /\ count_ a' = count_ a + 1
  else push_back a x = (OB_SIZE_OVERFLOW, a).
Proof.
  intros [Hc Hcap] Hd. specialize (Hcap Hd). unfold push_back, wf, elems, init_cnt_ in *.
  destruct (data_ a) as [d |] eqn:E; [| contradiction]. simpl in *.
  destruct (Z.ltb_spec (count_ a) (capacity_ a)), (Z.leb_spec (capacity_ a) (count_ a)); try lia;
    [| reflexivity].
  rewrite E. simpl. destruct (Z.leb_spec (Z.of_nat (length d)) (count_ a)).
  - eexists. split; [reflexivity |]. simpl. rewrite !length_app. simpl.
    split; [split; [lia | intros _; lia] |]. split; [discriminate |].
    split; [| split; reflexivity].
    rewrite take_ge by (rewrite length_app; simpl; lia). rewrite take_ge by lia. reflexivity.
  - eexists. split; [reflexivity |]. simpl. rewrite !length_insert.
    split; [split; [lia | intros _; lia] |]. split; [discriminate |].
    split; [| split; reflexivity].
    replace (Z.to_nat (count_ a + 1)) with (S (Z.to_nat (count_ a))) by lia.
    rewrite (take_S_r _ _ x) by (apply list_lookup_insert_eq; lia).
    now rewrite take_insert_ge by lia.
Qed.

Lemma push_all_spec a xs :
  wf a -> data_ a <> None -> count_ a + Z.of_nat (length xs) <= capacity_ a ->
  exists a', push_all a xs = (OB_SUCCESS, a') /\ wf a' /\ elems a' = elems a ++ xs
    /\ capacity_ a' = capacity_ a /\ data_ a' <> None.
Proof.
  revert a. induction xs as [| x xs IH]; intros a Hw Hd Hc; simpl in *.
  - exists a. rewrite app_nil_r. auto.
  - pose proof (push_back_spec a x Hw Hd) as Hp.
    destruct (Z.ltb_spec (count_ a) (capacity_ a)); [| lia].
    destruct Hp as (a1 & -> & Hw1 & Hd1 & He1 & Hcap1 & Hc1). simpl.
    destruct (IH a1 Hw1 Hd1 ltac:(lia)) as (a' & -> & Hw' & He' & Hcap' & Hd').
    exists a'. split; [reflexivity |]. split; [exact Hw' |].
    rewrite He', He1, <- app_assoc. split; [reflexivity |]. split; [congruence | exact Hd'].
Qed.

Lemma elems_count a : wf a -> Z.of_nat (length (elems a)) = count_ a.
Proof. intros [Hc _]. unfold elems, init_cnt_ in *. rewrite length_take. lia. Qed.

(** A fresh array, once initialised, takes as many elements as it was
    initialised for. *)
Lemma init_push_all n xs :
  (forall k, alloc_ok k = true) -> Z.of_nat (length xs) = n -> 0 <= n <= UINT32_MAX ->
  exists a', push_all (init empty n).2 xs = (OB_SUCCESS, a') /\ wf a' /\ elems a' = xs
    /\ capacity_ a' = n.
Proof.
  intros Ha Hn Hr. unfold init.
  destruct (Z.ltb_spec n 0), (Z.ltb_spec UINT32_MAX n); try lia. simpl orb. cbn iota.
  simpl data_. destruct (Z.eqb_spec n 0).
  - destruct xs; [| simpl in *; lia]. exists empty. split; [reflexivity |].
    split; [apply wf_empty |]. split; [reflexivity | simpl; lia].
  - rewrite Ha. simpl snd. simpl capacity_.
    destruct (push_all_spec (mk (Some []) 0 n) xs) as (a' & E & Hw & He & Hc & _).
    + unfold wf, init_cnt_. simpl. split; [lia | intros _; lia].
    + discriminate.
    + simpl. lia.
    + exists a'. split; [exact E |]. split; [exact Hw |]. split; [now rewrite He | exact Hc].
Qed.
End Ops.
End ObFixedArray.
