(* ===== verification/HashArray.v ===== *)
(** [ObPointerHashArray] of [deps/oblib/src/lib/hash/ob_pointer_hashmap.h]: a
    hash table of pointers in one array, with linear probing and a mark for
    erased cells.

    A cell is the null pointer ([Empty]), the pointer [-1] ([Erased]) or a
    pointer to an entry, represented by the entry.  The key of an entry and the
    hash of a key are the parameters [get_key_] and [do_hash] of the template. *)
From S2P Require Import Prelude.

Definition OB_HASH_FULL : Z := -4206.

(** The template parameters: [GetKey] and the hash of a key, a [uint64_t]. *)
Class PointerKey (K V : Type) := mkPointerKey
  { get_key_ : V -> K; do_hash : K -> Z; do_hash_pos : forall k, 0 <= do_hash k }.

Inductive Cell (V : Type) := Empty | Erased | Val (v : V).
Arguments Empty {V}. Arguments Erased {V}. Arguments Val {V}.

Definition is_empty_cell {V} (c : Cell V) : bool := match c with Empty => true | _ => false end.
Definition is_erased_cell {V} (c : Cell V) : bool := match c with Erased => true | _ => false end.
Definition is_val_cell {V} (c : Cell V) : bool := match c with Val _ => true | _ => false end.

Module ObPointerHashArray.

(** [capacity_] is the length of [cells_]. *)
Record t (V : Type) := mk { cells_ : list (Cell V); max_entries_ : Z; count_ : Z; item_count_ : Z }.
Arguments mk {V}. Arguments cells_ {V}. Arguments max_entries_ {V}. Arguments count_ {V}. Arguments item_count_ {V}.

Definition next_pow2 (x : Z) : Z := if 1 <? x then 2 ^ (Z.log2 (x - 1) + 1) else 1.

(** [(double)capacity * 0.7], truncated.  The factor is the double [M * 2^-53];
    the exact product is rounded to 53 bits, ties to even. *)
Definition M_0_7 : Z := 6305039478318694.
Definition round53 (p : Z) : Z :=
  let s := Z.log2 p + 1 - 53 in
  if s <=? 0 then p
  else
    let q := Z.shiftr p s in
    let r := p - Z.shiftl q s in
    let half := 2 ^ (s - 1) in
    Z.shiftl (if (half <? r) || ((half =? r) && Z.odd q) then q + 1 else q) s.
Definition load_limit (capacity : Z) : Z := Z.shiftr (round53 (capacity * M_0_7)) 53.

Definition sizeof_hash_array : Z := 64.

Section Ops.
Context {K V : Type} `{EqDecision K} `{PointerKey K V}.
Implicit Type a : t V.

(** The constructor, on [array_mem_size] bytes. *)
Definition create (array_mem_size : Z) : t V :=
  let capacity := (array_mem_size - sizeof_hash_array) / 8 in
  mk (replicate (Z.to_nat capacity) Empty) (load_limit capacity) 0 0.

Definition capacity_ a : nat := length (cells_ a).
Definition anchor_mask_ a : Z := next_pow2 (Z.of_nat (capacity_ a)) - 1.
Definition is_full a : bool := max_entries_ a <=? count_ a.

Definition key_to_anchor_idx a (k : K) : nat :=
  let probe := Z.land (do_hash k) (anchor_mask_ a) in
  Z.to_nat (if probe <? Z.of_nat (capacity_ a) then probe else do_hash k mod Z.of_nat (capacity_ a)).

Definition probe_next a (idx : nat) : nat :=
  if decide (idx + 1 < capacity_ a)%nat then (idx + 1)%nat else (idx + 1 - capacity_ a)%nat.

(** The probing of [placement_hash_search], at most [n] cells from [i]. *)
Fixpoint search_loop (n : nat) a (k : K) (i : nat) : option (Z * option nat) :=
  match n with
  | O => Some (OB_HASH_NOT_EXIST, None)
  | S n' =>
      c ← cells_ a !! i;
      match c with
      | Empty => Some (OB_HASH_NOT_EXIST, None)
      | Erased => search_loop n' a k (probe_next a i)
      | Val v => if decide (get_key_ v = k) then Some (OB_SUCCESS, Some i)
                 else search_loop n' a k (probe_next a i)
      end
  end.

Definition placement_hash_search a (k : K) : option (Z * option nat) :=
  if item_count_ a <=? 0 then Some (OB_HASH_NOT_EXIST, None)
  else search_loop (capacity_ a) a k (key_to_anchor_idx a k).

(** The probing of [placement_hash_find_set_pos]; [pos] is the first erased cell
    seen so far.  The result is the code, the position and [exist]. *)
Fixpoint find_loop (n : nat) a (k : K) (overwrite : bool) (i : nat) (pos : option nat)
    : option (Z * option nat * bool) :=
  match n with
  | O => Some (OB_HASH_FULL, pos, false)
  | S n' =>
      let first := match pos with None => Some i | _ => pos end in
      c ← cells_ a !! i;
      match c with
      | Empty => Some (OB_SUCCESS, first, false)
      | Erased => find_loop n' a k overwrite (probe_next a i) first
      | Val v => if decide (get_key_ v = k)
                 then Some (if overwrite then OB_SUCCESS else OB_HASH_EXIST, Some i, true)
                 else find_loop n' a k overwrite (probe_next a i) pos
      end
  end.

Definition placement_hash_find_set_pos a (k : K) (overwrite : bool) : option (Z * option nat * bool) :=
  find_loop (capacity_ a) a k overwrite (key_to_anchor_idx a k) None.

(** The result: the code, [pos], [erased_pos] and [exist]. *)
Definition find_set_pos a (k : K) (value : Cell V) (overwrite : bool)
    : option (Z * option nat * option nat * bool) :=
  '(ret, pos, ex) ← placement_hash_find_set_pos a k overwrite;
  if OB_SUCC ret && negb ex then
    if is_erased_cell value then Some (OB_HASH_NOT_EXIST, pos, None, ex)
    else if is_full a then
      p ← pos; c ← cells_ a !! p;
      Some (OB_HASH_FULL, pos, (if is_erased_cell c then Some p else None), ex)
    else Some (ret, pos, None, ex)
  else Some (ret, pos, None, ex).

Definition set_value a (pos : option nat) (value : Cell V) : option (Z * t V) :=
  match pos with
  | None => Some (OB_INVALID_ARGUMENT, a)
  | Some p =>
      match cells_ a !! p with
      | None => Some (OB_INVALID_ARGUMENT, a)
      | Some c =>
          let '(count, items) :=
            match c with
            | Empty => (count_ a + 1, item_count_ a + 1)
            | Erased => (count_ a, item_count_ a + 1)
            | Val _ => (count_ a, if is_erased_cell value then item_count_ a - 1 else item_count_ a)
            end in
          Some (if count <? items then OB_ERR_UNEXPECTED else OB_SUCCESS,
                mk (<[p := value]> (cells_ a)) (max_entries_ a) count items)
      end
  end.

Definition set_refactored a (k : K) (value : Cell V) (overwrite : bool) : option (Z * t V) :=
  '(ret, pos, erased_pos, ex) ← find_set_pos a k value overwrite;
  if OB_SUCC ret then set_value a pos value else Some (ret, a).

Definition get_refactored a (k : K) : option (Z * option V) :=
  '(ret, pos) ← placement_hash_search a k;
  if OB_SUCC ret then
    p ← pos; c ← cells_ a !! p;
    match c with Val v => Some (OB_SUCCESS, Some v) | _ => None end
  else Some (ret, None).

Definition erase_refactored a (k : K) : option (Z * t V) := set_refactored a k Erased true.

Definition clear a : t V := mk (map (fun _ => Empty) (cells_ a)) (max_entries_ a) 0 0.

(** The entries, in the order of the iterator. *)
Definition values a : list V :=
  omap (fun c => match c with Val v => Some v | _ => None end) (cells_ a).
End Ops.
End ObPointerHashArray.
