(* ===== verification/HashArrayFacts.v ===== *)
(** [ObPointerHashArray] implements a finite map: the probing finds an entry
    exactly when it is there, and setting and erasing change exactly one key. *)
From S2P Require Import Prelude HashArray.

Module HashArrayFacts.
Import ObPointerHashArray.

Section Facts.
Context {K V : Type} `{EqDecision K} `{PointerKey K V}.
Implicit Type a : t V.

(** The number of elements with [P]. *)
Fixpoint cnt {A} (P : A -> bool) (l : list A) : Z :=
  match l with [] => 0 | x :: l' => Z.b2z (P x) + cnt P l' end.
Definition used_cell (c : Cell V) : bool := negb (is_empty_cell c).

(** The map an array stands for. *)
Definition find a (k : K) : option V := head (filter (fun v => get_key_ v = k) (values a)).

(** The cell probed after [d] steps from [i]. *)
Definition at_step a (i d : nat) : nat := (i + d) mod capacity_ a.

Record wf a : Prop := mkWf
  { wf_cap : (0 < capacity_ a)%nat;
    wf_max : max_entries_ a < Z.of_nat (capacity_ a);
    wf_count : count_ a = cnt used_cell (cells_ a);
    wf_items : item_count_ a = cnt is_val_cell (cells_ a);
    wf_room : count_ a <= max_entries_ a;
    wf_chain : forall i v, cells_ a !! i = Some (Val v) ->
      exists d, (d < capacity_ a)%nat /\ i = at_step a (key_to_anchor_idx a (get_key_ v)) d
        /\ forall d', (d' < d)%nat ->
             cells_ a !! at_step a (key_to_anchor_idx a (get_key_ v)) d' <> Some Empty;
    wf_uniq : forall i j v w, cells_ a !! i = Some (Val v) -> cells_ a !! j = Some (Val w) ->
      get_key_ v = get_key_ w -> i = j }.

(** ** Values *)

Lemma elem_of_values a v : v ∈ values a <-> exists i, cells_ a !! i = Some (Val v).
Proof.
  unfold values. rewrite list_elem_of_omap. split.
  - intros (c & Hc & E). apply list_elem_of_lookup in Hc as [i Hi]. exists i. destruct c; congruence.
  - intros [i Hi]. exists (Val v). split; [now apply list_elem_of_lookup_2 in Hi | reflexivity].
Qed.

Lemma length_values a : Z.of_nat (length (values a)) = cnt is_val_cell (cells_ a).
Proof.
  unfold values. induction (cells_ a) as [| [| | v] l IH]; cbn [omap list_omap cnt is_val_cell Z.b2z length]; lia.
Qed.

Lemma find_Some a k v : wf a -> find a k = Some v <-> exists i, cells_ a !! i = Some (Val v) /\ get_key_ v = k.
Proof.
  intros Hw. unfold find. split.
  - intros E. assert (v ∈ filter (fun v => get_key_ v = k) (values a)) as Hin.
    { destruct (filter _ _); [discriminate |]. injection E as <-. left. }
    apply list_elem_of_filter in Hin as [Hk Hv]. apply elem_of_values in Hv as [i Hi]. eauto.
  - intros (i & Hi & Hk).
    destruct (filter (fun v => get_key_ v = k) (values a)) as [| w l] eqn:E.
    + assert (v ∈ filter (fun v => get_key_ v = k) (values a)) as Hin
        by (apply list_elem_of_filter; split; [exact Hk | apply elem_of_values; eauto]).
      rewrite E in Hin. apply elem_of_nil in Hin. contradiction.
    + assert (w ∈ filter (fun v => get_key_ v = k) (values a)) as Hin by (rewrite E; left).
      apply list_elem_of_filter in Hin as [Hkw Hw']. apply elem_of_values in Hw' as [j Hj].
      assert (i = j) as -> by (apply (wf_uniq a Hw i j v w); congruence).
      simpl. congruence.
Qed.

Lemma values_NoDup a : wf a -> NoDup (values a).
Proof.
  intros Hw. unfold values.
  assert (forall i j v, cells_ a !! i = Some (Val v) -> cells_ a !! j = Some (Val v) -> i = j) as Hu
    by (intros i j v Hi Hj; now apply (wf_uniq a Hw i j v v)).
  revert Hu. generalize (cells_ a) as l. induction l as [| c l IH]; intros Hu; [constructor |].
  assert (NoDup (omap (fun c => match c with Val v => Some v | _ => None end) l)) as Hnd.
  { apply IH. intros i j v Hi Hj. assert (S i = S j) by now apply (Hu (S i) (S j) v). lia. }
  destruct c as [| | v]; cbn [omap list_omap]; [exact Hnd | exact Hnd |]. constructor; [| exact Hnd].
  intros Hin. apply list_elem_of_omap in Hin as (c & Hc & E). apply list_elem_of_lookup in Hc as [j Hj].
  destruct c as [| | w]; try discriminate. injection E as ->. now specialize (Hu 0%nat (S j) v eq_refl Hj).
Qed.

Lemma find_None a k : find a k = None <-> forall i v, cells_ a !! i = Some (Val v) -> get_key_ v <> k.
Proof.
  unfold find. split.
  - intros E i v Hi Hk. assert (v ∈ filter (fun v => get_key_ v = k) (values a)) as Hin
      by (apply list_elem_of_filter; split; [exact Hk | apply elem_of_values; eauto]).
    destruct (filter _ _); [now apply elem_of_nil in Hin | discriminate].
  - intros Hn. destruct (filter (fun v => get_key_ v = k) (values a)) as [| w l] eqn:E; [reflexivity |].
    assert (w ∈ filter (fun v => get_key_ v = k) (values a)) as Hin by (rewrite E; left).
    apply list_elem_of_filter in Hin as [Hkw Hw']. apply elem_of_values in Hw' as [j Hj].
    now apply Hn in Hj.
Qed.

(** ** Positions *)

Lemma anchor_lt a k : (0 < capacity_ a)%nat -> (key_to_anchor_idx a k < capacity_ a)%nat.
Proof.
  intros Hc. unfold key_to_anchor_idx. pose proof (do_hash_pos (V := V) k).
  pose proof (Z.mod_pos_bound (do_hash (V := V) k) (Z.of_nat (capacity_ a)) ltac:(lia)).
  assert (0 <= anchor_mask_ a).
  { unfold anchor_mask_, next_pow2. destruct (1 <? _); [| lia].
    pose proof (Z.log2_nonneg (Z.of_nat (capacity_ a) - 1)).
    pose proof (Z.pow_pos_nonneg 2 (Z.log2 (Z.of_nat (capacity_ a) - 1) + 1) ltac:(lia) ltac:(lia)). lia. }
  assert (0 <= Z.land (do_hash (V := V) k) (anchor_mask_ a)) by (apply Z.land_nonneg; auto).
  destruct (Z.ltb_spec (Z.land (do_hash (V := V) k) (anchor_mask_ a)) (Z.of_nat (capacity_ a))); lia.
Qed.

Lemma at_step_lt a i d : (0 < capacity_ a)%nat -> (at_step a i d < capacity_ a)%nat.
Proof. intros Hc. apply Nat.mod_upper_bound. lia. Qed.

Lemma at_step_0 a i : (i < capacity_ a)%nat -> at_step a i 0 = i.
Proof. intros Hi. unfold at_step. rewrite Nat.add_0_r. now apply Nat.mod_small. Qed.

Lemma probe_next_step a i : (i < capacity_ a)%nat -> probe_next a i = at_step a i 1.
Proof.
  intros Hi. unfold probe_next, at_step. destruct (decide (i + 1 < capacity_ a)%nat) as [Hl | Hl].
  - now rewrite Nat.mod_small.
  - assert (i + 1 = capacity_ a)%nat as -> by lia. rewrite Nat.Div0.mod_same. lia.
Qed.

Lemma at_step_next a i d :
  (i < capacity_ a)%nat -> at_step a (probe_next a i) d = at_step a i (S d).
Proof.
  intros Hi. rewrite probe_next_step by exact Hi. unfold at_step.
  rewrite Nat.Div0.add_mod_idemp_l. f_equal. lia.
Qed.

Lemma probe_next_lt a i : (i < capacity_ a)%nat -> (probe_next a i < capacity_ a)%nat.
Proof. intros Hi. rewrite probe_next_step by exact Hi. apply at_step_lt. lia. Qed.

(** Every cell is reached from every start. *)
Lemma at_step_reach a i p : (i < capacity_ a)%nat -> (p < capacity_ a)%nat ->
  exists d, (d < capacity_ a)%nat /\ p = at_step a i d.
Proof.
  intros Hi Hp. destruct (decide (i <= p)%nat) as [Hle | Hgt].
  - exists (p - i)%nat. split; [lia |]. unfold at_step. rewrite Nat.mod_small; lia.
  - exists (p + capacity_ a - i)%nat. split; [lia |]. unfold at_step.
    replace (i + (p + capacity_ a - i))%nat with (p + 1 * capacity_ a)%nat by lia.
    rewrite Nat.Div0.mod_add. now rewrite Nat.mod_small.
Qed.

(** ** Probing *)

(** The probe for [k] goes on at a cell that is erased or holds another key. *)
Definition passes a (k : K) (p : nat) : Prop :=
  exists c, cells_ a !! p = Some c /\ c <> Empty /\ forall v, c = Val v -> get_key_ v <> k.

Lemma search_at n : forall a k i d c,
  (i < capacity_ a)%nat -> (d < n)%nat -> (forall d', (d' < d)%nat -> passes a k (at_step a i d')) ->
  cells_ a !! at_step a i d = Some c ->
  (c = Empty -> search_loop n a k i = Some (OB_HASH_NOT_EXIST, None))
  /\ (forall v, c = Val v -> get_key_ v = k -> search_loop n a k i = Some (OB_SUCCESS, Some (at_step a i d))).
Proof.
  induction n as [| n IH]; intros a k i d c Hi Hd Hp Hc; [lia |]. cbn [search_loop]. destruct d as [| d].
  - rewrite at_step_0 in * by exact Hi. rewrite Hc. cbn [mbind option_bind].
    split; [intros ->; reflexivity |]. intros v -> Hk. now rewrite decide_True.
  - destruct (Hp 0%nat ltac:(lia)) as (c0 & Hc0 & Hne & Hk0). rewrite at_step_0 in Hc0 by exact Hi.
    rewrite Hc0. cbn [mbind option_bind].
    destruct (IH a k (probe_next a i) d c) as [H1 H2].
    + now apply probe_next_lt.
    + lia.
    + intros d' Hd'. rewrite at_step_next by exact Hi. apply Hp. lia.
    + now rewrite at_step_next by exact Hi.
    + rewrite at_step_next in H2 by exact Hi. destruct c0 as [| | v0]; [congruence | auto |].
      rewrite decide_False by (now apply Hk0). auto.
Qed.

Lemma array_find_at n : forall a k ow i d c pos,
  (i < capacity_ a)%nat -> (d < n)%nat -> (forall d', (d' < d)%nat -> passes a k (at_step a i d')) ->
  cells_ a !! at_step a i d = Some c ->
  (c = Empty -> exists p, find_loop n a k ow i pos = Some (OB_SUCCESS, Some p, false)
     /\ (pos = Some p \/ pos = None /\ exists d0, (d0 <= d)%nat /\ p = at_step a i d0
           /\ (cells_ a !! p = Some Erased \/ d0 = d)))
  /\ (forall v, c = Val v -> get_key_ v = k ->
        find_loop n a k ow i pos
        = Some (if ow then OB_SUCCESS else OB_HASH_EXIST, Some (at_step a i d), true)).
Proof.
  induction n as [| n IH]; intros a k ow i d c pos Hi Hd Hp Hc; [lia |]. cbn [find_loop]. destruct d as [| d].
  - rewrite at_step_0 in * by exact Hi. rewrite Hc. cbn [mbind option_bind]. split.
    + intros ->. destruct pos as [p |]; [exists p; auto |]. exists i. split; [reflexivity |]. right.
      split; [reflexivity |]. exists 0%nat. rewrite at_step_0 by exact Hi. auto.
    + intros v -> Hk. now rewrite decide_True.
  - destruct (Hp 0%nat ltac:(lia)) as (c0 & Hc0 & Hne & Hk0). rewrite at_step_0 in Hc0 by exact Hi.
    rewrite Hc0. cbn [mbind option_bind].
    assert (forall d', (d' < d)%nat -> passes a k (at_step a (probe_next a i) d')) as Hp'
      by (intros d' Hd'; rewrite at_step_next by exact Hi; apply Hp; lia).
    assert (cells_ a !! at_step a (probe_next a i) d = Some c) as Hc' by now rewrite at_step_next by exact Hi.
    pose proof (probe_next_lt a i Hi) as Hi'.
    assert (forall d0, at_step a (probe_next a i) d0 = at_step a i (S d0)) as Hat
      by (intros; now apply at_step_next).
    destruct c0 as [| | v0]; [congruence | |].
    + destruct (IH a k ow (probe_next a i) d c (match pos with None => Some i | _ => pos end) Hi' ltac:(lia) Hp' Hc')
        as [H1 H2]. rewrite Hat in H2. split; [| exact H2]. intros Ec. destruct (H1 Ec) as (p & E & Hpos).
      exists p. split; [exact E |]. destruct pos as [q |].
      * left. destruct Hpos as [Hpos | (Hpos & _)]; [exact Hpos | discriminate].
      * right. split; [reflexivity |]. destruct Hpos as [Hpos | (Hpos & _)]; [| discriminate].
        injection Hpos as <-. exists 0%nat. rewrite at_step_0 by exact Hi. auto with lia.
    + rewrite decide_False by (now apply Hk0).
      destruct (IH a k ow (probe_next a i) d c pos Hi' ltac:(lia) Hp' Hc') as [H1 H2]. rewrite Hat in H2.
      split; [| exact H2]. intros Ec. destruct (H1 Ec) as (p & E & Hpos). exists p. split; [exact E |].
      destruct Hpos as [Hpos | (Hpos & d0 & Hd0 & -> & Hc0')]; [now left |]. right. split; [exact Hpos |].
      exists (S d0). rewrite Hat in *. split; [lia |]. split; [reflexivity |]. intuition lia.
Qed.

(** Some cell is empty, so every probe ends. *)
Lemma some_empty a : wf a -> exists p, cells_ a !! p = Some Empty.
Proof.
  intros Hw. pose proof (wf_count a Hw). pose proof (wf_room a Hw). pose proof (wf_max a Hw).
  unfold capacity_ in *. assert (cnt used_cell (cells_ a) < Z.of_nat (length (cells_ a))) as Hlt by lia.
  clear - Hlt. induction (cells_ a) as [| c l IH]; [simpl in Hlt; lia |].
  destruct c; [exists 0%nat; reflexivity | |]; cbn [cnt used_cell is_empty_cell negb Z.b2z length] in Hlt;
    (destruct IH as [p Hp]; [lia |]; now exists (S p)).
Qed.

(** The first of the steps below [n] that does not pass, if there is one. *)
Lemma first_stop a k i n :
  (forall d, (d < n)%nat -> passes a k (at_step a i d))
  \/ exists d, (d < n)%nat /\ ~ passes a k (at_step a i d)
       /\ forall d', (d' < d)%nat -> passes a k (at_step a i d').
Proof.
  induction n as [| n [IH | (d & Hd & Hs & Hb)]]; [left; lia | |].
  - assert (Decision (passes a k (at_step a i n))) as [Hp | Hp].
    { unfold passes. destruct (cells_ a !! at_step a i n) as [[| | v] |].
      - right. intros (c & Hc & Hne & _). congruence.
      - left. exists Erased. repeat split; discriminate.
      - destruct (decide (get_key_ v = k)) as [Hk | Hk].
        + right. intros (c & Hc & _ & Hn). injection Hc as <-. now apply (Hn v).
        + left. exists (Val v). split; [reflexivity |]. split; [discriminate |]. intros w [= <-]. exact Hk.
      - right. intros (c & Hc & _). discriminate. }
    + left. intros d Hd. destruct (decide (d = n)) as [-> |]; [exact Hp | apply IH; lia].
    + right. exists n. split; [lia |]. split; [exact Hp | exact IH].
  - right. exists d. split; [lia |]. auto.
Qed.

(** Where the probe for [k] stops: at [k]'s entry, or at an empty cell when
    there is none. *)
Lemma probe_outcome a k : wf a ->
  let i := key_to_anchor_idx a k in
  exists d, (d < capacity_ a)%nat /\ (forall d', (d' < d)%nat -> passes a k (at_step a i d'))
    /\ ((cells_ a !! at_step a i d = Some Empty /\ find a k = None)
        \/ exists v, cells_ a !! at_step a i d = Some (Val v) /\ get_key_ v = k /\ find a k = Some v).
Proof.
  intros Hw i. pose proof (wf_cap a Hw) as Hcap. pose proof (anchor_lt a k Hcap) as Hi. fold i in Hi.
  destruct (first_stop a k i (capacity_ a)) as [Hall | (d & Hd & Hstop & Hb)].
  { destruct (some_empty a Hw) as [p Hp].
    destruct (at_step_reach a i p Hi) as (d & Hd & ->); [now apply lookup_lt_Some in Hp |].
    destruct (Hall d Hd) as (c & Hc & Hne & _). congruence. }
  exists d. split; [exact Hd |]. split; [exact Hb |].
  destruct (lookup_lt_is_Some_2 (cells_ a) (at_step a i d)) as [c Hc]; [now apply at_step_lt |].
  destruct c as [| | v]; [left; split; [exact Hc |] | |].
  - apply find_None. intros j w Hj Hkw. destruct (wf_chain a Hw j w Hj) as (e & He & Ej & Hbe).
    rewrite Hkw in Ej, Hbe. fold i in Ej, Hbe. destruct (decide (d < e)%nat) as [Hlt |].
    + now apply (Hbe d).
    + destruct (decide (d = e)) as [-> |]; [rewrite Ej, Hc in Hj; discriminate |].
      destruct (Hb e ltac:(lia)) as (c' & Hc' & _ & Hn). rewrite <- Ej, Hj in Hc'.
      injection Hc' as <-. now apply (Hn w).
  - exfalso. apply Hstop. exists Erased. repeat split; [exact Hc | discriminate | discriminate].
  - right. exists v. destruct (decide (get_key_ v = k)) as [Hk | Hk].
    + split; [exact Hc |]. split; [exact Hk |]. apply find_Some; [exact Hw | eauto].
    + exfalso. apply Hstop. exists (Val v). split; [exact Hc |]. split; [discriminate |].
      intros w [= <-]. exact Hk.
Qed.

(** ** [get_refactored] *)

Lemma array_get_ok a k : wf a ->
  get_refactored a k = match find a k with
                       | Some v => Some (OB_SUCCESS, Some v)
                       | None => Some (OB_HASH_NOT_EXIST, None)
                       end.
Proof.
  intros Hw. unfold get_refactored, placement_hash_search.
  destruct (Z.leb_spec (item_count_ a) 0) as [Hz | Hz].
  { assert (find a k = None) as ->; [| reflexivity]. apply find_None. intros i v Hi.
    rewrite (wf_items a Hw), <- length_values in Hz. assert (v ∈ values a) as Hv by (apply elem_of_values; eauto).
    destruct (values a); [now apply elem_of_nil in Hv | simpl in Hz; lia]. }
  destruct (probe_outcome a k Hw) as (d & Hd & Hb & Hout).
  pose proof (anchor_lt a k (wf_cap a Hw)) as Hi.
  destruct Hout as [[Hc ->] | (v & Hc & Hk & ->)].
  - destruct (search_at (capacity_ a) a k _ d _ Hi Hd Hb Hc) as [H1 _]. now rewrite (H1 eq_refl).
  - destruct (search_at (capacity_ a) a k _ d _ Hi Hd Hb Hc) as [_ H2]. rewrite (H2 v eq_refl Hk).
    cbn [mbind option_bind]. change (OB_SUCC OB_SUCCESS) with true. cbn iota. rewrite Hc. reflexivity.
Qed.

(** ** Changing a cell *)

Lemma cnt_insert {A} (P : A -> bool) (l : list A) p x y :
  l !! p = Some x -> cnt P (<[p := y]> l) = cnt P l - Z.b2z (P x) + Z.b2z (P y).
Proof.
  revert p. induction l as [| z l IH]; intros [| p] Hp; try discriminate.
  - injection Hp as ->. change (<[O := y]> (x :: l)) with (y :: l). cbn [cnt]. lia.
  - change (<[S p := y]> (z :: l)) with (z :: <[p := y]> l). cbn [cnt]. rewrite (IH p Hp). lia.
Qed.

Lemma anchor_same a b k : capacity_ b = capacity_ a -> key_to_anchor_idx b k = key_to_anchor_idx a k.
Proof. intros E. unfold key_to_anchor_idx, anchor_mask_. now rewrite E. Qed.
Lemma at_step_same a b i d : capacity_ b = capacity_ a -> at_step b i d = at_step a i d.
Proof. intros E. unfold at_step. now rewrite E. Qed.

(** The array after writing [x] to cell [p], which held [c]. *)
Definition update a (p : nat) (c x : Cell V) : t V :=
  mk (<[p := x]> (cells_ a)) (max_entries_ a)
     (count_ a - Z.b2z (used_cell c) + Z.b2z (used_cell x))
     (item_count_ a - Z.b2z (is_val_cell c) + Z.b2z (is_val_cell x)).

(** [p] is on the probe of [v]'s key, and no other cell has that key. *)
Definition good_place a (p : nat) (v : V) : Prop :=
  (exists d, (d < capacity_ a)%nat /\ p = at_step a (key_to_anchor_idx a (get_key_ v)) d
     /\ forall d', (d' < d)%nat -> cells_ a !! at_step a (key_to_anchor_idx a (get_key_ v)) d' <> Some Empty)
  /\ forall j w, cells_ a !! j = Some (Val w) -> get_key_ w = get_key_ v -> j = p.

Lemma update_lookup a p c x i : cells_ a !! p = Some c ->
  cells_ (update a p c x) !! i = if decide (i = p) then Some x else cells_ a !! i.
Proof.
  intros Hp. simpl. destruct (decide (i = p)) as [-> | Hne].
  - apply list_lookup_insert_eq. now apply lookup_lt_Some in Hp.
  - now rewrite list_lookup_insert_ne.
Qed.

Lemma update_wf a p c x :
  wf a -> cells_ a !! p = Some c -> x <> Empty -> (forall v, x = Val v -> good_place a p v) ->
  count_ (update a p c x) <= max_entries_ a -> wf (update a p c x).
Proof.
  intros Hw Hp Hx Hv Hroom. assert (capacity_ (update a p c x) = capacity_ a) as Ecap
    by (unfold capacity_; simpl; apply length_insert).
  constructor.
  - rewrite Ecap. apply (wf_cap a Hw).
  - rewrite Ecap. apply (wf_max a Hw).
  - simpl. rewrite (cnt_insert _ _ _ _ x Hp), (wf_count a Hw). reflexivity.
  - simpl. rewrite (cnt_insert _ _ _ _ x Hp), (wf_items a Hw). reflexivity.
  - exact Hroom.
  - intros i v Hi. rewrite (anchor_same a _ _ Ecap), Ecap. rewrite (update_lookup a p c x i Hp) in Hi.
    assert (exists d, (d < capacity_ a)%nat /\ i = at_step a (key_to_anchor_idx a (get_key_ v)) d
      /\ forall d', (d' < d)%nat -> cells_ a !! at_step a (key_to_anchor_idx a (get_key_ v)) d' <> Some Empty)
      as (d & Hd & -> & Hb).
    { destruct (decide (i = p)) as [-> |]; [injection Hi as ->; apply (Hv v eq_refl) | now apply (wf_chain a Hw)]. }
    exists d. split; [exact Hd |]. split; [symmetry; now apply at_step_same |]. intros d' Hd'.
    rewrite (at_step_same a _ _ _ Ecap), (update_lookup a p c x _ Hp).
    destruct (decide (at_step a _ d' = p)); [intros [= ->]; now apply Hx | now apply Hb].
  - intros i j v w Hi Hj Hk. rewrite (update_lookup a p c x i Hp) in Hi. rewrite (update_lookup a p c x j Hp) in Hj.
    destruct (decide (i = p)) as [-> |], (decide (j = p)) as [-> |]; auto.
    + injection Hi as ->. symmetry. now apply (proj2 (Hv v eq_refl) j w).
    + injection Hj as ->. now apply (proj2 (Hv w eq_refl) i v).
    + now apply (wf_uniq a Hw i j v w).
Qed.

(** What the map is after such a write: [k] is the key the cell is about. *)
Lemma update_find a p c x k :
  wf a -> wf (update a p c x) -> cells_ a !! p = Some c ->
  (forall w, c = Val w -> get_key_ w = k) -> (forall v, x = Val v -> get_key_ v = k) ->
  (c = Empty \/ c = Erased -> find a k = None) ->
  forall k', find (update a p c x) k'
    = if decide (k' = k) then match x with Val v => Some v | _ => None end else find a k'.
Proof.
  intros Hw Hw' Hp Hc Hx Hn k'. apply option_eq. intros w. rewrite (find_Some _ k' w Hw').
  setoid_rewrite (update_lookup a p c x _ Hp). destruct (decide (k' = k)) as [-> | Hk].
  - split.
    + intros (i & Hi & Hkw). destruct (decide (i = p)) as [-> | Hne]; [injection Hi as ->; reflexivity |].
      exfalso. destruct c as [| | w0].
      * apply (proj1 (find_None a k)) with (i := i) (v := w); auto.
      * apply (proj1 (find_None a k)) with (i := i) (v := w); auto.
      * apply Hne, (wf_uniq a Hw i p w w0 Hi Hp). now rewrite (Hc w0).
    + intros E. destruct x as [| | v]; try discriminate. injection E as ->. exists p.
      rewrite decide_True by reflexivity. auto.
  - rewrite (find_Some a k' w Hw). split.
    + intros (i & Hi & Hkw). destruct (decide (i = p)) as [-> | Hne]; [| eauto].
      injection Hi as ->. exfalso. apply Hk. now rewrite <- Hkw, (Hx w).
    + intros (i & Hi & Hkw). exists i. destruct (decide (i = p)) as [-> | Hne]; [| auto].
      exfalso. apply Hk. rewrite Hp in Hi. injection Hi as ->. now rewrite <- Hkw, (Hc w).
Qed.

(** ** [set_refactored] and [erase_refactored] *)

(** The place the probe for a new key gives. *)
Lemma set_pos_new a k ow : wf a -> find a k = None ->
  exists p c, placement_hash_find_set_pos a k ow = Some (OB_SUCCESS, Some p, false)
    /\ cells_ a !! p = Some c /\ (c = Empty \/ c = Erased)
    /\ forall v, get_key_ v = k -> good_place a p v.
Proof.
  intros Hw Hn. destruct (probe_outcome a k Hw) as (d & Hd & Hb & Hout). pose proof (anchor_lt a k (wf_cap a Hw)) as Hi.
  destruct Hout as [[Hc _] | (v & _ & _ & E)]; [| congruence].
  destruct (array_find_at (capacity_ a) a k ow _ d _ None Hi Hd Hb Hc) as [H1 _].
  destruct (H1 eq_refl) as (p & E & [Hpos | (_ & d0 & Hd0 & -> & Hcell)]); [discriminate |].
  exists (at_step a (key_to_anchor_idx a k) d0), (if decide (d0 = d) then Empty else Erased).
  split; [exact E |]. split.
  { destruct (decide (d0 = d)) as [-> |]; [exact Hc | destruct Hcell as [Hcell |]; [exact Hcell | contradiction]]. }
  split; [destruct (decide (d0 = d)); auto |]. intros v Hk. split.
  - exists d0. rewrite Hk. split; [lia |]. split; [reflexivity |]. intros d' Hd'.
    destruct (Hb d' ltac:(lia)) as (c & Hc' & Hne & _). congruence.
  - intros j w Hj Hkw. exfalso. apply (proj1 (find_None a k) Hn j w Hj). congruence.
Qed.

Lemma set_pos_old a k ow v : wf a -> find a k = Some v ->
  exists p, placement_hash_find_set_pos a k ow
              = Some (if ow then OB_SUCCESS else OB_HASH_EXIST, Some p, true)
    /\ cells_ a !! p = Some (Val v) /\ get_key_ v = k.
Proof.
  intros Hw Hv. destruct (probe_outcome a k Hw) as (d & Hd & Hb & Hout). pose proof (anchor_lt a k (wf_cap a Hw)) as Hi.
  destruct Hout as [[_ E] | (w & Hc & Hk & E)]; [congruence |]. assert (w = v) as -> by congruence.
  destruct (array_find_at (capacity_ a) a k ow _ d _ None Hi Hd Hb Hc) as [_ H2].
  eexists. split; [exact (H2 v eq_refl Hk) |]. auto.
Qed.

Lemma set_value_update a p c x :
  cells_ a !! p = Some c -> x <> Empty -> (x = Erased -> exists v, c = Val v) ->
  item_count_ (update a p c x) <= count_ (update a p c x) ->
  set_value a (Some p) x = Some (OB_SUCCESS, update a p c x).
Proof.
  intros Hp Hx He Hle. unfold set_value. rewrite Hp. unfold update in *. simpl in Hle.
  destruct c as [| | w], x as [| | v]; try congruence; simpl in *;
    try (destruct (He eq_refl) as [? ?]; discriminate);
    match goal with |- context [?a <? ?b] => destruct (Z.ltb_spec a b); [lia |] end;
    do 3 f_equal; lia.
Qed.

Lemma cnt_le {A} (P Q : A -> bool) l : (forall x, P x = true -> Q x = true) -> cnt P l <= cnt Q l.
Proof.
  intros Hpq. induction l as [| x l IH]; cbn [cnt]; [lia |].
  specialize (Hpq x). destruct (P x), (Q x); simpl; lia.
Qed.

Lemma items_le_count a : wf a -> item_count_ a <= count_ a.
Proof.
  intros Hw. rewrite (wf_items a Hw), (wf_count a Hw). apply cnt_le. now intros [| | v].
Qed.

(** [find_set_pos] for a key that is not there, and the write that follows. *)
Lemma find_set_pos_new a k v ow : wf a -> find a k = None ->
  exists p c, cells_ a !! p = Some c /\ (c = Empty \/ c = Erased) /\ (forall v, get_key_ v = k -> good_place a p v)
    /\ find_set_pos a k (Val v) ow
       = Some (if is_full a then OB_HASH_FULL else OB_SUCCESS, Some p,
               (if is_full a && is_erased_cell c then Some p else None), false).
Proof.
  intros Hw Hn. destruct (set_pos_new a k ow Hw Hn) as (p & c & E & Hp & Hc & Hg).
  exists p, c. split; [exact Hp |]. split; [exact Hc |]. split; [exact Hg |]. unfold find_set_pos. rewrite E.
  cbn [mbind option_bind]. change (OB_SUCC OB_SUCCESS) with true. cbn [andb negb is_erased_cell].
  destruct (is_full a); [| reflexivity]. cbn [mbind option_bind]. rewrite Hp. reflexivity.
Qed.

Lemma find_set_pos_old a k v old (ow : bool) : wf a -> find a k = Some old ->
  exists p, cells_ a !! p = Some (Val old) /\ get_key_ old = k
    /\ find_set_pos a k (Val v) ow
       = Some (if ow then OB_SUCCESS else OB_HASH_EXIST, Some p, None, true).
Proof.
  intros Hw Hf. destruct (set_pos_old a k ow old Hw Hf) as (p & E & Hp & Hk). exists p. split; [exact Hp |].
  split; [exact Hk |]. unfold find_set_pos. rewrite E. cbn [mbind option_bind]. now destruct ow.
Qed.

(** Writing [v] changes the map at its key only. *)
Definition set_to a (v : V) a' : Prop :=
  wf a' /\ max_entries_ a' = max_entries_ a
  /\ forall k', find a' k' = if decide (k' = get_key_ v) then Some v else find a k'.

Lemma write_new a p c v : wf a -> find a (get_key_ v) = None -> cells_ a !! p = Some c ->
  c = Empty \/ c = Erased -> good_place a p v -> (c = Empty -> is_full a = false) ->
  exists a', set_value a (Some p) (Val v) = Some (OB_SUCCESS, a') /\ set_to a v a'
    /\ item_count_ a' = item_count_ a + 1 /\ count_ a' = count_ a + Z.b2z (is_empty_cell c).
Proof.
  intros Hw Hn Hp Hc Hg Hfull. assert (is_val_cell c = false) as Hvc by (destruct Hc; now subst c).
  assert (wf (update a p c (Val v))) as Hw'.
  { apply update_wf; [exact Hw | exact Hp | discriminate | intros w [= <-]; exact Hg |].
    pose proof (wf_room a Hw). unfold is_full in Hfull.
    destruct Hc as [-> | ->]; simpl; [specialize (Hfull eq_refl); apply Z.leb_gt in Hfull; lia | lia]. }
  exists (update a p c (Val v)).
  split; [apply (set_value_update a p c); [exact Hp | discriminate | discriminate | apply (items_le_count _ Hw')] |].
  split; [| simpl; rewrite Hvc; destruct Hc as [-> | ->]; simpl; split; lia]. split; [exact Hw' |]. split; [reflexivity |].
  apply (update_find a p c (Val v) (get_key_ v)); auto; [intros w ->; discriminate | congruence].
Qed.

Lemma write_old a p old v : wf a -> cells_ a !! p = Some (Val old) -> get_key_ old = get_key_ v ->
  exists a', set_value a (Some p) (Val v) = Some (OB_SUCCESS, a') /\ set_to a v a'
    /\ item_count_ a' = item_count_ a /\ count_ a' = count_ a.
Proof.
  intros Hw Hp Hk. pose proof (items_le_count a Hw). assert (wf (update a p (Val old) (Val v))) as Hw'.
  { apply update_wf; [exact Hw | exact Hp | discriminate | | simpl; pose proof (wf_room a Hw); lia].
    intros w [= <-]. destruct (wf_chain a Hw p old Hp) as (d & Hd & E & Hb). rewrite Hk in *. split; [eauto |].
    intros j w Hj Hkw. apply (wf_uniq a Hw j p w old Hj Hp). congruence. }
  exists (update a p (Val old) (Val v)).
  split; [apply (set_value_update a p (Val old)); [exact Hp | discriminate | discriminate | simpl; lia] |].
  split; [| simpl; split; lia]. split; [exact Hw' |]. split; [reflexivity |].
  apply (update_find a p (Val old) (Val v) (get_key_ v)); auto; try congruence; intros [E | E]; discriminate.
Qed.

Lemma array_set_ok a v (ow : bool) : wf a ->
  match find a (get_key_ v) with
  | Some old =>
      if ow then exists a', set_refactored a (get_key_ v) (Val v) ow = Some (OB_SUCCESS, a') /\ set_to a v a'
                   /\ item_count_ a' = item_count_ a /\ count_ a' = count_ a
      else set_refactored a (get_key_ v) (Val v) ow = Some (OB_HASH_EXIST, a)
  | None =>
      if is_full a then set_refactored a (get_key_ v) (Val v) ow = Some (OB_HASH_FULL, a)
      else exists a', set_refactored a (get_key_ v) (Val v) ow = Some (OB_SUCCESS, a') /\ set_to a v a'
             /\ item_count_ a' = item_count_ a + 1 /\ count_ a' <= count_ a + 1
  end.
Proof.
  intros Hw. unfold set_refactored. destruct (find a (get_key_ v)) as [old |] eqn:Ef.
  - destruct (find_set_pos_old a (get_key_ v) v old ow Hw Ef) as (p & Hp & Hk & ->). cbn [mbind option_bind].
    destruct ow; [| reflexivity]. change (OB_SUCC OB_SUCCESS) with true. cbn iota. now apply (write_old a p old v).
  - destruct (find_set_pos_new a (get_key_ v) v ow Hw Ef) as (p & c & Hp & Hc & Hg & ->). cbn [mbind option_bind].
    destruct (is_full a) eqn:Efull; [reflexivity |]. change (OB_SUCC OB_SUCCESS) with true. cbn iota.
    destruct (write_new a p c v Hw Ef Hp Hc (Hg v eq_refl) (fun _ => Efull)) as (a' & E & Hs & Hi & Hcn).
    exists a'. split; [exact E |]. split; [exact Hs |]. split; [exact Hi |]. destruct (is_empty_cell c); simpl in *; lia.
Qed.

Lemma array_erase_ok a k : wf a ->
  match find a k with
  | Some v => exists a', erase_refactored a k = Some (OB_SUCCESS, a') /\ wf a'
                /\ max_entries_ a' = max_entries_ a /\ count_ a' = count_ a /\ item_count_ a' = item_count_ a - 1
                /\ forall k', find a' k' = if decide (k' = k) then None else find a k'
  | None => erase_refactored a k = Some (OB_HASH_NOT_EXIST, a)
  end.
Proof.
  intros Hw. unfold erase_refactored, set_refactored, find_set_pos. pose proof (items_le_count a Hw) as Hic.
  destruct (find a k) as [old |] eqn:Ef.
  - destruct (set_pos_old a k true old Hw Ef) as (p & -> & Hp & Hko). cbn [mbind option_bind].
    change (OB_SUCC OB_SUCCESS) with true. cbn [andb negb mbind option_bind].
    change (OB_SUCC OB_SUCCESS) with true. cbn iota.
    assert (wf (update a p (Val old) Erased)) as Hw'
      by (apply update_wf; [exact Hw | exact Hp | discriminate | discriminate | simpl; pose proof (wf_room a Hw); lia]).
    eexists. split; [apply (set_value_update a p (Val old)); [exact Hp | discriminate | eauto | simpl; lia] |].
    split; [exact Hw' |]. simpl. split; [reflexivity |]. split; [lia |]. split; [lia |].
    apply (update_find a p (Val old) Erased k); auto; try congruence; intros [E | E]; discriminate.
  - destruct (set_pos_new a k true Hw Ef) as (p & c & -> & _). cbn [mbind option_bind]. reflexivity.
Qed.

Lemma cnt_none {A} (P : A -> bool) l : (forall x, x ∈ l -> P x = false) -> cnt P l = 0.
Proof.
  induction l as [| x l IH]; intros Hn; cbn [cnt]; [reflexivity |].
  rewrite (Hn x) by left. rewrite IH; [reflexivity |]. intros y Hy. apply Hn. now right.
Qed.

(** An array with only empty cells. *)
Lemma blank_wf a : (0 < capacity_ a)%nat -> 0 <= max_entries_ a < Z.of_nat (capacity_ a) ->
  (forall c, c ∈ cells_ a -> c = Empty) -> count_ a = 0 -> item_count_ a = 0 ->
  wf a /\ forall k, find a k = None.
Proof.
  intros Hcap Hmax He Hc Hi.
  assert (forall i v, cells_ a !! i <> Some (Val v)) as Hno.
  { intros i v E. apply list_elem_of_lookup_2 in E. now apply He in E. }
  split; [| intros k; apply find_None; intros i v E; now apply Hno in E]. constructor; try assumption; try lia.
  - rewrite Hc, cnt_none; [reflexivity |]. intros c Hin. now rewrite (He c Hin).
  - rewrite Hi, cnt_none; [reflexivity |]. intros c Hin. now rewrite (He c Hin).
  - intros i v E. now apply Hno in E.
  - intros i j v w E. now apply Hno in E.
Qed.

Lemma array_clear_ok a : wf a -> 0 <= max_entries_ a -> wf (clear a) /\ (forall k, find (clear a) k = None).
Proof.
  intros Hw Hm. apply blank_wf; try reflexivity.
  - unfold capacity_, clear. simpl. rewrite length_map. apply (wf_cap a Hw).
  - unfold capacity_, clear. simpl. rewrite length_map. pose proof (wf_max a Hw). unfold capacity_ in *. lia.
  - unfold clear. simpl. intros c Hc. apply list_elem_of_In, in_map_iff in Hc as (x & <- & _). reflexivity.
Qed.

(** ** Sizes *)

Lemma round53_bounds p : 0 < p -> 2 ^ 52 * round53 p <= p * (2 ^ 52 + 1) /\ p * (2 ^ 52 - 1) <= 2 ^ 52 * round53 p.
Proof.
  intros Hp. unfold round53. set (s := Z.log2 p + 1 - 53). destruct (Z.leb_spec s 0) as [Hs | Hs]; [nia |].
  pose proof (Z.log2_spec p Hp) as [Hlo _].
  assert (2 ^ Z.log2 p = 2 ^ 52 * 2 ^ s) as El by (rewrite <- Z.pow_add_r by lia; f_equal; lia).
  rewrite Z.shiftr_div_pow2, !Z.shiftl_mul_pow2 by lia.
  pose proof (Z.pow_pos_nonneg 2 s ltac:(lia) ltac:(lia)).
  pose proof (Z.div_mod p (2 ^ s) ltac:(lia)). pose proof (Z.mod_pos_bound p (2 ^ s) ltac:(lia)).
  set (q := p / 2 ^ s) in *. set (B := 2 ^ s) in *. rewrite El in Hlo. clearbody q B.
  destruct ((2 ^ (s - 1) <? p - q * B) || _); nia.
Qed.

Definition mem_capacity (mem : Z) : Z := (mem - sizeof_hash_array) / 8.

Lemma load_limit_bounds c : 0 < c ->
  2 ^ 105 * load_limit c <= c * M_0_7 * (2 ^ 52 + 1) /\ c * M_0_7 * (2 ^ 52 - 1) < 2 ^ 105 * (load_limit c + 1).
Proof.
  intros Hc. unfold load_limit. rewrite Z.shiftr_div_pow2 by lia.
  assert (0 < c * M_0_7) as Hp by (unfold M_0_7; lia). pose proof (round53_bounds _ Hp) as [Hu Hl].
  pose proof (Z.div_mod (round53 (c * M_0_7)) (2 ^ 53) ltac:(lia)).
  pose proof (Z.mod_pos_bound (round53 (c * M_0_7)) (2 ^ 53) ltac:(lia)).
  set (q := round53 (c * M_0_7) / 2 ^ 53) in *. change (2 ^ 105) with (2 ^ 52 * 2 ^ 53). split; nia.
Qed.

Lemma load_limit_range c : 0 < c -> 0 <= load_limit c < c.
Proof.
  intros Hc. pose proof (load_limit_bounds c Hc) as [Hu Hl]. unfold M_0_7 in *. split; [| lia].
  unfold load_limit. apply Z.shiftr_nonneg.
  assert (0 < c * M_0_7) as Hp by (unfold M_0_7; lia). pose proof (round53_bounds _ Hp). nia.
Qed.

Lemma create_ok mem : 1 <= mem_capacity mem ->
  wf (create (V := V) mem) /\ (forall k, find (create (V := V) mem) k = None)
  /\ max_entries_ (create (V := V) mem) = load_limit (mem_capacity mem) /\ count_ (create (V := V) mem) = 0 /\ item_count_ (create (V := V) mem) = 0.
Proof.
  intros Hc. unfold mem_capacity in *. pose proof (load_limit_range ((mem - sizeof_hash_array) / 8) ltac:(lia)).
  assert (capacity_ (create (V := V) mem) = Z.to_nat ((mem - sizeof_hash_array) / 8)) as Ecap
    by (unfold capacity_, create; simpl; apply length_replicate).
  destruct (blank_wf (create (V := V) mem)) as [Hw Hn]; try reflexivity.
  - rewrite Ecap. lia.
  - rewrite Ecap. simpl. lia.
  - unfold create. simpl. intros c Hin. now apply elem_of_replicate in Hin as [-> _].
  - auto.
Qed.
End Facts.
End HashArrayFacts.
