(* ===== verification/HashMap.v ===== *)
(** [ObPointerHashMap] of [deps/oblib/src/lib/hash/ob_pointer_hashmap.h]: up to
    four hash arrays of one size, the earlier ones full, rebuilt into one larger
    array when they do not suffice.

    [sub_maps_] is the list of the arrays that exist; it is empty before [init]
    and when an allocation of the first one failed. *)
From S2P Require Import Prelude FixedArray HashArray.

Module ObPointerHashMap.

Abbreviation SubMap := ObPointerHashArray.t.

Record t (V : Type) := mk { sub_maps_ : list (SubMap V); sub_map_mem_size_ : Z }.
Arguments mk {V}. Arguments sub_maps_ {V}. Arguments sub_map_mem_size_ {V}.

Definition OB_MALLOC_NORMAL_BLOCK_SIZE : Z := 2 ^ 13 - 256.
Definition ACHUNK_PRESERVE_SIZE : Z := 17 * 2 ^ 10.
Definition OB_MALLOC_BIG_BLOCK_SIZE : Z := 2 ^ 21 - ACHUNK_PRESERVE_SIZE.
Definition MAX_SUB_MAP_COUNT : nat := 4.

(** [(int64_t)(1.1 * (double)n)]; the factor is the double [M * 2^-52]. *)
Definition M_1_1 : Z := 4953959590107546.
Definition times_1_1 (n : Z) : Z := Z.shiftr (ObPointerHashArray.round53 (n * M_1_1)) 52.

Section Ops.
Context `{Allocator} {K V : Type} `{EqDecision K} `{PointerKey K V}.
Implicit Type m : t V.

(** The constructor. *)
Definition new_map : t V := mk [] OB_MALLOC_NORMAL_BLOCK_SIZE.

Definition create_sub_map (mem_size : Z) : option (SubMap V) :=
  if alloc_ok mem_size then Some (ObPointerHashArray.create mem_size) else None.

Definition destroy m : t V := mk [] 0.

Definition init m : Z * t V :=
  match sub_maps_ m with
  | [] =>
      match create_sub_map (sub_map_mem_size_ m) with
      | Some s => (OB_SUCCESS, mk [s] (sub_map_mem_size_ m))
      | None => (OB_ALLOCATE_MEMORY_FAILED, m)
      end
  | _ => (OB_SUCCESS, m)
  end.

(** [assign]: all arrays have the same size, so the allocations succeed or fail
    alike; when the first fails the map is as if it was not initialised. *)
Definition assign m (other : t V) : Z * t V :=
  let mem := sub_map_mem_size_ other in
  match sub_maps_ other with
  | [] => (OB_SUCCESS, mk [] mem)
  | ss => if alloc_ok mem then (OB_SUCCESS, mk ss mem) else (OB_ALLOCATE_MEMORY_FAILED, mk [] mem)
  end.

Definition sum_subs (f : SubMap V -> Z) m : Z := fold_right (fun s n => f s + n) 0 (sub_maps_ m).
Definition count m : Z := sum_subs ObPointerHashArray.count_ m.
Definition item_count m : Z := sum_subs ObPointerHashArray.item_count_ m.

(** The loop of [find_set_pos] from sub map [i]; [at_pos] is [(sub_map_idx, pos)]. *)
Fixpoint find_set_pos_loop (ss : list (SubMap V)) (i : nat) (k : K) (value : Cell V) (overwrite : bool)
    (ret : Z) (at_pos : option (nat * nat)) : option (Z * option (nat * nat)) :=
  match ss with
  | [] => Some (ret, at_pos)
  | s :: ss' =>
      '(ret, set_pos, erased_pos, ex) ← ObPointerHashArray.find_set_pos s k value overwrite;
      if OB_SUCC ret then
        p ← set_pos;
        Some (ret, if negb ex then match at_pos with None => Some (i, p) | _ => at_pos end else Some (i, p))
      else if ret =? OB_HASH_FULL then
        let at_pos := match at_pos, erased_pos with None, Some p => Some (i, p) | _, _ => at_pos end in
        match ss', at_pos with
        | [], Some _ => Some (OB_SUCCESS, at_pos)
        | _, _ => find_set_pos_loop ss' (S i) k value overwrite ret at_pos
        end
      else Some (ret, at_pos)
  end.

Definition find_set_pos m (k : K) (value : Cell V) (overwrite : bool) : option (Z * option (nat * nat)) :=
  find_set_pos_loop (sub_maps_ m) 0 k value overwrite OB_SUCCESS None.

(** [copy_from(other, resize_to)]: the codes of the single copies are ignored. *)
Fixpoint copy_values (s : SubMap V) (vs : list V) : option (SubMap V) :=
  match vs with
  | [] => Some s
  | v :: vs' => '(_, s) ← ObPointerHashArray.set_refactored s (get_key_ v) (Val v) false; copy_values s vs'
  end.
Definition copy_from m (resize_to : Z) : option (t V) :=
  match create_sub_map resize_to with
  | None => Some (mk [] resize_to)
  | Some s =>
      s ← copy_values s (concat (map ObPointerHashArray.values (sub_maps_ m)));
      Some (mk [s] resize_to)
  end.

(** The size [resize] rebuilds to; [None] when it adds a sub map instead. *)
Definition resize_target m : option Z :=
  let mem := sub_map_mem_size_ m in
  let n := length (sub_maps_ m) in
  let is_need_extend := count m <=? times_1_1 (item_count m) in
  let extend_size := if is_need_extend then mem * 2 else mem in
  let fixed_block := (mem =? OB_MALLOC_NORMAL_BLOCK_SIZE) || (mem =? OB_MALLOC_BIG_BLOCK_SIZE) in
  if (n =? 1)%nat then
    if fixed_block then None
    else if extend_size <=? OB_MALLOC_NORMAL_BLOCK_SIZE then Some extend_size
    else if mem <? OB_MALLOC_NORMAL_BLOCK_SIZE then Some OB_MALLOC_NORMAL_BLOCK_SIZE
    else if extend_size <=? OB_MALLOC_BIG_BLOCK_SIZE then Some extend_size
    else if mem <? OB_MALLOC_BIG_BLOCK_SIZE then Some OB_MALLOC_BIG_BLOCK_SIZE
    else Some extend_size
  else if (1 <? n)%nat && (n <? MAX_SUB_MAP_COUNT)%nat then None
  else if (n =? MAX_SUB_MAP_COUNT)%nat && fixed_block then Some (Z.of_nat n * extend_size)
  else Some 0.

(** [resize]: the index of the sub map to insert into, and the map. *)
Definition resize m : option (option nat * t V) :=
  match resize_target m with
  | None =>
      Some match create_sub_map (sub_map_mem_size_ m) with
           | Some s => (Some (length (sub_maps_ m)), mk (sub_maps_ m ++ [s]) (sub_map_mem_size_ m))
           | None => (None, m)
           end
  | Some resize_to =>
      tmp ← copy_from m resize_to;
      Some match sub_maps_ tmp with [] => (None, m) | _ => (Some 0%nat, tmp) end
  end.

(** Replaces sub map [i]. *)
Definition set_sub m (i : nat) (s : SubMap V) : t V := mk (<[i := s]> (sub_maps_ m)) (sub_map_mem_size_ m).

Definition set_refactored m (k : K) (value : Cell V) (overwrite : bool) : option (Z * t V) :=
  let '(ret, m) := init m in
  if OB_FAIL ret then Some (ret, m)
  else
    '(ret, at_pos) ← find_set_pos m k value overwrite;
    '(ret, m) ←
      (if OB_SUCC ret then
         match at_pos with
         | None => Some (OB_ERR_UNEXPECTED, m)
         | Some (i, p) =>
             s ← sub_maps_ m !! i;
             '(ret, s) ← ObPointerHashArray.set_value s (Some p) value;
             Some (ret, set_sub m i s)
         end
       else Some (ret, m));
    if ret =? OB_HASH_FULL then
      '(idx, m) ← resize m;
      match idx with
      | None => Some (OB_ERR_UNEXPECTED, m)
      | Some i =>
          s ← sub_maps_ m !! i;
          '(ret, s) ← ObPointerHashArray.set_refactored s k value overwrite;
          Some (ret, set_sub m i s)
      end
    else Some (ret, m).

Fixpoint get_loop (ss : list (SubMap V)) (k : K) : option (Z * option V) :=
  match ss with
  | [] => Some (OB_HASH_NOT_EXIST, None)
  | s :: ss' =>
      '(ret, v) ← ObPointerHashArray.get_refactored s k;
      if ret =? OB_HASH_NOT_EXIST then get_loop ss' k else Some (ret, v)
  end.
Definition get_refactored m (k : K) : option (Z * option V) :=
  match sub_maps_ m with [] => Some (OB_NOT_INIT, None) | ss => get_loop ss k end.

Fixpoint erase_loop (ss : list (SubMap V)) (k : K) : option (Z * list (SubMap V)) :=
  match ss with
  | [] => Some (OB_HASH_NOT_EXIST, [])
  | s :: ss' =>
      '(ret, s) ← ObPointerHashArray.erase_refactored s k;
      if ret =? OB_HASH_NOT_EXIST
      then '(ret, ss') ← erase_loop ss' k; Some (ret, s :: ss')
      else Some (ret, s :: ss')
  end.
Definition erase_refactored m (k : K) : option (Z * t V) :=
  match sub_maps_ m with
  | [] => Some (OB_NOT_INIT, m)
  | ss => '(ret, ss) ← erase_loop ss k; Some (ret, mk ss (sub_map_mem_size_ m))
  end.

Definition clear m : t V :=
  match sub_maps_ m with
  | [] => m
  | s :: _ => mk [ObPointerHashArray.clear s] (sub_map_mem_size_ m)
  end.
End Ops.
End ObPointerHashMap.
