(* ===== verification/HashMapFacts.v ===== *)
(** [ObPointerHashMap] implements a finite map, whatever the hash function: the
    full earlier arrays, the reuse of erased cells and the rebuilding keep
    every entry. *)
From S2P Require Import Prelude FixedArray HashArray HashArrayFacts HashMap.

Module HashMapFacts.
Import ObPointerHashMap.
Abbreviation afind := HashArrayFacts.find.
Abbreviation awf := HashArrayFacts.wf.
Abbreviation is_full := ObPointerHashArray.is_full.
Abbreviation max_entries_ := ObPointerHashArray.max_entries_.

Section Facts.
Context `{Allocator} {K V : Type} `{EqDecision K} `{PointerKey K V}.
Implicit Type m : t V.
Implicit Type ss : list (SubMap V).

(** The map the sub maps stand for. *)
Definition find_in ss (k : K) : option V := head (omap (fun s => afind s k) ss).
Definition find m (k : K) : option V := find_in (sub_maps_ m) k.

Definition sub_limit (mem : Z) : Z := ObPointerHashArray.load_limit (HashArrayFacts.mem_capacity mem).

Record inv m : Prop := mkInv
  { i_ne : sub_maps_ m <> [];
    i_len : (length (sub_maps_ m) <= MAX_SUB_MAP_COUNT)%nat;
    i_wf : forall i s, sub_maps_ m !! i = Some s -> awf s;
    i_max : forall i s, sub_maps_ m !! i = Some s -> max_entries_ s = sub_limit (sub_map_mem_size_ m);
    i_full : forall i s, sub_maps_ m !! i = Some s -> (S i < length (sub_maps_ m))%nat -> is_full s = true;
    i_disj : forall i j s s' k, sub_maps_ m !! i = Some s -> sub_maps_ m !! j = Some s' ->
      afind s k <> None -> afind s' k <> None -> i = j;
    i_mem : OB_MALLOC_NORMAL_BLOCK_SIZE <= sub_map_mem_size_ m;
    i_fixed : (1 < length (sub_maps_ m))%nat ->
      sub_map_mem_size_ m = OB_MALLOC_NORMAL_BLOCK_SIZE \/ sub_map_mem_size_ m = OB_MALLOC_BIG_BLOCK_SIZE }.

(** ** The map *)

Lemma find_in_None ss k : find_in ss k = None <-> forall i s, ss !! i = Some s -> afind s k = None.
Proof.
  unfold find_in. induction ss as [| s ss IH]; [split; [intros _ i s Hi; discriminate | reflexivity] |].
  cbn [omap list_omap]. destruct (afind s k) as [v |] eqn:E.
  - split; [discriminate |]. intros Hn. specialize (Hn 0%nat s eq_refl). congruence.
  - rewrite IH. split; [intros Hn [| i] s' Hi; [simpl in Hi; congruence | now apply (Hn i)] |].
    intros Hn i s' Hi. now apply (Hn (S i)).
Qed.

Lemma find_in_Some ss k v : find_in ss k = Some v -> exists i s, ss !! i = Some s /\ afind s k = Some v
  /\ forall j s', (j < i)%nat -> ss !! j = Some s' -> afind s' k = None.
Proof.
  unfold find_in. induction ss as [| s ss IH]; [discriminate |]. cbn [omap list_omap].
  destruct (afind s k) as [w |] eqn:E.
  - intros [= ->]. exists 0%nat, s. split; [reflexivity |]. split; [exact E | lia].
  - intros Hf. destruct (IH Hf) as (i & s1 & Hi & Hs1 & Hb). exists (S i), s1. split; [exact Hi |]. split; [exact Hs1 |].
    intros [| j] s' Hj Hs'; [simpl in Hs'; congruence | apply (Hb j); [lia | exact Hs']].
Qed.

Lemma find_at m i s k v : inv m -> sub_maps_ m !! i = Some s -> afind s k = Some v -> find m k = Some v.
Proof.
  intros Hi Hs Hv. unfold find. destruct (find_in (sub_maps_ m) k) as [w |] eqn:E.
  - destruct (find_in_Some _ _ _ E) as (j & s' & Hj & Hw & _).
    assert (i = j) as -> by (apply (i_disj m Hi i j s s' k); congruence). congruence.
  - apply (proj1 (find_in_None _ _)) with (i := i) (s := s) in E; [congruence | exact Hs].
Qed.

Lemma find_key m k v : inv m -> find m k = Some v -> get_key_ v = k.
Proof.
  intros Hi Hf. apply find_in_Some in Hf as (i & s & Hs & Hv & _).
  now apply HashArrayFacts.find_Some in Hv as (j & _ & Hk); [| apply (i_wf m Hi i)].
Qed.

Lemma find_other m i s k j s' : inv m -> sub_maps_ m !! i = Some s -> afind s k <> None ->
  sub_maps_ m !! j = Some s' -> j <> i -> afind s' k = None.
Proof.
  intros Hi Hs Hk Hj Hne. destruct (afind s' k) eqn:E; [| reflexivity]. exfalso. apply Hne.
  apply (i_disj m Hi j i s' s k); congruence.
Qed.

Lemma get_ok m k : inv m ->
  get_refactored m k = match find m k with
                       | Some v => Some (OB_SUCCESS, Some v)
                       | None => Some (OB_HASH_NOT_EXIST, None)
                       end.
Proof.
  intros Hi. unfold get_refactored. pose proof (i_ne m Hi).
  assert (get_refactored m k = get_loop (sub_maps_ m) k) as E
    by (unfold get_refactored; destruct (sub_maps_ m); [contradiction | reflexivity]).
  unfold get_refactored in E. rewrite E. clear E. pose proof (i_wf m Hi) as Hw. unfold find.
  induction (sub_maps_ m) as [| s ss IH]; [reflexivity |]. cbn [get_loop].
  rewrite (HashArrayFacts.array_get_ok s k) by (now apply (Hw 0%nat)). unfold find_in. cbn [omap list_omap].
  destruct (afind s k) as [v |]; [reflexivity |]. cbn [mbind option_bind].
  change (OB_HASH_NOT_EXIST =? OB_HASH_NOT_EXIST) with true. cbn iota. destruct ss as [| s' ss]; [reflexivity |].
  apply IH; [discriminate |]. intros i s1 Hs1. now apply (Hw (S i)).
Qed.

(** ** Replacing a sub map *)

Lemma set_sub_ok m i s a' k (o : option V) :
  inv m -> sub_maps_ m !! i = Some s -> awf a' -> max_entries_ a' = max_entries_ s ->
  (is_full s = true -> is_full a' = true) ->
  (forall k', afind a' k' = if decide (k' = k) then o else afind s k') ->
  (forall j s', j <> i -> sub_maps_ m !! j = Some s' -> afind s' k = None) ->
  inv (set_sub m i a') /\ forall k', find (set_sub m i a') k' = if decide (k' = k) then o else find m k'.
Proof.
  intros Hi Hs Hw Hmax Hfull Hf Hother.
  assert (forall j, sub_maps_ (set_sub m i a') !! j = if decide (j = i) then Some a' else sub_maps_ m !! j) as Hl.
  { intros j. simpl. destruct (decide (j = i)) as [-> |]; [| now rewrite list_lookup_insert_ne].
    apply list_lookup_insert_eq. now apply lookup_lt_Some in Hs. }
  assert (forall j s' k', sub_maps_ (set_sub m i a') !! j = Some s' -> afind s' k' <> None ->
    (k' = k /\ j = i) \/ (k' <> k /\ exists s0, sub_maps_ m !! j = Some s0 /\ afind s0 k' = afind s' k')) as Hcase.
  { intros j s' k' Hj Hn. rewrite Hl in Hj. destruct (decide (j = i)) as [-> |].
    - injection Hj as <-. rewrite Hf in Hn. destruct (decide (k' = k)); [left; auto | right]. split; [assumption |].
      exists s. split; [exact Hs |]. rewrite Hf. now rewrite decide_False.
    - right. split; [intros ->; apply Hn; now apply (Hother j) |]. eauto. }
  assert (inv (set_sub m i a')) as Hinv.
  { constructor; try (unfold set_sub; simpl; rewrite ?length_insert; apply Hi).
    - simpl. intros E. apply (i_ne m Hi). apply length_zero_iff_nil in E. rewrite length_insert in E.
      now apply length_zero_iff_nil.
    - intros j s' Hj. rewrite Hl in Hj. destruct (decide (j = i)); [congruence | now apply (i_wf m Hi j)].
    - intros j s' Hj. rewrite Hl in Hj. destruct (decide (j = i)); [| now apply (i_max m Hi j)].
      injection Hj as <-. rewrite Hmax. now apply (i_max m Hi i).
    - intros j s' Hj Hlt. simpl in Hlt. rewrite length_insert in Hlt. rewrite Hl in Hj.
      destruct (decide (j = i)) as [-> |]; [| now apply (i_full m Hi j)]. injection Hj as <-.
      now apply Hfull, (i_full m Hi i).
    - intros j j' s1 s2 k' Hj Hj' Hn Hn'.
      destruct (Hcase j s1 k' Hj Hn) as [[Ek Ej] | (Hk & s0 & Hs0 & E0)];
        destruct (Hcase j' s2 k' Hj' Hn') as [[Ek' Ej'] | (Hk' & s0' & Hs0' & E0')]; try congruence.
      apply (i_disj m Hi j j' s0 s0' k'); congruence. }
  split; [exact Hinv |]. intros k'. apply option_eq. intros v. split.
  - intros E. destruct (find_in_Some _ _ _ E) as (j & s' & Hj & Hv & _).
    destruct (Hcase j s' k' Hj ltac:(congruence)) as [[-> ->] | (Hk & s0 & Hs0 & E0)].
    + rewrite decide_True by reflexivity. rewrite Hl, decide_True in Hj by reflexivity. injection Hj as <-.
      rewrite Hf, decide_True in Hv by reflexivity. exact Hv.
    + rewrite decide_False by exact Hk. apply (find_at m j s0); [exact Hi | exact Hs0 | congruence].
  - intros E. destruct (decide (k' = k)) as [-> | Hk].
    + apply (find_at _ i a'); [exact Hinv | rewrite Hl; now rewrite decide_True |]. rewrite Hf. now rewrite decide_True.
    + destruct (find_in_Some _ _ _ E) as (j & s' & Hj & Hv & _). destruct (decide (j = i)) as [-> | Hne].
      * apply (find_at _ i a'); [exact Hinv | rewrite Hl; now rewrite decide_True |]. rewrite Hf, decide_False by exact Hk.
        congruence.
      * apply (find_at _ j s'); [exact Hinv | rewrite Hl; now rewrite decide_False | exact Hv].
Qed.

(** ** Erasing *)

Lemma sum_insert (f : SubMap V -> Z) mem ss i s s' :
  ss !! i = Some s -> sum_subs f (mk (<[i := s']> ss) mem) = sum_subs f (mk ss mem) - f s + f s'.
Proof.
  unfold sum_subs. simpl. revert i. induction ss as [| x ss IH]; intros [| i] Hi; try discriminate.
  - injection Hi as ->. change (<[O := s']> (s :: ss)) with (s' :: ss). cbn [fold_right]. lia.
  - change (<[S i := s']> (x :: ss)) with (x :: <[i := s']> ss). cbn [fold_right]. rewrite (IH i Hi). lia.
Qed.

Lemma erase_ok m k : inv m ->
  match find m k with
  | Some _ => exists m', erase_refactored m k = Some (OB_SUCCESS, m') /\ inv m'
                /\ item_count m' = item_count m - 1
                /\ forall k', find m' k' = if decide (k' = k) then None else find m k'
  | None => exists m', erase_refactored m k = Some (OB_HASH_NOT_EXIST, m') /\ m' = m
  end.
Proof.
  intros Hi. assert (erase_refactored m k = '(ret, ss) ← erase_loop (sub_maps_ m) k; Some (ret, mk ss (sub_map_mem_size_ m))) as ->.
  { unfold erase_refactored. pose proof (i_ne m Hi). now destruct (sub_maps_ m). }
  assert (forall ss, (forall i s, ss !! i = Some s -> awf s) ->
    match find_in ss k with
    | Some _ => exists i s a', ss !! i = Some s /\ erase_loop ss k = Some (OB_SUCCESS, <[i := a']> ss) /\ awf a'
        /\ max_entries_ a' = max_entries_ s /\ ObPointerHashArray.count_ a' = ObPointerHashArray.count_ s
        /\ ObPointerHashArray.item_count_ a' = ObPointerHashArray.item_count_ s - 1 /\ afind s k <> None
        /\ forall k', afind a' k' = if decide (k' = k) then None else afind s k'
    | None => erase_loop ss k = Some (OB_HASH_NOT_EXIST, ss)
    end) as Hloop.
  { induction ss as [| s ss IH]; intros Hw; [reflexivity |]. unfold find_in. cbn [omap list_omap erase_loop].
    pose proof (HashArrayFacts.array_erase_ok s k (Hw 0%nat s eq_refl)) as He. destruct (afind s k) as [v |] eqn:E.
    - destruct He as (a' & -> & Hwa & H1 & H2 & H3 & H4). exists 0%nat, s, a'. rewrite E.
      split; [reflexivity |]. split; [reflexivity |]. do 4 (split; [assumption |]). split; [discriminate | exact H4].
    - rewrite He. cbn [mbind option_bind]. change (OB_HASH_NOT_EXIST =? OB_HASH_NOT_EXIST) with true. cbn iota.
      specialize (IH ltac:(intros i s1; apply (Hw (S i)))). unfold find_in in IH. destruct (head _) as [v |].
      + destruct IH as (i & s1 & a' & Hs1 & -> & Hrest). exists (S i), s1, a'. split; [exact Hs1 |]. split; [reflexivity | exact Hrest].
      + rewrite IH. reflexivity. }
  specialize (Hloop (sub_maps_ m) (i_wf m Hi)). unfold find. destruct (find_in (sub_maps_ m) k) as [v |].
  - destruct Hloop as (i & s & a' & Hs & -> & Hw & H1 & H2 & H3 & Hne & H4). cbn [mbind option_bind].
    destruct (set_sub_ok m i s a' k None Hi Hs Hw H1) as [Hinv Hf]; [| exact H4 | |].
    + unfold is_full. now rewrite H1, H2.
    + intros j s' Hj Hs'. now apply (find_other m i s k j s').
    + exists (set_sub m i a'). split; [reflexivity |]. split; [exact Hinv |]. split; [| exact Hf].
      unfold item_count, set_sub. rewrite (sum_insert _ _ _ _ s) by exact Hs. destruct m; simpl. lia.
  - rewrite Hloop. cbn [mbind option_bind]. exists m. split; [now destruct m | reflexivity].
Qed.

(** ** Where a value goes *)

(** Cell [p] of sub map [i] can take a value with the new key [k]. *)
Definition usable ss (k : K) (i p : nat) : Prop :=
  exists s c, ss !! i = Some s /\ ObPointerHashArray.cells_ s !! p = Some c /\ (c = Empty \/ c = Erased)
    /\ (forall v, get_key_ v = k -> HashArrayFacts.good_place s p v) /\ (c = Empty -> is_full s = false).

Lemma find_pos_new L k v ow ss : forall i ret at_pos,
  ss = drop i L -> ss <> [] -> (forall j s, ss !! j = Some s -> awf s /\ afind s k = None) ->
  (forall i' p, at_pos = Some (i', p) -> usable L k i' p) ->
  (exists i' p, find_set_pos_loop ss i k (Val v) ow ret at_pos = Some (OB_SUCCESS, Some (i', p)) /\ usable L k i' p)
  \/ find_set_pos_loop ss i k (Val v) ow ret at_pos = Some (OB_HASH_FULL, None)
     /\ forall j s, ss !! j = Some s -> is_full s = true.
Proof.
  induction ss as [| s ss IH]; intros i ret at_pos Hss Hne Hw Hat; [contradiction |]. cbn [find_set_pos_loop].
  assert (L !! i = Some s) as HL by (rewrite <- (Nat.add_0_r i), <- lookup_drop, <- Hss; reflexivity).
  destruct (Hw 0%nat s eq_refl) as [Hws Hns].
  destruct (HashArrayFacts.find_set_pos_new s k v ow Hws Hns) as (p & c & Hp & Hc & Hg & ->). cbn [mbind option_bind].
  destruct (is_full s) eqn:Efull; cbn [andb].
  - change (OB_SUCC OB_HASH_FULL) with false. change (OB_HASH_FULL =? OB_HASH_FULL) with true. cbn iota.
    set (at_pos' := match at_pos with None => _ | _ => _ end).
    assert (forall i' p', at_pos' = Some (i', p') -> usable L k i' p') as Hat'.
    { intros i' p' E. unfold at_pos' in E. destruct at_pos as [q |]; [now apply Hat |].
      destruct (is_erased_cell c) eqn:Ec; [| discriminate]. injection E as <- <-. exists s, c.
      split; [exact HL |]. split; [exact Hp |]. split; [exact Hc |]. split; [exact Hg |]. intros ->. discriminate. }
    destruct ss as [| s1 ss].
    + destruct at_pos' as [[i' p'] |]; [left; exists i', p'; auto |]. right. split; [reflexivity |].
      intros [| j] s0 Hj; [| discriminate]. now injection Hj as <-.
    + destruct (IH (S i) OB_HASH_FULL at_pos') as [Hl | [Hl Hfull]].
      * change (s1 :: ss) with (drop 1 (s :: s1 :: ss)). rewrite Hss, drop_drop. f_equal. lia.
      * discriminate.
      * intros j s0. apply (Hw (S j)).
      * exact Hat'.
      * left. exact Hl.
      * right. split; [exact Hl |]. intros [| j] s0 Hj; [now injection Hj as <- | now apply (Hfull j)].
  - change (OB_SUCC OB_SUCCESS) with true. cbn [mbind option_bind negb]. left.
    destruct at_pos as [[i' p'] |].
    + exists i', p'. split; [reflexivity | now apply Hat].
    + exists i, p. split; [reflexivity |]. exists s, c. auto.
Qed.

Lemma find_pos_old L k v (ow : bool) ss : forall i ret at_pos j s old,
  ss = drop i L -> (forall j s, ss !! j = Some s -> awf s) ->
  ss !! j = Some s -> afind s k = Some old ->
  (forall j' s', (j' < j)%nat -> ss !! j' = Some s' -> afind s' k = None /\ is_full s' = true) ->
  exists p, ObPointerHashArray.cells_ s !! p = Some (Val old) /\ get_key_ old = k
    /\ exists at_pos', find_set_pos_loop ss i k (Val v) ow ret at_pos
         = Some (if ow then OB_SUCCESS else OB_HASH_EXIST, at_pos')
         /\ (ow = true -> at_pos' = Some ((i + j)%nat, p)).
Proof.
  induction ss as [| s0 ss IH]; intros i ret at_pos j s old Hss Hw Hj Hf Hb; [discriminate |].
  cbn [find_set_pos_loop]. destruct j as [| j].
  - injection Hj as ->. destruct (HashArrayFacts.find_set_pos_old s k v old ow (Hw 0%nat s eq_refl) Hf) as (p & Hp & Hk & ->).
    exists p. split; [exact Hp |]. split; [exact Hk |]. cbn [mbind option_bind]. rewrite Nat.add_0_r.
    destruct ow; eexists; (split; [reflexivity |]); [reflexivity | discriminate].
  - destruct (Hb 0%nat s0 ltac:(lia) eq_refl) as [Hn0 Hfull].
    destruct (HashArrayFacts.find_set_pos_new s0 k v ow (Hw 0%nat s0 eq_refl) Hn0) as (p & c & _ & _ & _ & ->).
    cbn [mbind option_bind]. rewrite Hfull. cbn [andb].
    change (OB_SUCC OB_HASH_FULL) with false. change (OB_HASH_FULL =? OB_HASH_FULL) with true. cbn iota.
    set (at_pos' := match at_pos with None => _ | _ => _ end).
    destruct ss as [| s1 ss]; [discriminate |].
    destruct (IH (S i) OB_HASH_FULL at_pos' j s old) as (p' & Hp' & Hk & at' & E & Hat).
    + change (s1 :: ss) with (drop 1 (s0 :: s1 :: ss)). rewrite Hss, drop_drop. f_equal. lia.
    + intros j' s'. apply (Hw (S j')).
    + exact Hj.
    + exact Hf.
    + intros j' s' Hj' Hs'. apply (Hb (S j')); [lia | exact Hs'].
    + exists p'. split; [exact Hp' |]. split; [exact Hk |]. exists at'. split; [exact E |].
      intros Eo. rewrite (Hat Eo). do 2 f_equal. lia.
Qed.

(** ** Rebuilding *)

(** Values that agree on every key, with each other and with the map [f]. *)
Definition coherent (f : K -> option V) (vs : list V) : Prop :=
  forall v, v ∈ vs -> (forall w, w ∈ vs -> get_key_ w = get_key_ v -> w = v)
                      /\ forall w, f (get_key_ v) = Some w -> w = v.

Lemma copy_values_ok vs : forall s, awf s -> coherent (afind s) vs ->
  ObPointerHashArray.count_ s + Z.of_nat (length vs) <= max_entries_ s ->
  exists s', copy_values s vs = Some s' /\ awf s' /\ max_entries_ s' = max_entries_ s
    /\ ObPointerHashArray.count_ s' <= ObPointerHashArray.count_ s + Z.of_nat (length vs)
    /\ forall k v, afind s' k = Some v <-> afind s k = Some v \/ (v ∈ vs /\ get_key_ v = k).
Proof.
  induction vs as [| v vs IH]; intros s Hw Hco Hroom.
  { exists s. split; [reflexivity |]. split; [exact Hw |]. split; [reflexivity |]. split; [simpl; lia |].
    intros k v. split; [auto |]. intros [E | [Hv _]]; [exact E | now apply elem_of_nil in Hv]. }
  cbn [copy_values]. simpl length in Hroom. pose proof (HashArrayFacts.array_set_ok s v false Hw) as Hset.
  destruct (Hco v ltac:(left)) as [Hvv Hvs]. destruct (afind s (get_key_ v)) as [old |] eqn:Ef.
  - rewrite Hset. cbn [mbind option_bind]. assert (old = v) as -> by now apply Hvs.
    destruct (IH s Hw) as (s' & E & Hw' & Hm & Hcn & Hf).
    + intros w Hin. destruct (Hco w ltac:(now right)) as [H1 H2]. split; [intros u Hu; apply H1; now right | exact H2].
    + lia.
    + exists s'. split; [exact E |]. split; [exact Hw' |]. split; [exact Hm |]. split; [simpl; lia |].
      intros k w. rewrite Hf, elem_of_cons. split; [intuition |]. intros [E' | [[-> | Hin] Hk]]; auto.
      left. now rewrite <- Hk.
  - assert (is_full s = false) as Hnf by (unfold is_full; apply Z.leb_gt; lia). rewrite Hnf in Hset.
    destruct Hset as (s1 & -> & (Hw1 & Hm1 & Hf1) & _ & Hc1). cbn [mbind option_bind].
    destruct (IH s1 Hw1) as (s' & E & Hw' & Hm & Hcn & Hf).
    + intros w Hin. destruct (Hco w ltac:(now right)) as [H1 H2]. split; [intros u Hu; apply H1; now right |].
      intros u. rewrite Hf1. destruct (decide (get_key_ w = get_key_ v)) as [Ek |]; [| apply H2].
      intros [= <-]. apply H1; [left | now symmetry].
    + rewrite Hm1. lia.
    + exists s'. split; [exact E |]. split; [exact Hw' |]. split; [congruence |]. split; [simpl; lia |].
      intros k w. rewrite Hf, Hf1, elem_of_cons. destruct (decide (k = get_key_ v)) as [-> | Hk].
      * rewrite Ef. split; [intros [[= <-] | ?]; intuition |]. intros [? | [[-> | ?] ?]]; [discriminate | auto | auto].
      * split; [intuition |]. intros [? | [[-> | ?] ?]]; [auto | congruence | auto].
Qed.

Definition all_values m : list V := concat (map ObPointerHashArray.values (sub_maps_ m)).

Lemma elem_of_all_values m v : inv m -> v ∈ all_values m <-> find m (get_key_ v) = Some v.
Proof.
  intros Hi. unfold all_values. rewrite list_elem_of_In, in_concat. split.
  - intros (l & Hl & Hv). apply in_map_iff in Hl as (s & <- & Hs). apply list_elem_of_In, list_elem_of_lookup in Hs as [i Hs].
    apply (find_at m i s); [exact Hi | exact Hs |]. apply HashArrayFacts.find_Some; [now apply (i_wf m Hi i) |].
    apply list_elem_of_In, HashArrayFacts.elem_of_values in Hv as [j Hj]. eauto.
  - intros E. destruct (find_in_Some _ _ _ E) as (i & s & Hs & Hf & _).
    exists (ObPointerHashArray.values s). split.
    + apply in_map, list_elem_of_In. now apply list_elem_of_lookup_2 in Hs.
    + apply HashArrayFacts.find_Some in Hf as (j & Hj & _); [| now apply (i_wf m Hi i)].
      apply list_elem_of_In, HashArrayFacts.elem_of_values. eauto.
Qed.

Lemma all_values_NoDup m : inv m -> NoDup (all_values m).
Proof.
  intros Hi. unfold all_values. pose proof (i_wf m Hi) as Hw.
  assert (forall i j s s' v, sub_maps_ m !! i = Some s -> sub_maps_ m !! j = Some s' ->
    v ∈ ObPointerHashArray.values s -> v ∈ ObPointerHashArray.values s' -> i = j) as Hd.
  { intros i j s s' v Hs Hs' Hv Hv'. apply HashArrayFacts.elem_of_values in Hv as [p Hp], Hv' as [p' Hp'].
    apply (i_disj m Hi i j s s' (get_key_ v)); [exact Hs | exact Hs' | |]; intros E;
      eapply HashArrayFacts.find_None in E; eauto. }
  clear Hi. induction (sub_maps_ m) as [| s ss IH]; [constructor |]. simpl. apply NoDup_app. split; [| split].
  - apply HashArrayFacts.values_NoDup. now apply (Hw 0%nat).
  - intros v Hv Hin. rewrite list_elem_of_In, in_concat in Hin. destruct Hin as (l & Hl & Hvl).
    apply in_map_iff in Hl as (s' & <- & Hs'). apply list_elem_of_In, list_elem_of_lookup in Hs' as [j Hj].
    apply list_elem_of_In in Hvl. now specialize (Hd 0%nat (S j) s s' v eq_refl Hj Hv Hvl).
  - apply IH; [intros i s' Hs'; now apply (Hw (S i)) |]. intros i j s1 s2 v H1 H2 Hv1 Hv2.
    assert (S i = S j) by now apply (Hd (S i) (S j) s1 s2 v). lia.
Qed.

Lemma length_all_values m : inv m -> Z.of_nat (length (all_values m)) = item_count m.
Proof.
  intros Hi. unfold all_values, item_count, sum_subs. pose proof (i_wf m Hi) as Hw.
  induction (sub_maps_ m) as [| s ss IH]; [reflexivity |]. simpl. rewrite length_app, Nat2Z.inj_add.
  rewrite IH by (intros i s' Hs'; now apply (Hw (S i))).
  rewrite HashArrayFacts.length_values, (HashArrayFacts.wf_items s); [reflexivity | now apply (Hw 0%nat)].
Qed.

(** Two maps with the same entries have the same number of them. *)
Lemma same_item_count m m' : inv m -> inv m' -> (forall k, find m' k = find m k) -> item_count m' = item_count m.
Proof.
  intros Hi Hi' Hs. rewrite <- !length_all_values by assumption. f_equal.
  apply Permutation_length, NoDup_Permutation; [now apply all_values_NoDup | now apply all_values_NoDup |].
  intros v. rewrite !elem_of_all_values by assumption. now rewrite Hs.
Qed.

(** Any single array that holds the values is as good. *)
Lemma single_inv s mem : awf s -> max_entries_ s = sub_limit mem -> OB_MALLOC_NORMAL_BLOCK_SIZE <= mem ->
  inv (mk [s] mem) /\ forall k, find (mk [s] mem) k = afind s k.
Proof.
  intros Hw Hm Hmem. assert (forall i s', [s] !! i = Some s' -> i = 0%nat /\ s' = s) as H1
    by (intros [| i] s' Hi; [injection Hi as <-; auto | discriminate]).
  split.
  - constructor; simpl.
    + discriminate.
    + unfold MAX_SUB_MAP_COUNT. lia.
    + intros i s' Hi. now apply H1 in Hi as [-> ->].
    + intros i s' Hi. now apply H1 in Hi as [-> ->].
    + intros i s' Hi Hl. apply H1 in Hi as [-> ->]. lia.
    + intros i j s1 s2 k Hi Hj. apply H1 in Hi as [-> _], Hj as [-> _]. reflexivity.
    + exact Hmem.
    + lia.
  - intros k. unfold find, find_in. simpl. now destruct (afind s k).
Qed.

(** The memory of a sub map holds at least one entry. *)
Lemma mem_ok mem : OB_MALLOC_NORMAL_BLOCK_SIZE <= mem -> 984 <= HashArrayFacts.mem_capacity mem.
Proof.
  unfold OB_MALLOC_NORMAL_BLOCK_SIZE, HashArrayFacts.mem_capacity, ObPointerHashArray.sizeof_hash_array. intros Hm.
  apply Z.div_le_lower_bound; lia.
Qed.

Lemma sub_limit_pos mem : OB_MALLOC_NORMAL_BLOCK_SIZE <= mem -> 1 <= sub_limit mem.
Proof.
  intros Hm. pose proof (mem_ok mem Hm). unfold sub_limit.
  pose proof (HashArrayFacts.load_limit_bounds (HashArrayFacts.mem_capacity mem) ltac:(lia)) as [_ Hl].
  unfold ObPointerHashArray.M_0_7 in Hl. lia.
Qed.

Lemma rebuild_ok m r : inv m -> (forall n, alloc_ok n = true) -> OB_MALLOC_NORMAL_BLOCK_SIZE <= r -> item_count m < sub_limit r ->
  exists s, copy_from m r = Some (mk [s] r) /\ awf s /\ max_entries_ s = sub_limit r /\ is_full s = false
    /\ forall k, afind s k = find m k.
Proof.
  intros Hi Ha Hr Hitems. unfold copy_from, create_sub_map. rewrite Ha. pose proof (mem_ok r Hr).
  destruct (HashArrayFacts.create_ok (V := V) r ltac:(lia)) as (Hw & Hn & Hm & Hc & _).
  destruct (copy_values_ok (all_values m) (ObPointerHashArray.create r) Hw) as (s & E & Hws & Hms & Hcs & Hf).
  - intros v Hv. apply (elem_of_all_values m v Hi) in Hv. split.
    + intros w Hw' Hk. apply (elem_of_all_values m w Hi) in Hw'. congruence.
    + intros w. rewrite Hn. discriminate.
  - rewrite Hc, Hm, length_all_values by exact Hi. unfold sub_limit in Hitems. lia.
  - exists s. unfold all_values in E. rewrite E. cbn [mbind option_bind]. split; [reflexivity |]. split; [exact Hws |].
    split; [now rewrite Hms, Hm |]. split.
    { unfold is_full. apply Z.leb_gt. rewrite Hc, length_all_values in Hcs by exact Hi. rewrite Hms, Hm.
      unfold sub_limit in Hitems. lia. }
    intros k. apply option_eq. intros v. rewrite Hf, Hn. split.
    + intros [? | [Hv <-]]; [discriminate | now apply elem_of_all_values].
    + intros E'. right. assert (get_key_ v = k) as <-.
      { destruct (find_in_Some _ _ _ E') as (i & s0 & Hs0 & Hf0 & _).
        now apply HashArrayFacts.find_Some in Hf0 as (j & _ & Hk); [| apply (i_wf m Hi i)]. }
      split; [now apply elem_of_all_values | reflexivity].
Qed.

(** ** The size to rebuild to *)

Lemma times_1_1_ge n : 0 <= n -> n <= times_1_1 n.
Proof.
  intros Hn. unfold times_1_1. destruct (Z.eq_dec n 0) as [-> |]; [reflexivity |].
  rewrite Z.shiftr_div_pow2 by lia. apply Z.div_le_lower_bound; [lia |].
  assert (0 < n * M_1_1) as Hp by (unfold M_1_1; lia).
  pose proof (HashArrayFacts.round53_bounds _ Hp) as [_ Hl]. unfold M_1_1 in *. lia.
Qed.

Lemma full_count m : inv m -> (forall i s, sub_maps_ m !! i = Some s -> is_full s = true) ->
  count m = Z.of_nat (length (sub_maps_ m)) * sub_limit (sub_map_mem_size_ m).
Proof.
  intros Hi Hf. unfold count, sum_subs. pose proof (i_wf m Hi) as Hw. pose proof (i_max m Hi) as Hm.
  set (L := sub_limit _) in *. clearbody L.
  induction (sub_maps_ m) as [| s ss IH]; [reflexivity |]. cbn [fold_right length].
  rewrite IH by (intros i s' Hs'; first [now apply (Hf (S i)) | now apply (Hw (S i)) | now apply (Hm (S i))]).
  pose proof (Hf 0%nat s eq_refl) as Hfs. unfold is_full in Hfs. apply Z.leb_le in Hfs.
  pose proof (HashArrayFacts.wf_room s (Hw 0%nat s eq_refl)). pose proof (Hm 0%nat s eq_refl). lia.
Qed.

Lemma items_le m : inv m -> 0 <= item_count m <= count m.
Proof.
  intros Hi. split.
  - rewrite <- length_all_values by exact Hi. lia.
  - unfold item_count, count, sum_subs. pose proof (i_wf m Hi) as Hw.
    induction (sub_maps_ m) as [| s ss IH]; [reflexivity |]. cbn [fold_right].
    pose proof (HashArrayFacts.items_le_count s (Hw 0%nat s eq_refl)).
    specialize (IH ltac:(intros i s' Hs'; now apply (Hw (S i)))). lia.
Qed.

Lemma limit_double mem : OB_MALLOC_NORMAL_BLOCK_SIZE <= mem -> sub_limit mem < sub_limit (mem * 2).
Proof.
  intros Hm. pose proof (mem_ok mem Hm) as H1. unfold sub_limit.
  assert (2 * HashArrayFacts.mem_capacity mem <= HashArrayFacts.mem_capacity (mem * 2)) as H2.
  { unfold HashArrayFacts.mem_capacity, ObPointerHashArray.sizeof_hash_array.
    apply Z.div_le_lower_bound; [lia |]. pose proof (Z.mul_div_le (mem - 64) 8 ltac:(lia)). lia. }
  set (c := HashArrayFacts.mem_capacity mem) in *. set (d := HashArrayFacts.mem_capacity (mem * 2)) in *.
  pose proof (HashArrayFacts.load_limit_bounds c ltac:(lia)) as [Hu _].
  pose proof (HashArrayFacts.load_limit_bounds d ltac:(lia)) as [_ Hl]. unfold ObPointerHashArray.M_0_7 in *. lia.
Qed.

Lemma limit_big mem : OB_MALLOC_NORMAL_BLOCK_SIZE <= mem < OB_MALLOC_BIG_BLOCK_SIZE ->
  sub_limit mem < sub_limit OB_MALLOC_BIG_BLOCK_SIZE.
Proof.
  intros Hm. pose proof (mem_ok mem ltac:(lia)) as H1. unfold sub_limit.
  assert (HashArrayFacts.mem_capacity mem <= 259959) as H2.
  { unfold HashArrayFacts.mem_capacity, ObPointerHashArray.sizeof_hash_array,
      OB_MALLOC_BIG_BLOCK_SIZE, ACHUNK_PRESERVE_SIZE in *.
    apply Z.lt_succ_r, Z.div_lt_upper_bound; lia. }
  change (HashArrayFacts.mem_capacity OB_MALLOC_BIG_BLOCK_SIZE) with 259960 in *.
  change (ObPointerHashArray.load_limit 259960) with 181972.
  set (c := HashArrayFacts.mem_capacity mem) in *.
  pose proof (HashArrayFacts.load_limit_bounds c ltac:(lia)) as [Hu _]. unfold ObPointerHashArray.M_0_7 in *. lia.
Qed.

Lemma resize_target_ok m : inv m -> (forall i s, sub_maps_ m !! i = Some s -> is_full s = true) ->
  match resize_target m with
  | None => (length (sub_maps_ m) < MAX_SUB_MAP_COUNT)%nat
            /\ (sub_map_mem_size_ m = OB_MALLOC_NORMAL_BLOCK_SIZE \/ sub_map_mem_size_ m = OB_MALLOC_BIG_BLOCK_SIZE)
  | Some r => OB_MALLOC_NORMAL_BLOCK_SIZE <= r /\ item_count m < sub_limit r
  end.
Proof.
  intros Hi Hf. pose proof (full_count m Hi Hf) as Hc. pose proof (items_le m Hi) as [Hi0 Hic].
  pose proof (times_1_1_ge (item_count m) Hi0) as Ht. pose proof (i_mem m Hi) as Hmem.
  pose proof (i_fixed m Hi) as Hfix. pose proof (i_len m Hi) as Hlen. pose proof (i_ne m Hi) as Hne.
  unfold resize_target. set (mem := sub_map_mem_size_ m) in *.
  destruct (sub_maps_ m) as [| s0 ss] eqn:Es; [contradiction |]. rewrite <- Es in *.
  assert (1 <= length (sub_maps_ m))%nat as Hl1 by (rewrite Es; simpl; lia).
  destruct (Nat.eqb_spec (length (sub_maps_ m)) 1) as [E1 | E1].
  - rewrite E1 in Hc. destruct (Z.eqb_spec mem OB_MALLOC_NORMAL_BLOCK_SIZE) as [En | En]; cbn [orb].
    { rewrite E1. unfold MAX_SUB_MAP_COUNT. split; [lia | auto]. }
    destruct (Z.eqb_spec mem OB_MALLOC_BIG_BLOCK_SIZE) as [Eb | Eb]; cbn [orb].
    { rewrite E1. unfold MAX_SUB_MAP_COUNT. split; [lia | auto]. }
    pose proof (limit_double mem Hmem) as Hd.
    destruct (Z.leb_spec (count m) (times_1_1 (item_count m))) as [Hx | Hx].
    + destruct (Z.leb_spec (mem * 2) OB_MALLOC_NORMAL_BLOCK_SIZE); [unfold OB_MALLOC_NORMAL_BLOCK_SIZE in *; lia |].
      destruct (Z.ltb_spec mem OB_MALLOC_NORMAL_BLOCK_SIZE); [lia |].
      destruct (Z.leb_spec (mem * 2) OB_MALLOC_BIG_BLOCK_SIZE); [split; lia |].
      destruct (Z.ltb_spec mem OB_MALLOC_BIG_BLOCK_SIZE) as [Hb | Hb]; [| split; lia].
      pose proof (limit_big mem ltac:(lia)). split; [lia |]. lia.
    + destruct (Z.leb_spec mem OB_MALLOC_NORMAL_BLOCK_SIZE); [lia |].
      destruct (Z.ltb_spec mem OB_MALLOC_NORMAL_BLOCK_SIZE); [lia |].
      destruct (Z.leb_spec mem OB_MALLOC_BIG_BLOCK_SIZE); [split; lia |].
      destruct (Z.ltb_spec mem OB_MALLOC_BIG_BLOCK_SIZE); split; lia.
  - destruct (Nat.ltb_spec 1 (length (sub_maps_ m))) as [Hl | Hl]; [| lia]. specialize (Hfix Hl). cbn [andb].
    destruct (Nat.ltb_spec (length (sub_maps_ m)) MAX_SUB_MAP_COUNT) as [Hm4 | Hm4]; [auto |].
    assert (length (sub_maps_ m) = MAX_SUB_MAP_COUNT) as E4 by lia. rewrite E4, Nat.eqb_refl. cbn [andb].
    rewrite E4 in Hc. unfold MAX_SUB_MAP_COUNT in *.
    clearbody mem.
    assert (forall b : bool, 4 * sub_limit mem < sub_limit (4 * (if b then mem * 2 else mem))) as Hs
      by (intros []; destruct Hfix as [-> | ->]; vm_compute; reflexivity).
    replace ((mem =? OB_MALLOC_NORMAL_BLOCK_SIZE) || (mem =? OB_MALLOC_BIG_BLOCK_SIZE)) with true
      by (destruct Hfix as [-> | ->]; reflexivity).
    specialize (Hs (count m <=? times_1_1 (item_count m))). change (Z.of_nat 4) with 4 in *.
    split; [| lia]. unfold OB_MALLOC_NORMAL_BLOCK_SIZE in *. destruct (_ <=? _); lia.
Qed.

(** ** [resize] and [set_refactored] *)

(** [resize] of a map whose sub maps are all full gives a map with the same
    entries and a sub map that has room; no later sub map follows it. *)
Lemma resize_ok m : inv m -> (forall n, alloc_ok n = true) ->
  (forall i s, sub_maps_ m !! i = Some s -> is_full s = true) ->
  exists i s m', resize m = Some (Some i, m') /\ inv m' /\ sub_maps_ m' !! i = Some s /\ is_full s = false
    /\ item_count m' = item_count m /\ forall k, find m' k = find m k.
Proof.
  intros Hi Ha Hf. pose proof (resize_target_ok m Hi Hf) as Ht. unfold resize.
  destruct (resize_target m) as [r |].
  - destruct Ht as [Hr Hitems]. destruct (rebuild_ok m r Hi Ha Hr Hitems) as (s & -> & Hw & Hm & Hnf & Hfind).
    cbn [mbind option_bind]. destruct (single_inv s r Hw Hm Hr) as [Hi' Hf'].
    exists 0%nat, s, (mk [s] r). split; [reflexivity |]. split; [exact Hi' |]. split; [reflexivity |]. split; [exact Hnf |].
    assert (forall k, find (mk [s] r) k = find m k) as Hsame by (intros k; now rewrite Hf').
    split; [now apply same_item_count | exact Hsame].
  - destruct Ht as [Hlen Hfix]. unfold create_sub_map. rewrite Ha. pose proof (i_mem m Hi) as Hmem. pose proof (mem_ok _ Hmem).
    pose proof (sub_limit_pos _ Hmem).
    destruct (HashArrayFacts.create_ok (V := V) (sub_map_mem_size_ m) ltac:(lia)) as (Hw & Hn & Hm & Hc & _).
    set (s0 := ObPointerHashArray.create (sub_map_mem_size_ m)) in *. set (m' := mk (sub_maps_ m ++ [s0]) (sub_map_mem_size_ m)).
    assert (forall i s, sub_maps_ m' !! i = Some s -> sub_maps_ m !! i = Some s \/ (i = length (sub_maps_ m) /\ s = s0)) as Hcase.
    { intros i s Hs. simpl in Hs. apply lookup_app_Some in Hs as [Hs | [Hle Hs]]; [auto |]. right.
      destruct (i - length (sub_maps_ m))%nat eqn:E; [injection Hs as <-; split; [lia | reflexivity] | discriminate]. }
    assert (inv m') as Hi'.
    { constructor.
      - simpl. now destruct (sub_maps_ m).
      - simpl. rewrite length_app. simpl. lia.
      - intros i s Hs. destruct (Hcase i s Hs) as [Hs' | [_ ->]]; [now apply (i_wf m Hi i) | exact Hw].
      - intros i s Hs. destruct (Hcase i s Hs) as [Hs' | [_ ->]]; [now apply (i_max m Hi i) | exact Hm].
      - intros i s Hs Hlt. simpl in Hlt. rewrite length_app in Hlt. simpl in Hlt.
        destruct (Hcase i s Hs) as [Hs' | [-> _]]; [now apply (Hf i) | lia].
      - intros i j s s' k Hs Hs' Hk Hk'.
        destruct (Hcase i s Hs) as [Hm1 | [_ ->]]; [| now rewrite Hn in Hk].
        destruct (Hcase j s' Hs') as [Hm2 | [_ ->]]; [| now rewrite Hn in Hk']. now apply (i_disj m Hi i j s s' k).
      - exact Hmem.
      - intros _. exact Hfix. }
    assert (forall k, find m' k = find m k) as Hsame.
    { intros k. unfold find, find_in. simpl. rewrite omap_app. simpl. rewrite Hn, app_nil_r. reflexivity. }
    exists (length (sub_maps_ m)), s0, m'. split; [reflexivity |]. split; [exact Hi' |].
    split; [apply list_lookup_middle; reflexivity |].
    split; [unfold is_full; apply Z.leb_gt; rewrite Hm, Hc; unfold sub_limit in *; lia |].
    split; [now apply same_item_count | exact Hsame].
Qed.

Definition sets m (v : V) m' : Prop :=
  inv m' /\ forall k', find m' k' = if decide (k' = get_key_ v) then Some v else find m k'.

Lemma init_id m : inv m -> init m = (OB_SUCCESS, m).
Proof. intros Hi. unfold init. pose proof (i_ne m Hi). now destruct (sub_maps_ m). Qed.

(** A write to a usable cell. *)
Lemma write_usable m v i p : inv m -> find m (get_key_ v) = None -> usable (sub_maps_ m) (get_key_ v) i p ->
  exists s s', sub_maps_ m !! i = Some s /\ ObPointerHashArray.set_value s (Some p) (Val v) = Some (OB_SUCCESS, s')
    /\ sets m v (set_sub m i s').
Proof.
  intros Hi Hn (s & c & Hs & Hp & Hc & Hg & Hfull). pose proof (proj1 (find_in_None _ _) Hn) as Hnone.
  destruct (HashArrayFacts.write_new s p c v (i_wf m Hi i s Hs) (Hnone i s Hs) Hp Hc (Hg v eq_refl) Hfull)
    as (s' & E & (Hw & Hmax & Hf) & _ & Hcn).
  exists s, s'. split; [exact Hs |]. split; [exact E |].
  apply (set_sub_ok m i s s' (get_key_ v) (Some v) Hi Hs Hw Hmax); [| exact Hf |].
  - unfold is_full. intros Hl. apply Z.leb_le in Hl. apply Z.leb_le. rewrite Hmax, Hcn. destruct (is_empty_cell c); simpl; lia.
  - intros j s2 _ Hj. now apply (Hnone j).
Qed.

Lemma set_ok m v (ow : bool) : inv m -> (forall n, alloc_ok n = true) ->
  match find m (get_key_ v) with
  | Some _ => if ow then exists m', set_refactored m (get_key_ v) (Val v) ow = Some (OB_SUCCESS, m') /\ sets m v m'
              else set_refactored m (get_key_ v) (Val v) ow = Some (OB_HASH_EXIST, m)
  | None => exists m', set_refactored m (get_key_ v) (Val v) ow = Some (OB_SUCCESS, m') /\ sets m v m'
  end.
Proof.
  intros Hi Ha. unfold set_refactored. rewrite init_id by exact Hi. change (OB_FAIL OB_SUCCESS) with false. cbn iota.
  unfold find_set_pos. destruct (find m (get_key_ v)) as [old |] eqn:Ef.
  - destruct (find_in_Some _ _ _ Ef) as (j & s & Hs & Hf & Hb).
    destruct (find_pos_old (sub_maps_ m) (get_key_ v) v ow (sub_maps_ m) 0 OB_SUCCESS None j s old) as (p & Hp & Hk & at' & -> & Hat).
    + reflexivity.
    + apply (i_wf m Hi).
    + exact Hs.
    + exact Hf.
    + intros j' s' Hj' Hs'. split; [now apply (Hb j') |]. apply (i_full m Hi j' s' Hs').
      apply lookup_lt_Some in Hs. lia.
    + cbn [mbind option_bind]. destruct ow; [| reflexivity]. rewrite (Hat eq_refl).
      change (OB_SUCC OB_SUCCESS) with true. cbn iota. simpl Nat.add. rewrite Hs. cbn [mbind option_bind].
      destruct (HashArrayFacts.write_old s p old v (i_wf m Hi j s Hs) Hp Hk) as (s' & -> & (Hw & Hmax & Hfind) & _ & Hcn).
      cbn [mbind option_bind]. change (OB_SUCCESS =? OB_HASH_FULL) with false. cbn iota.
      eexists. split; [reflexivity |].
      apply (set_sub_ok m j s s' (get_key_ v) (Some v) Hi Hs Hw Hmax); [| exact Hfind |].
      * unfold is_full. now rewrite Hmax, Hcn.
      * intros j' s2 Hne Hj'. apply (find_other m j s (get_key_ v) j' s2); auto. congruence.
  - pose proof (proj1 (find_in_None _ _) Ef) as Hnone.
    destruct (find_pos_new (sub_maps_ m) (get_key_ v) v ow (sub_maps_ m) 0 OB_SUCCESS None) as [(i & p & -> & Hu) | [-> Hall]].
    + reflexivity.
    + apply (i_ne m Hi).
    + intros j s Hj. split; [now apply (i_wf m Hi j) | now apply (Hnone j)].
    + discriminate.
    + cbn [mbind option_bind]. change (OB_SUCC OB_SUCCESS) with true. cbn iota.
      destruct (write_usable m v i p Hi Ef Hu) as (s & s' & -> & E & Hsets). cbn [mbind option_bind]. rewrite E.
      cbn [mbind option_bind]. change (OB_SUCCESS =? OB_HASH_FULL) with false. cbn iota. eauto.
    + cbn [mbind option_bind]. change (OB_SUCC OB_HASH_FULL) with false. cbn [mbind option_bind].
      change (OB_HASH_FULL =? OB_HASH_FULL) with true. cbn iota.
      destruct (resize_ok m Hi Ha Hall) as (i & s & m' & -> & Hi' & Hs & Hnf & _ & Hsame).
      cbn [mbind option_bind]. rewrite Hs. cbn [mbind option_bind].
      assert (find m' (get_key_ v) = None) as Hn' by now rewrite Hsame. pose proof (proj1 (find_in_None _ _) Hn') as Hnone'.
      pose proof (HashArrayFacts.array_set_ok s v ow (i_wf m' Hi' i s Hs)) as Hset. rewrite (Hnone' i s Hs), Hnf in Hset.
      destruct Hset as (s' & -> & (Hw & Hmax & Hf) & _ & _). cbn [mbind option_bind]. eexists. split; [reflexivity |].
      destruct (set_sub_ok m' i s s' (get_key_ v) (Some v) Hi' Hs Hw Hmax) as [Hi2 Hf2]; [congruence | exact Hf | |].
      * intros j s2 _ Hj. now apply (Hnone' j).
      * split; [exact Hi2 |]. intros k'. rewrite Hf2. destruct (decide _); [reflexivity | apply Hsame].
Qed.

(** ** [init] and [clear] *)

Lemma init_ok : (forall n, alloc_ok n = true) ->
  exists m, init (V := V) new_map = (OB_SUCCESS, m) /\ inv m /\ forall k, find m k = None.
Proof.
  intros Ha. unfold init, new_map, create_sub_map. simpl. rewrite Ha. eexists. split; [reflexivity |].
  destruct (HashArrayFacts.create_ok (V := V) OB_MALLOC_NORMAL_BLOCK_SIZE) as (Hw & Hn & Hm & _); [vm_compute; discriminate |].
  destruct (single_inv (ObPointerHashArray.create OB_MALLOC_NORMAL_BLOCK_SIZE) OB_MALLOC_NORMAL_BLOCK_SIZE Hw Hm) as [Hi Hf];
    [lia |]. split; [exact Hi |]. intros k. rewrite Hf. apply Hn.
Qed.

Lemma clear_ok m : inv m -> inv (clear m) /\ forall k, find (clear m) k = None.
Proof.
  intros Hi. unfold clear. pose proof (i_ne m Hi). destruct (sub_maps_ m) as [| s ss] eqn:E; [contradiction |].
  assert (sub_maps_ m !! 0%nat = Some s) as Hs by now rewrite E.
  pose proof (i_max m Hi 0%nat s Hs) as Hm. pose proof (sub_limit_pos _ (i_mem m Hi)).
  destruct (HashArrayFacts.array_clear_ok s (i_wf m Hi 0%nat s Hs)) as [Hw Hn]; [lia |].
  destruct (single_inv (ObPointerHashArray.clear s) (sub_map_mem_size_ m) Hw Hm (i_mem m Hi)) as [Hi' Hf'].
  split; [exact Hi' |]. intros k. rewrite Hf'. apply Hn.
Qed.
End Facts.
End HashMapFacts.
