(* ===== verification/SortedVector.v ===== *)
(** [ObVector] and [ObSortedVector] of [deps/oblib/src/lib/container/ob_vector.h]
    and [ob_vector.ipp], for vectors of pointers to objects that do not change.

    A vector is its elements and the number of elements its memory has room for;
    an iterator is an index.  The binary search is [std::lower_bound]. *)
From Stdlib Require Import Sorted.
From stdpp Require Import sorting.
From S2P Require Import Prelude FixedArray.

Module ObVector.
Record t (A : Type) := mk { elems_ : list A; capacity_ : Z }.
Arguments mk {A}. Arguments elems_ {A}. Arguments capacity_ {A}.

Section Ops.
Context `{Allocator} {A : Type}.
Implicit Type v : t A.

Definition empty : t A := mk [] 0.
Definition size v : Z := Z.of_nat (length (elems_ v)).
Definition remain v : Z := capacity_ v - size v.

(** [insert(pos, value)]: the elements from [pos] on move by one; when the memory
    is full it is replaced by one of twice the new size. *)
Definition insert v (pos : nat) (value : A) : Z * t A :=
  let l := take pos (elems_ v) ++ value :: drop pos (elems_ v) in
  if 1 <=? remain v then (OB_SUCCESS, mk l (capacity_ v))
  else
    let new_size := (size v + 1) * 2 in
    if alloc_ok (new_size * 8) then (OB_SUCCESS, mk l new_size) else (OB_ALLOCATE_MEMORY_FAILED, v).

(** [replace(pos, value, replaced_value)]. *)
Definition replace v (pos : nat) (value : A) : Z * option A * t A :=
  match elems_ v !! pos with
  | Some old => (OB_SUCCESS, Some old, mk (<[pos := value]> (elems_ v)) (capacity_ v))
  | None => (OB_ENTRY_NOT_EXIST, None, v)
  end.

(** [remove(pos)]. *)
Definition remove v (pos : nat) : Z * t A :=
  if decide (pos < length (elems_ v))%nat
  then (OB_SUCCESS, mk (delete pos (elems_ v)) (capacity_ v)) else (OB_ARRAY_OUT_OF_RANGE, v).

Definition clear v : t A := mk [] 0.

Definition assign v (other : t A) : Z * t A :=
  if 0 <? size other then
    if alloc_ok (size other * 8) then (OB_SUCCESS, mk (elems_ other) (size other)) else (OB_ALLOCATE_MEMORY_FAILED, mk [] 0)
  else (OB_SUCCESS, mk [] 0).
End Ops.
End ObVector.

Module ObSortedVector.
Import ObVector.

(** [std::lower_bound] from [first] over [len] elements. *)
Fixpoint lower_bound_loop {A B} (fuel : nat) (compare : A -> B -> bool) (l : list A) (value : B)
    (first len : nat) : option nat :=
  match len with
  | O => Some first
  | _ =>
      match fuel with
      | O => None
      | S fuel' =>
          let half := (len / 2)%nat in
          let mid := (first + half)%nat in
          x ← l !! mid;
          if compare x value
          then lower_bound_loop fuel' compare l value (S mid) (len - half - 1)
          else lower_bound_loop fuel' compare l value first half
      end
  end.
Definition lower_bound {A B} (compare : A -> B -> bool) (l : list A) (value : B) : option nat :=
  lower_bound_loop (length l) compare l value 0 (length l).

Section Ops.
Context `{Allocator} {A : Type}.
Implicit Type v : t A.

(** [replace(value, pos, compare, equal, replaced)]: overwrite or insert; the
    result carries the replaced value. *)
Definition replace v (value : A) (compare equal : A -> A -> bool) : option (Z * option A * t A) :=
  find_pos ← lower_bound compare (elems_ v) value;
  Some match elems_ v !! find_pos with
       | Some x => if equal x value then ObVector.replace v find_pos value
                   else let '(ret, v) := insert v find_pos value in (ret, None, v)
       | None => let '(ret, v) := insert v find_pos value in (ret, None, v)
       end.

(** [find(value, pos, compare, equal)]. *)
Definition find {B} v (value : B) (compare equal : A -> B -> bool) : option (Z * option nat) :=
  pos ← lower_bound compare (elems_ v) value;
  Some match elems_ v !! pos with
       | Some x => if equal x value then (OB_SUCCESS, Some pos) else (OB_ENTRY_NOT_EXIST, None)
       | None => (OB_ENTRY_NOT_EXIST, None)
       end.

(** [remove_if(value, compare, equal, removed)]. *)
Definition remove_if {B} v (value : B) (compare equal : A -> B -> bool) : option (Z * option A * t A) :=
  '(ret, pos) ← find v value compare equal;
  match pos with
  | Some p =>
      x ← elems_ v !! p;
      let '(ret, v) := remove v p in Some (ret, Some x, v)
  | None => Some (ret, None, v)
  end.
End Ops.

(** ** The search on a partitioned vector *)

(** The elements before [n], and no others, are before [value]. *)
Definition split_at {A B} (compare : A -> B -> bool) (l : list A) (value : B) (n : nat) : Prop :=
  (n <= length l)%nat /\ (forall i x, l !! i = Some x -> compare x value = bool_decide (i < n)%nat).

Lemma lower_bound_loop_spec {A B} (compare : A -> B -> bool) l value n fuel : forall first len,
  split_at compare l value n -> (first <= n <= first + len)%nat -> (first + len <= length l)%nat -> (len <= fuel)%nat ->
  lower_bound_loop fuel compare l value first len = Some n.
Proof.
  induction fuel as [| fuel IH]; intros first len Hs Hn Hl Hf; destruct len as [| len]; cbn [lower_bound_loop];
    try (f_equal; lia); try lia.
  set (half := (S len / 2)%nat). assert (half < S len)%nat as Hh by (apply Nat.div_lt; lia).
  destruct (lookup_lt_is_Some_2 l (first + half) ltac:(lia)) as [x Hx]. rewrite Hx. cbn [mbind option_bind].
  destruct Hs as [Hle Hc]. rewrite (Hc _ _ Hx). case_bool_decide; apply IH; try split; auto; lia.
Qed.

Lemma lower_bound_spec {A B} (compare : A -> B -> bool) l value n :
  split_at compare l value n -> lower_bound compare l value = Some n.
Proof. intros Hs. apply lower_bound_loop_spec; [exact Hs | destruct Hs; lia | lia | lia]. Qed.
End ObSortedVector.

(** ** Vectors sorted by a key *)

(** A strict total order, as a boolean function. *)
Class StrictOrderB {K} (ltb : K -> K -> bool) : Prop := mkStrictOrderB
  { ltb_irrefl : forall k, ltb k k = false;
    ltb_trans : forall a b c, ltb a b = true -> ltb b c = true -> ltb a c = true;
    ltb_total : forall a b, ltb a b = true \/ a = b \/ ltb b a = true }.

Module SortedFacts.
Import ObVector ObSortedVector.

Section Facts.
Context `{Allocator} {A K : Type} `{EqDecision K} (key : A -> K) (ltb : K -> K -> bool) `{!StrictOrderB ltb}.

Definition key_lt (x y : A) : Prop := ltb (key x) (key y) = true.
Definition sorted (l : list A) : Prop := StronglySorted key_lt l.

Lemma sorted_lookup l i j x y : sorted l -> l !! i = Some x -> l !! j = Some y -> (i < j)%nat -> key_lt x y.
Proof.
  intros Hs. revert i j. induction Hs as [| z l Hs IH Hz]; intros i j Hi Hj Hlt; [discriminate |].
  destruct j as [| j]; [lia |]. destruct i as [| i].
  - injection Hi as <-. rewrite Forall_lookup in Hz. now apply (Hz j).
  - apply (IH i j); auto. lia.
Qed.

Lemma ltb_asym a b : ltb a b = true -> ltb b a = false.
Proof.
  intros Hab. destruct (ltb b a) eqn:E; [| reflexivity]. rewrite <- (ltb_irrefl a). symmetry. now apply (ltb_trans a b).
Qed.

Lemma sorted_app_inv l1 l2 : sorted (l1 ++ l2) -> sorted l1 /\ sorted l2.
Proof. intros Hs. split; [now apply StronglySorted_app_1_l in Hs | now apply StronglySorted_app_1_r in Hs]. Qed.

(** A sorted vector around a key: what is before it, the element that has it if
    there is one, and what is after it. *)
Record parts (l : list A) (k : K) (a m b : list A) : Prop := mk_parts
  { parts_eq : l = a ++ m ++ b;
    parts_before : Forall (fun x => ltb (key x) k = true) a;
    parts_at : m = [] \/ exists x, m = [x] /\ key x = k;
    parts_after : Forall (fun x => ltb k (key x) = true) b }.

Lemma sorted_parts l k : sorted l -> exists a m b, parts l k a m b.
Proof.
  intros Hs. induction Hs as [| z l Hs IH Hz]; [exists [], [], []; split; auto |].
  destruct (ltb_total (key z) k) as [Hlt | [Heq | Hlt]].
  - destruct IH as (a & m & b & [-> Ha Hm Hb]). exists (z :: a), m, b. split; auto.
  - exists [], [z], l. split; auto; [eauto |]. subst k. apply Hz.
  - exists [], [], (z :: l). split; auto. constructor; [exact Hlt |]. eapply Forall_impl; [exact Hz |].
    intros y Hy. exact (ltb_trans _ _ _ Hlt Hy).
Qed.

Lemma parts_split l k a m b : parts l k a m b -> split_at (fun x k => ltb (key x) k) l k (length a).
Proof.
  intros [-> Ha Hm Hb]. split; [rewrite length_app; lia |]. intros i x Hi.
  apply lookup_app_Some in Hi as [Hi | [Hle Hi]].
  - rewrite Forall_lookup in Ha. rewrite (Ha i x Hi). symmetry. apply bool_decide_eq_true. now apply lookup_lt_Some in Hi.
  - rewrite bool_decide_eq_false_2 by lia. destruct Hm as [-> | (y & -> & Hy)].
    + rewrite Forall_lookup in Hb. apply ltb_asym. exact (Hb _ _ Hi).
    + destruct (i - length a)%nat as [| j]; simpl in Hi.
      * injection Hi as <-. rewrite Hy. apply ltb_irrefl.
      * rewrite Forall_lookup in Hb. apply ltb_asym. exact (Hb _ _ Hi).
Qed.

(** The element found by the search is the one with the key, if there is one. *)
Lemma parts_lookup l k a m b : parts l k a m b ->
  match l !! length a with
  | Some x => if decide (key x = k) then m = [x] else m = []
  | None => m = [] /\ b = []
  end.
Proof.
  intros [-> Ha Hm Hb]. rewrite lookup_app_r, Nat.sub_diag by lia. destruct Hm as [-> | (x & -> & Hx)]; simpl.
  - destruct b as [| y b]; simpl; [auto |]. destruct (decide (key y = k)) as [Hk |]; [| reflexivity].
    apply Forall_inv in Hb. rewrite Hk, ltb_irrefl in Hb. discriminate.
  - now rewrite decide_True.
Qed.

(** The key's element put in, or taken out. *)
Lemma parts_sorted l k a m b v : sorted l -> parts l k a m b -> key v = k -> sorted (a ++ v :: b) /\ sorted (a ++ b).
Proof.
  intros Hs [-> Ha Hm Hb] Hv. apply sorted_app_inv in Hs as [Hsa Hs]. apply sorted_app_inv in Hs as [_ Hsb].
  rewrite Forall_forall in Ha, Hb. assert (forall x y, x ∈ a -> y ∈ b -> key_lt x y) as Hab.
  { intros x y Hx Hy. exact (ltb_trans _ _ _ (Ha x Hx) (Hb y Hy)). }
  split; apply StronglySorted_app; repeat split; auto.
  - intros x y Hx [-> | Hy]%elem_of_cons; [unfold key_lt; rewrite Hv; auto | auto].
  - constructor; [exact Hsb |]. apply Forall_forall. intros y Hy. unfold key_lt. rewrite Hv. auto.
Qed.

Lemma parts_elem l k a m b x : parts l k a m b -> x ∈ a ++ b <-> x ∈ l /\ key x <> k.
Proof.
  intros [-> Ha Hm Hb]. rewrite Forall_forall in Ha, Hb. rewrite !elem_of_app.
  assert (x ∈ a -> key x <> k) as Hxa. { intros Hx Hk. specialize (Ha x Hx). rewrite Hk, ltb_irrefl in Ha. discriminate. }
  assert (x ∈ b -> key x <> k) as Hxb. { intros Hx Hk. specialize (Hb x Hx). rewrite Hk, ltb_irrefl in Hb. discriminate. }
  destruct Hm as [-> | (y & -> & Hy)]; rewrite ?list_elem_of_singleton, ?elem_of_nil; [tauto |].
  assert (x = y -> key x = k) by congruence. tauto.
Qed.

Lemma sorted_keys l x y : sorted l -> x ∈ l -> y ∈ l -> key x = key y -> x = y.
Proof.
  intros Hs Hx Hy Hk. apply list_elem_of_lookup in Hx as [i Hi], Hy as [j Hj].
  destruct (lt_eq_lt_dec i j) as [[Hlt | ->] | Hlt]; [| congruence |].
  - pose proof (sorted_lookup l i j x y Hs Hi Hj Hlt) as E. unfold key_lt in E. rewrite Hk, ltb_irrefl in E. discriminate.
  - pose proof (sorted_lookup l j i y x Hs Hj Hi Hlt) as E. unfold key_lt in E. rewrite Hk, ltb_irrefl in E. discriminate.
Qed.
(** The vector [l'] is [l] with [v] at its key, or with nothing at the key [k]. *)
Definition puts (l : list A) (v : A) (l' : list A) : Prop :=
  sorted l' /\ forall x, x ∈ l' <-> x = v \/ x ∈ l /\ key x <> key v.
Definition takes (l : list A) (k : K) (l' : list A) : Prop :=
  sorted l' /\ forall x, x ∈ l' <-> x ∈ l /\ key x <> k.

Lemma parts_puts l v a m b : sorted l -> parts l (key v) a m b -> puts l v (a ++ v :: b).
Proof.
  intros Hs Hp. split; [now apply (parts_sorted l (key v) a m b) |]. intros x.
  rewrite <- (parts_elem l (key v) a m b x Hp), !elem_of_app, elem_of_cons. tauto.
Qed.
Lemma parts_takes l k a m b : sorted l -> parts l k a m b -> takes l k (a ++ b).
Proof.
  intros Hs Hp. split; [| intros x; now apply (parts_elem l k a m b)].
  destruct Hp as [-> Ha Hm Hb]. destruct Hm as [-> | (x & -> & Hx)]; [assumption |].
  apply (parts_sorted (a ++ [x] ++ b) k a [x] b x); auto. split; auto. right. eauto.
Qed.

(** The search with comparison functions that look at the keys. *)
Section Search.
Context {B : Type} (kb : B -> K) (compare equal : A -> B -> bool).
Context (Hcmp : forall x y, compare x y = ltb (key x) (kb y)) (Heq : forall x y, equal x y = bool_decide (key x = kb y)).

Lemma search_parts l value a m b : parts l (kb value) a m b -> lower_bound compare l value = Some (length a).
Proof.
  intros Hp. apply lower_bound_spec. destruct (parts_split l (kb value) a m b Hp) as [Hle Hsp].
  split; [exact Hle |]. intros i x Hi. rewrite Hcmp. now apply Hsp.
Qed.

Lemma search_equal l value a m b x : parts l (kb value) a m b -> l !! length a = Some x ->
  equal x value = true /\ m = [x] \/ equal x value = false /\ m = [].
Proof.
  intros Hp Hx. pose proof (parts_lookup l (kb value) a m b Hp) as Hm. rewrite Hx in Hm. rewrite Heq.
  destruct (decide (key x = kb value)) as [Hk | Hk];
    [left; now rewrite bool_decide_eq_true_2 | right; now rewrite bool_decide_eq_false_2].
Qed.

(** [remove_if] takes out the element with the key, or reports that there is none. *)
Lemma remove_if_ok v (value : B) : sorted (elems_ v) ->
  (exists x v', x ∈ elems_ v /\ key x = kb value /\ remove_if v value compare equal = Some (OB_SUCCESS, Some x, v')
                /\ takes (elems_ v) (kb value) (elems_ v'))
  \/ (forall x, x ∈ elems_ v -> key x <> kb value)
     /\ remove_if v value compare equal = Some (OB_ENTRY_NOT_EXIST, None, v).
Proof.
  intros Hs. destruct (sorted_parts (elems_ v) (kb value) Hs) as (a & m & b & Hp).
  assert (m = [] -> forall x, x ∈ elems_ v -> key x <> kb value) as Hnone.
  { intros -> x Hx. apply (parts_elem (elems_ v) (kb value) a [] b x Hp). now rewrite (parts_eq _ _ _ _ _ Hp) in Hx. }
  unfold remove_if, find. rewrite (search_parts _ _ _ _ _ Hp). cbn [mbind option_bind].
  destruct (elems_ v !! length a) as [x |] eqn:Ex.
  - destruct (search_equal _ _ _ _ _ x Hp Ex) as [[-> ->] | [-> ->]]; [left | right; auto].
    cbn iota. rewrite Ex. cbn [mbind option_bind]. unfold remove. rewrite decide_True by (now apply lookup_lt_Some in Ex).
    eexists x, _. split; [now apply list_elem_of_lookup_2 in Ex |]. split; [| split; [reflexivity |]].
    + destruct (parts_at _ _ _ _ _ Hp) as [? | (y & Hy & Hk)]; [discriminate |]. congruence.
    + simpl. rewrite (parts_eq _ _ _ _ _ Hp) at 2. change ([x] ++ b) with (x :: b). rewrite delete_middle.
      now apply (parts_takes _ _ _ [x]).
  - right. pose proof (parts_lookup _ _ _ _ _ Hp) as Hm. rewrite Ex in Hm. destruct Hm as [-> _]. auto.
Qed.
End Search.

(** [replace] puts the value at its key. *)
Lemma replace_ok v value (compare equal : A -> A -> bool) :
  (forall x y, compare x y = ltb (key x) (key y)) -> (forall x y, equal x y = bool_decide (key x = key y)) ->
  (forall n, alloc_ok n = true) -> sorted (elems_ v) ->
  exists old v', replace v value compare equal = Some (OB_SUCCESS, old, v') /\ puts (elems_ v) value (elems_ v').
Proof.
  intros Hcmp Heq Ha Hs. destruct (sorted_parts (elems_ v) (key value) Hs) as (a & m & b & Hp).
  assert (m = [] -> exists v', insert v (length a) value = (OB_SUCCESS, v') /\ puts (elems_ v) value (elems_ v')) as Hins.
  { intros ->. pose proof (parts_puts _ _ _ _ _ Hs Hp) as Hput. unfold insert. rewrite Ha.
    rewrite (parts_eq _ _ _ _ _ Hp) in Hput |- *. rewrite take_app_length, drop_app_length. simpl.
    destruct (1 <=? remain v); eexists; split; try reflexivity; exact Hput. }
  unfold replace. rewrite (search_parts key compare Hcmp _ _ _ _ _ Hp). cbn [mbind option_bind].
  destruct (elems_ v !! length a) as [x |] eqn:Ex.
  - destruct (search_equal key equal Heq _ _ _ _ _ x Hp Ex) as [[-> ->] | [-> Hm]].
    + cbn iota. unfold ObVector.replace. rewrite Ex. do 2 eexists. split; [reflexivity |]. simpl.
      rewrite (parts_eq _ _ _ _ _ Hp) at 2. rewrite insert_app_r_alt, Nat.sub_diag by lia. simpl.
      now apply (parts_puts _ _ _ [x]).
    + destruct (Hins Hm) as (v' & -> & Hput). eauto.
  - pose proof (parts_lookup _ _ _ _ _ Hp) as Hm. rewrite Ex in Hm. destruct Hm as [Hm _].
    destruct (Hins Hm) as (v' & -> & Hput). eauto.
Qed.
End Facts.
End SortedFacts.
