(* ===== verification/SEArray.v ===== *)
(** [ObSEArrayImpl] of [deps/oblib/src/lib/container/ob_se_array.h]: an array
    with room for [LOCAL_ARRAY_SIZE] elements inside the object, which moves to
    allocated blocks when it grows.

    [items_] are the [count_] elements.  The constants of an instance of the
    template (the size of an element, the local size, the value of the
    default constructor) are the class [SEParams]; copying an element succeeds,
    as it does for the strings and enumerations the program keeps in these
    arrays.  [None] is a write past the capacity. *)
From S2P Require Import Prelude FixedArray.

Module ObSEArray.
Definition OB_MALLOC_NORMAL_BLOCK_SIZE : Z := Z.shiftl 1 13 - 256.

Class SEParams (T : Type) := { sizeof_T : Z; LOCAL_ARRAY_SIZE : Z; default_T : T }.

Record t (T : Type) := mk { items_ : list T; capacity_ : Z; error_ : Z }.
Arguments mk {T}. Arguments items_ {T}. Arguments capacity_ {T}. Arguments error_ {T}.

Section Ops.
Context `{Allocator, SEParams T}.
Implicit Type a : t T.

Definition block_size_ : Z := Z.max sizeof_T OB_MALLOC_NORMAL_BLOCK_SIZE.
Definition count a : Z := Z.of_nat (length (items_ a)).

(** The constructor and [reset], which is [destroy]. *)
Definition empty : t T := mk [] LOCAL_ARRAY_SIZE OB_SUCCESS.
Definition reset a : t T := empty.
Definition reuse a : t T := mk [] (capacity_ a) OB_SUCCESS.

(** The size in bytes a request for [capacity] elements is rounded to; the
    product is computed modulo [2^64] and read as signed. *)
Definition block_bytes (capacity : Z) : Z :=
  let new_size := to_int64 (capacity * sizeof_T) in
  let plus := Z.rem new_size block_size_ in
  to_int64 (new_size + (if 0 =? plus then 0 else block_size_ - plus)).

Definition reserve a (capacity : Z) : Z * t T :=
  if capacity_ a <? capacity then
    let new_size := block_bytes capacity in
    if alloc_ok new_size
    then (OB_SUCCESS, mk (items_ a) (uwrap64 new_size / sizeof_T) (error_ a))
    else (OB_ALLOCATE_MEMORY_FAILED, a)
  else (OB_SUCCESS, a).

Definition push_back a (obj : T) : option (Z * t T) :=
  let '(ret, a) := if count a =? capacity_ a then reserve a (2 * capacity_ a) else (OB_SUCCESS, a) in
  if OB_SUCC ret then
    if count a <? capacity_ a
    then Some (ret, mk (items_ a ++ [obj]) (capacity_ a) (error_ a)) else None
  else Some (ret, a).

Definition pop_back a : t T :=
  if count a <=? 0 then a else mk (removelast (items_ a)) (capacity_ a) (error_ a).
(** [pop_back(obj)]: the code and the element handed out. *)
Definition pop_back_obj a (obj : T) : Z * T * t T :=
  if count a <=? 0 then (OB_ENTRY_NOT_EXIST, obj, a)
  else (OB_SUCCESS, List.last (items_ a) obj, mk (removelast (items_ a)) (capacity_ a) (error_ a)).

(** [array_remove] shifts the later elements down by one. *)
Definition remove a (idx : Z) : Z * t T :=
  if (idx <? 0) || (count a <=? idx) then (OB_ARRAY_OUT_OF_RANGE, a)
  else (OB_SUCCESS, mk (delete (Z.to_nat idx) (items_ a)) (capacity_ a) (error_ a)).

Definition at_ a (idx : Z) (obj : T) : Z * T :=
  if (idx <? 0) || (count a <=? idx) then (OB_ARRAY_OUT_OF_RANGE, obj)
  else (OB_SUCCESS, nth (Z.to_nat idx) (items_ a) obj).

(** [prepare_allocate(capacity)]: default-constructed elements up to [capacity]. *)
Definition prepare_allocate a (capacity : Z) : option (Z * t T) :=
  let '(ret, a) := if capacity_ a <? capacity then reserve a capacity else (OB_SUCCESS, a) in
  if OB_SUCC ret then
    if count a <? capacity then
      if capacity <=? capacity_ a
      then Some (ret, mk (items_ a ++ replicate (Z.to_nat (capacity - count a)) default_T)
                   (capacity_ a) (error_ a))
      else None
    else Some (ret, a)
  else Some (ret, a).

(** [operator=] and [assign] from another array. *)
Definition op_assign a (other : t T) : option (t T) :=
  let a := reuse a in
  let N := count other in
  let '(ret, a) := reserve a N in
  if OB_SUCC ret then
    if N <=? capacity_ a then Some (mk (items_ other) (capacity_ a) ret) else None
  else Some (mk (items_ a) (capacity_ a) ret).
Definition assign a (other : t T) : option (Z * t T) :=
  let a := reuse a in
  let N := count other in
  let '(ret, a) := reserve a N in
  if OB_SUCC ret then
    if N <=? capacity_ a then Some (ret, mk (items_ other) (capacity_ a) (error_ a)) else None
  else Some (ret, a).

(** What every array of the program satisfies: it has its local room, and the
    elements fit. *)
Definition wf a : Prop := LOCAL_ARRAY_SIZE <= capacity_ a /\ count a <= capacity_ a < 2 ^ 62.
End Ops.

(** Sizes for which the byte count does not overflow. *)
Class SELaws (T : Type) `{SEParams T} :=
  { sizeof_pos : 0 < sizeof_T < 2 ^ 20; local_pos : 0 < LOCAL_ARRAY_SIZE < 2 ^ 20 }.

Section Facts.
Context `{Allocator, SELaws T}.
Implicit Type a : t T.

Lemma block_bytes_small capacity :
  0 <= capacity < 2 ^ 42 ->
  capacity * sizeof_T <= block_bytes capacity < capacity * sizeof_T + 2 ^ 21 /\
  block_bytes capacity < 2 ^ 63.
Proof.
  intros Hc. pose proof (sizeof_pos (T := T)) as Hp. unfold block_bytes, block_size_.
  assert (0 <= capacity * sizeof_T <= 2 ^ 62) as Hb.
  { split; [apply Z.mul_nonneg_nonneg; lia |]. change (2 ^ 62) with (2 ^ 42 * 2 ^ 20).
    apply Z.mul_le_mono_nonneg; lia. }
  set (n := capacity * sizeof_T) in *. set (bs := Z.max _ _).
  assert (0 < bs < 2 ^ 21) as Hs
    by (unfold bs, OB_MALLOC_NORMAL_BLOCK_SIZE; change (Z.shiftl 1 13) with 8192; lia).
  unfold to_int64. rewrite (swrap_small 64 n) by lia.
  pose proof (Z.rem_bound_pos n bs ltac:(lia) ltac:(lia)).
  destruct (0 =? _); rewrite swrap_small by lia; lia.
Qed.

Lemma reserve_spec a capacity :
  wf a -> 0 <= capacity < 2 ^ 42 ->
  let '(ret, a') := reserve a capacity in
  wf a' /\ items_ a' = items_ a /\ error_ a' = error_ a /\
  (ret = OB_SUCCESS /\ Z.max capacity (capacity_ a) <= capacity_ a' \/
   ret = OB_ALLOCATE_MEMORY_FAILED /\ a' = a /\ capacity_ a < capacity /\ exists k, alloc_ok k = false).
Proof.
  intros [Hl Hw] Hc. unfold reserve. destruct (Z.ltb_spec (capacity_ a) capacity) as [Hgt | Hle].
  - pose proof (block_bytes_small capacity Hc) as [Hb Hb']. pose proof (sizeof_pos (T := T)) as Hs.
    destruct (alloc_ok _) eqn:Ea; [| repeat split; eauto 10; lia].
    assert (0 <= capacity * sizeof_T) by (apply Z.mul_nonneg_nonneg; lia).
    rewrite uwrap64_small by (unfold W64; lia).
    assert (capacity <= block_bytes capacity / sizeof_T) by (apply Z.div_le_lower_bound; lia).
    assert (block_bytes capacity / sizeof_T < capacity + 2 ^ 21) by (apply Z.div_lt_upper_bound; [lia | nia]).
    unfold wf, count in *. simpl. repeat split; try lia.
  - repeat split; auto; lia.
Qed.

(** *** The array as a list *)

(** The calls that change an array, and what each does to the list of its
    elements when it succeeds. *)
Inductive call := Push (obj : T) | Pop | Remove (idx : Z) | Reserve (n : Z) | Prepare (n : Z)
  | Reuse | Reset | Assign (other : t T).
Definition run a (c : call) : option (Z * t T) :=
  match c with
  | Push obj => push_back a obj
  | Pop => Some (OB_SUCCESS, pop_back a)
  | Remove idx => Some (remove a idx)
  | Reserve n => Some (reserve a n)
  | Prepare n => prepare_allocate a n
  | Reuse => Some (OB_SUCCESS, reuse a)
  | Reset => Some (OB_SUCCESS, reset a)
  | Assign other => assign a other
  end.
Definition list_run (l : list T) (c : call) : list T :=
  match c with
  | Push obj => l ++ [obj]
  | Pop => removelast l
  | Remove idx => if idx <? 0 then l else delete (Z.to_nat idx) l
  | Reserve _ => l
  | Prepare n => l ++ replicate (Z.to_nat n - length l) default_T
  | Reuse | Reset => []
  | Assign other => items_ other
  end.

(** The list an unsuccessful call leaves: [assign] empties the array first. *)
Definition list_failed (l : list T) (c : call) : list T :=
  match c with Assign _ => [] | _ => l end.

(** The requests are below [2^41] elements. *)
Definition small_call (c : call) : Prop :=
  match c with
  | Reserve n | Prepare n => 0 <= n < 2 ^ 41
  | Assign other => count other < 2 ^ 41
  | _ => True
  end.

Lemma se_wf_empty : wf (T := T) empty.
Proof. pose proof (local_pos (T := T)). unfold wf, empty, count. simpl. lia. Qed.

Lemma se_push_back_spec a obj :
  wf a -> count a < 2 ^ 41 ->
  exists ret a', push_back a obj = Some (ret, a') /\ wf a' /\
  (ret = OB_SUCCESS /\ items_ a' = items_ a ++ [obj] /\ capacity_ a <= capacity_ a' \/
   ret = OB_ALLOCATE_MEMORY_FAILED /\ a' = a /\ count a = capacity_ a /\ exists k, alloc_ok k = false).
Proof.
  intros Hw Hc. pose proof (local_pos (T := T)). unfold push_back. destruct (Z.eqb_spec (count a) (capacity_ a)) as [E | Ne].
  - pose proof (reserve_spec a (2 * capacity_ a) Hw ltac:(unfold wf, count in *; lia)) as Hr.
    destruct (reserve _ _) as [ret a'] eqn:Er. destruct Hr as ([Hl Hw'] & Hi & He & [[-> Hge] | (-> & -> & _ & Hal)]).
    + assert (count a' = count a) as Ec by (unfold count; now rewrite Hi).
      unfold wf in Hw. cbn. rewrite (proj2 (Z.ltb_lt _ _)) by lia.
      eexists _, _. split; [reflexivity |]. unfold wf, count in *. simpl. rewrite length_app, Hi in *. simpl. split; [lia | left; auto with lia].
    + cbn. eexists _, _. split; [reflexivity | auto 10].
  - cbn. unfold wf, count in *. rewrite (proj2 (Z.ltb_lt _ _)) by lia.
    eexists _, _. split; [reflexivity |]. simpl. rewrite length_app. simpl. split; [lia | left; auto with lia].
Qed.

Lemma prepare_allocate_spec a n :
  wf a -> 0 <= n < 2 ^ 41 ->
  exists ret a', prepare_allocate a n = Some (ret, a') /\ wf a' /\
  (ret = OB_SUCCESS /\ items_ a' = items_ a ++ replicate (Z.to_nat n - length (items_ a)) default_T \/
   ret = OB_ALLOCATE_MEMORY_FAILED /\ a' = a /\ exists k, alloc_ok k = false).
Proof.
  intros Hw Hn. unfold prepare_allocate.
  assert (exists ret a', (if capacity_ a <? n then reserve a n else (OB_SUCCESS, a)) = (ret, a') /\ wf a' /\
    items_ a' = items_ a /\
    (ret = OB_SUCCESS /\ n <= capacity_ a' \/ ret = OB_ALLOCATE_MEMORY_FAILED /\ a' = a /\ exists k, alloc_ok k = false))
    as (ret & a' & -> & Hw' & Hi & Hr).
  { destruct (Z.ltb_spec (capacity_ a) n); [| eexists _, _; repeat split; eauto; apply Hw].
    pose proof (reserve_spec a n Hw ltac:(lia)) as Hr. destruct (reserve a n) as [ret a'].
    eexists _, _. split; [reflexivity |]. intuition (auto with lia). }
  destruct Hr as [[-> Hge] | (-> & -> & Hk)]; cbn; [| eauto 10].
  assert (count a' = count a) as Ec by (unfold count; now rewrite Hi). rewrite Ec.
  destruct (Z.ltb_spec (count a) n) as [Hlt | Hle].
  - rewrite (proj2 (Z.leb_le _ _)) by lia. eexists _, _. split; [reflexivity |]. simpl.
    unfold wf, count in *. simpl. rewrite length_app, length_replicate, Hi.
    split; [lia |]. left. split; [reflexivity |]. do 2 f_equal. lia.
  - eexists _, _. split; [reflexivity |]. split; [exact Hw' |]. left. unfold count in Hle.
    replace (_ - _)%nat with 0%nat by lia. simpl. now rewrite app_nil_r.
Qed.

Lemma assign_spec a other :
  wf a -> count other < 2 ^ 41 ->
  exists ret a', assign a other = Some (ret, a') /\ wf a' /\
  (ret = OB_SUCCESS /\ items_ a' = items_ other \/
   ret = OB_ALLOCATE_MEMORY_FAILED /\ items_ a' = [] /\ exists k, alloc_ok k = false).
Proof.
  intros [Hl Hw] Hc. pose proof (local_pos (T := T)). unfold assign.
  assert (wf (reuse a)) as Hr by (unfold wf, reuse, count in *; simpl; lia).
  pose proof (reserve_spec (reuse a) (count other) Hr ltac:(unfold count in *; lia)) as Hs.
  destruct (reserve _ _) as [ret a']. destruct Hs as (Hw' & Hi & _ & [[-> Hge] | (-> & -> & _ & Hk)]); cbn; [| eauto 10].
  rewrite (proj2 (Z.leb_le _ _)) by lia. eexists _, _. split; [reflexivity |]. unfold wf, count in *. simpl. auto with lia.
Qed.

(** The code of a call on a list: only the removal of an index out of range
    is refused. *)
Definition list_code (l : list T) (c : call) : Z :=
  match c with
  | Remove idx => if decide (0 <= idx < Z.of_nat (length l)) then OB_SUCCESS else OB_ARRAY_OUT_OF_RANGE
  | _ => OB_SUCCESS
  end.
(** The calls that may ask for memory. *)
Definition takes_memory (c : call) : bool :=
  match c with Push _ | Reserve _ | Prepare _ | Assign _ => true | Pop | Remove _ | Reuse | Reset => false end.
(** An array answers as the list does, unless it asks for memory and there is none. *)
Definition code_ok (l : list T) (c : call) (ret : Z) : Prop :=
  ret = list_code l c \/ ret = OB_ALLOCATE_MEMORY_FAILED /\ takes_memory c = true /\ exists k, alloc_ok k = false.

(** The elements a call leaves, given its code. *)
Definition list_next (l : list T) (c : call) (ret : Z) : list T :=
  if OB_SUCC ret then list_run l c else list_failed l c.

(** One call: it never writes outside the array's memory, it keeps the array
    well formed, it answers as the list does, and does to the elements what the
    list operation does, or reports why not. *)
Definition call_spec a (c : call) : Prop :=
  exists ret a', run a c = Some (ret, a') /\ wf a' /\ code_ok (items_ a) c ret /\ items_ a' = list_next (items_ a) c ret.

Lemma call_ok a c a' : run a c = Some (OB_SUCCESS, a') -> wf a' -> list_code (items_ a) c = OB_SUCCESS ->
  items_ a' = list_run (items_ a) c -> call_spec a c.
Proof. intros ? ? Hc ?. exists OB_SUCCESS, a'. split_and!; auto. now left. Qed.
Lemma call_no_memory a c a' k :
  run a c = Some (OB_ALLOCATE_MEMORY_FAILED, a') -> wf a' -> takes_memory c = true ->
  items_ a' = list_failed (items_ a) c -> alloc_ok k = false -> call_spec a c.
Proof. intros. exists OB_ALLOCATE_MEMORY_FAILED, a'. split_and!; auto. right. eauto. Qed.

Lemma remove_spec a idx : wf a -> call_spec a (Remove idx).
Proof.
  intros Hw. destruct (decide (0 <= idx < count a)) as [Hi | Hi].
  - eapply call_ok; [cbn; unfold remove; rewrite (proj2 (Z.ltb_ge _ _)), (proj2 (Z.leb_gt _ _)) by lia; reflexivity | | cbn; now rewrite decide_True |].
    + unfold wf, count in *. cbn. rewrite length_delete by (apply lookup_lt_is_Some; lia). lia.
    + cbn. now rewrite (proj2 (Z.ltb_ge _ _)) by lia.
  - exists OB_ARRAY_OUT_OF_RANGE, a. split; [| split_and!; [exact Hw | left; cbn; now rewrite decide_False | reflexivity]].
    cbn. unfold remove. destruct (Z.ltb_spec idx 0); [reflexivity |]. now rewrite (proj2 (Z.leb_le _ _)) by lia.
Qed.

Lemma pop_back_items a : pop_back a = mk (removelast (items_ a)) (capacity_ a) (error_ a).
Proof. unfold pop_back, count. destruct a as [[| x l] c e]; [reflexivity |]. cbn [items_]. now rewrite (proj2 (Z.leb_gt _ _)) by (simpl; lia). Qed.
Lemma length_removelast (l : list T) : (length (removelast l) <= length l)%nat.
Proof. destruct l as [| x l _] using rev_ind; [simpl; lia |]. rewrite removelast_last, length_app. lia. Qed.

Lemma pop_spec a : wf a -> call_spec a Pop.
Proof.
  intros Hw. eapply call_ok; cbn; [now rewrite pop_back_items | | reflexivity | reflexivity].
  pose proof (length_removelast (items_ a)). unfold wf, count in *. cbn. lia.
Qed.

Lemma run_spec a c : wf a -> count a < 2 ^ 41 -> small_call c -> call_spec a c.
Proof.
  intros Hw Hc Hs. destruct c as [obj | | idx | n | n | | | other]; simpl in Hs.
  - destruct (se_push_back_spec a obj Hw Hc) as (ret & a' & E & Hw' & [(-> & Hi & _) | (-> & -> & _ & k & Hk)]);
      [eapply call_ok | eapply call_no_memory]; eauto.
  - now apply pop_spec.
  - now apply remove_spec.
  - pose proof (reserve_spec a n Hw ltac:(lia)) as Hr. destruct (reserve a n) as [ret a'] eqn:E.
    destruct Hr as (Hw' & Hi & _ & [[-> _] | (-> & _ & _ & k & Hk)]); [eapply call_ok | eapply call_no_memory]; eauto;
      cbn; now rewrite E.
  - destruct (prepare_allocate_spec a n Hw Hs) as (ret & a' & E & Hw' & [[-> Hi] | (-> & -> & k & Hk)]);
      [eapply call_ok | eapply call_no_memory]; eauto.
  - eapply call_ok; [reflexivity | unfold reuse, wf, count in *; simpl; lia | reflexivity | reflexivity].
  - eapply call_ok; [reflexivity | apply se_wf_empty | reflexivity | reflexivity].
  - destruct (assign_spec a other Hw Hs) as (ret & a' & E & Hw' & [[-> Hi] | (-> & Hi & k & Hk)]);
      [eapply call_ok | eapply call_no_memory]; eauto.
Qed.

(** A sequence of calls: their codes and the array they leave. *)
Fixpoint runs a (cs : list call) : option (list Z * t T) :=
  match cs with
  | [] => Some ([], a)
  | c :: cs' => '(ret, a) ← run a c; '(rets, a) ← runs a cs'; Some (ret :: rets, a)
  end.

(** The list the same calls make, given which of them succeeded. *)
Fixpoint list_runs (l : list T) (cs : list call) (rets : list Z) : list T :=
  match cs, rets with
  | c :: cs', ret :: rets' => list_runs (list_next l c ret) cs' rets'
  | _, _ => l
  end.
(** The codes of the calls are those of a list, up to a lack of memory. *)
Fixpoint codes_ok (l : list T) (cs : list call) (rets : list Z) : Prop :=
  match cs, rets with
  | [], [] => True
  | c :: cs', ret :: rets' => code_ok l c ret /\ codes_ok (list_next l c ret) cs' rets'
  | _, _ => False
  end.
(** The codes of the calls on a list. *)
Fixpoint list_codes (l : list T) (cs : list call) : list Z :=
  match cs with
  | [] => []
  | c :: cs' => list_code l c :: list_codes (list_next l c (list_code l c)) cs'
  end.
Lemma codes_with_memory cs : (forall k, alloc_ok k = true) -> forall l rets, codes_ok l cs rets -> rets = list_codes l cs.
Proof.
  intros Hm. induction cs as [| c cs IH]; intros l [| ret rets]; simpl; try easy.
  intros [[-> | (_ & _ & k & Hk)] Hr]; [f_equal; auto | now rewrite Hm in Hk].
Qed.

Definition tiny_call (c : call) : Prop :=
  match c with
  | Reserve n | Prepare n => 0 <= n < 2 ^ 40
  | Assign other => count other < 2 ^ 40
  | _ => True
  end.

Lemma tiny_small c : tiny_call c -> small_call c.
Proof. destruct c; simpl; lia. Qed.

(** One call adds at most one element or fills up to its request. *)
Lemma list_run_length l c :
  tiny_call c -> Z.of_nat (length (list_run l c)) <= Z.max (Z.of_nat (length l) + 1) (2 ^ 40).
Proof.
  destruct c as [obj | | idx | n | n | | | other]; simpl; intros Hc; try lia.
  - rewrite length_app. simpl. lia.
  - pose proof (length_removelast l). lia.
  - destruct (idx <? 0); [lia |]. rewrite delete_take_drop, length_app, length_take, length_drop. lia.
  - rewrite length_app, length_replicate. lia.
  - unfold count in Hc. lia.
Qed.

(** Every call of a sequence is one of these. *)
Lemma runs_spec cs : forall a,
  wf a -> Forall tiny_call cs -> count a <= 2 ^ 40 + 2 ^ 40 - Z.of_nat (length cs) -> Z.of_nat (length cs) < 2 ^ 40 ->
  exists rets a', runs a cs = Some (rets, a') /\ wf a' /\ length rets = length cs /\
    items_ a' = list_runs (items_ a) cs rets /\ codes_ok (items_ a) cs rets.
Proof.
  induction cs as [| c cs IH]; intros a Hw Ht Hc Hn; [now exists [], a |].
  inversion Ht as [| ? ? Hc' Hcs]; subst. cbn [length] in *.
  destruct (run_spec a c Hw ltac:(lia) (tiny_small c Hc')) as (ret & a1 & E & Hw1 & Hok & Hi1).
  assert (count a1 <= Z.max (count a + 1) (2 ^ 40)) as Hcount.
  { unfold count. rewrite Hi1. unfold list_next. destruct (OB_SUCC ret); [now apply list_run_length |]. destruct c; simpl; lia. }
  destruct (IH a1 Hw1 Hcs ltac:(lia) ltac:(lia)) as (rets & a' & E' & Hw' & Hl & Hi' & Hoks).
  exists (ret :: rets), a'. cbn [runs]. rewrite E. cbn [mbind option_bind]. rewrite E'. cbn [mbind option_bind].
  rewrite Hi1 in Hi', Hoks. split_and!; auto; simpl; auto.
Qed.
End Facts.
End ObSEArray.
