(* ===== verification/UdfSchema.v ===== *)
(** The catalogue entry of a Python function, its identity and its hash:
    [ObString::compare] ([deps/oblib/src/lib/string/ob_string.h]), [murmurhash64A]
    ([deps/oblib/src/lib/hash_func/murmur_hash.h]), [ObTenantPythonUdfId]
    ([src/share/schema/ob_schema_struct.h]) and [ObSimplePythonUdfSchema],
    [ObPythonUDFHashWrapper] ([src/share/schema/ob_python_udf_mgr.h], [.cpp]).

    A string is the list of its bytes, each from 0 to 255. *)
From S2P Require Import Prelude FixedArray HashArray SortedVector.

Abbreviation bytes := (list Z).

Module ObString.
Definition length (s : bytes) : Z := Z.of_nat (List.length s).
Definition empty (s : bytes) : bool := length s =? 0.

(** [MEMCMP] over the common length: the difference of the first bytes that differ. *)
Fixpoint memcmp (a b : bytes) : Z :=
  match a, b with
  | x :: a', y :: b' => if x =? y then memcmp a' b' else x - y
  | _, _ => 0
  end.

Definition compare (a b : bytes) : Z :=
  let cmp := memcmp a b in if cmp =? 0 then length a - length b else cmp.
Definition op_lt (a b : bytes) : bool := compare a b <? 0.
Definition op_eq (a b : bytes) : bool := compare a b =? 0.

(** The string made of a terminated [char] pointer: what is before the first NUL. *)
Fixpoint c_str (s : bytes) : bytes :=
  match s with
  | [] => []
  | x :: s' => if x =? 0 then [] else x :: c_str s'
  end.

Lemma compare_cons x a y b : compare (x :: a) (y :: b) = if x =? y then compare a b else x - y.
Proof.
  unfold compare. cbn [memcmp]. destruct (Z.eqb_spec x y) as [-> | Hxy].
  - unfold length. simpl List.length. destruct (memcmp a b =? 0); lia.
  - destruct (Z.eqb_spec (x - y) 0); lia.
Qed.

Lemma compare_opp a : forall b, compare b a = - compare a b.
Proof.
  induction a as [| x a IH]; intros [| y b]; try (unfold compare, length; simpl; lia).
  rewrite !compare_cons, IH, (Z.eqb_sym y x). destruct (x =? y); lia.
Qed.

Lemma compare_zero a : forall b, compare a b = 0 <-> a = b.
Proof.
  induction a as [| x a IH]; intros [| y b]; try (unfold compare, length; simpl; split; intros; [lia || easy | easy]).
  rewrite compare_cons. destruct (Z.eqb_spec x y) as [-> | Hxy].
  - rewrite IH. split; congruence.
  - split; [lia | congruence].
Qed.

Lemma compare_trans a : forall b c, compare a b < 0 -> compare b c < 0 -> compare a c < 0.
Proof.
  induction a as [| x a IH]; intros [| y b] [| z c]; try (unfold compare, length; simpl; lia).
  rewrite !compare_cons. specialize (IH b c).
  destruct (Z.eqb_spec x y), (Z.eqb_spec y z), (Z.eqb_spec x z); lia.
Qed.

#[global] Instance string_lt_order : StrictOrderB op_lt.
Proof.
  unfold op_lt. split.
  - intros k. now rewrite (proj2 (compare_zero k k) eq_refl).
  - intros a b c. rewrite !Z.ltb_lt. apply compare_trans.
  - intros a b. rewrite !Z.ltb_lt, (compare_opp a b), <- compare_zero. lia.
Qed.

Lemma string_eq_spec a b : op_eq a b = bool_decide (a = b).
Proof. unfold op_eq. apply Bool.eq_iff_eq_true. rewrite bool_decide_eq_true, Z.eqb_eq. apply compare_zero. Qed.

Lemma c_str_id s : Forall (fun x => x <> 0) s -> c_str s = s.
Proof. induction 1 as [| x s Hx Hs IH]; [reflexivity |]. simpl. rewrite IH. now destruct (Z.eqb_spec x 0). Qed.
End ObString.

(** ** [murmurhash64A] *)
Module MurmurHash.
Definition multiply : Z := 14313749767032793493.
Definition rotate : Z := 47.

(** A little-endian 64-bit word. *)
Definition word (bs : bytes) : Z := fold_right (fun b w => b + 256 * w) 0 bs.
Definition mix (ret val : Z) : Z :=
  let val := uwrap64 (val * multiply) in
  let val := Z.lxor val (Z.shiftr val rotate) in
  let val := uwrap64 (val * multiply) in
  uwrap64 (Z.lxor ret val * multiply).

(** The loop over the words; the bytes left over with the hash so far. *)
Fixpoint words (data : bytes) (ret : Z) : bytes * Z :=
  match data with
  | b0 :: b1 :: b2 :: b3 :: b4 :: b5 :: b6 :: b7 :: rest => words rest (mix ret (word [b0; b1; b2; b3; b4; b5; b6; b7]))
  | _ => (data, ret)
  end.

(** The loop over the last bytes, from the last one down. *)
Fixpoint tail (data2 : bytes) (len : nat) (ret : Z) : Z :=
  match len with
  | O => ret
  | S len' =>
      let ret := Z.lxor ret (shl64 (nth len' data2 0) (Z.of_nat len' * 8)) in
      let ret := if (len' =? 0)%nat then uwrap64 (ret * multiply) else ret in
      tail data2 len' ret
  end.

Definition murmurhash64A (key : bytes) (seed : Z) : Z :=
  let ret := Z.lxor seed (uwrap64 (ObString.length key * multiply)) in
  let '(data2, ret) := words key ret in
  let ret := tail data2 (length data2) ret in
  let ret := Z.lxor ret (Z.shiftr ret rotate) in
  let ret := uwrap64 (ret * multiply) in
  Z.lxor ret (Z.shiftr ret rotate).
Definition murmurhash := murmurhash64A.

Lemma murmurhash_range key seed : 0 <= murmurhash key seed < W64.
Proof.
  unfold murmurhash, murmurhash64A. destruct (words _ _) as [data2 ret]. set (r := uwrap64 _).
  pose proof (uwrap64_range (Z.lxor (tail data2 (length data2) ret) (Z.shiftr (tail data2 (length data2) ret) rotate) * multiply)) as Hr.
  fold r in Hr. clearbody r. unfold rotate. assert (0 <= Z.shiftr r 47 < W64) as Hs.
  { rewrite Z.shiftr_div_pow2 by lia. split; [apply Z.div_pos; lia |]. apply Z.div_lt_upper_bound; [lia |]. unfold W64 in *. lia. }
  assert (0 <= Z.lxor r (Z.shiftr r 47)) as Hn by (apply Z.lxor_nonneg; lia). split; [exact Hn |].
  destruct (Z.eq_dec (Z.lxor r (Z.shiftr r 47)) 0) as [-> |]; [reflexivity |].
  apply Z.log2_lt_pow2; [lia |]. eapply Z.le_lt_trans; [apply Z.log2_lxor; lia |].
  assert (forall z, 0 <= z < W64 -> Z.log2 z < 64) as Hlog.
  { intros z Hz. destruct (Z.eq_dec z 0) as [-> |]; [reflexivity |]. apply Z.log2_lt_pow2; unfold W64 in *; lia. }
  pose proof (Hlog r Hr). pose proof (Hlog _ Hs). lia.
Qed.
End MurmurHash.

Definition OB_INVALID_ID : Z := W64 - 1.

(** ** [ObTenantPythonUdfId]: the tenant and the name *)
Module ObTenantPythonUdfId.
Definition t : Type := Z * bytes.

Definition op_eq (a b : t) : bool := (fst a =? fst b) && ObString.op_eq (snd a) (snd b).
Definition op_lt (a b : t) : bool :=
  let bret := fst a <? fst b in
  if fst a =? fst b then ObString.op_lt (snd a) (snd b) else bret.
Definition is_valid (a : t) : bool := negb (fst a =? OB_INVALID_ID) && negb (ObString.length (snd a) =? 0).

Lemma op_eq_spec a b : op_eq a b = bool_decide (a = b).
Proof.
  destruct a as [t1 n1], b as [t2 n2]. unfold op_eq. simpl. rewrite ObString.string_eq_spec.
  destruct (Z.eqb_spec t1 t2) as [-> |]; simpl; [apply bool_decide_ext; split; congruence |].
  symmetry. apply bool_decide_eq_false. congruence.
Qed.

#[global] Instance op_lt_order : StrictOrderB op_lt.
Proof.
  split; unfold op_lt.
  - intros [t n]. simpl. rewrite Z.eqb_refl. apply ltb_irrefl.
  - intros [t1 n1] [t2 n2] [t3 n3]. simpl. pose proof (ltb_trans n1 n2 n3) as Ht.
    destruct (Z.eqb_spec t1 t2), (Z.eqb_spec t2 t3), (Z.eqb_spec t1 t3); auto; rewrite ?Z.ltb_lt; lia.
  - intros [t1 n1] [t2 n2]. simpl. rewrite (Z.eqb_sym t2 t1). destruct (Z.eqb_spec t1 t2) as [-> |].
    + destruct (ltb_total n1 n2) as [? | [-> | ?]]; auto.
    + rewrite !Z.ltb_lt. lia.
Qed.
End ObTenantPythonUdfId.

(** ** [ObPythonUDFHashWrapper]: the key of the hash map *)
Module ObPythonUDFHashWrapper.
Definition t : Type := Z * bytes.

(** The eight bytes of the tenant id in memory. *)
Definition le_bytes (n : Z) : bytes := map (fun i => Z.land (Z.shiftr n (8 * i)) 255) [0; 1; 2; 3; 4; 5; 6; 7].
Definition hash (w : t) : Z :=
  let hash_ret := MurmurHash.murmurhash (le_bytes (fst w)) 0 in
  MurmurHash.murmurhash (snd w) hash_ret.
Definition op_eq (a b : t) : bool := (fst a =? fst b) && ObString.op_eq (snd a) (snd b).
End ObPythonUDFHashWrapper.

(** ** [ObSimplePythonUdfSchema] *)
Module ObSimplePythonUdfSchema.
Record t := mk
  { tenant_id_ : Z; udf_id_ : Z; udf_name_ : bytes; arg_num_ : Z; arg_names_ : bytes; arg_types_ : bytes;
    ret_ : PyUdfRetType; pycall_ : bytes; schema_version_ : Z; error_ret_ : Z }.

#[global] Instance t_eq_dec : EqDecision t.
Proof. solve_decision. Defined.

Definition sizeof : Z := 136.

Section Ops.
Context `{Allocator}.

(** The constructor; [OB_INVALID_VERSION] is -1. *)
Definition new : t := mk OB_INVALID_ID OB_INVALID_ID [] 0 [] [] UDF_UNINITIAL [] (-1) OB_SUCCESS.

(** [reset]: the ids, the argument count and the version keep their values. *)
Definition reset (s : t) : t :=
  mk OB_INVALID_ID (udf_id_ s) [] (arg_num_ s) [] [] UDF_UNINITIAL [] (schema_version_ s) OB_SUCCESS.

Definition is_valid (s : t) : bool :=
  negb ((tenant_id_ s =? OB_INVALID_ID) || (schema_version_ s <? 0) || ObString.empty (udf_name_ s)).

Definition get_convert_size (s : t) : Z :=
  sizeof + (ObString.length (udf_name_ s) + 1) + (ObString.length (arg_names_ s) + 1)
  + (ObString.length (arg_types_ s) + 1) + (ObString.length (pycall_ s) + 1).

Definition get_udf_name (s : t) : bytes := ObString.c_str (udf_name_ s).
Definition get_tenant_python_udf_id (s : t) : ObTenantPythonUdfId.t := (tenant_id_ s, udf_name_ s).

(** [ObSchema::deep_copy_str] of a schema whose [error_ret_] is [e]. *)
Definition deep_copy_str (e : Z) (src dest : bytes) : Z * bytes :=
  if e =? OB_SUCCESS then
    if 0 <? ObString.length src then
      if alloc_ok (ObString.length src + 1) then (OB_SUCCESS, src) else (OB_ALLOCATE_MEMORY_FAILED, dest)
    else (OB_SUCCESS, [])
  else (e, dest).

(** [operator=] from another object. *)
Definition op_assign (this other : t) : t :=
  let this := reset this in
  let e := error_ret_ other in
  let '(ret, udf_name) := deep_copy_str e (udf_name_ other) (udf_name_ this) in
  let '(ret, arg_names) :=
    if OB_SUCC ret then deep_copy_str e (arg_names_ other) (arg_names_ this) else (ret, arg_names_ this) in
  let '(ret, arg_types) :=
    if OB_SUCC ret then deep_copy_str e (arg_types_ other) (arg_types_ this) else (ret, arg_types_ this) in
  let '(ret, pycall) :=
    if OB_SUCC ret then deep_copy_str e (pycall_ other) (pycall_ this) else (ret, pycall_ this) in
  mk (tenant_id_ other) (udf_id_ other) udf_name (arg_num_ other) arg_names arg_types
     (ret_ other) pycall (schema_version_ other) (if OB_FAIL ret then ret else e).

(** [ObSchemaUtils::alloc_schema]; [copy_assign] returns success for a class that
    has neither [assign] nor [get_copy_assign_ret]. *)
Definition alloc_schema (schema : t) : Z * option t :=
  if alloc_ok sizeof then (OB_SUCCESS, Some (op_assign new schema)) else (OB_ALLOCATE_MEMORY_FAILED, None).

Lemma deep_copy_str_ok src dest : (forall n, alloc_ok n = true) -> deep_copy_str OB_SUCCESS src dest = (OB_SUCCESS, src).
Proof.
  intros Ha. unfold deep_copy_str. rewrite Ha. destruct src as [| x src]; [reflexivity |].
  now rewrite (proj2 (Z.ltb_lt 0 _)) by (unfold ObString.length; simpl; lia).
Qed.

(** With memory, a schema without an error is copied as it is. *)
Lemma op_assign_ok this other : (forall n, alloc_ok n = true) -> error_ret_ other = OB_SUCCESS -> op_assign this other = other.
Proof.
  intros Ha He. unfold op_assign. rewrite He. repeat (rewrite deep_copy_str_ok by exact Ha; cbn iota).
  destruct other; simpl in *. now subst.
Qed.
End Ops.
End ObSimplePythonUdfSchema.

(** The key of a schema in the hash map, [ObGetPythonUDFKey]. *)
#[global] Instance ObGetPythonUDFKey : PointerKey ObPythonUDFHashWrapper.t ObSimplePythonUdfSchema.t :=
  {| get_key_ s := (ObSimplePythonUdfSchema.tenant_id_ s, ObSimplePythonUdfSchema.get_udf_name s);
     do_hash := ObPythonUDFHashWrapper.hash;
     do_hash_pos w := proj1 (MurmurHash.murmurhash_range _ _) |}.
