(* ===== verification/Serialization.v ===== *)
(** The wire format of the server: the integer and string codecs of
    [deps/oblib/src/lib/utility/serialization.h], the framing of
    [deps/oblib/src/lib/utility/ob_unify_serialize.h] ([OB_UNIS_SERIALIZE],
    [OB_UNIS_DESERIALIZE], [OB_SERIALIZE_MEMBER]), [ObString]
    ([deps/oblib/src/lib/string/ob_string.cpp]) and [ObSEArray]
    ([deps/oblib/src/lib/container/ob_se_array.h]).

    The memory a buffer points into is the list of its bytes, a pointer is
    its offset there or null.  Every codec returns [None] where the C++ has
    no defined behaviour: an access outside the memory, a null pointer that is
    read, a shift by the width of the type or more, a signed addition that
    overflows. *)
From S2P Require Import Prelude FixedArray SEArray HashArray SortedVector UdfSchema.

Abbreviation mem := bytes.
Abbreviation cptr := (option Z).
Definition NULL : cptr := None.
Definition ptr_add (buf : cptr) (n : Z) : cptr := b ← buf; Some (b + n).

(** [*(buf + i)] read as an unsigned byte, and written. *)
Definition load (m : mem) (buf : cptr) (i : Z) : option Z :=
  b ← buf; if 0 <=? b + i then m !! Z.to_nat (b + i) else None.
Definition store (m : mem) (buf : cptr) (i v : Z) : option mem :=
  b ← buf;
  if (0 <=? b + i) && (b + i <? ObString.length m)
  then Some (<[Z.to_nat (b + i) := Z.land v 255]> m) else None.

(** [MEMCPY(buf + i, src, n)] and the [n] bytes at [buf + i]. *)
Fixpoint store_all (m : mem) (buf : cptr) (i : Z) (bs : bytes) : option mem :=
  match bs with
  | [] => Some m
  | v :: bs' => m ← store m buf i v; store_all m buf (i + 1) bs'
  end.
Fixpoint load_all (m : mem) (buf : cptr) (i : Z) (n : nat) : option bytes :=
  match n with
  | O => Some []
  | S n' => v ← load m buf i; vs ← load_all m buf (i + 1) n'; Some (v :: vs)
  end.

(** The results of an encoder and of a decoder: the return code, the position
    and the memory, or the value the target then has. *)
Abbreviation encoded := (option (Z * Z * mem)).
Abbreviation decoded A := (option (Z * Z * A)).

Definition not_null (buf : cptr) : bool := bool_decide (is_Some buf).
Definition as_int8 (v : Z) : Z := swrap 8 v.

(** The signed sum, where it is defined. *)
Definition sadd64 (a b : Z) : option Z :=
  if (- 2 ^ 63 <=? a + b) && (a + b <? 2 ^ 63) then Some (a + b) else None.

(** ** Fixed-width integers, big-endian *)

(** [*(buf + pos++) = v;] for each [v] in turn. *)
Fixpoint put_bytes (m : mem) (buf : cptr) (pos : Z) (vs : list Z) : option (Z * mem) :=
  match vs with
  | [] => Some (pos, m)
  | v :: vs' => m ← store m buf pos v; put_bytes m buf (pos + 1) vs'
  end.
Definition put_checked (m : mem) (buf : cptr) (buf_len pos size : Z) (vs : list Z) : encoded :=
  let ret := if not_null buf && (size <=? buf_len - pos) then OB_SUCCESS else OB_SIZE_OVERFLOW in
  if OB_SUCC ret then '(pos, m) ← put_bytes m buf pos vs; Some (ret, pos, m)
  else Some (ret, pos, m).

(** [*val = *(buf + pos++) << s | ...] for each shift [s] in turn. *)
Fixpoint get_bytes (m : mem) (buf : cptr) (pos acc : Z) (shifts : list Z) : option (Z * Z) :=
  match shifts with
  | [] => Some (pos, acc)
  | s :: shifts' =>
      v ← load m buf pos;
      get_bytes m buf (pos + 1) (Z.lor acc (Z.shiftl (Z.land v 255) s)) shifts'
  end.
Definition get_checked (w : Z) (m : mem) (buf : cptr) (data_len pos size : Z) (shifts : list Z)
    (val : Z) : decoded Z :=
  let ret := if not_null buf && (size <=? data_len - pos) then OB_SUCCESS else OB_DESERIALIZE_ERROR in
  if OB_SUCC ret then '(pos, v) ← get_bytes m buf pos 0 shifts; Some (ret, pos, swrap w v)
  else Some (ret, pos, val).

Definition encoded_length_i8 (val : Z) : Z := 1.
Definition encode_i8 m buf buf_len pos (val : Z) : encoded := put_checked m buf buf_len pos 1 [val].
Definition decode_i8 m buf data_len pos (val : Z) : decoded Z := get_checked 8 m buf data_len pos 1 [0] val.

Definition encoded_length_i16 (val : Z) : Z := 2.
Definition encode_i16 m buf buf_len pos (val : Z) : encoded :=
  put_checked m buf buf_len pos 2 [Z.land (Z.shiftr val 8) 255; Z.land val 255].
Definition decode_i16 m buf data_len pos (val : Z) : decoded Z :=
  get_checked 16 m buf data_len pos 2 [8; 0] val.

Definition encoded_length_i32 (val : Z) : Z := 4.
Definition encode_i32 m buf buf_len pos (val : Z) : encoded :=
  put_checked m buf buf_len pos 4
    [Z.land (Z.shiftr val 24) 255; Z.land (Z.shiftr val 16) 255; Z.land (Z.shiftr val 8) 255; Z.land val 255].
Definition decode_i32 m buf data_len pos (val : Z) : decoded Z :=
  get_checked 32 m buf data_len pos 4 [24; 16; 8; 0] val.

Definition encoded_length_i64 (val : Z) : Z := 8.
Definition encode_i64 m buf buf_len pos (val : Z) : encoded :=
  put_checked m buf buf_len pos 8
    [Z.land (Z.shiftr val 56) 255; Z.land (Z.shiftr val 48) 255; Z.land (Z.shiftr val 40) 255;
     Z.land (Z.shiftr val 32) 255; Z.land (Z.shiftr val 24) 255; Z.land (Z.shiftr val 16) 255;
     Z.land (Z.shiftr val 8) 255; Z.land val 255].
Definition decode_i64 m buf data_len pos (val : Z) : decoded Z :=
  get_checked 64 m buf data_len pos 8 [56; 48; 40; 32; 24; 16; 8; 0] val.

Definition encoded_length_bool (val : bool) : Z := 1.
Definition encode_bool m buf buf_len pos (val : bool) : encoded :=
  put_checked m buf buf_len pos 1 [if val then 1 else 0].
Definition decode_bool m buf data_len pos (val : bool) : decoded bool :=
  '(ret, pos, v) ← decode_i8 m buf data_len pos 0;
  if ret =? 0 then Some (ret, pos, negb (v =? 0)) else Some (ret, pos, val).

(** ** Integers of variable length: seven bits to a byte, the lowest first *)
Definition OB_MAX_V1B : Z := Z.shiftl 1 7 - 1.
Definition OB_MAX_V2B : Z := Z.shiftl 1 14 - 1.
Definition OB_MAX_V3B : Z := Z.shiftl 1 21 - 1.
Definition OB_MAX_V4B : Z := Z.shiftl 1 28 - 1.
Definition OB_MAX_V5B : Z := Z.shiftl 1 35 - 1.
Definition OB_MAX_V6B : Z := Z.shiftl 1 42 - 1.
Definition OB_MAX_V7B : Z := Z.shiftl 1 49 - 1.
Definition OB_MAX_V8B : Z := Z.shiftl 1 56 - 1.
Definition OB_MAX_V9B : Z := Z.shiftl 1 63 - 1.
Definition OB_SERIALIZE_SIZE_NEED_BYTES : Z := 5.

Definition encoded_length_vi64 (val : Z) : Z :=
  let v := val mod 2 ^ 64 in
  if v <=? OB_MAX_V1B then 1 else if v <=? OB_MAX_V2B then 2 else if v <=? OB_MAX_V3B then 3
  else if v <=? OB_MAX_V4B then 4 else if v <=? OB_MAX_V5B then 5 else if v <=? OB_MAX_V6B then 6
  else if v <=? OB_MAX_V7B then 7 else if v <=? OB_MAX_V8B then 8 else if v <=? OB_MAX_V9B then 9
  else 10.
Definition encoded_length_vi32 (val : Z) : Z :=
  let v := val mod 2 ^ 32 in
  if v <=? OB_MAX_V1B then 1 else if v <=? OB_MAX_V2B then 2 else if v <=? OB_MAX_V3B then 3
  else if v <=? OB_MAX_V4B then 4 else 5.

(** The loop of the two encoders; [fuel] bounds its iterations. *)
Fixpoint put_vi (fuel : nat) (m : mem) (buf : cptr) (pos v : Z) : option (Z * mem) :=
  match fuel with
  | O => None
  | S fuel' =>
      if OB_MAX_V1B <? v then
        m ← store m buf pos (Z.lor v 128); put_vi fuel' m buf (pos + 1) (Z.shiftr v 7)
      else
        m ← store m buf pos (Z.land v 127); Some (pos + 1, m)
  end.
Definition encode_vi64 m buf buf_len pos (val : Z) : encoded :=
  let v := val mod 2 ^ 64 in
  let ret := if not_null buf && (encoded_length_vi64 v <=? buf_len - pos)
             then OB_SUCCESS else OB_SIZE_OVERFLOW in
  if OB_SUCC ret then '(pos, m) ← put_vi 10 m buf pos v; Some (ret, pos, m) else Some (ret, pos, m).
Definition encode_vi32 m buf buf_len pos (val : Z) : encoded :=
  let v := val mod 2 ^ 32 in
  let ret := if not_null buf && (encoded_length_vi32 val <=? buf_len - pos)
             then OB_SUCCESS else OB_SIZE_OVERFLOW in
  if OB_SUCC ret then '(pos, m) ← put_vi 5 m buf pos v; Some (ret, pos, m) else Some (ret, pos, m).

(** [while (n--) ...]: all but the last byte with the continuation bit. *)
Fixpoint put_fixed (n : nat) (m : mem) (buf : cptr) (pos v : Z) : option (Z * mem) :=
  match n with
  | O => Some (pos, m)
  | S n' =>
      if (0 <? n')%nat then
        m ← store m buf pos (Z.lor v 128); put_fixed n' m buf (pos + 1) (Z.shiftr v 7)
      else
        m ← store m buf pos (Z.land v 127); put_fixed n' m buf (pos + 1) v
  end.
Definition encode_fixed_bytes_i64 m buf buf_len pos (val : Z) : encoded :=
  let v := val mod 2 ^ 64 in
  let ret := if not_null buf && (OB_SERIALIZE_SIZE_NEED_BYTES <=? buf_len - pos)
             then OB_SUCCESS else OB_SIZE_OVERFLOW in
  if OB_SUCC ret then
    '(pos, m) ← put_fixed (Z.to_nat OB_SERIALIZE_SIZE_NEED_BYTES) m buf pos v; Some (ret, pos, m)
  else Some (ret, pos, m).

(** A byte of [w] bits shifted, where the shift is defined. *)
Definition shl (w c shift : Z) : option Z :=
  if shift <? w then Some (Z.shiftl c shift mod 2 ^ w) else None.

(** The loop of the two decoders: the byte is read before [data_len] is
    compared.  The result is the code, the position and the value gathered. *)
Fixpoint get_vi (w : Z) (fuel : nat) (m : mem) (buf : cptr) (data_len tmp_pos v shift : Z) :
    option (Z * Z * Z) :=
  match fuel with
  | O => None
  | S fuel' =>
      c ← load m buf tmp_pos;
      if Z.testbit c 7 then
        if data_len - tmp_pos <? 1 then Some (OB_DESERIALIZE_ERROR, tmp_pos, v)
        else
          x ← shl w (Z.land c 127) shift;
          get_vi w fuel' m buf data_len (tmp_pos + 1) (Z.lor v x) (shift + 7)
      else
        if data_len - tmp_pos <? 1 then Some (OB_DESERIALIZE_ERROR, tmp_pos, v)
        else
          x ← shl w (Z.land c 127) shift;
          Some (OB_SUCCESS, tmp_pos + 1, Z.lor v x)
  end.
Definition decode_vi (w : Z) m buf data_len pos (val : Z) : decoded Z :=
  '(ret, tmp_pos, v) ← get_vi w (S (length m)) m buf data_len pos 0 0;
  if OB_SUCC ret then Some (ret, tmp_pos, swrap w v) else Some (ret, pos, val).
Definition decode_vi64 m buf data_len pos (val : Z) : decoded Z := decode_vi 64 m buf data_len pos val.
Definition decode_vi32 m buf data_len pos (val : Z) : decoded Z := decode_vi 32 m buf data_len pos val.

(** ** Strings *)

(** [ObString]: a pointer into memory it does not own.  [To b] points to the
    bytes [b]; [Dangling] to memory that is gone, which nothing may read. *)
Inductive Ptr := Null | To (b : bytes) | Dangling.
Record ObStr := mkStr { buffer_size_ : Z; data_length_ : Z; ptr_ : Ptr }.

Definition obstr_reset : ObStr := mkStr 0 0 Null.
(** [ObString(length, ptr)] for a pointer that is not null. *)
Definition obstr_of (s : bytes) : ObStr := mkStr 0 (to_int32 (ObString.length s)) (To s).

(** The bytes of the string, where they can be read. *)
Definition obstr_bytes (s : ObStr) : option bytes :=
  match ptr_ s with
  | Null => Some []
  | To b => if data_length_ s <=? ObString.length b then Some (take (Z.to_nat (data_length_ s)) b) else None
  | Dangling => None
  end.

Definition encoded_length_vstr (len : Z) : Z := encoded_length_vi64 len + len + 1.

Definition encode_vstr m buf buf_len pos (vbuf : Ptr) (len : Z) : encoded :=
  let ret := if not_null buf && (0 <=? len) && (to_int32 (encoded_length_vstr len) <=? buf_len - pos)
             then OB_SUCCESS else OB_SIZE_OVERFLOW in
  if OB_SUCC ret then
    '(ret, pos, m) ← encode_vi64 m buf buf_len pos len;
    '(pos, m) ←
      (if (OB_SUCCESS =? ret) && (0 <? len) && negb (match vbuf with Null => true | _ => false end) then
         bs ← obstr_bytes (mkStr 0 len vbuf);
         m ← store_all m buf pos bs; Some (pos + len, m)
       else Some (pos, m));
    m ← store m buf pos 0; Some (ret, pos + 1, m)
  else Some (ret, pos, m).

(** [decoded_length_vstr]: the length alone, -1 when there is none. *)
Definition decoded_length_vstr m buf data_len pos : option Z :=
  if negb (not_null buf) || (data_len <? 0) || (pos <? 0) then Some (-1)
  else
    '(ret, _, len) ← decode_vi64 m buf data_len pos (-1);
    Some (if ret =? 0 then len else -1).

(** [decode_vstr] without a destination: the offset of the string in the
    buffer or null, the position and [*lenp]. *)
Definition decode_vstr m buf data_len pos (lenp : Z) : option (cptr * Z * Z) :=
  if negb (not_null buf) || (data_len <? 0) || (pos <? 0) then Some (NULL, pos, lenp)
  else
    '(ret, tmp_pos, tmp_len) ← decode_vi64 m buf data_len pos 0;
    if OB_FAIL ret then Some (NULL, pos, -1)
    else if 0 <=? tmp_len then
      if tmp_len <=? data_len - tmp_pos then Some (ptr_add buf tmp_pos, tmp_pos + (tmp_len + 1), tmp_len)
      else Some (NULL, pos, -1)
    else Some (NULL, pos, lenp).

(** [decode_vstr] that copies to [dest], the bytes the string's own buffer
    holds: whether it found a string, the position, [*lenp] and the buffer. *)
Definition decode_vstr_to m buf data_len pos (dest : Ptr) (buf_len lenp : Z) :
    option (bool * Z * Z * Ptr) :=
  if negb (not_null buf) || (data_len <? 0) || (pos <? 0)
     || (match dest with Null => true | _ => false end) || (buf_len <? 0)
  then Some (false, pos, lenp, dest)
  else
    '(ret, tmp_pos, tmp_len) ← decode_vi64 m buf data_len pos 0;
    if negb (ret =? 0) || (buf_len <? tmp_len) then Some (false, pos, -1, dest)
    else if 0 <=? tmp_len then
      if tmp_len <=? data_len - tmp_pos then
        bs ← load_all m buf tmp_pos (Z.to_nat tmp_len);
        match dest with
        | To d =>
            if tmp_len <=? ObString.length d
            then Some (true, tmp_pos + (tmp_len + 1), tmp_len, To (bs ++ drop (Z.to_nat tmp_len) d))
            else None
        | _ => None
        end
      else Some (false, pos, -1, dest)
    else Some (false, pos, lenp, dest).

(** [ObString::serialize], [deserialize] and [get_serialize_size]. *)
Definition obstr_get_serialize_size (s : ObStr) : Z := encoded_length_vstr (data_length_ s).

Definition obstr_serialize m buf buf_len pos (s : ObStr) : encoded :=
  let serialize_size := obstr_get_serialize_size s in
  if negb (not_null buf) || (buf_len - pos <? serialize_size) then Some (OB_SIZE_OVERFLOW, pos, m)
  else encode_vstr m buf buf_len pos (ptr_ s) (data_length_ s).

Definition obstr_deserialize m buf data_len pos (s : ObStr) : decoded ObStr :=
  let MINIMAL_NEEDED_SIZE := 2 in
  if negb (not_null buf) || (data_len - pos <? MINIMAL_NEEDED_SIZE)
  then Some (OB_INVALID_ARGUMENT, pos, s)
  else if 0 =? buffer_size_ s then
    '(p, pos, len) ← decode_vstr m buf data_len pos 0;
    match p with
    | None => Some (OB_ERROR, pos, mkStr (buffer_size_ s) (data_length_ s) Null)
    | Some _ =>
        bs ← load_all m p 0 (Z.to_nat len);
        Some (OB_SUCCESS, pos, mkStr (buffer_size_ s) (to_int32 len) (To bs))
    end
  else
    str_len ← decoded_length_vstr m buf data_len pos;
    if (str_len <? 0) || (buffer_size_ s <? str_len) || (data_len - pos <? str_len)
    then Some (OB_BUF_NOT_ENOUGH, pos, s)
    else
      '(found, pos, len, d) ← decode_vstr_to m buf data_len pos (ptr_ s) (buffer_size_ s) 0;
      Some (if found : bool then (OB_SUCCESS, pos, mkStr (buffer_size_ s) (to_int32 len) d)
            else (OB_ERROR, pos, mkStr (buffer_size_ s) (data_length_ s) d)).

(** ** The overloads of [encode], [decode] and [encoded_length] *)
Class Serial (A : Type) := {
  encode : mem -> cptr -> Z -> Z -> A -> encoded;
  decode : mem -> cptr -> Z -> Z -> A -> decoded A;
  encoded_length : A -> Z
}.

(** A C++ type is named by a type of its own, so that the overloads are told
    apart. *)
Record int64 := Int64 { int64_v : Z }.
Record uint64 := UInt64 { uint64_v : Z }.
Record int32 := Int32 { int32_v : Z }.

(** The value of a decoded result. *)
Definition dmap {A B} (f : A -> B) (r : decoded A) : decoded B :=
  '(ret, pos, v) ← r; Some (ret, pos, f v).

#[global] Instance serial_int64 : Serial int64 := {
  encode m buf buf_len pos v := encode_vi64 m buf buf_len pos (int64_v v);
  decode m buf data_len pos _ := dmap Int64 (decode_vi64 m buf data_len pos 0);
  encoded_length v := encoded_length_vi64 (int64_v v)
}.
#[global] Instance serial_uint64 : Serial uint64 := {
  encode m buf buf_len pos v := encode_vi64 m buf buf_len pos (to_int64 (uint64_v v));
  decode m buf data_len pos _ := dmap (fun v => UInt64 (uwrap64 v)) (decode_vi64 m buf data_len pos 0);
  encoded_length v := encoded_length_vi64 (to_int64 (uint64_v v))
}.
#[global] Instance serial_int32 : Serial int32 := {
  encode m buf buf_len pos v := encode_vi32 m buf buf_len pos (int32_v v);
  decode m buf data_len pos _ := dmap Int32 (decode_vi32 m buf data_len pos 0);
  encoded_length v := encoded_length_vi32 (int32_v v)
}.
#[global] Instance serial_bool : Serial bool := {
  encode := encode_bool;
  decode m buf data_len pos _ := decode_bool m buf data_len pos false;
  encoded_length := encoded_length_bool
}.
#[global] Instance serial_str : Serial ObStr := {
  encode := obstr_serialize;
  decode := obstr_deserialize;
  encoded_length := obstr_get_serialize_size
}.

(** [EnumEncoder<true, T>]: an enumeration goes through [int32_t]; [enum_of] is
    [None] for an integer that names no enumerator. *)
Class CEnum (A : Type) := { enum_to : A -> Z; enum_of : Z -> option A }.
Definition enum_encode `{CEnum A} m buf buf_len pos (v : A) : encoded :=
  encode_vi32 m buf buf_len pos (to_int32 (enum_to v)).
Definition enum_decode `{CEnum A} m buf data_len pos (v : A) : decoded A :=
  '(ret, pos, ival) ← decode_vi32 m buf data_len pos 0; v ← enum_of ival; Some (ret, pos, v).
Definition enum_encoded_length `{CEnum A} (v : A) : Z := encoded_length_vi32 (to_int32 (enum_to v)).
#[global] Instance serial_enum `{CEnum A} : Serial A | 10 := {
  encode := enum_encode; decode := enum_decode; encoded_length := enum_encoded_length
}.

(** ** [ObSEArray]: the count, then the items *)
Section SEArraySerial.
Context `{Allocator, ObSEArray.SEParams A, Serial A}.

Fixpoint encode_items (xs : list A) (m : mem) (buf : cptr) (buf_len pos : Z) : encoded :=
  match xs with
  | [] => Some (OB_SUCCESS, pos, m)
  | x :: xs' =>
      '(ret, pos, m) ← encode m buf buf_len pos x;
      if OB_SUCC ret then encode_items xs' m buf buf_len pos else Some (ret, pos, m)
  end.
Definition se_serialize m buf buf_len pos (a : ObSEArray.t A) : encoded :=
  '(ret, pos, m) ← encode_vi64 m buf buf_len pos (ObSEArray.count a);
  if OB_SUCC ret then encode_items (ObSEArray.items_ a) m buf buf_len pos else Some (ret, pos, m).

(** The loop of [deserialize] over the default-constructed items [todo];
    the result has the items as the loop leaves them. *)
Fixpoint decode_items (todo : list A) (m : mem) (buf : cptr) (data_len pos : Z) : decoded (list A) :=
  match todo with
  | [] => Some (OB_SUCCESS, pos, [])
  | x :: todo' =>
      '(ret, pos, x) ← decode m buf data_len pos x;
      if OB_SUCC ret then
        '(ret, pos, xs) ← decode_items todo' m buf data_len pos; Some (ret, pos, x :: xs)
      else Some (ret, pos, x :: todo')
  end.

Definition se_deserialize m buf data_len pos (a : ObSEArray.t A) : decoded (ObSEArray.t A) :=
  let a := ObSEArray.reset a in
  '(ret, pos, count) ← decode_vi64 m buf data_len pos 0;
  if OB_FAIL ret then Some (ret, pos, a)
  else
    '(ret, a) ← ObSEArray.prepare_allocate a count;
    if OB_FAIL ret then Some (ret, pos, a)
    else
      '(ret, pos, items) ← decode_items (ObSEArray.items_ a) m buf data_len pos;
      Some (ret, pos, ObSEArray.mk items (ObSEArray.capacity_ a) (ObSEArray.error_ a)).

Definition se_get_serialize_size (a : ObSEArray.t A) : Z :=
  encoded_length_vi64 (ObSEArray.count a)
  + fold_right Z.add 0 (encoded_length <$> ObSEArray.items_ a).

#[global] Instance serial_se : Serial (ObSEArray.t A) := {
  encode := se_serialize; decode := se_deserialize; encoded_length := se_get_serialize_size
}.
End SEArraySerial.

(** ** The members of an object: [LST_DO_CODE] over the list of the macro *)
Class Members (A : Type) := {
  serialize_ : mem -> cptr -> Z -> Z -> A -> encoded;
  deserialize_ : mem -> cptr -> Z -> Z -> A -> decoded A;
  get_serialize_size_ : A -> Z
}.

(** [OB_UNIS_ENCODE] and [OB_UNIS_DECODE]: a member that starts at the end of
    the data keeps the value it has. *)
Definition unis_encode `{Serial A} (m : mem) (buf : cptr) (buf_len pos : Z) (x : A) : encoded :=
  encode m buf buf_len pos x.
Definition unis_decode `{Serial A} (m : mem) (buf : cptr) (data_len pos : Z) (x : A) : decoded A :=
  if pos <? data_len then decode m buf data_len pos x else Some (OB_SUCCESS, pos, x).

(** [EmptyUnisStruct], the parent of a class that has none. *)
#[global] Instance members_nil : Members unit := {
  serialize_ m buf buf_len pos _ := Some (OB_SUCCESS, pos, m);
  deserialize_ m buf data_len pos _ := Some (OB_SUCCESS, pos, tt);
  get_serialize_size_ _ := 0
}.

(** The members so far, then one more, which is skipped after an error. *)
#[global] Instance members_snoc `{Members A, Serial B} : Members (A * B) := {
  serialize_ m buf buf_len pos x :=
    '(ret, pos, m) ← serialize_ m buf buf_len pos x.1;
    if OB_SUCC ret then unis_encode m buf buf_len pos x.2 else Some (ret, pos, m);
  deserialize_ m buf data_len pos x :=
    '(ret, pos, a) ← deserialize_ m buf data_len pos x.1;
    if OB_SUCC ret then
      '(ret, pos, b) ← unis_decode m buf data_len pos x.2; Some (ret, pos, (a, b))
    else Some (ret, pos, (a, x.2));
  get_serialize_size_ x := get_serialize_size_ x.1 + encoded_length x.2
}.

(** ** The frame: version, length in five bytes, members *)
Section Unis.
Context `{Members A} (UNIS_VERSION : Z).

Definition unis_serialize (m : mem) (buf : cptr) (buf_len pos : Z) (x : A) : encoded :=
  '(ret, pos, m) ← encode m buf buf_len pos (Int64 UNIS_VERSION);
  if OB_SUCC ret then
    let size_nbytes := OB_SERIALIZE_SIZE_NEED_BYTES in
    let pos_bak := pos + size_nbytes in
    '(ret, pos, m) ← serialize_ m buf buf_len pos_bak x;
    let serial_size := pos - pos_bak in
    if OB_SUCC ret then
      '(ret, _, m) ← encode_fixed_bytes_i64 m (ptr_add buf (pos_bak - size_nbytes)) size_nbytes 0 serial_size;
      Some (ret, pos, m)
    else Some (ret, pos, m)
  else Some (ret, pos, m).

Definition CHECK_VERSION_LENGTH (data_len pos ver len : Z) : option Z :=
  if negb (ver =? UNIS_VERSION) then Some OB_NOT_SUPPORTED
  else if len <? 0 then Some OB_ERR_UNEXPECTED
  else s ← sadd64 len pos; Some (if data_len <? s then OB_DESERIALIZE_ERROR else OB_SUCCESS).

Definition unis_deserialize (m : mem) (buf : cptr) (data_len pos : Z) (x : A) : decoded A :=
  '(ret, pos, version) ← unis_decode m buf data_len pos (Int64 0);
  '(ret, pos, len) ←
    (if OB_SUCC ret then unis_decode m buf data_len pos (Int64 0) else Some (ret, pos, Int64 0));
  ret ← (if OB_SUCC ret then CHECK_VERSION_LENGTH data_len pos (int64_v version) (int64_v len)
         else Some ret);
  if OB_SUCC ret then
    let pos_orig := pos in
    '(ret, _, x) ← deserialize_ m (ptr_add buf pos_orig) (int64_v len) 0 x;
    Some (ret, pos_orig + int64_v len, x)
  else Some (ret, pos, x).

Definition unis_get_serialize_size (x : A) : Z :=
  get_serialize_size_ x + encoded_length (Int64 UNIS_VERSION) + OB_SERIALIZE_SIZE_NEED_BYTES.

Definition serial_unis : Serial A := {|
  encode := unis_serialize; decode := unis_deserialize; encoded_length := unis_get_serialize_size
|}.
End Unis.
