(* ===== verification/SerialFacts.v ===== *)
(** The laws of the codecs: what each writes, that it writes it exactly when it
    fits, and that the decoder reads it back.

    [vbytes n v] is the reference encoding of [v] in [n] groups of seven bits.
    The class [SerialLaws] states what an overload of [encode] and [decode]
    promises; the instances discharge it for every type the Python functions
    serialize, and the framing is proved against the class alone. *)
From S2P Require Import Prelude FixedArray SEArray UdfSchema Serialization.

Abbreviation blen := ObString.length.

Create HintDb serial discriminated.
Create Rewrite HintDb blen.

Lemma blen_nil : blen [] = 0. Proof. reflexivity. Qed.
Lemma blen_cons x s : blen (x :: s) = 1 + blen s.
Proof. unfold blen. simpl List.length. lia. Qed.
Lemma blen_app a b : blen (a ++ b) = blen a + blen b.
Proof. unfold blen. rewrite length_app. lia. Qed.
Lemma blen_nonneg s : 0 <= blen s. Proof. unfold blen. lia. Qed.
#[export] Hint Rewrite blen_nil blen_cons blen_app : blen.

(** *** Memory *)
Lemma load_mid p x s b i : blen p = b + i -> load (p ++ x :: s) (Some b) i = Some x.
Proof.
  intros Hp. unfold load. simpl. pose proof (blen_nonneg p). rewrite (proj2 (Z.leb_le _ _)) by lia.
  rewrite list_lookup_middle; [reflexivity |]. unfold blen in *. lia.
Qed.

Lemma store_mid p y s b i v :
  blen p = b + i -> store (p ++ y :: s) (Some b) i v = Some (p ++ Z.land v 255 :: s).
Proof.
  intros Hp. unfold store. cbn [mbind option_bind]. pose proof (blen_nonneg p). pose proof (blen_nonneg s).
  autorewrite with blen. rewrite (proj2 (Z.leb_le _ _)), (proj2 (Z.ltb_lt _ _)) by lia. cbn [andb].
  do 2 f_equal. replace (Z.to_nat (b + i)) with (length p + 0)%nat by (unfold blen in *; lia).
  now rewrite insert_app_r.
Qed.

(** The bytes of [old] can be overwritten one at a time. *)
Lemma store_all_mid bs : forall p old s b i,
  Forall (fun x => 0 <= x < 256) bs -> length old = length bs -> blen p = b + i ->
  store_all (p ++ old ++ s) (Some b) i bs = Some (p ++ bs ++ s).
Proof.
  induction bs as [| x bs IH]; intros p [| y old] s b i Hb Hl Hp; try discriminate; [reflexivity |].
  inversion Hb as [| ? ? Hx Hbs]; subst. cbn [store_all app]. rewrite (store_mid p y (old ++ s)) by exact Hp.
  cbn [mbind option_bind]. change (255) with (Z.ones 8). rewrite Z.land_ones, Z.mod_small by lia.
  specialize (IH (p ++ [x]) old s b (i + 1)). rewrite <- !app_assoc in IH. cbn [app] in IH.
  apply IH; [exact Hbs | now injection Hl | autorewrite with blen; lia].
Qed.

Lemma load_all_mid bs : forall p s b i,
  blen p = b + i -> load_all (p ++ bs ++ s) (Some b) i (length bs) = Some bs.
Proof.
  induction bs as [| x bs IH]; intros p s b i Hp; [reflexivity |].
  cbn [load_all length app]. rewrite load_mid by exact Hp. cbn [mbind option_bind].
  specialize (IH (p ++ [x]) s b (i + 1)). rewrite <- !app_assoc in IH. cbn [app] in IH.
  rewrite IH by (autorewrite with blen; lia). reflexivity.
Qed.

(** A memory that is long enough has the bytes of a range. *)
Lemma split_mem (m : mem) o n :
  0 <= o -> 0 <= n -> o + n <= blen m ->
  exists p old s, m = p ++ old ++ s /\ blen p = o /\ blen old = n.
Proof.
  intros Ho Hn Hm. exists (take (Z.to_nat o) m), (take (Z.to_nat n) (drop (Z.to_nat o) m)),
    (drop (Z.to_nat n) (drop (Z.to_nat o) m)).
  unfold blen in *. rewrite !length_take, length_drop, !take_drop. split; [reflexivity | lia].
Qed.

(** Nothing changes outside [lo, hi). *)
Definition same_outside (m m' : mem) (lo hi : Z) : Prop :=
  length m' = length m /\ forall i : nat, Z.of_nat i < lo \/ hi <= Z.of_nat i -> m' !! i = m !! i.

Lemma same_outside_refl m lo hi : same_outside m m lo hi.
Proof. now split. Qed.
Lemma same_outside_trans m1 m2 m3 lo hi :
  same_outside m1 m2 lo hi -> same_outside m2 m3 lo hi -> same_outside m1 m3 lo hi.
Proof. intros [L1 H1] [L2 H2]. split; [congruence |]. intros i Hi. now rewrite H2, H1. Qed.
Lemma same_outside_weaken m m' lo hi lo' hi' :
  lo' <= lo -> hi <= hi' -> same_outside m m' lo hi -> same_outside m m' lo' hi'.
Proof. intros Hl Hh [L H]. split; [exact L |]. intros i Hi. apply H. lia. Qed.
Lemma same_outside_mid p old new s lo hi :
  length old = length new -> lo <= blen p -> blen p + blen new <= hi ->
  same_outside (p ++ old ++ s) (p ++ new ++ s) lo hi.
Proof.
  intros Hl Hlo Hhi. split; [rewrite !length_app; lia |]. intros i Hi. unfold blen in *.
  destruct (decide (i < length p)%nat).
  - now rewrite !lookup_app_l by lia.
  - rewrite !(lookup_app_r p), !(lookup_app_r old), !(lookup_app_r new) by lia. now rewrite Hl.
Qed.
(** A first part written in place, then a failure further on. *)
Lemma same_outside_step p old new s m' lo hi :
  blen old = blen new -> blen p = lo -> lo + blen new <= hi ->
  same_outside (p ++ new ++ s) m' (lo + blen new) hi -> same_outside (p ++ old ++ s) m' lo hi.
Proof.
  intros Ho Hp Hh Hs. pose proof (blen_nonneg new). eapply same_outside_trans.
  - apply same_outside_mid with (new := new); [unfold blen in *; lia | lia..].
  - eapply same_outside_weaken; [| | exact Hs]; lia.
Qed.
#[export] Hint Resolve same_outside_refl same_outside_trans : serial.

(** Past a call that returned [OB_SUCCESS]. *)
Ltac step_ok :=
  cbn [mbind option_bind]; change (OB_SUCC OB_SUCCESS) with true; change (OB_FAIL OB_SUCCESS) with false;
  cbn iota zeta.

(** *** Bits of a byte *)
Lemma lor_add a c s : 0 <= s -> 0 <= a < 2 ^ s -> 0 <= c -> Z.lor a (Z.shiftl c s) = a + c * 2 ^ s.
Proof.
  intros Hs Ha Hc. rewrite <- Z.shiftl_mul_pow2 by lia.
  rewrite <- Z.lxor_lor, Z.add_nocarry_lxor; [reflexivity | |];
    apply Z.bits_inj'; intros n Hn; rewrite Z.land_spec, Z.testbit_0_l;
    destruct (Z.ltb_spec n s);
    (rewrite (Z.shiftl_spec_low c) by lia; apply andb_false_r) ||
    (rewrite <- (Z.mod_small a (2 ^ s)) by lia; rewrite Z.mod_pow2_bits_high by lia; reflexivity).
Qed.

Lemma byte_cont v : Z.land (Z.lor v 128) 255 = v mod 128 + 128.
Proof.
  pose proof (Z.mod_pos_bound v 128 ltac:(lia)).
  replace (v mod 128 + 128) with (Z.lor (v mod 2 ^ 7) (Z.shiftl 1 7)) by (rewrite lor_add by (change (2 ^ 7) with 128; lia); reflexivity).
  apply Z.bits_inj'. intros n Hn. change 255 with (Z.ones 8). change 128 with (Z.shiftl 1 7).
  rewrite Z.land_spec, !Z.lor_spec, testbit_one, Z.testbit_ones_nonneg by lia.
  destruct (Z.ltb_spec n 7); [rewrite Z.mod_pow2_bits_low by lia | rewrite Z.mod_pow2_bits_high by lia];
    destruct (Z.eqb_spec n 7), (Z.ltb_spec n 8); try lia; simpl; now rewrite ?andb_true_r, ?andb_false_r, ?orb_true_r.
Qed.

Lemma byte_last v : 0 <= v -> Z.land (Z.land v 127) 255 = v mod 128.
Proof.
  intros Hv. rewrite <- Z.land_assoc. change (Z.land 127 255) with (Z.ones 7). now rewrite Z.land_ones by lia.
Qed.

Lemma land127 c : Z.land c 127 = c mod 128.
Proof. change 127 with (Z.ones 7). now rewrite Z.land_ones by lia. Qed.

Lemma testbit7 c : 0 <= c < 256 -> Z.testbit c 7 = (128 <=? c).
Proof.
  intros Hc. destruct (Z.leb_spec 128 c).
  - replace c with (c - 128 + 1 * 2 ^ 7) by lia. rewrite <- (lor_add (c - 128) 1 7) by lia.
    rewrite Z.lor_spec. change (Z.testbit (Z.shiftl 1 7) 7) with true. apply orb_true_r.
  - rewrite <- (Z.mod_small c (2 ^ 7)) by lia. apply Z.mod_pow2_bits_high. lia.
Qed.

(** *** Seven bits to a byte *)
Fixpoint vbytes (n : nat) (v : Z) : bytes :=
  match n with
  | O => []
  | S O => [v mod 128]
  | S n' => (v mod 128 + 128) :: vbytes n' (v / 128)
  end.

Lemma vbytes_SS n v : vbytes (S (S n)) v = (v mod 128 + 128) :: vbytes (S n) (v / 128).
Proof. reflexivity. Qed.

Lemma length_vbytes n : forall v, length (vbytes n v) = n.
Proof. induction n as [| [| n] IH]; intros v; [reflexivity.. |]. cbn [vbytes length] in *. now rewrite IH. Qed.
Lemma blen_vbytes n v : blen (vbytes n v) = Z.of_nat n.
Proof. unfold blen. now rewrite length_vbytes. Qed.
#[export] Hint Rewrite blen_vbytes : blen.

Lemma vbytes_range n : forall v, Forall (fun x => 0 <= x < 256) (vbytes n v).
Proof.
  induction n as [| [| n] IH]; intros v; pose proof (Z.mod_pos_bound v 128 ltac:(lia)).
  - constructor.
  - repeat constructor; lia.
  - constructor; [lia | apply IH].
Qed.

(** [v] takes [n] groups and no fewer. *)
Definition groups (n : nat) (v : Z) : Prop :=
  (0 < n)%nat /\ 0 <= v < 2 ^ (7 * Z.of_nat n) /\ (n = 1%nat \/ 2 ^ (7 * (Z.of_nat n - 1)) <= v).

Lemma groups_step n v : groups (S (S n)) v -> 128 <= v /\ groups (S n) (v / 128).
Proof.
  unfold groups. intros (_ & [H0 Hlt] & [? | Hge]); [discriminate |].
  assert (2 ^ (7 * Z.of_nat (S (S n))) = 128 * 2 ^ (7 * Z.of_nat (S n))) as E1
    by (rewrite <- (Z.pow_add_r 2 7) by lia; f_equal; lia).
  assert (128 <= v) as Hv.
  { etransitivity; [| exact Hge]. change 128 with (2 ^ 7). apply Z.pow_le_mono_r; lia. }
  split; [exact Hv |]. repeat split; [lia | apply Z.div_pos; lia | apply Z.div_lt_upper_bound; lia |].
  destruct n as [| n]; [now left | right]. apply Z.div_le_lower_bound; [lia |]. etransitivity; [| exact Hge].
  change 128 with (2 ^ 7). rewrite <- Z.pow_add_r by lia. apply Z.pow_le_mono_r; lia.
Qed.

Lemma put_vi_spec n : forall fuel p old s b pos v,
  groups n v -> (n <= fuel)%nat -> length old = n -> blen p = b + pos ->
  put_vi fuel (p ++ old ++ s) (Some b) pos v = Some (pos + Z.of_nat n, p ++ vbytes n v ++ s).
Proof.
  induction n as [| [| n] IH]; intros fuel p old s b pos v Hg Hf Hl Hp; [destruct Hg; lia | |];
    destruct fuel as [| fuel]; try lia; destruct old as [| y old]; try discriminate; cbn [put_vi app].
  - destruct old; [| discriminate]. destruct Hg as (_ & Hv & _). change (2 ^ _) with 128 in Hv.
    change OB_MAX_V1B with 127. rewrite (proj2 (Z.ltb_ge _ _)) by lia.
    rewrite store_mid, byte_last by lia. reflexivity.
  - destruct (groups_step n v Hg) as [Hv Hg']. change OB_MAX_V1B with 127. rewrite (proj2 (Z.ltb_lt _ _)) by lia.
    rewrite store_mid by lia. cbn [mbind option_bind]. rewrite byte_cont, Z.shiftr_div_pow2 by lia.
    specialize (IH fuel (p ++ [v mod 128 + 128]) old s b (pos + 1) (v / 2 ^ 7)). rewrite <- !app_assoc in IH. cbn [app] in IH.
    rewrite IH by (auto with lia; autorewrite with blen; lia). do 2 f_equal. lia.
Qed.

Lemma put_fixed_SS n m buf pos v :
  put_fixed (S (S n)) m buf pos v =
  (m ← store m buf pos (Z.lor v 128); put_fixed (S n) m buf (pos + 1) (Z.shiftr v 7)).
Proof. reflexivity. Qed.

Lemma put_fixed_spec n : forall p old s b pos v,
  0 <= v < 2 ^ (7 * Z.of_nat n) -> length old = n -> blen p = b + pos ->
  put_fixed n (p ++ old ++ s) (Some b) pos v = Some (pos + Z.of_nat n, p ++ vbytes n v ++ s).
Proof.
  induction n as [| [| n] IH]; intros p old s b pos v Hv Hl Hp.
  - destruct old; [| discriminate]. cbn. do 2 f_equal. lia.
  - destruct old as [| y [|]]; try discriminate. cbn [put_fixed Nat.ltb Nat.leb app].
    rewrite store_mid, byte_last by lia. reflexivity.
  - destruct old as [| y old]; [discriminate |]. cbn [app length] in *. rewrite put_fixed_SS, store_mid by lia. cbn [mbind option_bind].
    rewrite byte_cont, Z.shiftr_div_pow2 by lia.
    assert (2 ^ (7 * Z.of_nat (S (S n))) = 2 ^ 7 * 2 ^ (7 * Z.of_nat (S n))) as E1
      by (rewrite <- Z.pow_add_r by lia; f_equal; lia).
    specialize (IH (p ++ [v mod 128 + 128]) old s b (pos + 1) (v / 2 ^ 7)). rewrite <- !app_assoc in IH. cbn [app] in IH.
    rewrite IH; [do 2 f_equal; lia | split; [apply Z.div_pos; lia | apply Z.div_lt_upper_bound; lia] | lia |].
    autorewrite with blen. lia.
Qed.

(** The decoder's loop on [n] groups, with [acc] gathered so far. *)
Lemma get_vi_spec w n : forall fuel p s b data_len pos v acc shift,
  (0 < n <= fuel)%nat -> 0 <= v < 2 ^ (7 * Z.of_nat n) -> 0 <= shift -> 0 <= acc < 2 ^ shift ->
  acc + v * 2 ^ shift < 2 ^ w -> shift + 7 * (Z.of_nat n - 1) < w ->
  blen p = b + pos -> pos + Z.of_nat n <= data_len ->
  get_vi w fuel (p ++ vbytes n v ++ s) (Some b) data_len pos acc shift =
  Some (OB_SUCCESS, pos + Z.of_nat n, acc + v * 2 ^ shift).
Proof.
  assert (forall c shift acc v, 0 <= c < 128 -> 0 <= shift < w -> 0 <= acc < 2 ^ shift -> 0 <= v -> v mod 128 = c ->
    acc + v * 2 ^ shift < 2 ^ w ->
    (x ← shl w c shift; Some (Z.lor acc x)) = Some (acc + c * 2 ^ shift) /\ acc + c * 2 ^ shift < 2 ^ (shift + 7)) as Hstep.
  { intros c shift acc v Hc Hs Ha Hv Hm Hw. unfold shl. rewrite (proj2 (Z.ltb_lt _ _)) by lia. cbn.
    assert (c <= v) by (subst c; apply Z.mod_le; lia).
    assert (0 < 2 ^ shift) by lia.
    rewrite Z.mod_small by (rewrite Z.shiftl_mul_pow2 by lia; nia). rewrite lor_add by lia.
    split; [reflexivity |]. rewrite Z.pow_add_r by lia. change (2 ^ 7) with 128. nia. }
  induction n as [| [| n] IH]; intros fuel p s b data_len pos v acc shift Hn Hv Hs Ha Hw Hsh Hp Hd; [lia | |];
    destruct fuel as [| fuel]; try lia; pose proof (Z.mod_pos_bound v 128 ltac:(lia)) as Hm.
  - change (vbytes 1 v) with [v mod 128]. cbn [get_vi app]. rewrite load_mid by lia. cbn [mbind option_bind].
    rewrite testbit7, (proj2 (Z.leb_gt _ _)) by lia. rewrite (proj2 (Z.ltb_ge _ _)) by lia.
    change (2 ^ (7 * Z.of_nat 1)) with 128 in Hv.
    rewrite land127, Zmod_mod, Z.mod_small by lia.
    destruct (Hstep v shift acc v ltac:(lia) ltac:(lia) Ha ltac:(lia) ltac:(apply Z.mod_small; lia) Hw) as [E _].
    destruct (shl w v shift); [| discriminate]. cbn in *. injection E as ->. reflexivity.
  - rewrite vbytes_SS. cbn [get_vi app]. rewrite load_mid by lia. cbn [mbind option_bind].
    rewrite testbit7, (proj2 (Z.leb_le _ _)) by lia. rewrite (proj2 (Z.ltb_ge _ _)) by lia.
    replace (Z.land (v mod 128 + 128) 127) with (v mod 128)
      by (rewrite land127, <- Z.add_mod_idemp_r, Z_mod_same_full, Z.add_0_r, Zmod_mod by lia; reflexivity).
    destruct (Hstep (v mod 128) shift acc v ltac:(lia) ltac:(lia) Ha ltac:(lia) eq_refl Hw) as [E Hlt].
    destruct (shl w (v mod 128) shift) as [x |]; [| discriminate]. cbn [mbind option_bind] in E |- *. injection E as ->.
    assert (2 ^ (7 * Z.of_nat (S (S n))) = 2 ^ 7 * 2 ^ (7 * Z.of_nat (S n))) as E1
      by (rewrite <- Z.pow_add_r by lia; f_equal; lia).
    assert (acc + v mod 128 * 2 ^ shift + v / 128 * 2 ^ (shift + 7) = acc + v * 2 ^ shift) as E2.
    { rewrite Z.pow_add_r by lia. change (2 ^ 7) with 128. pose proof (Z.div_mod v 128 ltac:(lia)). nia. }
    specialize (IH fuel (p ++ [v mod 128 + 128]) s b data_len (pos + 1) (v / 128) (acc + v mod 128 * 2 ^ shift) (shift + 7)).
    rewrite <- !app_assoc in IH. cbn [app] in IH. rewrite IH; try lia.
    + rewrite E2. do 3 f_equal. lia.
    + split; [apply Z.div_pos; lia | apply Z.div_lt_upper_bound; lia].
    + autorewrite with blen. lia.
Qed.

(** *** The integer codecs *)
Ltac limits :=
  change OB_MAX_V1B with 127; change OB_MAX_V2B with 16383; change OB_MAX_V3B with 2097151;
  change OB_MAX_V4B with 268435455; change OB_MAX_V5B with 34359738367;
  change OB_MAX_V6B with 4398046511103; change OB_MAX_V7B with 562949953421311;
  change OB_MAX_V8B with 72057594037927935; change OB_MAX_V9B with 9223372036854775807.

(** The nested comparisons give the number of groups. *)
Ltac by_limits :=
  limits; unfold groups; repeat case_match;
  match goal with |- context [Z.to_nat ?k] => let r := eval compute in (Z.to_nat k) in change (Z.to_nat k) with r end;
  lia.

Lemma groups_vi64 v : groups (Z.to_nat (encoded_length_vi64 v)) (v mod 2 ^ 64).
Proof.
  unfold encoded_length_vi64. pose proof (Z.mod_pos_bound v (2 ^ 64) ltac:(lia)) as H. cbv zeta.
  set (u := v mod 2 ^ 64) in *. clearbody u. change (2 ^ 64) with 18446744073709551616 in H. by_limits.
Qed.
Lemma groups_vi32 v : groups (Z.to_nat (encoded_length_vi32 v)) (v mod 2 ^ 32).
Proof.
  unfold encoded_length_vi32. pose proof (Z.mod_pos_bound v (2 ^ 32) ltac:(lia)) as H. cbv zeta.
  set (u := v mod 2 ^ 32) in *. clearbody u. change (2 ^ 32) with 4294967296 in H. by_limits.
Qed.
Lemma encoded_length_vi64_range v : 1 <= encoded_length_vi64 v <= 10.
Proof. unfold encoded_length_vi64. cbv zeta. repeat case_match; lia. Qed.
Lemma encoded_length_vi32_range v : 1 <= encoded_length_vi32 v <= 5.
Proof. unfold encoded_length_vi32. cbv zeta. repeat case_match; lia. Qed.
Lemma encoded_length_vi64_mod v : encoded_length_vi64 (v mod 2 ^ 64) = encoded_length_vi64 v.
Proof. unfold encoded_length_vi64. now rewrite Zmod_mod. Qed.

Definition vi64_image (v : Z) : bytes := vbytes (Z.to_nat (encoded_length_vi64 v)) (v mod 2 ^ 64).
Definition vi32_image (v : Z) : bytes := vbytes (Z.to_nat (encoded_length_vi32 v)) (v mod 2 ^ 32).
Lemma blen_vi64 v : blen (vi64_image v) = encoded_length_vi64 v.
Proof. unfold vi64_image. autorewrite with blen. pose proof (encoded_length_vi64_range v). lia. Qed.
Lemma blen_vi32 v : blen (vi32_image v) = encoded_length_vi32 v.
Proof. unfold vi32_image. autorewrite with blen. pose proof (encoded_length_vi32_range v). lia. Qed.
#[export] Hint Rewrite blen_vi64 blen_vi32 : blen.

Lemma swrap_mod w x : 0 < w -> - 2 ^ (w - 1) <= x < 2 ^ (w - 1) -> swrap w (x mod 2 ^ w) = x.
Proof.
  intros Hw Hx. unfold swrap. rewrite Z.add_mod_idemp_l by (apply Z.pow_nonzero; lia).
  change (swrap w x = x). now apply swrap_small.
Qed.

(** What the codec of a type promises: [image] is what it writes, [norm x] the
    value read back for [x], [target] the values it can decode into. *)
Record CodecLaws {A : Type} (enc : mem -> cptr -> Z -> Z -> A -> encoded)
    (dec : mem -> cptr -> Z -> Z -> A -> decoded A) (len : A -> Z)
    (valid : A -> Prop) (image : A -> bytes) (target : A -> Prop) (norm : A -> A) : Prop := {
  law_length x : valid x -> len x = blen (image x);
  law_fits p old s b buf_len pos x :
    valid x -> 0 <= b -> 0 <= pos -> blen p = b + pos -> blen old = blen (image x) ->
    pos + blen (image x) <= buf_len ->
    enc (p ++ old ++ s) (Some b) buf_len pos x
    = Some (OB_SUCCESS, pos + blen (image x), p ++ image x ++ s);
  law_full m b buf_len pos x :
    valid x -> 0 < blen (image x) -> 0 <= b -> 0 <= pos -> b + buf_len <= blen m ->
    buf_len < pos + blen (image x) ->
    exists ret pos' m', enc m (Some b) buf_len pos x = Some (ret, pos', m') /\
      ret <> OB_SUCCESS /\ same_outside m m' (b + pos) (b + buf_len);
  law_decode p s b data_len pos x cur :
    valid x -> target cur -> 0 <= b -> 0 <= pos -> blen p = b + pos ->
    pos + blen (image x) <= data_len < 2 ^ 63 ->
    dec (p ++ image x ++ s) (Some b) data_len pos cur
    = Some (OB_SUCCESS, pos + blen (image x), norm x)
}.

Class SerialLaws (A : Type) `{Serial A} := {
  valid : A -> Prop; image : A -> bytes; target : A -> Prop; norm : A -> A;
  image_pos x : 0 < blen (image x);
  serial_laws : CodecLaws encode decode encoded_length valid image target norm
}.
Class MembersLaws (A : Type) `{Members A} := {
  mvalid : A -> Prop; mimage : A -> bytes; mtarget : A -> Prop; mnorm : A -> A;
  members_empty m buf buf_len pos x :
    blen (mimage x) = 0 -> serialize_ m buf buf_len pos x = Some (OB_SUCCESS, pos, m);
  members_laws : CodecLaws serialize_ deserialize_ get_serialize_size_ mvalid mimage mtarget mnorm
}.

Lemma not_null_some b : not_null (Some b) = true.
Proof. reflexivity. Qed.

(** A codec that checks the room first and then writes [image]. *)
Lemma encode_vi64_fits p old s b buf_len pos v :
  blen p = b + pos -> blen old = encoded_length_vi64 v -> pos + encoded_length_vi64 v <= buf_len ->
  encode_vi64 (p ++ old ++ s) (Some b) buf_len pos v
  = Some (OB_SUCCESS, pos + encoded_length_vi64 v, p ++ vi64_image v ++ s).
Proof.
  intros Hp Ho Hb. pose proof (encoded_length_vi64_range v). unfold encode_vi64. cbv zeta.
  rewrite not_null_some, encoded_length_vi64_mod, (proj2 (Z.leb_le _ _)) by lia. cbn [andb]. step_ok.
  rewrite (put_vi_spec (Z.to_nat (encoded_length_vi64 v))) by (apply groups_vi64 || unfold blen in *; lia).
  cbn [mbind option_bind]. do 3 f_equal. lia.
Qed.
Lemma encode_vi64_full m b buf_len pos v :
  buf_len < pos + encoded_length_vi64 v -> encode_vi64 m (Some b) buf_len pos v = Some (OB_SIZE_OVERFLOW, pos, m).
Proof.
  intros Hb. unfold encode_vi64. cbv zeta. rewrite encoded_length_vi64_mod, not_null_some, (proj2 (Z.leb_gt _ _)) by lia.
  reflexivity.
Qed.
Lemma encode_vi32_fits p old s b buf_len pos v :
  blen p = b + pos -> blen old = encoded_length_vi32 v -> pos + encoded_length_vi32 v <= buf_len ->
  encode_vi32 (p ++ old ++ s) (Some b) buf_len pos v
  = Some (OB_SUCCESS, pos + encoded_length_vi32 v, p ++ vi32_image v ++ s).
Proof.
  intros Hp Ho Hb. pose proof (encoded_length_vi32_range v). unfold encode_vi32. cbv zeta.
  rewrite not_null_some, (proj2 (Z.leb_le _ _)) by lia. cbn [andb]. step_ok.
  rewrite (put_vi_spec (Z.to_nat (encoded_length_vi32 v))) by (apply groups_vi32 || unfold blen in *; lia).
  cbn [mbind option_bind]. do 3 f_equal. lia.
Qed.
Lemma encode_vi32_full m b buf_len pos v :
  buf_len < pos + encoded_length_vi32 v -> encode_vi32 m (Some b) buf_len pos v = Some (OB_SIZE_OVERFLOW, pos, m).
Proof. intros Hb. unfold encode_vi32. cbv zeta. rewrite not_null_some, (proj2 (Z.leb_gt _ _)) by lia. reflexivity. Qed.

Lemma decode_vi_spec w n p s b data_len pos v cur :
  0 < w -> (0 < n)%nat -> 0 <= v < 2 ^ w -> v < 2 ^ (7 * Z.of_nat n) -> 7 * (Z.of_nat n - 1) < w ->
  blen p = b + pos -> pos + Z.of_nat n <= data_len ->
  decode_vi w (p ++ vbytes n v ++ s) (Some b) data_len pos cur
  = Some (OB_SUCCESS, pos + Z.of_nat n, swrap w v).
Proof.
  intros Hw Hn Hv Hv' Hs Hp Hd. unfold decode_vi. rewrite (get_vi_spec w n); try lia.
  - step_ok. do 3 f_equal. lia.
  - rewrite !length_app, length_vbytes. lia.
Qed.

Lemma decode_vi64_image p s b data_len pos v cur :
  - 2 ^ 63 <= v < 2 ^ 63 -> blen p = b + pos -> pos + encoded_length_vi64 v <= data_len ->
  decode_vi64 (p ++ vi64_image v ++ s) (Some b) data_len pos cur
  = Some (OB_SUCCESS, pos + encoded_length_vi64 v, v).
Proof.
  intros Hv Hp Hd. destruct (groups_vi64 v) as (Hn & Hg & _). pose proof (encoded_length_vi64_range v).
  pose proof (Z.mod_pos_bound v (2 ^ 64) ltac:(lia)). unfold decode_vi64, vi64_image.
  rewrite decode_vi_spec by lia. rewrite swrap_mod by lia. do 3 f_equal. lia.
Qed.
Lemma decode_vi32_image p s b data_len pos v cur :
  - 2 ^ 31 <= v < 2 ^ 31 -> blen p = b + pos -> pos + encoded_length_vi32 v <= data_len ->
  decode_vi32 (p ++ vi32_image v ++ s) (Some b) data_len pos cur
  = Some (OB_SUCCESS, pos + encoded_length_vi32 v, v).
Proof.
  intros Hv Hp Hd. destruct (groups_vi32 v) as (Hn & Hg & _). pose proof (encoded_length_vi32_range v).
  pose proof (Z.mod_pos_bound v (2 ^ 32) ltac:(lia)). unfold decode_vi32, vi32_image.
  rewrite decode_vi_spec by lia. rewrite swrap_mod by lia. do 3 f_equal. lia.
Qed.

(** *** Fixed-width integers *)
Fixpoint be (n : nat) (v : Z) : bytes :=
  match n with O => [] | S n' => Z.land (Z.shiftr v (8 * Z.of_nat n')) 255 :: be n' v end.
Fixpoint be_shifts (n : nat) : list Z :=
  match n with O => [] | S n' => 8 * Z.of_nat n' :: be_shifts n' end.

Lemma length_be n v : length (be n v) = n.
Proof. induction n; simpl; congruence. Qed.
Lemma blen_be n v : blen (be n v) = Z.of_nat n.
Proof. unfold blen. now rewrite length_be. Qed.
#[export] Hint Rewrite blen_be : blen.

Lemma land_byte v : Z.land (Z.land v 255) 255 = Z.land v 255.
Proof. now rewrite <- Z.land_assoc. Qed.

Lemma be_fmap n v : ((fun x => Z.land x 255) <$> be n v) = be n v.
Proof. induction n as [| n IH]; [reflexivity |]. cbn [be]. rewrite fmap_cons. now rewrite land_byte, IH. Qed.

Lemma put_bytes_mid vs : forall p old s b pos,
  length old = length vs -> blen p = b + pos ->
  put_bytes (p ++ old ++ s) (Some b) pos vs
  = Some (pos + Z.of_nat (length vs), p ++ ((fun v => Z.land v 255) <$> vs) ++ s).
Proof.
  induction vs as [| v vs IH]; intros p [| y old] s b pos Hl Hp; try discriminate.
  - simpl. do 2 f_equal. lia.
  - cbn [put_bytes app fmap list_fmap length] in *. rewrite store_mid by lia. cbn [mbind option_bind].
    specialize (IH (p ++ [Z.land v 255]) old s b (pos + 1)). rewrite <- !app_assoc in IH. cbn [app] in IH.
    rewrite IH by (autorewrite with blen; lia). do 2 f_equal. lia.
Qed.

Lemma byte_join v k acc :
  0 <= k ->
  Z.lor (Z.lor acc (Z.shiftl (Z.land (Z.shiftr v k) 255) k)) (v mod 2 ^ k) = Z.lor acc (v mod 2 ^ (k + 8)).
Proof.
  intros Hk. apply Z.bits_inj'. intros n Hn. change 255 with (Z.ones 8). rewrite !Z.lor_spec.
  destruct (Z.ltb_spec n k).
  - rewrite Z.shiftl_spec_low, !Z.mod_pow2_bits_low by lia. now rewrite orb_false_r.
  - rewrite Z.shiftl_spec, Z.land_spec, Z.shiftr_spec, Z.testbit_ones_nonneg by lia.
    rewrite (Z.mod_pow2_bits_high _ k) by lia. replace (n - k + k) with n by lia.
    destruct (Z.ltb_spec (n - k) 8).
    + rewrite (Z.mod_pow2_bits_low _ (k + 8)) by lia. now rewrite andb_true_r, orb_false_r.
    + rewrite (Z.mod_pow2_bits_high _ (k + 8)) by lia. now rewrite andb_false_r, !orb_false_r.
Qed.

Lemma get_bytes_be n v : forall p s b pos acc,
  blen p = b + pos ->
  get_bytes (p ++ be n v ++ s) (Some b) pos acc (be_shifts n)
  = Some (pos + Z.of_nat n, Z.lor acc (v mod 2 ^ (8 * Z.of_nat n))).
Proof.
  induction n as [| n IH]; intros p s b pos acc Hp.
  - simpl. rewrite Z.mod_1_r, Z.lor_0_r. do 2 f_equal. lia.
  - cbn [get_bytes be be_shifts app]. rewrite load_mid by lia. cbn [mbind option_bind]. rewrite land_byte.
    specialize (IH (p ++ [Z.land (Z.shiftr v (8 * Z.of_nat n)) 255]) s b (pos + 1)). rewrite <- !app_assoc in IH. cbn [app] in IH.
    rewrite IH by (autorewrite with blen; lia). rewrite byte_join by lia. f_equal. f_equal; [lia |]. do 3 f_equal. lia.
Qed.

(** The codec of an [n]-byte integer, given as the list of its bytes. *)
Lemma fixed_laws n enc dec :
  (0 < n)%nat ->
  (forall m buf buf_len pos v, enc m buf buf_len pos v = put_checked m buf buf_len pos (Z.of_nat n) (be n v)) ->
  (forall m buf data_len pos v, dec m buf data_len pos v
     = get_checked (8 * Z.of_nat n) m buf data_len pos (Z.of_nat n) (be_shifts n) v) ->
  CodecLaws enc dec (fun _ => Z.of_nat n)
    (fun v => - 2 ^ (8 * Z.of_nat n - 1) <= v < 2 ^ (8 * Z.of_nat n - 1)) (be n) (fun _ => True) id.
Proof.
  intros Hn Henc Hdec. split.
  - intros v _. now autorewrite with blen.
  - intros p old s b buf_len pos v _ _ _ Hp Ho Hl. autorewrite with blen in *. rewrite Henc. unfold put_checked.
    rewrite not_null_some, (proj2 (Z.leb_le _ _)) by lia. cbn [andb]. step_ok.
    rewrite put_bytes_mid by (rewrite ?length_be; unfold blen in *; lia). cbn [mbind option_bind]. rewrite length_be.
    now rewrite be_fmap.
  - intros m b buf_len pos v _ _ _ _ _ Hl. autorewrite with blen in *. rewrite Henc. unfold put_checked.
    rewrite not_null_some, (proj2 (Z.leb_gt _ _)) by lia. cbn. eexists _, _, _. split; [reflexivity |]. split; [easy | auto with serial].
  - intros p s b data_len pos v cur Hv _ _ _ Hp Hd. autorewrite with blen in *. rewrite Hdec. unfold get_checked.
    rewrite not_null_some, (proj2 (Z.leb_le _ _)) by lia. cbn [andb]. step_ok.
    rewrite get_bytes_be by exact Hp. cbn [mbind option_bind]. rewrite Z.lor_0_l, swrap_mod by (assumption || lia). reflexivity.
Qed.

Lemma i8_laws : CodecLaws encode_i8 decode_i8 encoded_length_i8 (fun v => - 2 ^ 7 <= v < 2 ^ 7) (be 1) (fun _ => True) id.
Proof.
  apply (fixed_laws 1); [lia | | reflexivity]. intros. unfold encode_i8, put_checked. cbn [be put_bytes].
  change (8 * Z.of_nat 0) with 0. rewrite Z.shiftr_0_r. unfold store. now rewrite land_byte.
Qed.
Lemma i16_laws : CodecLaws encode_i16 decode_i16 encoded_length_i16 (fun v => - 2 ^ 15 <= v < 2 ^ 15) (be 2) (fun _ => True) id.
Proof. apply (fixed_laws 2); [lia | | reflexivity]. intros. cbn [be]. change (8 * Z.of_nat 0) with 0. now rewrite Z.shiftr_0_r. Qed.
Lemma i32_laws : CodecLaws encode_i32 decode_i32 encoded_length_i32 (fun v => - 2 ^ 31 <= v < 2 ^ 31) (be 4) (fun _ => True) id.
Proof. apply (fixed_laws 4); [lia | | reflexivity]. intros. cbn [be]. change (8 * Z.of_nat 0) with 0. now rewrite Z.shiftr_0_r. Qed.
Lemma i64_laws : CodecLaws encode_i64 decode_i64 encoded_length_i64 (fun v => - 2 ^ 63 <= v < 2 ^ 63) (be 8) (fun _ => True) id.
Proof. apply (fixed_laws 8); [lia | | reflexivity]. intros. cbn [be]. change (8 * Z.of_nat 0) with 0. now rewrite Z.shiftr_0_r. Qed.
