(* ===== verification/SerialLaws.v ===== *)
(** The laws of [SerialFacts] for every type the Python functions serialize:
    integers, enumerations, booleans, strings, arrays, lists of members and the
    versioned frame around them. *)
From S2P Require Import Prelude FixedArray SEArray UdfSchema Serialization SerialFacts.

(** *** Integers, enumerations, booleans *)
Lemma vi64_laws :
  CodecLaws encode_vi64 decode_vi64 encoded_length_vi64 (fun v => - 2 ^ 63 <= v < 2 ^ 63)
    vi64_image (fun _ => True) id.
Proof.
  split.
  - intros v _. now autorewrite with blen.
  - intros * _ _ _ Hp Ho Hl. autorewrite with blen in *. now apply encode_vi64_fits.
  - intros * _ _ _ _ _ Hl. autorewrite with blen in *. rewrite encode_vi64_full by lia. eexists _, _, _. split; [reflexivity |].
    split; [easy | auto with serial].
  - intros * Hv _ _ _ Hp Hd. autorewrite with blen in *. unfold id. apply decode_vi64_image; lia.
Qed.
Lemma vi32_laws :
  CodecLaws encode_vi32 decode_vi32 encoded_length_vi32 (fun v => - 2 ^ 31 <= v < 2 ^ 31)
    vi32_image (fun _ => True) id.
Proof.
  split.
  - intros v _. now autorewrite with blen.
  - intros * _ _ _ Hp Ho Hl. autorewrite with blen in *. now apply encode_vi32_fits.
  - intros * _ _ _ _ _ Hl. autorewrite with blen in *. rewrite encode_vi32_full by lia. eexists _, _, _. split; [reflexivity |].
    split; [easy | auto with serial].
  - intros * Hv _ _ _ Hp Hd. autorewrite with blen in *. unfold id. apply decode_vi32_image; lia.
Qed.

(** A codec through another type. *)
Lemma codec_map {A B} (fwd : B -> A) (bwd : A -> B) (cur : A) enc dec len valid image target norm (vB : B -> Prop) (nB : B -> B) :
  CodecLaws enc dec len valid image target norm -> target cur ->
  (forall x, vB x -> valid (fwd x)) -> (forall x, vB x -> bwd (norm (fwd x)) = nB x) ->
  CodecLaws (fun m buf buf_len pos x => enc m buf buf_len pos (fwd x))
    (fun m buf data_len pos _ => dmap bwd (dec m buf data_len pos cur)) (fun x => len (fwd x))
    vB (fun x => image (fwd x)) (fun _ => True) nB.
Proof.
  intros [L F U D] Hc Hv Hn. split.
  - intros x Hx. apply L; auto.
  - intros * Hx ? ? Hp Ho Hl. apply F; auto.
  - intros * Hx ? ? ? Hm Hl. apply U; auto.
  - intros p s b data_len pos x cur' Hx _ ? ? Hp Hd. unfold dmap. rewrite D by auto. cbn [mbind option_bind]. now rewrite Hn.
Qed.

Lemma vi64_image_pos v : 0 < blen (vi64_image v).
Proof. rewrite blen_vi64. pose proof (encoded_length_vi64_range v). lia. Qed.
Lemma vi32_image_pos v : 0 < blen (vi32_image v).
Proof. rewrite blen_vi32. pose proof (encoded_length_vi32_range v). lia. Qed.

#[global, refine] Instance int64_laws : SerialLaws int64 := {|
  valid x := - 2 ^ 63 <= int64_v x < 2 ^ 63; image x := vi64_image (int64_v x); target _ := True; norm x := x;
  image_pos x := vi64_image_pos (int64_v x);
  serial_laws := _ |}.
Proof. apply (codec_map _ _ 0 _ _ _ _ _ _ _ _ _ vi64_laws); [exact I | auto | now intros [v]]. Defined.
#[global, refine] Instance uint64_laws : SerialLaws uint64 := {|
  valid x := 0 <= uint64_v x < W64; image x := vi64_image (to_int64 (uint64_v x)); target _ := True; norm x := x;
  image_pos x := vi64_image_pos _;
  serial_laws := _ |}.
Proof.
  apply (codec_map (fun x => to_int64 (uint64_v x)) _ 0 _ _ _ _ _ _ _ _ _ vi64_laws); [exact I | |].
  - intros x _. apply (swrap_range 64). lia.
  - intros [v] Hv. cbn in *. unfold to_int64, swrap, uwrap64, W64 in *. f_equal.
    rewrite Zminus_mod_idemp_l. replace (v + _ - _) with v by lia. apply Z.mod_small. lia.
Defined.
#[global, refine] Instance int32_laws : SerialLaws int32 := {|
  valid x := - 2 ^ 31 <= int32_v x < 2 ^ 31; image x := vi32_image (int32_v x); target _ := True; norm x := x;
  image_pos x := vi32_image_pos (int32_v x);
  serial_laws := _ |}.
Proof. apply (codec_map _ _ 0 _ _ _ _ _ _ _ _ _ vi32_laws); [exact I | auto | now intros [v]]. Defined.

#[global, refine] Instance bool_laws : SerialLaws bool := {|
  valid _ := True; image (x : bool) := [if x then 1 else 0]; target _ := True; norm x := x;
  image_pos x := eq_refl;
  serial_laws := _ |}.
Proof.
  split.
  - reflexivity.
  - intros p old s b buf_len pos x _ _ _ Hp Ho Hl. change (blen [if x then 1 else 0]) with 1 in *.
    unfold encode, serial_bool, encode_bool, put_checked. rewrite not_null_some, (proj2 (Z.leb_le _ _)) by lia. cbn [andb].
    step_ok. rewrite put_bytes_mid by (unfold blen in *; simpl in *; lia). now destruct x.
  - intros m b buf_len pos x _ _ _ _ _ Hl. change (blen [if x then 1 else 0]) with 1 in *.
    unfold encode, serial_bool, encode_bool, put_checked. rewrite not_null_some, (proj2 (Z.leb_gt _ _)) by lia.
    eexists _, _, _. split; [reflexivity |]. split; [easy | auto with serial].
  - intros p s b data_len pos x cur _ _ Hb Hpos Hp Hd.
    unfold decode, serial_bool, decode_bool. pose proof (law_decode _ _ _ _ _ _ _ i8_laws p s b data_len pos (if x then 1 else 0) 0) as Hi.
    replace (be 1 (if x then 1 else 0)) with [if x then 1 else 0] in Hi by now destruct x.
    rewrite Hi by (auto; destruct x; lia). now destruct x.
Defined.

(** An enumeration whose values are 32-bit integers that convert back. *)
Class CEnumLaws (A : Type) `{CEnum A} :=
  { enum_range (x : A) : - 2 ^ 31 <= enum_to x < 2 ^ 31; enum_of_to (x : A) : enum_of (enum_to x) = Some x }.
#[global, refine] Instance enum_laws `{CEnumLaws A} : SerialLaws A := {|
  valid _ := True; image x := vi32_image (to_int32 (enum_to x)); target _ := True; norm x := x;
  image_pos x := vi32_image_pos _; serial_laws := _ |}.
Proof.
  pose proof vi32_laws as [L F U D].
  assert (forall x : A, to_int32 (enum_to x) = enum_to x) as Ei
    by (intros x; unfold to_int32; apply swrap_small; [lia | apply enum_range]).
  split.
  - intros x _. apply L, (swrap_range 32). lia.
  - intros * _ ? ? Hp Ho Hl. apply F; auto. apply (swrap_range 32). lia.
  - intros * _ ? ? ? Hm Hl. apply U; auto. apply (swrap_range 32). lia.
  - intros p s b data_len pos x cur _ _ ? ? Hp Hd. cbn [decode serial_enum]. unfold enum_decode.
    rewrite D by (auto; apply (swrap_range 32); lia). cbn [mbind option_bind id]. unfold id. now rewrite Ei, enum_of_to.
Defined.

(** *** Strings *)
Definition byte_range (bs : bytes) : Prop := Forall (fun x => 0 <= x < 256) bs.

(** A string that can be read: it has its bytes, or it is null and empty. *)
Definition obstr_valid (s : ObStr) : Prop :=
  0 <= data_length_ s < 2 ^ 31 /\
  match ptr_ s with
  | Null => data_length_ s = 0
  | To b => data_length_ s <= blen b /\ byte_range b
  | Dangling => False
  end.
Definition obstr_image (s : ObStr) : bytes :=
  vi64_image (data_length_ s) ++ default [] (obstr_bytes s) ++ [0].
(** The string read back points into the buffer. *)
Definition obstr_norm (s : ObStr) : ObStr := mkStr 0 (data_length_ s) (To (default [] (obstr_bytes s))).

Lemma obstr_bytes_valid s : obstr_valid s ->
  exists bs, obstr_bytes s = Some bs /\ blen bs = data_length_ s /\ byte_range bs /\ (ptr_ s = Null -> bs = []).
Proof.
  destruct s as [bsz n [| b |]]; intros [Hn H]; cbn in *; [| | easy].
  - exists []. subst n. repeat split; try easy. constructor.
  - destruct H as [Hle Hb]. unfold obstr_bytes. cbn. rewrite (proj2 (Z.leb_le _ _)) by lia. eexists. split; [reflexivity |].
    unfold blen in *. rewrite length_take. split; [lia |]. split; [now apply Forall_take | easy].
Qed.

Lemma blen_obstr_image s : obstr_valid s -> blen (obstr_image s) = encoded_length_vstr (data_length_ s).
Proof.
  intros Hs. destruct (obstr_bytes_valid s Hs) as (bs & E & Hl & _). unfold obstr_image. rewrite E. cbn [default from_option id].
  autorewrite with blen. unfold encoded_length_vstr. lia.
Qed.

Lemma swrap_le w x : 0 < w -> 0 <= x -> swrap w x <= x.
Proof.
  intros Hw Hx. unfold swrap. assert (0 < 2 ^ (w - 1)) by (apply Z.pow_pos_nonneg; lia).
  pose proof (Z.mod_le (x + 2 ^ (w - 1)) (2 ^ w) ltac:(lia) ltac:(apply Z.pow_pos_nonneg; lia)). lia.
Qed.

(** A list with the length of two lists is their concatenation. *)
Lemma split_blen (l : bytes) n k : 0 <= n -> 0 <= k -> blen l = n + k ->
  exists l1 l2, l = l1 ++ l2 /\ blen l1 = n /\ blen l2 = k.
Proof.
  intros Hn Hk Hl. exists (take (Z.to_nat n) l), (drop (Z.to_nat n) l). unfold blen in *.
  rewrite take_drop, length_take, length_drop. split; [reflexivity | lia].
Qed.

Lemma obstr_fits p old s b buf_len pos x :
  obstr_valid x -> blen p = b + pos -> blen old = blen (obstr_image x) ->
  pos + blen (obstr_image x) <= buf_len ->
  obstr_serialize (p ++ old ++ s) (Some b) buf_len pos x
  = Some (OB_SUCCESS, pos + blen (obstr_image x), p ++ obstr_image x ++ s).
Proof.
  intros Hx Hp Ho Hl. pose proof (blen_obstr_image x Hx) as Ei. rewrite Ei in *.
  destruct (obstr_bytes_valid x Hx) as (bs & E & Hbs & Hr & Hnull). destruct x as [bsz n ptr]. cbn [data_length_ ptr_] in *.
  destruct Hx as [Hn _]. cbn in Hn. pose proof (encoded_length_vi64_range n). unfold encoded_length_vstr in *.
  unfold obstr_serialize, obstr_get_serialize_size, encode_vstr, obstr_image. rewrite E. cbn [data_length_ ptr_ default from_option id].
  unfold encoded_length_vstr. rewrite not_null_some, (proj2 (Z.ltb_ge _ _)) by lia. cbn [negb orb].
  rewrite (proj2 (Z.leb_le 0 n)) by lia.
  rewrite (proj2 (Z.leb_le (to_int32 _) _)) by (unfold to_int32; etransitivity; [apply swrap_le; lia | lia]). cbn [andb].
  step_ok.
  destruct (split_blen old (encoded_length_vi64 n) (n + 1)) as (o1 & o2 & -> & Ho1 & Ho2); [lia.. |].
  destruct (split_blen o2 n 1) as (o3 & o4 & -> & Ho3 & Ho4); [lia.. |].
  destruct o4 as [| z [|]]; [discriminate | | unfold blen in Ho4; simpl in Ho4; lia].
  rewrite <- !app_assoc. rewrite encode_vi64_fits by lia. cbn [mbind option_bind].
  set (q := p ++ vi64_image n).
  assert (blen q = b + (pos + encoded_length_vi64 n)) as Hq by (unfold q; autorewrite with blen; lia).
  assert (forall m', m' = q ++ bs ++ [z] ++ s ->
    (m0 ← store m' (Some b) (pos + encoded_length_vi64 n + n) 0; Some (OB_SUCCESS, pos + encoded_length_vi64 n + n + 1, m0))
    = Some (OB_SUCCESS, pos + (encoded_length_vi64 n + n + 1), p ++ vi64_image n ++ bs ++ [0] ++ s)) as Hend.
  { intros m' ->. cbn [app]. rewrite app_assoc. rewrite store_mid by (autorewrite with blen; lia).
    cbn [mbind option_bind]. unfold q. rewrite <- !app_assoc. cbn [app]. do 3 f_equal. lia. }
  rewrite <- Hend with (m' := q ++ bs ++ [z] ++ s) by reflexivity. clear Hend.
  change (OB_SUCCESS =? OB_SUCCESS) with true. cbn [andb].
  destruct (Z.ltb_spec 0 n) as [Hpos | Hz].
  - destruct ptr as [| bb |]; [now rewrite (Hnull eq_refl) in Hbs; unfold blen in Hbs; simpl in Hbs; lia | | discriminate].
    cbn [andb negb]. change (obstr_bytes (mkStr 0 n (To bb))) with (obstr_bytes (mkStr bsz n (To bb))). rewrite E.
    cbn [mbind option_bind]. rewrite (app_assoc p). fold q. rewrite store_all_mid by (auto; unfold blen in *; lia). reflexivity.
  - assert (n = 0) as -> by lia. cbn [andb]. cbn [mbind option_bind].
    assert (bs = []) as -> by (destruct bs; [reflexivity | unfold blen in Hbs; simpl in Hbs; lia]).
    assert (o3 = []) as -> by (destruct o3; [reflexivity | unfold blen in Ho3; simpl in Ho3; lia]).
    rewrite (app_assoc p). fold q. cbn [app]. now rewrite Z.add_0_r.
Qed.

Lemma obstr_decode p s b data_len pos x cur :
  obstr_valid x -> buffer_size_ cur = 0 -> 0 <= b -> 0 <= pos -> blen p = b + pos ->
  pos + blen (obstr_image x) <= data_len ->
  obstr_deserialize (p ++ obstr_image x ++ s) (Some b) data_len pos cur
  = Some (OB_SUCCESS, pos + blen (obstr_image x), obstr_norm x).
Proof.
  intros Hx Hc Hb Hpos Hp Hd. pose proof (blen_obstr_image x Hx) as Ei. rewrite Ei in *.
  destruct (obstr_bytes_valid x Hx) as (bs & E & Hbs & _). destruct x as [bsz n ptr]. cbn [data_length_] in *.
  destruct Hx as [Hn _]. cbn in Hn. pose proof (encoded_length_vi64_range n). unfold encoded_length_vstr in *.
  unfold obstr_deserialize, obstr_image, obstr_norm. rewrite E, Hc. cbn [data_length_ default from_option id].
  rewrite not_null_some, (proj2 (Z.ltb_ge _ _)) by lia. cbn [negb orb]. change (0 =? 0) with true. cbn iota.
  unfold decode_vstr. rewrite not_null_some, !(proj2 (Z.ltb_ge _ 0)) by lia. cbn [negb orb].
  rewrite <- (app_assoc (vi64_image n)). rewrite decode_vi64_image by lia. step_ok. rewrite (proj2 (Z.leb_le 0 n)), (proj2 (Z.leb_le n _)) by lia.
  unfold ptr_add. cbn [mbind option_bind]. replace (Z.to_nat n) with (length bs) by (unfold blen in Hbs; lia).
  rewrite app_assoc, <- (app_assoc bs). rewrite load_all_mid by (autorewrite with blen; lia). cbn [mbind option_bind].
  unfold to_int32. rewrite swrap_small by lia. do 3 f_equal. lia.
Qed.

#[global, refine] Instance str_laws : SerialLaws ObStr := {|
  valid := obstr_valid; image := obstr_image; target s := buffer_size_ s = 0; norm := obstr_norm;
  image_pos x := _; serial_laws := _ |}.
Proof.
  - unfold obstr_image. autorewrite with blen. pose proof (encoded_length_vi64_range (data_length_ x)).
    pose proof (blen_nonneg (default [] (obstr_bytes x))). lia.
  - split.
    + intros x Hx. now rewrite blen_obstr_image.
    + intros. now apply obstr_fits.
    + intros m b buf_len pos x Hx _ _ _ _ Hl. rewrite blen_obstr_image in Hl by exact Hx.
      unfold encode, serial_str, obstr_serialize, obstr_get_serialize_size. rewrite (proj2 (Z.ltb_lt _ _)) by lia.
      rewrite orb_true_r. eexists _, _, _. split; [reflexivity |]. split; [easy | auto with serial].
    + intros p s b data_len pos x cur Hx Ht Hb Hpos Hp [Hd _]. now apply obstr_decode.
Defined.

(** *** Members and frames *)
#[global, refine] Instance nil_laws : MembersLaws unit := {|
  mvalid _ := True; mimage _ := []; mtarget _ := True; mnorm x := x; members_laws := _ |}.
Proof.
  - reflexivity.
  - split.
    + reflexivity.
    + intros p [|] s b buf_len pos x _ _ _ _ Ho _; [| unfold blen in Ho; simpl in Ho; lia]. cbn. now rewrite Z.add_0_r.
    + intros m b buf_len pos x _ Hl. discriminate.
    + intros p s b data_len pos x cur _ _ _ _ _ _. cbn. rewrite Z.add_0_r. now destruct x.
Defined.

(** *** One more member *)
Section Snoc.
Context `{MembersLaws A, SerialLaws B}.
Implicit Types (x : A) (y : B).

Lemma snoc_fits p old s b buf_len pos x y :
  mvalid x -> valid y -> 0 <= b -> 0 <= pos -> blen p = b + pos ->
  blen old = blen (mimage x ++ image y) -> pos + blen (mimage x ++ image y) <= buf_len ->
  serialize_ (p ++ old ++ s) (Some b) buf_len pos (x, y)
  = Some (OB_SUCCESS, pos + blen (mimage x ++ image y), p ++ (mimage x ++ image y) ++ s).
Proof.
  intros Hx Hy Hb Hpos Hp Ho Hl. pose proof members_laws as LA. pose proof serial_laws as LB. rewrite blen_app in *.
  pose proof (blen_nonneg (mimage x)). pose proof (blen_nonneg (image y)).
  destruct (split_blen old (blen (mimage x)) (blen (image y))) as (o1 & o2 & -> & Ho1 & Ho2); [lia.. |].
  cbn [serialize_ members_snoc fst snd]. rewrite <- !app_assoc.
  rewrite (law_fits _ _ _ _ _ _ _ LA) by (assumption || lia). step_ok. unfold unis_encode. rewrite (app_assoc p).
  rewrite (law_fits _ _ _ _ _ _ _ LB) by (assumption || autorewrite with blen; lia). rewrite <- !app_assoc. do 3 f_equal. lia.
Qed.

(** The members before may be none, leave too little room, or fill the buffer. *)
Lemma snoc_full m b buf_len pos x y :
  mvalid x -> valid y -> 0 <= b -> 0 <= pos -> b + buf_len <= blen m ->
  buf_len < pos + blen (mimage x ++ image y) ->
  exists ret pos' m', serialize_ m (Some b) buf_len pos (x, y) = Some (ret, pos', m') /\
    ret <> OB_SUCCESS /\ same_outside m m' (b + pos) (b + buf_len).
Proof.
  intros Hx Hy Hb Hpos Hm Hl. pose proof members_laws as LA. pose proof serial_laws as LB. rewrite blen_app in *.
  pose proof (blen_nonneg (mimage x)). pose proof (image_pos y). cbn [serialize_ members_snoc fst snd].
  destruct (Z.eq_dec (blen (mimage x)) 0) as [E0 | Hne];
    [| destruct (Z.le_gt_cases (pos + blen (mimage x)) buf_len) as [Hfit | Hno]].
  - rewrite members_empty by exact E0. step_ok.
    apply (law_full _ _ _ _ _ _ _ LB); assumption || lia.
  - destruct (split_mem m (b + pos) (blen (mimage x))) as (p & old & s & -> & Hp & Ho); [lia.. |].
    rewrite (law_fits _ _ _ _ _ _ _ LA) by (assumption || lia). step_ok. unfold unis_encode.
    destruct (law_full _ _ _ _ _ _ _ LB (p ++ mimage x ++ s) b buf_len (pos + blen (mimage x)) y)
      as (ret & pos' & m' & -> & Hret & Hs); try (assumption || lia); [autorewrite with blen in *; lia |].
    eexists _, _, _. split; [reflexivity |]. split; [exact Hret |].
    apply same_outside_step with (new := mimage x); [lia.. |]. now rewrite <- Z.add_assoc.
  - destruct (law_full _ _ _ _ _ _ _ LA m b buf_len pos x) as (ret & pos' & m' & -> & Hret & Hs); try (assumption || lia).
    cbn [mbind option_bind]. unfold OB_SUCC. rewrite (proj2 (Z.eqb_neq _ _)) by exact Hret. eauto 10.
Qed.

Lemma snoc_decode p s b data_len pos x y cx cy :
  mvalid x -> valid y -> mtarget cx -> target cy -> 0 <= b -> 0 <= pos -> blen p = b + pos ->
  pos + blen (mimage x ++ image y) <= data_len < 2 ^ 63 ->
  deserialize_ (p ++ (mimage x ++ image y) ++ s) (Some b) data_len pos (cx, cy)
  = Some (OB_SUCCESS, pos + blen (mimage x ++ image y), (mnorm x, norm y)).
Proof.
  intros Hx Hy Htx Hty Hb Hpos Hp Hd. pose proof members_laws as LA. pose proof serial_laws as LB. rewrite blen_app in *.
  pose proof (blen_nonneg (mimage x)). pose proof (image_pos y). cbn [deserialize_ members_snoc fst snd]. rewrite <- app_assoc.
  rewrite (law_decode _ _ _ _ _ _ _ LA) by (assumption || lia). step_ok. unfold unis_decode. rewrite (proj2 (Z.ltb_lt _ _)) by lia.
  rewrite (app_assoc p), (law_decode _ _ _ _ _ _ _ LB) by (assumption || autorewrite with blen; lia).
  cbn [mbind option_bind]. do 3 f_equal. lia.
Qed.

#[global, refine] Instance snoc_laws : MembersLaws (A * B) := {|
  mvalid z := mvalid z.1 /\ valid z.2; mimage z := mimage z.1 ++ image z.2;
  mtarget z := mtarget z.1 /\ target z.2; mnorm z := (mnorm z.1, norm z.2); members_laws := _ |}.
Proof.
  - intros m buf buf_len pos [x y] E. exfalso. cbn in E. rewrite blen_app in E.
    pose proof (image_pos y). pose proof (blen_nonneg (mimage x)). lia.
  - split.
    + intros [x y] [Hx Hy]. cbn in *.
      now rewrite blen_app, (law_length _ _ _ _ _ _ _ members_laws x Hx), (law_length _ _ _ _ _ _ _ serial_laws y Hy).
    + intros p old s b buf_len pos [x y] [Hx Hy]. now apply snoc_fits.
    + intros m b buf_len pos [x y] [Hx Hy] _. now apply snoc_full.
    + intros p s b data_len pos [x y] [cx cy] [Hx Hy] [Htx Hty]. now apply snoc_decode.
Defined.
End Snoc.

(** *** The frame of version and length *)
Section Frame.
Context `{MembersLaws A} (ver : Z) (Hver : - 2 ^ 63 <= ver < 2 ^ 63).
Implicit Type x : A.

(** The length must fit its five bytes, and an object has some member. *)
Definition unis_valid x : Prop := mvalid x /\ 0 < blen (mimage x) < 2 ^ 35.
Definition unis_image x : bytes := vi64_image ver ++ vbytes 5 (blen (mimage x)) ++ mimage x.

Lemma blen_unis_image x : blen (unis_image x) = encoded_length_vi64 ver + (5 + blen (mimage x)).
Proof. unfold unis_image. now autorewrite with blen. Qed.

Lemma unis_fits p old s b buf_len pos x :
  unis_valid x -> 0 <= b -> 0 <= pos -> blen p = b + pos -> blen old = blen (unis_image x) ->
  pos + blen (unis_image x) <= buf_len ->
  unis_serialize ver (p ++ old ++ s) (Some b) buf_len pos x
  = Some (OB_SUCCESS, pos + blen (unis_image x), p ++ unis_image x ++ s).
Proof.
  intros [Hx Hlen] Hb Hpos Hp Ho Hl. rewrite blen_unis_image in *. pose proof (encoded_length_vi64_range ver).
  destruct (split_blen old (encoded_length_vi64 ver) (5 + blen (mimage x))) as (o1 & o2 & -> & Ho1 & Ho2); [lia.. |].
  destruct (split_blen o2 5 (blen (mimage x))) as (o3 & o4 & -> & Ho3 & Ho4); [lia.. |].
  unfold unis_serialize, encode, serial_int64. cbn [int64_v]. rewrite <- !app_assoc.
  rewrite encode_vi64_fits by lia. step_ok.
  change OB_SERIALIZE_SIZE_NEED_BYTES with 5. rewrite (app_assoc p), (app_assoc (p ++ vi64_image ver)).
  rewrite (law_fits _ _ _ _ _ _ _ members_laws) by (assumption || autorewrite with blen; lia). step_ok. rewrite <- (app_assoc (p ++ vi64_image ver)).
  unfold encode_fixed_bytes_i64, ptr_add. cbn [mbind option_bind]. rewrite not_null_some.
  change OB_SERIALIZE_SIZE_NEED_BYTES with 5. change (5 <=? 5 - 0) with true. cbn [andb].
  step_ok. rewrite Z.mod_small by lia.
  change (Z.to_nat 5) with 5%nat. rewrite (put_fixed_spec 5) by (autorewrite with blen || unfold blen in *; lia).
  cbn [mbind option_bind]. unfold unis_image. rewrite <- !app_assoc. do 3 f_equal; [lia |].
  do 3 f_equal. lia.
Qed.

Lemma unis_full m b buf_len pos x :
  unis_valid x -> 0 <= b -> 0 <= pos -> b + buf_len <= blen m -> buf_len < pos + blen (unis_image x) ->
  exists ret pos' m', unis_serialize ver m (Some b) buf_len pos x = Some (ret, pos', m') /\
    ret <> OB_SUCCESS /\ same_outside m m' (b + pos) (b + buf_len).
Proof.
  intros [Hx Hlen] Hb Hpos Hm Hl. rewrite blen_unis_image in *. pose proof (encoded_length_vi64_range ver).
  unfold unis_serialize, encode, serial_int64. cbn [int64_v].
  destruct (Z.le_gt_cases (pos + encoded_length_vi64 ver) buf_len) as [Hfit | Hno].
  - destruct (split_mem m (b + pos) (encoded_length_vi64 ver)) as (p & old & s & -> & Hp & Ho); [lia.. |].
    rewrite encode_vi64_fits by lia. step_ok.
    change OB_SERIALIZE_SIZE_NEED_BYTES with 5.
    destruct (law_full _ _ _ _ _ _ _ members_laws (p ++ vi64_image ver ++ s) b buf_len (pos + encoded_length_vi64 ver + 5) x)
      as (ret & pos' & m' & -> & Hret & Hs); try (assumption || lia); [autorewrite with blen in *; lia |].
    cbn [mbind option_bind]. unfold OB_SUCC. rewrite (proj2 (Z.eqb_neq _ _)) by exact Hret.
    eexists _, _, _. split; [reflexivity |]. split; [exact Hret |].
    apply same_outside_step with (new := vi64_image ver); rewrite ?blen_vi64; [lia.. |].
    eapply same_outside_weaken; [| | exact Hs]; lia.
  - rewrite encode_vi64_full by lia. cbn. eexists _, _, _. split; [reflexivity |]. split; [easy | auto with serial].
Qed.

Lemma unis_decodes p s b data_len pos x cur :
  unis_valid x -> mtarget cur -> 0 <= b -> 0 <= pos -> blen p = b + pos ->
  pos + blen (unis_image x) <= data_len < 2 ^ 63 ->
  unis_deserialize ver (p ++ unis_image x ++ s) (Some b) data_len pos cur
  = Some (OB_SUCCESS, pos + blen (unis_image x), mnorm x).
Proof.
  intros [Hx Hlen] Ht Hb Hpos Hp Hd. rewrite blen_unis_image in *. pose proof (encoded_length_vi64_range ver).
  unfold unis_deserialize, unis_decode, unis_image, decode, serial_int64, dmap. rewrite <- !app_assoc.
  rewrite (proj2 (Z.ltb_lt _ _)) by lia. rewrite decode_vi64_image by lia. step_ok. rewrite (proj2 (Z.ltb_lt _ _)) by lia.
  rewrite (app_assoc p). unfold decode_vi64. rewrite (decode_vi_spec 64 5) by (autorewrite with blen || simpl; lia).
  step_ok. cbn [int64_v].
  unfold CHECK_VERSION_LENGTH. rewrite Z.eqb_refl, swrap_small, (proj2 (Z.ltb_ge _ 0)) by lia. cbn [negb].
  unfold sadd64. rewrite (proj2 (Z.leb_le _ _)), (proj2 (Z.ltb_lt _ _)) by lia. cbn [andb mbind option_bind].
  rewrite (proj2 (Z.ltb_ge _ _)) by lia. step_ok.
  unfold ptr_add. cbn [mbind option_bind]. rewrite (app_assoc (p ++ vi64_image ver)).
  rewrite (law_decode _ _ _ _ _ _ _ members_laws) by (assumption || autorewrite with blen; lia).
  cbn [mbind option_bind]. do 3 f_equal. lia.
Qed.

Lemma unis_size x : mvalid x -> unis_get_serialize_size ver x = encoded_length_vi64 ver + (5 + blen (mimage x)).
Proof.
  intros Hx. unfold unis_get_serialize_size, encoded_length, serial_int64. cbn [int64_v].
  rewrite (law_length _ _ _ _ _ _ _ members_laws x Hx). unfold OB_SERIALIZE_SIZE_NEED_BYTES. lia.
Qed.

Lemma unis_valid_size x :
  mvalid x -> 0 < blen (mimage x) -> unis_get_serialize_size ver x < 2 ^ 35 -> unis_valid x.
Proof.
  intros Hx Hp Hs. rewrite unis_size in Hs by exact Hx. pose proof (encoded_length_vi64_range ver).
  split; [exact Hx | lia].
Qed.

Lemma unis_laws :
  CodecLaws (unis_serialize ver) (unis_deserialize ver) (unis_get_serialize_size ver)
    unis_valid unis_image mtarget mnorm.
Proof.
  split.
  - intros x [Hx _]. now rewrite blen_unis_image, unis_size.
  - intros. now apply unis_fits.
  - intros. now apply unis_full.
  - intros. now apply unis_decodes.
Qed.
End Frame.

(** *** Arrays *)

(** The items of an array are decoded into default-constructed ones. *)
Class DefaultTarget (A : Type) `{SerialLaws A, !ObSEArray.SEParams A} :=
  default_target : target ObSEArray.default_T.

Section Items.
Context `{SerialLaws A}.
Implicit Types (x : A) (xs : list A).

Definition items_image xs : bytes := concat (image <$> xs).
Lemma items_image_cons x xs : items_image (x :: xs) = image x ++ items_image xs.
Proof. reflexivity. Qed.

Lemma items_fits xs : forall p old s b buf_len pos,
  Forall valid xs -> 0 <= b -> 0 <= pos -> blen p = b + pos -> blen old = blen (items_image xs) ->
  pos + blen (items_image xs) <= buf_len ->
  encode_items xs (p ++ old ++ s) (Some b) buf_len pos
  = Some (OB_SUCCESS, pos + blen (items_image xs), p ++ items_image xs ++ s).
Proof.
  induction xs as [| x xs IH]; intros p old s b buf_len pos Hv Hb Hpos Hp Ho Hl.
  - destruct old; [| unfold blen in Ho; simpl in Ho; lia]. cbn. now rewrite Z.add_0_r.
  - inversion Hv as [| ? ? Hx Hxs]; subst. rewrite items_image_cons, blen_app in *.
    pose proof (blen_nonneg (image x)). pose proof (blen_nonneg (items_image xs)).
    destruct (split_blen old (blen (image x)) (blen (items_image xs))) as (o1 & o2 & -> & Ho1 & Ho2); [lia.. |].
    cbn [encode_items]. rewrite <- !app_assoc.
    rewrite (law_fits _ _ _ _ _ _ _ serial_laws) by (assumption || lia). step_ok. rewrite (app_assoc p).
    rewrite IH by (assumption || autorewrite with blen; lia). rewrite <- !app_assoc. do 3 f_equal. lia.
Qed.

Lemma items_full xs : forall m b buf_len pos,
  Forall valid xs -> xs <> [] -> 0 <= b -> 0 <= pos -> b + buf_len <= blen m ->
  buf_len < pos + blen (items_image xs) ->
  exists ret pos' m', encode_items xs m (Some b) buf_len pos = Some (ret, pos', m') /\
    ret <> OB_SUCCESS /\ same_outside m m' (b + pos) (b + buf_len).
Proof.
  induction xs as [| x xs IH]; intros m b buf_len pos Hv Hne Hb Hpos Hm Hl; [easy |].
  inversion Hv as [| ? ? Hx Hxs]; subst. rewrite items_image_cons, blen_app in *.
  pose proof (image_pos x). cbn [encode_items].
  destruct (Z.le_gt_cases (pos + blen (image x)) buf_len) as [Hfit | Hno].
  - destruct (split_mem m (b + pos) (blen (image x))) as (p & old & s & -> & Hp & Ho); [lia.. |].
    rewrite (law_fits _ _ _ _ _ _ _ serial_laws) by (assumption || lia). step_ok.
    destruct (IH (p ++ image x ++ s) b buf_len (pos + blen (image x))) as (ret & pos' & m' & -> & Hret & Hs);
      [exact Hxs | | lia | lia | autorewrite with blen in *; lia | lia |].
    { intros ->. unfold items_image in Hl. simpl in Hl. change (blen []) with 0 in Hl. lia. }
    eexists _, _, _. split; [reflexivity |]. split; [exact Hret |].
    apply same_outside_step with (new := image x); [lia.. |]. now rewrite <- Z.add_assoc.
  - destruct (law_full _ _ _ _ _ _ _ serial_laws m b buf_len pos x) as (ret & pos' & m' & -> & Hret & Hs); try (assumption || lia).
    cbn [mbind option_bind]. unfold OB_SUCC. rewrite (proj2 (Z.eqb_neq _ _)) by exact Hret. eauto 10.
Qed.

Lemma items_decode d xs : forall p s b data_len pos,
  target d -> Forall valid xs -> 0 <= b -> 0 <= pos -> blen p = b + pos ->
  pos + blen (items_image xs) <= data_len < 2 ^ 63 ->
  decode_items (replicate (length xs) d) (p ++ items_image xs ++ s) (Some b) data_len pos
  = Some (OB_SUCCESS, pos + blen (items_image xs), norm <$> xs).
Proof.
  induction xs as [| x xs IH]; intros p s b data_len pos Hd Hv Hb Hpos Hp Hl.
  - cbn. now rewrite Z.add_0_r.
  - inversion Hv as [| ? ? Hx Hxs]; subst. rewrite items_image_cons, blen_app in *.
    pose proof (blen_nonneg (image x)). pose proof (blen_nonneg (items_image xs)).
    cbn [decode_items length replicate]. rewrite <- app_assoc.
    rewrite (law_decode _ _ _ _ _ _ _ serial_laws) by (assumption || lia). step_ok. rewrite (app_assoc p).
    rewrite IH by (assumption || autorewrite with blen; lia). cbn [mbind option_bind]. do 3 f_equal. lia.
Qed.
End Items.

Section Array.
Context `{Allocator, ObSEArray.SELaws A, !Serial A, !SerialLaws A, !DefaultTarget A}.
Implicit Type a : ObSEArray.t A.

(** Every item is valid, and the memory for them can be had. *)
Definition se_valid a : Prop :=
  Forall valid (ObSEArray.items_ a) /\ ObSEArray.count a < 2 ^ 41 /\
  (ObSEArray.LOCAL_ARRAY_SIZE < ObSEArray.count a -> alloc_ok (ObSEArray.block_bytes (ObSEArray.count a)) = true).
Definition se_image a : bytes := vi64_image (ObSEArray.count a) ++ items_image (ObSEArray.items_ a).
Definition se_norm a : ObSEArray.t A :=
  ObSEArray.mk (norm <$> ObSEArray.items_ a)
    (ObSEArray.capacity_ (snd (ObSEArray.reserve ObSEArray.empty (ObSEArray.count a)))) OB_SUCCESS.

Lemma blen_se_image a : blen (se_image a) = encoded_length_vi64 (ObSEArray.count a) + blen (items_image (ObSEArray.items_ a)).
Proof. unfold se_image. now autorewrite with blen. Qed.

Lemma prepare_fresh a : se_valid a ->
  exists c, ObSEArray.prepare_allocate ObSEArray.empty (ObSEArray.count a)
  = Some (OB_SUCCESS, ObSEArray.mk (replicate (length (ObSEArray.items_ a)) ObSEArray.default_T) c OB_SUCCESS)
  /\ c = ObSEArray.capacity_ (snd (ObSEArray.reserve ObSEArray.empty (ObSEArray.count a))).
Proof.
  intros (_ & Hc & Hal). set (n := ObSEArray.count a) in *.
  assert (0 <= n) by (unfold n, ObSEArray.count; lia).
  pose proof (ObSEArray.reserve_spec ObSEArray.empty n ObSEArray.se_wf_empty ltac:(lia)) as Hr.
  unfold ObSEArray.prepare_allocate. 
  assert ((if ObSEArray.capacity_ ObSEArray.empty <? n then ObSEArray.reserve ObSEArray.empty n else (OB_SUCCESS, ObSEArray.empty))
    = ObSEArray.reserve ObSEArray.empty n) as -> by (unfold ObSEArray.reserve; now destruct (_ <? n)).
  destruct (ObSEArray.reserve ObSEArray.empty n) as [ret a'] eqn:Er. destruct Hr as (Hw & Hi & He & Hcase).
  assert (ret = OB_SUCCESS /\ n <= ObSEArray.capacity_ a') as [-> Hge].
  { destruct Hcase as [[-> ?] | (-> & -> & Hlt & _)]; [split; [reflexivity | lia] |]. exfalso. unfold ObSEArray.reserve in Er.
    rewrite (proj2 (Z.ltb_lt _ _)), Hal in Er by exact Hlt. discriminate. }
  destruct a' as [items cap err]. cbn in Hi, He, Hge |- *. subst items err.
  change (ObSEArray.count (ObSEArray.mk [] cap OB_SUCCESS)) with 0. rewrite Z.sub_0_r.
  replace (Z.to_nat n) with (length (ObSEArray.items_ a)) by (unfold n, ObSEArray.count; lia).
  destruct (Z.ltb_spec 0 n).
  - rewrite (proj2 (Z.leb_le _ _)) by lia. cbn. eauto.
  - replace (length (ObSEArray.items_ a)) with 0%nat by (unfold n, ObSEArray.count in *; lia). cbn. eauto.
Qed.

Lemma se_length a : se_valid a -> se_get_serialize_size a = blen (se_image a).
Proof.
  intros (Hv & _ & _). rewrite blen_se_image. unfold se_get_serialize_size. f_equal.
  induction Hv as [| x xs Hx Hxs IH]; [reflexivity |]. rewrite items_image_cons, blen_app, fmap_cons. cbn [fold_right].
  now rewrite IH, (law_length _ _ _ _ _ _ _ serial_laws x Hx).
Qed.

Lemma se_fits p old s b buf_len pos a :
  se_valid a -> 0 <= b -> 0 <= pos -> blen p = b + pos -> blen old = blen (se_image a) ->
  pos + blen (se_image a) <= buf_len ->
  se_serialize (p ++ old ++ s) (Some b) buf_len pos a
  = Some (OB_SUCCESS, pos + blen (se_image a), p ++ se_image a ++ s).
Proof.
  intros (Hv & _ & _) Hb Hpos Hp Ho Hl. rewrite blen_se_image in *.
  pose proof (encoded_length_vi64_range (ObSEArray.count a)). pose proof (blen_nonneg (items_image (ObSEArray.items_ a))).
  destruct (split_blen old (encoded_length_vi64 (ObSEArray.count a)) (blen (items_image (ObSEArray.items_ a))))
    as (o1 & o2 & -> & Ho1 & Ho2); [lia.. |].
  unfold se_serialize. rewrite <- !app_assoc, encode_vi64_fits by lia. step_ok.
  rewrite (app_assoc p), items_fits by (assumption || autorewrite with blen; lia).
  unfold se_image. rewrite <- !app_assoc. do 3 f_equal. lia.
Qed.

Lemma se_full m b buf_len pos a :
  se_valid a -> 0 <= b -> 0 <= pos -> b + buf_len <= blen m -> buf_len < pos + blen (se_image a) ->
  exists ret pos' m', se_serialize m (Some b) buf_len pos a = Some (ret, pos', m') /\
    ret <> OB_SUCCESS /\ same_outside m m' (b + pos) (b + buf_len).
Proof.
  intros (Hv & _ & _) Hb Hpos Hm Hl. rewrite blen_se_image in *.
  pose proof (encoded_length_vi64_range (ObSEArray.count a)). unfold se_serialize.
  destruct (Z.le_gt_cases (pos + encoded_length_vi64 (ObSEArray.count a)) buf_len) as [Hfit | Hno].
  - destruct (split_mem m (b + pos) (encoded_length_vi64 (ObSEArray.count a))) as (p & old & s & -> & Hp & Ho); [lia.. |].
    rewrite encode_vi64_fits by lia. step_ok.
    destruct (items_full (ObSEArray.items_ a) (p ++ vi64_image (ObSEArray.count a) ++ s) b buf_len
      (pos + encoded_length_vi64 (ObSEArray.count a))) as (ret & pos' & m' & -> & Hret & Hs);
      [exact Hv | | lia | lia | autorewrite with blen in *; lia | lia |].
    { intros E. rewrite E in Hl. change (blen (items_image [])) with 0 in Hl. lia. }
    eexists _, _, _. split; [reflexivity |]. split; [exact Hret |].
    apply same_outside_step with (new := vi64_image (ObSEArray.count a)); rewrite ?blen_vi64; [lia.. |].
    now rewrite <- Z.add_assoc.
  - rewrite encode_vi64_full by lia. cbn. eexists _, _, _. split; [reflexivity |]. split; [easy | auto with serial].
Qed.

Lemma se_decodes p s b data_len pos a cur :
  se_valid a -> 0 <= b -> 0 <= pos -> blen p = b + pos ->
  pos + blen (se_image a) <= data_len < 2 ^ 63 ->
  se_deserialize (p ++ se_image a ++ s) (Some b) data_len pos cur
  = Some (OB_SUCCESS, pos + blen (se_image a), se_norm a).
Proof.
  intros Hv Hb Hpos Hp Hd. rewrite blen_se_image in *.
  pose proof (encoded_length_vi64_range (ObSEArray.count a)). pose proof (blen_nonneg (items_image (ObSEArray.items_ a))).
  assert (0 <= ObSEArray.count a < 2 ^ 41) by (destruct Hv as (_ & ? & _); unfold ObSEArray.count in *; lia).
  unfold se_deserialize, se_image, ObSEArray.reset. rewrite <- app_assoc, decode_vi64_image by lia. step_ok.
  destruct (prepare_fresh a Hv) as (c & -> & ->). step_ok.
  cbn [ObSEArray.items_ ObSEArray.capacity_ ObSEArray.error_]. rewrite (app_assoc p).
  rewrite items_decode by (apply Hv || apply default_target || autorewrite with blen; lia).
  cbn [mbind option_bind]. unfold se_norm. do 3 f_equal. lia.
Qed.

#[global, refine] Instance se_laws : SerialLaws (ObSEArray.t A) := {|
  valid := se_valid; image := se_image; target _ := True; norm := se_norm; image_pos a := _; serial_laws := _ |}.
Proof.
  - rewrite blen_se_image. pose proof (encoded_length_vi64_range (ObSEArray.count a)).
    pose proof (blen_nonneg (items_image (ObSEArray.items_ a))). lia.
  - split; intros; [now apply se_length | now apply se_fits | now apply se_full | now apply se_decodes].
Defined.
End Array.
