(* ===== verification/UdfObject.v ===== *)
(** The objects that carry a Python function through the server:
    [ObPythonUDF] and [ObPythonUDFMeta] ([src/share/schema/ob_python_udf.h],
    [.cpp]), and the resolver that fills the first from a [CREATE PYTHON_UDF]
    statement ([src/sql/resolver/ddl/ob_create_python_udf_resolver.cpp]).

    The strings of [ObPythonUDF] are copies it owns, each followed by a NUL, so
    they are their bytes here; those of [ObPythonUDFMeta] may point anywhere,
    so they are [ObStr]. *)
From S2P Require Import Prelude FixedArray SEArray HashArray SortedVector UdfSchema.
From S2P Require Import Serialization.
From Stdlib Require String Ascii.
Import ObString.

(** The bytes of a literal. *)
Definition chars (s : string) : bytes := map (fun a => Z.of_nat (Ascii.nat_of_ascii a)) (String.list_ascii_of_string s).
Definition COMMA : Z := 44.

(** [strstr] and [std::string::find]: the first position of [pat]. *)
Fixpoint starts_with (pat s : bytes) : bool :=
  match pat, s with
  | [], _ => true
  | x :: pat', y :: s' => (x =? y) && starts_with pat' s'
  | _ :: _, [] => false
  end.
Fixpoint find_from (pat s : bytes) (i : nat) : option nat :=
  if starts_with pat s then Some i
  else match s with [] => None | _ :: s' => find_from pat s' (S i) end.
Definition find (pat s : bytes) : option nat := find_from pat s 0.

(** [while (std::getline(ss, token, ','))]: the tokens; an empty one at the end
    of the stream is none. *)
Fixpoint getlines (s acc : bytes) : list bytes :=
  match s with
  | [] => match acc with [] => [] | _ => [reverse acc] end
  | c :: s' => if c =? COMMA then reverse acc :: getlines s' [] else getlines s' (c :: acc)
  end.

#[global] Instance ret_enum : CEnum PyUdfRetType := {
  enum_to r := match r with UDF_UNINITIAL => 0 | STRING => 1 | INTEGER => 2 | REAL => 3 | DECIMAL => 4 end;
  enum_of z := if z =? 0 then Some UDF_UNINITIAL else if z =? 1 then Some STRING
               else if z =? 2 then Some INTEGER else if z =? 3 then Some REAL
               else if z =? 4 then Some DECIMAL else None
}.

(** [ObSEArray<ObString, 16>] and [ObSEArray<PyUdfRetType, 16>]. *)
#[global] Instance str_params : ObSEArray.SEParams ObStr :=
  { sizeof_T := 16; LOCAL_ARRAY_SIZE := 16; default_T := obstr_reset }.
#[global] Instance ret_params : ObSEArray.SEParams PyUdfRetType :=
  { sizeof_T := 4; LOCAL_ARRAY_SIZE := 16; default_T := UDF_UNINITIAL }.

(** ** [ObPythonUDF] *)
Module ObPythonUDF.
Record t := mk {
  error_ret_ : Z; tenant_id_ : Z; udf_id_ : Z; name_ : bytes; model_name_ : bytes; arg_num_ : Z;
  arg_names_ : bytes; arg_types_ : bytes; ret_ : PyUdfRetType; pycall_ : bytes; schema_version_ : Z
}.

Section Ops.
Context `{Allocator}.

(** [reset]: [udf_id_], [model_name_], [arg_num_] and [schema_version_] keep
    their values. *)
Definition reset (u : t) : t :=
  mk OB_SUCCESS OB_INVALID_ID (udf_id_ u) [] (model_name_ u) (arg_num_ u) [] [] UDF_UNINITIAL [] (schema_version_ u).
(** The constructor. *)
Definition new : t := reset (mk OB_SUCCESS OB_INVALID_ID OB_INVALID_ID [] [] 0 [] [] UDF_UNINITIAL [] (-1)).

Definition deep_copy_str := ObSimplePythonUdfSchema.deep_copy_str.
Definition set_name (u : t) (s : bytes) : Z * t :=
  let '(ret, v) := deep_copy_str (error_ret_ u) s (name_ u) in
  (ret, mk (error_ret_ u) (tenant_id_ u) (udf_id_ u) v (model_name_ u) (arg_num_ u) (arg_names_ u) (arg_types_ u) (ret_ u) (pycall_ u) (schema_version_ u)).
Definition set_model_name (u : t) (s : bytes) : Z * t :=
  let '(ret, v) := deep_copy_str (error_ret_ u) s (model_name_ u) in
  (ret, mk (error_ret_ u) (tenant_id_ u) (udf_id_ u) (name_ u) v (arg_num_ u) (arg_names_ u) (arg_types_ u) (ret_ u) (pycall_ u) (schema_version_ u)).
Definition set_arg_names (u : t) (s : bytes) : Z * t :=
  let '(ret, v) := deep_copy_str (error_ret_ u) s (arg_names_ u) in
  (ret, mk (error_ret_ u) (tenant_id_ u) (udf_id_ u) (name_ u) (model_name_ u) (arg_num_ u) v (arg_types_ u) (ret_ u) (pycall_ u) (schema_version_ u)).
Definition set_arg_types (u : t) (s : bytes) : Z * t :=
  let '(ret, v) := deep_copy_str (error_ret_ u) s (arg_types_ u) in
  (ret, mk (error_ret_ u) (tenant_id_ u) (udf_id_ u) (name_ u) (model_name_ u) (arg_num_ u) (arg_names_ u) v (ret_ u) (pycall_ u) (schema_version_ u)).
Definition set_pycall (u : t) (s : bytes) : Z * t :=
  let '(ret, v) := deep_copy_str (error_ret_ u) s (pycall_ u) in
  (ret, mk (error_ret_ u) (tenant_id_ u) (udf_id_ u) (name_ u) (model_name_ u) (arg_num_ u) (arg_names_ u) (arg_types_ u) (ret_ u) v (schema_version_ u)).
Definition set_arg_num (u : t) (n : Z) : t :=
  mk (error_ret_ u) (tenant_id_ u) (udf_id_ u) (name_ u) (model_name_ u) n (arg_names_ u) (arg_types_ u) (ret_ u) (pycall_ u) (schema_version_ u).
Definition set_ret (u : t) (r : PyUdfRetType) : t :=
  mk (error_ret_ u) (tenant_id_ u) (udf_id_ u) (name_ u) (model_name_ u) (arg_num_ u) (arg_names_ u) (arg_types_ u) r (pycall_ u) (schema_version_ u).
Definition set_tenant_id (u : t) (id : Z) : t :=
  mk (error_ret_ u) id (udf_id_ u) (name_ u) (model_name_ u) (arg_num_ u) (arg_names_ u) (arg_types_ u) (ret_ u) (pycall_ u) (schema_version_ u).

(** [operator=] from another object: [model_name_] is not copied. *)
Definition op_assign (this other : t) : t :=
  let this := reset this in
  let e := error_ret_ other in
  let '(ret, name) := deep_copy_str e (name_ other) (name_ this) in
  let '(ret, arg_names) :=
    if OB_SUCC ret then deep_copy_str e (arg_names_ other) (arg_names_ this) else (ret, arg_names_ this) in
  let '(ret, arg_types) :=
    if OB_SUCC ret then deep_copy_str e (arg_types_ other) (arg_types_ this) else (ret, arg_types_ this) in
  let '(ret, pycall) :=
    if OB_SUCC ret then deep_copy_str e (pycall_ other) (pycall_ this) else (ret, pycall_ this) in
  mk (if OB_FAIL ret then ret else e) (tenant_id_ other) (udf_id_ other) name (model_name_ this) (arg_num_ other)
     arg_names arg_types (ret_ other) pycall (schema_version_ other).

(** [push_back] of each token in turn, its code ignored. *)
Fixpoint push_all `{ObSEArray.SEParams A} (a : ObSEArray.t A) (xs : list A) : option (ObSEArray.t A) :=
  match xs with
  | [] => Some a
  | x :: xs' => '(_, a) ← ObSEArray.push_back a x; push_all a xs'
  end.

(** [get_arg_names_arr]: every element points to the buffer of the local
    [token], which is gone when the function returns. *)
Definition get_arg_names_arr (u : t) (arr : ObSEArray.t ObStr) : option (Z * ObSEArray.t ObStr) :=
  let toks := getlines (c_str (arg_names_ u)) [] in
  arr ← push_all (ObSEArray.reuse arr) (map (fun k => mkStr 0 (to_int32 (length k)) Dangling) toks);
  Some (if negb (ObSEArray.count arr =? arg_num_ u) then OB_ERR_UNEXPECTED else OB_SUCCESS, arr).

(** A token that names no type is skipped. *)
Definition type_of_token (k : bytes) : option PyUdfRetType :=
  if bool_decide (k = chars "STRING") then Some STRING
  else if bool_decide (k = chars "INTEGER") then Some INTEGER
  else if bool_decide (k = chars "REAL") then Some REAL
  else if bool_decide (k = chars "DECIMAL") then Some DECIMAL else None.
Definition get_arg_types_arr (u : t) (arr : ObSEArray.t PyUdfRetType) : option (Z * ObSEArray.t PyUdfRetType) :=
  let toks := getlines (c_str (arg_types_ u)) [] in
  arr ← push_all (ObSEArray.reuse arr) (omap type_of_token toks);
  Some (if negb (ObSEArray.count arr =? arg_num_ u) then OB_ERR_UNEXPECTED else OB_SUCCESS, arr).

Definition check_pycall (u : t) : Z :=
  let python_code := c_str (pycall_ u) in
  if bool_decide (find (chars "pyinitial") python_code = None) then OB_INVALID_ARGUMENT
  else if bool_decide (find (chars "pyfun") python_code = None) then OB_INVALID_ARGUMENT
  else OB_SUCCESS.

(** The members [OB_SERIALIZE_MEMBER] lists: neither [model_name_] nor
    [schema_version_]. *)
Definition members : Type := unit * uint64 * uint64 * ObStr * int32 * ObStr * ObStr * PyUdfRetType * ObStr.
Definition to_members (u : t) : members :=
  (tt, UInt64 (tenant_id_ u), UInt64 (udf_id_ u), obstr_of (name_ u), Int32 (arg_num_ u),
   obstr_of (arg_names_ u), obstr_of (arg_types_ u), ret_ u, obstr_of (pycall_ u)).
Definition str_v (s : ObStr) : bytes := default [] (obstr_bytes s).
Definition of_members (u : t) (x : members) : t :=
  let '(_, tenant_id, udf_id, name, arg_num, arg_names, arg_types, r, pycall) := x in
  mk (error_ret_ u) (uint64_v tenant_id) (uint64_v udf_id) (str_v name) (model_name_ u) (int32_v arg_num)
     (str_v arg_names) (str_v arg_types) r (str_v pycall) (schema_version_ u).
Definition UNIS_VERSION : Z := 1.
Definition serialize m buf buf_len pos (u : t) : encoded := unis_serialize UNIS_VERSION m buf buf_len pos (to_members u).
Definition deserialize m buf data_len pos (u : t) : decoded t :=
  dmap (of_members u) (unis_deserialize UNIS_VERSION m buf data_len pos (to_members u)).
Definition get_serialize_size (u : t) : Z := unis_get_serialize_size UNIS_VERSION (to_members u).
End Ops.
End ObPythonUDF.
