(* ===== verification/SqlText.v ===== *)
(** Building SQL text: [ObSqlString] ([deps/oblib/src/lib/string/ob_sql_string.cpp]),
    the column macros of [deps/oblib/src/lib/mysqlclient/ob_mysql_proxy.h] and
    [sql_append_hex_escape_str] ([deps/oblib/src/lib/utility/utility.cpp]).

    A formatted append takes the bytes the format produces; [dec_u] and [dec_d]
    are [%lu] and [%d], [%ld]. *)
From S2P Require Import Prelude FixedArray SEArray HashArray SortedVector UdfSchema.
From S2P Require Import Serialization UdfObject.
Import ObString.

(** ** Decimal and hexadecimal output *)
Fixpoint dec_loop (fuel : nat) (n : Z) (acc : bytes) : bytes :=
  match fuel with
  | O => acc
  | S fuel' =>
      let acc := (48 + n mod 10) :: acc in
      if n <? 10 then acc else dec_loop fuel' (n / 10) acc
  end.
Definition dec_u (n : Z) : bytes := dec_loop 20 n [].
Definition dec_d (n : Z) : bytes := if n <? 0 then 45 :: dec_u (- n) else dec_u n.

Definition hex_digit (n : Z) : Z := if n <? 10 then 48 + n else 55 + n.
(** [%02X] of the byte. *)
Definition hex_byte (c : Z) : bytes := [hex_digit (c mod 256 / 16); hex_digit (c mod 16)].

(** ** [ObSqlString] *)
Module ObSqlString.
(** [text_] is the first [len_] bytes of [data_]; [data_size_] its room. *)
Record t := mk { text_ : bytes; data_size_ : Z }.
Definition len_ (s : t) : Z := length (text_ s).
Definition is_empty (s : t) : bool := 0 =? len_ s.
Definition MAX_SQL_STRING_LEN : Z := 512.
Definition empty : t := mk [] 0.

Section Ops.
Context `{Allocator}.

Definition extend (s : t) (size : Z) : Z * t :=
  if size <? 0 then (OB_INVALID_ARGUMENT, s)
  else if alloc_ok size then (OB_SUCCESS, mk (text_ s) size)
  else (OB_ALLOCATE_MEMORY_FAILED, s).

(** The doubling loop of [reserve], at most [n] rounds. *)
Fixpoint grow (n : nat) (extend_to need_size : Z) : Z :=
  match n with
  | O => extend_to
  | S n' => if extend_to <? need_size then grow n' (to_int64 (Z.shiftl extend_to 1)) need_size else extend_to
  end.

Definition reserve (s : t) (size : Z) : Z * t :=
  let need_size := size + 1 in
  if size <? 0 then (OB_INVALID_ARGUMENT, s)
  else if data_size_ s <? need_size then
    let extend_to := grow 64 (if MAX_SQL_STRING_LEN <? data_size_ s then data_size_ s else MAX_SQL_STRING_LEN) need_size in
    if extend_to <? need_size then (OB_SIZE_OVERFLOW, s) else extend s extend_to
  else (OB_SUCCESS, s).

Definition append (s : t) (str : bytes) : Z * t :=
  let '(ret, s) := reserve s (len_ s + length str) in
  if OB_FAIL ret then (ret, s) else (ret, mk (text_ s ++ str) (data_size_ s)).

(** [append_fmt], whose format gives the bytes [out]: [vsnprintf] once, and
    again after [reserve] when there was no room. *)
Definition append_fmt (s : t) (out : bytes) : Z * t :=
  let n := length out in
  if 2 ^ 31 - 1 <? n then (OB_ERR_SYS, s)
  else if data_size_ s - len_ s <=? n then
    let '(ret, s) := reserve s (n + len_ s) in
    if OB_FAIL ret then (ret, s)
    else if data_size_ s - len_ s <=? n then (OB_ERR_UNEXPECTED, s)
    else (OB_SUCCESS, mk (text_ s ++ out) (data_size_ s))
  else (OB_SUCCESS, mk (text_ s ++ out) (data_size_ s)).

Definition assign_fmt (s : t) (out : bytes) : Z * t := append_fmt (mk [] (data_size_ s)) out.

(** [sql_append_hex_escape_str]: [X'], two digits for each byte, and a quote. *)
Fixpoint append_hex (s : t) (str : bytes) : Z * t :=
  match str with
  | [] => (OB_SUCCESS, s)
  | c :: str' =>
      let '(ret, s) := append_fmt s (hex_byte c) in
      if OB_FAIL ret then (ret, s) else append_hex s str'
  end.
Definition sql_append_hex_escape_str (s : t) (str : bytes) : Z * t :=
  let '(ret, s) := reserve s (len_ s + length str * 2 + 3) in
  if OB_FAIL ret then (ret, s)
  else
    let '(ret, s) := append s (chars "X'") in
    if OB_FAIL ret then (ret, s)
    else
      let '(ret, s) := append_hex s str in
      if OB_FAIL ret then (ret, s) else append s (chars "'").

(** ** The column macros, over the code, the statement and the values *)
Definition columns : Type := Z * t * t.
Definition sep (values : t) : bytes := if is_empty values then [] else chars ", ".

Definition SQL_APPEND_COLUMN_NAME (st : columns) (column : bytes) : columns :=
  let '(ret, sql, values) := st in
  if OB_SUCC ret then
    let '(ret, sql) := append_fmt sql (sep values ++ column) in (ret, sql, values)
  else st.

Definition SQL_COL_APPEND_VALUE (st : columns) (v column : bytes) : columns :=
  let '(ret, sql, values) := SQL_APPEND_COLUMN_NAME st column in
  if OB_SUCC ret then
    let '(ret, values) := append_fmt values (sep values ++ v) in (ret, sql, values)
  else (ret, sql, values).

(** The separator in front of the first value would be a quote. *)
Definition SQL_COL_APPEND_ESCAPE_STR_VALUE (st : columns) (v column : bytes) : columns :=
  let '(ret, sql, values) := SQL_APPEND_COLUMN_NAME st column in
  if OB_SUCC ret then
    let '(ret, values) := append values (if is_empty values then chars "'" else chars ", ") in
    if OB_FAIL ret then (ret, sql, values)
    else let '(ret, values) := sql_append_hex_escape_str values v in (ret, sql, values)
  else (ret, sql, values).
End Ops.
End ObSqlString.
