(* ===== verification/UdfError.v ===== *)
(** The report of an exception of the interpreter:
    [ObExprPythonUdf::process_python_exception]
    ([src/sql/engine/expr/ob_expr_python_udf.cpp]), which prints the message and
    the traceback into a buffer on the stack.

    What the interpreter answers is a record; [None] is a write outside the
    buffer. *)
From S2P Require Import Prelude FixedArray SEArray HashArray SortedVector UdfSchema.
From S2P Require Import Serialization UdfObject SqlText.
Import ObString.

(** A frame: the names of its function and its file, and its line. *)
Record Frame := mkFrame { co_name : bytes; co_filename : bytes; tb_lineno : Z }.
(** The fetched error: its text, when there is one, and its traceback. *)
Record PyError := mkError { value_obj : option bytes; traceback_obj : option (list Frame) }.

Definition BUF_SIZE : Z := 65536.
(** [snprintf(buf + pos, szbuf, ...)] of a text: at most [szbuf - 1] bytes and the
    terminator.  It returns the length of the text. *)
Definition snprintf (buf : list Z) (pos szbuf : Z) (text : bytes) : option (Z * list Z) :=
  let l := length text in
  if szbuf =? 0 then Some (l, buf)
  else
    let n := Z.min l (szbuf - 1) in
    if (pos <? 0) || (Z.of_nat (List.length buf) <=? pos + n) then None
    else Some (l, take (Z.to_nat pos) buf ++ take (Z.to_nat n) text ++ [0] ++ drop (Z.to_nat (pos + n + 1)) buf).
(** Where the next text goes, and the room; [szbuf] is a [size_t]. *)
Record Out := mkOut { o_buf : list Z; o_pos : Z; o_szbuf : Z }.
Definition print (o : Out) (text : bytes) : option Out :=
  '(l, b) ← snprintf (o_buf o) (o_pos o) (o_szbuf o) text; Some (mkOut b (o_pos o + l) (uwrap64 (o_szbuf o - l))).

Definition frame_text (f : Frame) : bytes :=
  co_name f ++ chars ": " ++ co_filename f ++ chars "(# " ++ dec_d (tb_lineno f) ++ chars ")" ++ [10].
Fixpoint print_frames (fs : list Frame) (o : Out) : option Out :=
  match fs with
  | [] => Some o
  | f :: fs' => if 0 <? o_szbuf o then o ← print o (frame_text f); print_frames fs' o else Some o
  end.
Definition message_text (value : bytes) : bytes := chars "Error Message:" ++ [10] ++ value.
Definition traceback_text : bytes := [10; 10] ++ chars "Traceback:" ++ [10].
(** The buffer that is reported, when there is an error. *)
Definition process_python_exception (e : PyError) (buf : list Z) : option (option (list Z)) :=
  match value_obj e with
  | None => Some None
  | Some value =>
      o ← print (mkOut buf 0 BUF_SIZE) (message_text value);
      o ← match traceback_obj e with
          | None => Some o
          | Some fs => o ← print o traceback_text; print_frames fs o
          end;
      Some (Some (o_buf o))
  end.

(** ** Texts that fit *)
(** The buffer starts with the text [done], which [o] points behind. *)
Definition wrote (done : bytes) (o : Out) : Prop :=
  Z.of_nat (List.length (o_buf o)) = BUF_SIZE /\ o_pos o = length done /\ o_szbuf o = BUF_SIZE - length done /\
  exists rest, o_buf o = done ++ 0 :: rest.
Lemma print_wrote buf pos text : Z.of_nat (List.length buf) = BUF_SIZE -> 0 <= pos -> pos + length text < BUF_SIZE ->
  exists rest, print (mkOut buf pos (BUF_SIZE - pos)) text =
    Some (mkOut (take (Z.to_nat pos) buf ++ text ++ 0 :: rest) (pos + length text) (BUF_SIZE - (pos + length text))) /\
    Z.of_nat (List.length (take (Z.to_nat pos) buf ++ text ++ 0 :: rest)) = BUF_SIZE.
Proof.
  intros Hb Hp Hl. unfold print, snprintf. cbn [o_buf o_pos o_szbuf]. unfold BUF_SIZE in *. unfold length in *.
  rewrite (proj2 (Z.eqb_neq _ _)) by lia. rewrite Z.min_l by lia. rewrite (proj2 (Z.ltb_ge _ _)) by lia. cbn [orb].
  rewrite (proj2 (Z.leb_gt _ _)) by lia. cbn [mbind option_bind]. rewrite (take_ge text) by lia. rewrite uwrap64_small by (unfold W64; lia).
  eexists. split; [do 2 f_equal; lia |]. rewrite !length_app, length_take. cbn [List.length]. rewrite length_drop. lia.
Qed.
Lemma print_more done o text : wrote done o -> length done + length text < BUF_SIZE -> exists o', print o text = Some o' /\ wrote (done ++ text) o'.
Proof.
  intros (Hb & Hp & Hs & rest & Er) Hl. destruct o as [buf pos sz]. cbn [o_buf o_pos o_szbuf] in *. subst pos sz.
  destruct (print_wrote buf (length done) text Hb) as (r & -> & Hr); [unfold length; lia | exact Hl |]. eexists. split; [reflexivity |].
  assert (take (Z.to_nat (length done)) buf = done) as Et. { rewrite Er. unfold length. rewrite Nat2Z.id. apply take_app_length. }
  rewrite Et in Hr |- *. unfold wrote. cbn [o_buf o_pos o_szbuf]. split_and!; [exact Hr | unfold length; rewrite length_app; lia | unfold length; rewrite length_app; lia |].
  exists r. now rewrite <- app_assoc.
Qed.
Lemma print_frames_wrote fs : forall done o, wrote done o -> length done + length (concat (map frame_text fs)) < BUF_SIZE ->
  exists o', print_frames fs o = Some o' /\ wrote (done ++ concat (map frame_text fs)) o'.
Proof.
  induction fs as [| f fs IH]; intros done o Hw Hl; cbn [print_frames map concat] in *; [exists o; now rewrite app_nil_r |].
  unfold length in Hl. rewrite length_app in Hl. pose proof Hw as (_ & _ & Hs & _). rewrite Hs, (proj2 (Z.ltb_lt _ _)) by (unfold length; lia).
  destruct (print_more done o (frame_text f) Hw) as (o1 & -> & Hw1); [unfold length; lia |]. cbn [mbind option_bind].
  destruct (IH (done ++ frame_text f) o1 Hw1) as (o2 & E2 & Hw2); [unfold length; rewrite length_app; lia |].
  exists o2. now rewrite app_assoc.
Qed.

(** The text of an error that fits is reported whole, and the buffer is kept. *)
Definition error_text (value : bytes) (tb : option (list Frame)) : bytes :=
  message_text value ++ match tb with None => [] | Some fs => traceback_text ++ concat (map frame_text fs) end.
Lemma short_exception_reported value tb buf : Z.of_nat (List.length buf) = BUF_SIZE -> length (error_text value tb) < BUF_SIZE ->
  exists rest, process_python_exception (mkError (Some value) tb) buf = Some (Some (error_text value tb ++ 0 :: rest)).
Proof.
  intros Hb Hl. unfold process_python_exception, error_text in *. cbn [value_obj traceback_obj] in *. unfold length in Hl. rewrite length_app in Hl.
  destruct (print_wrote buf 0 (message_text value) Hb ltac:(lia)) as (r & E & Hr); [unfold length; lia |].
  change (BUF_SIZE - 0) with BUF_SIZE in E. rewrite E. cbn [mbind option_bind]. change (take (Z.to_nat 0) buf) with (@nil Z) in *. cbn [app] in *.
  destruct tb as [fs |]; [| exists r; now rewrite app_nil_r]. rewrite length_app in Hl.
  assert (wrote (message_text value) (mkOut (message_text value ++ 0 :: r) (0 + length (message_text value)) (BUF_SIZE - (0 + length (message_text value))))) as Hw
    by (unfold wrote; cbn [o_buf o_pos o_szbuf]; split_and!; auto; eauto).
  destruct (print_more _ _ traceback_text Hw) as (o1 & -> & Hw1); [unfold length; lia |]. cbn [mbind option_bind].
  destruct (print_frames_wrote fs _ _ Hw1) as (o2 & -> & (_ & _ & _ & rest & E2)); [unfold length; rewrite length_app; lia |].
  cbn [mbind option_bind]. exists rest. now rewrite E2, <- !app_assoc.
Qed.

(** A message longer than the buffer makes the room negative, which is a huge
    [size_t]: the traceback is written outside. *)
Lemma long_exception_overruns value fs buf : Z.of_nat (List.length buf) = BUF_SIZE -> BUF_SIZE < length (message_text value) < 2 ^ 31 ->
  process_python_exception (mkError (Some value) (Some fs)) buf = None.
Proof.
  intros Hb Hl. assert (exists b, print (mkOut buf 0 BUF_SIZE) (message_text value) =
      Some (mkOut b (0 + length (message_text value)) (W64 + BUF_SIZE - length (message_text value))) /\ Z.of_nat (List.length b) = BUF_SIZE) as (b & E & Hbo).
  { unfold print, snprintf. cbn [o_buf o_pos o_szbuf]. unfold BUF_SIZE in *. change (65536 =? 0) with false. cbn iota. rewrite Z.min_r by lia.
    rewrite (proj2 (Z.ltb_ge 0 0)) by lia. cbn [orb]. rewrite (proj2 (Z.leb_gt _ _)) by lia. cbn [mbind option_bind].
    assert (uwrap64 (65536 - length (message_text value)) = W64 + 65536 - length (message_text value)) as ->
      by (symmetry; apply (Z.mod_unique_pos _ _ (-1)); unfold W64; lia).
    eexists. split; [reflexivity |]. unfold length in Hl. rewrite !length_app, !length_take, length_drop. cbn [List.length]. lia. }
  unfold process_python_exception. cbn [value_obj traceback_obj]. rewrite E. cbn [mbind option_bind].
  unfold print, snprintf. cbn [o_buf o_pos o_szbuf]. rewrite Hbo. change (length traceback_text) with 13.
  unfold W64, BUF_SIZE in *. rewrite (proj2 (Z.eqb_neq _ _)) by lia. rewrite Z.min_l by lia. rewrite (proj2 (Z.leb_le _ _)) by lia. now rewrite orb_true_r.
Qed.
