(* ===== verification/SqlClient.v ===== *)
(** The inner SQL service as the functions of a Python UDF use it: statements as
    text to [ObISQLClient::write] and [read], and the rows of a result.  The SQL
    engine behind it is a parameter: [SqlClient] lists the operations, and
    [SqlLaws] what is relied on for the three statement shapes the code sends,
    on the table [__all_python_udf], whose primary key is the tenant and the name
    ([src/share/inner_table/ob_inner_table_schema.501_550.cpp]).

    [parse] reads those shapes.  It gives no meaning to a quoted string with a
    backslash, a NUL or a doubled quote, so the laws say nothing of them. *)
From S2P Require Import Prelude FixedArray SEArray HashArray SortedVector UdfSchema.
From S2P Require Import Serialization UdfObject SqlText.
Import ObString.

Inductive cell := CInt (v : Z) | CStr (s : bytes).
Inductive stmt :=
| SInsert (cols : list bytes) (vals : list cell)
| SDelete (tenant : Z) (name : bytes)
| SSelect (name : bytes).
#[global] Instance cell_eq_dec : EqDecision cell.
Proof. solve_decision. Defined.

(** ** Reading the statements *)
Definition eat (pat s : bytes) : option bytes :=
  if starts_with pat s then Some (drop (List.length pat) s) else None.
Fixpoint span (f : Z -> bool) (s : bytes) : bytes * bytes :=
  match s with
  | c :: s' => if f c then let '(a, r) := span f s' in (c :: a, r) else ([], s)
  | [] => ([], [])
  end.
Definition is_digit (c : Z) : bool := (48 <=? c) && (c <=? 57).
Definition is_ident (c : Z) : bool := is_digit c || ((97 <=? c) && (c <=? 122)) || (c =? 95).

Definition p_ident (s : bytes) : option (bytes * bytes) :=
  let '(a, r) := span is_ident s in match a with [] => None | _ => Some (a, r) end.
Definition p_nat (s : bytes) : option (Z * bytes) :=
  let '(a, r) := span is_digit s in
  match a with [] => None | _ => Some (fold_left (fun v c => 10 * v + (c - 48)) a 0, r) end.
Definition p_int (s : bytes) : option (Z * bytes) :=
  match eat (chars "-") s with
  | Some s' => '(v, r) ← p_nat s'; Some (- v, r)
  | None => p_nat s
  end.
Definition unhex (c : Z) : option Z :=
  if is_digit c then Some (c - 48) else if (65 <=? c) && (c <=? 70) then Some (c - 55) else None.
(** The digits of [X'...'] and its closing quote. *)
Fixpoint p_hex (s : bytes) : option (bytes * bytes) :=
  match s with
  | a :: s' =>
      if a =? 39 then Some ([], s')
      else match s' with
           | b :: r => x ← unhex a; y ← unhex b; '(v, r) ← p_hex r; Some (16 * x + y :: v, r)
           | [] => None
           end
  | [] => None
  end.
(** The rest of a quoted string. *)
Fixpoint p_quoted (s : bytes) : option (bytes * bytes) :=
  match s with
  | [] => None
  | c :: r =>
      if c =? 39 then match eat (chars "'") r with Some _ => None | None => Some ([], r) end
      else if (c =? 92) || (c =? 0) then None
      else '(v, r) ← p_quoted r; Some (c :: v, r)
  end.
Definition p_string (s : bytes) : option (bytes * bytes) := r ← eat (chars "'") s; p_quoted r.
Definition p_value (s : bytes) : option (cell * bytes) :=
  match eat (chars "X'") s with
  | Some r => '(v, r) ← p_hex r; Some (CStr v, r)
  | None =>
      match eat (chars "'") s with
      | Some r => '(v, r) ← p_quoted r; Some (CStr v, r)
      | None => '(v, r) ← p_int s; Some (CInt v, r)
      end
  end.
Fixpoint p_list {A} (p : bytes -> option (A * bytes)) (fuel : nat) (s : bytes) : option (list A * bytes) :=
  match fuel with
  | O => None
  | S fuel' =>
      '(x, r) ← p s;
      match eat (chars ", ") r with
      | Some r => '(xs, r) ← p_list p fuel' r; Some (x :: xs, r)
      | None => Some ([x], r)
      end
  end.
Definition p_end {A} (s : bytes) (x : A) : option A := match s with [] => Some x | _ => None end.

Definition p_insert (s : bytes) : option stmt :=
  s ← eat (chars "INSERT INTO __all_python_udf (") s;
  '(cols, s) ← p_list p_ident (List.length s) s;
  s ← eat (chars ") VALUES (") s;
  '(vals, s) ← p_list p_value (List.length s) s;
  s ← eat (chars ")") s;
  p_end s (SInsert cols vals).
Definition p_delete (s : bytes) : option stmt :=
  s ← eat (chars "DELETE FROM __all_python_udf WHERE tenant_id = ") s;
  '(tenant, s) ← p_int s;
  s ← eat (chars " AND name=") s;
  '(name, s) ← p_string s;
  p_end s (SDelete tenant name).
Definition p_select (s : bytes) : option stmt :=
  s ← eat (chars "SELECT * FROM __all_python_udf WHERE name = ") s;
  '(name, s) ← p_string s;
  p_end s (SSelect name).
Definition parse (s : bytes) : option stmt :=
  match p_insert s with
  | Some st => Some st
  | None => match p_delete s with Some st => Some st | None => p_select s end
  end.

(** ** The operations *)
Class SqlClient := {
  Data : Type;
  Row : Type;
  (** [write(tenant, sql, affected_rows)]: the code and the rows affected. *)
  sql_write : Z -> bytes -> Data -> Z * Z * Data;
  (** [read(res, tenant, sql)]: the code and, when there is a result, its rows
      and the code of the [next] behind the last. *)
  sql_read : Z -> bytes -> Data -> Z * option (list Row * Z);
  get_varchar : Row -> bytes -> Z * bytes;
  get_int : Row -> bytes -> Z * Z
}.

(** ** What is relied on *)
Fixpoint assoc (c : bytes) (cols : list bytes) (vals : list cell) : option cell :=
  match cols, vals with
  | x :: cols', v :: vals' => if bool_decide (x = c) then Some v else assoc c cols' vals'
  | _, _ => None
  end.
Definition row_of (cols : list bytes) (vals : list cell) (c : bytes) : option cell := assoc c cols vals.
(** The columns of the table with no default value. *)
Definition udf_columns : list bytes :=
  map chars ["tenant_id"; "udf_id"; "name"; "arg_num"; "arg_names"; "arg_types"; "ret"; "pycall"; "schema_version"]%string.

(** The table behind the service. *)
Class SqlTable `{SqlClient} := {
  (** The key of the collation of the column [name]: equal names have equal keys. *)
  collate : bytes -> bytes;
  (** Whether a value fits the type of a column. *)
  fits : bytes -> cell -> bool;
  column : Row -> bytes -> option cell;
  (** The rows of [__all_python_udf] in the database of a tenant. *)
  rows : Data -> Z -> list Row;
  (** Whether the service answers a request. *)
  sql_up : Z -> bytes -> Data -> bool
}.

Section Table.
Context `{SqlTable}.
(** The primary key of a row with these columns. *)
Definition key_of (col : bytes -> option cell) : option (Z * bytes) :=
  match col (chars "tenant_id"), col (chars "name") with
  | Some (CInt t), Some (CStr n) => Some (t, collate n)
  | _, _ => None
  end.
Definition name_key (col : bytes -> option cell) : option bytes :=
  match col (chars "name") with Some (CStr n) => Some (collate n) | _ => None end.
Definition has_key (t : Z) (name : bytes) (r : Row) : bool := bool_decide (key_of (column r) = Some (t, collate name)).
Definition has_name (name : bytes) (r : Row) : bool := bool_decide (name_key (column r) = Some (collate name)).
End Table.

Class SqlLaws `{SqlTable} := {
  get_varchar_law r c s : column r c = Some (CStr s) -> get_varchar r c = (OB_SUCCESS, s);
  get_int_law r c v : column r c = Some (CInt v) -> get_int r c = (OB_SUCCESS, v);
  (** A write that fails changes nothing. *)
  write_atomic t text d ret n d' t' : sql_write t text d = (ret, n, d') -> ret <> OB_SUCCESS -> rows d' t' = rows d t';
  (** An insertion that succeeds adds one row, whose key is new. *)
  insert_law t text d cols vals n d' :
    parse text = Some (SInsert cols vals) -> sql_write t text d = (OB_SUCCESS, n, d') ->
    n = 1 /\
    (forall r k, r ∈ rows d t -> key_of (row_of cols vals) = Some k -> key_of (column r) <> Some k) /\
    (exists r, rows d' t ≡ₚ r :: rows d t /\ forall c, column r c = row_of cols vals c) /\
    forall t', t' <> t -> rows d' t' = rows d t';
  (** A deletion that succeeds removes and counts the rows with the key. *)
  delete_law t text d tn name n d' :
    parse text = Some (SDelete tn name) -> sql_write t text d = (OB_SUCCESS, n, d') ->
    n = Z.of_nat (List.length (List.filter (has_key tn name) (rows d t))) /\
    rows d' t ≡ₚ List.filter (fun r => negb (has_key tn name r)) (rows d t) /\
    forall t', t' <> t -> rows d' t' = rows d t';
  (** A result read to its end has the rows with the name. *)
  select_law t text d name rs :
    parse text = Some (SSelect name) -> sql_read t text d = (OB_SUCCESS, Some (rs, OB_ITER_END)) ->
    rs ≡ₚ List.filter (has_name name) (rows d t);
  select_rows t text d name ret rs last r :
    parse text = Some (SSelect name) -> sql_read t text d = (ret, Some (rs, last)) -> r ∈ rs -> r ∈ rows d t;
  next_not_success t text d ret rs last : sql_read t text d = (ret, Some (rs, last)) -> last <> OB_SUCCESS;
  (** A service that answers does so: only a value that does not fit, or a key
      that exists, makes an insertion fail. *)
  up_insert t text d vals k :
    sql_up t text d = true -> parse text = Some (SInsert udf_columns vals) ->
    Forall2 (fun c v => fits c v = true) udf_columns vals -> key_of (row_of udf_columns vals) = Some k ->
    (sql_write t text d).1.1 =
      if existsb (fun r => bool_decide (key_of (column r) = Some k)) (rows d t)
      then OB_ERR_PRIMARY_KEY_DUPLICATE else OB_SUCCESS;
  up_delete t text d tn name :
    sql_up t text d = true -> parse text = Some (SDelete tn name) -> (sql_write t text d).1.1 = OB_SUCCESS;
  up_select t text d name :
    sql_up t text d = true -> parse text = Some (SSelect name) ->
    exists rs, sql_read t text d = (OB_SUCCESS, Some (rs, OB_ITER_END))
}.
