(* ===== verification/UdfDdl.v ===== *)
(** Creating, dropping and looking up Python functions in the table
    [__all_python_udf]: [ObPythonUdfSqlService]
    ([src/share/schema/ob_python_udf_sql_service.cpp]), the functions of
    [ObDDLOperator], [ObDDLService] and [ObRootService] ([src/rootserver/]), and
    those of [ObMultiVersionSchemaService]
    ([src/share/schema/ob_multi_version_schema_service.cpp]).

    The calls into the rest of the server (schema guards, identifiers, versions,
    transactions, dependencies) answer from a record [Env], one per request, so
    each may fail at any request.  [None] is a call with no defined result. *)
From S2P Require Import Prelude FixedArray SEArray HashArray SortedVector UdfSchema.
From S2P Require Import Serialization UdfObject SqlText SqlClient.
Import ObString ObSqlString.

Definition OB_INVALID_TENANT_ID : Z := 0.
Definition OB_SYS_TENANT_ID : Z := 1.

(** [ObSchemaUtils] ([src/share/schema/ob_schema_utils.cpp]). *)
Definition get_exec_tenant_id (tenant_id : Z) : Z :=
  if negb (OB_INVALID_TENANT_ID =? tenant_id) then tenant_id else OB_SYS_TENANT_ID.
Definition get_extract_tenant_id (exec_tenant_id tenant_id : Z) : Z := OB_INVALID_TENANT_ID.
Definition get_extract_schema_id (exec_tenant_id schema_id : Z) : Z := schema_id.

(** The answers of the rest of the server during one request. *)
Record Env := mkEnv {
  inited_ : bool;
  check_inner_stat : Z;
  get_schema_guard : Z;
  get_schema_version : Z;
  trans_start : Z;
  trans_started : bool;               (* [is_started] after a [start] that failed *)
  schema_service_ : bool;
  fetch_new_python_udf_id : Z * Z;
  gen_new_schema_version : Z * Z;
  modify_dep_obj_status : Z;
  trans_end : bool -> Z;
  commit_applied : bool;              (* whether a commit that failed took effect *)
  publish_schema : Z
}.
Record ObDropPythonUdfArg := mkDrop { drop_tenant_id_ : Z; drop_name_ : bytes; if_exist_ : bool }.

Section Ddl.
Context `{Allocator, SqlClient}.

(** ** [ObPythonUdfSqlService] *)
Definition set_udf_id (u : ObPythonUDF.t) (id : Z) : ObPythonUDF.t :=
  let '(ObPythonUDF.mk e t _ n mn an ans ats r p v) := u in ObPythonUDF.mk e t id n mn an ans ats r p v.
Definition set_schema_version (u : ObPythonUDF.t) (v : Z) : ObPythonUDF.t :=
  let '(ObPythonUDF.mk e t i n mn an ans ats r p _) := u in ObPythonUDF.mk e t i n mn an ans ats r p v.
(** [ObSchema::is_valid], which [ObPythonUDF] inherits. *)
Definition is_valid (u : ObPythonUDF.t) : bool := OB_SUCCESS =? ObPythonUDF.error_ret_ u.

Definition insert_columns (u : ObPythonUDF.t) (exec_tenant_id : Z) (st : columns) : columns :=
  let st := SQL_COL_APPEND_VALUE st (dec_u (get_extract_tenant_id exec_tenant_id (ObPythonUDF.tenant_id_ u))) (chars "tenant_id") in
  let st := SQL_COL_APPEND_VALUE st (dec_u (get_extract_schema_id exec_tenant_id (ObPythonUDF.udf_id_ u))) (chars "udf_id") in
  let st := SQL_COL_APPEND_ESCAPE_STR_VALUE st (ObPythonUDF.name_ u) (chars "name") in
  let st := SQL_COL_APPEND_VALUE st (dec_d (ObPythonUDF.arg_num_ u)) (chars "arg_num") in
  let st := SQL_COL_APPEND_ESCAPE_STR_VALUE st (ObPythonUDF.arg_names_ u) (chars "arg_names") in
  let st := SQL_COL_APPEND_ESCAPE_STR_VALUE st (ObPythonUDF.arg_types_ u) (chars "arg_types") in
  let st := SQL_COL_APPEND_VALUE st (dec_d (enum_to (ObPythonUDF.ret_ u))) (chars "ret") in
  let st := SQL_COL_APPEND_ESCAPE_STR_VALUE st (ObPythonUDF.pycall_ u) (chars "pycall") in
  SQL_COL_APPEND_VALUE st (dec_d (ObPythonUDF.schema_version_ u)) (chars "schema_version").

Definition is_single_row (n : Z) : bool := 1 =? n.
(** The text of the statement. *)
Definition insert_statement (u : ObPythonUDF.t) (exec_tenant_id : Z) : Z * ObSqlString.t :=
  let '(ret, sql) := assign_fmt empty (chars "INSERT INTO __all_python_udf (") in
  if OB_FAIL ret then (ret, sql)
  else
    let '(ret, sql, values) := insert_columns u exec_tenant_id (ret, sql, empty) in
    if OB_SUCC ret then append_fmt sql (chars ") VALUES (" ++ text_ values ++ chars ")") else (ret, sql).
Definition add_python_udf (u : ObPythonUDF.t) (d : Data) : Z * Data :=
  let exec_tenant_id := get_exec_tenant_id (ObPythonUDF.tenant_id_ u) in
  let '(ret, sql) := insert_statement u exec_tenant_id in
  if OB_FAIL ret then (ret, d)
  else
    let ret := ObPythonUDF.check_pycall u in
    if OB_FAIL ret then (ret, d)
    else
      let '(ret, affected_rows, d) := sql_write exec_tenant_id (text_ sql) d in
      if OB_FAIL ret then (ret, d)
      else (if negb (is_single_row affected_rows) then OB_ERR_UNEXPECTED else ret, d).

Definition insert_python_udf (u : ObPythonUDF.t) (d : Data) : Z * Data :=
  if negb (is_valid u) then (OB_INVALID_ARGUMENT, d) else add_python_udf u d.

(** The name is put between quotes as it is, up to its first NUL. *)
Definition delete_python_udf (tenant_id : Z) (name : bytes) (d : Data) : Z * Data :=
  let exec_tenant_id := get_exec_tenant_id tenant_id in
  let '(ret, sql) := assign_fmt empty
    (chars "DELETE FROM __all_python_udf WHERE tenant_id = " ++ dec_d (get_extract_tenant_id exec_tenant_id tenant_id)
     ++ chars " AND name='" ++ c_str name ++ chars "'") in
  if OB_FAIL ret then (ret, d)
  else
    let '(ret, affected_rows, d) := sql_write exec_tenant_id (text_ sql) d in
    if OB_FAIL ret then (ret, d)
    else (if negb (1 =? affected_rows) then OB_ERR_UNEXPECTED else ret, d).

(** Drops the function of a schema object; no function of the server calls it. *)
Definition drop_python_udf (u : ObPythonUDF.t) (d : Data) : Z * Data :=
  if negb (is_valid u) then (OB_INVALID_ARGUMENT, d)
  else delete_python_udf (ObPythonUDF.tenant_id_ u) (c_str (ObPythonUDF.name_ u)) d.

(** ** [ObMultiVersionSchemaService] *)
(** The extraction macros, on a code and the object. *)
Definition EXTRACT_VARCHAR (r : Row) (col : bytes) (set : ObPythonUDF.t -> bytes -> Z * ObPythonUDF.t)
    (st : Z * ObPythonUDF.t) : Z * ObPythonUDF.t :=
  let '(ret, u) := st in
  if OB_SUCC ret then
    let '(ret, v) := get_varchar r col in if OB_FAIL ret then (ret, u) else set u v
  else st.
Definition EXTRACT_INT (r : Row) (col : bytes) (set : ObPythonUDF.t -> Z -> ObPythonUDF.t)
    (st : Z * ObPythonUDF.t) : Z * ObPythonUDF.t :=
  let '(ret, u) := st in
  if OB_SUCC ret then
    let '(ret, v) := get_int r col in if OB_FAIL ret then (ret, u) else (ret, set u v)
  else st.
(** [set_ret(int)]: a number that is no value of the enumeration has no defined meaning. *)
Definition EXTRACT_RET (r : Row) (st : Z * ObPythonUDF.t) : option (Z * ObPythonUDF.t) :=
  let '(ret, u) := st in
  if OB_SUCC ret then
    let '(ret, v) := get_int r (chars "ret") in
    if OB_FAIL ret then Some (ret, u) else e ← enum_of (to_int32 v); Some (ret, ObPythonUDF.set_ret u e)
  else Some st.

Definition fill_python_udf_schema (tenant_id : Z) (r : Row) (u : ObPythonUDF.t) : option (Z * ObPythonUDF.t) :=
  let st := (OB_SUCCESS, ObPythonUDF.set_tenant_id (ObPythonUDF.reset u) tenant_id) in
  let st := EXTRACT_VARCHAR r (chars "name") ObPythonUDF.set_name st in
  let st := EXTRACT_INT r (chars "udf_id") (fun u v => set_udf_id u (uwrap64 v)) st in
  let st := EXTRACT_INT r (chars "arg_num") (fun u v => ObPythonUDF.set_arg_num u (to_int32 v)) st in
  let st := EXTRACT_VARCHAR r (chars "arg_names") ObPythonUDF.set_arg_names st in
  let st := EXTRACT_VARCHAR r (chars "arg_types") ObPythonUDF.set_arg_types st in
  st ← EXTRACT_RET r st;
  let st := EXTRACT_VARCHAR r (chars "pycall") ObPythonUDF.set_pycall st in
  Some (EXTRACT_INT r (chars "schema_version") set_schema_version st).

(** [while (OB_SUCCESS == ret && OB_SUCCESS == (ret = result->next()))]: the
    code, whether there was a row, and the object. *)
Fixpoint fetch_rows (tenant_id : Z) (rs : list Row) (last : Z) (existed : bool) (u : ObPythonUDF.t) :
    option (Z * bool * ObPythonUDF.t) :=
  match rs with
  | [] => Some (last, existed, u)
  | r :: rs' =>
      '(ret, u) ← fill_python_udf_schema tenant_id r u;
      if OB_SUCC ret then fetch_rows tenant_id rs' last true u else Some (ret, true, u)
  end.
Definition select_sql (name : bytes) : Z * ObSqlString.t :=
  append_fmt empty (chars "SELECT * FROM __all_python_udf WHERE name = '" ++ c_str name ++ chars "'").

Definition get_python_udf_info (tenant_id : Z) (name : bytes) (u : ObPythonUDF.t) (d : Data) :
    option (Z * bool * ObPythonUDF.t) :=
  if (OB_INVALID_ID =? tenant_id) || ObString.empty name then Some (OB_INVALID_ARGUMENT, false, u)
  else
    let '(ret, sql) := select_sql name in
    if OB_FAIL ret then Some (ret, false, u)
    else
      let '(ret, result) := sql_read tenant_id (text_ sql) d in
      if OB_FAIL ret then Some (ret, false, u)
      else match result with
           | None => Some (OB_ERR_UNEXPECTED, false, u)
           | Some (rs, last) =>
               '(ret, existed, u) ← fetch_rows tenant_id rs last false u;
               Some (if negb (ret =? OB_ITER_END) then ret else OB_SUCCESS, existed, u)
           end.

(** The rows are read into objects of their own; the id is that of the last. *)
Fixpoint fetch_ids (tenant_id : Z) (rs : list Row) (last : Z) (existed : bool) (udf_id : Z) : option (Z * bool * Z) :=
  match rs with
  | [] => Some (last, existed, udf_id)
  | r :: rs' =>
      '(ret, u) ← fill_python_udf_schema tenant_id r ObPythonUDF.new;
      if OB_SUCC ret then fetch_ids tenant_id rs' last true (ObPythonUDF.udf_id_ u)
      else Some (ret, true, ObPythonUDF.udf_id_ u)
  end.
Definition check_python_udf_exist (tenant_id : Z) (name : bytes) (d : Data) : option (Z * bool * Z) :=
  if (OB_INVALID_ID =? tenant_id) || ObString.empty name then Some (OB_INVALID_ARGUMENT, false, OB_INVALID_ID)
  else
    let '(ret, sql) := select_sql name in
    if OB_FAIL ret then Some (ret, false, OB_INVALID_ID)
    else
      let '(ret, result) := sql_read tenant_id (text_ sql) d in
      if OB_FAIL ret then Some (ret, false, OB_INVALID_ID)
      else match result with
           | None => Some (OB_ERR_UNEXPECTED, false, OB_INVALID_ID)
           | Some (rs, last) =>
               '(ret, existed, udf_id) ← fetch_ids tenant_id rs last false OB_INVALID_ID;
               Some (if negb (ret =? OB_ITER_END) then ret else OB_SUCCESS, existed, udf_id)
           end.

(** ** [ObDDLOperator] *)
Definition op_create_python_udf (e : Env) (u : ObPythonUDF.t) (d : Data) : Z * Data :=
  if negb (schema_service_ e) then (OB_ERR_SYS, d)
  else
    let '(ret, new_udf_id) := fetch_new_python_udf_id e in
    if OB_FAIL ret then (ret, d)
    else
      let '(ret, new_schema_version) := gen_new_schema_version e in
      if OB_FAIL ret then (ret, d)
      else insert_python_udf (set_schema_version (set_udf_id u new_udf_id) new_schema_version) d.

Definition op_drop_python_udf (e : Env) (tenant_id : Z) (name : bytes) (d : Data) : Z * Data :=
  if OB_INVALID_ID =? tenant_id then (OB_INVALID_ARGUMENT, d)
  else if negb (schema_service_ e) then (OB_ERR_SYS, d)
  else
    let '(ret, _) := gen_new_schema_version e in
    if OB_FAIL ret then (ret, d) else delete_python_udf tenant_id name d.

(** ** [ObDDLService] *)
(** [if (trans.is_started()) trans.end(OB_SUCC(ret))]: [w] is the data with the
    transaction's writes, [d] the data before. *)
Definition end_trans (e : Env) (ret : Z) (started : bool) (w d : Data) : Z * Data :=
  if started then
    let temp_ret := trans_end e (OB_SUCC ret) in
    let applied := OB_SUCC ret && (OB_SUCC temp_ret || commit_applied e) in
    (if OB_SUCC temp_ret then ret else if OB_SUCC ret then temp_ret else ret, if applied then w else d)
  else (ret, d).

Definition ddl_create_python_udf (e : Env) (u : ObPythonUDF.t) (d : Data) : Z * Data :=
  if OB_FAIL (check_inner_stat e) then (check_inner_stat e, d)
  else if OB_FAIL (get_schema_guard e) then (get_schema_guard e, d)
  else
    let '(ret, started, w) :=
      if OB_FAIL (get_schema_version e) then (get_schema_version e, false, d)
      else if OB_FAIL (trans_start e) then (trans_start e, trans_started e, d)
      else let '(ret, w) := op_create_python_udf e u d in (ret, true, w) in
    let '(ret, d) := end_trans e ret started w d in
    if OB_SUCC ret then (publish_schema e, d) else (ret, d).

Definition ddl_drop_python_udf (e : Env) (arg : ObDropPythonUdfArg) (d : Data) : option (Z * Data) :=
  let tenant_id := drop_tenant_id_ arg in
  let name := drop_name_ arg in
  let ret := if OB_FAIL (check_inner_stat e) then check_inner_stat e
             else if OB_FAIL (get_schema_guard e) then get_schema_guard e
             else if ObString.empty name then OB_INVALID_ARGUMENT else OB_SUCCESS in
  '(ret, started, w) ←
    (if OB_SUCC ret then
       '(ret, is_exist, udf_id) ← check_python_udf_exist tenant_id name d;
       Some (if OB_FAIL ret then (ret, false, d)
             else if negb is_exist then (if if_exist_ arg then OB_SUCCESS else OB_ERR_FUNCTION_UNKNOWN, false, d)
             else if OB_FAIL (get_schema_version e) then (get_schema_version e, false, d)
             else if OB_FAIL (trans_start e) then (trans_start e, trans_started e, d)
             else if OB_FAIL (modify_dep_obj_status e) then (modify_dep_obj_status e, true, d)
             else let '(ret, w) := op_drop_python_udf e tenant_id name d in (ret, true, w))
     else Some (ret, false, d));
  let '(ret, d) := end_trans e ret started w d in
  Some (if OB_SUCC ret then (publish_schema e, d) else (ret, d)).

(** ** [ObRootService] *)
(** Whether the function exists is asked, and not used. *)
Definition root_create_python_udf (e : Env) (arg : ObPythonUDF.t) (d : Data) : option (Z * Data) :=
  let u := ObPythonUDF.op_assign ObPythonUDF.new arg in
  if negb (inited_ e) then Some (OB_NOT_INIT, d)
  else if ObString.empty (ObPythonUDF.name_ arg) then Some (OB_INVALID_ARGUMENT, d)
  else
    '(ret, existed, udf_id) ← check_python_udf_exist (ObPythonUDF.tenant_id_ arg) (ObPythonUDF.name_ arg) d;
    Some (if OB_FAIL ret then (ret, d) else ddl_create_python_udf e u d).

Definition root_drop_python_udf (e : Env) (arg : ObDropPythonUdfArg) (d : Data) : option (Z * Data) :=
  if negb (inited_ e) then Some (OB_NOT_INIT, d)
  else if ObString.empty (drop_name_ arg) then Some (OB_INVALID_ARGUMENT, d)
  else ddl_drop_python_udf e arg d.
End Ddl.
