(* ===== verification/SqlFacts.v ===== *)
(** The statements of [UdfDdl] mean what they are meant to: what an
    [ObSqlString] holds after its appends, and what [parse] reads in the text. *)
From S2P Require Import Prelude FixedArray SEArray HashArray SortedVector UdfSchema.
From S2P Require Import Serialization UdfObject SqlText SqlClient UdfDdl.
Import ObString ObSqlString.

(** A byte, and a string with no character that ends or escapes a quoted one. *)
Definition byte_ok (c : Z) : Prop := 0 <= c < 256.
Definition plain (s : bytes) : Prop := Forall (fun c => byte_ok c /\ c <> 39 /\ c <> 92 /\ c <> 0) s.
(** Text that does not go on with a character of class [f]. *)
Definition stops (f : Z -> bool) (s : bytes) : Prop := match s with [] => True | c :: _ => f c = false end.

Lemma plain_bytes s : plain s -> Forall byte_ok s.
Proof. intros Hs. eapply Forall_impl; [exact Hs | cbn; tauto]. Qed.
Lemma plain_c_str s : plain s -> c_str s = s.
Proof.
  induction 1 as [| c s (_ & _ & _ & Hc) _ IH]; [reflexivity |]. simpl.
  destruct (Z.eqb_spec c 0); [easy | now rewrite IH].
Qed.

(** ** Reading what was written *)
Lemma eat_app pat s : eat pat (pat ++ s) = Some s.
Proof.
  unfold eat. assert (starts_with pat (pat ++ s) = true) as ->.
  { induction pat as [| c pat IH]; [reflexivity |]. simpl. now rewrite Z.eqb_refl, IH. }
  now rewrite drop_app_length.
Qed.

Lemma span_app f a r : Forall (fun c => f c = true) a -> stops f r -> span f (a ++ r) = (a, r).
Proof.
  induction 1 as [| c a Hc _ IH]; intros Hr; simpl.
  - destruct r as [| c r]; [reflexivity |]. simpl in Hr |- *. now rewrite Hr.
  - now rewrite Hc, IH.
Qed.

Lemma dec_loop_spec fuel : forall n acc, 0 <= n < 10 ^ Z.of_nat fuel -> (0 < fuel)%nat ->
  exists ds, dec_loop fuel n acc = ds ++ acc /\ ds <> [] /\ Forall (fun c => is_digit c = true) ds /\
    forall v, fold_left (fun v c => 10 * v + (c - 48)) ds v = 10 ^ Z.of_nat (List.length ds) * v + n.
Proof.
  induction fuel as [| fuel IH]; [lia |]. intros n acc Hn _. cbn [dec_loop].
  assert (is_digit (48 + n mod 10) = true) as Hd.
  { pose proof (Z.mod_pos_bound n 10 ltac:(lia)). unfold is_digit. apply andb_true_iff. split; apply Z.leb_le; lia. }
  destruct (Z.ltb_spec n 10) as [Hlt | Hge].
  - exists [48 + n mod 10]. split_and!; [reflexivity | easy | now repeat constructor |].
    intros v. cbn [fold_left List.length]. rewrite Z.mod_small by lia. change (10 ^ Z.of_nat 1) with 10. lia.
  - rewrite Nat2Z.inj_succ, Z.pow_succ_r in Hn by lia.
    destruct (IH (n / 10) ((48 + n mod 10) :: acc)) as (ds & -> & Hne & Hds & Hv).
    { split; [apply Z.div_pos; lia | apply Z.div_lt_upper_bound; lia]. }
    { destruct fuel; [simpl in Hn; lia | lia]. }
    exists (ds ++ [48 + n mod 10]). split_and!.
    + now rewrite <- app_assoc.
    + now destruct ds.
    + apply Forall_app. split; [exact Hds | now repeat constructor].
    + intros v. rewrite fold_left_app, Hv, length_app. cbn [fold_left List.length].
      rewrite Nat2Z.inj_add, Z.pow_add_r by lia. pose proof (Z.div_mod n 10). change (10 ^ Z.of_nat 1) with 10. lia.
Qed.

Lemma p_nat_dec n r : 0 <= n < W64 -> stops is_digit r -> p_nat (dec_u n ++ r) = Some (n, r).
Proof.
  intros Hn Hr. destruct (dec_loop_spec 20 n []) as (ds & E & Hne & Hds & Hv); [| lia |].
  { change (10 ^ Z.of_nat 20) with 100000000000000000000. unfold W64 in Hn. lia. }
  unfold dec_u, p_nat. rewrite E, app_nil_r, (span_app is_digit) by assumption. rewrite Hv.
  destruct ds; [easy |]. f_equal. f_equal. lia.
Qed.

Lemma dec_u_head n r : 0 <= n < W64 -> exists c s, dec_u n ++ r = c :: s /\ is_digit c = true.
Proof.
  intros Hn. destruct (dec_loop_spec 20 n []) as (ds & E & Hne & Hds & _); [| lia |].
  { change (10 ^ Z.of_nat 20) with 100000000000000000000. unfold W64 in Hn. lia. }
  unfold dec_u. rewrite E, app_nil_r. destruct ds as [| c ds]; [easy |]. inversion_clear Hds as [| ? ? Hc _]. exists c, (ds ++ r). split; [reflexivity | exact Hc].
Qed.

(** A digit starts neither a sign nor a quoted or hexadecimal string. *)
Lemma digit_not c : is_digit c = true -> (45 =? c) = false /\ (39 =? c) = false /\ (88 =? c) = false.
Proof.
  unfold is_digit. intros (H1 & H2)%andb_true_iff. apply Z.leb_le in H1, H2.
  split_and!; apply Z.eqb_neq; lia.
Qed.

Lemma p_int_dec n r : - W64 < n < W64 -> stops is_digit r -> p_int (dec_d n ++ r) = Some (n, r).
Proof.
  intros Hn Hr. unfold dec_d, p_int. destruct (Z.ltb_spec n 0) as [Hneg | Hpos].
  - change ((45 :: dec_u (- n)) ++ r) with (chars "-" ++ (dec_u (- n) ++ r)). rewrite eat_app, p_nat_dec by (easy || lia).
    cbn. f_equal. f_equal. lia.
  - destruct (dec_u_head n r ltac:(lia)) as (c & s & E & Hd). destruct (digit_not c Hd) as (Hc & _).
    assert (eat (chars "-") (dec_u n ++ r) = None) as ->.
    { rewrite E. unfold eat. change (chars "-") with [45]. cbn [starts_with]. now rewrite Hc. }
    apply p_nat_dec; [lia | exact Hr].
Qed.

Lemma unhex_digit n : 0 <= n < 16 -> unhex (hex_digit n) = Some n /\ (hex_digit n =? 39) = false.
Proof.
  intros Hn. assert (n ∈ seqZ 0 16) as Hin by (apply elem_of_seqZ; lia). clear Hn.
  revert n Hin. apply Forall_forall. vm_compute. repeat constructor.
Qed.

Lemma p_hex_app s r : Forall byte_ok s -> p_hex (concat (map hex_byte s) ++ chars "'" ++ r) = Some (s, r).
Proof.
  induction 1 as [| c s Hc _ IH]; [reflexivity |]. unfold byte_ok in Hc.
  cbn [map concat]. unfold hex_byte at 1. cbn [app p_hex].
  rewrite (Z.mod_small c 256) by lia.
  destruct (unhex_digit (c / 16)) as (E1 & E2). { split; [apply Z.div_pos; lia | apply Z.div_lt_upper_bound; lia]. }
  destruct (unhex_digit (c mod 16)) as (E3 & _); [apply Z.mod_pos_bound; lia |].
  rewrite E2, E1, E3. cbn [mbind option_bind]. rewrite IH. cbn [mbind option_bind].
  rewrite <- Z.div_mod by lia. reflexivity.
Qed.

Lemma p_quoted_app s r : plain s -> stops (Z.eqb 39) r -> p_quoted (s ++ chars "'" ++ r) = Some (s, r).
Proof.
  induction 1 as [| c s (_ & H1 & H2 & H3) _ IH]; intros Hr.
  - change (chars "'" ++ r) with (39 :: r). cbn [app p_quoted]. rewrite Z.eqb_refl.
    destruct r as [| c r]; [reflexivity |]. unfold eat. cbn [stops] in Hr. change (chars "'") with [39]. cbn [starts_with]. now rewrite Hr.
  - cbn [app p_quoted]. destruct (Z.eqb_spec c 39), (Z.eqb_spec c 92), (Z.eqb_spec c 0); try easy. cbn [orb].
    now rewrite IH.
Qed.
Lemma p_string_app s r : plain s -> stops (Z.eqb 39) r -> p_string (chars "'" ++ s ++ chars "'" ++ r) = Some (s, r).
Proof. intros Hs Hr. unfold p_string. rewrite eat_app. cbn [mbind option_bind]. now apply p_quoted_app. Qed.

(** ** Values and lists *)
Definition image (v : cell) : bytes :=
  match v with
  | CInt n => dec_d n
  | CStr s => chars "X'" ++ concat (map hex_byte s) ++ chars "'"
  end.
Definition cell_ok (v : cell) : Prop :=
  match v with CInt n => - W64 < n < W64 | CStr s => Forall byte_ok s end.

Lemma p_value_image v r : cell_ok v -> stops is_digit r -> p_value (image v ++ r) = Some (v, r).
Proof.
  destruct v as [n | s]; cbn [cell_ok image]; intros Hv Hr.
  - unfold p_value. rewrite (p_int_dec n r) by assumption.
    assert (forall pat c0, (45 =? c0) = false -> (forall c, is_digit c = true -> (c0 =? c) = false) ->
              eat (c0 :: pat) (dec_d n ++ r) = None) as Hno.
    { intros pat c0 Hm Hd. unfold dec_d. destruct (Z.ltb_spec n 0).
      - unfold eat. cbn [app starts_with]. now rewrite Z.eqb_sym, Hm.
      - destruct (dec_u_head n r ltac:(lia)) as (c & s & E & Hc). rewrite E. unfold eat. cbn [starts_with].
        now rewrite (Hd c Hc). }
    change (chars "X'") with [88; 39]. change (chars "'") with [39].
    rewrite !Hno; [reflexivity | easy | apply digit_not | easy | apply digit_not].
  - unfold p_value. rewrite <- !app_assoc, eat_app, p_hex_app by assumption. reflexivity.
Qed.

Fixpoint join (imgs : list bytes) : bytes :=
  match imgs with
  | [] => []
  | a :: imgs' => match imgs' with [] => a | _ => a ++ chars ", " ++ join imgs' end
  end.
Lemma join_cons a b imgs : join (a :: b :: imgs) = a ++ chars ", " ++ join (b :: imgs).
Proof. reflexivity. Qed.
Lemma join_snoc imgs a : imgs <> [] -> join (imgs ++ [a]) = join imgs ++ chars ", " ++ a.
Proof.
  induction imgs as [| x imgs IH]; [easy |]. intros _. destruct imgs as [| y imgs]; [reflexivity |].
  change ((x :: y :: imgs) ++ [a]) with (x :: y :: (imgs ++ [a])). rewrite !join_cons, <- !app_assoc.
  change (y :: imgs ++ [a]) with ((y :: imgs) ++ [a]). now rewrite IH.
Qed.
Lemma join_nil imgs : Forall (fun a => a <> []) imgs -> join imgs = [] -> imgs = [].
Proof.
  destruct 1 as [| a imgs Ha _]; [reflexivity |]. destruct imgs as [| b imgs]; [easy |].
  rewrite join_cons. now destruct a.
Qed.
Lemma join_length imgs : Forall (fun a => a <> []) imgs -> (List.length imgs <= List.length (join imgs))%nat.
Proof.
  induction 1 as [| a imgs Ha _ IH]; [simpl; lia |].
  assert (1 <= List.length a)%nat by (destruct a; [easy | simpl; lia]).
  destruct imgs as [| b imgs]; [simpl; lia |]. rewrite join_cons, !length_app. simpl in IH |- *. lia.
Qed.

(** A list ends at a closing bracket. *)
Lemma p_list_join {A} (p : bytes -> option (A * bytes)) xs imgs r fuel :
  Forall2 (fun x a => forall c r, c = 44 \/ c = 41 -> p (a ++ c :: r) = Some (x, c :: r)) xs imgs ->
  xs <> [] -> (List.length xs <= fuel)%nat -> p_list p fuel (join imgs ++ 41 :: r) = Some (xs, 41 :: r).
Proof.
  intros H. revert fuel. induction H as [| x a xs imgs Hx Hxs IH]; [easy |]. intros fuel _ Hf.
  destruct fuel as [| fuel]; [simpl in Hf; lia |]. cbn [p_list]. destruct Hxs as [| y b xs imgs Hy Hxs].
  - cbn [join]. rewrite Hx by auto. reflexivity.
  - rewrite join_cons, <- !app_assoc. change (chars ", " ++ ?s) with (44 :: 32 :: s). rewrite Hx by auto.
    cbn [mbind option_bind]. change (44 :: 32 :: ?s) with (chars ", " ++ s). rewrite eat_app, IH; [reflexivity | easy |].
    simpl in Hf |- *. lia.
Qed.

Lemma p_ident_app a c r : Forall (fun c => is_ident c = true) a -> a <> [] -> c = 44 \/ c = 41 ->
  p_ident (a ++ c :: r) = Some (a, c :: r).
Proof.
  intros Ha Hne Hc. unfold p_ident. rewrite span_app by (assumption || (destruct Hc; subst; reflexivity)).
  now destruct a.
Qed.

Lemma image_nonempty v : cell_ok v -> image v <> [].
Proof.
  destruct v as [n | s]; [| easy]. cbn. intros Hn. unfold dec_d. destruct (Z.ltb_spec n 0); [easy |].
  destruct (dec_u_head n [] ltac:(lia)) as (c & s & E & _). rewrite app_nil_r in E. now rewrite E.
Qed.

Definition insert_sql (cols : list bytes) (vals : list cell) : bytes :=
  chars "INSERT INTO __all_python_udf (" ++ join cols ++ chars ") VALUES (" ++ join (map image vals) ++ chars ")".

Lemma parse_insert cols vals :
  Forall (fun a => a <> [] /\ Forall (fun c => is_ident c = true) a) cols -> cols <> [] ->
  Forall cell_ok vals -> vals <> [] -> parse (insert_sql cols vals) = Some (SInsert cols vals).
Proof.
  intros Hc Hc0 Hv Hv0. unfold parse, p_insert, insert_sql. rewrite eat_app. cbn [mbind option_bind].
  change (chars ") VALUES (" ++ ?s) with (41 :: (chars " VALUES (" ++ s)).
  rewrite (p_list_join p_ident cols cols).
  2: { clear Hc0. induction Hc as [| a cols (Ha & Hi)]; constructor; [| assumption]. intros. now apply p_ident_app. }
  2: assumption.
  2: { rewrite length_app. etransitivity; [apply join_length | lia]. eapply Forall_impl; [exact Hc | cbn; tauto]. }
  cbn [mbind option_bind]. change (41 :: (chars " VALUES (" ++ ?s)) with (chars ") VALUES (" ++ s).
  rewrite eat_app. cbn [mbind option_bind]. change (chars ")") with (41 :: []).
  rewrite (p_list_join p_value vals (map image vals)).
  2: { clear Hv0. induction Hv as [| v vals Hv]; constructor; [| assumption]. intros c r Hcr.
       apply p_value_image; [assumption | destruct Hcr; subst; reflexivity]. }
  2: assumption.
  2: { rewrite length_app, <- (length_map image vals). etransitivity; [apply join_length | lia].
       apply Forall_map. eapply Forall_impl; [exact Hv | exact image_nonempty]. }
  reflexivity.
Qed.

Lemma parse_delete name : plain name ->
  parse (chars "DELETE FROM __all_python_udf WHERE tenant_id = " ++ dec_d 0 ++ chars " AND name='" ++ name ++ chars "'")
  = Some (SDelete 0 name).
Proof.
  intros Hn. unfold parse. assert (p_insert (chars "DELETE FROM __all_python_udf WHERE tenant_id = " ++
    dec_d 0 ++ chars " AND name='" ++ name ++ chars "'") = None) as -> by reflexivity.
  unfold p_delete. rewrite eat_app. cbn [mbind option_bind]. rewrite p_int_dec by easy. cbn [mbind option_bind].
  change (chars " AND name='" ++ ?s) with (chars " AND name=" ++ chars "'" ++ s). rewrite eat_app. cbn [mbind option_bind].
  rewrite <- (app_nil_r (chars "'")) at 2. rewrite p_string_app by easy. reflexivity.
Qed.

Lemma parse_select name : plain name ->
  parse (chars "SELECT * FROM __all_python_udf WHERE name = '" ++ name ++ chars "'") = Some (SSelect name).
Proof.
  intros Hn. unfold parse. assert (p_insert (chars "SELECT * FROM __all_python_udf WHERE name = '" ++ name ++ chars "'") = None)
    as -> by reflexivity.
  assert (p_delete (chars "SELECT * FROM __all_python_udf WHERE name = '" ++ name ++ chars "'") = None) as -> by reflexivity.
  change (chars "SELECT * FROM __all_python_udf WHERE name = '" ++ ?s)
    with (chars "SELECT * FROM __all_python_udf WHERE name = " ++ chars "'" ++ s).
  unfold p_select. rewrite eat_app. cbn [mbind option_bind].
  rewrite <- (app_nil_r (chars "'")) at 2. rewrite p_string_app by easy. reflexivity.
Qed.
