(* ===== verification/DdlFacts.v ===== *)
(** Lemmas on the DDL of Python functions: the text of the statements, the rows
    they make and read, and one request as a step on the catalogue. *)
From S2P Require Import Prelude FixedArray SEArray HashArray SortedVector UdfSchema.
From S2P Require Import Serialization UdfObject SqlText SqlClient UdfDdl SqlFacts.
Import ObString ObSqlString.

Lemma OB_SUCC_true ret : OB_SUCC ret = true <-> ret = OB_SUCCESS.
Proof. apply Z.eqb_eq. Qed.
Lemma OB_SUCC_false ret : OB_SUCC ret = false <-> ret <> OB_SUCCESS.
Proof. apply Z.eqb_neq. Qed.
Lemma OB_FAIL_true ret : OB_FAIL ret = true <-> ret <> OB_SUCCESS.
Proof. unfold OB_FAIL. rewrite negb_true_iff. apply OB_SUCC_false. Qed.
Lemma OB_FAIL_false ret : OB_FAIL ret = false <-> ret = OB_SUCCESS.
Proof. unfold OB_FAIL. rewrite negb_false_iff. apply OB_SUCC_true. Qed.

(** Case on the code of a call. *)
Ltac code_case ret :=
  let E := fresh "Ecode" in
  destruct (OB_FAIL ret) eqn:E; [apply OB_FAIL_true in E | apply OB_FAIL_false in E];
  try (rewrite (proj2 (OB_SUCC_false ret)) in * by assumption);
  try (rewrite (proj2 (OB_SUCC_true ret)) in * by assumption).

Section Text.
Context `{Allocator}.

(** ** What the appends leave *)
Lemma reserve_text s n : text_ (reserve s n).2 = text_ s.
Proof.
  unfold reserve, extend. repeat case_match; reflexivity.
Qed.
Lemma append_text s str : (append s str).1 = OB_SUCCESS -> text_ (append s str).2 = text_ s ++ str.
Proof.
  unfold append. pose proof (reserve_text s (len_ s + length str)) as Ht.
  destruct (reserve s (len_ s + length str)) as [ret s']. simpl in Ht.
  code_case ret; [easy |]. cbn. now rewrite Ht.
Qed.
Lemma append_fmt_text s out : (append_fmt s out).1 = OB_SUCCESS -> text_ (append_fmt s out).2 = text_ s ++ out.
Proof.
  unfold append_fmt. case_match; [easy |]. case_match; [| reflexivity].
  pose proof (reserve_text s (length out + len_ s)) as Ht.
  destruct (reserve s (length out + len_ s)) as [ret s']. simpl in Ht.
  code_case ret; [easy |]. case_match; [easy |]. cbn. now rewrite Ht.
Qed.
Lemma append_hex_text str : forall s, (append_hex s str).1 = OB_SUCCESS ->
  text_ (append_hex s str).2 = text_ s ++ concat (map hex_byte str).
Proof.
  induction str as [| c str IH]; intros s; [now rewrite app_nil_r |]. cbn [append_hex].
  pose proof (append_fmt_text s (hex_byte c)) as Ht. destruct (append_fmt s (hex_byte c)) as [ret s']. simpl in Ht.
  code_case ret; [easy |]. intros E. rewrite (IH s' E), (Ht Ecode), <- app_assoc. reflexivity.
Qed.
Lemma hex_escape_text s str : (sql_append_hex_escape_str s str).1 = OB_SUCCESS ->
  text_ (sql_append_hex_escape_str s str).2 = text_ s ++ image (CStr str).
Proof.
  unfold sql_append_hex_escape_str. pose proof (reserve_text s (len_ s + length str * 2 + 3)) as H0.
  destruct (reserve s _) as [ret s1]. simpl in H0. code_case ret; [easy |].
  pose proof (append_text s1 (chars "X'")) as H1. destruct (append s1 _) as [ret1 s2]. simpl in H1. code_case ret1; [easy |].
  pose proof (append_hex_text str s2) as H2. destruct (append_hex s2 str) as [ret2 s3]. simpl in H2. code_case ret2; [easy |].
  intros E. rewrite append_text, H2, H1, H0, <- !app_assoc by assumption. reflexivity.
Qed.

(** ** The columns of an insertion *)
(** The statement lists [cols] and the values are [imgs], unless an append failed. *)
Definition tracks (pre : bytes) (cols imgs : list bytes) (st : columns) : Prop :=
  st.1.1 = OB_SUCCESS -> text_ st.1.2 = pre ++ join cols /\ text_ st.2 = join imgs.

Lemma sep_join values imgs : Forall (fun a => a <> []) imgs -> text_ values = join imgs ->
  sep values = match imgs with [] => [] | _ => chars ", " end /\ is_empty values = match imgs with [] => true | _ => false end.
Proof.
  intros Hne Ht. unfold sep, is_empty, len_, length. rewrite Ht. destruct imgs as [| a imgs]; [easy |].
  destruct (join (a :: imgs)) eqn:E; [now apply join_nil in E | easy].
Qed.
Lemma join_grow pre cols c (imgs : list bytes) : List.length cols = List.length imgs ->
  (pre ++ join cols) ++ match imgs with [] => [] | _ => chars ", " end ++ c = pre ++ join (cols ++ [c]).
Proof.
  intros Hl. destruct imgs as [| a imgs], cols as [| b cols]; try easy; [now rewrite app_nil_r |].
  now rewrite join_snoc, <- !app_assoc.
Qed.

Lemma column_tracks pre cols imgs st c : tracks pre cols imgs st -> List.length cols = List.length imgs ->
  Forall (fun a => a <> []) imgs ->
  let st' := SQL_APPEND_COLUMN_NAME st c in
  st'.1.1 = OB_SUCCESS -> text_ st'.1.2 = pre ++ join (cols ++ [c]) /\ text_ st'.2 = join imgs.
Proof.
  destruct st as [[ret sql] values]. unfold tracks, SQL_APPEND_COLUMN_NAME. cbn [fst snd]. intros Ht Hl Hne.
  code_case ret; [easy |]. destruct (Ht Ecode) as [H1 H2]. destruct (sep_join values imgs Hne H2) as [-> _].
  pose proof (append_fmt_text sql (match imgs with [] => [] | _ => chars ", " end ++ c)) as Ha.
  destruct (append_fmt sql _) as [ret' sql']. cbn [fst snd] in *. intros E. split; [| exact H2].
  rewrite (Ha E), H1. now apply join_grow.
Qed.

Lemma value_tracks pre cols imgs st v c : tracks pre cols imgs st -> List.length cols = List.length imgs ->
  Forall (fun a => a <> []) imgs -> tracks pre (cols ++ [c]) (imgs ++ [v]) (SQL_COL_APPEND_VALUE st v c).
Proof.
  intros Ht Hl Hne. pose proof (column_tracks pre cols imgs st c Ht Hl Hne) as Hc.
  unfold SQL_COL_APPEND_VALUE. destruct (SQL_APPEND_COLUMN_NAME st c) as [[ret sql] values]. cbn [fst snd] in Hc.
  unfold tracks. code_case ret; [easy |]. destruct (Hc Ecode) as [H1 H2]. destruct (sep_join values imgs Hne H2) as [-> _].
  pose proof (append_fmt_text values (match imgs with [] => [] | _ => chars ", " end ++ v)) as Ha.
  destruct (append_fmt values _) as [ret' values']. cbn [fst snd] in *. intros E. split; [exact H1 |].
  rewrite (Ha E), H2. apply (join_grow [] imgs v imgs eq_refl).
Qed.

Lemma escape_tracks pre cols imgs st v c : tracks pre cols imgs st -> List.length cols = List.length imgs ->
  Forall (fun a => a <> []) imgs -> imgs <> [] ->
  tracks pre (cols ++ [c]) (imgs ++ [image (CStr v)]) (SQL_COL_APPEND_ESCAPE_STR_VALUE st v c).
Proof.
  intros Ht Hl Hne H0. pose proof (column_tracks pre cols imgs st c Ht Hl Hne) as Hc.
  unfold SQL_COL_APPEND_ESCAPE_STR_VALUE. destruct (SQL_APPEND_COLUMN_NAME st c) as [[ret sql] values]. cbn [fst snd] in Hc.
  unfold tracks. code_case ret; [easy |]. destruct (Hc Ecode) as [H1 H2]. destruct (sep_join values imgs Hne H2) as [_ ->].
  destruct imgs as [| a imgs]; [easy |].
  pose proof (append_text values (chars ", ")) as Ha. destruct (append values _) as [ret' values']. cbn [fst snd] in Ha.
  code_case ret'; [easy |]. pose proof (hex_escape_text values' v) as Hh.
  destruct (sql_append_hex_escape_str values' v) as [ret2 values2]. cbn [fst snd] in *. intros E. split; [exact H1 |].
  now rewrite (Hh E), (Ha Ecode0), H2, <- app_assoc, join_snoc.
Qed.

(** The row of a function. *)
Definition cells (u : ObPythonUDF.t) : list cell :=
  [CInt 0; CInt (ObPythonUDF.udf_id_ u); CStr (ObPythonUDF.name_ u); CInt (ObPythonUDF.arg_num_ u);
   CStr (ObPythonUDF.arg_names_ u); CStr (ObPythonUDF.arg_types_ u); CInt (enum_to (ObPythonUDF.ret_ u));
   CStr (ObPythonUDF.pycall_ u); CInt (ObPythonUDF.schema_version_ u)].
(** The ranges of the members of the C++ object. *)
Definition udf_bytes (u : ObPythonUDF.t) : Prop :=
  0 <= ObPythonUDF.udf_id_ u < W64 /\ - 2 ^ 31 <= ObPythonUDF.arg_num_ u < 2 ^ 31 /\
  - 2 ^ 63 <= ObPythonUDF.schema_version_ u < 2 ^ 63 /\
  Forall byte_ok (ObPythonUDF.name_ u) /\ Forall byte_ok (ObPythonUDF.arg_names_ u) /\
  Forall byte_ok (ObPythonUDF.arg_types_ u) /\ Forall byte_ok (ObPythonUDF.pycall_ u).

Lemma enum_to_range (r : PyUdfRetType) : 0 <= enum_to r <= 4.
Proof. destruct r; simpl; lia. Qed.
Lemma cells_ok u : udf_bytes u -> Forall cell_ok (cells u).
Proof.
  intros (H1 & H2 & H3 & H4 & H5 & H6 & H7). pose proof (enum_to_range (ObPythonUDF.ret_ u)). unfold W64 in H1.
  repeat constructor; cbn -[W64 enum_to]; unfold W64; first [assumption | lia].
Qed.

Lemma dec_u_d n : 0 <= n -> dec_u n = dec_d n.
Proof. intros. unfold dec_d. now rewrite (proj2 (Z.ltb_ge n 0)) by lia. Qed.

(** The columns are appended one by one. *)
Definition col_step (st : columns) (cv : bytes * cell) : columns :=
  match cv.2 with
  | CInt n => SQL_COL_APPEND_VALUE st (dec_d n) cv.1
  | CStr v => SQL_COL_APPEND_ESCAPE_STR_VALUE st v cv.1
  end.
Lemma insert_columns_fold u t st : 0 <= ObPythonUDF.udf_id_ u ->
  insert_columns u t st = foldl col_step st (zip udf_columns (cells u)).
Proof. intros Hid. unfold insert_columns, get_extract_schema_id. now rewrite (dec_u_d _ Hid). Qed.

Lemma step_tracks pre cols imgs st cv : tracks pre cols imgs st -> List.length cols = List.length imgs ->
  Forall (fun a => a <> []) imgs -> imgs <> [] \/ (exists n, cv.2 = CInt n) ->
  tracks pre (cols ++ [cv.1]) (imgs ++ [image cv.2]) (col_step st cv).
Proof.
  intros Ht Hl Hne H0. unfold col_step. destruct cv as [c [n | v]]; cbn [fst snd] in *; [now apply value_tracks |].
  apply escape_tracks; try assumption. destruct H0 as [H0 | [n H0]]; easy.
Qed.
Lemma fold_tracks pre cvs : forall cols imgs st, tracks pre cols imgs st -> List.length cols = List.length imgs ->
  Forall (fun a => a <> []) imgs -> imgs <> [] \/ (exists c n cvs', cvs = (c, CInt n) :: cvs') -> Forall (fun cv => cell_ok cv.2) cvs ->
  tracks pre (cols ++ cvs.*1) (imgs ++ map image cvs.*2) (foldl col_step st cvs).
Proof.
  induction cvs as [| cv cvs IH]; intros cols imgs st Ht Hl Hne H0 Hok; [now rewrite !app_nil_r |].
  inversion_clear Hok as [| ? ? Hc Hcs]. cbn [foldl fmap list_fmap map].
  rewrite (cons_middle cv.1), (cons_middle (image cv.2)), !app_assoc. apply IH; [| | | | exact Hcs].
  - apply step_tracks; try assumption. destruct H0 as [H0 | (c & n & cvs' & [= -> _])]; [now left | right; now exists n].
  - rewrite !length_app. simpl. lia.
  - apply Forall_app. split; [exact Hne | repeat constructor]. now apply image_nonempty.
  - left. now destruct imgs.
Qed.

Lemma cells_zip u : (zip udf_columns (cells u)).*1 = udf_columns /\ (zip udf_columns (cells u)).*2 = cells u.
Proof. split; reflexivity. Qed.
Lemma zip_ok u : udf_bytes u -> Forall (fun cv => cell_ok cv.2) (zip udf_columns (cells u)).
Proof. intros Hu. apply (Forall_fmap snd cell_ok (zip udf_columns (cells u))). now apply cells_ok. Qed.

Lemma insert_columns_tracks pre u sql t : udf_bytes u -> text_ sql = pre ->
  tracks pre udf_columns (map image (cells u)) (insert_columns u t (OB_SUCCESS, sql, empty)).
Proof.
  intros Hu Hs. pose proof (zip_ok u Hu) as Hok. destruct Hu as ((Hid & _) & _). rewrite insert_columns_fold by exact Hid.
  apply (fold_tracks pre (zip udf_columns (cells u)) [] []); [| easy | constructor | right; repeat eexists |].
  - intros _. cbn. now rewrite Hs, app_nil_r.
  - exact Hok.
Qed.
End Text.

(** ** With memory the appends succeed *)
Section Room.
Context `{Allocator} (Hmem : forall n, alloc_ok n = true).
Definition sized (s : ObSqlString.t) : Prop := 0 <= data_size_ s < 2 ^ 50.

Lemma grow_spec need n : forall x, 512 <= x < 2 ^ 50 -> need <= 2 ^ 49 -> need <= x * 2 ^ Z.of_nat n ->
  need <= grow n x need < 2 ^ 50.
Proof.
  induction n as [| n IH]; intros x Hx Hn Hb; cbn [grow]; [simpl in Hb; lia |].
  destruct (Z.ltb_spec x need); [| lia]. rewrite Z.shiftl_mul_pow2 by lia. change (2 ^ 1) with 2.
  unfold to_int64. rewrite swrap_small by lia. apply IH; [lia | lia |].
  rewrite Nat2Z.inj_succ, Z.pow_succ_r in Hb by lia. lia.
Qed.

Lemma reserve_room s n : sized s -> 0 <= n < 2 ^ 48 ->
  (reserve s n).1 = OB_SUCCESS /\ sized (reserve s n).2 /\ n < data_size_ (reserve s n).2.
Proof.
  unfold sized. intros Hs Hn. unfold reserve. rewrite (proj2 (Z.ltb_ge n 0)) by lia.
  destruct (Z.ltb_spec (data_size_ s) (n + 1)); [| cbn; lia].
  set (x := if MAX_SQL_STRING_LEN <? data_size_ s then data_size_ s else MAX_SQL_STRING_LEN).
  assert (512 <= x < 2 ^ 50) as Hx.
  { unfold x, MAX_SQL_STRING_LEN. destruct (Z.ltb_spec 512 (data_size_ s)); lia. }
  pose proof (grow_spec (n + 1) 64 x Hx ltac:(lia) ltac:(change (2 ^ Z.of_nat 64) with 18446744073709551616; lia)).
  rewrite (proj2 (Z.ltb_ge _ _)) by lia. unfold extend. rewrite (proj2 (Z.ltb_ge _ _)) by lia. rewrite Hmem. cbn [fst snd data_size_]. lia.
Qed.

Lemma append_room s str : sized s -> len_ s + length str < 2 ^ 48 ->
  (append s str).1 = OB_SUCCESS /\ sized (append s str).2.
Proof.
  intros Hs Hl. unfold append. destruct (reserve_room s (len_ s + length str) Hs) as (E & Hs' & _); [unfold len_, length in *; lia |].
  destruct (reserve s _) as [ret s']. cbn [fst snd] in *. code_case ret; easy.
Qed.
Lemma append_fmt_room s out : sized s -> length out < 2 ^ 31 -> len_ s + length out < 2 ^ 48 ->
  (append_fmt s out).1 = OB_SUCCESS /\ sized (append_fmt s out).2.
Proof.
  intros Hs H1 Hl. unfold append_fmt. rewrite (proj2 (Z.ltb_ge _ _)) by lia. case_match; [| easy].
  destruct (reserve_room s (length out + len_ s) Hs) as (E & Hs' & Hr); [unfold len_, length in *; lia |].
  pose proof (reserve_text s (length out + len_ s)) as Ht. destruct (reserve s _) as [ret s']. cbn [fst snd] in *.
  code_case ret; [easy |]. rewrite (proj2 (Z.leb_gt _ _)) by (unfold len_ in *; rewrite Ht; lia). easy.
Qed.
Lemma append_hex_room str : forall s, sized s -> len_ s + 2 * length str < 2 ^ 48 ->
  (append_hex s str).1 = OB_SUCCESS /\ sized (append_hex s str).2.
Proof.
  induction str as [| c str IH]; intros s Hs Hl; [easy |]. cbn [append_hex].
  assert (length (c :: str) = length str + 1) as Elen by (unfold length; simpl; lia). rewrite Elen in Hl.
  assert (0 <= length str) by (unfold length; lia). assert (length (hex_byte c) = 2) as E2 by reflexivity.
  destruct (append_fmt_room s (hex_byte c) Hs) as (E & Hs'); [lia | lia |].
  pose proof (append_fmt_text s (hex_byte c) E) as Ht. destruct (append_fmt s _) as [ret s']. cbn [fst snd] in *.
  code_case ret; [easy |]. apply IH; [exact Hs' |]. unfold len_, length in *. rewrite Ht, length_app. simpl. lia.
Qed.
Lemma hex_escape_room s str : sized s -> len_ s + 2 * length str + 3 < 2 ^ 48 ->
  (sql_append_hex_escape_str s str).1 = OB_SUCCESS /\ sized (sql_append_hex_escape_str s str).2.
Proof.
  intros Hs Hl. assert (0 <= length str) by (unfold length; lia). assert (0 <= len_ s) by (unfold len_, length; lia).
  unfold sql_append_hex_escape_str.
  destruct (reserve_room s (len_ s + length str * 2 + 3) Hs) as (E0 & Hs0 & _); [lia |].
  pose proof (reserve_text s (len_ s + length str * 2 + 3)) as T0. destruct (reserve s _) as [r0 s0]. cbn [fst snd] in *.
  code_case r0; [easy |]. assert (len_ s0 = len_ s) as L0 by (unfold len_; now rewrite T0).
  destruct (append_room s0 (chars "X'") Hs0) as (E1 & Hs1); [change (length (chars "X'")) with 2; lia |].
  pose proof (append_text s0 (chars "X'") E1) as T1. destruct (append s0 _) as [r1 s1]. cbn [fst snd] in *.
  code_case r1; [easy |]. assert (len_ s1 = len_ s + 2) as L1.
  { unfold len_, length in *. rewrite T1, length_app. simpl. lia. }
  destruct (append_hex_room str s1 Hs1) as (E2 & Hs2); [lia |].
  pose proof (append_hex_text str s1 E2) as T2. destruct (append_hex s1 str) as [r2 s2]. cbn [fst snd] in *.
  code_case r2; [easy |]. apply append_room; [exact Hs2 |]. change (length (chars "'")) with 1.
  assert (List.length (concat (map hex_byte str)) = 2 * List.length str)%nat as Lh.
  { clear. induction str as [| c str IH]; [reflexivity |]. cbn [map concat]. rewrite length_app, IH. simpl. lia. }
  unfold len_, length in *. rewrite T2, length_app, Lh. lia.
Qed.

(** The code is success and there is room. *)
Definition good (st : columns) : Prop := st.1.1 = OB_SUCCESS /\ sized st.1.2 /\ sized st.2.
Definition small (st : columns) (n : Z) : Prop := len_ st.1.2 < 2 ^ 40 /\ len_ st.2 < 2 ^ 40 /\ n < 2 ^ 30.

Lemma length_app_z (a b : bytes) : length (a ++ b) = length a + length b.
Proof. unfold length. rewrite length_app. lia. Qed.
Lemma sep_length values : length (sep values) <= 2.
Proof. unfold sep. case_match; unfold length; simpl; lia. Qed.

Lemma column_good st c : good st -> len_ st.1.2 < 2 ^ 40 -> length c < 2 ^ 30 ->
  good (SQL_APPEND_COLUMN_NAME st c) /\ (SQL_APPEND_COLUMN_NAME st c).2 = st.2.
Proof.
  destruct st as [[ret sql] values]. unfold good. cbn [fst snd]. intros (-> & Hs & Hv) Hl Hc.
  unfold SQL_APPEND_COLUMN_NAME. change (OB_SUCC OB_SUCCESS) with true. cbn iota.
  pose proof (sep_length values). destruct (append_fmt_room sql (sep values ++ c) Hs) as (E & Hs').
  { rewrite length_app_z. lia. } { rewrite length_app_z. lia. }
  destruct (append_fmt sql _) as [ret' sql']. cbn [fst snd] in *. auto.
Qed.
Lemma value_good st v c : good st -> small st (length v) -> length c < 2 ^ 30 -> good (SQL_COL_APPEND_VALUE st v c).
Proof.
  intros Hg (Hl & Hv & Hn) Hc. destruct (column_good st c Hg Hl Hc) as (Hg' & E). unfold SQL_COL_APPEND_VALUE.
  destruct (SQL_APPEND_COLUMN_NAME st c) as [[ret sql] values]. unfold good in *. cbn [fst snd] in *. subst values.
  destruct Hg' as (-> & Hs & Hvs). change (OB_SUCC OB_SUCCESS) with true. cbn iota.
  pose proof (sep_length st.2). destruct (append_fmt_room st.2 (sep st.2 ++ v) Hvs) as (E & Hs').
  { rewrite length_app_z. lia. } { rewrite length_app_z. lia. }
  destruct (append_fmt st.2 _) as [ret' sql']. cbn [fst snd] in *. auto.
Qed.
Lemma escape_good st v c : good st -> small st (length v) -> length c < 2 ^ 30 ->
  good (SQL_COL_APPEND_ESCAPE_STR_VALUE st v c).
Proof.
  intros Hg (Hl & Hv & Hn) Hc. destruct (column_good st c Hg Hl Hc) as (Hg' & E). unfold SQL_COL_APPEND_ESCAPE_STR_VALUE.
  destruct (SQL_APPEND_COLUMN_NAME st c) as [[ret sql] values]. unfold good in *. cbn [fst snd] in *. subst values.
  destruct Hg' as (-> & Hs & Hvs). change (OB_SUCC OB_SUCCESS) with true. cbn iota.
  set (q := if is_empty st.2 then chars "'" else chars ", ").
  assert (length q <= 2) as Hq by (unfold q; case_match; unfold length; simpl; lia).
  destruct (append_room st.2 q Hvs) as (E & Hs'); [lia |]. pose proof (append_text st.2 q E) as Ht.
  destruct (append st.2 q) as [ret' values']. cbn [fst snd] in *. code_case ret'; [easy |].
  destruct (hex_escape_room values' v Hs') as (E2 & Hs2); [unfold len_ in *; rewrite Ht, length_app_z; lia |].
  destruct (sql_append_hex_escape_str values' v) as [ret2 values2]. cbn [fst snd] in *. auto.
Qed.

Lemma dec_loop_length fuel : forall n acc, (List.length (dec_loop fuel n acc) <= fuel + List.length acc)%nat.
Proof.
  induction fuel as [| fuel IH]; intros n acc; cbn [dec_loop]; [lia |]. case_match; [simpl; lia |].
  etransitivity; [apply IH | simpl; lia].
Qed.
Lemma dec_d_length n : length (dec_d n) <= 21.
Proof.
  pose proof (dec_loop_length 20 n []). pose proof (dec_loop_length 20 (- n) []).
  unfold dec_d, dec_u, length. case_match; cbn [List.length] in *; lia.
Qed.
Lemma image_str_length s : length (image (CStr s)) = 2 * length s + 3.
Proof.
  cbn [image]. rewrite !length_app_z. change (length (chars "X'")) with 2. change (length (chars "'")) with 1.
  enough (length (concat (map hex_byte s)) = 2 * length s) by lia.
  induction s as [| c s IH]; [reflexivity |]. cbn [map concat]. rewrite length_app_z, IH. unfold length. simpl. lia.
Qed.
Lemma join_prefix_length a b : length (join a) <= length (join (a ++ b)).
Proof.
  induction a as [| x a IH]; [unfold length; simpl; lia |]. destruct a as [| y a].
  - destruct b as [| z b]; [cbn; lia |]. change ([x] ++ z :: b) with (x :: z :: b).
    rewrite join_cons, !length_app_z. cbn [join]. unfold length. lia.
  - change ((x :: y :: a) ++ b) with (x :: y :: (a ++ b)). rewrite !join_cons, !length_app_z.
    change (y :: a ++ b) with ((y :: a) ++ b). lia.
Qed.

(** The strings of the function are shorter than this: 64 KiB is the longest
    the table takes. *)
Definition udf_small (u : ObPythonUDF.t) : Prop :=
  length (ObPythonUDF.name_ u) < 2 ^ 27 /\ length (ObPythonUDF.arg_names_ u) < 2 ^ 27 /\
  length (ObPythonUDF.arg_types_ u) < 2 ^ 27 /\ length (ObPythonUDF.pycall_ u) < 2 ^ 27.
Lemma values_length u : udf_small u -> length (join (map image (cells u))) < 2 ^ 30 + 1000.
Proof.
  intros (H1 & H2 & H3 & H4). unfold cells. cbn [map]. rewrite !join_cons. cbn [join].
  rewrite !length_app_z, !image_str_length. cbn [image]. change (length (chars ", ")) with 2.
  pose proof (dec_d_length 0). pose proof (dec_d_length (ObPythonUDF.udf_id_ u)). pose proof (dec_d_length (ObPythonUDF.arg_num_ u)).
  pose proof (dec_d_length (enum_to (ObPythonUDF.ret_ u))). pose proof (dec_d_length (ObPythonUDF.schema_version_ u)). lia.
Qed.

Definition cell_small (v : cell) : Prop := match v with CInt _ => True | CStr s => length s < 2 ^ 27 end.
Lemma step_good st cv : good st -> len_ st.1.2 < 2 ^ 40 -> len_ st.2 < 2 ^ 40 -> cell_small cv.2 -> length cv.1 < 2 ^ 20 ->
  good (col_step st cv).
Proof.
  intros Hg H1 H2 Hc Hl. unfold col_step. destruct cv as [c [n | v]]; cbn [fst snd cell_small] in *.
  - apply value_good; [exact Hg | | lia]. pose proof (dec_d_length n). unfold small. lia.
  - apply escape_good; [exact Hg | | lia]. unfold small. lia.
Qed.
Lemma fold_good pre cvs : forall cols imgs st, tracks pre cols imgs st -> good st -> List.length cols = List.length imgs ->
  Forall (fun a => a <> []) imgs -> imgs <> [] \/ (exists c n cvs', cvs = (c, CInt n) :: cvs') ->
  Forall (fun cv => cell_ok cv.2 /\ cell_small cv.2 /\ length cv.1 < 2 ^ 20) cvs ->
  length pre + length (join (cols ++ cvs.*1)) < 2 ^ 40 -> length (join (imgs ++ map image cvs.*2)) < 2 ^ 40 ->
  good (foldl col_step st cvs).
Proof.
  induction cvs as [| cv cvs IH]; intros cols imgs st Ht Hg Hl Hne H0 Hok Hlc Hli; [exact Hg |].
  inversion_clear Hok as [| ? ? (Hc & Hs & Hn) Hcs]. cbn [foldl fmap list_fmap map] in *.
  destruct (Ht (proj1 Hg)) as [T1 T2]. 
  assert (length pre + length (join cols) < 2 ^ 40) as Hl1
    by (eapply Z.le_lt_trans; [apply Z.add_le_mono_l, join_prefix_length | exact Hlc]).
  assert (length (join imgs) < 2 ^ 40) as Hl2
    by (eapply Z.le_lt_trans; [apply join_prefix_length | exact Hli]).
  rewrite (cons_middle cv.1), app_assoc in Hlc. rewrite (cons_middle (image cv.2)), app_assoc in Hli.
  apply (IH (cols ++ [cv.1]) (imgs ++ [image cv.2])); try assumption.
  - apply step_tracks; try assumption. destruct H0 as [H0 | (c & n & cvs' & [= -> _])]; [now left | right; now exists n].
  - apply step_good; try assumption; unfold len_; rewrite ?T1, ?T2, ?length_app_z; lia.
  - rewrite !length_app. simpl. lia.
  - apply Forall_app. split; [exact Hne | repeat constructor]. now apply image_nonempty.
  - left. now destruct imgs.
Qed.

Lemma insert_columns_good u sql t : udf_bytes u -> udf_small u -> sized sql -> len_ sql < 2 ^ 20 ->
  good (insert_columns u t (OB_SUCCESS, sql, empty)).
Proof.
  intros Hu Hsm Hs Hl. pose proof (zip_ok u Hu) as Hok. pose proof (values_length u Hsm) as Hi.
  destruct Hu as ((Hid & _) & _). rewrite insert_columns_fold by exact Hid.
  assert (length (join udf_columns) = 83) as Hc by reflexivity. unfold len_ in Hl.
  apply (fold_good (text_ sql) (zip udf_columns (cells u)) [] []); [| | easy | constructor | right; repeat eexists | | |].
  - intros _. cbn. now rewrite app_nil_r.
  - unfold good. cbn [fst snd]. unfold sized, empty in *. cbn [data_size_]. lia.
  - destruct Hsm as (H1 & H2 & H3 & H4). apply Forall_and. split; [exact Hok |].
    repeat constructor; cbn [fst snd cell_small]; try exact I; try assumption; reflexivity.
  - rewrite (proj1 (cells_zip u)). cbn [app]. lia.
  - rewrite (proj2 (cells_zip u)). cbn [app]. lia.
Qed.
End Room.
