(* ===== verification/DdlRep.v ===== *)
(** The table [__all_python_udf] as a finite map from tenant and name to
    functions: what the statements of [UdfDdl] do to it. *)
From S2P Require Import Prelude FixedArray SEArray HashArray SortedVector UdfSchema.
From S2P Require Import Serialization UdfObject SqlText SqlClient UdfDdl SqlFacts DdlFacts.
Import ObString ObSqlString.

(** What the table keeps of a function. *)
Record Fn := mkFn {
  fn_id : Z; fn_name : bytes; fn_arg_num : Z; fn_arg_names : bytes; fn_arg_types : bytes; fn_ret : PyUdfRetType;
  fn_pycall : bytes; fn_version : Z
}.
Definition fn_of (u : ObPythonUDF.t) : Fn :=
  mkFn (ObPythonUDF.udf_id_ u) (ObPythonUDF.name_ u) (ObPythonUDF.arg_num_ u) (ObPythonUDF.arg_names_ u)
       (ObPythonUDF.arg_types_ u) (ObPythonUDF.ret_ u) (ObPythonUDF.pycall_ u) (ObPythonUDF.schema_version_ u).
(** The object of tenant [t] with model name [m] that holds it. *)
Definition of_fn (t : Z) (m : bytes) (f : Fn) : ObPythonUDF.t :=
  ObPythonUDF.mk OB_SUCCESS t (fn_id f) (fn_name f) m (fn_arg_num f) (fn_arg_names f) (fn_arg_types f) (fn_ret f)
                 (fn_pycall f) (fn_version f).
Definition fn_row (f : Fn) : bytes -> option cell := row_of udf_columns (cells (of_fn 0 [] f)).
Definition fn_ok (f : Fn) : Prop := udf_bytes (of_fn 0 [] f).

Lemma fn_row_of u c : row_of udf_columns (cells u) c = fn_row (fn_of u) c.
Proof. reflexivity. Qed.
Lemma fn_of_fn t m f : fn_of (of_fn t m f) = f.
Proof. now destruct f. Qed.

(** The columns of a row. *)
Lemma fn_columns f :
  fn_row f (chars "tenant_id") = Some (CInt 0) /\ fn_row f (chars "udf_id") = Some (CInt (fn_id f)) /\
  fn_row f (chars "name") = Some (CStr (fn_name f)) /\ fn_row f (chars "arg_num") = Some (CInt (fn_arg_num f)) /\
  fn_row f (chars "arg_names") = Some (CStr (fn_arg_names f)) /\ fn_row f (chars "arg_types") = Some (CStr (fn_arg_types f)) /\
  fn_row f (chars "ret") = Some (CInt (enum_to (fn_ret f))) /\ fn_row f (chars "pycall") = Some (CStr (fn_pycall f)) /\
  fn_row f (chars "schema_version") = Some (CInt (fn_version f)).
Proof. split_and!; reflexivity. Qed.

Lemma enum_to_inj (a b : PyUdfRetType) : enum_to a = enum_to b -> a = b.
Proof. now destruct a, b. Qed.
Lemma fn_row_inj f g : (forall c, fn_row f c = fn_row g c) -> f = g.
Proof.
  intros Hc. destruct (fn_columns f) as (_ & F2 & F3 & F4 & F5 & F6 & F7 & F8 & F9).
  destruct (fn_columns g) as (_ & G2 & G3 & G4 & G5 & G6 & G7 & G8 & G9).
  rewrite Hc in F2, F3, F4, F5, F6, F7, F8, F9. rewrite G2 in F2. rewrite G3 in F3. rewrite G4 in F4. rewrite G5 in F5.
  rewrite G6 in F6. rewrite G7 in F7. rewrite G8 in F8. rewrite G9 in F9.
  injection F7 as F7. apply enum_to_inj in F7. destruct f, g. simpl in *. congruence.
Qed.

Section Rep.
Context `{SqlLaws}.
Definition row_is (f : Fn) (r : Row) : Prop := forall c, column r c = fn_row f c.
Definition row_name (r : Row) : option bytes := name_key (column r).

(** The table stands for the catalogue. *)
Definition rep (d : Data) (g : gmap (Z * bytes) Fn) : Prop := forall t,
  NoDup (map row_name (rows d t)) /\
  (forall r, r ∈ rows d t -> exists f, fn_ok f /\ row_is f r) /\
  (forall k f, g !! (t, k) = Some f <-> exists r, r ∈ rows d t /\ row_is f r /\ collate (fn_name f) = k).

Lemma row_is_name f r : row_is f r -> row_name r = Some (collate (fn_name f)).
Proof. intros Hr. unfold row_name, name_key. rewrite Hr. now rewrite (proj1 (proj2 (proj2 (fn_columns f)))). Qed.
Lemma row_is_key f r : row_is f r -> key_of (column r) = Some (0, collate (fn_name f)).
Proof.
  intros Hr. unfold key_of. rewrite !Hr. destruct (fn_columns f) as (-> & _ & -> & _). reflexivity.
Qed.
Lemma row_is_inj f g r : row_is f r -> row_is g r -> f = g.
Proof. intros Hf Hg. apply fn_row_inj. intros c. now rewrite <- Hf, <- Hg. Qed.

Lemma rep_ok d g t k f : rep d g -> g !! (t, k) = Some f -> fn_ok f /\ collate (fn_name f) = k.
Proof.
  intros Hr Hg. destruct (Hr t) as (_ & Hrow & Hmap). apply Hmap in Hg as (r & Hin & Hf & Hk).
  destruct (Hrow r Hin) as (f' & Hok & Hf'). rewrite (row_is_inj f f' r Hf Hf') in *. auto.
Qed.

(** Data with the same rows stand for the same catalogue. *)
Lemma rep_same d d' g : rep d g -> (forall t, rows d' t = rows d t) -> rep d' g.
Proof. intros Hr Hs t. rewrite Hs. apply Hr. Qed.

Lemma rep_insert d d' g t f r : rep d g -> fn_ok f -> row_is f r -> rows d' t ≡ₚ r :: rows d t ->
  (forall t', t' <> t -> rows d' t' = rows d t') -> (forall r', r' ∈ rows d t -> row_name r' <> row_name r) ->
  rep d' (<[(t, collate (fn_name f)) := f]> g) /\ g !! (t, collate (fn_name f)) = None.
Proof.
  intros Hr Hok Hf Hp Hs Hnew. destruct (Hr t) as (Hnd & Hrow & Hmap).
  assert (g !! (t, collate (fn_name f)) = None) as Hnone.
  { destruct (g !! (t, collate (fn_name f))) as [f' |] eqn:E; [| reflexivity].
    apply Hmap in E as (r' & Hin & Hf' & Hk). destruct (Hnew r' Hin). rewrite (row_is_name f' r' Hf'), (row_is_name f r Hf). congruence. }
  split; [| exact Hnone]. intros t'. destruct (decide (t' = t)) as [-> | Hne].
  - split_and!.
    + rewrite Hp. cbn [map]. apply NoDup_cons. split; [| exact Hnd].
      intros (r' & E & Hin)%list_elem_of_fmap. now apply (Hnew r' Hin).
    + intros r' Hin. rewrite Hp in Hin. apply elem_of_cons in Hin as [-> | Hin]; [eauto | auto].
    + intros k f'. destruct (decide (k = collate (fn_name f))) as [-> | Hk].
      * rewrite lookup_insert_eq. split.
        -- intros [= <-]. exists r. rewrite Hp. split; [left | auto].
        -- intros (r' & Hin & Hf' & Hk). rewrite Hp in Hin. apply elem_of_cons in Hin as [-> | Hin].
           ++ f_equal. now apply (row_is_inj f f' r).
           ++ destruct (Hnew r' Hin). rewrite (row_is_name f' r' Hf'), (row_is_name f r Hf). congruence.
      * rewrite lookup_insert_ne by congruence. rewrite Hmap. split.
        -- intros (r' & Hin & Hf'). exists r'. rewrite Hp. split; [now right | exact Hf'].
        -- intros (r' & Hin & Hf' & Hk'). exists r'. rewrite Hp in Hin. apply elem_of_cons in Hin as [-> | Hin]; [| auto].
           destruct Hk. now rewrite <- Hk', (row_is_inj f f' r).
  - rewrite (Hs t' Hne). destruct (Hr t') as (Hnd' & Hrow' & Hmap'). split_and!; [exact Hnd' | exact Hrow' |].
    intros k f'. rewrite lookup_insert_ne by congruence. apply Hmap'.
Qed.

Lemma list_filter_elem (P : Row -> bool) l r : r ∈ List.filter P l <-> r ∈ l /\ P r = true.
Proof. rewrite !list_elem_of_In. apply filter_In. Qed.
Lemma NoDup_filter_map (P : Row -> bool) l : NoDup (map row_name l) -> NoDup (map row_name (List.filter P l)).
Proof.
  induction l as [| r l IH]; [easy |]. cbn [map List.filter]. intros (Hn & Hd)%NoDup_cons. case_match; [| auto].
  cbn [map]. apply NoDup_cons. split; [| auto]. intros (r' & E & Hin)%list_elem_of_fmap. apply Hn.
  apply list_elem_of_fmap. exists r'. split; [exact E |]. now apply list_filter_elem in Hin.
Qed.

Lemma rep_delete d d' g t k : rep d g ->
  rows d' t ≡ₚ List.filter (fun r => negb (bool_decide (row_name r = Some k))) (rows d t) ->
  (forall t', t' <> t -> rows d' t' = rows d t') -> rep d' (delete (t, k) g).
Proof.
  intros Hr Hp Hs t'. destruct (Hr t') as (Hnd & Hrow & Hmap). destruct (decide (t' = t)) as [-> | Hne].
  - split_and!.
    + rewrite Hp. now apply NoDup_filter_map.
    + intros r Hin. rewrite Hp in Hin. apply list_filter_elem in Hin as [Hin _]. auto.
    + intros k' f. destruct (decide (k' = k)) as [-> | Hk].
      * rewrite lookup_delete_eq. split; [easy |]. intros (r & Hin & Hf & Hk). rewrite Hp in Hin.
        apply list_filter_elem in Hin as [_ Hb]. rewrite (row_is_name f r Hf), Hk in Hb. now rewrite bool_decide_true in Hb.
      * rewrite lookup_delete_ne by congruence. rewrite Hmap. split; intros (r & Hin & Hf & Hk'); exists r; (split; [| auto]).
        -- rewrite Hp. apply list_filter_elem. split; [exact Hin |]. rewrite (row_is_name f r Hf).
           apply negb_true_iff, bool_decide_false. congruence.
        -- rewrite Hp in Hin. now apply list_filter_elem in Hin.
  - rewrite (Hs t' Hne). split_and!; [exact Hnd | exact Hrow |].
    intros k' f. rewrite lookup_delete_ne by congruence. apply Hmap.
Qed.

(** The rows with a name: one when the catalogue has the name, and otherwise none. *)
Lemma rows_named d g t k : rep d g ->
  match g !! (t, k) with
  | Some f => exists r, row_is f r /\ List.filter (fun r => bool_decide (row_name r = Some k)) (rows d t) = [r]
  | None => List.filter (fun r => bool_decide (row_name r = Some k)) (rows d t) = []
  end.
Proof.
  intros Hr. destruct (Hr t) as (Hnd & Hrow & Hmap).
  assert (forall r, r ∈ List.filter (fun r => bool_decide (row_name r = Some k)) (rows d t) ->
            exists f, row_is f r /\ g !! (t, k) = Some f) as Hin.
  { intros r (Hi & Hb)%list_filter_elem. apply bool_decide_eq_true in Hb. destruct (Hrow r Hi) as (f & _ & Hf).
    exists f. split; [exact Hf |]. apply Hmap. exists r. rewrite (row_is_name f r Hf) in Hb. split_and!; congruence. }
  apply (NoDup_filter_map (fun r => bool_decide (row_name r = Some k))) in Hnd.
  assert (forall r, r ∈ List.filter (fun r => bool_decide (row_name r = Some k)) (rows d t) -> row_name r = Some k) as Hname
    by (intros r (_ & Hb)%list_filter_elem; now apply bool_decide_eq_true in Hb).
  destruct (g !! (t, k)) as [f |] eqn:E.
  - pose proof (proj1 (Hmap k f) E) as (r & Hi & Hf & Hk). exists r. split; [exact Hf |].
    assert (r ∈ List.filter (fun r => bool_decide (row_name r = Some k)) (rows d t)) as Hi'.
    { apply list_filter_elem. split; [exact Hi |]. apply bool_decide_eq_true. now rewrite (row_is_name f r Hf), Hk. }
    destruct (List.filter _ (rows d t)) as [| a [| b l]]; [now apply not_elem_of_nil in Hi' | |].
    + now apply list_elem_of_singleton in Hi' as ->.
    + cbn [map] in Hnd. rewrite (Hname a) in Hnd by left. rewrite (Hname b) in Hnd by (right; left).
      apply NoDup_cons in Hnd as [Hnd _]. destruct Hnd. left.
  - destruct (List.filter _ (rows d t)) as [| a l]; [reflexivity |].
    destruct (Hin a) as (f & _ & Hf); [left | congruence].
Qed.

(** In a catalogue the tenant column says nothing. *)
Lemma has_key_name d g t name r : rep d g -> r ∈ rows d t -> has_key 0 name r = bool_decide (row_name r = Some (collate name)).
Proof.
  intros Hr Hin. destruct (proj1 (proj2 (Hr t)) r Hin) as (f & _ & Hf). unfold has_key.
  rewrite (row_is_key f r Hf), (row_is_name f r Hf). apply bool_decide_ext. split; congruence.
Qed.
Lemma filter_ext_in (P Q : Row -> bool) l : (forall r, r ∈ l -> P r = Q r) -> List.filter P l = List.filter Q l.
Proof.
  induction l as [| r l IH]; intros He; [reflexivity |]. cbn [List.filter]. rewrite (He r) by left.
  rewrite IH; [reflexivity | intros; apply He; now right].
Qed.
End Rep.
