(* ===== verification/DdlSteps.v ===== *)
(** The requests of [UdfDdl] on a table that stands for a catalogue: what each
    function does, whatever fails on the way, and what it does when nothing
    fails. *)
From S2P Require Import Prelude FixedArray SEArray HashArray SortedVector UdfSchema.
From S2P Require Import Serialization UdfObject SqlText SqlClient UdfDdl SqlFacts DdlFacts.
From S2P Require Import DdlRep.
Import ObString ObSqlString.

Lemma cells_fn u : cells u = cells (of_fn 0 [] (fn_of u)).
Proof. reflexivity. Qed.
Lemma udf_columns_ok : Forall (fun a => a <> [] /\ Forall (fun c => is_ident c = true) a) udf_columns.
Proof. repeat (constructor; [split; [easy |]; repeat constructor |]). constructor. Qed.
Lemma parse_insert_udf u : udf_bytes u -> parse (insert_sql udf_columns (cells u)) = Some (SInsert udf_columns (cells u)).
Proof. intros Hu. apply parse_insert; [exact udf_columns_ok | easy | now apply cells_ok | easy]. Qed.

Section Steps.
Context `{Hal : Allocator, Hlaws : SqlLaws}.
Abbreviation catalogue := (gmap (Z * bytes) Fn).

(** ** The statements *)
Lemma insert_statement_text u t : udf_bytes u -> (insert_statement u t).1 = OB_SUCCESS ->
  text_ (insert_statement u t).2 = insert_sql udf_columns (cells u).
Proof.
  intros Hu. unfold insert_statement, assign_fmt.
  pose proof (append_fmt_text (mk [] (data_size_ empty)) (chars "INSERT INTO __all_python_udf (")) as Ht.
  destruct (append_fmt _ (chars "INSERT INTO __all_python_udf (")) as [ret sql]. cbn [fst snd app text_] in Ht.
  code_case ret; [easy |]. specialize (Ht Ecode). subst ret.
  pose proof (insert_columns_tracks _ u sql t Hu Ht) as Htr. destruct (insert_columns u t _) as [[ret sql1] values].
  unfold tracks in Htr. cbn [fst snd] in Htr. code_case ret; [easy |]. destruct (Htr Ecode) as [T1 T2]. intros E.
  rewrite append_fmt_text by exact E. rewrite T1, T2. unfold insert_sql. now rewrite <- !app_assoc.
Qed.
Lemma insert_statement_room u t : (forall n, alloc_ok n = true) -> udf_bytes u -> udf_small u ->
  (insert_statement u t).1 = OB_SUCCESS.
Proof.
  intros Hmem Hu Hs. unfold insert_statement, assign_fmt.
  destruct (append_fmt_room Hmem (mk [] (data_size_ empty)) (chars "INSERT INTO __all_python_udf (")) as (E & Hsz); [easy | easy | easy |].
  pose proof (append_fmt_text _ _ E) as Ht.
  destruct (append_fmt _ (chars "INSERT INTO __all_python_udf (")) as [ret sql]. cbn [fst snd app text_] in *.
  subst ret. change (OB_FAIL OB_SUCCESS) with false. cbn iota.
  destruct (insert_columns_good Hmem u sql t Hu Hs Hsz) as (E1 & Hs1 & Hs2); [unfold len_; now rewrite Ht |].
  pose proof (insert_columns_tracks _ u sql t Hu Ht E1) as [T1 T2].
  destruct (insert_columns u t _) as [[ret sql1] values]. cbn [fst snd] in *. subst ret. change (OB_SUCC OB_SUCCESS) with true. cbn iota.
  pose proof (values_length u Hs) as Hl.
  assert (length (chars ") VALUES (" ++ text_ values ++ chars ")") < 2 ^ 31) as Hlen.
  { rewrite !length_app_z, T2. change (length (chars ") VALUES (")) with 10. change (length (chars ")")) with 1. lia. }
  apply append_fmt_room; [exact Hmem | exact Hs1 | exact Hlen |]. unfold len_. rewrite T1, length_app_z.
  change (length (join udf_columns)) with 83. change (length (chars "INSERT INTO __all_python_udf (")) with 30. lia.
Qed.

(** ** Writing *)
Definition key (t : Z) (name : bytes) : Z * bytes := (t, collate name).

Lemma insert_spec u d g : rep d g -> udf_bytes u ->
  let t := get_exec_tenant_id (ObPythonUDF.tenant_id_ u) in
  let '(ret, w) := insert_python_udf u d in
  ret = OB_SUCCESS ->
  ObPythonUDF.check_pycall u = OB_SUCCESS /\ g !! key t (ObPythonUDF.name_ u) = None /\
  rep w (<[key t (ObPythonUDF.name_ u) := fn_of u]> g).
Proof.
  intros Hr Hu t. unfold insert_python_udf. destruct (negb (is_valid u)); [easy |]. unfold add_python_udf. fold t.
  pose proof (insert_statement_text u t Hu) as Ht. destruct (insert_statement u t) as [ret sql]. cbn [fst snd] in Ht.
  code_case ret; [easy |]. rewrite (Ht Ecode). code_case (ObPythonUDF.check_pycall u); [easy |].
  destruct (sql_write t _ d) as [[ret1 n] w] eqn:Ew. code_case ret1; [easy |]. case_match; [easy |]. intros _. subst ret1.
  split; [exact Ecode0 |].
  destruct (insert_law t _ d _ _ n w (parse_insert_udf u Hu) Ew) as (_ & Hnew & (r & Hp & Hcol) & Hs).
  assert (row_is (fn_of u) r) as Hf by (intros c; now rewrite Hcol).
  destruct (rep_insert d w g t (fn_of u) r Hr Hu Hf Hp Hs) as [Hrep Hnone]; [| now split].
  intros r' Hin E. destruct (proj1 (proj2 (Hr t)) r' Hin) as (f' & _ & Hf'). apply (Hnew r' (0, collate (ObPythonUDF.name_ u)) Hin).
  - reflexivity.
  - rewrite (row_is_key f' r' Hf'). rewrite (row_is_name f' r' Hf'), (row_is_name _ r Hf) in E. injection E as ->. reflexivity.
Qed.

Lemma exec_tenant t : t <> OB_INVALID_TENANT_ID -> get_exec_tenant_id t = t.
Proof. intros Ht. unfold get_exec_tenant_id. destruct (Z.eqb_spec OB_INVALID_TENANT_ID t); [congruence | reflexivity]. Qed.

Definition delete_text (name : bytes) : bytes :=
  chars "DELETE FROM __all_python_udf WHERE tenant_id = " ++ dec_d 0 ++ chars " AND name='" ++ name ++ chars "'".
Lemma delete_spec tenant name d g : rep d g -> plain name ->
  let t := get_exec_tenant_id tenant in
  let '(ret, w) := delete_python_udf tenant name d in
  ret = OB_SUCCESS -> (exists f, g !! key t name = Some f) /\ rep w (delete (key t name) g).
Proof.
  intros Hr Hn t. unfold delete_python_udf, get_extract_tenant_id, OB_INVALID_TENANT_ID, assign_fmt. fold t.
  rewrite (plain_c_str name Hn). fold (delete_text name).
  pose proof (append_fmt_text (mk [] (data_size_ empty)) (delete_text name)) as Ht.
  destruct (append_fmt _ (delete_text name)) as [ret sql]. cbn [fst snd app text_] in Ht. code_case ret; [easy |].
  rewrite (Ht Ecode). destruct (sql_write t _ d) as [[ret1 n] w] eqn:Ew. code_case ret1; [easy |]. subst ret1.
  destruct (delete_law t _ d 0 name n w (parse_delete name Hn) Ew) as (En & Hp & Hs).
  assert (forall r, r ∈ rows d t -> has_key 0 name r = bool_decide (row_name r = Some (collate name))) as Hk
    by (intros; now apply (has_key_name d g t)).
  rewrite (filter_ext_in _ _ _ Hk) in En.
  rewrite (filter_ext_in _ (fun r => negb (bool_decide (row_name r = Some (collate name))))) in Hp by (intros; now rewrite Hk).
  pose proof (rows_named d g t (collate name) Hr) as Hrn. unfold key.
  destruct (g !! (t, collate name)) as [f |].
  - intros _. split; [eauto |]. now apply (rep_delete d).
  - rewrite Hrn in En. cbn in En. subst n. easy.
Qed.

(** ** Reading *)
(** A row of the catalogue fills an object, unless memory runs out. *)
Lemma fill_schema_spec t r u f : fn_ok f -> row_is f r ->
  exists ret u', fill_python_udf_schema t r u = Some (ret, u') /\
    (ret = OB_SUCCESS -> u' = of_fn t (ObPythonUDF.model_name_ u) f) /\
    ((forall n, alloc_ok n = true) -> ret = OB_SUCCESS) /\ ret <> OB_ITER_END.
Proof.
  intros (Hid & Han & Hv & _) Hr. destruct (fn_columns f) as (_ & F2 & F3 & F4 & F5 & F6 & F7 & F8 & F9).
  rewrite <- Hr in F2, F3, F4, F5, F6, F7, F8, F9. cbn [of_fn ObPythonUDF.udf_id_ ObPythonUDF.arg_num_ ObPythonUDF.schema_version_] in *.
  unfold fill_python_udf_schema, EXTRACT_VARCHAR, EXTRACT_INT, EXTRACT_RET.
  rewrite (get_varchar_law _ _ _ F3), (get_varchar_law _ _ _ F5), (get_varchar_law _ _ _ F6), (get_varchar_law _ _ _ F8).
  rewrite (get_int_law _ _ _ F2), (get_int_law _ _ _ F4), (get_int_law _ _ _ F7), (get_int_law _ _ _ F9).
  assert (to_int32 (enum_to (fn_ret f)) = enum_to (fn_ret f)) as -> by now destruct (fn_ret f).
  assert (enum_of (enum_to (fn_ret f)) = Some (fn_ret f)) as -> by now destruct (fn_ret f).
  rewrite uwrap64_small by exact Hid. unfold to_int32. rewrite swrap_small by lia.
  assert (forall s, (ObPythonUDF.deep_copy_str OB_SUCCESS s [] = (OB_SUCCESS, s)) \/
            (ObPythonUDF.deep_copy_str OB_SUCCESS s [] = (OB_ALLOCATE_MEMORY_FAILED, []) /\ ~ forall n, alloc_ok n = true)) as Hcopy.
  { intros s. unfold ObPythonUDF.deep_copy_str, ObSimplePythonUdfSchema.deep_copy_str. cbn [Z.eqb OB_SUCCESS]. case_match eqn:E1.
    - case_match eqn:E2; [now left | right; split; [reflexivity |]]. intros Hm. now rewrite Hm in E2.
    - left. destruct s; [reflexivity |]. unfold ObString.length in E1. simpl in E1. apply Z.ltb_ge in E1. lia. }
  destruct u as [e0 t0 i0 n0 m0 an0 ans0 ats0 r0 p0 v0].
  unfold ObPythonUDF.set_name, ObPythonUDF.set_arg_names, ObPythonUDF.set_arg_types, ObPythonUDF.set_pycall.
  assert (forall ret u', ret = OB_ALLOCATE_MEMORY_FAILED -> ~ (forall n, alloc_ok n = true) ->
    exists ret' u'', Some (ret, u') = Some (ret', u'') /\ (ret' = OB_SUCCESS -> u'' = of_fn t m0 f) /\
      ((forall n, alloc_ok n = true) -> ret' = OB_SUCCESS) /\ ret' <> OB_ITER_END) as Hfail
    by (intros ret u' -> Hno; exists OB_ALLOCATE_MEMORY_FAILED, u'; easy).
  cbn -[ObPythonUDF.deep_copy_str]. destruct (Hcopy (fn_name f)) as [-> | [-> Hno]]; [| now apply Hfail].
  cbn -[ObPythonUDF.deep_copy_str]. destruct (Hcopy (fn_arg_names f)) as [-> | [-> Hno]]; [| now apply Hfail].
  cbn -[ObPythonUDF.deep_copy_str]. destruct (Hcopy (fn_arg_types f)) as [-> | [-> Hno]]; [| now apply Hfail].
  cbn -[ObPythonUDF.deep_copy_str]. destruct (Hcopy (fn_pycall f)) as [-> | [-> Hno]]; [| now apply Hfail].
  eexists _, _. split; [reflexivity | easy].
Qed.

Definition known (rs : list Row) : Prop := forall r, r ∈ rs -> exists f, fn_ok f /\ row_is f r.

(** The loops over a result are defined, and end with the code of the last
    [next] unless memory runs out. *)
Lemma fetch_rows_ends t last rs : known rs -> last <> OB_SUCCESS -> forall ex u,
  exists ret ex' u', fetch_rows t rs last ex u = Some (ret, ex', u') /\ ret <> OB_SUCCESS /\
    (ret = OB_ITER_END -> last = OB_ITER_END) /\ ((forall n, alloc_ok n = true) -> ret = last).
Proof.
  intros Hk Hl. induction rs as [| r rs IH]; intros ex u; cbn [fetch_rows]; [exists last, ex, u; auto |].
  destruct (Hk r) as (f & Hok & Hf); [left |]. destruct (fill_schema_spec t r u f Hok Hf) as (ret & u' & -> & _ & Hm & Hi).
  cbn [mbind option_bind]. code_case ret; [| apply IH; intros r' Hin; apply Hk; now right].
  exists ret, true, u'. split_and!; [reflexivity | assumption | easy |]. intros Hmem. now specialize (Hm Hmem).
Qed.
Lemma fetch_ids_ends t last rs : known rs -> last <> OB_SUCCESS -> forall ex id,
  exists ret ex' id', fetch_ids t rs last ex id = Some (ret, ex', id') /\ ret <> OB_SUCCESS /\
    (ret = OB_ITER_END -> last = OB_ITER_END /\ ex' = ex || negb (bool_decide (rs = []))) /\
    ((forall n, alloc_ok n = true) -> ret = last).
Proof.
  intros Hk Hl. induction rs as [| r rs IH]; intros ex id; cbn [fetch_ids].
  { exists last, ex, id. rewrite bool_decide_true, orb_false_r by reflexivity. auto. }
  destruct (Hk r) as (f & Hok & Hf); [left |].
  destruct (fill_schema_spec t r ObPythonUDF.new f Hok Hf) as (ret & u' & -> & _ & Hm & Hi).
  cbn [mbind option_bind]. code_case ret.
  - exists ret, true, (ObPythonUDF.udf_id_ u'). split_and!; [reflexivity | assumption | easy |].
    intros Hmem. now specialize (Hm Hmem).
  - destruct (IH (fun r' Hin => Hk r' (list_elem_of_further _ _ _ Hin)) true (ObPythonUDF.udf_id_ u')) as (ret' & ex' & id' & E & H1 & H2 & H3).
    exists ret', ex', id'. split_and!; [exact E | exact H1 | | exact H3]. intros Hr. destruct (H2 Hr) as [-> ->].
    rewrite (bool_decide_false (r :: rs = [])) by easy. split; [reflexivity |]. now destruct ex.
Qed.

Definition select_text (name : bytes) : bytes := chars "SELECT * FROM __all_python_udf WHERE name = '" ++ name ++ chars "'".
Lemma select_sql_text name : plain name -> (select_sql name).1 = OB_SUCCESS -> text_ (select_sql name).2 = select_text name.
Proof.
  intros Hn. unfold select_sql. rewrite (plain_c_str name Hn). apply (append_fmt_text empty).
Qed.
Lemma select_sql_room name : (forall n, alloc_ok n = true) -> plain name -> length name < 2 ^ 27 -> (select_sql name).1 = OB_SUCCESS.
Proof.
  intros Hmem Hn Hl. unfold select_sql. rewrite (plain_c_str name Hn).
  assert (length (chars "SELECT * FROM __all_python_udf WHERE name = '" ++ name ++ chars "'") = length name + 46) as E.
  { rewrite !length_app_z. change (length (chars "SELECT * FROM __all_python_udf WHERE name = '")) with 45.
    change (length (chars "'")) with 1. lia. }
  apply append_fmt_room; [exact Hmem | easy | |]; rewrite E; [lia | change (len_ empty) with 0; lia].
Qed.

(** A result of the catalogue. *)
Lemma result_spec d g t name rs last : rep d g -> plain name ->
  sql_read t (select_text name) d = (OB_SUCCESS, Some (rs, last)) ->
  known rs /\ last <> OB_SUCCESS /\
  (last = OB_ITER_END ->
   match g !! key t name with Some f => exists r, rs = [r] /\ fn_ok f /\ row_is f r | None => rs = [] end).
Proof.
  intros Hr Hn E. pose proof (parse_select name Hn) as Hp. fold (select_text name) in Hp. split_and!.
  - intros r Hin. apply (proj1 (proj2 (Hr t))). exact (select_rows t _ d name _ rs last r Hp E Hin).
  - exact (next_not_success t _ d _ rs last E).
  - intros ->. pose proof (select_law t _ d name rs Hp E) as Hs. pose proof (rows_named d g t (collate name) Hr) as Hrn.
    unfold key. change (List.filter (has_name name) (rows d t))
      with (List.filter (fun r => bool_decide (row_name r = Some (collate name))) (rows d t)) in Hs.
    destruct (g !! (t, collate name)) as [f |] eqn:Eg.
    + destruct Hrn as (r & Hf & Hrn). rewrite Hrn in Hs. exists r.
      split_and!; [now apply Permutation_singleton_r in Hs | exact (proj1 (rep_ok d g t _ f Hr Eg)) | exact Hf].
    + rewrite Hrn in Hs. now apply Permutation_nil_r in Hs.
Qed.

Lemma iter_end_code ret : ret <> OB_SUCCESS -> (if negb (ret =? OB_ITER_END) then ret else OB_SUCCESS) = OB_SUCCESS -> ret = OB_ITER_END.
Proof. intros Hne. destruct (Z.eqb_spec ret OB_ITER_END); [easy | now intros]. Qed.

Lemma lookup_spec d g t name u : rep d g -> plain name ->
  exists ret ex u', get_python_udf_info t name u d = Some (ret, ex, u') /\
    (ret = OB_SUCCESS ->
     match g !! key t name with
     | Some f => ex = true /\ u' = of_fn t (ObPythonUDF.model_name_ u) f
     | None => ex = false /\ u' = u
     end).
Proof.
  intros Hr Hn. unfold get_python_udf_info. case_match; [eexists _, _, _; split; [reflexivity | easy] |].
  pose proof (select_sql_text name Hn) as Ht. destruct (select_sql name) as [ret sql]. cbn [fst snd] in Ht.
  code_case ret; [eexists _, _, _; split; [reflexivity | easy] |]. rewrite (Ht Ecode).
  destruct (sql_read t _ d) as [ret1 result] eqn:Er. code_case ret1; [eexists _, _, _; split; [reflexivity | easy] |]. subst ret1.
  destruct result as [[rs last] |]; [| eexists _, _, _; split; [reflexivity | easy]].
  destruct (result_spec d g t name rs last Hr Hn Er) as (Hk & Hl & Hcase).
  destruct (fetch_rows_ends t last rs Hk Hl false u) as (ret1 & ex & u' & Ef & Hne & Hit & _). rewrite Ef. cbn [mbind option_bind].
  eexists _, _, _. split; [reflexivity |]. intros Hs. apply (iter_end_code ret1 Hne) in Hs. specialize (Hcase (Hit Hs)).
  destruct (g !! key t name) as [f |]; [| subst rs; cbn in Ef; now injection Ef as _ <- <-].
  destruct Hcase as (r & -> & Hok & Hf). destruct (fill_schema_spec t r u f Hok Hf) as (ret2 & u2 & E2 & Hu & _ & Hi).
  cbn [fetch_rows] in Ef. rewrite E2 in Ef. cbn [mbind option_bind] in Ef. code_case ret2.
  - injection Ef as <- <- <-. congruence.
  - injection Ef as <- <- <-. auto.
Qed.
Lemma exist_spec d g t name : rep d g -> plain name ->
  exists ret ex id, check_python_udf_exist t name d = Some (ret, ex, id) /\
    (ret = OB_SUCCESS -> ex = bool_decide (is_Some (g !! key t name))).
Proof.
  intros Hr Hn. unfold check_python_udf_exist. case_match; [eexists _, _, _; split; [reflexivity | easy] |].
  pose proof (select_sql_text name Hn) as Ht. destruct (select_sql name) as [ret sql]. cbn [fst snd] in Ht.
  code_case ret; [eexists _, _, _; split; [reflexivity | easy] |]. rewrite (Ht Ecode).
  destruct (sql_read t _ d) as [ret1 result] eqn:Er. code_case ret1; [eexists _, _, _; split; [reflexivity | easy] |]. subst ret1.
  destruct result as [[rs last] |]; [| eexists _, _, _; split; [reflexivity | easy]].
  destruct (result_spec d g t name rs last Hr Hn Er) as (Hk & Hl & Hcase).
  destruct (fetch_ids_ends t last rs Hk Hl false OB_INVALID_ID) as (ret1 & ex & id & Ef & Hne & Hit & _). rewrite Ef. cbn [mbind option_bind].
  eexists _, _, _. split; [reflexivity |]. intros Hs. apply (iter_end_code ret1 Hne) in Hs. destruct (Hit Hs) as [Hlast ->].
  specialize (Hcase Hlast). destruct (g !! key t name) as [f |].
  - destruct Hcase as (r & -> & _). rewrite (bool_decide_true (is_Some _)) by eauto. reflexivity.
  - subst rs. rewrite (bool_decide_false (is_Some _)) by now intros []. reflexivity.
Qed.

(** ** When nothing fails *)
Section Healthy.
Context (Hmem : forall n, alloc_ok n = true) (Hup : forall t text d, sql_up t text d = true).

Lemma read_healthy t name d : plain name -> exists rs, sql_read t (select_text name) d = (OB_SUCCESS, Some (rs, OB_ITER_END)).
Proof. intros Hn. exact (up_select t (select_text name) d name (Hup _ _ _) (parse_select name Hn)). Qed.

Lemma lookup_healthy d g t name u : rep d g -> plain name -> name <> [] -> length name < 2 ^ 27 -> t <> OB_INVALID_ID ->
  get_python_udf_info t name u d =
  Some (match g !! key t name with
        | Some f => (OB_SUCCESS, true, of_fn t (ObPythonUDF.model_name_ u) f)
        | None => (OB_SUCCESS, false, u)
        end).
Proof.
  intros Hr Hn Hne Hl Ht. destruct (lookup_spec d g t name u Hr Hn) as (ret & ex & u' & E & Hs).
  enough (ret = OB_SUCCESS) as ->.
  { rewrite E. specialize (Hs eq_refl). destruct (g !! key t name); destruct Hs as [-> ->]; reflexivity. }
  revert E. unfold get_python_udf_info.
  assert ((OB_INVALID_ID =? t) || ObString.empty name = false) as ->.
  { apply orb_false_iff. split; [apply Z.eqb_neq; congruence |]. now destruct name. }
  pose proof (select_sql_room name Hmem Hn Hl) as E1. pose proof (select_sql_text name Hn E1) as Et.
  destruct (select_sql name) as [r1 sql]. cbn [fst snd] in *. subst r1. rewrite Et. change (OB_FAIL OB_SUCCESS) with false. cbn iota.
  destruct (read_healthy t name d Hn) as (rs & Er). rewrite Er. change (OB_FAIL OB_SUCCESS) with false. cbn iota.
  destruct (result_spec d g t name rs _ Hr Hn Er) as (Hk & Hlast & _).
  destruct (fetch_rows_ends t _ rs Hk Hlast false u) as (r2 & ex2 & u2 & -> & _ & _ & Hm). rewrite (Hm Hmem).
  cbn. now intros [= <- _ _].
Qed.
Lemma exist_healthy d g t name : rep d g -> plain name -> name <> [] -> length name < 2 ^ 27 -> t <> OB_INVALID_ID ->
  exists id, check_python_udf_exist t name d = Some (OB_SUCCESS, bool_decide (is_Some (g !! key t name)), id).
Proof.
  intros Hr Hn Hne Hl Ht. destruct (exist_spec d g t name Hr Hn) as (ret & ex & id & E & Hs).
  enough (ret = OB_SUCCESS) as ->. { rewrite E, (Hs eq_refl). eauto. }
  revert E. unfold check_python_udf_exist.
  assert ((OB_INVALID_ID =? t) || ObString.empty name = false) as ->.
  { apply orb_false_iff. split; [apply Z.eqb_neq; congruence |]. now destruct name. }
  pose proof (select_sql_room name Hmem Hn Hl) as E1. pose proof (select_sql_text name Hn E1) as Et.
  destruct (select_sql name) as [r1 sql]. cbn [fst snd] in *. subst r1. rewrite Et. change (OB_FAIL OB_SUCCESS) with false. cbn iota.
  destruct (read_healthy t name d Hn) as (rs & Er). rewrite Er. change (OB_FAIL OB_SUCCESS) with false. cbn iota.
  destruct (result_spec d g t name rs _ Hr Hn Er) as (Hk & Hlast & _).
  destruct (fetch_ids_ends t _ rs Hk Hlast false OB_INVALID_ID) as (r2 & ex2 & u2 & -> & _ & _ & Hm). rewrite (Hm Hmem).
  cbn. now intros [= <- _ _].
Qed.

Lemma insert_healthy u d g : rep d g -> udf_bytes u -> udf_small u -> is_valid u = true ->
  Forall2 (fun c v => fits c v = true) udf_columns (cells u) ->
  let t := get_exec_tenant_id (ObPythonUDF.tenant_id_ u) in
  (insert_python_udf u d).1 =
  if OB_FAIL (ObPythonUDF.check_pycall u) then ObPythonUDF.check_pycall u
  else if bool_decide (is_Some (g !! key t (ObPythonUDF.name_ u))) then OB_ERR_PRIMARY_KEY_DUPLICATE else OB_SUCCESS.
Proof.
  intros Hr Hu Hs Hv Hf t. unfold insert_python_udf. rewrite Hv. cbn [negb]. unfold add_python_udf. fold t.
  pose proof (insert_statement_room u t Hmem Hu Hs) as E1. pose proof (insert_statement_text u t Hu E1) as Et.
  destruct (insert_statement u t) as [r1 sql]. cbn [fst snd] in *. subst r1. rewrite Et. change (OB_FAIL OB_SUCCESS) with false. cbn iota.
  code_case (ObPythonUDF.check_pycall u); [reflexivity |].
  pose proof (up_insert t _ d (cells u) (0, collate (ObPythonUDF.name_ u)) (Hup _ _ _) (parse_insert_udf u Hu) Hf eq_refl) as Ew.
  assert (existsb (fun r => bool_decide (key_of (column r) = Some (0, collate (ObPythonUDF.name_ u)))) (rows d t)
          = bool_decide (is_Some (g !! key t (ObPythonUDF.name_ u)))) as Eex.
  { apply eq_bool_prop_intro. rewrite bool_decide_spec, Is_true_true, existsb_exists. unfold key. split.
    - intros (r & Hin & Hb). apply bool_decide_eq_true in Hb. apply list_elem_of_In in Hin.
      destruct (proj1 (proj2 (Hr t)) r Hin) as (f & _ & Hf'). exists f. apply (proj2 (proj2 (Hr t))). exists r.
      rewrite (row_is_key f r Hf') in Hb. split_and!; congruence.
    - intros (f & Hg). apply (proj2 (proj2 (Hr t))) in Hg as (r & Hin & Hf' & Hk). exists r. split; [now apply list_elem_of_In |].
      apply bool_decide_eq_true. now rewrite (row_is_key f r Hf'), Hk. }
  rewrite Eex in Ew. destruct (sql_write t _ d) as [[ret n] w] eqn:Esql. cbn [fst snd] in Ew. subst ret.
  destruct (bool_decide _); [reflexivity |]. change (OB_FAIL OB_SUCCESS) with false. cbn iota.
  now destruct (insert_law t _ d _ _ n w (parse_insert_udf u Hu) Esql) as (-> & _).
Qed.

Lemma delete_healthy tenant name d g : rep d g -> plain name -> length name < 2 ^ 27 ->
  is_Some (g !! key (get_exec_tenant_id tenant) name) -> (delete_python_udf tenant name d).1 = OB_SUCCESS.
Proof.
  intros Hr Hn Hl [f Hg]. unfold delete_python_udf, get_extract_tenant_id, OB_INVALID_TENANT_ID, assign_fmt.
  set (t := get_exec_tenant_id tenant) in *. rewrite (plain_c_str name Hn). fold (delete_text name).
  assert (length (delete_text name) = length name + 60) as El.
  { unfold delete_text. rewrite !length_app_z. change (length (dec_d 0)) with 1. change (length (chars " AND name='")) with 11.
    change (length (chars "'")) with 1. change (length (chars "DELETE FROM __all_python_udf WHERE tenant_id = ")) with 47. lia. }
  destruct (append_fmt_room Hmem (mk [] (data_size_ empty)) (delete_text name)) as (E1 & _); [easy | lia | change (len_ (mk [] (data_size_ empty))) with 0; lia |].
  pose proof (append_fmt_text _ _ E1) as Et. destruct (append_fmt _ (delete_text name)) as [r1 sql]. cbn [fst snd app text_] in *.
  subst r1. rewrite Et. change (OB_FAIL OB_SUCCESS) with false. cbn iota.
  pose proof (up_delete t _ d 0 name (Hup _ _ _) (parse_delete name Hn)) as Ew. fold (delete_text name) in Ew.
  destruct (sql_write t _ d) as [[ret n] w] eqn:Esql. cbn [fst snd] in Ew. subst ret. change (OB_FAIL OB_SUCCESS) with false. cbn iota.
  destruct (delete_law t _ d 0 name n w (parse_delete name Hn) Esql) as (En & _).
  rewrite (filter_ext_in _ (fun r => bool_decide (row_name r = Some (collate name)))) in En
    by (intros; now apply (has_key_name d g t)).
  pose proof (rows_named d g t (collate name) Hr) as Hrn. unfold key in Hg. rewrite Hg in Hrn. destruct Hrn as (r & _ & Hrn).
  rewrite Hrn in En. cbn in En. now subst n.
Qed.
End Healthy.
End Steps.
