(* ===== verification/DdlRequests.v ===== *)
(** Requests to the root server to create and drop Python functions, as steps
    on a catalogue: a finite map from tenant and name to functions. *)
From S2P Require Import Prelude FixedArray SEArray HashArray SortedVector UdfSchema.
From S2P Require Import Serialization UdfObject SqlText SqlClient UdfDdl SqlFacts DdlFacts.
From S2P Require Import DdlRep DdlSteps.
Import ObString ObSqlString.

(** Codes known to be failures. *)
Ltac codes :=
  repeat match goal with
  | H : ?x <> OB_SUCCESS |- context [OB_SUCC ?x] => rewrite (proj2 (OB_SUCC_false x) H)
  | H : ?x <> OB_SUCCESS |- context [OB_FAIL ?x] => rewrite (proj2 (OB_FAIL_true x) H)
  end; cbn beta iota.

Inductive request := Create (arg : ObPythonUDF.t) | Drop (arg : ObDropPythonUdfArg).

(** The function the table gets for a request, with the id and the version of
    the server. *)
Definition made (e : Env) (u : ObPythonUDF.t) : Fn :=
  mkFn (fetch_new_python_udf_id e).2 (ObPythonUDF.name_ u) (ObPythonUDF.arg_num_ u) (ObPythonUDF.arg_names_ u)
       (ObPythonUDF.arg_types_ u) (ObPythonUDF.ret_ u) (ObPythonUDF.pycall_ u) (gen_new_schema_version e).2.

(** The values of the server and of a request have the ranges of their types,
    names are plain text, and the tenant is one. *)
Definition env_ok (e : Env) : Prop :=
  0 <= (fetch_new_python_udf_id e).2 < W64 /\ - 2 ^ 63 <= (gen_new_schema_version e).2 < 2 ^ 63.
Definition tenant_ok (t : Z) : Prop := t <> OB_INVALID_TENANT_ID /\ t <> OB_INVALID_ID.
Definition arg_ok (u : ObPythonUDF.t) : Prop :=
  tenant_ok (ObPythonUDF.tenant_id_ u) /\ plain (ObPythonUDF.name_ u) /\ - 2 ^ 31 <= ObPythonUDF.arg_num_ u < 2 ^ 31 /\
  Forall byte_ok (ObPythonUDF.arg_names_ u) /\ Forall byte_ok (ObPythonUDF.arg_types_ u) /\ Forall byte_ok (ObPythonUDF.pycall_ u).
Definition request_ok (rq : request) : Prop :=
  match rq with Create u => arg_ok u | Drop a => tenant_ok (drop_tenant_id_ a) /\ plain (drop_name_ a) end.

Section Requests.
Context `{Hal : Allocator, Hlaws : SqlLaws}.
Abbreviation catalogue := (gmap (Z * bytes) Fn).

Definition serve (e : Env) (rq : request) (d : Data) : option (Z * Data) :=
  match rq with Create u => root_create_python_udf e u d | Drop a => root_drop_python_udf e a d end.
Fixpoint serve_all (rqs : list (Env * request)) (d : Data) : option (list Z * Data) :=
  match rqs with
  | [] => Some ([], d)
  | (e, rq) :: rqs' => '(ret, d) ← serve e rq d; '(rets, d) ← serve_all rqs' d; Some (ret :: rets, d)
  end.

(** The answer to a change that took effect: that of [publish_schema], or that
    of a commit which failed and yet took effect. *)
Definition late (e : Env) (ret : Z) : Prop :=
  ret = publish_schema e \/ (ret = trans_end e true /\ ret <> OB_SUCCESS /\ commit_applied e = true).

Inductive cat_step (e : Env) (g : catalogue) : request -> Z -> catalogue -> Prop :=
| step_refused rq ret : ret <> OB_SUCCESS -> cat_step e g rq ret g
| step_created u ret :
    ObPythonUDF.check_pycall u = OB_SUCCESS -> g !! key (ObPythonUDF.tenant_id_ u) (ObPythonUDF.name_ u) = None ->
    late e ret -> cat_step e g (Create u) ret (<[key (ObPythonUDF.tenant_id_ u) (ObPythonUDF.name_ u) := made e u]> g)
| step_dropped a f ret :
    g !! key (drop_tenant_id_ a) (drop_name_ a) = Some f -> late e ret ->
    cat_step e g (Drop a) ret (delete (key (drop_tenant_id_ a) (drop_name_ a)) g)
| step_absent a :
    g !! key (drop_tenant_id_ a) (drop_name_ a) = None -> if_exist_ a = true -> cat_step e g (Drop a) OB_SUCCESS g.
Inductive cat_steps : catalogue -> list (Env * request) -> list Z -> catalogue -> Prop :=
| steps_done g : cat_steps g [] [] g
| steps_next g e rq ret g1 rqs rets g2 :
    cat_step e g rq ret g1 -> cat_steps g1 rqs rets g2 -> cat_steps g ((e, rq) :: rqs) (ret :: rets) g2.

(** ** The copy the root server makes of the request *)
Lemma copy_str_cases (e : Z) (s : bytes) : (ObPythonUDF.deep_copy_str e s []).1 = OB_SUCCESS ->
  e = OB_SUCCESS /\ (ObPythonUDF.deep_copy_str e s []).2 = s.
Proof.
  unfold ObPythonUDF.deep_copy_str, ObSimplePythonUdfSchema.deep_copy_str. destruct (Z.eqb_spec e OB_SUCCESS); [| easy].
  destruct (Z.ltb_spec 0 (ObString.length s)); [destruct (alloc_ok _); [auto | easy] |]. intros _. split; [assumption |].
  destruct s; [reflexivity |]. unfold ObString.length in *. simpl in *. lia.
Qed.
Lemma copy_str_bytes (e : Z) (s : bytes) : Forall byte_ok s -> Forall byte_ok (ObPythonUDF.deep_copy_str e s []).2.
Proof.
  intros Hs. unfold ObPythonUDF.deep_copy_str, ObSimplePythonUdfSchema.deep_copy_str. repeat case_match; cbn; auto.
Qed.

(** The copy of a string, after the code of the one before. *)
Lemma copy_next_cases ret e s : (if OB_SUCC ret then ObPythonUDF.deep_copy_str e s [] else (ret, [])).1 = OB_SUCCESS ->
  ret = OB_SUCCESS /\ (if OB_SUCC ret then ObPythonUDF.deep_copy_str e s [] else (ret, [])).2 = s.
Proof.
  code_case ret; [easy |]. intros E. split; [assumption | now apply copy_str_cases].
Qed.
Lemma copy_next_bytes ret e s : Forall byte_ok s -> Forall byte_ok (if OB_SUCC ret then ObPythonUDF.deep_copy_str e s [] else (ret, [])).2.
Proof. intros Hs. case_match; [now apply copy_str_bytes | constructor]. Qed.

Definition copied (u : ObPythonUDF.t) : ObPythonUDF.t := ObPythonUDF.op_assign ObPythonUDF.new u.
Lemma copied_strings u :
  (is_valid (copied u) = true ->
   ObPythonUDF.name_ (copied u) = ObPythonUDF.name_ u /\ ObPythonUDF.arg_names_ (copied u) = ObPythonUDF.arg_names_ u /\
   ObPythonUDF.arg_types_ (copied u) = ObPythonUDF.arg_types_ u /\ ObPythonUDF.pycall_ (copied u) = ObPythonUDF.pycall_ u) /\
  (arg_ok u -> Forall byte_ok (ObPythonUDF.name_ (copied u)) /\ Forall byte_ok (ObPythonUDF.arg_names_ (copied u)) /\
   Forall byte_ok (ObPythonUDF.arg_types_ (copied u)) /\ Forall byte_ok (ObPythonUDF.pycall_ (copied u))).
Proof.
  unfold is_valid, copied, ObPythonUDF.op_assign, arg_ok. change (ObPythonUDF.name_ (ObPythonUDF.reset _)) with (@nil Z).
  change (ObPythonUDF.arg_names_ (ObPythonUDF.reset _)) with (@nil Z). change (ObPythonUDF.arg_types_ (ObPythonUDF.reset _)) with (@nil Z).
  change (ObPythonUDF.pycall_ (ObPythonUDF.reset _)) with (@nil Z). set (e := ObPythonUDF.error_ret_ u).
  pose proof (copy_str_cases e (ObPythonUDF.name_ u)) as H1. pose proof (copy_str_bytes e (ObPythonUDF.name_ u)) as B1.
  destruct (ObPythonUDF.deep_copy_str e (ObPythonUDF.name_ u) []) as [r1 v1].
  pose proof (copy_next_cases r1 e (ObPythonUDF.arg_names_ u)) as H2. pose proof (copy_next_bytes r1 e (ObPythonUDF.arg_names_ u)) as B2.
  destruct (if OB_SUCC r1 then _ else _) as [r2 v2].
  pose proof (copy_next_cases r2 e (ObPythonUDF.arg_types_ u)) as H3. pose proof (copy_next_bytes r2 e (ObPythonUDF.arg_types_ u)) as B3.
  destruct (if OB_SUCC r2 then _ else _) as [r3 v3].
  pose proof (copy_next_cases r3 e (ObPythonUDF.pycall_ u)) as H4. pose proof (copy_next_bytes r3 e (ObPythonUDF.pycall_ u)) as B4.
  destruct (if OB_SUCC r3 then _ else _) as [r4 v4]. cbn [fst snd ObPythonUDF.error_ret_ ObPythonUDF.name_ ObPythonUDF.arg_names_ ObPythonUDF.arg_types_ ObPythonUDF.pycall_] in *.
  split; [| intros (_ & Hn & _ & Ha & Hb & Hc); auto using plain_bytes].
  code_case r4; [intros E; apply Z.eqb_eq in E; congruence |]. intros _.
  destruct (H4 Ecode) as [E3 ->], (H3 E3) as [E2 ->], (H2 E2) as [E1 ->], (H1 E1) as [_ ->]. auto.
Qed.
Lemma copied_healthy u : (forall n, alloc_ok n = true) -> is_valid u = true -> is_valid (copied u) = true.
Proof.
  intros Hm Hv. unfold is_valid in *. apply Z.eqb_eq in Hv. unfold copied, ObPythonUDF.op_assign. rewrite <- Hv.
  repeat (unfold ObPythonUDF.deep_copy_str; rewrite ObSimplePythonUdfSchema.deep_copy_str_ok by exact Hm;
    change (OB_SUCC OB_SUCCESS) with true; cbn iota). reflexivity.
Qed.

(** The object the operator inserts. *)
Definition numbered (e : Env) (u : ObPythonUDF.t) : ObPythonUDF.t :=
  set_schema_version (set_udf_id (copied u) (fetch_new_python_udf_id e).2) (gen_new_schema_version e).2.
Lemma numbered_bytes e u : env_ok e -> arg_ok u -> udf_bytes (numbered e u).
Proof.
  intros [Hi Hv] Ha. destruct (proj2 (copied_strings u) Ha) as (H1 & H2 & H3 & H4). destruct Ha as (_ & _ & Hn & _).
  assert (ObPythonUDF.arg_num_ (copied u) = ObPythonUDF.arg_num_ u) as En.
  { unfold copied, ObPythonUDF.op_assign. now repeat case_match. }
  unfold udf_bytes, numbered. destruct (copied u). cbn in *. subst. split_and!; assumption || lia.
Qed.
Lemma numbered_valid e u : is_valid (numbered e u) = is_valid (copied u) /\
  ObPythonUDF.tenant_id_ (numbered e u) = ObPythonUDF.tenant_id_ u /\
  (is_valid (copied u) = true -> fn_of (numbered e u) = made e u /\
     ObPythonUDF.check_pycall (numbered e u) = ObPythonUDF.check_pycall u).
Proof.
  assert (ObPythonUDF.tenant_id_ (copied u) = ObPythonUDF.tenant_id_ u /\ ObPythonUDF.arg_num_ (copied u) = ObPythonUDF.arg_num_ u /\
          ObPythonUDF.ret_ (copied u) = ObPythonUDF.ret_ u) as (Et & Ea & Er).
  { unfold copied, ObPythonUDF.op_assign. now repeat case_match. }
  destruct (copied_strings u) as [Hs _]. unfold numbered, fn_of, made, is_valid, ObPythonUDF.check_pycall in *. destruct (copied u). cbn in *. subst.
  split_and!; [reflexivity | reflexivity |]. intros Hv. destruct (Hs Hv) as (-> & -> & -> & ->). auto.
Qed.

(** ** One request is one step *)
Lemma end_trans_cases e ret w (d : Data) : end_trans e ret true w d =
  if OB_FAIL ret then (ret, d)
  else if OB_SUCC (trans_end e true) then (OB_SUCCESS, w)
  else (trans_end e true, if commit_applied e then w else d).
Proof.
  unfold end_trans. code_case ret; cbn [andb].
  - now destruct (OB_SUCC (trans_end e false)).
  - subst ret. destruct (OB_SUCC (trans_end e true)); reflexivity.
Qed.

(** The end of both requests: the commit and the publication of a change of the
    catalogue from [g] to [g'], in the transaction's data [w]. *)
Lemma finish_step e ret w d g g' rq : rep d g -> (ret = OB_SUCCESS -> rep w g') ->
  (ret = OB_SUCCESS -> forall r, late e r -> cat_step e g rq r g') ->
  let '(ret, d') := end_trans e ret true w d in
  let '(ret, d') := if OB_SUCC ret then (publish_schema e, d') else (ret, d') in
  exists g1, rep d' g1 /\ cat_step e g rq ret g1.
Proof.
  intros Hr Hw Hc. rewrite end_trans_cases. code_case ret.
  - exists g. split; [exact Hr | now apply step_refused].
  - specialize (Hw Ecode). specialize (Hc Ecode). destruct (OB_SUCC (trans_end e true)) eqn:Et.
    + cbn beta iota. change (OB_SUCC OB_SUCCESS) with true. cbn beta iota. exists g'. split; [exact Hw |]. apply Hc. now left.
    + cbn beta iota. rewrite Et. apply OB_SUCC_false in Et. destruct (commit_applied e) eqn:Ec; [exists g' | exists g].
      * split; [exact Hw |]. apply Hc. right. auto.
      * split; [exact Hr | now apply step_refused].
Qed.
Lemma refused_step e ret d g rq : rep d g -> ret <> OB_SUCCESS -> exists g1, rep d g1 /\ cat_step e g rq ret g1.
Proof. intros Hr Hne. exists g. split; [exact Hr | now apply step_refused]. Qed.

Lemma op_create_spec e u d g : rep d g -> env_ok e -> arg_ok u ->
  let '(ret, w) := op_create_python_udf e (copied u) d in
  ret = OB_SUCCESS -> ObPythonUDF.check_pycall u = OB_SUCCESS /\
    g !! key (ObPythonUDF.tenant_id_ u) (ObPythonUDF.name_ u) = None /\
    rep w (<[key (ObPythonUDF.tenant_id_ u) (ObPythonUDF.name_ u) := made e u]> g).
Proof.
  intros Hr He Ha. pose proof (insert_spec (numbered e u) d g Hr (numbered_bytes e u He Ha)) as Hi.
  unfold op_create_python_udf. destruct (schema_service_ e); [| easy]. cbn [negb]. revert Hi. unfold numbered.
  destruct (fetch_new_python_udf_id e) as [r1 id] eqn:E1, (gen_new_schema_version e) as [r2 v] eqn:E2. cbn [snd].
  code_case r1; [easy |]. code_case r2; [easy |].
  destruct (insert_python_udf _ d) as [ret w] eqn:Ei. intros Hi Hret. specialize (Hi Hret).
  destruct (numbered_valid e u) as (Hv & Ht & Hfn). unfold numbered in Hv, Ht, Hfn. rewrite E1, E2 in Hv, Ht, Hfn. cbn [snd] in Hv, Ht, Hfn.
  assert (is_valid (copied u) = true) as Hvalid.
  { rewrite <- Hv. unfold insert_python_udf in Ei. destruct (is_valid _); [reflexivity |]. injection Ei as <- _. easy. }
  destruct (Hfn Hvalid) as [Ef Ec]. rewrite Ht, Ec, exec_tenant in Hi by apply Ha.
  assert (ObPythonUDF.name_ (set_schema_version (set_udf_id (copied u) id) v) = ObPythonUDF.name_ u) as En.
  { change (fn_name (fn_of (set_schema_version (set_udf_id (copied u) id) v)) = ObPythonUDF.name_ u). now rewrite Ef. }
  rewrite En, Ef in Hi. exact Hi.
Qed.

Lemma create_step e u d g : rep d g -> env_ok e -> arg_ok u ->
  exists ret d' g', serve e (Create u) d = Some (ret, d') /\ rep d' g' /\ cat_step e g (Create u) ret g'.
Proof.
  intros Hr He Ha. unfold serve, root_create_python_udf. fold (copied u).
  assert (forall ret, ret <> OB_SUCCESS -> exists ret' d' g', Some (ret, d) = Some (ret', d') /\ rep d' g' /\ cat_step e g (Create u) ret' g') as Hno.
  { intros ret Hne. destruct (refused_step e ret d g (Create u) Hr Hne) as (g1 & H1 & H2). now exists ret, d, g1. }
  destruct (inited_ e); [cbn [negb] | now apply Hno]. destruct (ObString.empty (ObPythonUDF.name_ u)); [now apply Hno |].
  destruct (exist_spec d g (ObPythonUDF.tenant_id_ u) (ObPythonUDF.name_ u) Hr) as (ret & ex & id & -> & _); [apply Ha |].
  cbn [mbind option_bind]. code_case ret; [now apply Hno |]. unfold ddl_create_python_udf.
  code_case (check_inner_stat e); [now apply Hno |]. code_case (get_schema_guard e); [now apply Hno |].
  code_case (get_schema_version e).
  { cbn [end_trans]. codes. now apply Hno. }
  code_case (trans_start e).
  { assert (end_trans e (trans_start e) (trans_started e) d d = (trans_start e, d)) as ->.
    { destruct (trans_started e); [| reflexivity]. rewrite end_trans_cases. now codes. }
    codes. now apply Hno. }
  pose proof (op_create_spec e u d g Hr He Ha) as Hop. destruct (op_create_python_udf e (copied u) d) as [ret1 w].
  pose proof (finish_step e ret1 w d g (<[key (ObPythonUDF.tenant_id_ u) (ObPythonUDF.name_ u) := made e u]> g) (Create u) Hr) as Hfin.
  destruct (end_trans e ret1 true w d) as [ret2 d2]. destruct (if OB_SUCC ret2 then _ else _) as [ret3 d3].
  destruct Hfin as (g1 & H1 & H2); [intros; now apply Hop | intros E r Hl; destruct (Hop E) as (Hp & Hn & _); now apply step_created |].
  now exists ret3, d3, g1.
Qed.

Lemma drop_step e a d g : rep d g -> request_ok (Drop a) ->
  exists ret d' g', serve e (Drop a) d = Some (ret, d') /\ rep d' g' /\ cat_step e g (Drop a) ret g'.
Proof.
  intros Hr [[Ht Ht'] Hn]. unfold serve, root_drop_python_udf.
  assert (forall ret, ret <> OB_SUCCESS -> exists ret' d' g', Some (ret, d) = Some (ret', d') /\ rep d' g' /\ cat_step e g (Drop a) ret' g') as Hno.
  { intros ret Hne. destruct (refused_step e ret d g (Drop a) Hr Hne) as (g1 & H1 & H2). now exists ret, d, g1. }
  destruct (inited_ e); [cbn [negb] | now apply Hno]. destruct (ObString.empty (drop_name_ a)) eqn:Ee; [now apply Hno |].
  unfold ddl_drop_python_udf. rewrite Ee.
  code_case (check_inner_stat e); [cbn [mbind option_bind end_trans]; codes; now apply Hno |].
  code_case (get_schema_guard e); [cbn [mbind option_bind end_trans]; codes; now apply Hno |].
  change (OB_SUCC OB_SUCCESS) with true. cbn iota.
  destruct (exist_spec d g (drop_tenant_id_ a) (drop_name_ a) Hr Hn) as (ret & ex & id & -> & Hex). cbn [mbind option_bind].
  code_case ret; [cbn [end_trans]; codes; now apply Hno |]. specialize (Hex Ecode1).
  destruct ex; cbn [negb].
  2: { symmetry in Hex. apply bool_decide_eq_false in Hex. rewrite <- eq_None_not_Some in Hex. cbn [end_trans].
       destruct (if_exist_ a) eqn:Ei; [| now apply Hno]. change (OB_SUCC OB_SUCCESS) with true. cbn iota.
       destruct (decide (publish_schema e = OB_SUCCESS)) as [-> | Hp]; [| now apply Hno].
       exists OB_SUCCESS, d, g. split_and!; [reflexivity | exact Hr | now apply step_absent]. }
  symmetry in Hex. apply bool_decide_eq_true in Hex as [f Hf].
  code_case (get_schema_version e); [cbn [end_trans]; codes; now apply Hno |].
  code_case (trans_start e).
  { assert (end_trans e (trans_start e) (trans_started e) d d = (trans_start e, d)) as ->.
    { destruct (trans_started e); [| reflexivity]. rewrite end_trans_cases. now codes. }
    codes. now apply Hno. }
  code_case (modify_dep_obj_status e).
  { rewrite end_trans_cases; codes. now apply Hno. }
  assert (let '(ret, w) := op_drop_python_udf e (drop_tenant_id_ a) (drop_name_ a) d in
          ret = OB_SUCCESS -> rep w (delete (key (drop_tenant_id_ a) (drop_name_ a)) g)) as Hop.
  { unfold op_drop_python_udf. destruct (Z.eqb_spec OB_INVALID_ID (drop_tenant_id_ a)); [easy |].
    destruct (schema_service_ e); [cbn [negb] | easy]. destruct (gen_new_schema_version e) as [r v]. code_case r; [easy |].
    pose proof (delete_spec (drop_tenant_id_ a) (drop_name_ a) d g Hr Hn) as Hd. rewrite exec_tenant in Hd by exact Ht.
    destruct (delete_python_udf _ _ d) as [r1 w]. intros E. now apply Hd. }
  destruct (op_drop_python_udf e _ _ d) as [ret1 w].
  pose proof (finish_step e ret1 w d g (delete (key (drop_tenant_id_ a) (drop_name_ a)) g) (Drop a) Hr Hop) as Hfin.
  destruct (end_trans e ret1 true w d) as [ret2 d2]. destruct (if OB_SUCC ret2 then _ else _) as [ret3 d3].
  destruct Hfin as (g1 & H1 & H2); [intros E r Hl; now apply (step_dropped e g a f) |]. now exists ret3, d3, g1.
Qed.
End Requests.
