(* ===== verification/SqlDemo.v ===== *)
(** A small SQL service: the table [__all_python_udf] as a list of rows of
    tenants, statements read by [parse].  The laws of [SqlClient] hold of it. *)
From S2P Require Import Prelude FixedArray SEArray HashArray SortedVector UdfSchema.
From S2P Require Import Serialization UdfObject SqlText SqlClient.
Import ObString.

Module SmallSql.
Definition Row : Type := list (bytes * cell).
Definition Data : Type := list (Z * Row).
Definition column (r : Row) (c : bytes) : option cell := assoc c r.*1 r.*2.
Definition rows (d : Data) (t : Z) : list Row := (List.filter (fun x => x.1 =? t) d).*2.
(** Case is not significant in the names of functions. *)
Definition collate : bytes -> bytes := map (fun c => if (65 <=? c) && (c <=? 90) then c + 32 else c).
Definition key_of (col : bytes -> option cell) : option (Z * bytes) :=
  match col (chars "tenant_id"), col (chars "name") with
  | Some (CInt t), Some (CStr n) => Some (t, collate n)
  | _, _ => None
  end.
Definition has_key (t : Z) (name : bytes) (r : Row) : bool := bool_decide (key_of (column r) = Some (t, collate name)).
Definition has_name (name : bytes) (r : Row) : bool :=
  bool_decide (match column r (chars "name") with Some (CStr n) => Some (collate n) | _ => None end = Some (collate name)).
Definition taken (k : option (Z * bytes)) (rs : list Row) : bool :=
  match k with Some k => existsb (fun r => bool_decide (key_of (column r) = Some k)) rs | None => false end.

Definition write (t : Z) (text : bytes) (d : Data) : Z * Z * Data :=
  match parse text with
  | Some (SInsert cols vals) =>
      if taken (key_of (column (zip cols vals))) (rows d t) then (OB_ERR_PRIMARY_KEY_DUPLICATE, 0, d)
      else (OB_SUCCESS, 1, (t, zip cols vals) :: d)
  | Some (SDelete tn name) =>
      (OB_SUCCESS, Z.of_nat (List.length (List.filter (has_key tn name) (rows d t))),
       List.filter (fun x => negb ((x.1 =? t) && has_key tn name x.2)) d)
  | _ => (OB_ERR_PARSER_SYNTAX, 0, d)
  end.
Definition read (t : Z) (text : bytes) (d : Data) : Z * option (list Row * Z) :=
  match parse text with
  | Some (SSelect name) => (OB_SUCCESS, Some (List.filter (has_name name) (rows d t), OB_ITER_END))
  | _ => (OB_ERR_PARSER_SYNTAX, None)
  end.
End SmallSql.

#[export] Instance small_client : SqlClient := {|
  Data := SmallSql.Data; Row := SmallSql.Row; sql_write := SmallSql.write; sql_read := SmallSql.read;
  get_varchar r c := match SmallSql.column r c with Some (CStr s) => (OB_SUCCESS, s) | _ => (OB_ERR_COLUMN_NOT_FOUND, []) end;
  get_int r c := match SmallSql.column r c with Some (CInt v) => (OB_SUCCESS, v) | _ => (OB_ERR_COLUMN_NOT_FOUND, 0) end
|}.
#[export] Instance small_table : SqlTable := {|
  collate := SmallSql.collate; fits _ _ := true; column := SmallSql.column; rows := SmallSql.rows; sql_up _ _ _ := true
|}.

Lemma assoc_zip c cols : forall vals, assoc c (zip cols vals).*1 (zip cols vals).*2 = assoc c cols vals.
Proof. induction cols as [| x cols IH]; intros [| v vals]; try reflexivity. cbn. case_match; [reflexivity | apply IH]. Qed.
Lemma small_row cols vals c : SmallSql.column (zip cols vals) c = row_of cols vals c.
Proof. apply assoc_zip. Qed.
Lemma small_key cols vals : SmallSql.key_of (SmallSql.column (zip cols vals)) = key_of (row_of cols vals).
Proof. unfold SmallSql.key_of, key_of. now rewrite !small_row. Qed.
Lemma rows_other d t t' r : t' <> t -> SmallSql.rows ((t, r) :: d) t' = SmallSql.rows d t'.
Proof. intros Hne. unfold SmallSql.rows. cbn. now rewrite (proj2 (Z.eqb_neq t t')) by congruence. Qed.
Lemma rows_here d t r : SmallSql.rows ((t, r) :: d) t = r :: SmallSql.rows d t.
Proof. unfold SmallSql.rows. cbn. now rewrite Z.eqb_refl. Qed.
Lemma rows_delete t f d t' : SmallSql.rows (List.filter (fun x => negb ((x.1 =? t) && f x.2)) d) t' =
  if t' =? t then List.filter (fun r => negb (f r)) (SmallSql.rows d t') else SmallSql.rows d t'.
Proof.
  unfold SmallSql.rows. destruct (Z.eqb_spec t' t) as [-> | Hne]; induction d as [| [x r] d IH]; try reflexivity; cbn.
  - destruct (Z.eqb_spec x t); cbn; [| rewrite (proj2 (Z.eqb_neq x t)) by assumption; exact IH].
    destruct (f r) eqn:E; cbn; [exact IH |]. subst x. rewrite Z.eqb_refl. cbn. now rewrite IH.
  - destruct (Z.eqb_spec x t); cbn.
    + subst x. rewrite (proj2 (Z.eqb_neq t t')) by congruence. destruct (f r); cbn; [exact IH |].
      now rewrite (proj2 (Z.eqb_neq t t')) by congruence.
    + destruct (x =? t'); cbn; [now rewrite IH | exact IH].
Qed.

Section Laws.
Lemma small_insert t text d cols vals : parse text = Some (SInsert cols vals) -> SmallSql.write t text d =
  if SmallSql.taken (key_of (row_of cols vals)) (SmallSql.rows d t) then (OB_ERR_PRIMARY_KEY_DUPLICATE, 0, d)
  else (OB_SUCCESS, 1, (t, zip cols vals) :: d).
Proof. intros E. unfold SmallSql.write. now rewrite E, small_key. Qed.
Lemma small_atomic t text d ret n d' t' :
  SmallSql.write t text d = (ret, n, d') -> ret <> OB_SUCCESS -> SmallSql.rows d' t' = SmallSql.rows d t'.
Proof. unfold SmallSql.write. intros E Hne. repeat case_match; now injection E as <- <- <-. Qed.
Lemma small_taken k rs r : SmallSql.taken (Some k) rs = false -> r ∈ rs -> SmallSql.key_of (SmallSql.column r) <> Some k.
Proof.
  intros Ht Hin E. enough (SmallSql.taken (Some k) rs = true) by congruence. cbn. apply existsb_exists. exists r.
  split; [now apply list_elem_of_In | now apply bool_decide_eq_true].
Qed.
End Laws.

#[export] Instance small_laws : SqlLaws.
Proof.
  split.
  - intros r c s E. cbn in *. now rewrite E.
  - intros r c v E. cbn in *. now rewrite E.
  - exact small_atomic.
  - intros t text d cols vals n d' Ep Ew. cbn in Ew. rewrite (small_insert _ _ _ _ _ Ep) in Ew.
    destruct (SmallSql.taken _ _) eqn:Et; [easy |]. injection Ew as <- <-. split_and!; [reflexivity | | |].
    + intros r k Hin Hk. rewrite Hk in Et. now apply (small_taken k (SmallSql.rows d t)).
    + exists (zip cols vals). split; [| intros; apply small_row].
      change (SmallSql.rows ((t, zip cols vals) :: d) t ≡ₚ zip cols vals :: SmallSql.rows d t). now rewrite rows_here.
    + intros t' Hne. now apply rows_other.
  - intros t text d tn name n d' Ep Ew. cbn in Ew. unfold SmallSql.write in Ew. rewrite Ep in Ew. injection Ew as <- <-.
    split_and!; [reflexivity | | intros t' Hne]; cbn; rewrite rows_delete; [now rewrite Z.eqb_refl |].
    now rewrite (proj2 (Z.eqb_neq t' t)).
  - intros t text d name rs Ep Er. cbn in Er. unfold SmallSql.read in Er. rewrite Ep in Er. now injection Er as <-.
  - intros t text d name ret rs last r Ep Er Hin. cbn in Er. unfold SmallSql.read in Er. rewrite Ep in Er.
    injection Er as <- <- <-. apply list_elem_of_In, filter_In in Hin as [Hin _]. now apply list_elem_of_In.
  - intros t text d ret rs last Er. cbn in Er. unfold SmallSql.read in Er. repeat case_match; try easy. now injection Er as <- <- <-.
  - intros t text d vals k _ Ep _ Hk. change (sql_write t text d) with (SmallSql.write t text d). rewrite (small_insert _ _ _ _ _ Ep), Hk.
    change (existsb _ (rows d t)) with (SmallSql.taken (Some k) (SmallSql.rows d t)). now destruct (SmallSql.taken _ _).
  - intros t text d tn name _ Ep. cbn. unfold SmallSql.write. now rewrite Ep.
  - intros t text d name _ Ep. cbn. unfold SmallSql.read. rewrite Ep. eauto.
Qed.
