(* ===== verification/DdlTheorems.v ===== *)
(** The properties of the DDL of Python functions: C36 and C37, with a small SQL
    service at which the laws are shown to hold. *)
From S2P Require Import Prelude FixedArray SEArray HashArray SortedVector UdfSchema.
From S2P Require Import Serialization UdfObject SqlText SqlClient UdfDdl SqlFacts DdlFacts.
From S2P Require Import DdlRep DdlSteps DdlRequests SqlDemo.
Import ObString ObSqlString.

(** C36. The root server keeps a catalogue.  Let the table stand for a finite
    map from tenant and name (up to the collation) to functions.  Whatever part
    of the server fails during each request, memory, the SQL service and the
    commit included, any sequence of requests to create and drop functions, whose
    names have no quote and no backslash ([request_ok]: the server writes names into
    its statements as they are), is answered, the table stands for a map again after each, and each answer is
    one step: a request that is refused changes nothing; a creation adds the
    function it describes, with the id and version of the server, under a name
    that was free and with a body that passes the check; a deletion takes out
    the function with the name.  Only a failed publication, or a commit that
    failed and took effect, makes a change be answered with an error. *)
Theorem ddl_keeps_catalogue `{Allocator, SqlLaws} (rqs : list (Env * request)) d g :
  rep d g -> Forall (fun er => env_ok er.1 /\ request_ok er.2) rqs ->
  exists rets d' g', serve_all rqs d = Some (rets, d') /\ rep d' g' /\ cat_steps g rqs rets g'.
Proof.
  intros Hr Hok. revert d g Hr. induction Hok as [| [e rq] rqs [He Hq] _ IH]; intros d g Hr.
  - exists [], d, g. split_and!; [reflexivity | exact Hr | constructor].
  - cbn [fst snd] in *. assert (exists ret d1 g1, serve e rq d = Some (ret, d1) /\ rep d1 g1 /\ cat_step e g rq ret g1)
      as (ret & d1 & g1 & E1 & Hr1 & Hs1) by (destruct rq; [now apply create_step | now apply drop_step]).
    destruct (IH d1 g1 Hr1) as (rets & d2 & g2 & E2 & Hr2 & Hs2). exists (ret :: rets), d2, g2.
    cbn [serve_all]. rewrite E1. cbn [mbind option_bind]. rewrite E2.
    split_and!; [reflexivity | exact Hr2 | econstructor; eassumption].
Qed.

Section Healthy.
Context `{Hal : Allocator, Hlaws : SqlLaws}.
Abbreviation catalogue := (gmap (Z * bytes) Fn).
(** Every call into the rest of the server succeeds. *)
Definition healthy (e : Env) : Prop :=
  inited_ e = true /\ check_inner_stat e = OB_SUCCESS /\ get_schema_guard e = OB_SUCCESS /\ get_schema_version e = OB_SUCCESS /\
  trans_start e = OB_SUCCESS /\ schema_service_ e = true /\ (fetch_new_python_udf_id e).1 = OB_SUCCESS /\
  (gen_new_schema_version e).1 = OB_SUCCESS /\ modify_dep_obj_status e = OB_SUCCESS /\ trans_end e true = OB_SUCCESS /\
  publish_schema e = OB_SUCCESS.
(** The values of a request fit the columns of the table. *)
Definition request_fits (e : Env) (rq : request) : Prop :=
  match rq with
  | Create u => is_valid u = true /\ ObPythonUDF.name_ u <> [] /\ udf_small u /\
      Forall2 (fun c v => fits c v = true) udf_columns (cells (of_fn 0 [] (made e u)))
  | Drop a => drop_name_ a <> [] /\ length (drop_name_ a) < 2 ^ 27
  end.
(** The answer of the catalogue to a request. *)
Definition cat_serve (e : Env) (g : catalogue) (rq : request) : Z * catalogue :=
  match rq with
  | Create u =>
      let k := key (ObPythonUDF.tenant_id_ u) (ObPythonUDF.name_ u) in
      if OB_FAIL (ObPythonUDF.check_pycall u) then (ObPythonUDF.check_pycall u, g)
      else if bool_decide (is_Some (g !! k)) then (OB_ERR_PRIMARY_KEY_DUPLICATE, g) else (OB_SUCCESS, <[k := made e u]> g)
  | Drop a =>
      let k := key (drop_tenant_id_ a) (drop_name_ a) in
      if bool_decide (is_Some (g !! k)) then (OB_SUCCESS, delete k g)
      else (if if_exist_ a then OB_SUCCESS else OB_ERR_FUNCTION_UNKNOWN, g)
  end.

Lemma healthy_create e u d g : (forall n, alloc_ok n = true) -> (forall t text d, sql_up t text d = true) ->
  rep d g -> env_ok e -> healthy e -> request_ok (Create u) -> request_fits e (Create u) ->
  exists d', serve e (Create u) d = Some ((cat_serve e g (Create u)).1, d').
Proof.
  intros Hmem Hup Hr He (E1 & E2 & E3 & E4 & E5 & E6 & E7 & E8 & _ & E10 & E11) Ha (Hv & Hne & Hsm & Hf).
  unfold serve, root_create_python_udf. fold (copied u). rewrite E1. cbn [negb].
  assert (ObString.empty (ObPythonUDF.name_ u) = false) as -> by now destruct (ObPythonUDF.name_ u).
  destruct (exist_healthy Hmem Hup d g (ObPythonUDF.tenant_id_ u) (ObPythonUDF.name_ u) Hr) as (id & ->); [apply Ha | exact Hne | apply Hsm | apply Ha |].
  cbn [mbind option_bind]. change (OB_FAIL OB_SUCCESS) with false. cbn iota. unfold ddl_create_python_udf. rewrite E2, E3, E4, E5.
  change (OB_FAIL OB_SUCCESS) with false. cbn iota.
  destruct (numbered_valid e u) as (Hnv & Ht & Hfn). pose proof (copied_healthy u Hmem Hv) as Hvc. destruct (Hfn Hvc) as [Ef Ec].
  assert (ObPythonUDF.name_ (numbered e u) = ObPythonUDF.name_ u) as En
    by (change (fn_name (fn_of (numbered e u)) = ObPythonUDF.name_ u); now rewrite Ef).
  pose proof (insert_healthy Hmem Hup (numbered e u) d g Hr (numbered_bytes e u He Ha)) as Hi.
  rewrite Ht, Ec, En, exec_tenant in Hi by apply Ha.
  assert (forall (b c : bool) (x y z : Z) (g1 g2 : catalogue),
    (if b then (x, g1) else if c then (y, g1) else (z, g2)).1 = if b then x else if c then y else z) as Hpair by now intros [] [].
  assert ((op_create_python_udf e (copied u) d).1 = (cat_serve e g (Create u)).1) as Eop.
  { cbn [cat_serve]. rewrite Hpair, <- Hi.
    - unfold op_create_python_udf, numbered. rewrite E6. cbn [negb].
      destruct (fetch_new_python_udf_id e) as [r1 i1], (gen_new_schema_version e) as [r2 v2]. cbn [fst snd] in *. now subst r1 r2.
    - destruct (copied_strings u) as [Hs _]. destruct (Hs Hvc) as (S1 & S2 & S3 & S4). unfold udf_small, numbered in *.
      destruct (copied u). cbn in *. now subst.
    - now rewrite Hnv.
    - rewrite cells_fn, Ef. exact Hf. }
  destruct (op_create_python_udf e (copied u) d) as [ret w]. cbn [fst] in Eop. rewrite Eop, end_trans_cases, E10, E11.
  destruct (OB_FAIL (cat_serve e g (Create u)).1) eqn:Efail.
  - apply OB_FAIL_true in Efail. codes. now exists d.
  - apply OB_FAIL_false in Efail. rewrite Efail. change (OB_SUCC OB_SUCCESS) with true. cbn iota. now exists w.
Qed.

Lemma healthy_drop e a d g : (forall n, alloc_ok n = true) -> (forall t text d, sql_up t text d = true) ->
  rep d g -> healthy e -> request_ok (Drop a) -> request_fits e (Drop a) ->
  exists d', serve e (Drop a) d = Some ((cat_serve e g (Drop a)).1, d').
Proof.
  intros Hmem Hup Hr (E1 & E2 & E3 & E4 & E5 & E6 & _ & E8 & E9 & E10 & E11) [[Ht Ht'] Hn] (Hne & Hl).
  unfold serve, root_drop_python_udf. rewrite E1. cbn [negb].
  assert (ObString.empty (drop_name_ a) = false) as Ee by now destruct (drop_name_ a).
  unfold ddl_drop_python_udf. rewrite Ee, E2, E3, E4, E5, E9, E11.
  change (OB_FAIL OB_SUCCESS) with false. change (OB_SUCC OB_SUCCESS) with true. cbn iota.
  destruct (exist_healthy Hmem Hup d g (drop_tenant_id_ a) (drop_name_ a) Hr Hn Hne Hl Ht') as (id & ->).
  cbn [mbind option_bind]. change (OB_FAIL OB_SUCCESS) with false. cbn iota. cbn [cat_serve].
  destruct (bool_decide _) eqn:Eg; cbn [negb fst].
  - apply bool_decide_eq_true in Eg. rewrite <- (exec_tenant (drop_tenant_id_ a)) in Eg at 1 by exact Ht.
    pose proof (delete_healthy Hmem Hup (drop_tenant_id_ a) (drop_name_ a) d g Hr Hn Hl Eg) as Ed.
    unfold op_drop_python_udf. destruct (Z.eqb_spec OB_INVALID_ID (drop_tenant_id_ a)); [congruence |]. rewrite E6. cbn [negb].
    destruct (gen_new_schema_version e) as [r v]. cbn [fst] in E8. subst r. change (OB_FAIL OB_SUCCESS) with false. cbn iota.
    destruct (delete_python_udf _ _ d) as [ret w]. cbn [fst] in Ed. subst ret. change (OB_SUCC OB_SUCCESS) with true. cbn [mbind option_bind].
    rewrite end_trans_cases, E10. now exists w.
  - change (OB_SUCC OB_SUCCESS) with true. cbn [mbind option_bind end_trans]. exists d. now destruct (if_exist_ a).
Qed.

(** With the answer of the catalogue, a step goes where the catalogue goes. *)
Lemma cat_step_serve e g rq g' : healthy e -> cat_step e g rq (cat_serve e g rq).1 g' -> g' = (cat_serve e g rq).2.
Proof.
  intros (_ & _ & _ & _ & _ & _ & _ & _ & _ & Hc & Hp) Hs. inversion Hs as [? ? Hne | u ? Hck Hnone Hl | a f ? Hf Hl | a Hnone Hi Hret]; subst.
  - destruct rq; cbn [cat_serve] in *; repeat case_match; easy.
  - cbn [cat_serve]. rewrite Hck, bool_decide_false by (rewrite Hnone; now intros []). reflexivity.
  - cbn [cat_serve]. now rewrite bool_decide_true by eauto.
  - cbn [cat_serve]. now rewrite bool_decide_false by (rewrite Hnone; now intros []).
Qed.

Lemma healthy_serve e rq d g : (forall n, alloc_ok n = true) -> (forall t text d, sql_up t text d = true) ->
  rep d g -> env_ok e -> healthy e -> request_ok rq -> request_fits e rq ->
  exists d', serve e rq d = Some ((cat_serve e g rq).1, d') /\ rep d' (cat_serve e g rq).2.
Proof.
  intros Hmem Hup Hr He Hh Hq Hf.
  assert (exists d', serve e rq d = Some ((cat_serve e g rq).1, d')) as (d' & E)
    by (destruct rq; [now apply healthy_create | now apply healthy_drop]).
  assert (exists ret d1 g1, serve e rq d = Some (ret, d1) /\ rep d1 g1 /\ cat_step e g rq ret g1) as (ret & d1 & g1 & E1 & Hr1 & Hs1)
    by (destruct rq; [now apply create_step | now apply drop_step]).
  rewrite E in E1. injection E1 as <- <-. exists d'. split; [exact E |]. now rewrite <- (cat_step_serve e g rq g1 Hh Hs1).
Qed.
Fixpoint cat_serve_all (g : catalogue) (rqs : list (Env * request)) : list Z * catalogue :=
  match rqs with
  | [] => ([], g)
  | (e, rq) :: rqs' =>
      let '(ret, g) := cat_serve e g rq in let '(rets, g) := cat_serve_all g rqs' in (ret :: rets, g)
  end.
End Healthy.

(** C37. When no part of the server fails, the values fit their columns and the
    names have no quote and no backslash (which the server does not escape), the
    root server answers as the catalogue does: a function whose body does not
    pass the check is refused with the code of the check, a second function of a
    tenant with the same name with [OB_ERR_PRIMARY_KEY_DUPLICATE], any other is
    stored; a drop takes the function out or, when there is none, is an error
    exactly without [IF EXISTS].  After any sequence of requests a look-up by
    tenant and such a name finds the function that was created last and not dropped
    since, with every attribute it was created with, and finds nothing when there
    is none. *)
Theorem ddl_serves_catalogue `{Allocator, SqlLaws} (rqs : list (Env * request)) d g t name u :
  (forall n, alloc_ok n = true) -> (forall t text d, sql_up t text d = true) -> rep d g ->
  Forall (fun er => env_ok er.1 /\ healthy er.1 /\ request_ok er.2 /\ request_fits er.1 er.2) rqs ->
  plain name -> name <> [] -> length name < 2 ^ 27 -> t <> OB_INVALID_ID ->
  exists d', serve_all rqs d = Some ((cat_serve_all g rqs).1, d') /\
    get_python_udf_info t name u d' =
    Some (match (cat_serve_all g rqs).2 !! key t name with
          | Some f => (OB_SUCCESS, true, of_fn t (ObPythonUDF.model_name_ u) f)
          | None => (OB_SUCCESS, false, u)
          end).
Proof.
  intros Hmem Hup Hr Hok Hn Hne Hl Ht.
  enough (exists d', serve_all rqs d = Some ((cat_serve_all g rqs).1, d') /\ rep d' (cat_serve_all g rqs).2) as (d' & E & Hr')
    by (exists d'; split; [exact E | now apply lookup_healthy]).
  revert d g Hr. induction Hok as [| [e rq] rqs (He & Hh & Hq & Hf) _ IH]; intros d g Hr; cbn [serve_all cat_serve_all]; [eauto |].
  destruct (healthy_serve e rq d g Hmem Hup Hr He Hh Hq Hf) as (d1 & -> & Hr1). cbn [mbind option_bind].
  destruct (cat_serve e g rq) as [ret g1]. cbn [fst snd] in *. destruct (IH d1 g1 Hr1) as (d2 & -> & Hr2). cbn [mbind option_bind].
  destruct (cat_serve_all g1 rqs) as [rets g2]. eauto.
Qed.

(** ** Witnesses *)
#[local] Instance ddl_memory : Allocator := fun _ => true.
Definition demo_env : Env :=
  mkEnv true OB_SUCCESS OB_SUCCESS OB_SUCCESS OB_SUCCESS false true (OB_SUCCESS, 500001) (OB_SUCCESS, 1700) OB_SUCCESS
        (fun _ => OB_SUCCESS) false OB_SUCCESS.
Definition demo_create : ObPythonUDF.t :=
  ObPythonUDF.mk OB_SUCCESS 1002 OB_INVALID_ID (chars "Dist") [] 2 (chars "a,b") (chars "REAL,REAL") REAL
                 (chars "def pyinitial(): def pyfun(a,b):") (-1).
Definition demo_drop : ObDropPythonUdfArg := mkDrop 1002 (chars "DIST") false.
Definition demo_requests : list (Env * request) := [(demo_env, Create demo_create); (demo_env, Create demo_create); (demo_env, Drop demo_drop)].

Definition no_rows : @Data small_client := [].
Lemma demo_empty : rep no_rows ∅.
Proof.
  intros t. split_and!; [constructor | now intros r Hr%list_elem_of_In |]. intros k f. rewrite lookup_empty.
  split; [easy |]. now intros (r & Hr%list_elem_of_In & _).
Qed.
Lemma plain_decided s : forallb (fun c => (0 <=? c) && (c <? 256) && negb (c =? 39) && negb (c =? 92) && negb (c =? 0)) s = true -> plain s.
Proof.
  intros Hs. apply Forall_forall. intros c Hc. apply list_elem_of_In in Hc. rewrite forallb_forall in Hs. specialize (Hs c Hc).
  unfold byte_ok. lia.
Qed.
Lemma demo_create_ok : request_ok (Create demo_create).
Proof. split_and!; try easy; try apply plain_bytes; now apply plain_decided. Qed.
Lemma demo_drop_ok : request_ok (Drop demo_drop).
Proof. split_and!; [easy | now apply plain_decided]. Qed.
Lemma demo_env_ok : env_ok demo_env.
Proof. easy. Qed.
Lemma demo_fits : request_fits demo_env (Create demo_create) /\ request_fits demo_env (Drop demo_drop).
Proof. split; [split_and!; try easy; repeat constructor | easy]. Qed.

Lemma ddl_keeps_catalogue_witness : exists rets d' g',
  serve_all demo_requests no_rows = Some (rets, d') /\ rep d' g' /\ cat_steps ∅ demo_requests rets g'.
Proof.
  apply (ddl_keeps_catalogue demo_requests no_rows ∅ demo_empty).
  repeat apply Forall_cons_2; [.. | constructor]; cbn [fst snd];
    (split; [exact demo_env_ok | first [exact demo_create_ok | exact demo_drop_ok]]).
Defined.
(** The second creation is refused; the drop finds the function under a name in
    other case, after which there is none. *)
Lemma ddl_serves_catalogue_witness : (cat_serve_all ∅ demo_requests).1 = [OB_SUCCESS; OB_ERR_PRIMARY_KEY_DUPLICATE; OB_SUCCESS] /\
  exists d', serve_all demo_requests no_rows = Some ((cat_serve_all ∅ demo_requests).1, d') /\
  get_python_udf_info 1002 (chars "dist") ObPythonUDF.new d' =
    Some (match (cat_serve_all ∅ demo_requests).2 !! key 1002 (chars "dist") with
          | Some f => (OB_SUCCESS, true, of_fn 1002 [] f)
          | None => (OB_SUCCESS, false, ObPythonUDF.new)
          end).
Proof.
  split; [vm_compute; reflexivity |].
  apply (ddl_serves_catalogue demo_requests no_rows ∅ 1002 (chars "dist") ObPythonUDF.new); try easy; [exact demo_empty | | now apply plain_decided].
  repeat apply Forall_cons_2; [.. | constructor]; cbn [fst snd];
    (split_and!; [exact demo_env_ok | easy | first [exact demo_create_ok | exact demo_drop_ok] | apply demo_fits]).
Defined.
