(* ===== verification/UdfMgr.v ===== *)
(** [ObPythonUDFMgr] of [src/share/schema/ob_python_udf_mgr.h] and [.cpp]: the
    catalogue of Python functions of a schema version, a vector sorted by tenant
    and name together with a hash map on the same key.

    A pointer to a schema is represented by the schema: the manager copies what
    it is given and never changes a stored schema.  [None] is a run in which the
    hash map's bookkeeping indexes outside of its arrays. *)
From S2P Require Import Prelude FixedArray HashArray HashMap SortedVector UdfSchema.

Module ObPythonUDFMgr.
Abbreviation Schema := ObSimplePythonUdfSchema.t.

Record t := mk { is_inited_ : bool; udf_infos_ : ObVector.t Schema; udf_map_ : ObPointerHashMap.t Schema }.

Section Ops.
Context `{Allocator}.
Implicit Type m : t.

Definition new : t := mk false ObVector.empty ObPointerHashMap.new_map.

Definition init m : Z * t :=
  if is_inited_ m then (OB_INIT_TWICE, m)
  else
    let '(ret, map) := ObPointerHashMap.init (udf_map_ m) in
    if OB_FAIL ret then (ret, mk (is_inited_ m) (udf_infos_ m) map)
    else (ret, mk true (udf_infos_ m) map).

Definition reset m : t :=
  if negb (is_inited_ m) then m
  else mk (is_inited_ m) (ObVector.clear (udf_infos_ m)) (ObPointerHashMap.clear (udf_map_ m)).

(** [assign] from another manager. *)
Definition assign m (other : t) : Z * t :=
  if negb (is_inited_ m) then (OB_NOT_INIT, m)
  else
    let '(ret, map) := ObPointerHashMap.assign (udf_map_ m) (udf_map_ other) in
    let m := mk (is_inited_ m) (udf_infos_ m) map in
    if OB_FAIL ret then (ret, m)
    else
      let '(ret, infos) := ObVector.assign (udf_infos_ m) (udf_infos_ other) in
      (ret, mk (is_inited_ m) infos (udf_map_ m)).

Definition compare_python_udf (lhs rhs : Schema) : bool :=
  ObTenantPythonUdfId.op_lt (ObSimplePythonUdfSchema.get_tenant_python_udf_id lhs)
                            (ObSimplePythonUdfSchema.get_tenant_python_udf_id rhs).
Definition equal_python_udf (lhs rhs : Schema) : bool :=
  ObTenantPythonUdfId.op_eq (ObSimplePythonUdfSchema.get_tenant_python_udf_id lhs)
                            (ObSimplePythonUdfSchema.get_tenant_python_udf_id rhs).
Definition compare_with_tenant_python_udf_id (lhs : Schema) (id : ObTenantPythonUdfId.t) : bool :=
  ObTenantPythonUdfId.op_lt (ObSimplePythonUdfSchema.get_tenant_python_udf_id lhs) id.
Definition equal_to_tenant_python_udf_id (lhs : Schema) (id : ObTenantPythonUdfId.t) : bool :=
  ObTenantPythonUdfId.op_eq (ObSimplePythonUdfSchema.get_tenant_python_udf_id lhs) id.

Definition hash_wrapper (s : Schema) : ObPythonUDFHashWrapper.t :=
  (ObSimplePythonUdfSchema.tenant_id_ s, ObSimplePythonUdfSchema.get_udf_name s).

(** [rebuild_python_udf_hashmap]. *)
Fixpoint rebuild_loop (infos : list Schema) (map : ObPointerHashMap.t Schema) : option (Z * ObPointerHashMap.t Schema) :=
  match infos with
  | [] => Some (OB_SUCCESS, map)
  | s :: infos' =>
      '(ret, map) ← ObPointerHashMap.set_refactored map (hash_wrapper s) (Val s) true;
      if OB_FAIL ret then Some (ret, map) else rebuild_loop infos' map
  end.
Definition rebuild_python_udf_hashmap (udf_infos : ObVector.t Schema) (udf_map : ObPointerHashMap.t Schema)
  : option (Z * ObPointerHashMap.t Schema) :=
  rebuild_loop (ObVector.elems_ udf_infos) (ObPointerHashMap.clear udf_map).

(** The end of [add_python_udf] and [del_python_udf]: when the two structures have
    different sizes the map is rebuilt, and the code of that is ignored. *)
Definition check_consistent (ret : Z) m : option (Z * t) :=
  if negb (ObVector.size (udf_infos_ m) =? ObPointerHashMap.item_count (udf_map_ m)) then
    '(_, map) ← rebuild_python_udf_hashmap (udf_infos_ m) (udf_map_ m);
    Some (ret, mk (is_inited_ m) (udf_infos_ m) map)
  else Some (ret, m).

Definition add_python_udf m (udf_schema : Schema) : option (Z * t) :=
  '(ret, m) ←
    (if negb (is_inited_ m) then Some (OB_NOT_INIT, m)
     else if negb (ObSimplePythonUdfSchema.is_valid udf_schema) then Some (OB_INVALID_ARGUMENT, m)
     else
       let '(ret, new_udf_schema) := ObSimplePythonUdfSchema.alloc_schema udf_schema in
       if OB_FAIL ret then Some (ret, m)
       else match new_udf_schema with
       | None => Some (OB_ERR_UNEXPECTED, m)
       | Some s =>
           '(ret, _, infos) ← ObSortedVector.replace (udf_infos_ m) s compare_python_udf equal_python_udf;
           let m := mk (is_inited_ m) infos (udf_map_ m) in
           if OB_FAIL ret then Some (ret, m)
           else
             '(ret, map) ← ObPointerHashMap.set_refactored (udf_map_ m) (hash_wrapper s) (Val s) true;
             Some (ret, mk (is_inited_ m) (udf_infos_ m) map)
       end);
  check_consistent ret m.

Fixpoint add_python_udfs m (udf_schemas : list Schema) : option (Z * t) :=
  match udf_schemas with
  | [] => Some (OB_SUCCESS, m)
  | s :: ss =>
      '(ret, m) ← add_python_udf m s;
      if OB_FAIL ret then Some (ret, m) else add_python_udfs m ss
  end.

Definition del_python_udf m (udf : ObTenantPythonUdfId.t) : option (Z * t) :=
  '(ret, m) ←
    (if negb (ObTenantPythonUdfId.is_valid udf) then Some (OB_INVALID_ARGUMENT, m)
     else
       '(ret, schema_to_del, infos) ←
         ObSortedVector.remove_if (udf_infos_ m) udf compare_with_tenant_python_udf_id equal_to_tenant_python_udf_id;
       let m := mk (is_inited_ m) infos (udf_map_ m) in
       if OB_FAIL ret then Some (ret, m)
       else match schema_to_del with
       | None => Some (OB_ERR_UNEXPECTED, m)
       | Some s =>
           '(hash_ret, map) ← ObPointerHashMap.erase_refactored (udf_map_ m) (hash_wrapper s);
           let m := mk (is_inited_ m) (udf_infos_ m) map in
           Some (if hash_ret =? OB_SUCCESS then ret else OB_ERR_UNEXPECTED, m)
       end);
  check_consistent ret m.

(** The stored schemas are not null, and the output array has room for them. *)
Definition get_python_udf_schemas_in_tenant m (tenant_id : Z) : Z * list Schema :=
  (OB_SUCCESS, List.filter (fun s => tenant_id =? ObSimplePythonUdfSchema.tenant_id_ s) (ObVector.elems_ (udf_infos_ m))).

Fixpoint del_loop m (tenant_id : Z) (schemas : list Schema) : option (Z * t) :=
  match schemas with
  | [] => Some (OB_SUCCESS, m)
  | s :: ss =>
      '(ret, m) ← del_python_udf m (tenant_id, ObSimplePythonUdfSchema.get_udf_name s);
      if OB_FAIL ret then Some (ret, m) else del_loop m tenant_id ss
  end.
Definition del_schemas_in_tenant m (tenant_id : Z) : option (Z * t) :=
  if tenant_id =? OB_INVALID_ID then Some (OB_INVALID_ARGUMENT, m)
  else
    let '(ret, schemas) := get_python_udf_schemas_in_tenant m tenant_id in
    if OB_FAIL ret then Some (ret, m) else del_loop m tenant_id schemas.

(** [deep_copy] from another manager. *)
Definition deep_copy m (other : t) : option (Z * t) :=
  if negb (is_inited_ m) then Some (OB_NOT_INIT, m)
  else add_python_udfs (reset m) (ObVector.elems_ (udf_infos_ other)).

Definition get_python_udf_schema_with_name m (tenant_id : Z) (name : bytes) : option (Z * option Schema) :=
  if negb (is_inited_ m) then Some (OB_NOT_INIT, None)
  else if (tenant_id =? OB_INVALID_ID) || ObString.empty name then Some (OB_INVALID_ARGUMENT, None)
  else
    '(ret, tmp_schema) ← ObPointerHashMap.get_refactored (K := ObPythonUDFHashWrapper.t) (udf_map_ m) (tenant_id, name);
    if OB_FAIL ret then Some (if ret =? OB_HASH_NOT_EXIST then OB_SUCCESS else ret, None)
    else Some (ret, tmp_schema).

(** [get_python_udf_schema] by id: the last match, else the caller's [udf_schema]. *)
Definition get_python_udf_schema m (udf_id : Z) (udf_schema : option Schema) : Z * option Schema :=
  (OB_SUCCESS,
   fold_left (fun found s => if udf_id =? ObSimplePythonUdfSchema.udf_id_ s then Some s else found)
     (ObVector.elems_ (udf_infos_ m)) udf_schema).

Definition get_python_udf_schema_count m (udf_schema_count : Z) : Z * Z :=
  if negb (is_inited_ m) then (OB_NOT_INIT, udf_schema_count)
  else (OB_SUCCESS, ObVector.size (udf_infos_ m)).

(** [get_schema_statistics]: the [count_] and [size_] of the result. *)
Definition get_schema_statistics m : Z * (Z * Z) :=
  if negb (is_inited_ m) then (OB_NOT_INIT, (0, 0))
  else (OB_SUCCESS,
        (ObVector.size (udf_infos_ m),
         fold_left (fun size s => size + ObSimplePythonUdfSchema.get_convert_size s) (ObVector.elems_ (udf_infos_ m)) 0)).
End Ops.
End ObPythonUDFMgr.
