(* ===== verification/UdfMgrFacts.v ===== *)
(** The catalogue of Python functions stands for a finite map from tenant and
    name to schemas: the representation relation, and each operation of
    [ObPythonUDFMgr] against the operation on the map. *)
From Stdlib Require Import Sorted.
From S2P Require Import Prelude FixedArray HashArray HashArrayFacts.
From S2P Require Import HashMap HashMapFacts SortedVector UdfSchema UdfMgr.

Module UdfMgrFacts.
Import ObPythonUDFMgr.
Abbreviation key := ObSimplePythonUdfSchema.get_tenant_python_udf_id.
Abbreviation Id := ObTenantPythonUdfId.t.
Abbreviation HKey := ObPythonUDFHashWrapper.t.
Abbreviation infos m := (ObVector.elems_ (udf_infos_ m)).
Abbreviation sorted := (SortedFacts.sorted key ObTenantPythonUdfId.op_lt).

(** A schema whose strings were copied without an error, with a name that is a C string. *)
Definition clean (s : Schema) : Prop :=
  Forall (fun x => x <> 0) (ObSimplePythonUdfSchema.udf_name_ s) /\ ObSimplePythonUdfSchema.error_ret_ s = OB_SUCCESS.
Definition good (s : Schema) : Prop := clean s /\ ObSimplePythonUdfSchema.is_valid s = true.

#[global] Instance clean_dec s : Decision (clean s).
Proof. unfold clean. apply _. Defined.

(** ** The specification: operations on a finite map *)
Abbreviation Catalogue := (gmap Id Schema).
Implicit Type g : Catalogue.

Definition spec_add g (s : Schema) : Z * Catalogue :=
  if ObSimplePythonUdfSchema.is_valid s then (OB_SUCCESS, <[key s := s]> g) else (OB_INVALID_ARGUMENT, g).
Definition spec_del g (id : Id) : Z * Catalogue :=
  if ObTenantPythonUdfId.is_valid id then
    match g !! id with Some _ => (OB_SUCCESS, delete id g) | None => (OB_ENTRY_NOT_EXIST, g) end
  else (OB_INVALID_ARGUMENT, g).
Definition spec_del_tenant g (tenant_id : Z) : Z * Catalogue :=
  if tenant_id =? OB_INVALID_ID then (OB_INVALID_ARGUMENT, g)
  else (OB_SUCCESS, filter (fun kv => fst (fst kv) <> tenant_id) g).
Definition spec_get g (tenant_id : Z) (name : bytes) : Z * option Schema :=
  if (tenant_id =? OB_INVALID_ID) || ObString.empty name then (OB_INVALID_ARGUMENT, None)
  else (OB_SUCCESS, g !! (tenant_id, name)).

(** ** The representation *)
Record rep (m : t) (g : Catalogue) : Prop := mkRep
  { r_init : is_inited_ m = true;
    r_map : HashMapFacts.inv (K := HKey) (udf_map_ m);
    r_find : forall k, HashMapFacts.find (udf_map_ m) k = g !! k;
    r_sorted : sorted (infos m);
    r_infos : forall s, s ∈ infos m <-> g !! key s = Some s;
    r_good : forall k s, g !! k = Some s -> good s /\ key s = k }.

Section Facts.
Context `{Allocator}.
Context (Hmem : forall n, alloc_ok n = true).
Implicit Type m : t.

Lemma good_key s : clean s -> get_key_ s = key s.
Proof.
  intros [Hn _]. unfold get_key_, ObGetPythonUDFKey, key, ObSimplePythonUdfSchema.get_udf_name.
  now rewrite ObString.c_str_id by exact Hn.
Qed.

Lemma good_id s : good s -> ObTenantPythonUdfId.is_valid (key s) = true.
Proof.
  intros [_ Hv]. unfold ObSimplePythonUdfSchema.is_valid, ObString.empty in Hv.
  unfold ObTenantPythonUdfId.is_valid, key. simpl. rewrite !negb_orb in Hv.
  apply andb_prop in Hv as [Hv Hn]. apply andb_prop in Hv as [Ht _]. now rewrite Ht, Hn.
Qed.

Lemma sorted_NoDup (l : list Schema) : sorted l -> NoDup l.
Proof.
  intros Hs. apply NoDup_alt. intros i j x Hi Hj.
  destruct (lt_eq_lt_dec i j) as [[Hlt | ->] | Hlt]; [| reflexivity |];
    [pose proof (SortedFacts.sorted_lookup key _ l i j x x Hs Hi Hj Hlt) as E
    | pose proof (SortedFacts.sorted_lookup key _ l j i x x Hs Hj Hi Hlt) as E];
    unfold SortedFacts.key_lt in E; rewrite ltb_irrefl in E; discriminate.
Qed.

Lemma rep_elem m g s : rep m g -> s ∈ infos m -> good s /\ g !! key s = Some s.
Proof. intros Hr Hs. apply (r_infos m g Hr) in Hs. split; [exact (proj1 (r_good m g Hr _ _ Hs)) | exact Hs]. Qed.

(** The two structures have the same size, so the map is not rebuilt. *)
Lemma counts_agree m g : rep m g -> ObVector.size (udf_infos_ m) = ObPointerHashMap.item_count (udf_map_ m).
Proof.
  intros Hr. unfold ObVector.size. rewrite <- (HashMapFacts.length_all_values (K := HKey)) by apply Hr. f_equal.
  apply Permutation_length, NoDup_Permutation.
  - apply sorted_NoDup, Hr.
  - apply HashMapFacts.all_values_NoDup, Hr.
  - intros s. rewrite HashMapFacts.elem_of_all_values by apply Hr. rewrite (r_find m g Hr), (r_infos m g Hr). split.
    + intros Hs. rewrite good_key; [exact Hs |]. now apply (r_good m g Hr) in Hs as [[Hc _] _].
    + intros Hs. destruct (r_good m g Hr _ _ Hs) as [_ Hk]. now rewrite Hk.
Qed.

Lemma check_consistent_ok ret m g : rep m g -> check_consistent ret m = Some (ret, m).
Proof. intros Hr. unfold check_consistent. now rewrite (counts_agree m g Hr), Z.eqb_refl. Qed.

(** ** The operations *)
Lemma new_ok : exists m, init new = (OB_SUCCESS, m) /\ rep m ∅.
Proof.
  destruct (HashMapFacts.init_ok (K := HKey) (V := Schema) Hmem) as (map & Hi & Hinv & Hf).
  unfold init, new. simpl. rewrite Hi. cbn iota. eexists. split; [reflexivity |]. split; simpl.
  - reflexivity.
  - exact Hinv.
  - intros k. now rewrite Hf, lookup_empty.
  - constructor.
  - intros s. rewrite lookup_empty. split; [intros Hs; now apply elem_of_nil in Hs | discriminate].
  - intros k s Hs. rewrite lookup_empty in Hs. discriminate.
Qed.

Lemma reset_ok m g : rep m g -> rep (reset m) ∅.
Proof.
  intros Hr. unfold reset. rewrite (r_init m g Hr). destruct (HashMapFacts.clear_ok (K := HKey) (udf_map_ m) (r_map m g Hr)) as [Hi Hf].
  split; simpl.
  - reflexivity.
  - exact Hi.
  - intros k. now rewrite Hf, lookup_empty.
  - constructor.
  - intros s. rewrite lookup_empty. split; [intros Hs; now apply elem_of_nil in Hs | discriminate].
  - intros k s Hs. rewrite lookup_empty in Hs. discriminate.
Qed.

(** The schema put into both structures. *)
Lemma put_rep m g s v map : rep m g -> good s ->
  SortedFacts.puts key ObTenantPythonUdfId.op_lt (infos m) s (ObVector.elems_ v) ->
  HashMapFacts.sets (K := HKey) (udf_map_ m) s map -> rep (mk true v map) (<[key s := s]> g).
Proof.
  intros Hr Hs [Hsort Hel] [Hinv Hf]. rewrite good_key in Hf by apply Hs. split; simpl; auto.
  - intros k. rewrite Hf, (r_find m g Hr). case_decide as Hk.
    + now rewrite Hk, lookup_insert_eq.
    + now rewrite lookup_insert_ne by congruence.
  - intros x. rewrite Hel. destruct (decide (key x = key s)) as [Hk | Hne].
    + rewrite Hk, lookup_insert_eq. split; [intros [-> | [_ ?]]; [reflexivity | contradiction] | intros [= ->]; auto].
    + rewrite lookup_insert_ne, (r_infos m g Hr) by auto. split; [intros [-> | [? _]]; [contradiction | assumption] | auto].
  - intros k x Hx. destruct (decide (k = key s)) as [-> | Hne].
    + rewrite lookup_insert_eq in Hx. injection Hx as <-. auto.
    + rewrite lookup_insert_ne in Hx by auto. exact (r_good m g Hr k x Hx).
Qed.

Lemma add_ok m g s : rep m g -> clean s ->
  exists m', add_python_udf m s = Some (fst (spec_add g s), m') /\ rep m' (snd (spec_add g s)).
Proof.
  intros Hr Hc. unfold add_python_udf, spec_add. rewrite (r_init m g Hr).
  destruct (ObSimplePythonUdfSchema.is_valid s) eqn:Hv; cbn [negb].
  2: { exists m. split; [| exact Hr]. cbn [mbind option_bind]. now apply (check_consistent_ok _ m g). }
  unfold ObSimplePythonUdfSchema.alloc_schema. rewrite Hmem, (ObSimplePythonUdfSchema.op_assign_ok _ s Hmem (proj2 Hc)).
  change (OB_FAIL OB_SUCCESS) with false. cbn iota.
  destruct (SortedFacts.replace_ok key ObTenantPythonUdfId.op_lt (udf_infos_ m) s compare_python_udf equal_python_udf)
    as (old & v & -> & Hput); auto; [intros x y; apply ObTenantPythonUdfId.op_eq_spec | apply Hr |].
  cbn [mbind option_bind]. change (OB_FAIL OB_SUCCESS) with false. cbn iota.
  change (hash_wrapper s) with (get_key_ (K := HKey) s). simpl udf_map_.
  assert (exists map, ObPointerHashMap.set_refactored (udf_map_ m) (get_key_ (K := HKey) s) (Val s) true = Some (OB_SUCCESS, map)
                      /\ HashMapFacts.sets (K := HKey) (udf_map_ m) s map) as (map & -> & Hset).
  { pose proof (HashMapFacts.set_ok (K := HKey) (udf_map_ m) s true (r_map m g Hr) Hmem) as Hs.
    destruct (HashMapFacts.find (udf_map_ m) (get_key_ s)); exact Hs. }
  cbn [mbind option_bind is_inited_ udf_infos_ fst snd].
  assert (rep (mk true v map) (<[key s := s]> g)) as Hr' by (apply (put_rep m); auto; split; auto).
  exists (mk true v map). split; [| exact Hr']. now apply (check_consistent_ok _ _ _ Hr').
Qed.

(** The schema taken out of both structures. *)
Lemma take_rep m g s v map : rep m g -> g !! key s = Some s ->
  SortedFacts.takes key ObTenantPythonUdfId.op_lt (infos m) (key s) (ObVector.elems_ v) ->
  HashMapFacts.inv (K := HKey) map ->
  (forall k, HashMapFacts.find map k = if decide (k = key s) then None else HashMapFacts.find (udf_map_ m) k) ->
  rep (mk true v map) (delete (key s) g).
Proof.
  intros Hr Hs [Hsort Hel] Hinv Hf. split; simpl; auto.
  - intros k. rewrite Hf, (r_find m g Hr). case_decide as Hk.
    + now rewrite Hk, lookup_delete_eq.
    + now rewrite lookup_delete_ne by congruence.
  - intros x. rewrite Hel, (r_infos m g Hr), lookup_delete_Some. split; intros [? ?]; auto.
  - intros k x Hx. apply lookup_delete_Some in Hx as [_ Hx]. exact (r_good m g Hr k x Hx).
Qed.

Lemma del_ok m g id : rep m g ->
  exists m', del_python_udf m id = Some (fst (spec_del g id), m') /\ rep m' (snd (spec_del g id)).
Proof.
  intros Hr. unfold del_python_udf, spec_del. destruct (ObTenantPythonUdfId.is_valid id); cbn [negb].
  2: { exists m. split; [| exact Hr]. cbn [mbind option_bind]. now apply (check_consistent_ok _ m g). }
  destruct (SortedFacts.remove_if_ok key ObTenantPythonUdfId.op_lt (fun k : Id => k) compare_with_tenant_python_udf_id
    equal_to_tenant_python_udf_id ltac:(reflexivity) ltac:(intros; apply ObTenantPythonUdfId.op_eq_spec) (udf_infos_ m) id (r_sorted m g Hr))
    as [(s & v & Hs & Hk & -> & Htk) | [Hnone ->]].
  - subst id. destruct (rep_elem m g s Hr Hs) as [Hg Hgs]. cbn [mbind option_bind]. change (OB_FAIL OB_SUCCESS) with false. cbn iota.
    change (hash_wrapper s) with (get_key_ (K := HKey) s). simpl udf_map_. rewrite good_key by apply Hg.
    pose proof (HashMapFacts.erase_ok (K := HKey) (udf_map_ m) (key s) (r_map m g Hr)) as He. rewrite (eq_trans (r_find m g Hr (key s)) Hgs) in He.
    destruct He as (map & -> & Hinv & _ & Hf). cbn [mbind option_bind]. rewrite Hgs, Z.eqb_refl. cbn [is_inited_ udf_infos_ fst snd].
    rewrite (r_init m g Hr). assert (rep (mk true v map) (delete (key s) g)) as Hr' by now apply (take_rep m).
    eexists. split; [| exact Hr']. now apply (check_consistent_ok _ _ _ Hr').
  - cbn [mbind option_bind]. change (OB_FAIL OB_ENTRY_NOT_EXIST) with true. cbn iota.
    assert (g !! id = None) as ->.
    { destruct (g !! id) as [s |] eqn:E; [| reflexivity]. destruct (r_good m g Hr _ _ E) as [_ Hk]. exfalso.
      apply (Hnone s); [apply (r_infos m g Hr); now rewrite Hk | exact Hk]. }
    exists m. destruct m. split; [| exact Hr]. cbn [mbind option_bind fst]. now apply (check_consistent_ok _ _ _ Hr).
Qed.

Lemma lookup_name_ok m g tenant_id name : rep m g ->
  get_python_udf_schema_with_name m tenant_id name = Some (spec_get g tenant_id name).
Proof.
  intros Hr. unfold get_python_udf_schema_with_name, spec_get. rewrite (r_init m g Hr). cbn [negb].
  destruct ((tenant_id =? OB_INVALID_ID) || ObString.empty name); [reflexivity |].
  rewrite (HashMapFacts.get_ok (K := HKey) (udf_map_ m) (tenant_id, name) (r_map m g Hr)), (r_find m g Hr).
  change (g !! _) with (g !! (tenant_id, name)). destruct (g !! (tenant_id, name)); reflexivity.
Qed.

(** The schemas of one tenant, deleted one after the other. *)
Lemma del_loop_ok tenant_id ss : forall m g, rep m g -> NoDup (map key ss) ->
  (forall s, s ∈ ss -> g !! key s = Some s /\ ObSimplePythonUdfSchema.tenant_id_ s = tenant_id) ->
  exists m' g', del_loop m tenant_id ss = Some (OB_SUCCESS, m') /\ rep m' g'
    /\ forall k, g' !! k = if decide (k ∈ map key ss) then None else g !! k.
Proof.
  induction ss as [| s ss IH]; intros m g Hr Hnd Hin.
  { exists m, g. split; [reflexivity |]. split; [exact Hr |]. intros k. rewrite decide_False; [reflexivity |]. apply not_elem_of_nil. }
  cbn [del_loop]. destruct (Hin s (list_elem_of_here _ _)) as [Hg Ht]. destruct (r_good m g Hr _ _ Hg) as [Hgood _].
  assert ((tenant_id, ObSimplePythonUdfSchema.get_udf_name s) = key s) as ->
    by (rewrite <- (good_key s) by apply Hgood; simpl; congruence).
  destruct (del_ok m g (key s) Hr) as (m1 & -> & Hr1). unfold spec_del in *. rewrite (good_id s Hgood), Hg in *. cbn [fst snd] in *.
  cbn [mbind option_bind]. change (OB_FAIL OB_SUCCESS) with false. cbn iota.
  cbn [map] in Hnd. apply NoDup_cons in Hnd as [Hs Hnd].
  destruct (IH m1 (delete (key s) g) Hr1 Hnd) as (m' & g' & -> & Hr' & Hg').
  { intros x Hx. destruct (Hin x (list_elem_of_further _ _ _ Hx)) as [Hgx Htx]. split; [| exact Htx].
    rewrite lookup_delete_ne; [exact Hgx |]. intros Hk. apply Hs. rewrite Hk. now apply list_elem_of_fmap_2. }
  exists m', g'. split; [reflexivity |]. split; [exact Hr' |]. intros k. rewrite Hg'. cbn [map].
  destruct (decide (k ∈ map key ss)) as [Hk | Hk].
  - rewrite decide_True; [reflexivity |]. now apply list_elem_of_further.
  - destruct (decide (k = key s)) as [-> | Hne].
    + rewrite lookup_delete_eq, decide_True; [reflexivity |]. apply list_elem_of_here.
    + rewrite lookup_delete_ne, decide_False; [reflexivity | | auto]. intros [? | ?]%elem_of_cons; contradiction.
Qed.

Lemma tenant_keys m g tenant_id : rep m g ->
  let ss := snd (get_python_udf_schemas_in_tenant m tenant_id) in
  NoDup (map key ss)
  /\ (forall s, s ∈ ss <-> g !! key s = Some s /\ ObSimplePythonUdfSchema.tenant_id_ s = tenant_id).
Proof.
  intros Hr ss. assert (forall s, s ∈ ss <-> g !! key s = Some s /\ ObSimplePythonUdfSchema.tenant_id_ s = tenant_id) as Hss.
  { intros s. unfold ss, get_python_udf_schemas_in_tenant. simpl. rewrite list_elem_of_In, filter_In, Z.eqb_eq, <- list_elem_of_In.
    rewrite (r_infos m g Hr). intuition congruence. }
  split; [| exact Hss]. apply NoDup_fmap_2_strong.
  - intros x y Hx Hy Hk. apply Hss in Hx as [Hx _], Hy as [Hy _]. congruence.
  - unfold ss, get_python_udf_schemas_in_tenant. simpl. apply NoDup_ListNoDup, List.NoDup_filter, NoDup_ListNoDup, sorted_NoDup, Hr.
Qed.

Lemma del_tenant_ok m g tenant_id : rep m g ->
  exists m', del_schemas_in_tenant m tenant_id = Some (fst (spec_del_tenant g tenant_id), m')
             /\ rep m' (snd (spec_del_tenant g tenant_id)).
Proof.
  intros Hr. unfold del_schemas_in_tenant, spec_del_tenant. destruct (tenant_id =? OB_INVALID_ID); [eauto |].
  destruct (tenant_keys m g tenant_id Hr) as [Hnd Hss].
  destruct (get_python_udf_schemas_in_tenant m tenant_id) as [ret ss] eqn:E. injection E as <- _. cbn [snd] in *.
  destruct (del_loop_ok tenant_id ss m g Hr Hnd) as (m' & g' & -> & Hr' & Hg'); [intros s Hs; now apply Hss |].
  exists m'. split; [reflexivity |]. cbn [snd]. replace (filter _ g) with g'; [exact Hr' |]. apply map_eq. intros k. rewrite Hg'.
  destruct (g !! k) as [s |] eqn:Eg.
  - destruct (r_good m g Hr _ _ Eg) as [_ <-]. destruct (decide (ObSimplePythonUdfSchema.tenant_id_ s = tenant_id)) as [Ht | Ht].
    + rewrite decide_True by (apply list_elem_of_fmap_2, Hss; auto). symmetry. apply map_lookup_filter_None. right.
      intros x Hx. simpl. tauto.
    + rewrite decide_False.
      * symmetry. apply map_lookup_filter_Some. split; [exact Eg | exact Ht].
      * intros Hk. apply list_elem_of_fmap in Hk as (x & Hk & Hx). apply Hss in Hx as [Hx Htx].
        rewrite <- Hk, Eg in Hx. congruence.
  - rewrite (proj2 (map_lookup_filter_None _ _ _)) by auto. destruct (decide _); reflexivity.
Qed.

Lemma add_all_ok ss : forall m g, rep m g -> (forall s, s ∈ ss -> good s) ->
  exists m', add_python_udfs m ss = Some (OB_SUCCESS, m') /\ rep m' (fold_left (fun g s => <[key s := s]> g) ss g).
Proof.
  induction ss as [| s ss IH]; intros m g Hr Hg; [eauto |]. cbn [add_python_udfs fold_left].
  destruct (Hg s (list_elem_of_here _ _)) as [Hc Hv].
  destruct (add_ok m g s Hr Hc) as (m1 & -> & Hr1). unfold spec_add in *. rewrite Hv in *. cbn [fst snd] in *.
  cbn [mbind option_bind]. change (OB_FAIL OB_SUCCESS) with false. cbn iota. apply IH; [exact Hr1 |].
  intros x Hx. apply Hg. now apply list_elem_of_further.
Qed.

(** The keys of a vector are distinct, so adding its schemas one by one gives them all. *)
Lemma fold_insert ss : forall g, NoDup (map key ss) ->
  forall k, fold_left (fun g s => <[key s := s]> g) ss g !! k
            = match list_find (fun s => key s = k) ss with Some (_, s) => Some s | None => g !! k end.
Proof.
  induction ss as [| s ss IH]; intros g Hnd k; [reflexivity |]. cbn [map] in Hnd. apply NoDup_cons in Hnd as [Hs Hnd].
  cbn [fold_left list_find]. rewrite IH by exact Hnd. destruct (decide (key s = k)) as [<- | Hne].
  - destruct (list_find _ ss) as [[i x] |] eqn:E.
    + apply list_find_Some in E as (Hi & Hk & _). exfalso. apply Hs. rewrite <- Hk. apply list_elem_of_fmap_2.
      now apply list_elem_of_lookup_2 in Hi.
    + now rewrite lookup_insert_eq.
  - destruct (list_find _ ss) as [[i x] |]; [reflexivity |]. now rewrite lookup_insert_ne.
Qed.

Lemma deep_copy_ok m g other go : rep m g -> rep other go ->
  exists m', deep_copy m other = Some (OB_SUCCESS, m') /\ rep m' go.
Proof.
  intros Hr Ho. unfold deep_copy. rewrite (r_init m g Hr). cbn [negb].
  destruct (add_all_ok (infos other) (reset m) ∅ (reset_ok m g Hr)) as (m' & -> & Hr');
    [intros s Hs; now apply (rep_elem other go) |].
  exists m'. split; [reflexivity |]. enough (go = fold_left (fun g s => <[key s := s]> g) (infos other) ∅) as -> by exact Hr'.
  apply map_eq. intros k. rewrite fold_insert.
  2: { apply NoDup_fmap_2_strong; [| apply sorted_NoDup, Ho]. intros x y Hx Hy Hk.
       apply (rep_elem other go) in Hx as [_ Hx], Hy as [_ Hy]; auto. congruence. }
  destruct (list_find _ _) as [[i s] |] eqn:E.
  - apply list_find_Some in E as (Hi & <- & _). apply list_elem_of_lookup_2 in Hi. now apply (rep_elem other go) in Hi as [_ ?].
  - apply list_find_None in E. rewrite Forall_forall in E. rewrite lookup_empty. destruct (go !! k) as [s |] eqn:Eg; [| reflexivity].
    destruct (r_good other go Ho _ _ Eg) as [_ Hk]. exfalso. apply (E s); [| exact Hk]. apply (r_infos other go Ho). now rewrite Hk.
Qed.

Lemma assign_ok m g other go : rep m g -> rep other go ->
  exists m', assign m other = (OB_SUCCESS, m') /\ rep m' go.
Proof.
  intros Hr Ho. unfold assign, ObPointerHashMap.assign, ObVector.assign. rewrite (r_init m g Hr). cbn [negb].
  pose proof (HashMapFacts.i_ne _ (r_map other go Ho)) as Hne. rewrite !Hmem.
  assert (match ObPointerHashMap.sub_maps_ (udf_map_ other) with
          | [] => (OB_SUCCESS, ObPointerHashMap.mk [] (ObPointerHashMap.sub_map_mem_size_ (udf_map_ other)))
          | ss => (OB_SUCCESS, ObPointerHashMap.mk ss (ObPointerHashMap.sub_map_mem_size_ (udf_map_ other)))
          end = (OB_SUCCESS, udf_map_ other)) as ->
    by (destruct (udf_map_ other) as [[| s ss] mem]; reflexivity).
  change (OB_FAIL OB_SUCCESS) with false. cbn iota. cbn [udf_infos_ udf_map_ is_inited_]. clear Hne.
  destruct (Z.ltb_spec 0 (ObVector.size (udf_infos_ other))) as [Hs | Hs]; eexists; (split; [reflexivity |]).
  - destruct Ho. now split.
  - assert (infos other = []) as E by (apply length_zero_iff_nil; unfold ObVector.size in Hs; lia).
    destruct Ho as [? ? ? Hso Hin ?]. rewrite E in Hso, Hin. now split.
Qed.

(** The search by id goes through the whole vector; the last match is returned. *)
Lemma find_id_ok udf_id (l : list Schema) : forall cur,
  fold_left (fun found s => if udf_id =? ObSimplePythonUdfSchema.udf_id_ s then Some s else found) l cur
  = match last (List.filter (fun s => udf_id =? ObSimplePythonUdfSchema.udf_id_ s) l) with Some s => Some s | None => cur end.
Proof.
  induction l as [| s l IH]; intros cur; [reflexivity |]. cbn [fold_left List.filter]. rewrite IH.
  destruct (udf_id =? ObSimplePythonUdfSchema.udf_id_ s); [| reflexivity].
  rewrite last_cons. now destruct (last _).
Qed.

Lemma get_by_id_ok m g udf_id cur : rep m g ->
  exists o, get_python_udf_schema m udf_id cur = (OB_SUCCESS, o)
    /\ ((exists s, o = Some s /\ g !! key s = Some s /\ ObSimplePythonUdfSchema.udf_id_ s = udf_id)
        \/ o = cur /\ forall k s, g !! k = Some s -> ObSimplePythonUdfSchema.udf_id_ s <> udf_id).
Proof.
  intros Hr. unfold get_python_udf_schema. rewrite find_id_ok. eexists. split; [reflexivity |].
  destruct (last _) as [s |] eqn:E.
  - left. exists s. split; [reflexivity |]. apply last_Some_elem_of, list_elem_of_In, filter_In in E as [Hin Hid].
    apply list_elem_of_In, (r_infos m g Hr) in Hin. apply Z.eqb_eq in Hid. auto.
  - right. split; [reflexivity |]. intros k s Hk Hid. apply last_None in E.
    destruct (r_good m g Hr _ _ Hk) as [_ <-]. assert (s ∈ infos m) as Hin by now apply (r_infos m g Hr).
    apply list_elem_of_In in Hin. assert (In s (List.filter (fun s => udf_id =? ObSimplePythonUdfSchema.udf_id_ s) (infos m))) as Hf
      by (apply filter_In; split; [exact Hin | now apply Z.eqb_eq]).
    rewrite E in Hf. destruct Hf.
Qed.

Lemma count_ok m g cnt : rep m g -> get_python_udf_schema_count m cnt = (OB_SUCCESS, Z.of_nat (size g)).
Proof.
  intros Hr. unfold get_python_udf_schema_count. rewrite (r_init m g Hr). cbn [negb]. do 2 f_equal.
  unfold ObVector.size. f_equal. rewrite <- (length_map_to_list g), <- (length_fmap snd). apply Permutation_length, NoDup_Permutation.
  - apply sorted_NoDup, Hr.
  - apply NoDup_fmap_2_strong; [| apply NoDup_map_to_list]. intros [k s] [k' s'] Hk Hk' Heq. simpl in Heq. subst s'.
    apply elem_of_map_to_list in Hk, Hk'. apply (r_good m g Hr) in Hk as [_ <-], Hk' as [_ <-]. reflexivity.
  - intros s. rewrite (r_infos m g Hr), list_elem_of_fmap. split.
    + intros Hs. exists (key s, s). split; [reflexivity |]. now apply elem_of_map_to_list.
    + intros ([k x] & -> & Hx). apply elem_of_map_to_list in Hx. destruct (r_good m g Hr _ _ Hx) as [_ <-]. exact Hx.
Qed.
End Facts.
End UdfMgrFacts.
