(* ===== verification/SchemaTheorems.v ===== *)
(** The properties of the catalogue of Python functions and of the containers it
    is built on: the pointer hash map is a finite map, the sorted vector keeps one
    element per key in order, and the manager is a finite map from tenant and name
    to schemas. *)
From Stdlib Require Import Sorted.
From S2P Require Import Prelude FixedArray HashArray HashArrayFacts.
From S2P Require Import HashMap HashMapFacts SortedVector UdfSchema UdfMgr UdfMgrFacts.

(** ** Runs of the hash map *)
Module MapRun.
Section Run.
Context `{Allocator} {K V : Type} `{Countable K} `{PointerKey K V}.

(** The calls of a client, which sets a value under its own key. *)
Inductive op := Set_ (v : V) (overwrite : bool) | Get (k : K) | Erase (k : K) | Clear | Count.
Inductive result := Code (ret : Z) | Found (ret : Z) (v : option V) | Number (n : Z).

Definition step (m : ObPointerHashMap.t V) (o : op) : option (result * ObPointerHashMap.t V) :=
  match o with
  | Set_ v ow => '(ret, m) ← ObPointerHashMap.set_refactored m (get_key_ v) (Val v) ow; Some (Code ret, m)
  | Get k => '(ret, v) ← ObPointerHashMap.get_refactored m k; Some (Found ret v, m)
  | Erase k => '(ret, m) ← ObPointerHashMap.erase_refactored m k; Some (Code ret, m)
  | Clear => Some (Code OB_SUCCESS, ObPointerHashMap.clear m)
  | Count => Some (Number (ObPointerHashMap.item_count m), m)
  end.

Fixpoint run (m : ObPointerHashMap.t V) (os : list op) : option (list result) :=
  match os with
  | [] => Some []
  | o :: os' => '(r, m) ← step m o; rs ← run m os'; Some (r :: rs)
  end.

(** The same calls on a finite map. *)
Definition spec_step (g : gmap K V) (o : op) : result * gmap K V :=
  match o with
  | Set_ v ow =>
      match g !! get_key_ v, ow with
      | Some _, false => (Code OB_HASH_EXIST, g)
      | _, _ => (Code OB_SUCCESS, <[get_key_ v := v]> g)
      end
  | Get k => (match g !! k with Some v => Found OB_SUCCESS (Some v) | None => Found OB_HASH_NOT_EXIST None end, g)
  | Erase k => match g !! k with Some _ => (Code OB_SUCCESS, delete k g) | None => (Code OB_HASH_NOT_EXIST, g) end
  | Clear => (Code OB_SUCCESS, ∅)
  | Count => (Number (Z.of_nat (size g)), g)
  end.

Fixpoint spec_run (g : gmap K V) (os : list op) : list result :=
  match os with
  | [] => []
  | o :: os' => let '(r, g) := spec_step g o in r :: spec_run g os'
  end.

Definition rep (m : ObPointerHashMap.t V) (g : gmap K V) : Prop :=
  HashMapFacts.inv m /\ forall k, HashMapFacts.find m k = g !! k.

Context (Hmem : forall n, alloc_ok n = true).

Lemma rep_key m g k v : rep m g -> g !! k = Some v -> get_key_ v = k.
Proof. intros [Hi Hf] Hk. rewrite <- Hf in Hk. exact (HashMapFacts.find_key m k v Hi Hk). Qed.

Lemma rep_count m g : rep m g -> ObPointerHashMap.item_count m = Z.of_nat (size g).
Proof.
  intros Hr. pose proof Hr as [Hi Hf]. rewrite <- HashMapFacts.length_all_values by exact Hi. f_equal.
  rewrite <- (length_map_to_list g), <- (length_fmap snd). apply Permutation_length, NoDup_Permutation.
  - now apply HashMapFacts.all_values_NoDup.
  - apply NoDup_fmap_2_strong; [| apply NoDup_map_to_list]. intros [k v] [k' v'] Hk Hk' Heq. simpl in Heq. subst v'.
    apply elem_of_map_to_list in Hk, Hk'. apply (rep_key m g) in Hk as <-, Hk' as <-; auto.
  - intros v. rewrite HashMapFacts.elem_of_all_values, Hf, list_elem_of_fmap by exact Hi. split.
    + intros Hv. exists (get_key_ v, v). split; [reflexivity |]. now apply elem_of_map_to_list.
    + intros ([k x] & -> & Hx). apply elem_of_map_to_list in Hx. simpl. now rewrite (rep_key m g k x Hr Hx).
Qed.

Lemma rep_sets m g v m' : rep m g -> HashMapFacts.sets m v m' -> rep m' (<[get_key_ v := v]> g).
Proof.
  intros [_ Hf] [Hi Hs]. split; [exact Hi |]. intros k. rewrite Hs, Hf. case_decide as Hk.
  - now rewrite Hk, lookup_insert_eq.
  - now rewrite lookup_insert_ne by congruence.
Qed.

Lemma map_step_ok m g o : rep m g -> exists m', step m o = Some (fst (spec_step g o), m') /\ rep m' (snd (spec_step g o)).
Proof.
  intros Hr. pose proof Hr as [Hi Hf]. destruct o as [v ow | k | k | |]; cbn [step spec_step].
  - pose proof (HashMapFacts.set_ok m v ow Hi Hmem) as Hs. rewrite Hf in Hs.
    destruct (g !! get_key_ v); [destruct ow; [| rewrite Hs; eauto] |];
      destruct Hs as (m' & -> & Hs); exists m'; (split; [reflexivity | now apply (rep_sets m)]).
  - rewrite (HashMapFacts.get_ok m k Hi), Hf. exists m. destruct (g !! k); auto.
  - pose proof (HashMapFacts.erase_ok m k Hi) as He. rewrite Hf in He. destruct (g !! k).
    + destruct He as (m' & -> & Hi' & _ & Hf'). exists m'. split; [reflexivity |]. split; [exact Hi' |].
      intros k'. rewrite Hf', Hf. simpl. case_decide as Hk; [now rewrite Hk, lookup_delete_eq | now rewrite lookup_delete_ne by congruence].
    + destruct He as (m' & -> & ->). eauto.
  - destruct (HashMapFacts.clear_ok m Hi) as [Hi' Hf']. eexists. split; [reflexivity |]. split; [exact Hi' |].
    intros k. cbn [snd]. now rewrite Hf', lookup_empty.
  - exists m. simpl. now rewrite (rep_count m g Hr).
Qed.

Lemma map_run_ok os : forall m g, rep m g -> run m os = Some (spec_run g os).
Proof.
  induction os as [| o os IH]; intros m g Hr; [reflexivity |]. cbn [run spec_run].
  destruct (map_step_ok m g o Hr) as (m' & -> & Hr'). destruct (spec_step g o) as [r g']. cbn [mbind option_bind fst snd] in *.
  now rewrite (IH m' g' Hr').
Qed.
End Run.
End MapRun.

(** ** Runs of the manager *)
Module MgrRun.
Import ObPythonUDFMgr.
Section Run.
Context `{Allocator}.

Inductive op :=
| Add (s : Schema) | Del (id : ObTenantPythonUdfId.t) | DelTenant (tenant_id : Z) | Reset
| GetByName (tenant_id : Z) (name : bytes) | Count.
Inductive result := Code (ret : Z) | Found (ret : Z) (s : option Schema) | Number (ret n : Z).

Definition step (m : t) (o : op) : option (result * t) :=
  match o with
  | Add s => '(ret, m) ← add_python_udf m s; Some (Code ret, m)
  | Del id => '(ret, m) ← del_python_udf m id; Some (Code ret, m)
  | DelTenant tenant_id => '(ret, m) ← del_schemas_in_tenant m tenant_id; Some (Code ret, m)
  | Reset => Some (Code OB_SUCCESS, reset m)
  | GetByName tenant_id name => '(ret, s) ← get_python_udf_schema_with_name m tenant_id name; Some (Found ret s, m)
  | Count => let '(ret, n) := get_python_udf_schema_count m 0 in Some (Number ret n, m)
  end.

Fixpoint run (m : t) (os : list op) : option (list result * t) :=
  match os with
  | [] => Some ([], m)
  | o :: os' => '(r, m) ← step m o; '(rs, m) ← run m os'; Some (r :: rs, m)
  end.

Definition spec_step (g : gmap ObTenantPythonUdfId.t Schema) (o : op) : result * gmap ObTenantPythonUdfId.t Schema :=
  match o with
  | Add s => let '(ret, g) := UdfMgrFacts.spec_add g s in (Code ret, g)
  | Del id => let '(ret, g) := UdfMgrFacts.spec_del g id in (Code ret, g)
  | DelTenant tenant_id => let '(ret, g) := UdfMgrFacts.spec_del_tenant g tenant_id in (Code ret, g)
  | Reset => (Code OB_SUCCESS, ∅)
  | GetByName tenant_id name => let '(ret, s) := UdfMgrFacts.spec_get g tenant_id name in (Found ret s, g)
  | Count => (Number OB_SUCCESS (Z.of_nat (size g)), g)
  end.

Fixpoint spec_run (g : gmap ObTenantPythonUdfId.t Schema) (os : list op) : list result * gmap ObTenantPythonUdfId.t Schema :=
  match os with
  | [] => ([], g)
  | o :: os' => let '(r, g) := spec_step g o in let '(rs, g) := spec_run g os' in (r :: rs, g)
  end.

(** The schemas given to [add_python_udf] are clean. *)
Definition clean_op (o : op) : Prop := match o with Add s => UdfMgrFacts.clean s | _ => True end.

Context (Hmem : forall n, alloc_ok n = true).

Lemma mgr_step_ok m g o : UdfMgrFacts.rep m g -> clean_op o ->
  exists m', step m o = Some (fst (spec_step g o), m') /\ UdfMgrFacts.rep m' (snd (spec_step g o)).
Proof.
  intros Hr Hc. destruct o as [s | id | tenant_id | | tenant_id name |]; cbn [step spec_step clean_op] in *.
  - destruct (UdfMgrFacts.add_ok Hmem m g s Hr Hc) as (m' & -> & Hr'). destruct (UdfMgrFacts.spec_add g s). eauto.
  - destruct (UdfMgrFacts.del_ok m g id Hr) as (m' & -> & Hr'). destruct (UdfMgrFacts.spec_del g id). eauto.
  - destruct (UdfMgrFacts.del_tenant_ok m g tenant_id Hr) as (m' & -> & Hr'). destruct (UdfMgrFacts.spec_del_tenant g tenant_id). eauto.
  - eexists. split; [reflexivity |]. now apply (UdfMgrFacts.reset_ok m g).
  - rewrite (UdfMgrFacts.lookup_name_ok m g tenant_id name Hr). destruct (UdfMgrFacts.spec_get g tenant_id name). eauto.
  - rewrite (UdfMgrFacts.count_ok m g 0 Hr). eauto.
Qed.

Lemma mgr_run_ok os : forall m g, UdfMgrFacts.rep m g -> Forall clean_op os ->
  exists m', run m os = Some (fst (spec_run g os), m') /\ UdfMgrFacts.rep m' (snd (spec_run g os)).
Proof.
  induction os as [| o os IH]; intros m g Hr Hc; [eauto |]. apply Forall_cons in Hc as [Ho Hc]. cbn [run spec_run].
  destruct (mgr_step_ok m g o Hr Ho) as (m1 & -> & Hr1). destruct (spec_step g o) as [r g1]. cbn [mbind option_bind fst snd] in *.
  destruct (IH m1 g1 Hr1 Hc) as (m' & -> & Hr'). destruct (spec_run g1 os) as [rs g']. eauto.
Qed.
End Run.
End MgrRun.

(** ** The properties *)
Section Properties.
Context `{Allocator}.

(** C23. The catalogue of Python functions is a finite map from (tenant, name) to
    schema.  From a manager after [init], any sequence of [add_python_udf] (of
    schemas whose strings were copied without error and whose name has no NUL),
    [del_python_udf], [del_schemas_in_tenant], [reset], lookups by name and counts
    returns the codes and the schemas the operations on a finite map return, and
    ends in a state that stands for that map: the vector is strictly sorted and
    holds one schema per key, the hash map finds exactly these, and the two have
    the same size, so the rebuild of the hash map is never needed. *)
Theorem catalogue_is_a_map (os : list MgrRun.op) :
  (forall n, alloc_ok n = true) -> Forall MgrRun.clean_op os ->
  exists m m', ObPythonUDFMgr.init ObPythonUDFMgr.new = (OB_SUCCESS, m)
    /\ MgrRun.run m os = Some (fst (MgrRun.spec_run ∅ os), m')
    /\ UdfMgrFacts.rep m' (snd (MgrRun.spec_run ∅ os))
    /\ ObVector.size (ObPythonUDFMgr.udf_infos_ m') = ObPointerHashMap.item_count (ObPythonUDFMgr.udf_map_ m').
Proof.
  intros Hmem Hc. destruct (UdfMgrFacts.new_ok Hmem) as (m & Hi & Hr).
  destruct (MgrRun.mgr_run_ok Hmem os m ∅ Hr Hc) as (m' & Hrun & Hr'). exists m, m'.
  split; [exact Hi |]. split; [exact Hrun |]. split; [exact Hr' |]. exact (UdfMgrFacts.counts_agree _ _ Hr').
Qed.

(** C24. Both ways to copy a manager, the shallow [assign] and the [deep_copy] that
    adds the schemas one by one, succeed and make the target stand for the same map
    as the source, whatever the target held before. *)
Theorem catalogue_copies (m other : ObPythonUDFMgr.t) g go :
  (forall n, alloc_ok n = true) -> UdfMgrFacts.rep m g -> UdfMgrFacts.rep other go ->
  (exists m', ObPythonUDFMgr.assign m other = (OB_SUCCESS, m') /\ UdfMgrFacts.rep m' go)
  /\ (exists m', ObPythonUDFMgr.deep_copy m other = Some (OB_SUCCESS, m') /\ UdfMgrFacts.rep m' go).
Proof.
  intros Hmem Hr Ho. split; [now apply (UdfMgrFacts.assign_ok Hmem m g) | now apply (UdfMgrFacts.deep_copy_ok Hmem m g)].
Qed.

(** C25. The lookup by id goes through all schemas: it returns a schema of the
    catalogue with that id when there is one; when there is none it succeeds as well
    and leaves the caller's pointer as it was. *)
Theorem catalogue_by_id (m : ObPythonUDFMgr.t) g udf_id cur :
  UdfMgrFacts.rep m g ->
  exists o, ObPythonUDFMgr.get_python_udf_schema m udf_id cur = (OB_SUCCESS, o)
    /\ ((exists s, o = Some s /\ g !! ObSimplePythonUdfSchema.get_tenant_python_udf_id s = Some s
                   /\ ObSimplePythonUdfSchema.udf_id_ s = udf_id)
        \/ o = cur /\ forall k s, g !! k = Some s -> ObSimplePythonUdfSchema.udf_id_ s <> udf_id).
Proof. apply UdfMgrFacts.get_by_id_ok. Qed.

(** C26. [ObPointerHashMap] is a finite map.  From a map after [init], any sequence
    of [set_refactored] (with or without overwriting), [get_refactored],
    [erase_refactored], [clear] and [item_count] returns what the operations on a
    finite map return, for every hash function: through collisions, erased cells
    that are reused, added sub maps and rebuilds into larger arrays. *)
Theorem hash_map_is_a_map {K V} `{Countable K} `{PointerKey K V} (os : list (MapRun.op (K := K) (V := V))) :
  (forall n, alloc_ok n = true) ->
  exists m, ObPointerHashMap.init (V := V) ObPointerHashMap.new_map = (OB_SUCCESS, m)
    /\ MapRun.run m os = Some (MapRun.spec_run ∅ os).
Proof.
  intros Hmem. destruct (HashMapFacts.init_ok (K := K) (V := V) Hmem) as (m & Hi & Hinv & Hf). exists m. split; [exact Hi |].
  apply MapRun.map_run_ok; [exact Hmem |]. split; [exact Hinv |]. intros k. now rewrite Hf, lookup_empty.
Qed.

(** C27. A sorted vector keeps one element per key, in strictly increasing order of
    the keys: [replace] puts the value at its key, in place of the element that had
    it if any, and changes no other key; [remove_if] takes out the element with the
    key and returns it, or returns [OB_ENTRY_NOT_EXIST] when there is none. *)
Theorem sorted_vector_by_key {A K} `{EqDecision K} (key : A -> K) (ltb : K -> K -> bool) `{!StrictOrderB ltb}
    (v : ObVector.t A) (value : A) (k : K) :
  (forall n, alloc_ok n = true) -> SortedFacts.sorted key ltb (ObVector.elems_ v) ->
  (exists old v', ObSortedVector.replace v value (fun x y => ltb (key x) (key y)) (fun x y => bool_decide (key x = key y))
                  = Some (OB_SUCCESS, old, v')
     /\ SortedFacts.puts key ltb (ObVector.elems_ v) value (ObVector.elems_ v'))
  /\ ((exists x v', x ∈ ObVector.elems_ v /\ key x = k
         /\ ObSortedVector.remove_if v k (fun x k => ltb (key x) k) (fun x k => bool_decide (key x = k))
            = Some (OB_SUCCESS, Some x, v')
         /\ SortedFacts.takes key ltb (ObVector.elems_ v) k (ObVector.elems_ v'))
      \/ (forall x, x ∈ ObVector.elems_ v -> key x <> k)
         /\ ObSortedVector.remove_if v k (fun x k => ltb (key x) k) (fun x k => bool_decide (key x = k))
            = Some (OB_ENTRY_NOT_EXIST, None, v)).
Proof.
  intros Hmem Hs. split.
  - now apply SortedFacts.replace_ok.
  - now apply (SortedFacts.remove_if_ok key ltb (fun k => k)).
Qed.

(** A failed copy of a schema is not reported.  When there is memory for the
    object but not for the copy of its name, [alloc_schema] returns success with a
    schema that has the failure in [error_ret_] and no name: the error that
    [operator=] records is not the one [copy_assign] looks at. *)
Theorem schema_copy_failure_lost (s : ObPythonUDFMgr.Schema) :
  alloc_ok ObSimplePythonUdfSchema.sizeof = true ->
  ObSimplePythonUdfSchema.error_ret_ s = OB_SUCCESS -> ObSimplePythonUdfSchema.is_valid s = true ->
  alloc_ok (ObString.length (ObSimplePythonUdfSchema.udf_name_ s) + 1) = false ->
  exists s', ObSimplePythonUdfSchema.alloc_schema s = (OB_SUCCESS, Some s')
    /\ ObSimplePythonUdfSchema.error_ret_ s' = OB_ALLOCATE_MEMORY_FAILED
    /\ ObSimplePythonUdfSchema.udf_name_ s' = [] /\ ObSimplePythonUdfSchema.is_valid s' = false.
Proof.
  intros Ha He Hv Hn. unfold ObSimplePythonUdfSchema.alloc_schema. rewrite Ha. eexists. split; [reflexivity |].
  assert ((0 <? ObString.length (ObSimplePythonUdfSchema.udf_name_ s)) = true) as Hl.
  { apply Z.ltb_lt. unfold ObSimplePythonUdfSchema.is_valid, ObString.empty in Hv. rewrite !negb_orb in Hv.
    apply andb_prop in Hv as [_ Hv]. apply negb_true_iff, Z.eqb_neq in Hv. unfold ObString.length in *. lia. }
  unfold ObSimplePythonUdfSchema.op_assign, ObSimplePythonUdfSchema.deep_copy_str. rewrite He, Hl, Hn. simpl.
  repeat split. unfold ObSimplePythonUdfSchema.is_valid. simpl. now rewrite !orb_true_r.
Qed.
End Properties.

(** ** Witnesses *)
Section Witness.

#[local] Instance unlimited : Allocator := fun _ => true.
Lemma unlimited_ok n : alloc_ok n = true.
Proof. reflexivity. Qed.

(** Two functions of tenant 1 and one of tenant 2; [f] is redefined later. *)
Definition f_schema (id : Z) : ObPythonUDFMgr.Schema :=
  ObSimplePythonUdfSchema.mk 1 id [102] 1 [120] [105] INTEGER [112; 121] 7 OB_SUCCESS.
Definition g_schema : ObPythonUDFMgr.Schema :=
  ObSimplePythonUdfSchema.mk 1 501 [103; 50] 2 [120; 44; 121] [105; 44; 105] REAL [112; 121] 8 OB_SUCCESS.
Definition h_schema : ObPythonUDFMgr.Schema :=
  ObSimplePythonUdfSchema.mk 2 502 [102] 1 [120] [105] STRING [112; 121] 9 OB_SUCCESS.
Definition demo_ops : list MgrRun.op :=
  [MgrRun.Add g_schema; MgrRun.Add (f_schema 500); MgrRun.Add h_schema; MgrRun.Add (f_schema 510);
   MgrRun.GetByName 1 [102]; MgrRun.Count; MgrRun.Del (1, [103; 50]); MgrRun.Del (1, [103; 50]);
   MgrRun.GetByName 1 [103; 50]; MgrRun.DelTenant 1; MgrRun.Count; MgrRun.GetByName 2 [102]].

Lemma catalogue_is_a_map_witness :
  exists m m', ObPythonUDFMgr.init ObPythonUDFMgr.new = (OB_SUCCESS, m)
    /\ MgrRun.run m demo_ops
       = Some ([MgrRun.Code OB_SUCCESS; MgrRun.Code OB_SUCCESS; MgrRun.Code OB_SUCCESS; MgrRun.Code OB_SUCCESS;
                MgrRun.Found OB_SUCCESS (Some (f_schema 510)); MgrRun.Number OB_SUCCESS 3;
                MgrRun.Code OB_SUCCESS; MgrRun.Code OB_ENTRY_NOT_EXIST; MgrRun.Found OB_SUCCESS None;
                MgrRun.Code OB_SUCCESS; MgrRun.Number OB_SUCCESS 1; MgrRun.Found OB_SUCCESS (Some h_schema)], m').
Proof.
  destruct (catalogue_is_a_map demo_ops unlimited_ok ltac:(repeat constructor; discriminate)) as (m & m' & Hi & Hr & _).
  exists m, m'. split; [exact Hi | exact Hr].
Defined.

Definition empty_mgr : ObPythonUDFMgr.t := snd (ObPythonUDFMgr.init ObPythonUDFMgr.new).

Lemma empty_mgr_rep : UdfMgrFacts.rep empty_mgr ∅.
Proof. destruct (UdfMgrFacts.new_ok unlimited_ok) as (m & Hi & Hr). unfold empty_mgr. now rewrite Hi. Qed.

Lemma two_rep : exists m, MgrRun.run empty_mgr [MgrRun.Add g_schema; MgrRun.Add h_schema] = Some ([MgrRun.Code OB_SUCCESS; MgrRun.Code OB_SUCCESS], m)
  /\ UdfMgrFacts.rep m {[(2, [102]) := h_schema; (1, [103; 50]) := g_schema]}.
Proof.
  destruct (MgrRun.mgr_run_ok unlimited_ok [MgrRun.Add g_schema; MgrRun.Add h_schema] empty_mgr ∅ empty_mgr_rep
    ltac:(repeat constructor; discriminate)) as (m & Hm & Hr). exists m. split; [exact Hm | exact Hr].
Qed.

Lemma catalogue_copies_witness :
  exists other, UdfMgrFacts.rep other {[(2, [102]) := h_schema; (1, [103; 50]) := g_schema]}
    /\ (exists m', ObPythonUDFMgr.assign empty_mgr other = (OB_SUCCESS, m')
                   /\ UdfMgrFacts.rep m' {[(2, [102]) := h_schema; (1, [103; 50]) := g_schema]})
    /\ exists m', ObPythonUDFMgr.deep_copy empty_mgr other = Some (OB_SUCCESS, m')
                  /\ UdfMgrFacts.rep m' {[(2, [102]) := h_schema; (1, [103; 50]) := g_schema]}.
Proof.
  destruct two_rep as (other & _ & Hr). exists other. split; [exact Hr |].
  exact (catalogue_copies empty_mgr other ∅ _ unlimited_ok empty_mgr_rep Hr).
Defined.

Lemma catalogue_by_id_witness :
  exists m o, ObPythonUDFMgr.get_python_udf_schema m 501 None = (OB_SUCCESS, o)
    /\ ((exists s, o = Some s /\ ({[(2, [102]) := h_schema; (1, [103; 50]) := g_schema]} : gmap (Z * list Z) _) !! ObSimplePythonUdfSchema.get_tenant_python_udf_id s = Some s
                   /\ ObSimplePythonUdfSchema.udf_id_ s = 501)
        \/ o = None /\ forall k s, ({[(2, [102]) := h_schema; (1, [103; 50]) := g_schema]} : gmap (Z * list Z) _) !! k = Some s
                                  -> ObSimplePythonUdfSchema.udf_id_ s <> 501).
Proof.
  destruct two_rep as (m & _ & Hr). exists m. exact (catalogue_by_id m _ 501 None Hr).
Defined.

(** A map of integers whose keys all have the same hash. *)
#[local] Instance collide : PointerKey Z (Z * Z) := {| get_key_ := fst; do_hash _ := 5; do_hash_pos _ := ltac:(lia) |}.

Lemma hash_map_is_a_map_witness :
  exists m, ObPointerHashMap.init (V := Z * Z) ObPointerHashMap.new_map = (OB_SUCCESS, m)
    /\ MapRun.run m [MapRun.Set_ (1, 10) false; MapRun.Set_ (2, 20) false; MapRun.Set_ (2, 21) false; MapRun.Set_ (2, 22) true;
                     MapRun.Erase 1; MapRun.Get 2; MapRun.Set_ (3, 30) false; MapRun.Get 1; MapRun.Count]
       = Some [MapRun.Code OB_SUCCESS; MapRun.Code OB_SUCCESS; MapRun.Code OB_HASH_EXIST; MapRun.Code OB_SUCCESS;
               MapRun.Code OB_SUCCESS; MapRun.Found OB_SUCCESS (Some (2, 22)); MapRun.Code OB_SUCCESS;
               MapRun.Found OB_HASH_NOT_EXIST None; MapRun.Number 2].
Proof. exact (hash_map_is_a_map _ unlimited_ok). Defined.

Lemma Zltb_order : StrictOrderB Z.ltb.
Proof.
  split; [apply Z.ltb_irrefl | intros a b c; rewrite !Z.ltb_lt; lia | intros a b; rewrite !Z.ltb_lt; lia].
Qed.

Lemma sorted_vector_by_key_witness :
  SortedFacts.sorted (fun x : Z * Z => fst x) Z.ltb [(1, 10); (3, 30)]
  /\ exists old v', ObSortedVector.replace (ObVector.mk [(1, 10); (3, 30)] 4) (2, 20) (fun x y => fst x <? fst y)
                      (fun x y => bool_decide (fst x = fst y)) = Some (OB_SUCCESS, old, v')
       /\ SortedFacts.puts (fun x => fst x) Z.ltb [(1, 10); (3, 30)] (2, 20) (ObVector.elems_ v').
Proof.
  assert (SortedFacts.sorted (fun x : Z * Z => fst x) Z.ltb [(1, 10); (3, 30)]) as Hs by (repeat constructor).
  split; [exact Hs |].
  exact (proj1 (sorted_vector_by_key (StrictOrderB0 := Zltb_order) (fun x : Z * Z => fst x) Z.ltb (ObVector.mk [(1, 10); (3, 30)] 4) (2, 20) 3 unlimited_ok Hs)).
Defined.

(** Memory for objects of at least 16 bytes only. *)
Definition no_small : Allocator := fun n => 16 <=? n.

Lemma schema_copy_failure_lost_witness :
  exists s', ObSimplePythonUdfSchema.alloc_schema (H := no_small) g_schema = (OB_SUCCESS, Some s')
    /\ ObSimplePythonUdfSchema.error_ret_ s' = OB_ALLOCATE_MEMORY_FAILED
    /\ ObSimplePythonUdfSchema.udf_name_ s' = [] /\ ObSimplePythonUdfSchema.is_valid s' = false.
Proof. apply (schema_copy_failure_lost (H := no_small) g_schema); vm_compute; reflexivity. Defined.
End Witness.
