(* ===== verification/PyApi.v ===== *)
(** The Python side: the interpreter, numpy and the user's functions are not
    part of the repository, so they are parameters.

    [PyApi] lists the calls the engine makes; [PyLaws] what the engine relies on:
    numpy's indexing and concatenation of arrays of one element type, as their
    documentation states them, and the contract of a user function, which maps
    every row of its arguments to one element of its result. *)
From S2P Require Import Prelude Frame.

(** The arrays [PyArray_New] builds for the three element types the engine uses:
    [NPY_OBJECT] (of Python strings, by their UTF-8 bytes), [NPY_INT32] and
    [NPY_FLOAT64] (a double as its 64 bits). *)
Inductive NpArray := NpObject (l : list bytes) | NpInt32 (l : list Z) | NpFloat64 (l : list Z).

(** One element of such an array. *)
Inductive ArgVal := VStr (b : bytes) | VInt (z : Z) | VDouble (bits : Z).

Definition np_vals (a : NpArray) : list ArgVal :=
  match a with
  | NpObject l => map VStr l
  | NpInt32 l => map VInt l
  | NpFloat64 l => map VDouble l
  end.
Definition np_len (a : NpArray) : nat := length (np_vals a).

(** The elements [off, off + n). *)
Definition np_slice (off n : nat) (a : NpArray) : NpArray :=
  match a with
  | NpObject l => NpObject (take n (drop off l))
  | NpInt32 l => NpInt32 (take n (drop off l))
  | NpFloat64 l => NpFloat64 (take n (drop off l))
  end.

Definition np_app (a b : NpArray) : NpArray :=
  match a, b with
  | NpObject l, NpObject l' => NpObject (l ++ l')
  | NpInt32 l, NpInt32 l' => NpInt32 (l ++ l')
  | NpFloat64 l, NpFloat64 l' => NpFloat64 (l ++ l')
  | _, _ => a
  end.

(** Two arrays of the same element type. *)
Definition same_kind (a b : NpArray) : Prop :=
  match a, b with
  | NpObject _, NpObject _ | NpInt32 _, NpInt32 _ | NpFloat64 _, NpFloat64 _ => True
  | _, _ => False
  end.

(** Row [k] of the arguments of a call. *)
Definition row_at (args : list NpArray) (k : nat) : list (option ArgVal) :=
  map (fun a => np_vals a !! k) args.

Lemma np_slice_vals off n a : np_vals (np_slice off n a) = take n (drop off (np_vals a)).
Proof. destruct a; simpl; now rewrite !fmap_take, !fmap_drop. Qed.

Lemma np_app_vals a b : same_kind a b -> np_vals (np_app a b) = np_vals a ++ np_vals b.
Proof. destruct a, b; simpl; intros []; apply map_app. Qed.

Lemma np_app_len a b : same_kind a b -> np_len (np_app a b) = (np_len a + np_len b)%nat.
Proof. intros E. unfold np_len. now rewrite np_app_vals, length_app. Qed.

Lemma row_at_slice off n args k :
  (k < n)%nat -> row_at (map (np_slice off n) args) k = row_at args (off + k).
Proof.
  intros Hk. unfold row_at. rewrite map_map. apply map_ext. intros a.
  rewrite np_slice_vals, lookup_take_lt, lookup_drop by lia. reflexivity.
Qed.

Class PyApi := mkPyApi
  { PyState : Type;   (* the interpreter *)
    PyObj : Type;     (* what a user function returns *)
    PyItem : Type;    (* an element of it *)
    PyTuple_New_ok : PyState -> Z -> bool;
    PyUnicode_ok : bytes -> bool;         (* PyUnicode_FromStringAndSize is not NULL *)
    find_pyfun : PyState -> string -> bool;  (* GetAttrString and PyCallable_Check *)
    PyObject_CallObject : PyState -> string -> list NpArray -> PyState * option PyObj;
    PyArray_Concatenate : PyObj -> PyObj -> option PyObj;
    PyArray_GETITEM : PyObj -> Z -> option PyItem;
    PyUnicode_AsUTF8 : PyItem -> option bytes;
    PyLong_AsLong : PyItem -> Z;
    PyFloat_AsDouble : PyItem -> Z }.

(** The laws: [items] and [dtype] of an array object. *)
Class PyLaws (api : PyApi) := mkPyLaws
  { dtype_t : Type;
    items : PyObj -> list PyItem;
    dtype : PyObj -> dtype_t;
    getitem_items : forall o i, PyArray_GETITEM o i = rd (items o) i;
    concat_items : forall a b, dtype a = dtype b ->
      exists c, PyArray_Concatenate a b = Some c /\ dtype c = dtype a /\ items c = items a ++ items b;
    py_ok : PyState -> Prop;   (* states in which the functions are loaded *)
    py_tuple : forall s n, py_ok s -> PyTuple_New_ok s n = true }.

(** The contract of the user function [name], at the states [py_ok]: called with
    [n > 0] rows of arguments it returns [n] elements of one type, element [k]
    the function [f] of row [k]; it raises nothing and leaves the module usable. *)
Definition row_function `{PyLaws} (name : string) (f : list (option ArgVal) -> PyItem) : Prop :=
  exists d, forall s args n,
    py_ok s -> (0 < n)%nat -> args <> [] -> Forall (fun a => np_len a = n) args ->
    find_pyfun s name = true
    /\ exists s' o, PyObject_CallObject s name args = (s', Some o) /\ py_ok s'
         /\ dtype o = d /\ items o = map (fun k => f (row_at args k)) (seq 0 n).
