(* ===== verification/BatchSize.v ===== *)
(** The adaptive batch size of a Python UDF: [ObPythonUdfInfo] (its run-time
    part) and [ObPythonUDFCell::modify_desirable] of
    [src/src/sql/engine/python_udf_engine/ob_python_udf_op.cpp].

    The code's doubles are IEEE binary64 values, computed with the operations of
    [SpecFloat] at precision 53 and exponent range 1024.  [predict_size], [round],
    [round_limit] and [delta] are [int]: their sums wrap at 32 bits; the products
    before the division are [int64_t]. *)
From Stdlib Require Import SpecFloat.
From S2P Require Import Prelude.

Definition double := spec_float.
Definition dof_Z (z : Z) : double := binary_normalize 53 1024 z 0 false.
Definition dadd : double -> double -> double := SFadd 53 1024.
Definition dsub : double -> double -> double := SFsub 53 1024.
Definition dmul : double -> double -> double := SFmul 53 1024.
Definition ddiv : double -> double -> double := SFdiv 53 1024.
(** [a > b], false on NaN, and [a == 0]. *)
Definition dgtb (a b : double) : bool := SFltb b a.
Definition dltb (a b : double) : bool := SFltb a b.
Definition dzero (a : double) : bool := SFeqb a (dof_Z 0).

(** The literals [0.1] and [0.25]. *)
Definition d_0_1 : double := S754_finite false 7205759403792794 (-56).
Definition d_0_25 : double := S754_finite false 4503599627370496 (-54).
Definition d_inf : double := S754_infinity false.

(** [ObPythonUdfInfo]: of [udf_meta_] the fields execution reads, and the state
    of the batch-size control. *)
Record ObPythonUdfInfo := mkInfo
  { name_ : string; ret_ : PyUdfRetType;
    predict_size : Z; tps_s : double; lambda : double; alpha : double;
    round : Z; round_limit : Z; delta : Z }.

(** The values [ObPythonUdfInfo::from_raw_expr] starts from. *)
Definition initial_info (name : string) (ret : PyUdfRetType) : ObPythonUdfInfo :=
  mkInfo name ret 256 (dof_Z 0) d_0_1 d_0_25 0 10 256.

Record timeval := mkTime { tv_sec : Z; tv_usec : Z }.

(** [(end.tv_sec - start.tv_sec) * 1000000 + (double)(end.tv_usec - start.tv_usec)]. *)
Definition timeuse (start end_ : timeval) : double :=
  dadd (dof_Z (to_int64 ((tv_sec end_ - tv_sec start) * 1000000)))
       (dof_Z (to_int64 (tv_usec end_ - tv_usec start))).

Definition tps_of (start end_ : timeval) (eval_size : Z) : double :=
  ddiv (dof_Z (to_int64 (eval_size * 1000000))) (timeuse start end_).

Definition with_control (i : ObPythonUdfInfo) (ps : Z) (t : double) (r : Z) : ObPythonUdfInfo :=
  mkInfo (name_ i) (ret_ i) ps t (lambda i) (alpha i) r (round_limit i) (delta i).

(** [modify_desirable]: the new info; the cell's [desirable_] becomes its
    [predict_size]. *)
Definition modify_desirable (info : ObPythonUdfInfo) (start end_ : timeval) (eval_size : Z)
    : ObPythonUdfInfo :=
  let tps := tps_of start end_ eval_size in
  if dzero (tps_s info) then
    with_control info (to_int32 (predict_size info + delta info)) tps (round info)
  else if (round_limit info <? round info) || negb (eval_size =? predict_size info) then info
  else if dgtb tps (tps_s info) then
    let r := if dltb tps (dmul (dadd (dof_Z 1) (lambda info)) (tps_s info))
             then to_int32 (round info + 1) else round info in
    with_control info (to_int32 (predict_size info + delta info)) tps r
  else
    let t := dadd (dmul (dsub (dof_Z 1) (alpha info)) (tps_s info)) (dmul (alpha info) tps) in
    let r := if dgtb tps (dmul (dsub (dof_Z 1) (lambda info)) t)
             then to_int32 (round info + 1) else round info in
    with_control info (predict_size info) t r.

(** ** What a step may change *)

(** The parameters no step changes. *)
Definition same_params (i j : ObPythonUdfInfo) : Prop :=
  name_ j = name_ i /\ ret_ j = ret_ i /\ lambda j = lambda i /\ alpha j = alpha i
  /\ round_limit j = round_limit i /\ delta j = delta i.

#[export] Instance same_params_preorder : PreOrder same_params.
Proof.
  split; [intros i; repeat split |]. unfold same_params. intros i j k. intuition congruence.
Qed.

Lemma modify_same_params i s e n : same_params i (modify_desirable i s e n).
Proof.
  unfold modify_desirable. repeat case_match; repeat split.
Qed.

(** The members that are [int] hold 32-bit values. *)
Definition int_range (z : Z) : Prop := - 2 ^ 31 <= z < 2 ^ 31.
Lemma to_int32_small z : int_range z -> to_int32 z = z.
Proof. intros Hz. unfold to_int32. apply swrap_small; [lia | exact Hz]. Qed.

(** The batch size stays or grows by [delta], modulo the width; the rounds count up
    by at most one and never past [round_limit + 1]. *)
Lemma modify_step i s e n :
  let j := modify_desirable i s e n in
  (predict_size j = predict_size i \/ predict_size j = to_int32 (predict_size i + delta i))
  /\ (round j = round i \/ round i <= round_limit i /\ round j = to_int32 (round i + 1)
                             /\ dzero (tps_s i) = false).
Proof.
  unfold modify_desirable. destruct (dzero (tps_s i)); [simpl; auto |].
  destruct (Z.ltb_spec (round_limit i) (round i)) as [| Hr]; cbn [orb]; [auto |].
  repeat case_match; simpl; auto.
Qed.

(** An [int] has room for [k] more steps. *)
Definition size_fits (i : ObPythonUdfInfo) (k : Z) : Prop := predict_size i + delta i * k < 2 ^ 31.

Lemma modify_fits i s e n k :
  0 < predict_size i -> 0 <= delta i -> 0 <= k -> size_fits i (k + 1) ->
  let j := modify_desirable i s e n in
  (predict_size j = predict_size i \/ predict_size j = predict_size i + delta i) /\ size_fits j k.
Proof.
  intros Hp Hd Hk Hf j. unfold size_fits in *. destruct (modify_step i s e n) as [Hs _]. fold j in Hs.
  destruct (modify_same_params i s e n) as (_ & _ & _ & _ & _ & Hdl). fold j in Hdl. rewrite Hdl.
  rewrite to_int32_small in Hs by (unfold int_range; nia). split; [exact Hs |]. nia.
Qed.

Lemma modify_rounds i s e n :
  0 <= round i <= round_limit i + 1 -> round_limit i < 2 ^ 31 - 1 ->
  0 <= round (modify_desirable i s e n) <= round_limit (modify_desirable i s e n) + 1.
Proof.
  intros Hr Hl. destruct (modify_same_params i s e n) as (_ & _ & _ & _ & -> & _).
  destruct (modify_step i s e n) as [_ [-> | (Hle & -> & _)]]; [exact Hr |].
  rewrite to_int32_small by (unfold int_range; lia). lia.
Qed.

(** A history of measurements, oldest first. *)
Definition run_control (i : ObPythonUdfInfo) (h : list (timeval * timeval * Z)) : ObPythonUdfInfo :=
  fold_left (fun i '(s, e, n) => modify_desirable i s e n) h i.

(** While the [int] has room, the size only grows, [delta] at a time. *)
Lemma run_control_sizes h : forall i k, 0 < predict_size i -> 0 <= delta i -> 0 <= k ->
  size_fits i (Z.of_nat (length h) + k) ->
  let j := run_control i h in
  size_fits j k /\ delta j = delta i
  /\ exists c, 0 <= c <= Z.of_nat (length h) /\ predict_size j = predict_size i + delta i * c.
Proof.
  induction h as [| [[s e] n] h IH]; intros i k Hp Hd Hk Hf; cbn [run_control fold_left length] in *.
  - split; [exact Hf |]. split; [reflexivity |]. exists 0. lia.
  - destruct (modify_fits i s e n (Z.of_nat (length h) + k) Hp Hd ltac:(lia)) as [Hs Hf'].
    { unfold size_fits in *. nia. }
    destruct (modify_same_params i s e n) as (_ & _ & _ & _ & _ & Hdl).
    destruct (IH (modify_desirable i s e n) k) as (H1 & H2 & c & Hc & H3); rewrite ?Hdl; auto; [destruct Hs; lia |].
    split; [exact H1 |]. split; [exact (eq_trans H2 Hdl) |]. unfold run_control in H3. rewrite H3, Hdl.
    destruct Hs as [-> | ->]; [exists c | exists (c + 1)]; lia.
Qed.

Lemma run_control_rounds h i :
  0 <= round i <= round_limit i + 1 -> round_limit i < 2 ^ 31 - 1 ->
  0 <= round (run_control i h) <= round_limit i + 1.
Proof.
  revert i. induction h as [| [[s e] n] h IH]; intros i Hr Hl; [exact Hr |].
  pose proof (modify_rounds i s e n Hr Hl) as Hr'. destruct (modify_same_params i s e n) as (_ & _ & _ & _ & Hlim & _).
  specialize (IH (modify_desirable i s e n)). rewrite Hlim in IH, Hr'. exact (IH Hr' Hl).
Qed.

(** Once the rounds are used up the size is final. *)
Lemma run_control_final h i :
  dzero (tps_s i) = false -> round_limit i < round i -> run_control i h = i.
Proof.
  intros Ht Hr. induction h as [| [[s e] n] h IH]; [reflexivity |].
  cbn [run_control fold_left]. unfold modify_desirable at 2. rewrite Ht.
  destruct (Z.ltb_spec (round_limit i) (round i)); [exact IH | lia].
Qed.

(** ** A measured interval of zero *)

(** Throughputs no later measurement exceeds. *)
Definition stuck (d : double) : Prop := d = d_inf \/ d = S754_nan.

Lemma stuck_not_zero d : stuck d -> dzero d = false.
Proof. intros [-> | ->]; reflexivity. Qed.

Lemma stuck_dgtb d x : stuck d -> dgtb x d = false.
Proof. intros [-> | ->]; destruct x as [[] | [] | | []]; reflexivity. Qed.

Lemma stuck_scale d c m e :
  stuck d -> c = S754_finite false m e -> stuck (dmul c d).
Proof. intros [-> | ->] ->; [left | right]; reflexivity. Qed.

Lemma stuck_add d x : stuck d -> stuck (dadd d x).
Proof.
  intros [-> | ->]; [| destruct x; right; reflexivity].
  destruct x as [[] | [] | | []]; (left; reflexivity) || (right; reflexivity).
Qed.

(** With the constants the engine uses, an infinite (or undefined) throughput
    estimate is never replaced by a finite one, and the size never moves. *)
Lemma stuck_step i s e n :
  lambda i = d_0_1 -> alpha i = d_0_25 -> stuck (tps_s i) ->
  stuck (tps_s (modify_desirable i s e n))
  /\ predict_size (modify_desirable i s e n) = predict_size i.
Proof.
  intros Hl Ha Hs. unfold modify_desirable. rewrite (stuck_not_zero _ Hs).
  destruct (_ || _); [auto |]. rewrite (stuck_dgtb _ _ Hs). simpl. split; [| reflexivity].
  apply stuck_add. eapply stuck_scale; [exact Hs |]. rewrite Ha. vm_compute. reflexivity.
Qed.

Lemma run_control_stuck h i :
  lambda i = d_0_1 -> alpha i = d_0_25 -> stuck (tps_s i) ->
  predict_size (run_control i h) = predict_size i.
Proof.
  revert i. induction h as [| [[s e] n] h IH]; intros i Hl Ha Hs; [reflexivity |].
  destruct (stuck_step i s e n Hl Ha Hs) as [Hs' <-].
  pose proof (modify_same_params i s e n) as (_ & _ & Hl' & Ha' & _).
  apply (IH (modify_desirable i s e n)); congruence || exact Hs'.
Qed.

Lemma first_interval_zero name ret t n :
  1 <= n <= 256 -> tps_s (modify_desirable (initial_info name ret) t t n) = d_inf
  /\ predict_size (modify_desirable (initial_info name ret) t t n) = 512.
Proof.
  intros Hn. unfold modify_desirable. simpl dzero. cbn iota. simpl. split; [| reflexivity].
  unfold tps_of, timeuse. rewrite !Z.sub_diag. simpl (dadd _ _).
  assert (forallb (fun k => match dof_Z (to_int64 (Z.of_nat k * 1000000)) with
                            | S754_finite false _ _ => true | _ => false end) (seq 1 256) = true) as H
    by (vm_compute; reflexivity).
  rewrite forallb_forall in H. specialize (H (Z.to_nat n)).
  rewrite in_seq, Z2Nat.id in H by lia. specialize (H ltac:(lia)).
  destruct (dof_Z (to_int64 (n * 1000000))) as [| | | []]; try discriminate. reflexivity.
Qed.
