(* ===== verification/BatchTheorems.v ===== *)
(** The properties of the batch-size control. *)
From Stdlib Require Import SpecFloat.
From S2P Require Import Prelude BatchSize.

(** C8.  Whatever times are measured in a run of fewer than 2^23 - 1 calls, at
    which the 32-bit size has room to grow, the batch size of a UDF starts at 256,
    never shrinks, grows by 256 at most once per call and stays a multiple of 256;
    and after any number of calls the count of stable rounds is at most its limit
    plus one. *)
Theorem batch_size_grows_in_steps name ret h h' :
  Z.of_nat (length (h ++ h')) < 2 ^ 23 - 1 ->
  let i := run_control (initial_info name ret) h in
  let j := run_control (initial_info name ret) (h ++ h') in
  predict_size (initial_info name ret) = 256 /\ 256 <= predict_size i /\ predict_size i <= predict_size j
  /\ predict_size j <= predict_size i + 256 * Z.of_nat (length h')
  /\ (256 | predict_size i)
  /\ forall l, 0 <= round (run_control (initial_info name ret) l) <= 11.
Proof.
  rewrite length_app. intros Hl i j.
  destruct (run_control_sizes h (initial_info name ret) (Z.of_nat (length h'))) as (Hf & Hd & c & Hc & Hp);
    [easy | easy | lia | unfold size_fits; simpl; lia |]. fold i in Hf, Hd, Hp. simpl in Hd, Hp.
  assert (j = run_control i h') as Ej by (unfold j, i, run_control; now rewrite fold_left_app).
  destruct (run_control_sizes h' i 0) as (_ & _ & c' & Hc' & Hp'); [lia | lia | lia | now rewrite Z.add_0_r |].
  rewrite <- Ej in Hp'. rewrite Hd in Hp'. split; [reflexivity |]. split; [lia |]. split; [lia |]. split; [lia |].
  split; [exists (1 + c); lia |]. intros l. apply (run_control_rounds l (initial_info name ret)); simpl; lia.
Qed.
Lemma batch_size_grows_in_steps_witness :
  let i := run_control (initial_info "f" INTEGER) [(mkTime 0 0, mkTime 0 100, 256)] in
  256 <= predict_size i /\ (256 | predict_size i).
Proof.
  destruct (batch_size_grows_in_steps "f" INTEGER [(mkTime 0 0, mkTime 0 100, 256)] [(mkTime 0 0, mkTime 0 100, 512)] ltac:(simpl; lia))
    as (_ & H1 & _ & _ & H2 & _). split; [exact H1 | exact H2].
Defined.

(** Beyond that the 32-bit size wraps: it becomes negative. *)
Example batch_size_overflows :
  predict_size (modify_desirable (with_control (initial_info "f" INTEGER) (2 ^ 31 - 256) (dof_Z 1) 0) (mkTime 0 0) (mkTime 0 1) (2 ^ 31 - 256))
  = - 2 ^ 31.
Proof. vm_compute. reflexivity. Qed.

(** C9.  The control converges: once the count of stable rounds has passed its
    limit (and a throughput was measured), no later measurement changes anything,
    so the batch size is final. *)
Theorem batch_size_final i h :
  dzero (tps_s i) = false -> round_limit i < round i -> run_control i h = i.
Proof. apply run_control_final. Qed.

(** Twelve calls of the same speed use up the rounds; a much faster one after
    that no longer matters. *)
Definition steady : list (timeval * timeval * Z) :=
  map (fun n => (mkTime 0 0, mkTime 0 n, n)) ([256] ++ replicate 14 512).
Lemma batch_size_final_witness :
  run_control (run_control (initial_info "f" INTEGER) steady) [(mkTime 0 0, mkTime 0 1, 512)]
  = run_control (initial_info "f" INTEGER) steady.
Proof. apply batch_size_final; vm_compute; reflexivity. Defined.

(** A first call that takes no measurable time freezes the control: its
    throughput is infinite, the batch size becomes 512, and it stays 512 for
    ever after, however the later calls perform. *)
Theorem zero_interval_freezes name ret t n h :
  1 <= n <= 256 -> predict_size (run_control (initial_info name ret) ((t, t, n) :: h)) = 512.
Proof.
  intros Hn. destruct (first_interval_zero name ret t n Hn) as [Ht Hp]. cbn [run_control fold_left].
  rewrite <- Hp. apply (run_control_stuck h).
  - now destruct (modify_same_params (initial_info name ret) t t n) as (_ & _ & -> & _).
  - now destruct (modify_same_params (initial_info name ret) t t n) as (_ & _ & _ & -> & _).
  - left. exact Ht.
Qed.

Lemma zero_interval_freezes_witness :
  predict_size (run_control (initial_info "f" REAL)
    ((mkTime 1 5, mkTime 1 5, 256) :: map (fun n => (mkTime 0 0, mkTime 0 n, 512)) [400; 300; 200; 100])) = 512.
Proof. apply zero_interval_freezes. lia. Defined.
