(* ===== verification/UdfMeta.v ===== *)
(** The metadata of a Python function from the resolved expression to the
    worker that runs it: [ObPythonUDFMeta] ([src/share/schema/ob_python_udf.h],
    [.cpp]), [ObPythonUdfRawExpr::set_udf_meta]
    ([src/sql/resolver/expr/ob_raw_expr.cpp]), [ObExprPythonUdf::deep_copy_udf_meta]
    and [ObPythonUdfInfo] ([src/sql/engine/expr/ob_expr_python_udf.cpp]). *)
From S2P Require Import Prelude FixedArray SEArray HashArray SortedVector UdfSchema.
From S2P Require Import Serialization UdfObject BatchSize.

(** [ob_write_string] without [c_style]: a copy with no terminator.  [None]
    when the source cannot be read. *)
Definition ob_write_string `{Allocator} (src : ObStr) : option (Z * ObStr) :=
  let src_len := data_length_ src in
  match ptr_ src with
  | Null => Some (OB_SUCCESS, mkStr 0 0 Null)
  | _ =>
      if src_len <=? 0 then Some (OB_SUCCESS, mkStr 0 0 Null)
      else if negb (alloc_ok src_len) then Some (OB_ALLOCATE_MEMORY_FAILED, mkStr 0 0 Null)
      else bs ← obstr_bytes src; Some (OB_SUCCESS, mkStr 0 src_len (To bs))
  end.

Module ObPythonUDFMeta.
Record t := mk {
  name_ : ObStr; ret_ : PyUdfRetType; pycall_ : ObStr;
  udf_attributes_names_ : ObSEArray.t ObStr; udf_attributes_types_ : ObSEArray.t PyUdfRetType;
  init_ : bool; batch_size_ : Z; batch_size_const_ : bool
}.

Section Ops.
Context `{Allocator}.

Definition new : t :=
  mk obstr_reset UDF_UNINITIAL obstr_reset ObSEArray.empty ObSEArray.empty false 256 false.

(** [assign] and [operator=]: strings are shared, arrays copied. *)
Definition op_assign (this other : t) : option t :=
  names ← ObSEArray.op_assign (udf_attributes_names_ this) (udf_attributes_names_ other);
  types ← ObSEArray.op_assign (udf_attributes_types_ this) (udf_attributes_types_ other);
  Some (mk (name_ other) (ret_ other) (pycall_ other) names types (init_ other)
           (batch_size_ other) (batch_size_const_ other)).

(** [OB_SERIALIZE_MEMBER(ObPythonUDFMeta, ...)]. *)
Definition members : Type :=
  unit * ObStr * PyUdfRetType * ObStr * ObSEArray.t ObStr * ObSEArray.t PyUdfRetType * bool * int32 * bool.
Definition to_members (x : t) : members :=
  (tt, name_ x, ret_ x, pycall_ x, udf_attributes_names_ x, udf_attributes_types_ x, init_ x,
   Int32 (batch_size_ x), batch_size_const_ x).
Definition of_members (x : members) : t :=
  let '(_, name, r, pycall, names, types, init, batch_size, batch_size_const) := x in
  mk name r pycall names types init (int32_v batch_size) batch_size_const.
Definition UNIS_VERSION : Z := 1.
Definition serialize m buf buf_len pos (x : t) : encoded :=
  unis_serialize UNIS_VERSION m buf buf_len pos (to_members x).
Definition deserialize m buf data_len pos (x : t) : decoded t :=
  dmap of_members (unis_deserialize UNIS_VERSION m buf data_len pos (to_members x)).
Definition get_serialize_size (x : t) : Z := unis_get_serialize_size UNIS_VERSION (to_members x).
#[global] Instance serial_meta : Serial t := {
  encode := serialize; decode := deserialize; encoded_length := get_serialize_size
}.

(** [ObExprPythonUdf::deep_copy_udf_meta]: the types are appended to those
    [dst] has; the names and the batch size stay as [dst] has them. *)
Definition deep_copy_udf_meta (dst src : t) : option (Z * t) :=
  let dst := mk (name_ dst) (ret_ src) (pycall_ dst) (udf_attributes_names_ dst) (udf_attributes_types_ dst)
                (init_ src) (batch_size_ dst) (batch_size_const_ dst) in
  '(ret, name) ← ob_write_string (name_ src);
  let dst := mk name (ret_ dst) (pycall_ dst) (udf_attributes_names_ dst) (udf_attributes_types_ dst)
                (init_ dst) (batch_size_ dst) (batch_size_const_ dst) in
  if OB_FAIL ret then Some (ret, dst)
  else
    '(ret, pycall) ← ob_write_string (pycall_ src);
    let dst := mk (name_ dst) (ret_ dst) pycall (udf_attributes_names_ dst) (udf_attributes_types_ dst)
                  (init_ dst) (batch_size_ dst) (batch_size_const_ dst) in
    if OB_FAIL ret then Some (ret, dst)
    else
      types ← ObPythonUDF.push_all (udf_attributes_types_ dst) (ObSEArray.items_ (udf_attributes_types_ src));
      Some (ret, mk (name_ dst) (ret_ dst) (pycall_ dst) (udf_attributes_names_ dst) types
                    (init_ dst) (batch_size_ dst) (batch_size_const_ dst)).

(** [ObPythonUdfRawExpr::set_udf_meta]: the code of a batch size out of range
    is overwritten by the calls that follow.  [inner_alloc] is whether the
    expression has its allocator. *)
Definition set_udf_meta (inner_alloc : bool) (this : t) (udf : ObPythonUDF.t) (batch_size : Z) : option (Z * t) :=
  let '(ret, bs, const) :=
    if 0 =? batch_size then (OB_SUCCESS, 256, false)
    else if (batch_size <? 256) || (8192 <? batch_size) then (OB_INVALID_ARGUMENT, batch_size_ this, batch_size_const_ this)
    else (OB_SUCCESS, batch_size, true) in
  let this := mk (name_ this) (ObPythonUDF.ret_ udf) (pycall_ this) (udf_attributes_names_ this)
                 (udf_attributes_types_ this) false bs const in
  if negb inner_alloc then Some (OB_ERR_UNEXPECTED, this)
  else
    '(ret, name) ← ob_write_string (obstr_of (ObPythonUDF.name_ udf));
    let this := mk name (ret_ this) (pycall_ this) (udf_attributes_names_ this)
                   (udf_attributes_types_ this) (init_ this) bs const in
    if OB_FAIL ret then Some (ret, this)
    else
      '(ret, pycall) ← ob_write_string (obstr_of (ObPythonUDF.pycall_ udf));
      let this := mk (name_ this) (ret_ this) pycall (udf_attributes_names_ this)
                     (udf_attributes_types_ this) (init_ this) bs const in
      if OB_FAIL ret then Some (ret, this)
      else
        '(ret, types) ← ObPythonUDF.get_arg_types_arr udf (udf_attributes_types_ this);
        let this := mk (name_ this) (ret_ this) (pycall_ this) (udf_attributes_names_ this)
                       types (init_ this) bs const in
        if OB_FAIL ret then Some (ret, this)
        else
          '(ret, names) ← ObPythonUDF.get_arg_names_arr udf (udf_attributes_names_ this);
          Some (ret, mk (name_ this) (ret_ this) (pycall_ this) names
                        (udf_attributes_types_ this) (init_ this) bs const).
End Ops.
End ObPythonUDFMeta.

(** ** [ObPythonUdfInfo], the extra information of the run-time expression *)
Module UdfInfo.

(** The fields of the batch-size control. *)
Record control := mkControl
  { predict_size : Z; tps_s : double; lambda : double; alpha : double; round : Z; round_limit : Z; delta : Z }.

(** [control_] is [None] until something writes these fields: the constructor
    does not. *)
Record t := mk { udf_meta_ : ObPythonUDFMeta.t; control_ : option control }.

Section Ops.
Context `{Allocator}.

Definition new : t := mk ObPythonUDFMeta.new None.

(** The values [from_raw_expr] gives the control. *)
Definition initial_control : control := mkControl 256 (dof_Z 0) d_0_1 d_0_25 0 10 256.
Definition from_raw_expr (this : t) (raw_meta : ObPythonUDFMeta.t) : option (Z * t) :=
  '(ret, meta) ← ObPythonUDFMeta.deep_copy_udf_meta (udf_meta_ this) raw_meta;
  Some (ret, mk meta (Some initial_control)).

(** [deep_copy] into the object the factory constructs; [OZ] skips the copy
    when that fails. *)
Definition deep_copy (this : t) (factory_ok : bool) : option (Z * option t) :=
  if negb factory_ok then Some (OB_ALLOCATE_MEMORY_FAILED, None)
  else
    '(ret, meta) ← ObPythonUDFMeta.deep_copy_udf_meta (udf_meta_ new) (udf_meta_ this);
    Some (ret, Some (mk meta (control_ new))).

(** [OB_DEF_SERIALIZE], [OB_DEF_DESERIALIZE] and the size: the one member is
    [udf_meta_]. *)
Definition UNIS_VERSION : Z := 1.
Definition serialize m buf buf_len pos (x : t) : encoded :=
  unis_serialize UNIS_VERSION m buf buf_len pos (tt, udf_meta_ x).
Definition deserialize m buf data_len pos (x : t) : decoded t :=
  dmap (fun z => mk z.2 (control_ x)) (unis_deserialize UNIS_VERSION m buf data_len pos (tt, udf_meta_ x)).
Definition get_serialize_size (x : t) : Z := unis_get_serialize_size UNIS_VERSION (tt, udf_meta_ x).
End Ops.
End UdfInfo.
