(* ===== verification/UdfCreate.v ===== *)
(** [ObCreatePythonUdfResolver::resolve] and [resolve_pycall]
    ([src/sql/resolver/ddl/ob_create_python_udf_resolver.cpp]): from the parse
    tree of [CREATE PYTHON_UDF] to the [ObPythonUDF] of the request. *)
From S2P Require Import Prelude FixedArray SEArray HashArray SortedVector UdfSchema.
From S2P Require Import Serialization UdfObject.
Import ObString.

(** The node of the body: its text, or a file, whose content is [None] when it
    cannot be opened. *)
Inductive PycallNode := T_PYTHON_CODE (str_value : bytes) | T_FILE_PATH (content : option bytes).

(** The parse tree: each parameter with the [value_] of its type node, the
    [value_] of the return type (four children), or the model name (three). *)
Record CreateNode := mkNode {
  is_create : bool;          (* T_CREATE_PYTHON_UDF, not null, with children *)
  num_child_ : Z;
  relation : bytes;
  elements : list (bytes * Z);
  ret_value : Z;
  model : bytes;
  pycall_node : PycallNode
}.

Definition type_text (value : Z) : bytes :=
  if value =? 1 then chars "STRING" else if value =? 2 then chars "INTEGER"
  else if value =? 3 then chars "REAL" else if value =? 4 then chars "DECIMAL" else [].

(** The loop over the parameters: [arg_names] and [arg_types]. *)
Fixpoint append_elements (els : list (bytes * Z)) (arg_names arg_types : bytes) : bytes * bytes :=
  match els with
  | [] => (arg_names, arg_types)
  | (name, value) :: els' =>
      let sep := match els' with [] => [] | _ => [COMMA] end in
      append_elements els' (arg_names ++ c_str name ++ sep) (arg_types ++ type_text value ++ sep)
  end.

Section Resolve.
Context `{Allocator} (sizeof_stmt : Z) (tenant_id : Z).

Definition set_ret_value (u : ObPythonUDF.t) (value : Z) : ObPythonUDF.t :=
  if value =? 1 then ObPythonUDF.set_ret u STRING else if value =? 2 then ObPythonUDF.set_ret u INTEGER
  else if value =? 3 then ObPythonUDF.set_ret u REAL else if value =? 4 then ObPythonUDF.set_ret u DECIMAL else u.

(** [resolve_pycall]: the code of a file that does not open is overwritten. *)
Definition resolve_pycall (node : PycallNode) (u : ObPythonUDF.t) : Z * ObPythonUDF.t :=
  match node with
  | T_PYTHON_CODE s => ObPythonUDF.set_pycall u s
  | T_FILE_PATH content => ObPythonUDF.set_pycall u (default [] content)
  end.

(** [resolve]: the code and the function of the statement, when there is one;
    the codes of the setters are ignored but for the body's. *)
Definition resolve (node : CreateNode) : Z * option ObPythonUDF.t :=
  if negb (is_create node) || negb ((num_child_ node =? 4) || (num_child_ node =? 3))
  then (OB_INVALID_ARGUMENT, None)
  else if negb (alloc_ok sizeof_stmt) then (OB_ALLOCATE_MEMORY_FAILED, None)
  else
    let u := snd (ObPythonUDF.set_name ObPythonUDF.new (relation node)) in
    let u :=
      if num_child_ node =? 4 then
        let u := ObPythonUDF.set_arg_num u (Z.of_nat (List.length (elements node))) in
        let '(arg_names, arg_types) := append_elements (elements node) [] [] in
        let u := snd (ObPythonUDF.set_arg_names u arg_names) in
        let u := snd (ObPythonUDF.set_arg_types u arg_types) in
        set_ret_value u (ret_value node)
      else snd (ObPythonUDF.set_model_name u (model node)) in
    let '(ret, u) := resolve_pycall (pycall_node node) u in
    (ret, Some (ObPythonUDF.set_tenant_id u tenant_id)).
End Resolve.
