(* ===== verification/UdfFacts.v ===== *)
(** What the objects of [UdfObject] and [UdfMeta] promise: the argument lists
    survive the join and the split, the metadata survives the wire. *)
From S2P Require Import Prelude FixedArray SEArray HashArray SortedVector UdfSchema.
From S2P Require Import Serialization SerialFacts SerialLaws UdfObject BatchSize UdfMeta.
From S2P Require Import UdfCreate.
Import ObString.

#[global] Instance ret_enum_laws : CEnumLaws PyUdfRetType.
Proof. split; intros []; simpl; (lia || reflexivity). Qed.
#[global] Instance str_se_laws : ObSEArray.SELaws ObStr.
Proof. split; simpl; lia. Qed.
#[global] Instance ret_se_laws : ObSEArray.SELaws PyUdfRetType.
Proof. split; simpl; lia. Qed.
#[global] Instance str_default_target : DefaultTarget ObStr.
Proof. reflexivity. Qed.
#[global] Instance ret_default_target : DefaultTarget PyUdfRetType.
Proof. exact I. Qed.

(** *** Splitting what was joined *)
Definition plain (k : bytes) : Prop := k <> [] /\ Forall (fun c => c <> COMMA) k.

Fixpoint join (toks : list bytes) : bytes :=
  match toks with
  | [] => []
  | [k] => k
  | k :: toks' => k ++ COMMA :: join toks'
  end.

Lemma getlines_token k s : forall acc, Forall (fun c => c <> COMMA) k -> getlines (k ++ s) acc = getlines s (reverse k ++ acc).
Proof.
  induction k as [| c k IH]; intros acc Hk; [reflexivity |]. inversion Hk; subst. cbn [getlines app].
  rewrite (proj2 (Z.eqb_neq _ _)) by assumption. rewrite IH by assumption. rewrite reverse_cons, <- app_assoc. reflexivity.
Qed.

Lemma getlines_join toks : Forall plain toks -> getlines (join toks) [] = toks.
Proof.
  induction 1 as [| k toks [Hne Hk] Ht IH]; [reflexivity |]. destruct toks as [| k' toks].
  - cbn [join]. rewrite <- (app_nil_r k) at 1. rewrite getlines_token by exact Hk. rewrite app_nil_r. cbn [getlines].
    destruct (reverse k) eqn:E; [| rewrite <- E; now rewrite reverse_involutive].
    apply (f_equal reverse) in E. rewrite reverse_involutive in E. now destruct Hne.
  - change (join (k :: k' :: toks)) with (k ++ COMMA :: join (k' :: toks)).
    rewrite getlines_token by exact Hk. cbn [getlines]. rewrite Z.eqb_refl, app_nil_r, reverse_involutive. now rewrite IH.
Qed.

Lemma append_elements_join els : forall a b,
  append_elements els a b = (a ++ join (map (fun e => c_str e.1) els), b ++ join (map (fun e => type_text e.2) els)).
Proof.
  induction els as [| [n v] [| e els] IH]; intros a b.
  - cbn. now rewrite !app_nil_r.
  - cbn. now rewrite !app_nil_r.
  - change (append_elements ((n, v) :: e :: els) a b)
      with (append_elements (e :: els) (a ++ c_str n ++ [COMMA]) (b ++ type_text v ++ [COMMA])).
    rewrite IH, <- !app_assoc. reflexivity.
Qed.

Lemma c_str_no_nul s : Forall (fun c => c <> 0) (c_str s).
Proof. induction s as [| c s IH]; simpl; [constructor |]. destruct (Z.eqb_spec c 0); constructor; auto. Qed.

Lemma join_no_nul toks : Forall (Forall (fun c => c <> 0)) toks -> Forall (fun c => c <> 0) (join toks).
Proof.
  induction 1 as [| k toks Hk Ht IH]; [constructor |]. destruct toks; [exact Hk |].
  apply Forall_app. split; [exact Hk |]. constructor; [easy | exact IH].
Qed.

(** The type a type node stands for. *)
Definition type_of_value (value : Z) : PyUdfRetType :=
  if value =? 1 then STRING else if value =? 2 then INTEGER else if value =? 3 then REAL
  else if value =? 4 then DECIMAL else UDF_UNINITIAL.

Lemma type_text_spec value : 1 <= value <= 4 ->
  plain (type_text value) /\ Forall (fun c => c <> 0) (type_text value) /\
  ObPythonUDF.type_of_token (type_text value) = Some (type_of_value value).
Proof.
  intros Hv. assert (value = 1 \/ value = 2 \/ value = 3 \/ value = 4) as [-> | [-> | [-> | ->]]] by lia;
    (split; [split; [easy | repeat constructor; easy] | split; [repeat constructor; easy | reflexivity]]).
Qed.

(** *** Filling an array, codes ignored *)
Section Push.
Context `{Allocator, ObSEArray.SELaws A}.
Implicit Type a : ObSEArray.t A.

(** There is room for [n] more elements, or memory for any number. *)
Definition room a (n : Z) : Prop := ObSEArray.count a + n <= ObSEArray.capacity_ a \/ forall k, alloc_ok k = true.

Lemma push_all_ok xs : forall a,
  ObSEArray.wf a -> ObSEArray.count a + Z.of_nat (List.length xs) < 2 ^ 41 -> room a (Z.of_nat (List.length xs)) ->
  exists a', ObPythonUDF.push_all a xs = Some a' /\ ObSEArray.wf a' /\ ObSEArray.items_ a' = ObSEArray.items_ a ++ xs.
Proof.
  induction xs as [| x xs IH]; intros a Hw Hc Hr.
  - exists a. now rewrite app_nil_r.
  - cbn [List.length] in *. cbn [ObPythonUDF.push_all].
    destruct (ObSEArray.se_push_back_spec a x Hw ltac:(lia)) as (ret & a1 & -> & Hw1 & [(-> & Hi & Hcap) | (-> & -> & Hfull & k & Hk)]);
      [| exfalso; destruct Hr as [? | Hal]; [lia | now rewrite Hal in Hk]].
    cbn [mbind option_bind]. destruct (IH a1 Hw1) as (a' & -> & Hw' & Hi').
    + unfold ObSEArray.count in *. rewrite Hi, length_app. simpl. lia.
    + destruct Hr as [Hle | Hal]; [left | now right]. unfold ObSEArray.count in *. rewrite Hi, length_app. simpl. lia.
    + exists a'. split; [reflexivity |]. split; [exact Hw' |]. now rewrite Hi', Hi, <- app_assoc.
Qed.
End Push.

(** *** From the schema to the metadata *)

(** The argument strings of [u] say: these names, these types. *)
Definition args_ok (u : ObPythonUDF.t) (names : list bytes) (tys : list PyUdfRetType) : Prop :=
  exists texts, ObPythonUDF.arg_names_ u = join names /\ ObPythonUDF.arg_types_ u = join texts /\
    Forall plain names /\ Forall (Forall (fun c => c <> 0)) names /\
    Forall plain texts /\ Forall (Forall (fun c => c <> 0)) texts /\
    omap ObPythonUDF.type_of_token texts = tys /\ List.length names = List.length tys /\
    ObPythonUDF.arg_num_ u = Z.of_nat (List.length tys).

(** The metadata holds this name, type, body and these argument types. *)
Definition carries (x : ObPythonUDFMeta.t) (name : bytes) (r : PyUdfRetType) (pycall : bytes) (tys : list PyUdfRetType) : Prop :=
  obstr_bytes (ObPythonUDFMeta.name_ x) = Some name /\ ObPythonUDFMeta.ret_ x = r /\
  obstr_bytes (ObPythonUDFMeta.pycall_ x) = Some pycall /\
  ObSEArray.items_ (ObPythonUDFMeta.udf_attributes_types_ x) = tys.

Section Meta.
Context `{Allocator} (Hal : forall k, alloc_ok k = true).

Lemma fill_ok `{ObSEArray.SELaws A} (arr : ObSEArray.t A) xs :
  ObSEArray.wf arr -> Z.of_nat (List.length xs) < 2 ^ 41 ->
  exists a', ObPythonUDF.push_all (ObSEArray.reuse arr) xs = Some a' /\ ObSEArray.wf a' /\ ObSEArray.items_ a' = xs.
Proof using Hal.
  intros Hw Hx. apply push_all_ok; [| exact Hx | now right].
  unfold ObSEArray.wf, ObSEArray.count in *. simpl. lia.
Qed.

Lemma get_arg_types_arr_ok u names tys arr :
  args_ok u names tys -> ObSEArray.wf arr -> Z.of_nat (List.length tys) < 2 ^ 41 ->
  exists a', ObPythonUDF.get_arg_types_arr u arr = Some (OB_SUCCESS, a') /\ ObSEArray.wf a' /\ ObSEArray.items_ a' = tys.
Proof using Hal.
  intros (texts & _ & Ht & _ & _ & Hp & Hn & Htys & _ & Hnum) Hw Hlen. unfold ObPythonUDF.get_arg_types_arr.
  rewrite Ht, c_str_id, getlines_join, Htys by (assumption || now apply join_no_nul).
  destruct (fill_ok arr tys Hw Hlen) as (a' & -> & Hw' & Hi). cbn [mbind option_bind]. unfold ObSEArray.count.
  rewrite Hi, Hnum, Z.eqb_refl. eauto.
Qed.

Lemma get_arg_names_arr_ok u names tys arr :
  args_ok u names tys -> ObSEArray.wf arr -> Z.of_nat (List.length tys) < 2 ^ 41 ->
  exists a', ObPythonUDF.get_arg_names_arr u arr = Some (OB_SUCCESS, a') /\ ObSEArray.wf a' /\
    ObSEArray.items_ a' = map (fun k => mkStr 0 (to_int32 (length k)) Dangling) names.
Proof using Hal.
  intros (texts & En & _ & Hp & Hn & _ & _ & _ & Hl & Hnum) Hw Hlen. unfold ObPythonUDF.get_arg_names_arr.
  rewrite En, c_str_id, getlines_join by (assumption || now apply join_no_nul).
  destruct (fill_ok arr (map (fun k => mkStr 0 (to_int32 (length k)) Dangling) names) Hw) as (a' & -> & Hw' & Hi);
    [rewrite length_map; lia |].
  cbn [mbind option_bind]. unfold ObSEArray.count. rewrite Hi, length_map, Hl, Hnum, Z.eqb_refl. eauto.
Qed.

Lemma obstr_of_valid s : length s < 2 ^ 31 -> byte_range s -> obstr_valid (obstr_of s) /\ obstr_bytes (obstr_of s) = Some s.
Proof.
  intros Hs Hb. unfold obstr_valid, obstr_of, obstr_bytes, to_int32. pose proof (blen_nonneg s).
  cbn [data_length_ ptr_]. rewrite swrap_small by lia. rewrite (proj2 (Z.leb_le _ _)) by lia.
  split; [repeat split; auto; lia |]. unfold length. now rewrite Nat2Z.id, firstn_all.
Qed.

Lemma ob_write_string_ok src bs :
  obstr_valid src -> obstr_bytes src = Some bs ->
  exists s', ob_write_string src = Some (OB_SUCCESS, s') /\ obstr_bytes s' = Some bs /\ obstr_valid s' /\ buffer_size_ s' = 0.
Proof using Hal.
  intros Hv Hb. destruct (obstr_bytes_valid src Hv) as (bs' & E & Hl & Hr & Hnull). rewrite E in Hb. injection Hb as <-.
  unfold ob_write_string. rewrite Hal. cbn [negb].
  assert (forall P : Prop, bs' = [] -> (exists s', Some (OB_SUCCESS, mkStr 0 0 Null) = Some (OB_SUCCESS, s') /\
    obstr_bytes s' = Some bs' /\ obstr_valid s' /\ buffer_size_ s' = 0)) as Hempty.
  { intros _ ->. eexists. split; [reflexivity |]. repeat split; simpl; lia. }
  destruct (ptr_ src) eqn:Ep; [apply (Hempty True); auto | | discriminate E || (destruct Hv as [_ Hv]; now rewrite Ep in Hv)].
  destruct (Z.leb_spec (data_length_ src) 0).
  - apply (Hempty True). destruct bs'; [reflexivity | unfold length in Hl; simpl in Hl; lia].
  - rewrite E. cbn [mbind option_bind]. eexists. split; [reflexivity |].
    unfold obstr_bytes, obstr_valid. cbn [ptr_ data_length_ buffer_size_]. rewrite (proj2 (Z.leb_le _ _)) by lia.
    destruct Hv as [Hd _]. repeat split; auto; try lia. f_equal. rewrite <- Hl. unfold length. now rewrite Nat2Z.id, firstn_all.
Qed.

(** The batch size a call asks for: none, one in range, or one that is ignored. *)
Definition asked_batch (this : ObPythonUDFMeta.t) (batch_size : Z) : Z * bool :=
  if 0 =? batch_size then (256, false)
  else if (batch_size <? 256) || (8192 <? batch_size)
  then (ObPythonUDFMeta.batch_size_ this, ObPythonUDFMeta.batch_size_const_ this)
  else (batch_size, true).

Definition udf_strings_ok (u : ObPythonUDF.t) : Prop :=
  length (ObPythonUDF.name_ u) < 2 ^ 31 /\ byte_range (ObPythonUDF.name_ u) /\
  length (ObPythonUDF.pycall_ u) < 2 ^ 31 /\ byte_range (ObPythonUDF.pycall_ u).

Lemma set_udf_meta_ok this u names tys batch_size :
  args_ok u names tys -> udf_strings_ok u -> Z.of_nat (List.length tys) < 2 ^ 41 ->
  ObSEArray.wf (ObPythonUDFMeta.udf_attributes_types_ this) -> ObSEArray.wf (ObPythonUDFMeta.udf_attributes_names_ this) ->
  exists x, ObPythonUDFMeta.set_udf_meta true this u batch_size = Some (OB_SUCCESS, x) /\
    carries x (ObPythonUDF.name_ u) (ObPythonUDF.ret_ u) (ObPythonUDF.pycall_ u) tys /\
    (ObPythonUDFMeta.batch_size_ x, ObPythonUDFMeta.batch_size_const_ x) = asked_batch this batch_size /\
    obstr_valid (ObPythonUDFMeta.name_ x) /\ obstr_valid (ObPythonUDFMeta.pycall_ x) /\
    ObPythonUDFMeta.init_ x = false /\ ObSEArray.wf (ObPythonUDFMeta.udf_attributes_types_ x) /\
    ObSEArray.items_ (ObPythonUDFMeta.udf_attributes_names_ x) = map (fun k => mkStr 0 (to_int32 (length k)) Dangling) names.
Proof using Hal.
  intros Ha (Hn & Hnb & Hp & Hpb) Hlen Hwt Hwn.
  destruct (obstr_of_valid _ Hn Hnb) as [Hnv Hne]. destruct (obstr_of_valid _ Hp Hpb) as [Hpv Hpe].
  destruct (ob_write_string_ok _ _ Hnv Hne) as (sn & En & Hsn & Hsnv & _).
  destruct (ob_write_string_ok _ _ Hpv Hpe) as (sp & Ep & Hsp & Hspv & _).
  destruct (get_arg_types_arr_ok u names tys _ Ha Hwt Hlen) as (at_ & Et & Hwt' & Hti).
  destruct (get_arg_names_arr_ok u names tys _ Ha Hwn Hlen) as (an & Ean & _ & Hni).
  unfold ObPythonUDFMeta.set_udf_meta, asked_batch.
  destruct (0 =? batch_size); [| destruct (_ || _)]; cbn [negb]; rewrite En; step_ok; rewrite Ep; step_ok;
    cbn [ObPythonUDFMeta.udf_attributes_types_ ObPythonUDFMeta.udf_attributes_names_]; rewrite Et; step_ok;
    cbn [ObPythonUDFMeta.udf_attributes_types_ ObPythonUDFMeta.udf_attributes_names_]; rewrite Ean; cbn [mbind option_bind];
    (eexists; split; [reflexivity |]; unfold carries; split_and!; assumption || reflexivity).
Qed.

Lemma deep_copy_meta_ok src name r pycall tys :
  carries src name r pycall tys -> obstr_valid (ObPythonUDFMeta.name_ src) -> obstr_valid (ObPythonUDFMeta.pycall_ src) ->
  Z.of_nat (List.length tys) < 2 ^ 41 ->
  exists x, ObPythonUDFMeta.deep_copy_udf_meta ObPythonUDFMeta.new src = Some (OB_SUCCESS, x) /\
    carries x name r pycall tys /\ obstr_valid (ObPythonUDFMeta.name_ x) /\ obstr_valid (ObPythonUDFMeta.pycall_ x) /\
    ObPythonUDFMeta.init_ x = ObPythonUDFMeta.init_ src /\
    ObSEArray.items_ (ObPythonUDFMeta.udf_attributes_names_ x) = [] /\
    ObPythonUDFMeta.batch_size_ x = 256 /\ ObPythonUDFMeta.batch_size_const_ x = false.
Proof using Hal.
  intros (Hn & Hr & Hp & Ht) Hnv Hpv Hlen.
  destruct (ob_write_string_ok _ _ Hnv Hn) as (sn & En & Hsn & Hsnv & _).
  destruct (ob_write_string_ok _ _ Hpv Hp) as (sp & Ep & Hsp & Hspv & _).
  destruct (fill_ok (A := PyUdfRetType) ObSEArray.empty tys ObSEArray.se_wf_empty Hlen) as (a' & Ea & Hw' & Hi).
  unfold ObPythonUDFMeta.deep_copy_udf_meta. rewrite En. step_ok. rewrite Ep. step_ok. rewrite Ht.
  change (ObPythonUDFMeta.udf_attributes_types_ _) with (ObSEArray.reuse (T := PyUdfRetType) ObSEArray.empty).
  rewrite Ea. cbn [mbind option_bind]. eexists. split; [reflexivity |].
  unfold carries. split_and!; assumption || reflexivity.
Qed.
End Meta.
