(* ===== verification/UdfWire.v ===== *)
(** The objects of a Python function on the wire: the laws of the codecs of
    [ObPythonUDF], [ObPythonUDFMeta] and [ObPythonUdfInfo], from those of their
    members. *)
From S2P Require Import Prelude FixedArray SEArray HashArray SortedVector UdfSchema.
From S2P Require Import Serialization SerialFacts SerialLaws UdfObject BatchSize UdfMeta.
From S2P Require Import UdfCreate UdfFacts.
Import ObString.

(** The classes are compared by what their macros expand to. *)
Strategy expand [ObPythonUDF.serialize ObPythonUDF.deserialize ObPythonUDF.get_serialize_size
  UdfInfo.serialize UdfInfo.deserialize UdfInfo.get_serialize_size].

(** A codec through a list of members that is as good as the object. *)
Lemma codec_members {A B} (fwd : B -> A) (bwd : B -> A -> B) enc dec len valid image target norm :
  CodecLaws enc dec len valid image target norm ->
  (forall u u' x, bwd u x = bwd u' x) ->
  CodecLaws (fun m buf buf_len pos x => enc m buf buf_len pos (fwd x))
    (fun m buf data_len pos u => dmap (bwd u) (dec m buf data_len pos (fwd u))) (fun x => len (fwd x))
    (fun x => valid (fwd x)) (fun x => image (fwd x)) (fun x => target (fwd x)) (fun x => bwd x (norm (fwd x))).
Proof.
  intros [L F U D] Hb. split.
  - intros x Hx. now apply L.
  - intros. now apply F.
  - intros. now apply U.
  - intros p s b data_len pos x u Hx Ht Hb0 Hpos Hp Hd. unfold dmap. rewrite D by assumption. cbn [mbind option_bind].
    now rewrite (Hb u x).
Qed.

(** Encode where it fits, decode what was written. *)
Lemma codec_roundtrip {A} enc dec len valid image target norm (x cur : A) m b buf_len pos data_len :
  CodecLaws enc dec len valid image target norm -> valid x -> target cur ->
  0 <= b -> 0 <= pos -> b + buf_len <= blen m -> pos + len x <= buf_len -> pos + len x <= data_len < 2 ^ 63 ->
  exists m', enc m (Some b) buf_len pos x = Some (OB_SUCCESS, pos + len x, m') /\
    same_outside m m' (b + pos) (b + pos + len x) /\
    dec m' (Some b) data_len pos cur = Some (OB_SUCCESS, pos + len x, norm x).
Proof.
  intros L Hx Ht Hb Hpos Hm Hl Hd. rewrite (law_length _ _ _ _ _ _ _ L x Hx) in *.
  pose proof (blen_nonneg (image x)).
  destruct (split_mem m (b + pos) (blen (image x))) as (p & old & s & -> & Hp & Ho); [lia.. |].
  exists (p ++ image x ++ s). split; [now apply (law_fits _ _ _ _ _ _ _ L) | split].
  - apply same_outside_mid; unfold blen in *; lia.
  - now apply (law_decode _ _ _ _ _ _ _ L).
Qed.

(** Whatever the room, an encoder stays inside its buffer and succeeds exactly
    when its value fits. *)
Lemma codec_bounds {A} enc dec len valid image target norm (x : A) m b buf_len pos :
  CodecLaws enc dec len valid image target norm -> valid x -> 0 < blen (image x) ->
  0 <= b -> 0 <= pos -> b + buf_len <= blen m ->
  exists ret pos' m', enc m (Some b) buf_len pos x = Some (ret, pos', m') /\
    (ret = OB_SUCCESS <-> pos + len x <= buf_len) /\ (ret = OB_SUCCESS -> pos' = pos + len x) /\
    same_outside m m' (b + pos) (b + Z.max pos buf_len).
Proof.
  intros L Hx Hi Hb Hpos Hm. rewrite (law_length _ _ _ _ _ _ _ L x Hx).
  destruct (Z.le_gt_cases (pos + blen (image x)) buf_len) as [Hfit | Hno].
  - destruct (split_mem m (b + pos) (blen (image x))) as (p & old & s & -> & Hp & Ho); [lia.. |].
    rewrite (law_fits _ _ _ _ _ _ _ L) by (assumption || lia). eexists _, _, _. split; [reflexivity |]. split; [easy |].
    split; [easy |]. apply same_outside_mid; unfold blen in *; lia.
  - destruct (law_full _ _ _ _ _ _ _ L m b buf_len pos x Hx Hi Hb Hpos Hm Hno) as (ret & pos' & m' & -> & Hret & Hs).
    eexists _, _, _. split; [reflexivity |]. split; [split; [easy | lia] |]. split; [easy |].
    eapply same_outside_weaken; [| | exact Hs]; lia.
Qed.

Lemma serial_bounds `{SerialLaws B} (x : B) m b buf_len pos :
  valid x -> 0 <= b -> 0 <= pos -> b + buf_len <= blen m ->
  exists ret pos' m', encode m (Some b) buf_len pos x = Some (ret, pos', m') /\
    (ret = OB_SUCCESS <-> pos + encoded_length x <= buf_len) /\ (ret = OB_SUCCESS -> pos' = pos + encoded_length x) /\
    same_outside m m' (b + pos) (b + Z.max pos buf_len).
Proof. intros. apply (codec_bounds _ _ _ _ _ _ _ _ _ _ _ _ serial_laws); auto using image_pos. Qed.

Lemma unis_roundtrip `{MembersLaws A} ver (x cur : A) m b buf_len pos :
  - 2 ^ 63 <= ver < 2 ^ 63 -> mvalid x -> 0 < blen (mimage x) -> unis_get_serialize_size ver x < 2 ^ 35 -> mtarget cur ->
  0 <= b -> 0 <= pos -> b + buf_len <= blen m -> buf_len < 2 ^ 63 -> pos + unis_get_serialize_size ver x <= buf_len ->
  exists m',
    unis_serialize ver m (Some b) buf_len pos x = Some (OB_SUCCESS, pos + unis_get_serialize_size ver x, m') /\
    same_outside m m' (b + pos) (b + pos + unis_get_serialize_size ver x) /\
    unis_deserialize ver m' (Some b) (pos + unis_get_serialize_size ver x) pos cur
    = Some (OB_SUCCESS, pos + unis_get_serialize_size ver x, mnorm x).
Proof.
  intros Hver Hx Hi Hs Ht Hb Hpos Hm Hbl Hfit.
  apply (codec_roundtrip _ _ _ _ _ _ _ _ _ _ _ _ _ _ (unis_laws ver Hver)); try (assumption || lia).
  now apply (unis_valid_size ver).
Qed.

(** An object with one member. *)
Lemma single_roundtrip `{SerialLaws B} ver (x cur : B) m b buf_len pos :
  - 2 ^ 63 <= ver < 2 ^ 63 -> valid x -> encoded_length x < 2 ^ 34 -> target cur ->
  0 <= b -> 0 <= pos -> b + buf_len <= blen m -> buf_len < 2 ^ 63 -> pos + unis_get_serialize_size ver (tt, x) <= buf_len ->
  exists m',
    unis_serialize ver m (Some b) buf_len pos (tt, x) = Some (OB_SUCCESS, pos + unis_get_serialize_size ver (tt, x), m') /\
    same_outside m m' (b + pos) (b + pos + unis_get_serialize_size ver (tt, x)) /\
    unis_deserialize ver m' (Some b) (pos + unis_get_serialize_size ver (tt, x)) pos (tt, cur)
    = Some (OB_SUCCESS, pos + unis_get_serialize_size ver (tt, x), (tt, norm x)).
Proof.
  intros Hver Hx Hs Ht Hb Hpos Hm Hbl Hfit.
  rewrite (law_length _ _ _ _ _ _ _ serial_laws x Hx) in Hs. pose proof (image_pos x) as Hp.
  assert (mvalid (tt, x)) as Hmv by (split; [exact I | exact Hx]).
  change (tt, norm x) with (mnorm (tt, x)). apply unis_roundtrip; try assumption; [| now split].
  rewrite unis_size by exact Hmv. pose proof (encoded_length_vi64_range ver).
  change (mimage (tt, x)) with (image x). lia.
Qed.

Section Wire.
Context `{Allocator}.

(** *** [ObPythonUDFMeta] *)
Definition meta_valid (x : ObPythonUDFMeta.t) : Prop := unis_valid (ObPythonUDFMeta.to_members x).
Definition meta_image (x : ObPythonUDFMeta.t) : bytes := unis_image 1 (ObPythonUDFMeta.to_members x).
Definition meta_target (x : ObPythonUDFMeta.t) : Prop := mtarget (ObPythonUDFMeta.to_members x).
Definition meta_norm (x : ObPythonUDFMeta.t) : ObPythonUDFMeta.t :=
  ObPythonUDFMeta.of_members (mnorm (ObPythonUDFMeta.to_members x)).

#[global, refine] Instance meta_laws : SerialLaws ObPythonUDFMeta.t := {|
  valid := meta_valid; image := meta_image; target := meta_target; norm := meta_norm;
  image_pos x := _; serial_laws := _ |}.
Proof.
  - unfold meta_image. rewrite blen_unis_image. pose proof (encoded_length_vi64_range 1).
    pose proof (blen_nonneg (mimage (ObPythonUDFMeta.to_members x))). lia.
  - exact (codec_members ObPythonUDFMeta.to_members (fun _ => ObPythonUDFMeta.of_members) _ _ _ _ _ _ _
      (unis_laws 1 ltac:(lia)) (fun _ _ _ => eq_refl)).
Defined.

(** *** [ObPythonUdfInfo] *)
Definition info_valid (x : UdfInfo.t) : Prop := unis_valid (tt, UdfInfo.udf_meta_ x).
Definition info_image (x : UdfInfo.t) : bytes := unis_image 1 (tt, UdfInfo.udf_meta_ x).

(** What a well-formed object of the program satisfies. *)
Definition meta_ok (x : ObPythonUDFMeta.t) : Prop :=
  obstr_valid (ObPythonUDFMeta.name_ x) /\ obstr_valid (ObPythonUDFMeta.pycall_ x) /\
  se_valid (ObPythonUDFMeta.udf_attributes_names_ x) /\ se_valid (ObPythonUDFMeta.udf_attributes_types_ x) /\
  - 2 ^ 31 <= ObPythonUDFMeta.batch_size_ x < 2 ^ 31.

Lemma meta_mvalid x : meta_ok x -> mvalid (ObPythonUDFMeta.to_members x).
Proof. intros (H1 & H2 & H3 & H4 & H5). cbn. repeat (split; try assumption); try exact I; apply H5. Qed.

Lemma meta_mimage_pos x : 0 < blen (mimage (ObPythonUDFMeta.to_members x)).
Proof.
  cbn [mimage snoc_laws nil_laws ObPythonUDFMeta.to_members fst snd]. autorewrite with blen.
  pose proof (image_pos (ObPythonUDFMeta.name_ x)). 
  repeat match goal with |- context [blen (image ?y)] => lazymatch goal with H : 0 <= blen (image y) |- _ => fail | _ => pose proof (blen_nonneg (image y)) end end.
  cbn [image str_laws] in *. lia.
Qed.

Lemma meta_unis_valid x : meta_ok x -> ObPythonUDFMeta.get_serialize_size x < 2 ^ 35 -> meta_valid x.
Proof. intros Hx. apply unis_valid_size; [now apply meta_mvalid | apply meta_mimage_pos]. Qed.

(** The same metadata, whatever memory its strings point to. *)
Definition same_meta (x y : ObPythonUDFMeta.t) : Prop :=
  obstr_bytes (ObPythonUDFMeta.name_ y) = obstr_bytes (ObPythonUDFMeta.name_ x) /\
  ObPythonUDFMeta.ret_ y = ObPythonUDFMeta.ret_ x /\
  obstr_bytes (ObPythonUDFMeta.pycall_ y) = obstr_bytes (ObPythonUDFMeta.pycall_ x) /\
  map obstr_bytes (ObSEArray.items_ (ObPythonUDFMeta.udf_attributes_names_ y))
  = map obstr_bytes (ObSEArray.items_ (ObPythonUDFMeta.udf_attributes_names_ x)) /\
  ObSEArray.items_ (ObPythonUDFMeta.udf_attributes_types_ y) = ObSEArray.items_ (ObPythonUDFMeta.udf_attributes_types_ x) /\
  ObPythonUDFMeta.init_ y = ObPythonUDFMeta.init_ x /\ ObPythonUDFMeta.batch_size_ y = ObPythonUDFMeta.batch_size_ x /\
  ObPythonUDFMeta.batch_size_const_ y = ObPythonUDFMeta.batch_size_const_ x.

Lemma obstr_norm_bytes s : obstr_valid s -> obstr_bytes (obstr_norm s) = obstr_bytes s.
Proof.
  intros Hs. destruct (obstr_bytes_valid s Hs) as (bs & E & Hl & _). unfold obstr_norm. rewrite E. cbn [default from_option id].
  unfold obstr_bytes. cbn [ptr_ data_length_]. rewrite (proj2 (Z.leb_le _ _)) by lia.
  f_equal. rewrite <- Hl. unfold length. now rewrite Nat2Z.id, firstn_all.
Qed.

Lemma meta_norm_same x : meta_ok x -> same_meta x (meta_norm x).
Proof.
  intros (H1 & H2 & (H3 & _) & H4 & H5). unfold same_meta, meta_norm. cbn. split_and!; try reflexivity.
  - now apply obstr_norm_bytes.
  - now apply obstr_norm_bytes.
  - rewrite map_map. apply map_ext_Forall. eapply Forall_impl; [exact H3 |]. intros s Hs. now apply obstr_norm_bytes.
  - apply map_id.
Qed.

Lemma meta_target_new : meta_target ObPythonUDFMeta.new.
Proof. now repeat split. Qed.

(** The extra information on the wire: its one member is the metadata, and the
    target keeps its own control fields. *)
Lemma info_roundtrip x cur m b buf_len pos ctl :
  meta_ok x -> ObPythonUDFMeta.get_serialize_size x < 2 ^ 34 -> meta_target (UdfInfo.udf_meta_ cur) ->
  0 <= b -> 0 <= pos -> b + buf_len <= length m -> buf_len < 2 ^ 63 ->
  pos + UdfInfo.get_serialize_size (UdfInfo.mk x ctl) <= buf_len ->
  exists m',
    UdfInfo.serialize m (Some b) buf_len pos (UdfInfo.mk x ctl)
    = Some (OB_SUCCESS, pos + UdfInfo.get_serialize_size (UdfInfo.mk x ctl), m') /\
    same_outside m m' (b + pos) (b + pos + UdfInfo.get_serialize_size (UdfInfo.mk x ctl)) /\
    UdfInfo.deserialize m' (Some b) (pos + UdfInfo.get_serialize_size (UdfInfo.mk x ctl)) pos cur
    = Some (OB_SUCCESS, pos + UdfInfo.get_serialize_size (UdfInfo.mk x ctl), UdfInfo.mk (meta_norm x) (UdfInfo.control_ cur)).
Proof.
  intros Hx Hs Ht Hb Hpos Hm Hbl Hfit. pose proof (meta_unis_valid x Hx ltac:(lia)) as Hv.
  assert (- 2 ^ 63 <= UdfInfo.UNIS_VERSION < 2 ^ 63) as Hver by (unfold UdfInfo.UNIS_VERSION; lia).
  unfold UdfInfo.serialize, UdfInfo.deserialize, UdfInfo.get_serialize_size in *. cbn [UdfInfo.udf_meta_] in *.
  destruct (@single_roundtrip ObPythonUDFMeta.t _ meta_laws UdfInfo.UNIS_VERSION x (UdfInfo.udf_meta_ cur) m b buf_len pos
    Hver Hv Hs Ht Hb Hpos Hm Hbl Hfit) as (m' & E1 & E2 & E3).
  exists m'. split; [exact E1 | split; [exact E2 |]]. rewrite E3. reflexivity.
Qed.

(** *** [ObPythonUDF] *)
Definition udf_ok (u : ObPythonUDF.t) : Prop :=
  0 <= ObPythonUDF.tenant_id_ u < W64 /\ 0 <= ObPythonUDF.udf_id_ u < W64 /\
  - 2 ^ 31 <= ObPythonUDF.arg_num_ u < 2 ^ 31 /\
  Forall (fun s => length s < 2 ^ 31 /\ byte_range s)
    [ObPythonUDF.name_ u; ObPythonUDF.arg_names_ u; ObPythonUDF.arg_types_ u; ObPythonUDF.pycall_ u].

Lemma udf_mvalid u : udf_ok u -> mvalid (ObPythonUDF.to_members u).
Proof.
  intros (H1 & H2 & H3 & HF). rewrite !Forall_cons in HF. destruct HF as ((? & ?) & (? & ?) & (? & ?) & (? & ?) & _).
  cbn. split_and!; try exact I; try assumption; try lia; now apply obstr_of_valid.
Qed.

(** The object read back: the members of [u], the rest of the target. *)
Lemma udf_of_norm u cur : udf_ok u ->
  ObPythonUDF.of_members cur (mnorm (ObPythonUDF.to_members u))
  = ObPythonUDF.mk (ObPythonUDF.error_ret_ cur) (ObPythonUDF.tenant_id_ u) (ObPythonUDF.udf_id_ u) (ObPythonUDF.name_ u)
      (ObPythonUDF.model_name_ cur) (ObPythonUDF.arg_num_ u) (ObPythonUDF.arg_names_ u) (ObPythonUDF.arg_types_ u)
      (ObPythonUDF.ret_ u) (ObPythonUDF.pycall_ u) (ObPythonUDF.schema_version_ cur).
Proof.
  intros (_ & _ & _ & HF). rewrite !Forall_cons in HF. destruct HF as ((? & ?) & (? & ?) & (? & ?) & (? & ?) & _).
  cbn [ObPythonUDF.to_members mnorm snoc_laws nil_laws fst snd ObPythonUDF.of_members norm str_laws uint64_laws int32_laws enum_laws].
  unfold ObPythonUDF.str_v. rewrite !obstr_norm_bytes by now apply obstr_of_valid.
  now rewrite !(fun s H1 H2 => proj2 (obstr_of_valid s H1 H2)) by assumption.
Qed.
End Wire.

(** *** What the resolver's strings say *)
Section Create.
Context `{Allocator} (Hal : forall k, alloc_ok k = true).

(** The arguments of the statement: names without commas, known types. *)
Definition elements_ok (els : list (bytes * Z)) : Prop :=
  Forall (fun e => plain (c_str e.1) /\ 1 <= e.2 <= 4) els.

Lemma deep_copy_new src dest : ObPythonUDF.deep_copy_str OB_SUCCESS src dest = (OB_SUCCESS, src).
Proof using Hal. now apply ObSimplePythonUdfSchema.deep_copy_str_ok. Qed.

(** The setters of an object without an error. *)
Lemma set_name_ok t i n mn k an at_ r pc v s :
  ObPythonUDF.set_name (ObPythonUDF.mk OB_SUCCESS t i n mn k an at_ r pc v) s
  = (OB_SUCCESS, ObPythonUDF.mk OB_SUCCESS t i s mn k an at_ r pc v).
Proof using Hal. unfold ObPythonUDF.set_name. cbn [ObPythonUDF.error_ret_]. now rewrite deep_copy_new. Qed.
Lemma set_arg_names_ok t i n mn k an at_ r pc v s :
  ObPythonUDF.set_arg_names (ObPythonUDF.mk OB_SUCCESS t i n mn k an at_ r pc v) s
  = (OB_SUCCESS, ObPythonUDF.mk OB_SUCCESS t i n mn k s at_ r pc v).
Proof using Hal. unfold ObPythonUDF.set_arg_names. cbn [ObPythonUDF.error_ret_]. now rewrite deep_copy_new. Qed.
Lemma set_arg_types_ok t i n mn k an at_ r pc v s :
  ObPythonUDF.set_arg_types (ObPythonUDF.mk OB_SUCCESS t i n mn k an at_ r pc v) s
  = (OB_SUCCESS, ObPythonUDF.mk OB_SUCCESS t i n mn k an s r pc v).
Proof using Hal. unfold ObPythonUDF.set_arg_types. cbn [ObPythonUDF.error_ret_]. now rewrite deep_copy_new. Qed.
Lemma set_pycall_ok t i n mn k an at_ r pc v s :
  ObPythonUDF.set_pycall (ObPythonUDF.mk OB_SUCCESS t i n mn k an at_ r pc v) s
  = (OB_SUCCESS, ObPythonUDF.mk OB_SUCCESS t i n mn k an at_ r s v).
Proof using Hal. unfold ObPythonUDF.set_pycall. cbn [ObPythonUDF.error_ret_]. now rewrite deep_copy_new. Qed.
Lemma set_ret_value_ok t i n mn k an at_ pc v value :
  set_ret_value (ObPythonUDF.mk OB_SUCCESS t i n mn k an at_ UDF_UNINITIAL pc v) value
  = ObPythonUDF.mk OB_SUCCESS t i n mn k an at_ (type_of_value value) pc v.
Proof. unfold set_ret_value, type_of_value. now repeat case_match. Qed.

(** What [resolve] makes of a statement with four children. *)
Definition body_of (n : PycallNode) : bytes :=
  match n with T_PYTHON_CODE s => s | T_FILE_PATH c => default [] c end.
Lemma resolve_four sizeof_stmt tenant_id node :
  is_create node = true -> num_child_ node = 4 ->
  resolve sizeof_stmt tenant_id node =
  (OB_SUCCESS, Some (ObPythonUDF.mk OB_SUCCESS tenant_id OB_INVALID_ID (relation node) []
     (Z.of_nat (List.length (elements node)))
     (join (map (fun e => c_str e.1) (elements node))) (join (map (fun e => type_text e.2) (elements node)))
     (type_of_value (ret_value node)) (body_of (pycall_node node)) (-1))).
Proof using Hal.
  intros Hc Hn. unfold resolve. rewrite Hc, Hn, Hal. change (4 =? 4) with true. cbn [negb orb]. cbn iota.
  rewrite append_elements_join. cbn [app]. cbv beta zeta.
  change ObPythonUDF.new with (ObPythonUDF.mk OB_SUCCESS OB_INVALID_ID OB_INVALID_ID [] [] 0 [] [] UDF_UNINITIAL [] (-1)).
  rewrite set_name_ok. cbn [snd]. unfold ObPythonUDF.set_arg_num.
  cbn [ObPythonUDF.error_ret_ ObPythonUDF.tenant_id_ ObPythonUDF.udf_id_ ObPythonUDF.name_ ObPythonUDF.model_name_
       ObPythonUDF.arg_names_ ObPythonUDF.arg_types_ ObPythonUDF.ret_ ObPythonUDF.pycall_ ObPythonUDF.schema_version_].
  rewrite set_arg_names_ok. cbn [snd]. rewrite set_arg_types_ok. cbn [snd]. rewrite set_ret_value_ok.
  unfold resolve_pycall. destruct (pycall_node node); rewrite set_pycall_ok; reflexivity.
Qed.

Lemma resolved_args_ok u els :
  elements_ok els ->
  ObPythonUDF.arg_names_ u = join (map (fun e => c_str e.1) els) ->
  ObPythonUDF.arg_types_ u = join (map (fun e => type_text e.2) els) ->
  ObPythonUDF.arg_num_ u = Z.of_nat (List.length els) ->
  args_ok u (map (fun e => c_str e.1) els) (map (fun e => type_of_value e.2) els).
Proof.
  intros He Hn Ht Hnum. exists (map (fun e => type_text e.2) els). unfold elements_ok in He. split_and!; auto.
  - apply Forall_map. eapply Forall_impl; [exact He |]. now intros e [? _].
  - apply Forall_map. eapply Forall_impl; [exact He |]. intros e _. apply c_str_no_nul.
  - apply Forall_map. eapply Forall_impl; [exact He |]. intros e [_ Hv]. now apply type_text_spec.
  - apply Forall_map. eapply Forall_impl; [exact He |]. intros e [_ Hv]. now apply type_text_spec.
  - clear Hn Ht Hnum. induction He as [| e els [_ Hv] Hes IH]; [reflexivity |]. cbn [map omap list_omap].
    destruct (type_text_spec e.2 Hv) as (_ & _ & ->). now rewrite IH.
  - now rewrite !length_map.
  - now rewrite length_map.
Qed.
End Create.

(** *** Sizes *)
Section Size.
Context `{Allocator}.

Lemma types_size (l : list PyUdfRetType) : 0 <= fold_right Z.add 0 (encoded_length <$> l) <= 5 * Z.of_nat (List.length l).
Proof.
  induction l as [| x l IH]; [simpl; lia |]. rewrite fmap_cons. cbn [fold_right List.length].
  assert (1 <= encoded_length x <= 5) by apply encoded_length_vi32_range. lia.
Qed.

(** The metadata of an expression, whose names are not copied, takes little
    more than its two strings. *)
Lemma meta_size_bound x :
  ObSEArray.items_ (ObPythonUDFMeta.udf_attributes_names_ x) = [] ->
  ObPythonUDFMeta.get_serialize_size x <=
  data_length_ (ObPythonUDFMeta.name_ x) + data_length_ (ObPythonUDFMeta.pycall_ x)
  + 5 * Z.of_nat (List.length (ObSEArray.items_ (ObPythonUDFMeta.udf_attributes_types_ x))) + 100.
Proof.
  intros En.
  assert (ObPythonUDFMeta.get_serialize_size x =
    0 + encoded_length_vstr (data_length_ (ObPythonUDFMeta.name_ x))
    + encoded_length_vi32 (to_int32 (enum_to (ObPythonUDFMeta.ret_ x)))
    + encoded_length_vstr (data_length_ (ObPythonUDFMeta.pycall_ x))
    + (encoded_length_vi64 (ObSEArray.count (ObPythonUDFMeta.udf_attributes_names_ x))
       + fold_right Z.add 0 (encoded_length <$> ObSEArray.items_ (ObPythonUDFMeta.udf_attributes_names_ x)))
    + (encoded_length_vi64 (ObSEArray.count (ObPythonUDFMeta.udf_attributes_types_ x))
       + fold_right Z.add 0 (encoded_length <$> ObSEArray.items_ (ObPythonUDFMeta.udf_attributes_types_ x)))
    + 1 + encoded_length_vi32 (ObPythonUDFMeta.batch_size_ x) + 1
    + encoded_length_vi64 ObPythonUDFMeta.UNIS_VERSION + OB_SERIALIZE_SIZE_NEED_BYTES) as -> by reflexivity.
  rewrite En, fmap_nil. unfold encoded_length_vstr, OB_SERIALIZE_SIZE_NEED_BYTES. cbn [fold_right].
  pose proof (encoded_length_vi64_range (data_length_ (ObPythonUDFMeta.name_ x))).
  pose proof (encoded_length_vi64_range (data_length_ (ObPythonUDFMeta.pycall_ x))).
  pose proof (encoded_length_vi64_range (ObSEArray.count (ObPythonUDFMeta.udf_attributes_names_ x))).
  pose proof (encoded_length_vi64_range (ObSEArray.count (ObPythonUDFMeta.udf_attributes_types_ x))).
  pose proof (encoded_length_vi64_range ObPythonUDFMeta.UNIS_VERSION).
  pose proof (encoded_length_vi32_range (ObPythonUDFMeta.batch_size_ x)).
  pose proof (encoded_length_vi32_range (to_int32 (enum_to (ObPythonUDFMeta.ret_ x)))).
  pose proof (types_size (ObSEArray.items_ (ObPythonUDFMeta.udf_attributes_types_ x))). lia.
Qed.

Lemma meta_ok_copied x name r pycall tys :
  (forall k, alloc_ok k = true) ->
  carries x name r pycall tys -> obstr_valid (ObPythonUDFMeta.name_ x) -> obstr_valid (ObPythonUDFMeta.pycall_ x) ->
  ObSEArray.items_ (ObPythonUDFMeta.udf_attributes_names_ x) = [] -> ObPythonUDFMeta.batch_size_ x = 256 ->
  Z.of_nat (List.length tys) < 2 ^ 31 ->
  meta_ok x /\ ObPythonUDFMeta.get_serialize_size x < 2 ^ 34.
Proof.
  intros Hal (_ & _ & _ & Ht) Hn Hp En Eb Hlen. split.
  - unfold meta_ok, se_valid, ObSEArray.count. rewrite En, Ht, Eb. split_and!; auto;
      first [reflexivity | lia | now apply Forall_true].
  - pose proof (meta_size_bound x En) as Hs. rewrite Ht in Hs. destruct Hn as [Hn _], Hp as [Hp _]. lia.
Qed.
End Size.

(** *** A request on the wire *)
Section Request.
Context `{Allocator}.

Lemma udf_size_bound u : udf_ok u -> ObPythonUDF.get_serialize_size u < 2 ^ 34.
Proof.
  intros (_ & _ & _ & HF). rewrite !Forall_cons in HF. destruct HF as ((? & _) & (? & _) & (? & _) & (? & _) & _).
  assert (ObPythonUDF.get_serialize_size u =
    0 + encoded_length_vi64 (to_int64 (ObPythonUDF.tenant_id_ u)) + encoded_length_vi64 (to_int64 (ObPythonUDF.udf_id_ u))
    + encoded_length_vstr (to_int32 (length (ObPythonUDF.name_ u))) + encoded_length_vi32 (ObPythonUDF.arg_num_ u)
    + encoded_length_vstr (to_int32 (length (ObPythonUDF.arg_names_ u))) + encoded_length_vstr (to_int32 (length (ObPythonUDF.arg_types_ u)))
    + encoded_length_vi32 (to_int32 (enum_to (ObPythonUDF.ret_ u))) + encoded_length_vstr (to_int32 (length (ObPythonUDF.pycall_ u)))
    + encoded_length_vi64 ObPythonUDF.UNIS_VERSION + OB_SERIALIZE_SIZE_NEED_BYTES) as -> by reflexivity.
  unfold encoded_length_vstr, OB_SERIALIZE_SIZE_NEED_BYTES.
  assert (forall s, length s < 2 ^ 31 -> to_int32 (length s) < 2 ^ 31 /\ encoded_length_vi64 (to_int32 (length s)) <= 10) as Hstr.
  { intros s Hs. split; [| apply encoded_length_vi64_range]. pose proof (blen_nonneg s). unfold to_int32. rewrite swrap_small by lia. lia. }
  pose proof (Hstr (ObPythonUDF.name_ u) ltac:(assumption)). pose proof (Hstr (ObPythonUDF.arg_names_ u) ltac:(assumption)).
  pose proof (Hstr (ObPythonUDF.arg_types_ u) ltac:(assumption)). pose proof (Hstr (ObPythonUDF.pycall_ u) ltac:(assumption)).
  pose proof (encoded_length_vi64_range (to_int64 (ObPythonUDF.tenant_id_ u))).
  pose proof (encoded_length_vi64_range (to_int64 (ObPythonUDF.udf_id_ u))).
  pose proof (encoded_length_vi64_range ObPythonUDF.UNIS_VERSION).
  pose proof (encoded_length_vi32_range (ObPythonUDF.arg_num_ u)).
  pose proof (encoded_length_vi32_range (to_int32 (enum_to (ObPythonUDF.ret_ u)))). lia.
Qed.

Lemma udf_mimage_pos u : 0 < blen (mimage (ObPythonUDF.to_members u)).
Proof.
  cbn [mimage snoc_laws nil_laws ObPythonUDF.to_members fst snd]. rewrite blen_app.
  apply Z.add_nonneg_pos; [apply blen_nonneg | apply (image_pos (obstr_of (ObPythonUDF.pycall_ u)))].
Qed.

(** The object read back has the members of [u]; the error, the model name and
    the schema version stay those of the target. *)
Lemma udf_roundtrip u cur m b buf_len pos :
  udf_ok u -> 0 <= b -> 0 <= pos -> b + buf_len <= length m -> buf_len < 2 ^ 63 ->
  pos + ObPythonUDF.get_serialize_size u <= buf_len ->
  exists m',
    ObPythonUDF.serialize m (Some b) buf_len pos u = Some (OB_SUCCESS, pos + ObPythonUDF.get_serialize_size u, m') /\
    same_outside m m' (b + pos) (b + pos + ObPythonUDF.get_serialize_size u) /\
    ObPythonUDF.deserialize m' (Some b) (pos + ObPythonUDF.get_serialize_size u) pos cur
    = Some (OB_SUCCESS, pos + ObPythonUDF.get_serialize_size u,
        ObPythonUDF.mk (ObPythonUDF.error_ret_ cur) (ObPythonUDF.tenant_id_ u) (ObPythonUDF.udf_id_ u) (ObPythonUDF.name_ u)
          (ObPythonUDF.model_name_ cur) (ObPythonUDF.arg_num_ u) (ObPythonUDF.arg_names_ u) (ObPythonUDF.arg_types_ u)
          (ObPythonUDF.ret_ u) (ObPythonUDF.pycall_ u) (ObPythonUDF.schema_version_ cur)).
Proof.
  intros Hu Hb Hpos Hm Hbl Hfit. pose proof (udf_size_bound u Hu) as Hs. rewrite <- udf_of_norm by exact Hu.
  assert (- 2 ^ 63 <= ObPythonUDF.UNIS_VERSION < 2 ^ 63) as Hver by (unfold ObPythonUDF.UNIS_VERSION; lia).
  unfold ObPythonUDF.serialize, ObPythonUDF.deserialize, ObPythonUDF.get_serialize_size in *.
  destruct (unis_roundtrip ObPythonUDF.UNIS_VERSION (ObPythonUDF.to_members u) (ObPythonUDF.to_members cur) m b buf_len pos
    Hver (udf_mvalid u Hu) (udf_mimage_pos u) ltac:(lia) ltac:(now repeat split) Hb Hpos Hm Hbl Hfit) as (m' & E1 & E2 & E3).
  exists m'. split; [exact E1 | split; [exact E2 |]]. now rewrite E3.
Qed.
End Request.
