(* ===== verification/WireTheorems.v ===== *)
(** The properties of the wire format and of the objects of a Python function
    that travel on it. *)
From S2P Require Import Prelude FixedArray SEArray HashArray SortedVector UdfSchema.
From S2P Require Import Serialization SerialFacts SerialLaws UdfObject BatchSize UdfMeta.
From S2P Require Import UdfCreate UdfFacts.
From S2P Require Import UdfWire.
From Stdlib Require String Ascii.
Import ObString.

(** C29. What a query knows of a Python function reaches the worker that runs
    it.  Let [u] be a function of the catalogue with argument strings of some
    names and types.  With memory, [ObPythonUdfRawExpr::set_udf_meta] and
    [ObPythonUdfInfo::from_raw_expr] succeed; the extra information they make is
    serialized into any buffer with [get_serialize_size] bytes of room, which
    changes no other byte; and an [ObPythonUdfInfo] fresh from the factory
    deserializes it, stops where the encoder stopped, and holds the same name,
    return type, Python code and argument types. *)
Theorem function_reaches_worker `{Allocator} u names tys batch_size m b buf_len pos :
  (forall k, alloc_ok k = true) -> args_ok u names tys -> udf_strings_ok u ->
  Z.of_nat (List.length tys) < 2 ^ 31 ->
  0 <= b -> 0 <= pos -> b + buf_len <= length m -> buf_len < 2 ^ 63 ->
  exists raw info,
    ObPythonUDFMeta.set_udf_meta true ObPythonUDFMeta.new u batch_size = Some (OB_SUCCESS, raw) /\
    UdfInfo.from_raw_expr UdfInfo.new raw = Some (OB_SUCCESS, info) /\
    (pos + UdfInfo.get_serialize_size info <= buf_len ->
     exists m' remote,
       UdfInfo.serialize m (Some b) buf_len pos info = Some (OB_SUCCESS, pos + UdfInfo.get_serialize_size info, m') /\
       same_outside m m' (b + pos) (b + pos + UdfInfo.get_serialize_size info) /\
       UdfInfo.deserialize m' (Some b) (pos + UdfInfo.get_serialize_size info) pos UdfInfo.new
       = Some (OB_SUCCESS, pos + UdfInfo.get_serialize_size info, remote) /\
       carries (UdfInfo.udf_meta_ remote) (ObPythonUDF.name_ u) (ObPythonUDF.ret_ u) (ObPythonUDF.pycall_ u) tys).
Proof.
  intros Hal Ha Hs Hlen Hb Hpos Hm Hbl.
  destruct (set_udf_meta_ok Hal ObPythonUDFMeta.new u names tys batch_size Ha Hs ltac:(lia) ObSEArray.se_wf_empty ObSEArray.se_wf_empty)
    as (raw & Eraw & Hcar & _ & Hnv & Hpv & _ & _ & _).
  destruct (deep_copy_meta_ok Hal raw _ _ _ _ Hcar Hnv Hpv ltac:(lia)) as (x & Ex & Hcx & Hxn & Hxp & _ & En & Eb & _).
  destruct (meta_ok_copied x _ _ _ _ Hal Hcx Hxn Hxp En Eb Hlen) as [Hok Hsize].
  exists raw. eexists. split; [exact Eraw |]. unfold UdfInfo.from_raw_expr. cbn [UdfInfo.udf_meta_ UdfInfo.new]. rewrite Ex.
  split; [reflexivity |]. intros Hfit.
  destruct (info_roundtrip x UdfInfo.new m b buf_len pos (Some UdfInfo.initial_control) Hok Hsize meta_target_new Hb Hpos Hm Hbl Hfit)
    as (m' & Eser & Hsame & Edes).
  exists m'. eexists. split; [exact Eser | split; [exact Hsame | split; [exact Edes |]]].
  cbn [UdfInfo.udf_meta_]. destruct Hcx as (H1 & H2 & H3 & H4). destruct (meta_norm_same x Hok) as (N1 & N2 & N3 & _ & N5 & _).
  unfold carries. rewrite N1, N2, N3, N5. auto.
Qed.

(** C30. A [CREATE PYTHON_UDF] statement arrives at the root server as it was
    written.  For a statement with parameters whose names have no comma and
    whose types are the grammar's, the resolver succeeds; the function of its
    request is serialized in [get_serialize_size] bytes; and the [ObPythonUDF]
    the root server reads back has the name, the tenant, the return type and the
    body of the statement, and its argument strings split into exactly the
    names and types of the parameters, in their order. *)
Theorem create_request_arrives `{Allocator} sizeof_stmt tenant_id node m b buf_len pos :
  (forall k, alloc_ok k = true) -> is_create node = true -> num_child_ node = 4 -> elements_ok (elements node) ->
  0 <= tenant_id < W64 -> Z.of_nat (List.length (elements node)) < 2 ^ 31 ->
  Forall (fun s => length s < 2 ^ 31 /\ byte_range s)
    [relation node; join (map (fun e => c_str e.1) (elements node));
     join (map (fun e => type_text e.2) (elements node)); body_of (pycall_node node)] ->
  0 <= b -> 0 <= pos -> b + buf_len <= length m -> buf_len < 2 ^ 63 ->
  exists u, resolve sizeof_stmt tenant_id node = (OB_SUCCESS, Some u) /\
    (pos + ObPythonUDF.get_serialize_size u <= buf_len ->
     exists m' u' types,
       ObPythonUDF.serialize m (Some b) buf_len pos u = Some (OB_SUCCESS, pos + ObPythonUDF.get_serialize_size u, m') /\
       same_outside m m' (b + pos) (b + pos + ObPythonUDF.get_serialize_size u) /\
       ObPythonUDF.deserialize m' (Some b) (pos + ObPythonUDF.get_serialize_size u) pos ObPythonUDF.new
       = Some (OB_SUCCESS, pos + ObPythonUDF.get_serialize_size u, u') /\
       ObPythonUDF.name_ u' = relation node /\ ObPythonUDF.tenant_id_ u' = tenant_id /\
       ObPythonUDF.ret_ u' = type_of_value (ret_value node) /\ ObPythonUDF.pycall_ u' = body_of (pycall_node node) /\
       args_ok u' (map (fun e => c_str e.1) (elements node)) (map (fun e => type_of_value e.2) (elements node)) /\
       ObPythonUDF.get_arg_types_arr u' ObSEArray.empty = Some (OB_SUCCESS, types) /\
       ObSEArray.items_ types = map (fun e => type_of_value e.2) (elements node)).
Proof.
  intros Hal Hc Hn He Ht Hlen HF Hb Hpos Hm Hbl. eexists. split; [now apply resolve_four |]. set (u := ObPythonUDF.mk _ _ _ _ _ _ _ _ _ _ _).
  intros Hfit. assert (udf_ok u) as Hu.
  { unfold udf_ok, u, OB_INVALID_ID. cbn. split_and!; try lia; try exact HF; unfold W64; lia. }
  destruct (udf_roundtrip u ObPythonUDF.new m b buf_len pos Hu Hb Hpos Hm Hbl Hfit) as (m' & E1 & E2 & E3).
  assert (args_ok (ObPythonUDF.mk OB_SUCCESS tenant_id OB_INVALID_ID (ObPythonUDF.name_ u) [] (ObPythonUDF.arg_num_ u)
    (ObPythonUDF.arg_names_ u) (ObPythonUDF.arg_types_ u) (ObPythonUDF.ret_ u) (ObPythonUDF.pycall_ u) (-1))
    (map (fun e => c_str e.1) (elements node)) (map (fun e => type_of_value e.2) (elements node))) as Ha
    by now apply resolved_args_ok.
  destruct (get_arg_types_arr_ok Hal _ _ _ ObSEArray.empty Ha ObSEArray.se_wf_empty) as (types & Et & _ & Hi);
    [rewrite length_map; lia |].
  exists m'. eexists. exists types. split; [exact E1 | split; [exact E2 | split; [exact E3 |]]]. auto 10.
Qed.

(** C31. The integer codecs, in any memory.  [encode_vi64] and [encode_vi32]
    write exactly [encoded_length] bytes (at most ten, and five) when there is
    that much room, and the decoder then returns the value and the position
    behind it, whatever follows; without the room they report
    [OB_SIZE_OVERFLOW] and touch nothing. *)
Theorem varint_codec m b buf_len pos v cur data_len :
  0 <= b -> 0 <= pos -> b + buf_len <= length m -> buf_len <= data_len < 2 ^ 63 ->
  (- 2 ^ 63 <= v < 2 ^ 63 ->
   1 <= encoded_length_vi64 v <= 10 /\
   (if pos + encoded_length_vi64 v <=? buf_len then
      exists m', encode_vi64 m (Some b) buf_len pos v = Some (OB_SUCCESS, pos + encoded_length_vi64 v, m') /\
        same_outside m m' (b + pos) (b + pos + encoded_length_vi64 v) /\
        decode_vi64 m' (Some b) data_len pos cur = Some (OB_SUCCESS, pos + encoded_length_vi64 v, v)
    else encode_vi64 m (Some b) buf_len pos v = Some (OB_SIZE_OVERFLOW, pos, m))) /\
  (- 2 ^ 31 <= v < 2 ^ 31 ->
   1 <= encoded_length_vi32 v <= 5 /\
   (if pos + encoded_length_vi32 v <=? buf_len then
      exists m', encode_vi32 m (Some b) buf_len pos v = Some (OB_SUCCESS, pos + encoded_length_vi32 v, m') /\
        same_outside m m' (b + pos) (b + pos + encoded_length_vi32 v) /\
        decode_vi32 m' (Some b) data_len pos cur = Some (OB_SUCCESS, pos + encoded_length_vi32 v, v)
    else encode_vi32 m (Some b) buf_len pos v = Some (OB_SIZE_OVERFLOW, pos, m))).
Proof.
  intros Hb Hpos Hm Hd. split; intros Hv; (split; [apply encoded_length_vi64_range || apply encoded_length_vi32_range |]).
  - destruct (Z.leb_spec (pos + encoded_length_vi64 v) buf_len); [| now apply encode_vi64_full].
    apply (codec_roundtrip _ _ _ _ _ _ _ v cur m b buf_len pos data_len vi64_laws); auto; lia.
  - destruct (Z.leb_spec (pos + encoded_length_vi32 v) buf_len); [| now apply encode_vi32_full].
    apply (codec_roundtrip _ _ _ _ _ _ _ v cur m b buf_len pos data_len vi32_laws); auto; lia.
Qed.

(** C32. Serializing the metadata of a function stays inside its buffer,
    whatever the room: it succeeds exactly when [get_serialize_size] bytes are
    left, and otherwise reports an error having changed no byte outside the part
    of the buffer from [pos] on. *)
Theorem serialize_in_bounds `{Allocator} x m b buf_len pos :
  meta_ok x -> ObPythonUDFMeta.get_serialize_size x < 2 ^ 34 ->
  0 <= b -> 0 <= pos -> b + buf_len <= length m ->
  exists ret pos' m', ObPythonUDFMeta.serialize m (Some b) buf_len pos x = Some (ret, pos', m') /\
    (ret = OB_SUCCESS <-> pos + ObPythonUDFMeta.get_serialize_size x <= buf_len) /\
    (ret = OB_SUCCESS -> pos' = pos + ObPythonUDFMeta.get_serialize_size x) /\
    same_outside m m' (b + pos) (b + Z.max pos buf_len).
Proof.
  intros Hx Hs Hb Hpos Hm. pose proof (meta_unis_valid x Hx ltac:(lia)) as Hv.
  pose proof (@serial_bounds ObPythonUDFMeta.t _ meta_laws x m b buf_len pos Hv Hb Hpos Hm) as Hbounds.
  assert (encoded_length x = ObPythonUDFMeta.get_serialize_size x) as El by reflexivity. rewrite El in Hbounds. exact Hbounds.
Qed.

(** C33. An [ObSEArray] is a list.  Any sequence of calls on it (with requests
    below [2^40] elements and fewer than [2^40] calls) stays inside the memory it
    has, keeps the array well formed, and leaves the elements that the same calls
    leave in a list: a call that succeeds does the list operation, a call that
    fails leaves the elements as they were, except [assign], which empties the
    array first.  A [remove] fails, with [OB_ARRAY_OUT_OF_RANGE], exactly when its
    index is out of the list's range at that point; a call that asks for memory
    may fail for the lack of it; no other call fails.  When memory never runs out
    the codes are, call by call, those of the list. *)
Theorem se_array_is_a_list `{Allocator, ObSEArray.SELaws T} (cs : list ObSEArray.call) (a : ObSEArray.t T) :
  ObSEArray.wf a -> Forall ObSEArray.tiny_call cs -> ObSEArray.count a <= 2 ^ 40 -> Z.of_nat (List.length cs) < 2 ^ 40 ->
  exists rets a', ObSEArray.runs a cs = Some (rets, a') /\ ObSEArray.wf a' /\ List.length rets = List.length cs /\
    ObSEArray.items_ a' = ObSEArray.list_runs (ObSEArray.items_ a) cs rets /\
    ObSEArray.codes_ok (ObSEArray.items_ a) cs rets /\
    ((forall k, alloc_ok k = true) -> rets = ObSEArray.list_codes (ObSEArray.items_ a) cs).
Proof.
  intros Hw Ht Hc Hn. destruct (ObSEArray.runs_spec cs a) as (rets & a' & E & Hw' & Hl & Hi & Hok); auto with lia.
  exists rets, a'. split_and!; auto. intros Hm. now apply ObSEArray.codes_with_memory.
Qed.

(** *** Witnesses *)
Section Witnesses.
#[local] Instance wire_alloc : Allocator := fun _ => true.

(** [f(a INTEGER, b STRING) RETURNS REAL]. *)
Definition demo_node : CreateNode :=
  mkNode true 4 (chars "f") [(chars "a", 2); (chars "b", 1)] 3 [] (T_PYTHON_CODE (chars "pyinitial pyfun")).
Definition demo_udf : ObPythonUDF.t :=
  ObPythonUDF.mk OB_SUCCESS 1 7 (chars "f") [] 2 (chars "a,b") (chars "INTEGER,STRING") REAL (chars "pyinitial pyfun") 5.
Definition zeros (n : nat) : mem := replicate n 0.

Lemma demo_elements_ok : elements_ok (elements demo_node).
Proof. repeat constructor; simpl; (easy || lia). Qed.
Lemma demo_args_ok : args_ok demo_udf [chars "a"; chars "b"] [INTEGER; STRING].
Proof.
  exists [chars "INTEGER"; chars "STRING"]. split_and!; try reflexivity; repeat constructor; easy.
Qed.
Lemma demo_range s : Forall (fun a => True) (String.list_ascii_of_string s) -> byte_range (chars s).
Proof.
  intros _. unfold byte_range, chars. apply Forall_map, Forall_forall. intros a _.
  pose proof (Ascii.nat_ascii_bounded a). simpl. lia.
Qed.

Lemma function_reaches_worker_witness :
  exists raw info,
    ObPythonUDFMeta.set_udf_meta true ObPythonUDFMeta.new demo_udf 512 = Some (OB_SUCCESS, raw) /\
    UdfInfo.from_raw_expr UdfInfo.new raw = Some (OB_SUCCESS, info) /\
    (0 + UdfInfo.get_serialize_size info <= 64 ->
     exists m' remote,
       UdfInfo.serialize (zeros 64) (Some 0) 64 0 info = Some (OB_SUCCESS, 0 + UdfInfo.get_serialize_size info, m') /\
       same_outside (zeros 64) m' (0 + 0) (0 + 0 + UdfInfo.get_serialize_size info) /\
       UdfInfo.deserialize m' (Some 0) (0 + UdfInfo.get_serialize_size info) 0 UdfInfo.new
       = Some (OB_SUCCESS, 0 + UdfInfo.get_serialize_size info, remote) /\
       carries (UdfInfo.udf_meta_ remote) (chars "f") REAL (chars "pyinitial pyfun") [INTEGER; STRING]).
Proof.
  apply (function_reaches_worker demo_udf [chars "a"; chars "b"]); try reflexivity; try (vm_compute; discriminate); try lia;
    [exact demo_args_ok |].
  split_and!; try reflexivity; now apply demo_range, Forall_forall.
Defined.

(** The bytes on the wire, computed. *)
Example wire_bytes :
  (x ← ObPythonUDFMeta.set_udf_meta true ObPythonUDFMeta.new demo_udf 512;
   y ← UdfInfo.from_raw_expr UdfInfo.new x.2;
   '(ret, pos, m) ← UdfInfo.serialize (zeros 48) (Some 0) 48 0 y.2; Some (ret, take (Z.to_nat pos) m))
  = Some (OB_SUCCESS,
      [1; 163; 128; 128; 128; 0; 1; 157; 128; 128; 128; 0; 1; 102; 0; 3;
       15; 112; 121; 105; 110; 105; 116; 105; 97; 108; 32; 112; 121; 102; 117; 110; 0; 0; 2; 2; 1; 0; 128; 2; 0]).
Proof. vm_compute. reflexivity. Qed.

Lemma create_request_arrives_witness :
  exists u, resolve 64 1 demo_node = (OB_SUCCESS, Some u) /\
    (0 + ObPythonUDF.get_serialize_size u <= 80 ->
     exists m' u' types,
       ObPythonUDF.serialize (zeros 80) (Some 0) 80 0 u = Some (OB_SUCCESS, 0 + ObPythonUDF.get_serialize_size u, m') /\
       same_outside (zeros 80) m' (0 + 0) (0 + 0 + ObPythonUDF.get_serialize_size u) /\
       ObPythonUDF.deserialize m' (Some 0) (0 + ObPythonUDF.get_serialize_size u) 0 ObPythonUDF.new
       = Some (OB_SUCCESS, 0 + ObPythonUDF.get_serialize_size u, u') /\
       ObPythonUDF.name_ u' = relation demo_node /\ ObPythonUDF.tenant_id_ u' = 1 /\
       ObPythonUDF.ret_ u' = type_of_value (ret_value demo_node) /\
       ObPythonUDF.pycall_ u' = body_of (pycall_node demo_node) /\
       args_ok u' (map (fun e => c_str e.1) (elements demo_node)) (map (fun e => type_of_value e.2) (elements demo_node)) /\
       ObPythonUDF.get_arg_types_arr u' ObSEArray.empty = Some (OB_SUCCESS, types) /\
       ObSEArray.items_ types = map (fun e => type_of_value e.2) (elements demo_node)).
Proof.
  apply (create_request_arrives 64 1 demo_node (zeros 80) 0 80 0).
  - reflexivity.
  - reflexivity.
  - reflexivity.
  - exact demo_elements_ok.
  - unfold W64. lia.
  - reflexivity.
  - change (join (map (fun e => c_str e.1) (elements demo_node))) with (chars "a,b").
    change (join (map (fun e => type_text e.2) (elements demo_node))) with (chars "INTEGER,STRING").
    repeat (constructor; [split; [reflexivity | now apply demo_range, Forall_forall] |]). constructor.
  - lia.
  - lia.
  - vm_compute. discriminate.
  - lia.
Defined.

Lemma varint_codec_witness :
  (- 2 ^ 63 <= -5 < 2 ^ 63 ->
   1 <= encoded_length_vi64 (-5) <= 10 /\
   (if 0 + encoded_length_vi64 (-5) <=? 12 then
      exists m', encode_vi64 (zeros 12) (Some 0) 12 0 (-5) = Some (OB_SUCCESS, 0 + encoded_length_vi64 (-5), m') /\
        same_outside (zeros 12) m' (0 + 0) (0 + 0 + encoded_length_vi64 (-5)) /\
        decode_vi64 m' (Some 0) 12 0 0 = Some (OB_SUCCESS, 0 + encoded_length_vi64 (-5), -5)
    else encode_vi64 (zeros 12) (Some 0) 12 0 (-5) = Some (OB_SIZE_OVERFLOW, 0, zeros 12))) /\
  (- 2 ^ 31 <= -5 < 2 ^ 31 ->
   1 <= encoded_length_vi32 (-5) <= 5 /\
   (if 0 + encoded_length_vi32 (-5) <=? 12 then
      exists m', encode_vi32 (zeros 12) (Some 0) 12 0 (-5) = Some (OB_SUCCESS, 0 + encoded_length_vi32 (-5), m') /\
        same_outside (zeros 12) m' (0 + 0) (0 + 0 + encoded_length_vi32 (-5)) /\
        decode_vi32 m' (Some 0) 12 0 0 = Some (OB_SUCCESS, 0 + encoded_length_vi32 (-5), -5)
    else encode_vi32 (zeros 12) (Some 0) 12 0 (-5) = Some (OB_SIZE_OVERFLOW, 0, zeros 12))).
Proof. apply (varint_codec (zeros 12) 0 12 0 (-5) 0 12); try lia. vm_compute. discriminate. Defined.

(** The metadata of [f] as the expression holds it. *)
Definition demo_meta : ObPythonUDFMeta.t :=
  ObPythonUDFMeta.mk (obstr_of (chars "f")) REAL (obstr_of (chars "pyinitial pyfun")) ObSEArray.empty
    (ObSEArray.mk [INTEGER; STRING] 16 OB_SUCCESS) false 256 false.
Lemma demo_meta_ok : meta_ok demo_meta.
Proof.
  unfold meta_ok, demo_meta. cbn [ObPythonUDFMeta.name_ ObPythonUDFMeta.pycall_ ObPythonUDFMeta.udf_attributes_names_
    ObPythonUDFMeta.udf_attributes_types_ ObPythonUDFMeta.batch_size_].
  split; [| split; [| split; [| split; [| lia]]]].
  - apply obstr_of_valid; [reflexivity | now apply demo_range, Forall_forall].
  - apply obstr_of_valid; [reflexivity | now apply demo_range, Forall_forall].
  - split; [constructor | split; [reflexivity | now intros]].
  - split; [repeat constructor | split; [reflexivity | now intros]].
Qed.

Lemma serialize_in_bounds_witness :
  exists ret pos' m', ObPythonUDFMeta.serialize (zeros 20) (Some 0) 20 0 demo_meta = Some (ret, pos', m') /\
    (ret = OB_SUCCESS <-> 0 + ObPythonUDFMeta.get_serialize_size demo_meta <= 20) /\
    (ret = OB_SUCCESS -> pos' = 0 + ObPythonUDFMeta.get_serialize_size demo_meta) /\
    same_outside (zeros 20) m' (0 + 0) (0 + Z.max 0 20).
Proof. apply (serialize_in_bounds demo_meta (zeros 20) 0 20 0); [exact demo_meta_ok | reflexivity | lia | lia | vm_compute; discriminate]. Defined.

Definition demo_calls : list (ObSEArray.call (T := PyUdfRetType)) :=
  [ObSEArray.Push STRING; ObSEArray.Prepare 3; ObSEArray.Remove 0; ObSEArray.Remove 5; ObSEArray.Pop].
Lemma se_array_is_a_list_witness :
  exists rets a', ObSEArray.runs ObSEArray.empty demo_calls = Some (rets, a') /\ ObSEArray.wf a' /\
    List.length rets = List.length demo_calls /\
    ObSEArray.items_ a' = ObSEArray.list_runs (ObSEArray.items_ ObSEArray.empty) demo_calls rets /\
    ObSEArray.codes_ok (ObSEArray.items_ ObSEArray.empty) demo_calls rets /\
    ((forall k, alloc_ok k = true) -> rets = ObSEArray.list_codes (ObSEArray.items_ ObSEArray.empty) demo_calls).
Proof.
  apply (se_array_is_a_list demo_calls ObSEArray.empty); [apply ObSEArray.se_wf_empty | repeat constructor; simpl; lia | vm_compute; discriminate | reflexivity].
Defined.
End Witnesses.
