(* ===== verification/WireFindings.v ===== *)
(** What the wire format and the objects do on inputs their authors did not
    have in mind, each on a concrete input or in general. *)
From S2P Require Import Prelude FixedArray SEArray HashArray SortedVector UdfSchema.
From S2P Require Import Serialization SerialFacts SerialLaws UdfObject BatchSize UdfMeta.
From S2P Require Import UdfCreate UdfFacts.
From S2P Require Import UdfWire.
Import ObString.

(** *** Truncated integers *)

(** The decoders' loop over [cs], continuation bytes up to the end of the data:
    it reads one byte more, which must be there. *)
Lemma get_vi_truncated w cs : forall fuel p s b pos v shift,
  Forall (fun c => 128 <= c < 256) cs -> blen p = b + pos -> (List.length cs < fuel)%nat ->
  0 <= shift -> shift + 7 * (blen cs - 1) < w ->
  match s with
  | [] => get_vi w fuel (p ++ cs ++ s) (Some b) (pos + blen cs) pos v shift = None
  | _ => exists v', get_vi w fuel (p ++ cs ++ s) (Some b) (pos + blen cs) pos v shift
                    = Some (OB_DESERIALIZE_ERROR, pos + blen cs, v')
  end.
Proof.
  induction cs as [| c cs IH]; intros fuel p s b pos v shift Hcs Hp Hf Hs Hw; destruct fuel as [| fuel]; try (simpl in Hf; lia).
  - rewrite blen_nil, Z.add_0_r. cbn [app get_vi]. destruct s as [| c s].
    + unfold load. cbn [mbind option_bind]. destruct (0 <=? b + pos); [| reflexivity].
      rewrite lookup_ge_None_2; [reflexivity |]. rewrite app_nil_r. unfold blen in Hp. lia.
    + rewrite load_mid by exact Hp. cbn [mbind option_bind]. rewrite (proj2 (Z.ltb_lt (pos - pos) 1)) by lia.
      exists v. now destruct (Z.testbit c 7).
  - inversion Hcs as [| ? ? Hc Hcs']; subst. rewrite blen_cons in *. cbn [app get_vi] in *. rewrite load_mid by exact Hp. cbn [mbind option_bind].
    rewrite testbit7, (proj2 (Z.leb_le _ _)) by lia. pose proof (blen_nonneg cs).
    rewrite (proj2 (Z.ltb_ge _ _)) by lia. unfold shl. rewrite (proj2 (Z.ltb_lt _ _)) by lia. cbn [mbind option_bind].
    set (v' := Z.lor v _). specialize (IH fuel (p ++ [c]) s b (pos + 1) v' (shift + 7)). rewrite <- !app_assoc in IH. cbn [app] in IH.
    replace (pos + (1 + blen cs)) with (pos + 1 + blen cs) by lia.
    apply IH; [exact Hcs' | autorewrite with blen; lia | simpl in Hf; lia | lia | lia].
Qed.

(** An integer cut short is reported only after the byte behind the data was
    read: at the end of the memory that read is out of bounds. *)
Theorem truncated_varint_overread p cs b pos cur :
  Forall (fun c => 128 <= c < 256) cs -> (List.length cs <= 10)%nat -> blen p = b + pos ->
  decode_vi64 (p ++ cs) (Some b) (pos + blen cs) pos cur = None /\
  forall c s, decode_vi64 (p ++ cs ++ c :: s) (Some b) (pos + blen cs) pos cur = Some (OB_DESERIALIZE_ERROR, pos, cur).
Proof.
  intros Hcs Hl Hp. assert (0 + 7 * (blen cs - 1) < 64) as Hw by (unfold blen; lia).
  unfold decode_vi64, decode_vi. split.
  - pose proof (get_vi_truncated 64 cs (S (List.length (p ++ cs))) p [] b pos 0 0 Hcs Hp) as E. cbn iota in E. rewrite app_nil_r in E.
    rewrite E; [reflexivity | rewrite length_app; lia | lia | exact Hw].
  - intros c s. destruct (get_vi_truncated 64 cs (S (List.length (p ++ cs ++ c :: s))) p (c :: s) b pos 0 0 Hcs Hp) as (v' & ->);
      [rewrite !length_app; lia | lia | exact Hw | reflexivity].
Qed.

(** *** A length near [2^63] overflows the check of the frame *)
Example frame_length_overflow :
  unis_deserialize (A := unit * bool) 1 ([1] ++ vi64_image (2 ^ 63 - 1) ++ [0; 0; 0; 0]) (Some 0) 14 0 (tt, false) = None.
Proof. vm_compute. reflexivity. Qed.

Section Alloc.
#[local] Instance findings_alloc : Allocator := fun _ => true.

(** *** A count near [2^60] wraps the size of the block *)
Example array_count_overflow :
  decode (vi64_image (2 ^ 60) ++ [0; 0; 0; 0]) (Some 0) 13 0 (ObSEArray.empty (T := ObStr)) = None.
Proof. vm_compute. reflexivity. Qed.

(** *** A body from a file that does not open *)
Example missing_file_accepted :
  (resolve 64 1 (mkNode true 4 (chars "f") [] 3 [] (T_FILE_PATH None))).1 = OB_SUCCESS.
Proof. reflexivity. Qed.
End Alloc.

Section Batch.
Context `{Allocator} (Hal : forall k, alloc_ok k = true).

(** *** The batch size of a call *)

(** Whatever batch size a call asks for, one out of range included,
    [set_udf_meta] succeeds, and the run-time information made from it has the
    default batch size and leaves it adjustable. *)
Theorem batch_size_dropped u names tys batch_size :
  args_ok u names tys -> udf_strings_ok u -> Z.of_nat (List.length tys) < 2 ^ 41 ->
  exists raw info,
    ObPythonUDFMeta.set_udf_meta true ObPythonUDFMeta.new u batch_size = Some (OB_SUCCESS, raw) /\
    UdfInfo.from_raw_expr UdfInfo.new raw = Some (OB_SUCCESS, info) /\
    ObPythonUDFMeta.batch_size_ (UdfInfo.udf_meta_ info) = 256 /\
    ObPythonUDFMeta.batch_size_const_ (UdfInfo.udf_meta_ info) = false.
Proof using Hal.
  intros Ha Hs Hlen.
  destruct (set_udf_meta_ok Hal ObPythonUDFMeta.new u names tys batch_size Ha Hs Hlen ObSEArray.se_wf_empty ObSEArray.se_wf_empty)
    as (raw & Eraw & Hcar & _ & Hnv & Hpv & _).
  destruct (deep_copy_meta_ok Hal raw _ _ _ _ Hcar Hnv Hpv Hlen) as (x & Ex & _ & _ & _ & _ & _ & Eb & Ec).
  exists raw. eexists. split; [exact Eraw |]. unfold UdfInfo.from_raw_expr. cbn [UdfInfo.udf_meta_ UdfInfo.new]. now rewrite Ex.
Qed.

(** *** The control fields on a worker *)

(** [deserialize] into the object of the factory, and [deep_copy], leave the
    fields of the batch-size control as the constructor left them: unset. *)
Theorem control_never_set x m buf data_len pos ret pos' y :
  UdfInfo.deserialize m buf data_len pos UdfInfo.new = Some (ret, pos', y) \/
  UdfInfo.deep_copy x true = Some (ret, Some y) ->
  UdfInfo.control_ y = None.
Proof.
  unfold UdfInfo.deserialize, UdfInfo.deep_copy, dmap. intros [E | E].
  - destruct (unis_deserialize _ _ _ _ _ _) as [[[ret0 pos0] z] |]; [| discriminate]. cbn in E. now injection E as _ _ <-.
  - cbn [negb] in E. destruct (ObPythonUDFMeta.deep_copy_udf_meta _ _) as [[ret0 z] |]; [| discriminate]. cbn in E. now injection E as _ <-.
Qed.

(** *** The argument names *)

(** The names [set_udf_meta] stores point to memory that is gone: serializing
    the metadata of the raw expression would read it. *)
Theorem arg_names_dangle u names tys arr :
  args_ok u names tys -> ObSEArray.wf arr -> Z.of_nat (List.length tys) < 2 ^ 41 ->
  exists a', ObPythonUDF.get_arg_names_arr u arr = Some (OB_SUCCESS, a') /\
    Forall (fun s => obstr_bytes s = None) (ObSEArray.items_ a').
Proof using Hal.
  intros Ha Hw Hlen. destruct (get_arg_names_arr_ok Hal u names tys arr Ha Hw Hlen) as (a' & E & _ & Hi).
  exists a'. split; [exact E |]. rewrite Hi. now apply Forall_map, Forall_true.
Qed.

(** *** The model name *)

(** [operator=] and the wire both drop [model_name_]: the target keeps its own. *)
Theorem model_name_dropped this other : ObPythonUDF.model_name_ (ObPythonUDF.op_assign this other) = ObPythonUDF.model_name_ this.
Proof. unfold ObPythonUDF.op_assign. now repeat case_match. Qed.
End Batch.
