(* ===== verification/UdfExpr.v ===== *)
(** The expression of a Python function before execution: [ObExprPythonUdf]
    ([src/sql/engine/expr/ob_expr_python_udf.cpp]: result type, [init_udf],
    [import_udf], [cg_expr]), [ObExprGeneratorImpl::visit_python_udf_expr]
    ([src/sql/code_generator/ob_expr_generator_impl.cpp]),
    [ObRawExprDeduceType::init_python_udf_expr]
    ([src/sql/resolver/expr/ob_raw_expr_deduce_type.cpp]) and
    [ObPythonUdfRawExpr] ([src/sql/resolver/expr/ob_raw_expr.cpp]).

    The interpreter is not part of the repository: [PyMain] lists the calls that
    import a function's code. *)
From S2P Require Import Prelude Frame.
From S2P Require Import FixedArray SEArray HashArray SortedVector UdfSchema.
From S2P Require Import Serialization UdfObject BatchSize UdfMeta.
Import ObString.

(** ** The interpreter's side of an import *)
Class PyMain := mkPyMain {
  PyState : Type;
  PyImport_AddModule_ok : PyState -> bool;        (* "__main__" *)
  PyModule_GetDict_ok : PyState -> bool;
  PyRun_String : PyState -> bytes -> PyState * bool;
  PyObject_GetAttr_callable : PyState -> bytes -> bool;   (* found, and callable *)
  PyObject_CallNoArgs : PyState -> bytes -> PyState * bool
}.

(** A call returns, or an exception of the C++ library leaves it. *)
Inductive outcome (A : Type) := Throws | Returns (a : A).
Arguments Throws {A}. Arguments Returns {A}.

(** [std::string s(ptr); s = s.substr(0, length);]: up to the first NUL, which
    is looked for in the bytes [rest] behind the string too. *)
Definition std_string (s : ObStr) (rest : bytes) : option bytes :=
  match ptr_ s with
  | To b => Some (take (Z.to_nat (data_length_ s)) (c_str (b ++ rest)))
  | _ => None
  end.

(** [s.replace(s.find(pat), n, by)]: throws when there is no [pat]. *)
Definition replace_first (s pat : bytes) (n : nat) (by_ : bytes) : option bytes :=
  match find pat s with
  | Some i => Some (take i s ++ by_ ++ drop (i + n) s)
  | None => None
  end.

Definition pyinitial_handler (name : bytes) : bytes := name ++ chars "_pyinitial".
Definition pyfun_handler (name : bytes) : bytes := name ++ chars "_pyfun".

(** The program handed to the interpreter. *)
Definition program (name pycall : bytes) : option bytes :=
  s ← replace_first pycall (chars "pyinitial") 9 (pyinitial_handler name);
  replace_first s (chars "pyfun") 5 (pyfun_handler name).

(** ** [ObExprPythonUdf] *)
Module ObExprPythonUdf.
Import ObPythonUDFMeta.

(** [calc_result_typeN]: the code and the deduced type. *)
Definition calc_result_typeN (m : ObPythonUDFMeta.t) (type : ObObjType) : Z * ObObjType :=
  match ret_ m with
  | STRING => (OB_SUCCESS, ObVarcharType)
  | DECIMAL => (OB_SUCCESS, ObNumberType)
  | INTEGER => (OB_SUCCESS, ObIntType)
  | REAL => (OB_SUCCESS, ObDoubleType)
  | UDF_UNINITIAL => (OB_SUCCESS, ObNumberType)
  end.

Section Import.
Context `{PyMain}.

(** [import_udf]; [rest_name] and [rest_pycall] are the bytes behind the two
    strings.  A thread that already holds the GIL releases a state that was
    never set: no defined behaviour. *)
Definition import_udf (gil_held : bool) (st : PyState) (m : ObPythonUDFMeta.t) (rest_name rest_pycall : bytes) :
    option (outcome (Z * PyState)) :=
  name ← std_string (name_ m) rest_name;
  pycall ← std_string (pycall_ m) rest_pycall;
  match program name pycall with
  | None => Some Throws
  | Some pycall_c =>
      if gil_held then None
      else Some (Returns (
        if negb (PyImport_AddModule_ok st) then (OB_ERR_UNEXPECTED, st)
        else if negb (PyModule_GetDict_ok st) then (OB_ERR_UNEXPECTED, st)
        else
          let '(st, v) := PyRun_String st pycall_c in
          if negb v then (OB_ERR_UNEXPECTED, st)
          else if negb (PyObject_GetAttr_callable st (pyinitial_handler name)) then (OB_ERR_UNEXPECTED, st)
          else
            let '(st, called) := PyObject_CallNoArgs st (pyinitial_handler name) in
            if negb called then (OB_ERR_UNEXPECTED, st) else (OB_SUCCESS, st)))
  end.

(** The check of one parameter: what its type asks of the declaration. *)
Definition param_type (t : ObObjType) : option PyUdfRetType :=
  match t with
  | ObCharType | ObVarcharType | ObTinyTextType | ObTextType | ObMediumTextType | ObLongTextType => Some STRING
  | ObTinyIntType | ObSmallIntType | ObMediumIntType | ObInt32Type | ObIntType => Some INTEGER
  | ObDoubleType => Some REAL
  | _ => None
  end.

(** The loop over the parameter expressions from [idx]; a null expression is
    [None].  A type beyond the declared ones is read out of bounds. *)
Fixpoint check_params (types : list PyUdfRetType) (params : list (option ObObjType)) (idx : nat) : option Z :=
  match params with
  | [] => Some OB_SUCCESS
  | None :: _ => Some OB_ERR_UNEXPECTED
  | Some t :: params' =>
      match param_type t with
      | None => Some OB_ERR_UNEXPECTED
      | Some expected =>
          declared ← types !! idx;
          if decide (declared <> expected) then Some OB_ERR_UNEXPECTED else check_params types params' (S idx)
      end
  end.

(** [OB_ISNULL] of a string goes through its conversion to a pseudo-Boolean. *)
Definition str_null (s : ObStr) : bool :=
  negb (negb (match ptr_ s with Null => true | _ => false end) && (0 <? data_length_ s)).

Definition set_init (m : ObPythonUDFMeta.t) : ObPythonUDFMeta.t :=
  mk (name_ m) (ret_ m) (pycall_ m) (udf_attributes_names_ m) (udf_attributes_types_ m) true
     (batch_size_ m) (batch_size_const_ m).

Definition init_udf (gil_held : bool) (st : PyState) (m : ObPythonUDFMeta.t) (rest_name rest_pycall : bytes)
    (params : list (option ObObjType)) : option (outcome (Z * ObPythonUDFMeta.t * PyState)) :=
  if init_ m then Some (Returns (OB_SUCCESS, m, st))
  else
    ret ← (if decide (ret_ m = UDF_UNINITIAL) then Some OB_ERR_UNEXPECTED
           else if str_null (pycall_ m) then Some OB_ERR_UNEXPECTED
           else check_params (ObSEArray.items_ (udf_attributes_types_ m)) params 0);
    if OB_FAIL ret then Some (Returns (ret, m, st))
    else
      r ← import_udf gil_held st m rest_name rest_pycall;
      Some (match r with
            | Throws => Throws
            | Returns (ret, st) => Returns (ret, if OB_FAIL ret then m else set_init m, st)
            end).

(** [ObExprGeneratorImpl::visit_python_udf_expr]: copy the metadata into the
    operator, then check and import. *)
Definition visit_python_udf_expr `{Allocator} (op : option ObPythonUDFMeta.t) (old_op : bool) (gil_held : bool) (st : PyState)
    (raw_meta : ObPythonUDFMeta.t) (rest_name rest_pycall : bytes) (params : list (option ObObjType)) :
    option (outcome (Z * option ObPythonUDFMeta.t * PyState)) :=
  match op with
  | None => Some (Returns (OB_ERR_UNEXPECTED, None, st))
  | Some this =>
      if negb old_op then Some (Returns (OB_ERR_UNEXPECTED, Some this, st))
      else
        '(ret, this) ← deep_copy_udf_meta this raw_meta;
        if OB_FAIL ret then Some (Returns (ret, Some this, st))
        else
          r ← init_udf gil_held st this rest_name rest_pycall params;
          Some (match r with
                | Throws => Throws
                | Returns (ret, this, st) => Returns (ret, Some this, st)
                end)
  end.
End Import.

(** [ObRawExprDeduceType::init_python_udf_expr]: the metadata of the expression
    goes into the operator the deduction works with. *)
Definition init_python_udf_expr `{Allocator} (is_python_udf : bool) (op : option ObPythonUDFMeta.t) (raw_meta : ObPythonUDFMeta.t) :
    option (Z * option ObPythonUDFMeta.t) :=
  if negb is_python_udf then Some (OB_ERR_UNEXPECTED, op)
  else match op with
       | None => Some (OB_ERR_UNEXPECTED, None)
       | Some this => '(ret, this) ← deep_copy_udf_meta this raw_meta; Some (ret, Some this)
       end.

(** The evaluation functions the expression gets: only the operator evaluates. *)
Definition eval_python_udf : Z := OB_NOT_SUPPORTED.
Definition eval_python_udf_batch : Z := OB_NOT_SUPPORTED.
Definition eval_python_udf_vector : Z := OB_NOT_SUPPORTED.

(** [cg_expr]: the extra information and which evaluation functions the
    run-time expression gets.  An argument is whether it is a batch result and
    whether it is constant. *)
Record RtExpr := mkRt { extra_info_ : option UdfInfo.t; eval_func_ : bool; eval_batch_func_ : bool; eval_vector_func_ : bool }.
Definition cg_expr `{Allocator} (new_ok : bool) (raw_meta : ObPythonUDFMeta.t) (args : list (bool * bool)) (rt : RtExpr) :
    option (Z * RtExpr) :=
  '(ret, info) ←
    (if negb new_ok then Some (OB_ALLOCATE_MEMORY_FAILED, extra_info_ rt)
     else '(ret, info) ← UdfInfo.from_raw_expr UdfInfo.new raw_meta; Some (ret, Some info));
  let is_batch := forallb (fun a => negb (negb a.1 && negb a.2)) args in
  Some (ret, mkRt info true (is_batch || eval_batch_func_ rt) (is_batch || eval_vector_func_ rt)).
End ObExprPythonUdf.

(** ** [ObPythonUdfRawExpr] *)
Module ObPythonUdfRawExpr.

(** [assign] after the base class: the metadata of an expression of the same
    class and type.  [base] is the code of [ObSysFunRawExpr::assign]. *)
Definition assign `{Allocator} (this other : ObPythonUDFMeta.t) (same_object same_kind : bool) (base : Z) :
    option (Z * ObPythonUDFMeta.t) :=
  if same_object then Some (OB_SUCCESS, this)
  else if negb same_kind then Some (OB_ERR_UNEXPECTED, this)
  else if OB_FAIL base then Some (base, this)
  else m ← ObPythonUDFMeta.op_assign this other; Some (OB_SUCCESS, m).

(** [inner_deep_copy] after the base class: of the strings only [pycall_] gets a
    copy of its own. *)
Definition inner_deep_copy `{Allocator} (this : ObPythonUDFMeta.t) (base : Z) (deep_copy_attributes inner_alloc : bool) :
    option (Z * ObPythonUDFMeta.t) :=
  if OB_FAIL base then Some (base, this)
  else if negb deep_copy_attributes then Some (base, this)
  else if negb inner_alloc then Some (OB_ERR_UNEXPECTED, this)
  else
    '(ret, s) ← ob_write_string (ObPythonUDFMeta.pycall_ this);
    Some (ret, ObPythonUDFMeta.mk (ObPythonUDFMeta.name_ this) (ObPythonUDFMeta.ret_ this) s
      (ObPythonUDFMeta.udf_attributes_names_ this) (ObPythonUDFMeta.udf_attributes_types_ this)
      (ObPythonUDFMeta.init_ this) (ObPythonUDFMeta.batch_size_ this) (ObPythonUDFMeta.batch_size_const_ this)).

(** [inner_same_as]: no two expressions are the same. *)
Definition inner_same_as (this other : ObPythonUDFMeta.t) : bool := false.
End ObPythonUdfRawExpr.
