(* ===== verification/ExprTheorems.v ===== *)
(** What the checks and the import of a Python function guarantee. *)
From S2P Require Import Prelude Frame.
From S2P Require Import FixedArray SEArray HashArray SortedVector UdfSchema.
From S2P Require Import Serialization SerialFacts SerialLaws UdfObject BatchSize UdfMeta.
From S2P Require Import UdfFacts UdfExpr.
From Stdlib Require Ascii.
Import ObString.

(** *** Searching *)
Lemma find_from_shift pat s : forall n, find_from pat s n = (fun i => (n + i)%nat) <$> find pat s.
Proof.
  unfold find. induction s as [| c s IH]; intros n; cbn [find_from].
  - destruct (starts_with pat []); cbn; [f_equal; lia | reflexivity].
  - destruct (starts_with pat (c :: s)); [cbn; f_equal; lia |]. rewrite (IH (S n)), (IH 1%nat).
    destruct (find_from pat s 0); cbn; [f_equal; lia | reflexivity].
Qed.

Lemma find_cons pat c s :
  find pat (c :: s) = if starts_with pat (c :: s) then Some 0%nat else S <$> find pat s.
Proof.
  unfold find at 1. cbn [find_from]. destruct (starts_with pat (c :: s)); [reflexivity |].
  rewrite find_from_shift. destruct (find pat s); reflexivity.
Qed.

(** The first occurrence: there is one there, and none before. *)
Lemma find_some pat s : forall i, find pat s = Some i ->
  starts_with pat (drop i s) = true /\ (forall k, (k < i)%nat -> starts_with pat (drop k s) = false) /\ (i <= List.length s)%nat.
Proof.
  induction s as [| c s IH]; intros i.
  - unfold find. cbn [find_from]. destruct (starts_with pat []) eqn:E; [| discriminate]. intros [= <-]. rewrite drop_nil.
    split_and!; auto; lia.
  - rewrite find_cons. destruct (starts_with pat (c :: s)) eqn:E; [intros [= <-]; split_and!; auto; simpl; lia |].
    destruct (find pat s) as [j |]; [| discriminate]. intros [= <-]. destruct (IH j eq_refl) as (H1 & H2 & H3).
    split_and!; [exact H1 | | simpl; lia]. intros [| k] Hk; [exact E |]. apply H2. lia.
Qed.

Lemma find_none pat s : find pat s = None -> forall k, (k <= List.length s)%nat -> starts_with pat (drop k s) = false.
Proof.
  induction s as [| c s IH].
  - unfold find. cbn [find_from]. destruct (starts_with pat []) eqn:E; [discriminate |]. intros _ k _. now rewrite drop_nil.
  - rewrite find_cons. destruct (starts_with pat (c :: s)) eqn:E; [discriminate |]. destruct (find pat s); [discriminate |].
    intros _ [| k] Hk; [exact E |]. simpl in Hk. apply IH; [reflexivity | lia].
Qed.

(** Past a part in which no occurrence starts. *)
Lemma find_app_skip pat a : forall b, (forall k, (k < List.length a)%nat -> starts_with pat (drop k (a ++ b)) = false) ->
  find pat (a ++ b) = (fun j => (List.length a + j)%nat) <$> find pat b.
Proof.
  induction a as [| c a IH]; intros b Hk; cbn [app].
  - now destruct (find pat b).
  - rewrite find_cons. pose proof (Hk 0%nat ltac:(simpl; lia)) as H0. cbn [drop app] in H0. rewrite H0.
    rewrite IH; [| intros k Hlt; apply (Hk (S k)); simpl; lia]. now destruct (find pat b).
Qed.

(** A window that fits the first part does not see the second. *)
Lemma starts_with_app pat : forall a b, (List.length pat <= List.length a)%nat -> starts_with pat (a ++ b) = starts_with pat a.
Proof.
  induction pat as [| x pat IH]; intros [| y a] b Hl; simpl in *; try lia; [reflexivity.. |].
  now rewrite IH by lia.
Qed.

Lemma starts_with_prefix pat : forall s, starts_with pat s = true -> s = pat ++ drop (List.length pat) s.
Proof.
  induction pat as [| x pat IH]; intros [| y s]; simpl; try easy. intros [E1 E2]%andb_prop.
  apply Z.eqb_eq in E1 as ->. f_equal. now apply IH.
Qed.

(** *** The program *)
Definition PYFUN := chars "pyfun".
Definition PYINITIAL := chars "pyinitial".

(** No occurrence of [pyfun] starts in a text that ends with [_pyinitial] and
    has none, whatever follows. *)
Lemma no_pyfun_before a b :
  find PYFUN (a ++ chars "_pyinitial") = None ->
  forall k, (k < List.length (a ++ chars "_pyinitial"))%nat -> starts_with PYFUN (drop k ((a ++ chars "_pyinitial") ++ b)) = false.
Proof.
  intros Hn k Hk. set (t := a ++ chars "_pyinitial") in *.
  assert (List.length t = List.length a + 10)%nat as Ht by (unfold t; now rewrite length_app).
  rewrite drop_app_le by lia. destruct (decide (k + 5 <= List.length t)%nat) as [Hin | Hout].
  - rewrite starts_with_app by (rewrite length_drop; simpl; lia). apply find_none; [exact Hn | lia].
  - assert (exists c r, drop k t = c :: r /\ c <> 112) as (c & r & -> & Hc).
    { unfold t. rewrite drop_app_ge by lia.
      assert (k - List.length a = 6 \/ k - List.length a = 7 \/ k - List.length a = 8 \/ k - List.length a = 9)%nat
        as [-> | [-> | [-> | ->]]] by lia; eexists _, _; (split; [reflexivity | discriminate]). }
    cbn [starts_with app PYFUN]. change PYFUN with (112 :: [121; 102; 117; 110]). cbn [starts_with].
    now rewrite (proj2 (Z.eqb_neq _ _)) by congruence.
Qed.

(** The body defines [pyinitial] before [pyfun], and [pyfun] occurs neither
    before the one nor in the function's name. *)
Definition body_ok (name pycall : bytes) (i j : nat) : Prop :=
  find PYINITIAL pycall = Some i /\ find PYFUN (drop (i + 9) pycall) = Some j /\
  find PYFUN (take i pycall ++ name ++ chars "_pyinitial") = None.

Lemma program_spec name pycall i j :
  body_ok name pycall i j ->
  program name pycall
  = Some (take i pycall ++ pyinitial_handler name ++ take j (drop (i + 9) pycall)
          ++ pyfun_handler name ++ drop (j + 5) (drop (i + 9) pycall)).
Proof.
  intros (Hi & Hj & Hn). unfold program, replace_first. fold PYINITIAL PYFUN. rewrite Hi. cbn [mbind option_bind].
  set (rest := drop (i + 9) pycall) in *. unfold pyinitial_handler.
  assert ((take i pycall ++ (name ++ chars "_pyinitial") ++ rest) = ((take i pycall ++ name) ++ chars "_pyinitial") ++ rest) as ->
    by now rewrite !app_assoc.
  set (pre := (take i pycall ++ name) ++ chars "_pyinitial").
  rewrite find_app_skip; [| apply no_pyfun_before; now rewrite <- app_assoc].
  rewrite Hj. cbn [fmap option_fmap option_map].
  rewrite take_app_add, <- Nat.add_assoc, drop_app_add. unfold pre. now rewrite <- !app_assoc.
Qed.

(** *** A body with both definitions is always renamed *)
Lemma starts_with_split pat s k : starts_with pat (drop k s) = true -> drop k s = pat ++ drop (k + List.length pat) s.
Proof. intros Hs. rewrite (starts_with_prefix _ _ Hs) at 1. now rewrite drop_drop. Qed.

Lemma find_occurs pat s k : (k <= List.length s)%nat -> starts_with pat (drop k s) = true -> exists i, find pat s = Some i.
Proof.
  intros Hk Hs. destruct (find pat s) as [i |] eqn:E; [eauto |]. now rewrite (find_none pat s E k Hk) in Hs.
Qed.

(** The two words have no letters in common positions: they do not overlap. *)
Lemma no_overlap s i j :
  starts_with PYINITIAL (drop i s) = true -> starts_with PYFUN (drop j s) = true -> (j + 5 <= i \/ i + 9 <= j)%nat.
Proof.
  intros Hi Hj. destruct (decide (j + 5 <= i)%nat); [now left |]. destruct (decide (i + 9 <= j)%nat); [now right | exfalso].
  pose proof (starts_with_split _ _ _ Hi) as Ei. pose proof (starts_with_split _ _ _ Hj) as Ej.
  destruct (decide (i <= j)%nat).
  - assert (exists d, (j = i + d)%nat /\ (d < 9)%nat) as (d & -> & Hd) by (exists (j - i)%nat; lia).
    rewrite <- drop_drop, Ei in Hj. do 9 (destruct d as [| d]; [discriminate Hj |]). lia.
  - assert (exists d, (i = j + d)%nat /\ (0 < d < 5)%nat) as (d & -> & Hd) by (exists (i - j)%nat; lia).
    rewrite <- drop_drop, Ej in Hi. destruct d as [| d]; [lia |]. do 4 (destruct d as [| d]; [discriminate Hi |]). lia.
Qed.

Lemma program_total name pycall :
  find PYINITIAL pycall <> None -> find PYFUN pycall <> None -> exists prog, program name pycall = Some prog.
Proof.
  intros Hi Hj. destruct (find PYINITIAL pycall) as [i |] eqn:Ei; [| easy]. destruct (find PYFUN pycall) as [j |] eqn:Ej; [| easy].
  destruct (find_some _ _ _ Ei) as (Si & _ & Li). destruct (find_some _ _ _ Ej) as (Sj & _ & Lj).
  unfold program, replace_first. fold PYINITIAL PYFUN. rewrite Ei. cbn [mbind option_bind].
  set (h := pyinitial_handler name). set (s' := take i pycall ++ h ++ drop (i + 9) pycall).
  assert (exists k, (k <= List.length s')%nat /\ starts_with PYFUN (drop k s') = true) as (k & Hk & Sk).
  { destruct (no_overlap _ _ _ Si Sj) as [Hbefore | Hafter].
    - exists j. unfold s'. rewrite !length_app, length_take. split; [lia |].
      rewrite drop_app_le by (rewrite length_take; lia).
      rewrite <- (take_drop i pycall) in Sj at 1. rewrite drop_app_le in Sj by (rewrite length_take; lia).
      rewrite starts_with_app in Sj |- * by (rewrite length_drop, length_take; simpl; lia). exact Sj.
    - exists (i + List.length h + (j - (i + 9)))%nat. unfold s'. rewrite !length_app, length_take, length_drop. split; [lia |].
      rewrite app_assoc, <- drop_drop, drop_app_length'; [| rewrite length_app, length_take; lia].
      rewrite drop_drop. now replace (i + 9 + (j - (i + 9)))%nat with j by lia. }
  destruct (find_occurs _ _ _ Hk Sk) as (i' & ->). eauto.
Qed.

(** The import once the program is built. *)
Definition run_import `{PyMain} (st : PyState) (handler prog : bytes) : Z * PyState :=
  if negb (PyImport_AddModule_ok st) then (OB_ERR_UNEXPECTED, st)
  else if negb (PyModule_GetDict_ok st) then (OB_ERR_UNEXPECTED, st)
  else
    let '(st, v) := PyRun_String st prog in
    if negb v then (OB_ERR_UNEXPECTED, st)
    else if negb (PyObject_GetAttr_callable st handler) then (OB_ERR_UNEXPECTED, st)
    else let '(st, called) := PyObject_CallNoArgs st handler in
         if negb called then (OB_ERR_UNEXPECTED, st) else (OB_SUCCESS, st).

(** A string without NUL is read whole, whatever lies behind it. *)
Lemma std_string_ok s bs rest :
  obstr_valid s -> obstr_bytes s = Some bs -> bs <> [] -> Forall (fun c => c <> 0) bs -> data_length_ s = blen bs ->
  std_string s rest = Some bs.
Proof.
  intros Hv Hb Hne Hn Hl. unfold std_string, obstr_bytes in *. destruct (ptr_ s) as [| b |] eqn:Ep; [now injection Hb as <- | | discriminate].
  destruct (Z.leb_spec (data_length_ s) (length b)); [| discriminate]. injection Hb as <-. f_equal.
  rewrite <- (take_drop (Z.to_nat (data_length_ s)) b) at 1. rewrite <- app_assoc.
  generalize (drop (Z.to_nat (data_length_ s)) b ++ rest) as y. intros y. set (x := take _ b) in *. assert (List.length x = Z.to_nat (data_length_ s)) as Hx
    by (unfold x; rewrite length_take; unfold length in *; lia). rewrite <- Hx. clearbody x. clear - Hn.
  induction Hn as [| c x Hc Hx IH]; [reflexivity |]. cbn [app c_str List.length]. rewrite (proj2 (Z.eqb_neq _ _)) by exact Hc.
  cbn [take]. now rewrite IH.
Qed.

(** *** The type check *)

(** The SQL types a declared type stands for: the character and text types for
    [STRING], the signed integers for [INTEGER], the double for [REAL]; nothing
    may be passed for [DECIMAL] or for no type at all. *)
Definition sql_types (declared : PyUdfRetType) : list ObObjType :=
  match declared with
  | STRING => [ObCharType; ObVarcharType; ObTinyTextType; ObTextType; ObMediumTextType; ObLongTextType]
  | INTEGER => [ObTinyIntType; ObSmallIntType; ObMediumIntType; ObInt32Type; ObIntType]
  | REAL => [ObDoubleType]
  | _ => []
  end.
(** Every parameter has an expression whose type is one of the declared type. *)
Definition params_match (types : list PyUdfRetType) (params : list (option ObObjType)) (idx : nat) : Prop :=
  forall k p, params !! k = Some p ->
  exists t declared, p = Some t /\ types !! (idx + k)%nat = Some declared /\ In t (sql_types declared).

(** The switch of the code is that relation. *)
Lemma param_type_spec t declared : ObExprPythonUdf.param_type t = Some declared <-> In t (sql_types declared).
Proof.
  split.
  - destruct t; try discriminate; intros [= <-]; simpl; auto 10.
  - destruct declared; simpl; intuition (subst; reflexivity).
Qed.

Lemma check_params_spec types params : forall idx,
  (idx + List.length params <= List.length types)%nat ->
  (params_match types params idx /\ ObExprPythonUdf.check_params types params idx = Some OB_SUCCESS) \/
  (~ params_match types params idx /\ ObExprPythonUdf.check_params types params idx = Some OB_ERR_UNEXPECTED).
Proof.
  induction params as [| p params IH]; intros idx Hl; cbn [ObExprPythonUdf.check_params List.length] in *.
  - left. split; [| reflexivity]. intros k p Hk. discriminate.
  - destruct p as [t |]; [| right; split; [intros Hm; destruct (Hm 0%nat None eq_refl) as (? & ? & ? & _); discriminate | reflexivity]].
    destruct (ObExprPythonUdf.param_type t) as [ty |] eqn:Et;
      [| right; split; [intros Hm; destruct (Hm 0%nat _ eq_refl) as (? & ? & [= <-] & _ & Et'%param_type_spec); congruence | reflexivity]].
    destruct (lookup_lt_is_Some_2 types idx) as (declared & Ed); [lia |]. rewrite Ed. cbn [mbind option_bind].
    destruct (decide (declared <> ty)) as [Hne | Heq].
    + right. split; [| reflexivity]. intros Hm. destruct (Hm 0%nat _ eq_refl) as (? & ? & [= <-] & El & Et'%param_type_spec).
      rewrite Nat.add_0_r, Ed in El. congruence.
    + apply dec_stable in Heq as ->. destruct (IH (S idx) ltac:(lia)) as [[Hm ->] | [Hm ->]].
      * left. split; [| reflexivity]. intros [| k] p Hk; [injection Hk as <-; rewrite Nat.add_0_r; apply param_type_spec in Et; eauto |].
        replace (idx + S k)%nat with (S idx + k)%nat by lia. now apply Hm.
      * right. split; [| reflexivity]. intros Hm'. apply Hm. intros k p Hk. replace (S idx + k)%nat with (idx + S k)%nat by lia.
        now apply Hm'.
Qed.

(** What a call must satisfy before any Python runs. *)
Definition call_ok (m : ObPythonUDFMeta.t) (params : list (option ObObjType)) : Prop :=
  ObPythonUDFMeta.ret_ m <> UDF_UNINITIAL /\ ObExprPythonUdf.str_null (ObPythonUDFMeta.pycall_ m) = false /\
  params_match (ObSEArray.items_ (ObPythonUDFMeta.udf_attributes_types_ m)) params 0.

(** C34. A Python function is called with the types it declares.  For a function
    not yet initialized and a call with no more parameters than the declaration, [init_udf] runs the import,
    and marks the function initialized when that succeeds, exactly when the
    function has a return type and a body and every parameter is an expression
    whose type is one of the SQL types of the declared one ([sql_types]); otherwise it returns
    [OB_ERR_UNEXPECTED] and neither the metadata nor the interpreter changes. *)
Theorem init_udf_type_checks `{PyMain} gil_held st m rest_name rest_pycall params :
  ObPythonUDFMeta.init_ m = false ->
  (List.length params <= List.length (ObSEArray.items_ (ObPythonUDFMeta.udf_attributes_types_ m)))%nat ->
  (call_ok m params ->
   ObExprPythonUdf.init_udf gil_held st m rest_name rest_pycall params =
   (r ← ObExprPythonUdf.import_udf gil_held st m rest_name rest_pycall;
    Some (match r with
          | Throws => Throws
          | Returns (ret, st') => Returns (ret, if OB_SUCC ret then ObExprPythonUdf.set_init m else m, st')
          end))) /\
  (~ call_ok m params ->
   ObExprPythonUdf.init_udf gil_held st m rest_name rest_pycall params = Some (Returns (OB_ERR_UNEXPECTED, m, st))).
Proof.
  intros Hi Hl. unfold ObExprPythonUdf.init_udf, call_ok. rewrite Hi.
  pose proof (check_params_spec _ params 0 Hl) as Hp.
  destruct (decide (ObPythonUDFMeta.ret_ m = UDF_UNINITIAL)) as [Er | Er]; [split; [now intros [? _] | reflexivity] |].
  destruct (ObExprPythonUdf.str_null (ObPythonUDFMeta.pycall_ m)) eqn:En; [split; [now intros (_ & ? & _) | reflexivity] |].
  destruct Hp as [[Hm ->] | [Hm ->]]; step_ok.
  - split; [intros _ | now intros []].
    destruct (ObExprPythonUdf.import_udf _ _ _ _ _) as [[| [ret st']] |]; cbn; [reflexivity | | reflexivity].
    unfold OB_FAIL. now destruct (OB_SUCC ret).
  - split; [now intros (_ & _ & ?) | reflexivity].
Qed.

(** C35. A body that passed the check at creation is imported without an
    exception.  Let the body hold [pyinitial] and [pyfun], as [check_pycall]
    requires, and let neither string hold a NUL.  Whatever lies in memory behind
    the two strings, [import_udf] builds a program, runs it in the main module,
    and calls the function's own initializer [<name>_pyinitial]; and when
    [pyinitial] comes first and [pyfun] occurs neither before it nor in the
    name, the program is the body with the first [pyinitial] renamed to
    [<name>_pyinitial] and the first [pyfun] after it to [<name>_pyfun]. *)
Theorem import_renames_handlers `{PyMain} st m name pycall rest_name rest_pycall :
  obstr_valid (ObPythonUDFMeta.name_ m) -> obstr_bytes (ObPythonUDFMeta.name_ m) = Some name ->
  obstr_valid (ObPythonUDFMeta.pycall_ m) -> obstr_bytes (ObPythonUDFMeta.pycall_ m) = Some pycall ->
  name <> [] -> Forall (fun c => c <> 0) name -> Forall (fun c => c <> 0) pycall ->
  find PYINITIAL pycall <> None -> find PYFUN pycall <> None ->
  exists prog, program name pycall = Some prog /\
    ObExprPythonUdf.import_udf false st m rest_name rest_pycall = Some (Returns (run_import st (pyinitial_handler name) prog)) /\
    forall i j, body_ok name pycall i j ->
      prog = take i pycall ++ name ++ chars "_pyinitial" ++ take j (drop (i + 9) pycall)
             ++ name ++ chars "_pyfun" ++ drop (j + 5) (drop (i + 9) pycall).
Proof.
  intros Hnv Hnb Hpv Hpb Hne Hnn Hpn Hi Hj. destruct (program_total name pycall Hi Hj) as (prog & Ep). exists prog. split; [exact Ep |].
  assert (pycall <> []) as Hpe by (intros ->; now apply Hi).
  destruct (obstr_bytes_valid _ Hnv) as (n' & En & Hnl & _). rewrite Hnb in En. injection En as <-.
  destruct (obstr_bytes_valid _ Hpv) as (p' & Epb & Hpl & _). rewrite Hpb in Epb. injection Epb as <-.
  split.
  - unfold ObExprPythonUdf.import_udf. 
    rewrite (std_string_ok _ name _ Hnv Hnb Hne Hnn (eq_sym Hnl)), (std_string_ok _ pycall _ Hpv Hpb Hpe Hpn (eq_sym Hpl)). cbn [mbind option_bind].
    rewrite Ep. reflexivity.
  - intros i j Hb. pose proof (program_spec name pycall i j Hb) as E. rewrite Ep in E. injection E as ->.
    unfold pyinitial_handler, pyfun_handler. now rewrite <- !app_assoc.
Qed.

(** [check_pycall] is that condition. *)
Lemma check_pycall_words u : ObPythonUDF.check_pycall u = OB_SUCCESS ->
  find PYINITIAL (c_str (ObPythonUDF.pycall_ u)) <> None /\ find PYFUN (c_str (ObPythonUDF.pycall_ u)) <> None.
Proof. unfold ObPythonUDF.check_pycall. fold PYINITIAL PYFUN. repeat case_bool_decide; try discriminate. auto. Qed.

(** A function whose name holds [pyfun] is renamed in its own name. *)
Example name_with_pyfun :
  program (chars "pyfun2") (chars "def pyinitial(): pass; def pyfun(a): return a")
  = Some (chars "def pyfun2_pyfun2_pyinitial(): pass; def pyfun(a): return a").
Proof. vm_compute. reflexivity. Qed.

(** *** Witnesses *)
Section Witnesses.
(** An interpreter whose state is the list of programs it ran. *)
#[local] Instance demo_main : PyMain :=
  mkPyMain (list bytes) (fun _ => true) (fun _ => true) (fun st p => (p :: st, true)) (fun _ _ => true) (fun st h => (h :: st, true)).

Definition st0 : @PyState demo_main := ([] : list bytes).

Definition expr_meta : ObPythonUDFMeta.t :=
  ObPythonUDFMeta.mk (obstr_of (chars "f")) INTEGER (obstr_of (chars "def pyinitial; def pyfun")) (ObSEArray.mk [] 16 OB_SUCCESS)
    (ObSEArray.mk [INTEGER; STRING] 16 OB_SUCCESS) false 256 false.
Definition expr_params : list (option ObObjType) := [Some ObIntType; Some ObVarcharType].

Lemma init_udf_type_checks_witness :
  (call_ok expr_meta expr_params ->
   ObExprPythonUdf.init_udf false st0 expr_meta [] [] expr_params =
   (r ← ObExprPythonUdf.import_udf false st0 expr_meta [] [];
    Some (match r with
          | Throws => Throws
          | Returns (ret, st') => Returns (ret, if OB_SUCC ret then ObExprPythonUdf.set_init expr_meta else expr_meta, st')
          end))) /\
  (~ call_ok expr_meta expr_params ->
   ObExprPythonUdf.init_udf false st0 expr_meta [] [] expr_params = Some (Returns (OB_ERR_UNEXPECTED, expr_meta, st0))).
Proof. apply (init_udf_type_checks false st0 expr_meta [] [] expr_params); [reflexivity | simpl; lia]. Defined.

(** The call of the witness passes the check, and one with swapped types does not. *)
Example expr_call_ok :
  ObExprPythonUdf.init_udf false st0 expr_meta [] [] expr_params
  = Some (Returns (OB_SUCCESS, ObExprPythonUdf.set_init expr_meta, [chars "f_pyinitial"; chars "def f_pyinitial; def f_pyfun"])).
Proof. vm_compute. reflexivity. Qed.
Example expr_call_rejected :
  ObExprPythonUdf.init_udf false st0 expr_meta [] [] (reverse expr_params)
  = Some (Returns (OB_ERR_UNEXPECTED, expr_meta, st0)).
Proof. vm_compute. reflexivity. Qed.

Lemma expr_strings s : length (chars s) < 2 ^ 31 -> obstr_valid (obstr_of (chars s)) /\ obstr_bytes (obstr_of (chars s)) = Some (chars s).
Proof.
  intros Hl. apply obstr_of_valid; [exact Hl |]. apply Forall_map, Forall_forall. intros a _.
  pose proof (Ascii.nat_ascii_bounded a). simpl. lia.
Qed.

Lemma import_renames_handlers_witness :
  exists prog, program (chars "f") (chars "def pyinitial; def pyfun") = Some prog /\
    ObExprPythonUdf.import_udf false st0 expr_meta [7] [] = Some (Returns (run_import st0 (pyinitial_handler (chars "f")) prog)) /\
    forall i j, body_ok (chars "f") (chars "def pyinitial; def pyfun") i j ->
      prog = take i (chars "def pyinitial; def pyfun") ++ chars "f" ++ chars "_pyinitial"
             ++ take j (drop (i + 9) (chars "def pyinitial; def pyfun"))
             ++ chars "f" ++ chars "_pyfun" ++ drop (j + 5) (drop (i + 9) (chars "def pyinitial; def pyfun")).
Proof.
  apply (import_renames_handlers st0 expr_meta (chars "f") (chars "def pyinitial; def pyfun") [7] []);
    try (apply expr_strings; reflexivity); try discriminate; repeat constructor; discriminate.
Defined.
End Witnesses.
