(* ===== verification/IArray.v ===== *)
(** Arrays behind the interface [ObIArray]
    ([deps/oblib/src/lib/container/ob_iarray.h]), which the resolver and the
    optimizer work on, and the helpers over it ([ob_iarray.h],
    [lib/utility/utility.h], [sql/optimizer/ob_optimizer_util.h]).

    [ObIArray] lists the operations, [ObIArrayLaws] what a client relies on, and
    [ObSEArray] of [SEArray] with any local size is an instance of both. *)
From S2P Require Import Prelude FixedArray SEArray.

Class ObIArray (A T : Type) := {
  items : A -> list T;
  ia_new : A;
  ia_reuse : A -> A;
  (** [None] is a write outside the array's memory. *)
  ia_push_back : A -> T -> option (Z * A);
  ia_remove : A -> Z -> Z * A;
  ia_assign : A -> list T -> option (Z * A)
}.
(** The number of elements, [count()]. *)
Definition ia_count `{ObIArray A T} (a : A) : Z := Z.of_nat (length (items a)).

Class ObIArrayLaws `{Allocator} (A T : Type) `{ObIArray A T} := {
  ia_wf : A -> Prop;
  ia_new_law : ia_wf ia_new /\ items ia_new = [];
  ia_reuse_law a : ia_wf a -> ia_wf (ia_reuse a) /\ items (ia_reuse a) = [];
  ia_push_law a x : ia_wf a -> ia_count a < 2 ^ 41 ->
    exists ret a', ia_push_back a x = Some (ret, a') /\ ia_wf a' /\
      (ret = OB_SUCCESS /\ items a' = items a ++ [x] \/
       ret = OB_ALLOCATE_MEMORY_FAILED /\ items a' = items a /\ exists k, alloc_ok k = false);
  ia_remove_law a i : ia_wf a -> 0 <= i < ia_count a ->
    exists a', ia_remove a i = (OB_SUCCESS, a') /\ ia_wf a' /\ items a' = delete (Z.to_nat i) (items a);
  ia_assign_law a l : ia_wf a -> Z.of_nat (length l) < 2 ^ 41 ->
    exists ret a', ia_assign a l = Some (ret, a') /\ ia_wf a' /\
      (ret = OB_SUCCESS /\ items a' = l \/
       ret = OB_ALLOCATE_MEMORY_FAILED /\ items a' = [] /\ exists k, alloc_ok k = false)
}.

(** ** [ObSEArray<T, N>] *)
Class SizeOf (T : Type) := { size_of : Z; default_of : T }.
Class SizeOfOk (T : Type) `{SizeOf T} := size_ok : 0 < size_of < 2 ^ 20.
Class LocalSize (N : Z) := local_size_ok : 0 < N < 2 ^ 20.
Definition se_params (T : Type) `{SizeOf T} (N : Z) : ObSEArray.SEParams T :=
  {| ObSEArray.sizeof_T := size_of; ObSEArray.LOCAL_ARRAY_SIZE := N; ObSEArray.default_T := default_of |}.
Record SE (T : Type) (N : Z) := mkSE { se : ObSEArray.t T }.
Arguments mkSE {T N}. Arguments se {T N}.

Section Instances.
Context `{Allocator, SizeOf T} {N : Z}.
Abbreviation lift := (fun x : Z * ObSEArray.t T => (x.1, mkSE (N := N) x.2)).
#[export] Instance se_iarray : ObIArray (SE T N) T := {|
  items a := ObSEArray.items_ (se a);
  ia_new := mkSE (ObSEArray.empty (H0 := se_params T N));
  ia_reuse a := mkSE (ObSEArray.reuse (se a));
  ia_push_back a x := lift <$> ObSEArray.push_back (H0 := se_params T N) (se a) x;
  ia_remove a i := lift (ObSEArray.remove (se a) i);
  ia_assign a l := lift <$> ObSEArray.assign (H0 := se_params T N) (se a) (ObSEArray.mk l 0 0)
|}.
End Instances.

Section SELaws.
Context `{Allocator, SizeOfOk T} {N : Z} `{LocalSize N}.
#[local] Instance se_params_laws : @ObSEArray.SELaws T (se_params T N).
Proof. split; cbn; [exact size_ok | exact local_size_ok]. Qed.

#[export] Instance se_iarray_laws : ObIArrayLaws (SE T N) T.
Proof.
  refine {| ia_wf := fun a : SE T N => ObSEArray.wf (H0 := se_params T N) (se a) |}.
  - split; [exact (ObSEArray.se_wf_empty (H0 := se_params T N)) | reflexivity].
  - intros a [Hl Hw]. split; [| reflexivity]. unfold ObSEArray.wf, ObSEArray.count in *. cbn in *. lia.
  - intros a x Hw Hc. destruct (ObSEArray.se_push_back_spec (H0 := se_params T N) (se a) x Hw Hc)
      as (ret & a' & E & Hw' & [(-> & Hi & _) | (-> & -> & _ & Hk)]); cbn; rewrite E; cbn; eexists _, _; eauto 10.
  - intros a i Hw Hi. destruct (ObSEArray.remove_spec (H0 := se_params T N) (se a) i Hw) as (ret & a' & E & Hw' & [Hr | (_ & [=] & _)] & Hd).
    cbn in E, Hr. rewrite decide_True in Hr by exact Hi. subst ret. injection E as E. exists (mkSE a').
    cbn. rewrite E. split_and!; [reflexivity | exact Hw' |].
    rewrite Hd. cbn. now rewrite (proj2 (Z.ltb_ge _ _)) by lia.
  - intros a l Hw Hl. destruct (ObSEArray.assign_spec (H0 := se_params T N) (se a) (ObSEArray.mk l 0 0) Hw Hl)
      as (ret & a' & E & Hw' & [(-> & Hi) | (-> & Hi & Hk)]); cbn; rewrite E; cbn; eexists _, _; eauto 10.
Defined.
End SELaws.

(** ** The helpers *)
Section Helpers.
Context `{ObIArray A T, EqDecision T}.

(** [is_contain(arr, item)]. *)
Definition is_contain (a : A) (item : T) : bool := existsb (fun x => bool_decide (x = item)) (items a).
(** [has_exist_in_array(array, var)]. *)
Definition has_exist_in_array (a : A) (var : T) : bool := existsb (fun x => bool_decide (var = x)) (items a).
(** [ObOptimizerUtil::find_item(items, item)]. *)
Definition find_item (a : A) (item : T) : bool := existsb (fun x => bool_decide (x = item)) (items a).

(** [append(dst, src)]. *)
Fixpoint append (dst : A) (src : list T) : option (Z * A) :=
  match src with
  | [] => Some (OB_SUCCESS, dst)
  | x :: src' =>
      '(ret, dst) ← ia_push_back dst x;
      if OB_SUCC ret then append dst src' else Some (ret, dst)
  end.
Definition add_var_to_array_no_dup (a : A) (var : T) : option (Z * A) :=
  if has_exist_in_array a var then Some (OB_SUCCESS, a) else ia_push_back a var.
Fixpoint append_array_no_dup (dst : A) (src : list T) : option (Z * A) :=
  match src with
  | [] => Some (OB_SUCCESS, dst)
  | x :: src' =>
      '(ret, dst) ← (if has_exist_in_array dst x then Some (OB_SUCCESS, dst) else ia_push_back dst x);
      if OB_SUCC ret then append_array_no_dup dst src' else Some (ret, dst)
  end.
End Helpers.

(** ** What the helpers do, on lists *)
Section Lists.
Context `{EqDecision T}.
Definition adjoin (l : list T) (x : T) : list T := if bool_decide (x ∈ l) then l else l ++ [x].
Definition adjoin_all (l xs : list T) : list T := fold_left adjoin xs l.

Lemma elem_of_adjoin l x y : y ∈ adjoin l x <-> y ∈ l \/ y = x.
Proof.
  unfold adjoin. case_bool_decide as Hx; [set_solver |]. rewrite elem_of_app, list_elem_of_singleton. reflexivity.
Qed.
Lemma elem_of_adjoin_all xs : forall l y, y ∈ adjoin_all l xs <-> y ∈ l \/ y ∈ xs.
Proof.
  induction xs as [| x xs IH]; intros l y; cbn; [set_solver |]. unfold adjoin_all in IH. rewrite IH, elem_of_adjoin. set_solver.
Qed.
Lemma NoDup_adjoin l x : NoDup l -> NoDup (adjoin l x).
Proof.
  intros Hl. unfold adjoin. case_bool_decide; [exact Hl |]. apply NoDup_app. split_and!; [exact Hl | set_solver | apply NoDup_singleton].
Qed.
Lemma NoDup_adjoin_all xs : forall l, NoDup l -> NoDup (adjoin_all l xs).
Proof. induction xs as [| x xs IH]; intros l Hl; cbn; [exact Hl |]. now apply IH, NoDup_adjoin. Qed.
Lemma adjoin_length l x : (length (adjoin l x) <= length l + 1)%nat.
Proof. unfold adjoin. case_bool_decide; rewrite ?length_app; simpl; lia. Qed.
Lemma adjoin_prefix l x : l `prefix_of` adjoin l x.
Proof. unfold adjoin. case_bool_decide; [reflexivity | now exists [x]]. Qed.
Lemma adjoin_all_prefix xs : forall l, l `prefix_of` adjoin_all l xs.
Proof. induction xs as [| x xs IH]; intros l; cbn; [reflexivity |]. etransitivity; [apply adjoin_prefix | apply IH]. Qed.
Lemma existsb_elem (l : list T) x : existsb (fun y => bool_decide (y = x)) l = bool_decide (x ∈ l).
Proof.
  apply eq_bool_prop_intro. rewrite bool_decide_spec, Is_true_true, existsb_exists. split.
  - intros (y & Hy & E). apply bool_decide_eq_true in E as ->. now apply list_elem_of_In.
  - intros Hx. exists x. split; [now apply list_elem_of_In | now apply bool_decide_eq_true].
Qed.
End Lists.

Section HelperLaws.
Context `{ObIArrayLaws A T, EqDecision T}.
Implicit Types (a : A) (xs : list T).

(** A call that adds to an array: it returns, the array stays well formed, and
    it has the elements [l] unless memory ran out. *)
Definition adds (a : A) (l : list T) (r : option (Z * A)) : Prop :=
  exists ret a', r = Some (ret, a') /\ ia_wf a' /\
    (ret = OB_SUCCESS /\ items a' = l \/
     ret = OB_ALLOCATE_MEMORY_FAILED /\ (items a `prefix_of` items a' /\ items a' `prefix_of` l) /\ exists k, alloc_ok k = false).

Lemma is_contain_elem a x : is_contain a x = bool_decide (x ∈ items a).
Proof. apply existsb_elem. Qed.
Lemma find_item_elem a x : find_item a x = bool_decide (x ∈ items a).
Proof. apply existsb_elem. Qed.
Lemma has_exist_elem a x : has_exist_in_array a x = bool_decide (x ∈ items a).
Proof.
  unfold has_exist_in_array. rewrite <- existsb_elem. induction (items a) as [| y l IH]; [reflexivity |]. cbn. rewrite IH.
  f_equal. now apply bool_decide_ext.
Qed.

Lemma push_adds a x : ia_wf a -> ia_count a < 2 ^ 41 -> adds a (items a ++ [x]) (ia_push_back a x).
Proof.
  intros Hw Hc. destruct (ia_push_law a x Hw Hc) as (ret & a' & E & Hw' & [[-> Hi] | (-> & Hi & Hk)]);
    eexists _, _; split_and!; eauto. right. rewrite Hi. split_and!; auto. now exists [x].
Qed.
Lemma add_var_adds a x : ia_wf a -> ia_count a < 2 ^ 41 -> adds a (adjoin (items a) x) (add_var_to_array_no_dup a x).
Proof.
  intros Hw Hc. unfold add_var_to_array_no_dup, adjoin. rewrite has_exist_elem. case_bool_decide; [| now apply push_adds].
  eexists _, _. split_and!; eauto.
Qed.

Lemma append_adds xs : forall a, ia_wf a -> ia_count a + Z.of_nat (length xs) < 2 ^ 41 -> adds a (items a ++ xs) (append a xs).
Proof.
  induction xs as [| x xs IH]; intros a Hw Hc; cbn [append].
  - eexists _, _. rewrite app_nil_r. split_and!; eauto.
  - cbn [length] in Hc. destruct (ia_push_law a x Hw ltac:(lia)) as (ret & a1 & -> & Hw1 & [[-> Hi] | (-> & Hi & Hk)]); cbn.
    + destruct (IH a1 Hw1) as (ret & a2 & -> & Hw2 & Hc2).
      { unfold ia_count in *. rewrite Hi, length_app. cbn [length]. lia. }
      rewrite Hi, <- app_assoc in Hc2. exists ret, a2. split_and!; auto.
      destruct Hc2 as [? | (? & [Hp ?] & ?)]; [now left |]. right. split_and!; auto. etransitivity; [| exact Hp]. now exists [x].
    + eexists _, _. split_and!; eauto. right. rewrite Hi. split_and!; auto. now exists (x :: xs).
Qed.
Lemma append_no_dup_adds xs : forall a, ia_wf a -> ia_count a + Z.of_nat (length xs) < 2 ^ 41 ->
  adds a (adjoin_all (items a) xs) (append_array_no_dup a xs).
Proof.
  induction xs as [| x xs IH]; intros a Hw Hc; cbn [append_array_no_dup adjoin_all fold_left].
  - eexists _, _. split_and!; eauto.
  - cbn [length] in Hc. destruct (add_var_adds a x Hw ltac:(lia)) as (ret & a1 & E1 & Hw1 & Hc1).
    unfold add_var_to_array_no_dup in E1. rewrite E1. cbn [mbind option_bind]. destruct Hc1 as [[-> Hi] | (-> & [Hp Hq] & Hk)]; cbn.
    + destruct (IH a1 Hw1) as (ret & a2 & -> & Hw2 & Hc2).
      { unfold ia_count in *. rewrite Hi. pose proof (adjoin_length (items a) x). lia. }
      rewrite Hi in Hc2. exists ret, a2. split_and!; auto. destruct Hc2 as [? | (? & [Hp ?] & ?)]; [now left |].
      right. split_and!; auto. etransitivity; [apply adjoin_prefix | exact Hp].
    + eexists _, _. split_and!; eauto. right. split_and!; auto. etransitivity; [exact Hq | apply adjoin_all_prefix].
Qed.
End HelperLaws.
