(* ===== verification/UdfRefresh.v ===== *)
(** The refresh of the catalogue of Python functions:
    [ObSchemaServiceSQLImpl::fetch_python_udfs]
    ([src/share/schema/ob_schema_service_sql_impl.cpp]) reads schemas from the table
    with [retrieve_python_udf_schema] ([ob_schema_retrieve_utils.ipp]), and
    [ObServerSchemaService::apply_python_udf_schema_to_cache]
    ([ob_server_schema_service.cpp]) brings a catalogue up to date with them.

    [retrieve_python_udf_schema] keeps the name of the row before as a pointer into
    the object it reads the next row into.  The strings of that object are
    therefore addresses in its memory, which is an arena of its own, as it is in a
    thread that serves no request; that the object of the arena itself cannot be
    allocated is not modelled. *)
From S2P Require Import Prelude Arena FixedArray SEArray HashArray HashMap SortedVector.
From S2P Require Import UdfSchema.
From S2P Require Import Serialization UdfObject SqlText SqlClient UdfDdl UdfMgr IArray.
Import ObString.

(** ** [ObSimplePythonUdfSchema] in memory *)
Module SchemaObject.
(** A string: its address, 0 when null, and its length. *)
Record MStr := mkStr { ptr_ : Z; data_length_ : Z }.
Definition null_str : MStr := mkStr 0 0.

Record t := mk
  { tenant_id_ : Z; udf_id_ : Z; udf_name_ : MStr; arg_num_ : Z; arg_names_ : MStr; arg_types_ : MStr;
    ret_ : PyUdfRetType; pycall_ : MStr; schema_version_ : Z; error_ret_ : Z;
    allocator_ : ObArenaAllocator.t; bytes_ : gmap Z Z }.

Definition new : t :=
  mk OB_INVALID_ID OB_INVALID_ID null_str 0 null_str null_str UDF_UNINITIAL null_str (-1) OB_SUCCESS ObArenaAllocator.new ∅.

Definition set_udf_name (o : t) (s : MStr) : t :=
  mk (tenant_id_ o) (udf_id_ o) s (arg_num_ o) (arg_names_ o) (arg_types_ o) (ret_ o) (pycall_ o) (schema_version_ o)
     (error_ret_ o) (allocator_ o) (bytes_ o).
Definition set_arg_names (o : t) (s : MStr) : t :=
  mk (tenant_id_ o) (udf_id_ o) (udf_name_ o) (arg_num_ o) s (arg_types_ o) (ret_ o) (pycall_ o) (schema_version_ o)
     (error_ret_ o) (allocator_ o) (bytes_ o).
Definition set_arg_types (o : t) (s : MStr) : t :=
  mk (tenant_id_ o) (udf_id_ o) (udf_name_ o) (arg_num_ o) (arg_names_ o) s (ret_ o) (pycall_ o) (schema_version_ o)
     (error_ret_ o) (allocator_ o) (bytes_ o).
Definition set_pycall (o : t) (s : MStr) : t :=
  mk (tenant_id_ o) (udf_id_ o) (udf_name_ o) (arg_num_ o) (arg_names_ o) (arg_types_ o) (ret_ o) s (schema_version_ o)
     (error_ret_ o) (allocator_ o) (bytes_ o).
Definition set_ints (o : t) (tenant udf arg_num : Z) (r : PyUdfRetType) (version : Z) : t :=
  mk tenant udf (udf_name_ o) arg_num (arg_names_ o) (arg_types_ o) r (pycall_ o) version
     (error_ret_ o) (allocator_ o) (bytes_ o).
Definition set_memory (o : t) (a : ObArenaAllocator.t) (b : gmap Z Z) : t :=
  mk (tenant_id_ o) (udf_id_ o) (udf_name_ o) (arg_num_ o) (arg_names_ o) (arg_types_ o) (ret_ o) (pycall_ o)
     (schema_version_ o) (error_ret_ o) a b.

(** [reset], with [ObSchema::reset]: the arena is reused; the bytes stay until
    they are written again. *)
Definition reset (o : t) : option t :=
  a ← ObArenaAllocator.reuse (allocator_ o);
  Some (mk OB_INVALID_ID (udf_id_ o) null_str (arg_num_ o) null_str null_str UDF_UNINITIAL null_str (schema_version_ o)
           OB_SUCCESS a (bytes_ o)).

Fixpoint write (b : gmap Z Z) (p : Z) (s : bytes) : gmap Z Z :=
  match s with [] => b | x :: s' => write (<[p := x]> b) (p + 1) s' end.
Fixpoint read (b : gmap Z Z) (p : Z) (n : nat) : option bytes :=
  match n with
  | O => Some []
  | S n' => x ← b !! p; s ← read b (p + 1) n'; Some (x :: s)
  end.
Definition value (o : t) (s : MStr) : option bytes := read (bytes_ o) (ptr_ s) (Z.to_nat (data_length_ s)).

(** [ObSchema::deep_copy_str] into the member that [set] assigns; [dest] is what
    it holds. *)
Definition deep_copy_str `{PageAllocator} (o : t) (src : bytes) (dest : MStr) (set : t -> MStr -> t) : option (Z * t) :=
  if error_ret_ o =? OB_SUCCESS then
    if 0 <? length src then
      '(buf, a) ← ObArenaAllocator.alloc (allocator_ o) (length src + 1);
      match buf with
      | None => Some (OB_ALLOCATE_MEMORY_FAILED, set_memory o a (bytes_ o))
      | Some p => Some (OB_SUCCESS, set (set_memory o a (write (bytes_ o) p (src ++ [0]))) (mkStr p (length src)))
      end
    else Some (OB_SUCCESS, set o null_str)
  else Some (error_ret_ o, o).

(** [ObString::compare] of two strings in the memory of the object. *)
Definition compare (o : t) (a b : MStr) : option Z :=
  if ptr_ a =? ptr_ b then Some (data_length_ a - data_length_ b)
  else if (0 =? data_length_ a) && (0 =? data_length_ b) then Some 0
  else
    let n := Z.to_nat (Z.min (data_length_ a) (data_length_ b)) in
    x ← read (bytes_ o) (ptr_ a) n; y ← read (bytes_ o) (ptr_ b) n;
    let cmp := ObString.compare x y in
    Some (if cmp =? 0 then data_length_ a - data_length_ b else cmp).

(** What [operator=] and [push_back] read of the object. *)
Definition contents (o : t) : option ObSimplePythonUdfSchema.t :=
  name ← value o (udf_name_ o); names ← value o (arg_names_ o); types ← value o (arg_types_ o); code ← value o (pycall_ o);
  Some (ObSimplePythonUdfSchema.mk (tenant_id_ o) (udf_id_ o) name (arg_num_ o) names types (ret_ o) code
          (schema_version_ o) (error_ret_ o)).
End SchemaObject.

Section Retrieve.
Context `{SqlClient, Allocator, PageAllocator}.
Abbreviation obj := SchemaObject.t.

(** The extraction macros, on a code and the object. *)
Definition extract_string (r : Row) (col : bytes) (dest : obj -> SchemaObject.MStr) (set : obj -> SchemaObject.MStr -> obj)
    (st : option (Z * obj)) : option (Z * obj) :=
  '(ret, o) ← st;
  if OB_SUCC ret then
    let '(ret, v) := get_varchar r col in
    if OB_FAIL ret then Some (ret, o) else SchemaObject.deep_copy_str o v (dest o) set
  else Some (ret, o).
Definition extract_int (r : Row) (col : bytes) (set : obj -> Z -> option obj) (st : option (Z * obj)) : option (Z * obj) :=
  '(ret, o) ← st;
  if OB_SUCC ret then
    let '(ret, v) := get_int r col in
    if OB_FAIL ret then Some (ret, o) else o ← set o v; Some (ret, o)
  else Some (ret, o).

(** [fill_python_udf_schema] for the simple schema. *)
Definition fill_simple_schema (tenant_id : Z) (r : Row) (o : obj) : option (Z * obj) :=
  o ← SchemaObject.reset o;
  let ints o := SchemaObject.set_ints o in
  let st := Some (OB_SUCCESS, ints o tenant_id (SchemaObject.udf_id_ o) (SchemaObject.arg_num_ o) (SchemaObject.ret_ o) (SchemaObject.schema_version_ o)) in
  let st := extract_string r (chars "name") SchemaObject.udf_name_ SchemaObject.set_udf_name st in
  let st := extract_int r (chars "udf_id") (fun o v => Some (ints o (SchemaObject.tenant_id_ o) (uwrap64 v) (SchemaObject.arg_num_ o) (SchemaObject.ret_ o) (SchemaObject.schema_version_ o))) st in
  let st := extract_int r (chars "arg_num") (fun o v => Some (ints o (SchemaObject.tenant_id_ o) (SchemaObject.udf_id_ o) (to_int32 v) (SchemaObject.ret_ o) (SchemaObject.schema_version_ o))) st in
  let st := extract_string r (chars "arg_names") SchemaObject.arg_names_ SchemaObject.set_arg_names st in
  let st := extract_string r (chars "arg_types") SchemaObject.arg_types_ SchemaObject.set_arg_types st in
  let st := extract_int r (chars "ret") (fun o v => e ← enum_of (to_int32 v); Some (ints o (SchemaObject.tenant_id_ o) (SchemaObject.udf_id_ o) (SchemaObject.arg_num_ o) e (SchemaObject.schema_version_ o))) st in
  let st := extract_string r (chars "pycall") SchemaObject.pycall_ SchemaObject.set_pycall st in
  extract_int r (chars "schema_version") (fun o v => Some (ints o (SchemaObject.tenant_id_ o) (SchemaObject.udf_id_ o) (SchemaObject.arg_num_ o) (SchemaObject.ret_ o) v)) st.

(** The loop over the rows; [udf_name] is the name of the row before.  No row is
    marked as deleted. *)
Fixpoint retrieve_loop `{ObIArray A ObPythonUDFMgr.Schema} (tenant_id : Z) (rs : list Row) (last : Z) (o : obj)
    (udf_name : SchemaObject.MStr) (schema_array : A) : option (Z * A) :=
  match rs with
  | [] => Some (last, schema_array)
  | r :: rs' =>
      o ← SchemaObject.reset o;
      '(ret, o) ← fill_simple_schema tenant_id r o;
      if OB_FAIL ret then Some (ret, schema_array)
      else
        cmp ← SchemaObject.compare o (SchemaObject.udf_name_ o) udf_name;
        '(ret, schema_array) ←
          (if cmp =? 0 then Some (ret, schema_array)
           else s ← SchemaObject.contents o;
                ia_push_back schema_array (ObSimplePythonUdfSchema.op_assign ObSimplePythonUdfSchema.new s));
        if OB_FAIL ret then Some (ret, schema_array)
        else retrieve_loop tenant_id rs' last o (SchemaObject.udf_name_ o) schema_array
  end.
Definition retrieve_python_udf_schema `{ObIArray A ObPythonUDFMgr.Schema} (tenant_id : Z) (result : list Row * Z) (schema_array : A) :
    option (Z * A) :=
  '(ret, schema_array) ← retrieve_loop tenant_id result.1 result.2 SchemaObject.new SchemaObject.null_str schema_array;
  Some (if ret =? OB_ITER_END then OB_SUCCESS else ret, schema_array).

(** ** [fetch_python_udfs] *)
Definition fill_exec_tenant_id (status_tenant_id : Z) : Z :=
  if OB_INVALID_TENANT_ID =? status_tenant_id then OB_SYS_TENANT_ID else status_tenant_id.
Definition fill_extract_tenant_id (status_tenant_id tenant_id : Z) : Z := OB_INVALID_TENANT_ID.

(** [SQL_APPEND_PYTHON_UDF_ID]: the names in quotes, as they are up to a NUL. *)
Fixpoint append_names (names : list bytes) (i : nat) (sql : ObSqlString.t) : Z * ObSqlString.t :=
  match names with
  | [] => (OB_SUCCESS, sql)
  | n :: names' =>
      let '(ret, sql) := ObSqlString.append_fmt sql
        ((if (i =? 0)%nat then [] else chars ", ") ++ chars "('" ++ c_str n ++ chars "')") in
      if OB_FAIL ret then (ret, sql) else append_names names' (S i) sql
  end.
Definition SQL_APPEND_PYTHON_UDF_ID (names : list bytes) (sql : ObSqlString.t) : Z * ObSqlString.t :=
  let '(ret, sql) := ObSqlString.append sql (chars "(") in
  if OB_FAIL ret then (ret, sql)
  else
    let '(ret, sql) := append_names names 0 sql in
    if OB_SUCC ret then ObSqlString.append sql (chars ")") else (ret, sql).

(** The statement; [schema_keys] is null or the names looked for. *)
Definition fetch_statement (status_tenant_id schema_version tenant_id : Z) (schema_keys : option (list bytes)) : Z * ObSqlString.t :=
  let '(ret, sql) := ObSqlString.append_fmt ObSqlString.empty
    (chars "SELECT * FROM __all_python_udf WHERE tenant_id = " ++ dec_u (fill_extract_tenant_id status_tenant_id tenant_id)) in
  let '(ret, sql) :=
    if OB_FAIL ret then (ret, sql)
    else
      let '(ret, sql) := ObSqlString.append_fmt sql (chars " AND SCHEMA_VERSION <= " ++ dec_d schema_version) in
      if OB_FAIL ret then (ret, sql)
      else match schema_keys with
           | Some (_ :: _ as names) =>
               let '(ret, sql) := ObSqlString.append_fmt sql (chars " AND (name) in") in
               if OB_FAIL ret then (ret, sql) else SQL_APPEND_PYTHON_UDF_ID names sql
           | _ => (ret, sql)
           end in
  if OB_SUCC ret then ObSqlString.append sql (chars " ORDER BY tenant_id desc, name desc,                               schema_version desc")
  else (ret, sql).
Definition fetch_python_udfs `{ObIArray A ObPythonUDFMgr.Schema} (status_tenant_id schema_version tenant_id : Z) (schema_array : A)
    (schema_keys : option (list bytes)) (d : Data) : option (Z * A) :=
  let '(ret, sql) := fetch_statement status_tenant_id schema_version tenant_id schema_keys in
  if OB_FAIL ret then Some (ret, schema_array)
  else
    let '(ret, result) := sql_read (fill_exec_tenant_id status_tenant_id) (ObSqlString.text_ sql) d in
    if OB_FAIL ret then Some (ret, schema_array)
    else match result with
         | None => Some (OB_ERR_UNEXPECTED, schema_array)
         | Some result => retrieve_python_udf_schema tenant_id result schema_array
         end.
End Retrieve.

(** ** [ObServerSchemaService] *)
Section Apply.
Context `{Allocator}.
Abbreviation Id := ObTenantPythonUdfId.t.

(** [convert_schema_keys_to_array]: the keys in the order the set gives them. *)
Definition convert_schema_keys_to_array `{ObIArray A Id} (key_set : list Id) (key_array : A) : option (Z * A) :=
  append (ia_reuse key_array) key_set.

(** The deletions; a missing function is no error for the system tenant of a standby cluster. *)
Fixpoint del_keys (tolerant : bool) (keys : list Id) (mgr : ObPythonUDFMgr.t) : option (Z * ObPythonUDFMgr.t) :=
  match keys with
  | [] => Some (OB_SUCCESS, mgr)
  | k :: keys' =>
      '(ret, mgr) ← ObPythonUDFMgr.del_python_udf mgr k;
      let ret := if OB_FAIL ret then (if tolerant && (OB_ENTRY_NOT_EXIST =? ret) then OB_SUCCESS else ret) else ret in
      if OB_SUCC ret then del_keys tolerant keys' mgr else Some (ret, mgr)
  end.
Definition apply_python_udf_schema_to_cache `{ObIArray A Id} (schema_keys : A) (is_standby_cluster : bool) (tenant_id : Z) (del_python_udf_keys : list Id)
    (simple_python_udf_schemas : list ObPythonUDFMgr.Schema) (mgr : ObPythonUDFMgr.t) : option (Z * ObPythonUDFMgr.t) :=
  '(ret, schema_keys) ← convert_schema_keys_to_array del_python_udf_keys schema_keys;
  '(ret, mgr) ←
    (if OB_FAIL ret then Some (ret, mgr)
     else del_keys (is_standby_cluster && (OB_SYS_TENANT_ID =? tenant_id)) (items schema_keys) mgr);
  if OB_SUCC ret then ObPythonUDFMgr.add_python_udfs mgr simple_python_udf_schemas else Some (ret, mgr).

(** [ObSchemaMgr::get_python_udf_schema], of the schema manager of tenant [mgr_tenant_id]. *)
Definition get_python_udf_schema (mgr_tenant_id : Z) (mgr : ObPythonUDFMgr.t) (tenant_id udf_id : Z)
    (python_udf_schema : option ObPythonUDFMgr.Schema) : Z * option ObPythonUDFMgr.Schema :=
  if negb (mgr_tenant_id =? tenant_id) then (OB_INVALID_ARGUMENT, python_udf_schema)
  else ObPythonUDFMgr.get_python_udf_schema mgr udf_id python_udf_schema.
End Apply.
