(* ===== verification/RefreshTheorems.v ===== *)
(** The refresh of the catalogue: [apply_python_udf_schema_to_cache] against the
    finite map the catalogue stands for, and what [retrieve_python_udf_schema] does
    with names of the same length. *)
From S2P Require Import Prelude Arena FixedArray SEArray HashArray HashMap SortedVector.
From S2P Require Import UdfSchema.
From S2P Require Import Serialization UdfObject SqlText SqlClient UdfDdl UdfMgr UdfMgrFacts.
From S2P Require Import SchemaTheorems IArray UdfRefresh.
From S2P Require Import ArenaTheorems SqlDemo.

(** ** The specification *)
Module RefreshSpec.
Abbreviation Id := ObTenantPythonUdfId.t.
Abbreviation Schema := ObPythonUDFMgr.Schema.
Abbreviation Catalogue := (gmap Id Schema).
Abbreviation key := ObSimplePythonUdfSchema.get_tenant_python_udf_id.
Implicit Type g : Catalogue.

(** Deletions, then insertions, each up to the first that fails; with [tolerant] a
    function that does not exist counts as deleted. *)
Fixpoint del_all (tolerant : bool) g (keys : list Id) : Z * Catalogue :=
  match keys with
  | [] => (OB_SUCCESS, g)
  | k :: keys' =>
      let '(ret, g) := UdfMgrFacts.spec_del g k in
      if (ret =? OB_SUCCESS) || tolerant && (ret =? OB_ENTRY_NOT_EXIST) then del_all tolerant g keys' else (ret, g)
  end.
Fixpoint add_all g (schemas : list Schema) : Z * Catalogue :=
  match schemas with
  | [] => (OB_SUCCESS, g)
  | s :: schemas' => let '(ret, g) := UdfMgrFacts.spec_add g s in if ret =? OB_SUCCESS then add_all g schemas' else (ret, g)
  end.
Definition refresh (tolerant : bool) g (keys : list Id) (schemas : list Schema) : Z * Catalogue :=
  let '(ret, g) := del_all tolerant g keys in if ret =? OB_SUCCESS then add_all g schemas else (ret, g).

(** The catalogue of a refresh that succeeds: the last schema of a key, else
    nothing for a deleted key, else what there was. *)
Definition newest (schemas : list Schema) (k : Id) : option Schema := last (filter (fun s => key s = k) schemas).
Definition refreshed g (keys : list Id) (schemas : list Schema) (k : Id) : option Schema :=
  match newest schemas k with Some s => Some s | None => if decide (k ∈ keys) then None else g !! k end.

Lemma del_all_success tolerant keys : forall g g', del_all tolerant g keys = (OB_SUCCESS, g') ->
  forall k, g' !! k = if decide (k ∈ keys) then None else g !! k.
Proof.
  induction keys as [| x keys IH]; intros g g' E k; cbn [del_all] in E.
  { injection E as <-. now rewrite decide_False by apply not_elem_of_nil. }
  assert (exists g1, del_all tolerant g1 keys = (OB_SUCCESS, g') /\ forall y, g1 !! y = if decide (y = x) then None else g !! y) as (g1 & E1 & Hg1).
  { unfold UdfMgrFacts.spec_del in E. destruct (ObTenantPythonUdfId.is_valid x); [| cbn in E; destruct tolerant; discriminate].
    destruct (g !! x) eqn:Ex.
    - exists (delete x g). split; [exact E |]. intros y. case_decide as Hy; [subst; apply lookup_delete_eq | now rewrite lookup_delete_ne].
    - exists g. split; [destruct tolerant; [exact E | discriminate] |]. intros y. case_decide as Hy; [now subst | reflexivity]. }
  rewrite (IH g1 g' E1 k), Hg1. repeat case_decide; subst; set_solver.
Qed.

Lemma newest_cons s schemas k : newest (s :: schemas) k =
  match newest schemas k with Some x => Some x | None => if decide (key s = k) then Some s else None end.
Proof.
  unfold newest. rewrite filter_cons. case_decide; [| now destruct (last _)]. rewrite last_cons. now destruct (last _).
Qed.

Lemma add_all_success schemas : forall g g', add_all g schemas = (OB_SUCCESS, g') ->
  forall k, g' !! k = match newest schemas k with Some s => Some s | None => g !! k end.
Proof.
  induction schemas as [| s schemas IH]; intros g g' E k; cbn [add_all] in E; [now injection E as <- |].
  unfold UdfMgrFacts.spec_add in E. destruct (ObSimplePythonUdfSchema.is_valid s); [| discriminate]. cbn in E.
  rewrite (IH _ _ E), newest_cons. destruct (newest schemas k); [reflexivity |]. case_decide as Hk.
  - subst. now rewrite lookup_insert_eq.
  - now rewrite lookup_insert_ne.
Qed.

Lemma refresh_success tolerant g keys schemas g' : refresh tolerant g keys schemas = (OB_SUCCESS, g') ->
  forall k, g' !! k = refreshed g keys schemas k.
Proof.
  unfold refresh. destruct (del_all tolerant g keys) as [ret g1] eqn:Ed. destruct (Z.eqb_spec ret OB_SUCCESS) as [-> | Hne]; intros E k.
  - unfold refreshed. rewrite (add_all_success _ _ _ E k), (del_all_success _ _ _ _ Ed k). reflexivity.
  - now injection E as ->.
Qed.

(** When a refresh succeeds: the keys and schemas are valid, and what is to be
    deleted exists, or need not. *)
Lemma refresh_dels tolerant keys : forall g, Forall (fun k => ObTenantPythonUdfId.is_valid k = true) keys ->
  (tolerant = true \/ NoDup keys /\ Forall (fun k => is_Some (g !! k)) keys) -> exists g', del_all tolerant g keys = (OB_SUCCESS, g').
Proof.
  induction keys as [| k keys IH]; intros g Hv Hex; [eauto |]. apply Forall_cons in Hv as [Hk Hv]. cbn [del_all].
  unfold UdfMgrFacts.spec_del. rewrite Hk. destruct Hex as [-> | [Hnd Hex]].
  - destruct (g !! k); cbn; apply IH; auto.
  - apply NoDup_cons in Hnd as [Hkn Hnd]. apply Forall_cons in Hex as [[s Hs] Hex]. rewrite Hs. cbn. apply IH; auto. right.
    split; [exact Hnd |]. rewrite Forall_forall in *. intros x Hx. rewrite lookup_delete_ne by (intros ->; contradiction). auto.
Qed.
Lemma refresh_adds schemas : forall g, Forall (fun s => ObSimplePythonUdfSchema.is_valid s = true) schemas -> exists g', add_all g schemas = (OB_SUCCESS, g').
Proof.
  induction schemas as [| s schemas IH]; intros g Hv; [eauto |]. apply Forall_cons in Hv as [Hs Hv]. cbn [add_all].
  unfold UdfMgrFacts.spec_add. rewrite Hs. cbn. auto.
Qed.
End RefreshSpec.

(** ** The properties *)
Section Properties.
Context `{Allocator, ObIArrayLaws A ObTenantPythonUdfId.t}.
Context (Hmem : forall n, alloc_ok n = true).
Implicit Type m : ObPythonUDFMgr.t.

Lemma del_keys_ok tolerant keys : forall m g, UdfMgrFacts.rep m g ->
  exists m', del_keys tolerant keys m = Some ((RefreshSpec.del_all tolerant g keys).1, m') /\ UdfMgrFacts.rep m' (RefreshSpec.del_all tolerant g keys).2.
Proof.
  induction keys as [| k keys IH]; intros m g Hr; [eauto |]. cbn [del_keys RefreshSpec.del_all].
  destruct (UdfMgrFacts.del_ok m g k Hr) as (m1 & -> & Hr1). destruct (UdfMgrFacts.spec_del g k) as [ret g1]. cbn [mbind option_bind fst snd] in *.
  unfold OB_FAIL, OB_SUCC. rewrite (Z.eqb_sym OB_ENTRY_NOT_EXIST).
  destruct (Z.eqb_spec ret OB_SUCCESS) as [-> | Hne]; cbn [negb orb]; [now apply IH |].
  destruct (tolerant && (ret =? OB_ENTRY_NOT_EXIST)); [now apply IH |]. rewrite (proj2 (Z.eqb_neq _ _) Hne). eauto.
Qed.

Lemma add_schemas_ok ss : forall m g, UdfMgrFacts.rep m g -> Forall UdfMgrFacts.clean ss ->
  exists m', ObPythonUDFMgr.add_python_udfs m ss = Some ((RefreshSpec.add_all g ss).1, m') /\ UdfMgrFacts.rep m' (RefreshSpec.add_all g ss).2.
Proof.
  induction ss as [| s ss IH]; intros m g Hr Hc; [eauto |]. apply Forall_cons in Hc as [Hs Hc]. cbn [ObPythonUDFMgr.add_python_udfs RefreshSpec.add_all].
  destruct (UdfMgrFacts.add_ok Hmem m g s Hr Hs) as (m1 & -> & Hr1). destruct (UdfMgrFacts.spec_add g s) as [ret g1]. cbn [mbind option_bind fst snd] in *.
  unfold OB_FAIL, OB_SUCC. destruct (Z.eqb_spec ret OB_SUCCESS) as [-> | Hne]; cbn [negb]; [now apply IH | eauto].
Qed.

Lemma apply_ok (arr : A) standby tenant_id keys schemas m g : UdfMgrFacts.rep m g -> Forall UdfMgrFacts.clean schemas ->
  ia_wf arr -> Z.of_nat (length keys) < 2 ^ 41 ->
  let tolerant := standby && (OB_SYS_TENANT_ID =? tenant_id) in
  exists m', apply_python_udf_schema_to_cache arr standby tenant_id keys schemas m = Some ((RefreshSpec.refresh tolerant g keys schemas).1, m')
    /\ UdfMgrFacts.rep m' (RefreshSpec.refresh tolerant g keys schemas).2.
Proof.
  intros Hr Hc Hw Hl tolerant. unfold apply_python_udf_schema_to_cache, convert_schema_keys_to_array.
  destruct (ia_reuse_law arr Hw) as [Hw0 Hi0].
  destruct (append_adds keys (ia_reuse arr) Hw0) as (ret & a' & -> & _ & [[-> Hi] | (_ & _ & k & Hk)]);
    [unfold ia_count; rewrite Hi0; simpl; lia | | now rewrite Hmem in Hk].
  rewrite Hi0 in Hi. cbn [mbind option_bind]. change (OB_FAIL OB_SUCCESS) with false. cbn iota. rewrite Hi. cbn [app]. fold tolerant.
  destruct (del_keys_ok tolerant keys m g Hr) as (m1 & -> & Hr1). unfold RefreshSpec.refresh.
  destruct (RefreshSpec.del_all tolerant g keys) as [ret g1]. cbn [mbind option_bind fst snd] in *. unfold OB_SUCC.
  destruct (ret =? OB_SUCCESS); [now apply add_schemas_ok | eauto].
Qed.
End Properties.

(** C28. The refresh of the catalogue refines deletions and insertions on a finite
    map.  On a catalogue that stands for a map, [apply_python_udf_schema_to_cache]
    returns the code of deleting the keys and adding the schemas one by one, each
    up to the first failure, and leaves the catalogue standing for the map so far;
    when it succeeds, a key has the last schema given for it, else nothing if it was
    to be deleted, else what it had; and it succeeds when the keys and schemas are
    valid and the functions to delete exist, or need not (the system tenant of a
    standby cluster). *)
Theorem refresh_updates_catalogue `{Allocator, ObIArrayLaws A ObTenantPythonUdfId.t} (arr : A) standby tenant_id keys schemas m g :
  (forall n, alloc_ok n = true) -> UdfMgrFacts.rep m g -> Forall UdfMgrFacts.clean schemas ->
  ia_wf arr -> Z.of_nat (length keys) < 2 ^ 41 ->
  let tolerant := standby && (OB_SYS_TENANT_ID =? tenant_id) in
  exists ret m' g', apply_python_udf_schema_to_cache arr standby tenant_id keys schemas m = Some (ret, m')
    /\ UdfMgrFacts.rep m' g' /\ RefreshSpec.refresh tolerant g keys schemas = (ret, g')
    /\ (ret = OB_SUCCESS -> forall k, g' !! k = RefreshSpec.refreshed g keys schemas k)
    /\ (Forall (fun k => ObTenantPythonUdfId.is_valid k = true) keys ->
        Forall (fun s => ObSimplePythonUdfSchema.is_valid s = true) schemas ->
        tolerant = true \/ NoDup keys /\ Forall (fun k => is_Some (g !! k)) keys -> ret = OB_SUCCESS).
Proof.
  intros Hmem Hr Hc Hw Hl tolerant. destruct (apply_ok Hmem arr standby tenant_id keys schemas m g Hr Hc Hw Hl) as (m' & Ha & Hr'). fold tolerant in Ha, Hr'.
  destruct (RefreshSpec.refresh tolerant g keys schemas) as [ret g'] eqn:E. exists ret, m', g'. do 3 (split; [auto |]). split.
  - intros ->. now apply (RefreshSpec.refresh_success tolerant).
  - intros Hk Hs Hex. unfold RefreshSpec.refresh in E. destruct (RefreshSpec.refresh_dels tolerant keys g Hk Hex) as [g1 E1]. rewrite E1 in E.
    cbn in E. destruct (RefreshSpec.refresh_adds schemas g1 Hs) as [g2 E2]. rewrite E2 in E. now injection E as <- _.
Qed.

(** ** A concrete refresh *)
Section Witness.
#[local] Instance id_size : SizeOf ObTenantPythonUdfId.t := {| size_of := 24; default_of := (OB_INVALID_ID, []) |}.
#[local] Instance id_size_ok : SizeOfOk ObTenantPythonUdfId.t.
Proof. split; reflexivity. Qed.
#[local] Instance eight : LocalSize 8.
Proof. split; reflexivity. Qed.
#[local] Existing Instance unlimited.
Abbreviation keys_array := (SE ObTenantPythonUdfId.t 8).

(** [g2] is deleted and comes back changed, together with a new function. *)
Lemma refresh_updates_catalogue_witness :
  exists m m' g', UdfMgrFacts.rep m {[(2, [102]) := h_schema; (1, [103; 50]) := g_schema]}
    /\ apply_python_udf_schema_to_cache (ia_new : keys_array) false 1 [(1, [103; 50])] [f_schema 500; g_schema] m = Some (OB_SUCCESS, m')
    /\ UdfMgrFacts.rep m' g' /\ g' !! (1, [102]) = Some (f_schema 500) /\ g' !! (2, [102]) = Some h_schema.
Proof.
  destruct two_rep as (m & _ & Hr). exists m.
  destruct (refresh_updates_catalogue (ia_new : keys_array) false 1 [(1, [103; 50])] [f_schema 500; g_schema] m _
    unlimited_ok Hr ltac:(repeat constructor; discriminate) (proj1 ia_new_law) ltac:(simpl; lia))
    as (ret & m' & g' & Ha & Hr' & _ & Hlook & Hok).
  assert (ret = OB_SUCCESS) as ->.
  { apply Hok; [repeat constructor | repeat constructor |]. right. split; [apply NoDup_singleton |]. repeat constructor. eexists. vm_compute. reflexivity. }
  exists m', g'. split; [exact Hr |]. split; [exact Ha |]. split; [exact Hr' |]. rewrite !(Hlook eq_refl). split; vm_compute; reflexivity.
Defined.

(** ** Names of the same length *)
#[local] Instance schema_size : SizeOf ObPythonUDFMgr.Schema :=
  {| size_of := ObSimplePythonUdfSchema.sizeof; default_of := ObSimplePythonUdfSchema.new |}.
#[local] Existing Instance bump.
Definition row (name : string) (id : Z) : list (bytes * cell) :=
  zip udf_columns [CInt 0; CInt id; CStr (chars name); CInt 1; CStr (chars "x"); CStr (chars "i"); CInt 2; CStr (chars "def"); CInt 7].
Definition retrieved (names : list string) : option (Z * list bytes) :=
  '(ret, a) ← retrieve_python_udf_schema 1 (imap (fun i n => row n (500 + Z.of_nat i)) names, OB_ITER_END) (ia_new : SE ObPythonUDFMgr.Schema 8);
  Some (ret, ObSimplePythonUdfSchema.udf_name_ <$> items a).

(** The name of the row before points to the place the next name is written to:
    a function whose name has the length of the name before it is taken for the
    same function and left out. *)
Example same_length_left_out :
  retrieved ["sum"; "avg"; "first"; "last"; "root"]%string = Some (OB_SUCCESS, map chars ["sum"; "first"; "last"]%string).
Proof. vm_compute. reflexivity. Qed.
End Witness.
