(* ===== verification/RawExpr.v ===== *)
(** Resolved expressions ([ObRawExpr], [src/sql/resolver/expr/ob_raw_expr.h]) as
    objects of a heap, which may be shared, and the functions that walk over
    them: [ObDMLResolver::checkExprContainType]
    ([src/sql/resolver/dml/ob_dml_resolver.cpp]), [containType] of
    [ObSelectLogPlan::get_python_udf_exprs_from_top]
    ([src/sql/optimizer/ob_select_log_plan.cpp]), [extract_column_exprs] and
    [replace_ref_column] ([src/sql/resolver/expr/ob_raw_expr_util.cpp]).

    Pointers are integers, [NULL] is 0.  The walks take as many levels as there
    are objects; [None] is a pointer to no object, or more levels than that,
    which only a cycle needs ([contains_spec]). *)
From S2P Require Import Prelude FixedArray SEArray IArray HashArray SortedVector UdfSchema.
From S2P Require Import Serialization UdfObject BatchSize UdfMeta.

Abbreviation ptr := Z.
Definition NULL : ptr := 0.
#[global] Instance size_of_ptr : SizeOf ptr := {| size_of := 8; default_of := NULL |}.
#[global] Instance size_of_ptr_ok : SizeOfOk ptr.
Proof. unfold SizeOfOk. cbn. lia. Qed.
#[global] Instance local_size_4 : LocalSize 4.
Proof. unfold LocalSize. lia. Qed.
#[global] Instance local_size_8 : LocalSize 8.
Proof. unfold LocalSize. lia. Qed.
#[global] Instance local_size_16 : LocalSize 16.
Proof. unfold LocalSize. lia. Qed.

(** The types the code asks for; the others are numbered. *)
Inductive ItemType := T_FUN_PYTHON_UDF | T_REF_COLUMN | T_REF_QUERY | T_ITEM (n : Z).
#[global] Instance item_type_eq_dec : EqDecision ItemType.
Proof. solve_decision. Defined.

(** One object: the members of the classes [ObOpRawExpr] (parameters),
    [ObPythonUdfRawExpr] (metadata), [ObSysFunRawExpr] (function name) and
    [ObColumnRefRawExpr] (column); those of another class have any value. *)
Definition COMMON_MULTI_NUM : Z := 16.
Record RawExpr := mkRaw {
  type_ : ItemType;
  exprs_ : SE ptr COMMON_MULTI_NUM;
  udf_meta_ : ObPythonUDFMeta.t;
  func_name_ : bytes;
  table_id_ : Z; column_id_ : Z; column_name_ : bytes
}.
Abbreviation heap := (gmap ptr RawExpr).
Section Walks.
Context `{Allocator}.
Definition params (e : RawExpr) : list ptr := items (exprs_ e).

(** [res = res || f(param)] over the parameters. *)
Fixpoint any_param (f : ptr -> option bool) (ps : list ptr) (res : bool) : option bool :=
  match ps with
  | [] => Some res
  | p :: ps' => res ← (if res then Some true else f p); any_param f ps' res
  end.
Fixpoint contains (fuel : nat) (test : ptr -> RawExpr -> bool) (h : heap) (p : ptr) : option bool :=
  match fuel with
  | O => None
  | S fuel' =>
      e ← h !! p;
      if test p e then Some true else any_param (contains fuel' test h) (params e) false
  end.

Definition checkExprContainType (h : heap) (expr : ptr) (type : ItemType) : option bool :=
  contains (size h) (fun _ e => bool_decide (type_ e = type)) h expr.
(** The lambda [containType]: a call the statement knows. *)
Definition containType `{ObIArray A ptr} (h : heap) (python_udf_exprs : A) (expr : ptr) (type : ItemType) : option bool :=
  contains (size h) (fun p e => bool_decide (type_ e = type) && is_contain python_udf_exprs p) h expr.

(** [extract_column_exprs(raw_expr, column_exprs)], without pseudo columns, and
    its overload for an array. *)
Fixpoint extract_params {A} (f : ptr -> A -> option (Z * A)) (ps : list ptr) (cols : A) : option (Z * A) :=
  match ps with
  | [] => Some (OB_SUCCESS, cols)
  | p :: ps' => '(ret, cols) ← f p cols; if OB_SUCC ret then extract_params f ps' cols else Some (ret, cols)
  end.
Fixpoint extract_column (fuel : nat) `{ObIArray A ptr} (h : heap) (p : ptr) (cols : A) : option (Z * A) :=
  match fuel with
  | O => None
  | S fuel' =>
      if p =? NULL then Some (OB_INVALID_ARGUMENT, cols)
      else
        e ← h !! p;
        if bool_decide (type_ e = T_REF_COLUMN) then add_var_to_array_no_dup cols p
        else extract_params (extract_column fuel' h) (params e) cols
  end.
Definition extract_column_exprs `{ObIArray A ptr} (h : heap) (exprs : list ptr) (cols : A) : option (Z * A) :=
  extract_params (fun p cols => if p =? NULL then Some (OB_INVALID_ARGUMENT, cols) else extract_column (size h) h p cols) exprs cols.

(** [replace_ref_column(raw_expr, from, to)] without exceptions: the code, the
    pointer [raw_expr] is set to, and the heap.  The statement of a query
    reference and the room left on the stack are parameters: the relation
    expressions of the statement, [None] when there is none. *)
Context (get_relation_exprs : heap -> ptr -> option (Z * list ptr)) (check_stack_overflow : Z * bool).
Definition set_param (e : RawExpr) (i : nat) (q : ptr) : RawExpr :=
  let a := se (exprs_ e) in
  mkRaw (type_ e) (mkSE (ObSEArray.mk (<[i := q]> (ObSEArray.items_ a)) (ObSEArray.capacity_ a) (ObSEArray.error_ a)))
        (udf_meta_ e) (func_name_ e) (table_id_ e) (column_id_ e) (column_name_ e).
Definition replaced : Type := Z * ptr * heap.
(** The loop over the parameters from [i]: [n] are left. *)
Fixpoint replace_params (f : heap -> ptr -> option replaced) (n i : nat) (h : heap) (p : ptr) : option replaced :=
  match n with
  | O => Some (OB_SUCCESS, p, h)
  | S n' =>
      e ← h !! p; child ← params e !! i;
      '(ret, child, h) ← f h child;
      e ← h !! p;
      let h := <[p := set_param e i child]> h in
      if OB_SUCC ret then replace_params f n' (S i) h p else Some (ret, p, h)
  end.
(** The overload for an array, whose elements are copied out. *)
Fixpoint replace_array (f : heap -> ptr -> option replaced) (ps : list ptr) (h : heap) (p : ptr) : option replaced :=
  match ps with
  | [] => Some (OB_SUCCESS, p, h)
  | q :: ps' => '(ret, _, h) ← f h q; if OB_SUCC ret then replace_array f ps' h p else Some (ret, p, h)
  end.
Fixpoint replace_ref_column (fuel : nat) (from to : ptr) (h : heap) (p : ptr) : option replaced :=
  match fuel with
  | O => None
  | S fuel' =>
      if (p =? NULL) || (from =? NULL) || (to =? NULL) then Some (OB_INVALID_ARGUMENT, p, h)
      else if p =? to then Some (OB_SUCCESS, p, h)
      else if p =? from then Some (OB_SUCCESS, to, h)
      else
        e ← h !! p;
        if bool_decide (type_ e = T_REF_QUERY) then
          match get_relation_exprs h p with
          | None => Some (OB_ERR_UNEXPECTED, p, h)
          | Some (ret, relation_exprs) =>
              if OB_FAIL ret then Some (ret, p, h)
              else if OB_FAIL check_stack_overflow.1 then Some (check_stack_overflow.1, p, h)
              else if check_stack_overflow.2 then Some (OB_SIZE_OVERFLOW, p, h)
              else replace_array (replace_ref_column fuel' from to) relation_exprs h p
          end
        else replace_params (replace_ref_column fuel' from to) (List.length (params e)) 0 h p
  end.
End Walks.

(** ** Subexpressions *)
Section Sub.
Context `{Allocator}.
Inductive sub (h : heap) : ptr -> ptr -> Prop :=
| sub_refl p : sub h p p
| sub_param p e q r : h !! p = Some e -> q ∈ params e -> sub h q r -> sub h p r.

(** Parameters are objects, and come before their expressions in some order of
    the objects; a column has no parameters. *)
Definition ordered (h : heap) : Prop :=
  h !! NULL = None /\
  (forall p e, h !! p = Some e -> type_ e = T_REF_COLUMN -> params e = []) /\
  exists rank : ptr -> nat, forall p e, h !! p = Some e ->
    (rank p < size h)%nat /\ forall q, q ∈ params e -> is_Some (h !! q) /\ (rank q < rank p)%nat.

Lemma ordered_null h p : ordered h -> is_Some (h !! p) -> p <> NULL.
Proof. intros [Hn _] [e He] ->. congruence. Qed.

Lemma any_param_spec f ps : forall res, (forall p, p ∈ ps -> is_Some (f p)) ->
  exists b, any_param f ps res = Some b /\ (b = true <-> res = true \/ exists p, p ∈ ps /\ f p = Some true).
Proof.
  induction ps as [| p ps IH]; intros res Hf; cbn [any_param].
  - exists res. split; [reflexivity |]. split; [auto |]. intros [? | (p & Hp & _)]; [assumption |]. now apply not_elem_of_nil in Hp.
  - destruct (Hf p) as [b Hb]; [left |]. assert (forall q, q ∈ ps -> is_Some (f q)) as Hf' by (intros; apply Hf; now right).
    assert (exists b1, (if res then Some true else f p) = Some b1 /\ (b1 = true <-> res = true \/ f p = Some true)) as (b1 & -> & H1).
    { destruct res; [exists true | exists b]; rewrite Hb; split; try easy; [tauto |]. split; [intros ->; now right | intros [? | [= ->]]; easy]. }
    cbn [mbind option_bind]. destruct (IH b1 Hf') as (b2 & -> & H2). exists b2. split; [reflexivity |]. rewrite H2, H1.
    split; [intros [[? | ?] | (q & Hq & ?)] | intros [? | (q & Hq%elem_of_cons & ?)]]; [auto | right; exists p; split; [left | assumption] |
      right; exists q; split; [now right | assumption] | auto |]. destruct Hq as [-> | Hq]; eauto.
Qed.

(** As many levels as there are objects are enough. *)
Lemma contains_rank test h rank fuel : 
  (forall p e, h !! p = Some e -> forall q, q ∈ params e -> is_Some (h !! q) /\ (rank q < rank p)%nat) ->
  forall p, is_Some (h !! p) -> (rank p < fuel)%nat ->
  exists b, contains fuel test h p = Some b /\ (b = true <-> exists q e, sub h p q /\ h !! q = Some e /\ test q e = true).
Proof.
  intros Hrank. induction fuel as [| fuel IH]; intros p [e He] Hp; [lia |]. cbn [contains]. rewrite He. cbn [mbind option_bind].
  destruct (test p e) eqn:Et.
  { exists true. split; [reflexivity |]. split; [intros _ | reflexivity]. exists p, e. split; [apply sub_refl | auto]. }
  assert (forall q, q ∈ params e -> exists b, contains fuel test h q = Some b /\
            (b = true <-> exists r e', sub h q r /\ h !! r = Some e' /\ test r e' = true)) as Hq.
  { intros q Hin. destruct (Hrank p e He q Hin). apply IH; [assumption | lia]. }
  destruct (any_param_spec (contains fuel test h) (params e) false) as (b & -> & Hb).
  { intros q Hin. destruct (Hq q Hin) as (b & -> & _). eauto. }
  exists b. split; [reflexivity |]. rewrite Hb. split.
  - intros [? | (q & Hin & E)]; [easy |]. destruct (Hq q Hin) as (b' & E' & Hb'). rewrite E in E'. injection E' as <-.
    destruct (proj1 Hb' eq_refl) as (r & e' & Hs & Hr). exists r, e'. split; [| exact Hr]. now apply (sub_param h p e q).
  - intros (r & e' & Hs & Hr & Ht). right. inversion Hs as [| ? e1 q ? He1 Hin Hs1]; subst; [congruence |].
    rewrite He in He1. injection He1 as <-. exists q. split; [exact Hin |]. destruct (Hq q Hin) as (b' & -> & Hb').
    f_equal. apply Hb'. eauto.
Qed.
Lemma contains_spec test h p : ordered h -> is_Some (h !! p) ->
  exists b, contains (size h) test h p = Some b /\ (b = true <-> exists q e, sub h p q /\ h !! q = Some e /\ test q e = true).
Proof.
  intros (_ & _ & rank & Hr) [e Hp]. apply (contains_rank test h rank); [intros; now apply (Hr p0 e0) | eauto | now apply (Hr p e)].
Qed.

(** ** Columns *)
Context {A : Type} {OA : ObIArray A ptr} {LA : ObIArrayLaws A ptr}.
(** An array of objects without duplicates. *)
Definition objects (h : heap) (a : A) : Prop := ia_wf a /\ NoDup (items a) /\ forall q, q ∈ items a -> is_Some (h !! q).
Lemma objects_count h a : objects h a -> ia_count a <= Z.of_nat (size h).
Proof.
  intros (_ & Hn & Hin). unfold ia_count.
  replace (size h) with (size (dom h : gset ptr)) by apply size_dom. rewrite <- (size_list_to_set (C := gset ptr) (items a)) by exact Hn.
  apply inj_le, subseteq_size. intros q Hq. apply elem_of_list_to_set, Hin in Hq. now apply elem_of_dom.
Qed.
Definition column (h : heap) (q : ptr) : Prop := exists e, h !! q = Some e /\ type_ e = T_REF_COLUMN.

(** What a walk that collects columns does: it adds those of the expressions. *)
Definition collects (h : heap) (ps : list ptr) (a : A) (r : option (Z * A)) : Prop :=
  exists ret a', r = Some (ret, a') /\ objects h a' /\ (forall q, q ∈ items a -> q ∈ items a') /\
    (ret = OB_SUCCESS /\ (forall q, q ∈ items a' <-> q ∈ items a \/ exists p, p ∈ ps /\ sub h p q /\ column h q) \/
     ret = OB_ALLOCATE_MEMORY_FAILED /\ exists k, alloc_ok k = false).

Lemma collects_params h f ps : (forall p a, p ∈ ps -> objects h a -> collects h [p] a (f p a)) ->
  forall a, objects h a -> collects h ps a (extract_params f ps a).
Proof.
  induction ps as [| p ps IH]; intros Hf a Ha; cbn [extract_params].
  - exists OB_SUCCESS, a. split_and!; auto. left. split; [reflexivity |]. intros q. split; [auto |].
    intros [? | (p & Hp & _)]; [assumption | now apply not_elem_of_nil in Hp].
  - destruct (Hf p a) as (ret & a1 & -> & Ha1 & Hs1 & Hc1); [left | exact Ha |]. cbn [mbind option_bind].
    destruct Hc1 as [[-> Hc1] | [-> Hk]]; [| exists OB_ALLOCATE_MEMORY_FAILED, a1; split_and!; auto].
    change (OB_SUCC OB_SUCCESS) with true. cbn iota.
    destruct (IH (fun q b Hq Hb => Hf q b (list_elem_of_further _ _ _ Hq) Hb) a1 Ha1) as (ret & a2 & -> & Ha2 & Hs2 & Hc2).
    exists ret, a2. split_and!; auto. destruct Hc2 as [[-> Hc2] | Hc2]; [left; split; [reflexivity |] | now right].
    intros q. rewrite Hc2, Hc1. split.
    + intros [[? | (p' & Hp' & ?)] | (p' & Hp' & ?)]; [now left | right; exists p' | right; exists p'];
        (split; [| assumption]); [apply list_elem_of_singleton in Hp' as ->; left | now right].
    + intros [? | (p' & Hp' & ?)]; [now left; left |]. apply elem_of_cons in Hp' as [-> | Hp']; [left; right | right; eauto].
      exists p. split; [now apply list_elem_of_singleton | assumption].
Qed.

Lemma extract_rank h rank fuel : Z.of_nat (size h) < 2 ^ 41 -> h !! NULL = None ->
  (forall p e, h !! p = Some e -> type_ e = T_REF_COLUMN -> params e = []) ->
  (forall p e, h !! p = Some e -> forall q, q ∈ params e -> is_Some (h !! q) /\ (rank q < rank p)%nat) ->
  forall p a, is_Some (h !! p) -> (rank p < fuel)%nat -> objects h a -> collects h [p] a (extract_column fuel h p a).
Proof.
  intros Hsz Hnull Hcol Hrank. induction fuel as [| fuel IH]; intros p a [e He] Hp Ha; [lia |]. cbn [extract_column].
  destruct (Z.eqb_spec p NULL); [congruence |]. rewrite He. cbn [mbind option_bind]. case_bool_decide as Ht.
  - pose proof (objects_count h a Ha) as Hc. destruct Ha as (Hw & Hn & Hin).
    destruct (add_var_adds a p Hw ltac:(lia)) as (ret & a' & -> & Hw' & [[-> Hi] | (-> & [Hpre Hsuf] & Hk)]).
    + exists OB_SUCCESS, a'. unfold objects. rewrite Hi. split_and!; auto using NoDup_adjoin.
      * intros q [Hq | ->]%elem_of_adjoin; eauto.
      * intros q Hq. apply elem_of_adjoin. now left.
      * left. split; [reflexivity |]. intros q. rewrite elem_of_adjoin. split.
        -- intros [? | ->]; [now left |]. right. exists p. split_and!; [now apply list_elem_of_singleton | apply sub_refl | now exists e].
        -- intros [? | (p' & ->%list_elem_of_singleton & Hs & _)]; [now left |]. right. inversion Hs as [| ? e1 ? ? He1 Hq]; [reflexivity |].
           subst. rewrite He in He1. injection He1 as <-. rewrite (Hcol p e He Ht) in Hq. now apply not_elem_of_nil in Hq.
    + exists OB_ALLOCATE_MEMORY_FAILED, a'. unfold objects. split_and!; auto.
      * destruct Hsuf as [l Hl]. apply (NoDup_adjoin _ p) in Hn. rewrite Hl in Hn. now apply NoDup_app in Hn.
      * intros q Hq. destruct Hsuf as [l Hl]. assert (q ∈ adjoin (items a) p) as [? | ->]%elem_of_adjoin by (rewrite Hl; apply elem_of_app; now left); eauto.
      * intros q Hq. destruct Hpre as [l ->]. apply elem_of_app. now left.
  - destruct (collects_params h (extract_column fuel h) (params e)) with (a := a) as (ret & a' & -> & Ha' & Hs & Hc); [| exact Ha |].
    { intros q b Hq Hb. destruct (Hrank p e He q Hq). apply IH; [assumption | lia | exact Hb]. }
    exists ret, a'. split_and!; auto. destruct Hc as [[-> Hc] | Hc]; [left; split; [reflexivity |] | now right].
    intros q. rewrite Hc. split; (intros [? | (p' & Hp' & Hs' & Hq)]; [now left | right]).
    + exists p. split_and!; [now apply list_elem_of_singleton | now apply (sub_param h p e p') | exact Hq].
    + apply list_elem_of_singleton in Hp' as ->. inversion Hs' as [| ? e1 p1 ? He1 Hp1 Hs1]; subst.
      * destruct Hq as (e' & He' & Ht'). congruence.
      * rewrite He in He1. injection He1 as <-. eauto.
Qed.
Lemma extract_spec h ps a : ordered h -> Z.of_nat (size h) < 2 ^ 41 -> (forall p, p ∈ ps -> is_Some (h !! p)) ->
  objects h a -> collects h ps a (extract_column_exprs h ps a).
Proof.
  intros Ho Hsz Hps. pose proof Ho as (Hnull & Hcol & rank & Hr). apply collects_params. intros p b Hp Hb.
  pose proof (ordered_null h p Ho (Hps p Hp)). destruct (Z.eqb_spec p NULL); [easy |].
  destruct (Hps p Hp) as [e He]. apply (extract_rank h rank); eauto; [intros; now apply (Hr p0 e0) | now apply (Hr p e)].
Qed.
End Sub.
