(* ===== verification/UdfStmt.v ===== *)
(** Python functions in a statement: the lists of [ObDMLStmt]
    ([src/sql/resolver/dml/ob_dml_stmt.cpp]) and [ObSelectStmt]
    ([ob_select_stmt.cpp]), [ObDMLResolver::generate_python_udf_filters]
    ([ob_dml_resolver.cpp]), which takes the conditions that call a function out
    of the [WHERE] clause, and [ObSelectResolver::resolve_python_udf_exprs]
    ([ob_select_resolver.cpp]). *)
From S2P Require Import Prelude FixedArray SEArray IArray HashArray SortedVector UdfSchema.
From S2P Require Import Serialization UdfObject BatchSize UdfMeta Frame UdfExpr RawExpr.

Record SelectItem := mkItem { expr_name_ : bytes; expr_ : ptr }.
Record ColumnItem := mkColumn {
  ci_expr_ : ptr; ci_table_id_ : Z; ci_column_id_ : Z; ci_column_name_ : bytes; base_tid_ : Z; base_cid_ : Z
}.

(** The members of a select statement the code uses. *)
Record Stmt := mkStmt {
  condition_exprs_ : SE ptr 16;
  python_udf_filter_exprs_ : SE ptr 16;
  python_udf_exprs_ : SE ptr 8;
  select_items_ : list SelectItem;
  column_items_ : SE ColumnItem 16
}.
Definition with_conditions (s : Stmt) (c f : SE ptr 16) : Stmt :=
  mkStmt c f (python_udf_exprs_ s) (select_items_ s) (column_items_ s).
Definition with_filters (s : Stmt) (f : SE ptr 16) : Stmt := with_conditions s (condition_exprs_ s) f.
Definition with_udfs (s : Stmt) (u : SE ptr 8) : Stmt :=
  mkStmt (condition_exprs_ s) (python_udf_filter_exprs_ s) u (select_items_ s) (column_items_ s).

Section Stmt.
Context `{Allocator}.

(** ** The two lists *)
(** The first object of the list that is the same as [expr], or null. *)
Fixpoint first_same (same : ptr -> ptr -> option bool) (expr : ptr) (l : list ptr) : option ptr :=
  match l with
  | [] => Some NULL
  | p :: l' =>
      same_p ← (if negb (p =? NULL) && negb (expr =? NULL) then same expr p else Some false);
      if (same_p : bool) then Some p else first_same same expr l'
  end.
Definition add_expr `{ObIArray A ptr} (a : A) (expr : ptr) : option (Z * A) :=
  if expr =? NULL then Some (OB_ERR_UNEXPECTED, a) else ia_push_back a expr.
(** The loop of the two removals, from index [i]. *)
Fixpoint remove_loop `{ObIArray A ptr} (a : A) (expr : ptr) (l : list ptr) (i : Z) : Z * A :=
  match l with
  | [] => (OB_SUCCESS, a)
  | p :: l' =>
      if p =? NULL then (OB_ERR_UNEXPECTED, a)
      else if expr =? p then ia_remove a i else remove_loop a expr l' (i + 1)
  end.
Definition remove_expr `{ObIArray A ptr} (a : A) (expr : ptr) : Z * A :=
  if expr =? NULL then (OB_ERR_UNEXPECTED, a) else remove_loop a expr (items a) 0.

(** [ObDMLStmt]: conditions with Python functions; [same_as] of any two
    expressions is a parameter. *)
Definition get_same_python_udf_filter_item (same_as : ptr -> ptr -> option bool) (s : Stmt) (expr : ptr) : option ptr :=
  first_same same_as expr (items (python_udf_filter_exprs_ s)).
Definition add_python_udf_filter_expr (s : Stmt) (expr : ptr) : option (Z * Stmt) :=
  '(ret, f) ← add_expr (python_udf_filter_exprs_ s) expr; Some (ret, with_filters s f).
Definition remove_python_udf_filter_expr (s : Stmt) (expr : ptr) : Z * Stmt :=
  let '(ret, f) := remove_expr (python_udf_filter_exprs_ s) expr in (ret, with_filters s f).

(** [ObSelectStmt]: the calls.  [ObRawExpr::same_as] of two calls: the same
    object, or what [inner_same_as] says. *)
Definition same_as_udf (h : heap) (p q : ptr) : option bool :=
  if p =? q then Some true
  else e ← h !! p; e' ← h !! q; Some (ObPythonUdfRawExpr.inner_same_as (udf_meta_ e) (udf_meta_ e')).
Definition has_python_udf (s : Stmt) : bool := negb (ia_count (python_udf_exprs_ s) =? 0).
Definition get_same_python_udf_item (h : heap) (s : Stmt) (expr : ptr) : option ptr :=
  first_same (same_as_udf h) expr (items (python_udf_exprs_ s)).
Definition add_python_udf_expr (s : Stmt) (expr : ptr) : option (Z * Stmt) :=
  '(ret, u) ← add_expr (python_udf_exprs_ s) expr; Some (ret, with_udfs s u).
Definition remove_python_udf_expr (s : Stmt) (expr : ptr) : Z * Stmt :=
  let '(ret, u) := remove_expr (python_udf_exprs_ s) expr in (ret, with_udfs s u).

(** ** Conditions that call a function *)
(** The loop of [generate_python_udf_filters], at most [fuel] rounds; [i] is an
    [int], whose overflow has no defined result. *)
Fixpoint split_loop (fuel : nat) (h : heap) (i : Z) (c f : SE ptr 16) : option (Z * SE ptr 16 * SE ptr 16) :=
  match fuel with
  | O => None
  | S fuel' =>
      if i <? ia_count c then
        condition_expr ← items c !! Z.to_nat i;
        if condition_expr =? NULL then Some (OB_INVALID_ARGUMENT, c, f)
        else
          udf ← checkExprContainType h condition_expr T_FUN_PYTHON_UDF;
          if negb udf then if i =? 2 ^ 31 - 1 then None else split_loop fuel' h (i + 1) c f
          else
            '(ret, f) ← ia_push_back f condition_expr;
            if OB_FAIL ret then Some (ret, c, f)
            else let '(ret, c) := ia_remove c i in
                 if OB_FAIL ret then Some (ret, c, f) else split_loop fuel' h i c f
      else Some (OB_SUCCESS, c, f)
  end.
(** Each round takes a condition out or passes over one. *)
Definition generate_python_udf_filters (h : heap) (s : Stmt) : option (Z * Stmt) :=
  '(ret, c, f) ← split_loop (S (List.length (items (condition_exprs_ s)))) h 0 (condition_exprs_ s) (python_udf_filter_exprs_ s);
  Some (ret, with_conditions s c f).

(** ** The calls of an expression *)
(** [ObSelectResolver::resolve_python_udf_exprs]: the code, the expression, the
    heap and the statement. *)
Context (get_relation_exprs : heap -> ptr -> option (Z * list ptr)) (check_stack_overflow : Z * bool).
Fixpoint resolve_udf_loop (l : list ptr) (expr : ptr) (h : heap) (s : Stmt) : option (Z * ptr * heap * Stmt) :=
  match l with
  | [] => Some (OB_SUCCESS, expr, h, s)
  | p :: l' =>
      if p =? NULL then Some (OB_INVALID_ARGUMENT, expr, h, s)
      else
        final ← get_same_python_udf_item h s p;
        '(ret, expr, h, s) ←
          (if final =? NULL then '(ret, s) ← add_python_udf_expr s p; Some (ret, expr, h, s)
           else '(ret, expr, h) ← replace_ref_column get_relation_exprs check_stack_overflow (size h) p final h expr;
                Some (ret, expr, h, s));
        if OB_SUCC ret then resolve_udf_loop l' expr h s else Some (ret, expr, h, s)
  end.
Definition resolve_python_udf_exprs (expr : ptr) (stmt : option Stmt) (python_udf_exprs : list ptr) (h : heap) :
    option (Z * ptr * heap * option Stmt) :=
  match stmt with
  | Some s =>
      if expr =? NULL then Some (OB_INVALID_ARGUMENT, expr, h, stmt)
      else '(ret, expr, h, s) ← resolve_udf_loop python_udf_exprs expr h s; Some (ret, expr, h, Some s)
  | None => Some (OB_INVALID_ARGUMENT, expr, h, stmt)
  end.
(** [ObDMLResolver::resolve_python_udf_exprs], for the other statements. *)
Definition dml_resolve_python_udf_exprs : Z := OB_ERR_INVALID_PYTHON_UDF.
End Stmt.
