(* ===== verification/StmtFacts.v ===== *)
(** The loops of [UdfStmt] on lists. *)
From S2P Require Import Prelude FixedArray SEArray IArray HashArray SortedVector UdfSchema.
From S2P Require Import Serialization UdfObject BatchSize UdfMeta Frame UdfExpr RawExpr UdfStmt.

Section Facts.
Context `{Allocator}.
Abbreviation arr := (SE ptr 16).

(** An expression calls a Python function. *)
Definition calls_udf (h : heap) (p : ptr) : Prop := exists q e, sub h p q /\ h !! q = Some e /\ type_ e = T_FUN_PYTHON_UDF.
Definition calls (h : heap) (p : ptr) : bool := default false (checkExprContainType h p T_FUN_PYTHON_UDF).
Lemma calls_spec h p : ordered h -> is_Some (h !! p) ->
  checkExprContainType h p T_FUN_PYTHON_UDF = Some (calls h p) /\ (calls h p = true <-> calls_udf h p).
Proof.
  intros Ho Hp. unfold calls, checkExprContainType.
  destruct (contains_spec (fun _ e => bool_decide (type_ e = T_FUN_PYTHON_UDF)) h p Ho Hp) as (b & -> & Hb). cbn [default].
  split; [reflexivity |]. rewrite Hb. unfold calls_udf. now setoid_rewrite bool_decide_eq_true.
Qed.

Definition others (h : heap) (l : list ptr) : list ptr := List.filter (fun p => negb (calls h p)) l.

(** How far the loop came: the conditions [a] were split, [z] are as they were. *)
Definition stopped (ret : Z) (z : list ptr) : Prop :=
  ret = OB_SUCCESS /\ z = [] \/ ret = OB_INVALID_ARGUMENT /\ head z = Some NULL \/
  ret = OB_ALLOCATE_MEMORY_FAILED /\ exists k, alloc_ok k = false.

Lemma split_loop_spec h : ordered h -> forall fuel seen rest (c f : arr),
  (List.length rest < fuel)%nat -> ia_wf c -> ia_wf f -> items c = seen ++ rest ->
  (forall p, p ∈ rest -> p = NULL \/ is_Some (h !! p)) ->
  Z.of_nat (List.length seen + List.length rest) < 2 ^ 31 -> ia_count f + Z.of_nat (List.length rest) < 2 ^ 41 ->
  exists ret c' f' a z, split_loop fuel h (Z.of_nat (List.length seen)) c f = Some (ret, c', f') /\ ia_wf c' /\ ia_wf f' /\
    rest = a ++ z /\ items f' = items f ++ List.filter (calls h) a /\ items c' = seen ++ others h a ++ z /\ stopped ret z.
Proof.
  intros Ho. induction fuel as [| fuel IH]; intros seen rest c f Hfuel Hc Hf Ec Hobj Hn Hm; [lia |]. cbn [split_loop].
  unfold ia_count at 1. rewrite Ec, length_app. destruct rest as [| p rest].
  { rewrite (proj2 (Z.ltb_ge _ _)) by (simpl; lia). exists OB_SUCCESS, c, f, [], []. rewrite Ec, !app_nil_r. split_and!; auto. now left. }
  rewrite (proj2 (Z.ltb_lt _ _)) by (simpl; lia). rewrite Nat2Z.id, lookup_app_r, Nat.sub_diag by lia. cbn [lookup list_lookup mbind option_bind].
  cbn [List.length] in *. destruct (Z.eqb_spec p NULL) as [-> | Hp].
  { exists OB_INVALID_ARGUMENT, c, f, [], (NULL :: rest). unfold others. cbn [List.filter app]. rewrite app_nil_r, Ec. split_and!; auto. right. now left. }
  destruct (Hobj p) as [? | Hin]; [left | easy |]. destruct (calls_spec h p Ho Hin) as [-> _]. cbn [mbind option_bind].
  assert (forall q, q ∈ rest -> q = NULL \/ is_Some (h !! q)) as Hobj' by (intros; apply Hobj; now right).
  destruct (calls h p) eqn:Ep; cbn [negb].
  - destruct (ia_push_law f p Hf ltac:(lia)) as (ret & f1 & -> & Hf1 & [[-> Hi] | (-> & Hi & Hk)]); cbn [mbind option_bind].
    + change (OB_FAIL OB_SUCCESS) with false. cbn iota.
      destruct (ia_remove_law c (Z.of_nat (List.length seen)) Hc) as (c1 & -> & Hc1 & Hd).
      { unfold ia_count. rewrite Ec, length_app. simpl. lia. }
      change (OB_FAIL OB_SUCCESS) with false. cbn iota. rewrite Ec, Nat2Z.id, delete_middle in Hd.
      destruct (IH seen rest c1 f1 ltac:(lia) Hc1 Hf1 Hd Hobj' ltac:(lia)) as (ret & c' & f' & a & z & E & Hc' & Hf' & -> & Ef & Ec' & Hs).
      { unfold ia_count in *. rewrite Hi, length_app. cbn [List.length]. lia. }
      exists ret, c', f', (p :: a), z. split_and!; auto; unfold others; cbn [List.filter]; rewrite Ep; cbn [negb]; [| exact Ec']. now rewrite Ef, Hi, <- app_assoc.
    + exists OB_ALLOCATE_MEMORY_FAILED, c, f1, [], (p :: rest). unfold others. cbn [List.filter app]. rewrite app_nil_r, Ec. split_and!; auto. right. now right.
  - destruct (Z.eqb_spec (Z.of_nat (List.length seen)) (2 ^ 31 - 1)); [lia |].
    assert (items c = (seen ++ [p]) ++ rest) as Ec1 by now rewrite Ec, <- app_assoc.
    destruct (IH (seen ++ [p]) rest c f ltac:(lia) Hc Hf Ec1 Hobj') as (ret & c' & f' & a & z & E & Hc' & Hf' & -> & Ef & Ec' & Hs).
    { rewrite length_app. simpl. lia. }
    { lia. }
    exists ret, c', f', (p :: a), z. rewrite length_app in E. cbn [List.length] in E.
    replace (Z.of_nat (List.length seen + 1)) with (Z.of_nat (List.length seen) + 1) in E by lia.
    split_and!; auto; unfold others in *; cbn [List.filter]; rewrite Ep; cbn [negb]; [exact Ef |]. now rewrite Ec', <- app_assoc.
Qed.

(** ** The calls of an expression *)
Lemma first_same_fresh h l p : (forall q, q ∈ l -> is_Some (h !! q)) -> is_Some (h !! p) -> p ∉ l ->
  first_same (same_as_udf h) p l = Some NULL.
Proof.
  intros Hl [e He]. induction l as [| q l IH]; intros Hp; [reflexivity |]. cbn [first_same].
  destruct (Hl q) as [e' He']; [left |].
  assert ((if negb (q =? NULL) && negb (p =? NULL) then same_as_udf h p q else Some false) = Some false) as ->.
  { case_match; [| reflexivity]. unfold same_as_udf. destruct (Z.eqb_spec p q) as [-> | _]; [destruct Hp; left |].
    rewrite He, He'. reflexivity. }
  cbn. apply IH; [intros; apply Hl; now right |]. intros ?. apply Hp. now right.
Qed.

Lemma resolve_udf_loop_spec rel stk h expr : h !! NULL = None -> forall l s,
  ia_wf (python_udf_exprs_ s) -> (forall q, q ∈ l -> is_Some (h !! q)) -> (forall q, q ∈ items (python_udf_exprs_ s) -> is_Some (h !! q)) ->
  NoDup (items (python_udf_exprs_ s) ++ l) -> ia_count (python_udf_exprs_ s) + Z.of_nat (List.length l) < 2 ^ 41 ->
  exists ret u, resolve_udf_loop rel stk l expr h s = Some (ret, expr, h, with_udfs s u) /\ ia_wf u /\
    (ret = OB_SUCCESS /\ items u = items (python_udf_exprs_ s) ++ l \/
     ret = OB_ALLOCATE_MEMORY_FAILED /\ (exists l', l' `prefix_of` l /\ items u = items (python_udf_exprs_ s) ++ l') /\ exists k, alloc_ok k = false).
Proof.
  intros Hnull. induction l as [| p l IH]; intros s Hw Hl Hs Hn Hc; cbn [resolve_udf_loop].
  { exists OB_SUCCESS, (python_udf_exprs_ s). rewrite app_nil_r. split_and!; auto. now destruct s. }
  destruct (Hl p) as [e He]; [left |]. destruct (Z.eqb_spec p NULL); [congruence |]. cbn [List.length] in Hc.
  unfold get_same_python_udf_item. rewrite first_same_fresh; [| exact Hs | eauto |].
  2: { apply NoDup_app in Hn as (_ & Hd & _). intros Hp. apply (Hd p Hp). left. }
  cbn [mbind option_bind]. change (NULL =? NULL) with true. cbn iota. unfold add_python_udf_expr, add_expr.
  destruct (Z.eqb_spec p NULL); [easy |].
  destruct (ia_push_law (python_udf_exprs_ s) p Hw ltac:(lia)) as (ret & u & -> & Hu & [[-> Hi] | (-> & Hi & Hk)]); cbn [mbind option_bind].
  - change (OB_SUCC OB_SUCCESS) with true. cbn iota. destruct (IH (with_udfs s u)) as (ret & u' & -> & Hu' & Hcase).
    + exact Hu.
    + intros; apply Hl; now right.
    + cbn [python_udf_exprs_ with_udfs]. rewrite Hi. intros q [? | ->%list_elem_of_singleton]%elem_of_app; eauto.
    + cbn [python_udf_exprs_ with_udfs]. now rewrite Hi, <- app_assoc.
    + unfold ia_count in *. cbn [python_udf_exprs_ with_udfs]. rewrite Hi, length_app. cbn [List.length]. lia.
    + exists ret, u'. split_and!; auto. cbn [python_udf_exprs_ with_udfs] in Hcase. rewrite Hi, <- app_assoc in Hcase.
      destruct Hcase as [? | (? & (l' & [l2 ->] & ?) & ?)]; [now left |]. right. split_and!; auto. exists (p :: l').
      rewrite <- app_assoc in *. split; [now exists l2 | assumption].
  - exists OB_ALLOCATE_MEMORY_FAILED, u. split_and!; auto. right. split_and!; auto. exists []. rewrite app_nil_r. split; [apply prefix_nil | exact Hi].
Qed.
End Facts.
