(* ===== verification/UdfCall.v ===== *)
(** A call of a Python function in a query: [ObRawExprResolverImpl::check_udf_info]
    and [process_python_udf_node]
    ([src/sql/resolver/expr/ob_raw_expr_resolver_impl.cpp]), the look-up of the
    function through [ObSchemaChecker] and [ObSchemaGetterGuard], and
    [ObRawExprUtils::function_alias] ([ob_raw_expr_util.cpp]).

    The resolver of the parameters and the rest of the session answer from a
    class and a record; a call may leave by an exception of [std::stoi]. *)
From S2P Require Import Prelude FixedArray SEArray IArray HashArray SortedVector UdfSchema.
From S2P Require Import Serialization UdfObject SqlText SqlClient UdfDdl BatchSize UdfMeta.
From S2P Require Import Frame UdfExpr RawExpr.
Import ObString.

(** ** The parse tree *)
Inductive NodeType := T_EXPR_LIST | T_DROP_PYTHON_UDF | T_IF_EXISTS | T_NODE (n : Z).
#[global] Instance node_type_eq_dec : EqDecision NodeType.
Proof. solve_decision. Defined.
Inductive ParseNode := PNode (type : NodeType) (str_value : bytes) (children : list (option ParseNode)).
Definition node_type (n : ParseNode) : NodeType := let 'PNode t _ _ := n in t.
Definition str_value_ (n : ParseNode) : bytes := let 'PNode _ s _ := n in s.
Definition children_ (n : ParseNode) : list (option ParseNode) := let 'PNode _ _ c := n in c.
Definition node_children (n : ParseNode) : Z := Z.of_nat (List.length (children_ n)).
(** [node->children_[i]], which is read: an index out of range has no defined
    result. *)
Definition child (n : ParseNode) (i : Z) : option (option ParseNode) :=
  if i <? 0 then None else children_ n !! Z.to_nat i.

(** [std::stoi]: blanks, a sign and digits; [None] when it throws. *)
Definition is_space (c : Z) : bool := (c =? 32) || ((9 <=? c) && (c <=? 13)).
Definition stoi (s : bytes) : option Z :=
  let '(_, s) := span is_space (c_str s) in
  let '(neg, s) := match s with c :: s' => if c =? 45 then (true, s') else if c =? 43 then (false, s') else (false, s) | [] => (false, s) end in
  '(v, _) ← p_nat s;
  let v := if neg then - v else v in
  if (- 2 ^ 31 <=? v) && (v <? 2 ^ 31) then Some v else None.

(** ** The context of the resolver *)
Inductive ObStmtScope := T_FIELD_LIST_SCOPE | T_WHERE_SCOPE | T_SCOPE (n : Z).
Definition is_python_udf_expr_valid_scope (scope : ObStmtScope) : bool :=
  match scope with T_FIELD_LIST_SCOPE | T_WHERE_SCOPE => true | T_SCOPE _ => false end.
(** The members of [parents_expr_info_] the function asks for. *)
Record Parents := mkParents { IS_AGG : bool; IS_WINDOW_FUNC : bool; IS_PYTHON_UDF : bool }.
Definition with_udf (ps : Parents) (b : bool) : Parents := mkParents (IS_AGG ps) (IS_WINDOW_FUNC ps) b.

Record Ctx := mkCtx {
  current_scope_ : ObStmtScope;
  has_session : bool;
  has_schema_checker : bool;
  get_collation_connection : Z;
  effective_tenant_id : Z;
  has_schema_mgr : bool;
  (** The factory of expressions: the sizes of the two classes, the code of
      storing an object in its list, and of [extract_info] of a constant. *)
  sizeof_udf_expr : Z; sizeof_const_expr : Z; store_obj : Z; extract_info : Z;
  (** [parents_expr_info_.add_member] and [del_member]: the flag is behind the
      bits the set holds without memory of its own. *)
  add_member : Z; del_member : Z
}.
(** What the resolver changes: the objects, the flags, and the calls found. *)
Record St (A : Type) := mkSt { st_heap : heap; parents_expr_info_ : Parents; ctx_udfs : A }.
Arguments mkSt {A}. Arguments st_heap {A}. Arguments parents_expr_info_ {A}. Arguments ctx_udfs {A}.
Definition with_heap {A} (st : St A) (h : heap) : St A := mkSt h (parents_expr_info_ st) (ctx_udfs st).
Definition with_parents {A} (st : St A) (ps : Parents) : St A := mkSt (st_heap st) ps (ctx_udfs st).

(** The rest of the resolver. *)
Class Resolver (A : Type) := {
  (** The address the next object gets. *)
  new_addr : heap -> ptr;
  (** [ObCharset::casedn(CS_TYPE_UTF8MB4_GENERAL_CI, s)]. *)
  casedn : bytes -> bytes;
  (** [recursive_resolve(node, expr)]: the code, the expression, the state. *)
  recursive_resolve : ParseNode -> ptr -> St A -> option (outcome (Z * ptr * St A))
}.

Section Call.
Context `{Allocator, SqlClient, ObIArray A ptr, Resolver A} (cx : Ctx).

(** ** Expressions *)
Definition fresh_expr (type : ItemType) : RawExpr := mkRaw type ia_new ObPythonUDFMeta.new [] 0 0 [].
(** [create_raw_expr_inner], without a proxy. *)
Definition create_raw_expr (sizeof : Z) (type : ItemType) (h : heap) : Z * ptr * heap :=
  if negb (alloc_ok sizeof) then (OB_ALLOCATE_MEMORY_FAILED, NULL, h)
  else if OB_FAIL (store_obj cx) then (store_obj cx, NULL, h)
  else (OB_SUCCESS, new_addr h, <[new_addr h := fresh_expr type]> h).
Definition set_exprs (e : RawExpr) (a : SE ptr COMMON_MULTI_NUM) : RawExpr :=
  mkRaw (type_ e) a (udf_meta_ e) (func_name_ e) (table_id_ e) (column_id_ e) (column_name_ e).
Definition set_meta (e : RawExpr) (m : ObPythonUDFMeta.t) : RawExpr :=
  mkRaw (type_ e) (exprs_ e) m (func_name_ e) (table_id_ e) (column_id_ e) (column_name_ e).
Definition set_func_name (e : RawExpr) (s : bytes) : RawExpr :=
  mkRaw (type_ e) (exprs_ e) (udf_meta_ e) s (table_id_ e) (column_id_ e) (column_name_ e).
Definition add_param_expr (h : heap) (p q : ptr) : option (Z * heap) :=
  e ← h !! p; '(ret, a) ← ia_push_back (exprs_ e) q; Some (ret, <[p := set_exprs e a]> h).

(** [0 == s.case_compare(t)], ignoring the case of letters. *)
Definition lower (c : Z) : Z := if (65 <=? c) && (c <=? 90) then c + 32 else c.
Definition case_equal (s t : bytes) : bool := bool_decide (map lower s = map lower t).
Definition build_const_int_expr (h : heap) : Z * ptr * heap :=
  let '(ret, p, h) := create_raw_expr (sizeof_const_expr cx) (T_ITEM 5) h in
  if OB_FAIL ret then (ret, NULL, h) else if OB_FAIL (extract_info cx) then (extract_info cx, NULL, h) else (OB_SUCCESS, p, h).
(** [function_alias]: [bin(N)] and [oct(N)] become [conv(N, 10, 2)] and
    [conv(N, 10, 8)], by two more parameters. *)
Definition function_alias (h : heap) (p : ptr) : option (Z * heap) :=
  e ← h !! p;
  if case_equal (func_name_ e) (chars "bin") || case_equal (func_name_ e) (chars "oct") then
    let '(ret, from_base, h) := build_const_int_expr h in
    if OB_FAIL ret then Some (ret, h)
    else
      let '(ret, to_base, h) := build_const_int_expr h in
      if OB_FAIL ret then Some (ret, h)
      else
        e ← h !! p;
        if negb (1 =? ia_count (exprs_ e)) then Some (OB_ERR_PARAM_SIZE, h)
        else
          '(ret, h) ← add_param_expr h p from_base;
          if OB_FAIL ret then Some (ret, h) else add_param_expr h p to_base
  else Some (OB_SUCCESS, h).

(** ** The function *)
(** [ObSchemaGetterGuard::get_python_udf_info] and, before it,
    [ObSchemaChecker::get_python_udf_info]. *)
Definition guard_get_python_udf_info (tenant_id : Z) (name : bytes) (u : ObPythonUDF.t) (d : Data) :
    option (Z * bool * ObPythonUDF.t) := get_python_udf_info tenant_id name u d.
Definition checker_get_python_udf_info (tenant_id : Z) (name : bytes) (u : ObPythonUDF.t) (d : Data) :
    option (Z * bool * ObPythonUDF.t) :=
  if (OB_INVALID_ID =? tenant_id) || ObString.empty name then Some (OB_INVALID_ARGUMENT, false, u)
  else if negb (has_schema_mgr cx) then Some (OB_NOT_INIT, false, u)
  else guard_get_python_udf_info tenant_id name u d.

(** [check_udf_info]: a null node of a function without parameters is read. *)
Definition check_udf_info (expr_list_node : option ParseNode) (u : ObPythonUDF.t) : option Z :=
  match expr_list_node with
  | None => if 0 <? ObPythonUDF.arg_num_ u then Some OB_ERR_UNEXPECTED else None
  | Some n =>
      if negb (bool_decide (node_type n = T_EXPR_LIST)) then Some OB_ERR_PARSER_SYNTAX
      else
        let expr_arg_num := node_children n in
        let arg_num := ObPythonUDF.arg_num_ u in
        Some (if (arg_num <? expr_arg_num) || (expr_arg_num <? arg_num) then OB_INVALID_ARGUMENT else OB_SUCCESS)
  end.

(** The loop over the parameters of the node. *)
Fixpoint resolve_params (nodes : list (option ParseNode)) (func_expr param_expr : ptr) (st : St A) :
    option (outcome (Z * St A)) :=
  match nodes with
  | [] => Some (Returns (OB_SUCCESS, st))
  | None :: _ => Some (Returns (OB_ERR_UNEXPECTED, st))
  | Some node :: nodes' =>
      if OB_FAIL (add_member cx) then Some (Returns (add_member cx, st))
      else
        let st := with_parents st (with_udf (parents_expr_info_ st) true) in
        r ← recursive_resolve node param_expr st;
        match (r : outcome (Z * ptr * St A)) with
        | Throws => Some Throws
        | Returns (ret, param_expr, st) =>
            if OB_FAIL ret then Some (Returns (ret, st))
            else if OB_FAIL (del_member cx) then Some (Returns (del_member cx, st))
            else
              let st := with_parents st (with_udf (parents_expr_info_ st) false) in
              '(ret, h) ← add_param_expr (st_heap st) func_expr param_expr;
              let st := with_heap st h in
              if OB_FAIL ret then Some (Returns (ret, st)) else resolve_params nodes' func_expr param_expr st
        end
  end.

(** The branches of [process_python_udf_node] from [check_udf_info] on, for the
    function that was found: the code, the expression created ([NULL] when there
    is none), the name and the state. *)
Definition call_function (list_node : option ParseNode) (udf_info : ObPythonUDF.t) (batch_size : Z) (udf_name : bytes) (st : St A) :
    option (outcome (Z * ptr * bytes * St A)) :=
  ret ← check_udf_info list_node udf_info;
  if OB_FAIL ret then Some (Returns (ret, NULL, udf_name, st))
  else
    let '(ret, func_expr, h) := create_raw_expr (sizeof_udf_expr cx) T_FUN_PYTHON_UDF (st_heap st) in
    if OB_FAIL ret then Some (Returns (ret, NULL, udf_name, st))
    else
      e ← h !! func_expr;
      '(ret, meta) ← ObPythonUDFMeta.set_udf_meta true (udf_meta_ e) udf_info batch_size;
      let st := with_heap st (<[func_expr := set_meta e meta]> h) in
      if OB_FAIL ret then Some (Returns (ret, func_expr, udf_name, st))
      else
        list_node ← list_node;
        if negb (ObPythonUDF.arg_num_ udf_info =? node_children list_node) then Some (Returns (ret, func_expr, udf_name, st))
        else
          r ← resolve_params (children_ list_node) func_expr NULL st;
          Some (match (r : outcome (Z * St A)) with
                | Throws => Throws
                | Returns (ret, st) => Returns (ret, func_expr, udf_name, st)
                end).

(** Those before: the name, in lower case, and the look-up. *)
Definition resolve_call (node : ParseNode) (batch_size : Z) (name : bytes) (st : St A) (d : Data) :
    option (outcome (Z * ptr * bytes * St A)) :=
  '(ret, s) ← ob_write_string (obstr_of name);
  let udf_name := default [] (obstr_bytes s) in
  if OB_FAIL ret then Some (Returns (OB_ALLOCATE_MEMORY_FAILED, NULL, udf_name, st))
  else
    let udf_name := casedn udf_name in
    '(ret, existed, udf_info) ← checker_get_python_udf_info (effective_tenant_id cx) udf_name ObPythonUDF.new d;
    if OB_FAIL ret then Some (Returns (ret, NULL, udf_name, st))
    else if negb existed then Some (Returns (OB_ERR_FUNCTION_UNKNOWN, NULL, udf_name, st))
    else list_node ← child node (node_children node - 1); call_function list_node udf_info batch_size udf_name st.

(** The name, the alias, and the list of calls. *)
Definition finish_call (ret : Z) (func_expr : ptr) (udf_name : bytes) (expr : ptr) (st : St A) : option (Z * ptr * St A) :=
  '(ret, expr, st) ←
    (if OB_SUCC ret then
       e ← st_heap st !! func_expr;
       let h := <[func_expr := set_func_name e udf_name]> (st_heap st) in
       '(ret, h) ← function_alias h func_expr;
       Some (ret, if OB_FAIL ret then expr else func_expr, with_heap st h)
     else Some (ret, expr, st));
  if OB_FAIL ret then Some (ret, expr, st)
  else '(ret, l) ← ia_push_back (ctx_udfs st) func_expr; Some (ret, expr, mkSt (st_heap st) (parents_expr_info_ st) l).

Definition process_python_udf_node (node : option ParseNode) (expr : ptr) (st : St A) (d : Data) :
    option (outcome (Z * ptr * St A)) :=
  let ps := parents_expr_info_ st in
  if negb (is_python_udf_expr_valid_scope (current_scope_ cx)) || IS_AGG ps || IS_WINDOW_FUNC ps || IS_PYTHON_UDF ps
  then Some (Returns (OB_ERR_INVALID_PYTHON_UDF, expr, st))
  else if negb (has_session cx) || negb (has_schema_checker cx) then Some (Returns (OB_ERR_FUNCTION_UNKNOWN, expr, st))
  else match node with
       | None => Some (Returns (OB_INVALID_ARGUMENT, expr, st))
       | Some node =>
           if OB_FAIL (get_collation_connection cx) then Some (Returns (get_collation_connection cx, expr, st))
           else if node_children node <? 1 then Some (Returns (OB_ERR_PARSER_SYNTAX, expr, st))
           else
             let child_num := node_children node in
             batch ← (if child_num =? 3 then first ← child node 0; first ← first; Some (stoi (str_value_ first)) else Some (Some 0));
             match (batch : option Z) with
             | None => Some Throws
             | Some batch_size =>
                 name_node ← child node (child_num - 2); name_node ← name_node;
                 r ← resolve_call node batch_size (str_value_ name_node) st d;
                 match (r : outcome (Z * ptr * bytes * St A)) with
                 | Throws => Some Throws
                 | Returns (ret, func_expr, udf_name, st) => Returns <$> finish_call ret func_expr udf_name expr st
                 end
             end
       end.
End Call.
