(* ===== verification/CallFacts.v ===== *)
(** What [UdfCall] does with a call the grammar builds, when its parameters
    resolve and memory does not run out. *)
From S2P Require Import Prelude FixedArray SEArray IArray HashArray SortedVector UdfSchema.
From S2P Require Import Serialization UdfObject BatchSize UdfMeta SerialFacts UdfFacts Frame.
From S2P Require Import UdfExpr RawExpr.
From S2P Require Import SqlText SqlClient UdfDdl SqlFacts DdlFacts DdlRep DdlSteps DdlRequests.
From S2P Require Import UdfCall.
Import ObString.

(** What is relied on of the rest of the resolver: addresses are new, and lower
    case does not change the key of a name nor make it longer. *)
Class ResolverLaws `{SqlTable} (A : Type) `{Resolver A} := {
  new_addr_law h : new_addr h <> NULL /\ h !! new_addr h = None;
  casedn_collate s : collate (casedn s) = collate s;
  casedn_plain s : plain s -> plain (casedn s);
  casedn_nonempty s : s <> [] -> casedn s <> [];
  casedn_length s : length (casedn s) <= length s
}.

(** A call as the grammar builds it: [PREDICT name(args)] or
    [PREDICT (batch) name(args)]. *)
Definition call_node (name : bytes) (args : list (option ParseNode)) (batch : option bytes) : ParseNode :=
  let rest := [Some (PNode (T_NODE 0) name []); Some (PNode T_EXPR_LIST [] args)] in
  PNode (T_NODE 1) [] (match batch with Some b => Some (PNode (T_NODE 2) b []) :: rest | None => rest end).
Definition batch_asked (batch : option bytes) (bs : Z) : Prop :=
  match batch with Some b => stoi b = Some bs | None => bs = 0 end.
(** The batch size the metadata of a call gets: one from 256 to 8192 is taken and
    stays; without one, or with one out of that range, it is 256 and adapts. *)
Definition takes_batch (m : ObPythonUDFMeta.t) (bs : Z) : Prop :=
  (256 <= bs <= 8192 -> ObPythonUDFMeta.batch_size_ m = bs /\ ObPythonUDFMeta.batch_size_const_ m = true) /\
  (~ 256 <= bs <= 8192 -> ObPythonUDFMeta.batch_size_ m = 256 /\ ObPythonUDFMeta.batch_size_const_ m = false).
Lemma asked_takes m bs : (ObPythonUDFMeta.batch_size_ m, ObPythonUDFMeta.batch_size_const_ m) = asked_batch ObPythonUDFMeta.new bs -> takes_batch m bs.
Proof.
  unfold asked_batch, takes_batch. destruct (Z.eqb_spec 0 bs), (Z.ltb_spec bs 256), (Z.ltb_spec 8192 bs); cbn; intros [= -> ->];
    split; intros; try split; (reflexivity || lia).
Qed.

Section Facts.
Context `{Hal : Allocator} `{Hlaws : SqlLaws} `{OA : ObIArray A ptr} {LA : ObIArrayLaws A ptr} `{HR : Resolver A} {HRL : ResolverLaws A}.
Context (Hmem : forall n, alloc_ok n = true) (Hup : forall t text d, sql_up t text d = true) (cx : Ctx).

(** Calls are allowed, and the session and the sets work. *)
Definition ctx_ok : Prop :=
  is_python_udf_expr_valid_scope (current_scope_ cx) = true /\ has_session cx = true /\ has_schema_checker cx = true /\ get_collation_connection cx = OB_SUCCESS /\
  has_schema_mgr cx = true /\ store_obj cx = OB_SUCCESS /\ extract_info cx = OB_SUCCESS /\ add_member cx = OB_SUCCESS /\ del_member cx = OB_SUCCESS.
Definition no_parents : Parents := mkParents false false false.

(** A parameter resolves, whatever was resolved before: to an object, with other
    objects unchanged and no call of its own. *)
Definition resolvable (n : option ParseNode) : Prop :=
  exists node, n = Some node /\ forall prev (st : St A), exists q st',
    recursive_resolve node prev st = Some (Returns (OB_SUCCESS, q, st')) /\ is_Some (st_heap st' !! q) /\
    st_heap st ⊆ st_heap st' /\ parents_expr_info_ st' = parents_expr_info_ st /\ ctx_udfs st' = ctx_udfs st.
(** The expression a parameter resolved to. *)
Definition resolved_to (n : option ParseNode) (q : ptr) : Prop :=
  exists node prev (st st' : St A), n = Some node /\ recursive_resolve node prev st = Some (Returns (OB_SUCCESS, q, st')).

Lemma add_param_ok h p q e : h !! p = Some e -> ia_wf (exprs_ e) -> ia_count (exprs_ e) < 2 ^ 41 ->
  exists a, add_param_expr h p q = Some (OB_SUCCESS, <[p := set_exprs e a]> h) /\ ia_wf a /\ items a = params e ++ [q].
Proof.
  intros He Hw Hc. unfold add_param_expr. rewrite He. cbn [mbind option_bind].
  destruct (ia_push_law (exprs_ e) q Hw Hc) as (ret & a & -> & Ha & [[-> Hi] | (_ & _ & k & Hk)]); [| now rewrite Hmem in Hk].
  cbn [mbind option_bind]. eauto.
Qed.

Lemma resolve_params_ok nodes : ctx_ok -> Forall resolvable nodes -> forall p prev (st : St A) e,
  st_heap st !! p = Some e -> ia_wf (exprs_ e) -> ia_count (exprs_ e) + Z.of_nat (List.length nodes) < 2 ^ 41 ->
  parents_expr_info_ st = no_parents ->
  exists st' a qs, resolve_params cx nodes p prev st = Some (Returns (OB_SUCCESS, st')) /\ ia_wf a /\
    st_heap st' !! p = Some (set_exprs e a) /\ items a = params e ++ qs /\ Forall2 resolved_to nodes qs /\
    (forall q x, q <> p -> st_heap st !! q = Some x -> st_heap st' !! q = Some x) /\
    (forall q, q ∈ qs -> is_Some (st_heap st' !! q)) /\
    parents_expr_info_ st' = no_parents /\ ctx_udfs st' = ctx_udfs st.
Proof.
  intros (_ & _ & _ & _ & _ & _ & _ & Eadd & Edel) Hn. induction Hn as [| n nodes Hn _ IH]; intros p prev st e He Hw Hc Hps; cbn [resolve_params].
  { exists st, (exprs_ e), []. rewrite app_nil_r. split_and!; auto; [now destruct e |]. intros q Hq. now apply not_elem_of_nil in Hq. }
  destruct Hn as (node & -> & Hres). rewrite Eadd, Edel. change (OB_FAIL OB_SUCCESS) with false. cbn iota.
  destruct (Hres prev (with_parents st (with_udf (parents_expr_info_ st) true))) as (q & st1 & Er & Hq & Hsub & Hp1 & Hu1).
  rewrite Er. cbn [mbind option_bind]. change (OB_FAIL OB_SUCCESS) with false. cbn iota. cbn [st_heap with_parents ctx_udfs] in Hsub, Hu1.
  cbn [List.length] in Hc. assert (st_heap st1 !! p = Some e) as He1 by (eapply lookup_weaken; eassumption).
  destruct (add_param_ok (st_heap st1) p q e He1 Hw ltac:(lia)) as (a & Ea & Ha & Hi).
  cbn [st_heap with_parents]. rewrite Ea. cbn [mbind option_bind]. change (OB_FAIL OB_SUCCESS) with false. cbn iota.
  set (st2 := with_heap _ _).
  destruct (IH p q st2 (set_exprs e a)) as (st3 & a3 & qs & -> & Ha3 & He3 & Hi3 & Hf & Hk & Hobj & Hp3 & Hu3).
  - apply lookup_insert_eq.
  - exact Ha.
  - unfold ia_count, params in *. cbn [exprs_ set_exprs]. rewrite Hi, length_app. cbn [List.length]. lia.
  - change (with_udf (parents_expr_info_ st1) false = no_parents). rewrite Hp1. cbn [parents_expr_info_ with_parents]. now rewrite Hps.
  - assert (forall x y, x <> p -> st_heap st1 !! x = Some y -> st_heap st3 !! x = Some y) as Hkeep.
    { intros x y Hx Hy. apply Hk; [exact Hx |]. change (st_heap st2) with (<[p := set_exprs e a]> (st_heap st1)). now rewrite lookup_insert_ne. }
    exists st3, a3, (q :: qs). split_and!; auto.
    + rewrite Hi3. cbn [params exprs_ set_exprs]. unfold params at 1. cbn [exprs_ set_exprs]. now rewrite Hi, <- app_assoc.
    + constructor; [| exact Hf]. now exists node, prev, (with_parents st (with_udf (parents_expr_info_ st) true)), st1.
    + intros x y Hx Hy. apply Hkeep; [exact Hx |]. eapply lookup_weaken; eassumption.
    + intros x [-> | Hx]%elem_of_cons; [| auto]. destruct Hq as [y Hy]. destruct (decide (q = p)) as [-> | Hne]; eauto.
    + now rewrite Hu3.
Qed.

Lemma build_const_ok h : ctx_ok -> build_const_int_expr cx h = (OB_SUCCESS, new_addr h, <[new_addr h := fresh_expr (T_ITEM 5)]> h).
Proof.
  intros (_ & _ & _ & _ & _ & Es & Ex & _). unfold build_const_int_expr, create_raw_expr. now rewrite Hmem, Es, Ex.
Qed.
(** No alias. *)
Lemma function_alias_none h p e : h !! p = Some e -> case_equal (func_name_ e) (chars "bin") = false ->
  case_equal (func_name_ e) (chars "oct") = false -> function_alias cx h p = Some (OB_SUCCESS, h).
Proof. intros He Hb Ho. unfold function_alias. rewrite He. cbn [mbind option_bind]. now rewrite Hb, Ho. Qed.
(** A function named [bin] or [oct] of one parameter gets two more. *)
Lemma function_alias_adds h p e : ctx_ok -> h !! p = Some e -> ia_wf (exprs_ e) -> List.length (params e) = 1%nat ->
  case_equal (func_name_ e) (chars "bin") || case_equal (func_name_ e) (chars "oct") = true ->
  exists h' e', function_alias cx h p = Some (OB_SUCCESS, h') /\ h' !! p = Some e' /\ List.length (params e') = 3%nat.
Proof.
  intros Hcx He Hw Hl Hname. unfold function_alias. rewrite He. cbn [mbind option_bind]. rewrite Hname.
  rewrite (build_const_ok h Hcx). change (OB_FAIL OB_SUCCESS) with false. cbn iota.
  rewrite build_const_ok by exact Hcx. change (OB_FAIL OB_SUCCESS) with false. cbn iota.
  set (p1 := new_addr h). set (h1 := <[p1 := fresh_expr (T_ITEM 5)]> h). set (p2 := new_addr h1). set (h2 := <[p2 := fresh_expr (T_ITEM 5)]> h1).
  destruct (new_addr_law h) as [_ N1]. destruct (new_addr_law h1) as [_ N2]. fold p1 in N1. fold p2 in N2.
  assert (h1 !! p = Some e) as He1 by (unfold h1; rewrite lookup_insert_ne by congruence; exact He).
  assert (h2 !! p = Some e) as He2 by (unfold h2; rewrite lookup_insert_ne by congruence; exact He1).
  rewrite He2. cbn [mbind option_bind]. unfold ia_count. change (items (exprs_ e)) with (params e). rewrite Hl. cbn [negb Z.of_nat Z.eqb Pos.of_succ_nat Pos.eqb].
  destruct (add_param_ok h2 p p1 e He2 Hw) as (a & -> & Ha & Hi); [unfold ia_count; change (items (exprs_ e)) with (params e); rewrite Hl; reflexivity |].
  cbn [mbind option_bind]. change (OB_FAIL OB_SUCCESS) with false. cbn iota.
  destruct (add_param_ok (<[p := set_exprs e a]> h2) p p2 (set_exprs e a)) as (b & -> & Hb & Hj); [apply lookup_insert_eq | exact Ha | |].
  { unfold ia_count. cbn [exprs_ set_exprs]. rewrite Hi, length_app, Hl. reflexivity. }
  eexists _, _. split_and!; [reflexivity | apply lookup_insert_eq |]. unfold params at 1. cbn [exprs_ set_exprs].
  rewrite Hj. unfold params at 1. cbn [exprs_ set_exprs]. now rewrite Hi, !length_app, Hl.
Qed.

(** The look-up through checker and guard. *)
Lemma checker_ok d g t name : ctx_ok -> rep d g -> plain name -> name <> [] -> length name < 2 ^ 27 -> t <> OB_INVALID_ID ->
  checker_get_python_udf_info cx t (casedn name) ObPythonUDF.new d =
  Some (match g !! key t name with
        | Some f => (OB_SUCCESS, true, of_fn t [] f)
        | None => (OB_SUCCESS, false, ObPythonUDF.new)
        end).
Proof.
  intros (_ & _ & _ & _ & Em & _) Hr Hn Hne Hl Ht. unfold checker_get_python_udf_info. rewrite Em. cbn [negb].
  pose proof (casedn_nonempty name Hne) as Hcne. pose proof (casedn_length name) as Hcl.
  assert ((OB_INVALID_ID =? t) || ObString.empty (casedn name) = false) as ->.
  { apply orb_false_iff. split; [apply Z.eqb_neq; congruence |]. now destruct (casedn name). }
  unfold guard_get_python_udf_info. rewrite (lookup_healthy Hmem Hup d g t (casedn name) ObPythonUDF.new Hr (casedn_plain name Hn) Hcne ltac:(lia) Ht).
  unfold key. now rewrite casedn_collate.
Qed.

(** ** The cases of a call *)
(** The common part: the node is read, the name copied and lowered. *)
Definition call_after (st : St A) (d : Data) (name : bytes) (args : list (option ParseNode)) (bs : Z) (expr : ptr) :
    option (outcome (Z * ptr * St A)) :=
  r ← ('(ret, existed, udf_info) ← checker_get_python_udf_info cx (effective_tenant_id cx) (casedn name) ObPythonUDF.new d;
       if OB_FAIL ret then Some (Returns (ret, NULL, casedn name, st))
       else if negb existed then Some (Returns (OB_ERR_FUNCTION_UNKNOWN, NULL, casedn name, st))
       else call_function cx (Some (PNode T_EXPR_LIST [] args)) udf_info bs (casedn name) st);
  match (r : outcome (Z * ptr * bytes * St A)) with
  | Throws => Some Throws
  | Returns (ret, func_expr, udf_name, st) => Returns <$> finish_call cx ret func_expr udf_name expr st
  end.

Lemma call_enters st d name args batch bs expr : ctx_ok -> plain name -> name <> [] -> length name < 2 ^ 27 -> batch_asked batch bs ->
  parents_expr_info_ st = no_parents ->
  process_python_udf_node cx (Some (call_node name args batch)) expr st d = call_after st d name args bs expr.
Proof.
  intros (Es & Eh & Ek & Ec & _) Hn Hne Hl Hb Hps. unfold process_python_udf_node. rewrite Es, Eh, Ek, Ec, Hps. cbn [negb orb IS_AGG IS_WINDOW_FUNC IS_PYTHON_UDF no_parents].
  change (OB_FAIL OB_SUCCESS) with false. cbn iota.
  assert (exists s', ob_write_string (obstr_of name) = Some (OB_SUCCESS, s') /\ obstr_bytes s' = Some name) as (s' & Ew & Es').
  { destruct (obstr_of_valid name) as [Hv Hb']; [lia | now apply plain_bytes |].
    destruct (ob_write_string_ok Hmem _ _ Hv Hb') as (s' & E & E' & _). eauto. }
  unfold call_after. destruct batch as [b |]; cbn [batch_asked] in Hb.
  - change (node_children (call_node name args (Some b))) with 3. change (3 <? 1) with false. change (3 =? 3) with true. cbn iota.
    change (child (call_node name args (Some b)) 0) with (Some (Some (PNode (T_NODE 2) b []))).
    cbn [mbind option_bind str_value_]. rewrite Hb.
    change (child (call_node name args (Some b)) (3 - 2)) with (Some (Some (PNode (T_NODE 0) name []))). cbn [mbind option_bind str_value_].
    unfold resolve_call. rewrite Ew. cbn [mbind option_bind]. rewrite Es'. reflexivity.
  - subst bs. change (node_children (call_node name args None)) with 2. change (2 <? 1) with false. change (2 =? 3) with false. cbn iota.
    cbn [mbind option_bind].
    change (child (call_node name args None) (2 - 2)) with (Some (Some (PNode (T_NODE 0) name []))). cbn [mbind option_bind str_value_].
    unfold resolve_call. rewrite Ew. cbn [mbind option_bind]. rewrite Es'. reflexivity.
Qed.

Lemma call_unknown st d name args bs expr u :
  checker_get_python_udf_info cx (effective_tenant_id cx) (casedn name) ObPythonUDF.new d = Some (OB_SUCCESS, false, u) ->
  call_after st d name args bs expr = Some (Returns (OB_ERR_FUNCTION_UNKNOWN, expr, st)).
Proof. intros E. unfold call_after. rewrite E. reflexivity. Qed.
Lemma call_wrong_number st d name args bs expr t f :
  checker_get_python_udf_info cx (effective_tenant_id cx) (casedn name) ObPythonUDF.new d = Some (OB_SUCCESS, true, of_fn t [] f) ->
  fn_arg_num f <> Z.of_nat (List.length args) ->
  call_after st d name args bs expr = Some (Returns (OB_INVALID_ARGUMENT, expr, st)).
Proof.
  intros E Hnum. unfold call_after. rewrite E. cbn [mbind option_bind negb]. change (OB_FAIL OB_SUCCESS) with false. cbn iota.
  unfold call_function, check_udf_info. cbn [node_type]. rewrite bool_decide_true by reflexivity. cbn [negb of_fn ObPythonUDF.arg_num_ mbind option_bind].
  unfold node_children. cbn [children_]. assert ((fn_arg_num f <? Z.of_nat (List.length args)) || (Z.of_nat (List.length args) <? fn_arg_num f) = true) as -> by lia.
  reflexivity.
Qed.

Lemma call_resolves st d name args bs expr t f names tys : ctx_ok ->
  checker_get_python_udf_info cx (effective_tenant_id cx) (casedn name) ObPythonUDF.new d = Some (OB_SUCCESS, true, of_fn t [] f) ->
  fn_ok f -> fn_arg_num f = Z.of_nat (List.length args) -> args_ok (of_fn 0 [] f) names tys ->
  length (fn_name f) < 2 ^ 31 -> length (fn_pycall f) < 2 ^ 31 -> Forall resolvable args ->
  case_equal (casedn name) (chars "bin") = false -> case_equal (casedn name) (chars "oct") = false ->
  parents_expr_info_ st = no_parents -> ia_wf (ctx_udfs st) -> ia_count (ctx_udfs st) < 2 ^ 31 ->
  exists p e st', call_after st d name args bs expr = Some (Returns (OB_SUCCESS, p, st')) /\
    st_heap st !! p = None /\ st_heap st' !! p = Some e /\ (forall q x, st_heap st !! q = Some x -> st_heap st' !! q = Some x) /\
    type_ e = T_FUN_PYTHON_UDF /\ Forall2 resolved_to args (params e) /\
    carries (udf_meta_ e) (fn_name f) (fn_ret f) (fn_pycall f) tys /\ func_name_ e = casedn name /\
    takes_batch (udf_meta_ e) bs /\
    parents_expr_info_ st' = no_parents /\ items (ctx_udfs st') = items (ctx_udfs st) ++ [p].
Proof.
  intros Hcx E Hok Hnum Hargs Hln Hlp Hres Hbin Hoct Hps Hw Hc. unfold call_after. rewrite E. cbn [mbind option_bind negb].
  change (OB_FAIL OB_SUCCESS) with false. cbn iota. destruct Hok as (_ & Han & _ & Hb1 & _ & _ & Hb4).
  cbn [of_fn ObPythonUDF.name_ ObPythonUDF.pycall_ ObPythonUDF.arg_num_] in Han, Hb1, Hb4.
  unfold call_function, check_udf_info. cbn [node_type]. rewrite bool_decide_true by reflexivity.
  cbn [negb mbind option_bind]. unfold node_children. cbn [children_]. change (ObPythonUDF.arg_num_ (of_fn t [] f)) with (fn_arg_num f).
  rewrite Hnum, Z.ltb_irrefl. cbn [orb]. change (OB_FAIL OB_SUCCESS) with false. cbn iota.
  unfold create_raw_expr. rewrite Hmem. destruct Hcx as (X1 & X2 & X2' & X3 & X4 & Est & X6). rewrite Est. cbn [negb].
  change (OB_FAIL OB_SUCCESS) with false. cbn iota. destruct (new_addr_law (st_heap st)) as [_ Hnew]. set (p := new_addr (st_heap st)) in *.
  rewrite lookup_insert_eq. cbn [mbind option_bind fresh_expr udf_meta_].
  destruct (set_udf_meta_ok Hmem ObPythonUDFMeta.new (of_fn t [] f) names tys bs Hargs) as (x & Ex & Hcar & Hbs%asked_takes & _).
  { repeat split; cbn; assumption. }
  { destruct Hargs as (_ & _ & _ & _ & _ & _ & _ & _ & _ & Hn). cbn [of_fn ObPythonUDF.arg_num_] in Hn. lia. }
  { exact (ObSEArray.se_wf_empty (T := PyUdfRetType)). }
  { exact (ObSEArray.se_wf_empty (T := ObStr)). }
  rewrite Ex. cbn [mbind option_bind]. change (OB_FAIL OB_SUCCESS) with false. cbn iota.
  rewrite Z.eqb_refl. cbn [negb]. set (e0 := set_meta _ _). rewrite insert_insert_eq.
  destruct (resolve_params_ok args) with (p := p) (prev := NULL) (st := with_heap st (<[p := e0]> (st_heap st))) (e := e0)
    as (st1 & a & qs & Er & Ha & He1 & Hi & Hf2 & Hkeep & Hobj & Hp1 & Hu1); auto.
  { split_and!; easy. }
  { apply lookup_insert_eq. }
  { exact (proj1 ia_new_law). }
  { unfold ia_count, e0. cbn [set_meta exprs_ fresh_expr]. rewrite (proj2 (ia_new_law (A := SE ptr COMMON_MULTI_NUM))). cbn. lia. }
  rewrite Er. cbn [mbind option_bind]. unfold finish_call. change (OB_SUCC OB_SUCCESS) with true. cbn iota. rewrite He1. cbn [mbind option_bind].
  rewrite (function_alias_none _ p (set_func_name (set_exprs e0 a) (casedn name))); [| apply lookup_insert_eq | exact Hbin | exact Hoct].
  cbn [mbind option_bind]. change (OB_FAIL OB_SUCCESS) with false. cbn iota. cbn [ctx_udfs with_heap] in *.
  rewrite Hu1. destruct (ia_push_law (ctx_udfs st) p Hw ltac:(lia)) as (ret & l & -> & _ & [[-> Hl] | (_ & _ & k & Hk)]); [| now rewrite Hmem in Hk].
  cbn [mbind option_bind fmap option_fmap option_map]. eexists _, _, _. split_and!; [reflexivity | exact Hnew | apply lookup_insert_eq | ..]; try reflexivity; auto.
  - intros q y Hq. cbn [st_heap with_heap]. rewrite lookup_insert_ne by congruence. apply Hkeep; [congruence |]. cbn [st_heap with_heap].
    now rewrite lookup_insert_ne by congruence.
  - unfold params at 1. cbn [exprs_ set_func_name set_exprs]. rewrite Hi. unfold e0, params. cbn [set_meta exprs_ fresh_expr].
    now rewrite (proj2 (ia_new_law (A := SE ptr COMMON_MULTI_NUM))).
Qed.
End Facts.
