(* ===== verification/UdfPlan.v ===== *)
(** Python functions in the plan of a query: [ObSelectLogPlan]
    ([src/sql/optimizer/ob_select_log_plan.cpp]) puts an [ObLogPythonUDF] above
    each candidate plan, below it an exchange, or two with a sort between, when the
    plan is distributed ([ObLogPlan], [ob_log_plan.cpp]).

    Expressions are the heap of [RawExpr], operators a second one.  The rest of
    the optimizer, which decides on costs, sharding and order, answers from the
    class [Planner]; it changes no member modelled here. *)
From S2P Require Import Prelude FixedArray SEArray IArray HashArray SortedVector UdfSchema.
From S2P Require Import Serialization UdfObject BatchSize UdfMeta Frame UdfExpr RawExpr UdfStmt.

(** ** Operators *)
Inductive log_op_def := LOG_PYTHON_UDF | LOG_EXCHANGE | LOG_SORT | LOG_OTHER (n : Z).
(** The members of [ObLogicalOperator], those of [ObLogPythonUDF], and of
    [ObLogExchange] and [ObLogSort] one each. *)
Record LogOp := mkOp {
  op_type_ : log_op_def;
  child_ : SE ptr 16;
  parent_ : ptr;
  output_exprs_ : SE ptr 8; filter_exprs_ : SE ptr 8; startup_exprs_ : SE ptr 8;
  id_ : Z; branch_id_ : Z; is_plan_root_ : bool;
  log_python_udf_exprs_ : SE ptr 4; log_projection_exprs_ : SE ptr 4; log_filter_exprs_ : SE ptr 4;
  is_producer_ : bool; is_local_merge_sort_ : bool
}.
Definition set_children (o : LogOp) (c : SE ptr 16) : LogOp :=
  mkOp (op_type_ o) c (parent_ o) (output_exprs_ o) (filter_exprs_ o) (startup_exprs_ o) (id_ o) (branch_id_ o) (is_plan_root_ o)
       (log_python_udf_exprs_ o) (log_projection_exprs_ o) (log_filter_exprs_ o) (is_producer_ o) (is_local_merge_sort_ o).
Definition set_parent (o : LogOp) (p : ptr) : LogOp :=
  mkOp (op_type_ o) (child_ o) p (output_exprs_ o) (filter_exprs_ o) (startup_exprs_ o) (id_ o) (branch_id_ o) (is_plan_root_ o)
       (log_python_udf_exprs_ o) (log_projection_exprs_ o) (log_filter_exprs_ o) (is_producer_ o) (is_local_merge_sort_ o).
Definition set_outputs (o : LogOp) (a : SE ptr 8) : LogOp :=
  mkOp (op_type_ o) (child_ o) (parent_ o) a (filter_exprs_ o) (startup_exprs_ o) (id_ o) (branch_id_ o) (is_plan_root_ o)
       (log_python_udf_exprs_ o) (log_projection_exprs_ o) (log_filter_exprs_ o) (is_producer_ o) (is_local_merge_sort_ o).
Definition set_filters (o : LogOp) (a : SE ptr 8) : LogOp :=
  mkOp (op_type_ o) (child_ o) (parent_ o) (output_exprs_ o) a (startup_exprs_ o) (id_ o) (branch_id_ o) (is_plan_root_ o)
       (log_python_udf_exprs_ o) (log_projection_exprs_ o) (log_filter_exprs_ o) (is_producer_ o) (is_local_merge_sort_ o).
Definition set_udf_arrays (o : LogOp) (u p f : SE ptr 4) : LogOp :=
  mkOp (op_type_ o) (child_ o) (parent_ o) (output_exprs_ o) (filter_exprs_ o) (startup_exprs_ o) (id_ o) (branch_id_ o) (is_plan_root_ o) u p f
       (is_producer_ o) (is_local_merge_sort_ o).
Definition set_is_producer (o : LogOp) (b : bool) : LogOp :=
  mkOp (op_type_ o) (child_ o) (parent_ o) (output_exprs_ o) (filter_exprs_ o) (startup_exprs_ o) (id_ o) (branch_id_ o) (is_plan_root_ o)
       (log_python_udf_exprs_ o) (log_projection_exprs_ o) (log_filter_exprs_ o) b (is_local_merge_sort_ o).
Definition set_local_merge (o : LogOp) (b : bool) : LogOp :=
  mkOp (op_type_ o) (child_ o) (parent_ o) (output_exprs_ o) (filter_exprs_ o) (startup_exprs_ o) (id_ o) (branch_id_ o) (is_plan_root_ o)
       (log_python_udf_exprs_ o) (log_projection_exprs_ o) (log_filter_exprs_ o) (is_producer_ o) b.

Record CandidatePlan := mkCandidate { plan_tree_ : ptr }.
#[global] Instance size_of_candidate : SizeOf CandidatePlan := {| size_of := 16; default_of := mkCandidate NULL |}.
#[global] Instance size_of_candidate_ok : SizeOfOk CandidatePlan.
Proof. unfold SizeOfOk. cbn. lia. Qed.

(** The plan: [plain_plan_] is the index of the best candidate. *)
Abbreviation op_heap := (gmap ptr LogOp).
Record PlanSt := mkPlan {
  raw_ : heap;
  ops_ : op_heap;
  stmt_ : option Stmt;
  candidate_plans_ : list CandidatePlan;
  plain_plan_ : Z
}.
Definition with_ops (st : PlanSt) (m : op_heap) : PlanSt := mkPlan (raw_ st) m (stmt_ st) (candidate_plans_ st) (plain_plan_ st).
Definition with_stmt (st : PlanSt) (s : option Stmt) : PlanSt := mkPlan (raw_ st) (ops_ st) s (candidate_plans_ st) (plain_plan_ st).

(** How an exchange sends its rows, of the methods used here. *)
Inductive ObPQDistributeMethod := NONE | LOCAL | RANGE.
Class Planner := {
  new_op : op_heap -> ptr;
  sizeof_op : log_op_def -> Z;
  is_distributed : PlanSt -> ptr -> bool;
  get_is_local_order : PlanSt -> ptr -> bool;
  set_exchange_info : PlanSt -> ptr -> ObPQDistributeMethod -> Z;
  compute_property : PlanSt -> ptr -> Z;
  (** [GCONF._enable_px_ordered_coord]. *)
  enable_px_ordered_coord : bool;
  (** [extract_info] of a column, and [add_relation_id] for its table. *)
  extract_column_info : heap -> ptr -> Z;
  add_relation_id : Stmt -> ptr -> Z;
  update_plans_interesting_order_info : PlanSt -> list CandidatePlan -> Z;
  prune_and_keep_best_plans : PlanSt -> list CandidatePlan -> Z * PlanSt
}.

Section Plan.
Context `{Allocator, Planner} {column_size : SizeOf ColumnItem}.

(** ** The tree *)
Definition fresh_op (k : log_op_def) : LogOp :=
  mkOp k ia_new NULL ia_new ia_new ia_new OB_INVALID_ID OB_INVALID_ID false ia_new ia_new ia_new false false.
(** [ObLogOperatorFactory::allocate]. *)
Definition allocate (k : log_op_def) (st : PlanSt) : ptr * PlanSt :=
  if alloc_ok (sizeof_op k) then (new_op (ops_ st), with_ops st (<[new_op (ops_ st) := fresh_op k]> (ops_ st))) else (NULL, st).

(** [child_op->set_parent(this)]. *)
Definition adopt (m : op_heap) (p child_op : ptr) : option op_heap :=
  if child_op =? NULL then Some m else c ← m !! child_op; Some (<[child_op := set_parent c p]> m).
(** [set_child(first_child, child_op)]: an error of the array is lost. *)
Definition set_first_child (st : PlanSt) (p child_op : ptr) : option PlanSt :=
  o ← ops_ st !! p;
  '(ret, c) ← (if ia_count (child_ o) <=? 0 then ia_push_back (child_ o) NULL else Some (OB_SUCCESS, child_ o));
  let c := if OB_SUCC ret && (0 <? ia_count c)
           then mkSE (ObSEArray.mk (<[0%nat := child_op]> (ObSEArray.items_ (se c))) (ObSEArray.capacity_ (se c)) (ObSEArray.error_ (se c)))
           else c in
  m ← adopt (<[p := set_children o c]> (ops_ st)) p child_op;
  Some (with_ops st m).
(** [get_child(0)]. *)
Definition get_first_child (o : LogOp) : ptr := default NULL (items (child_ o) !! 0%nat).

(** A setter of an operator: [set_to_producer], [set_to_consumer] and
    [set_local_merge_sort]. *)
Definition set_op (st : PlanSt) (p : ptr) (f : LogOp -> LogOp) : option PlanSt :=
  o ← ops_ st !! p; Some (with_ops st (<[p := f o]> (ops_ st))).
(** [allocate_exchange_as_top]: a producer above the plan, a consumer above it. *)
Definition allocate_exchange_as_top (st : PlanSt) (top : ptr) (m : ObPQDistributeMethod) : option (Z * ptr * PlanSt) :=
  if top =? NULL then Some (OB_ERR_UNEXPECTED, top, st)
  else
    let '(producer, st) := allocate LOG_EXCHANGE st in
    if producer =? NULL then Some (OB_ALLOCATE_MEMORY_FAILED, top, st)
    else
      let '(consumer, st) := allocate LOG_EXCHANGE st in
      if consumer =? NULL then Some (OB_ALLOCATE_MEMORY_FAILED, top, st)
      else
        st ← set_first_child st producer top;
        st ← set_first_child st consumer producer;
        st ← set_op st producer (fun o => set_is_producer o true);
        st ← set_op st consumer (fun o => set_is_producer o false);
        Some (if OB_FAIL (set_exchange_info st producer m) then (set_exchange_info st producer m, top, st)
              else if OB_FAIL (compute_property st producer) then (compute_property st producer, top, st)
              else if OB_FAIL (set_exchange_info st consumer m) then (set_exchange_info st consumer m, top, st)
              else if OB_FAIL (compute_property st consumer) then (compute_property st consumer, top, st)
              else (OB_SUCCESS, consumer, st)).
(** [allocate_sort_as_top], without keys, whose assignment cannot fail. *)
Definition allocate_sort_as_top (st : PlanSt) (top : ptr) (is_local_merge_sort : bool) : option (Z * ptr * PlanSt) :=
  if top =? NULL then Some (OB_ERR_UNEXPECTED, top, st)
  else
    let '(sort, st) := allocate LOG_SORT st in
    if sort =? NULL then Some (OB_ALLOCATE_MEMORY_FAILED, top, st)
    else
      st ← set_first_child st sort top;
      st ← set_op st sort (fun o => set_local_merge o is_local_merge_sort);
      Some (if OB_FAIL (compute_property st sort) then (compute_property st sort, top, st) else (OB_SUCCESS, sort, st)).
(** [allocate_dist_range_sort_as_top], without keys. *)
Definition allocate_dist_range_sort_as_top (st : PlanSt) (top : ptr) (need_sort is_local_order : bool) : option (Z * ptr * PlanSt) :=
  if top =? NULL then Some (OB_ERR_UNEXPECTED, top, st)
  else
    '(ret, top, st) ← allocate_exchange_as_top st top RANGE;
    if OB_FAIL ret then Some (ret, top, st)
    else
      '(ret, top, st) ← allocate_sort_as_top st top (negb need_sort && is_local_order);
      if OB_FAIL ret then Some (ret, top, st) else allocate_exchange_as_top st top LOCAL.
(** [allocate_sort_and_exchange_as_top], without keys, a need to sort or a limit. *)
Definition allocate_sort_and_exchange_as_top (st : PlanSt) (top : ptr) (m : ObPQDistributeMethod) (is_local_order : bool) :
    option (Z * ptr * PlanSt) :=
  if top =? NULL then Some (OB_ERR_UNEXPECTED, top, st)
  else match m with
       | LOCAL => if enable_px_ordered_coord then allocate_dist_range_sort_as_top st top false is_local_order
                  else allocate_exchange_as_top st top m
       | NONE => Some (OB_SUCCESS, top, st)
       | RANGE => allocate_exchange_as_top st top m
       end.

(** ** Where the functions are called *)
(** The loop of [get_python_udf_exprs_from_top] over the select items. *)
Fixpoint projection_loop (h : heap) (python_udf_exprs : SE ptr 8) (l : list SelectItem) (a : SE ptr 8) : option (Z * SE ptr 8) :=
  match l with
  | [] => Some (OB_SUCCESS, a)
  | x :: l' =>
      if expr_ x =? NULL then Some (OB_INVALID_ARGUMENT, a)
      else
        b ← containType h python_udf_exprs (expr_ x) T_FUN_PYTHON_UDF;
        '(ret, a) ← (if (b : bool) then ia_push_back a (expr_ x) else Some (OB_SUCCESS, a));
        if OB_SUCC ret then projection_loop h python_udf_exprs l' a else Some (ret, a)
  end.
Definition get_python_udf_exprs_from_top (st : PlanSt) (top : ptr) (python_udf_exprs : SE ptr 8) (a : SE ptr 8) : option (Z * SE ptr 8) :=
  match stmt_ st with
  | Some s => if top =? NULL then Some (OB_ERR_UNEXPECTED, a) else projection_loop (raw_ st) python_udf_exprs (select_items_ s) a
  | None => Some (OB_ERR_UNEXPECTED, a)
  end.

(** ** The operator *)
Definition with_columns (s : Stmt) (l : SE ColumnItem 16) : Stmt :=
  mkStmt (condition_exprs_ s) (python_udf_filter_exprs_ s) (python_udf_exprs_ s) (select_items_ s) l.
Definition add_column_item (s : Stmt) (c : ColumnItem) : option (Z * Stmt) :=
  if ci_expr_ c =? NULL then Some (OB_NOT_INIT, s)
  else if OB_FAIL (add_relation_id s (ci_expr_ c)) then Some (add_relation_id s (ci_expr_ c), s)
  else '(ret, l) ← ia_push_back (column_items_ s) c;
       Some (ret, with_columns s l).
Definition column_item (p : ptr) (e : RawExpr) : ColumnItem :=
  mkColumn p (table_id_ e) (column_id_ e) (column_name_ e) (table_id_ e) (column_id_ e).
(** The last loop of [allocate_python_udf_op_as_top], which goes on after an
    error: the code is that of the last round. *)
Fixpoint column_loop (h : heap) (l : list ptr) (ret : Z) (s : Stmt) : option (Z * Stmt) :=
  match l with
  | [] => Some (ret, s)
  | p :: l' =>
      e ← h !! p;
      '(ret, s) ← (if OB_FAIL (extract_column_info h p) then Some (extract_column_info h p, s) else add_column_item s (column_item p e));
      column_loop h l' ret s
  end.
(** The arrays of the new operator [p], from three lists: [OB_ERR_UNEXPECTED]
    for any error of them. *)
Definition fill_op (o : LogOp) (udfs projections filters : list ptr) : option (Z * LogOp) :=
  '(ret, u) ← append (log_python_udf_exprs_ o) udfs;
  let o := set_udf_arrays o u (log_projection_exprs_ o) (log_filter_exprs_ o) in
  if OB_FAIL ret then Some (OB_ERR_UNEXPECTED, o)
  else
    '(ret, p) ← append (log_projection_exprs_ o) projections;
    let o := set_udf_arrays o u p (log_filter_exprs_ o) in
    if OB_FAIL ret then Some (OB_ERR_UNEXPECTED, o)
    else
      '(ret, f) ← append (log_filter_exprs_ o) filters;
      let o := set_udf_arrays o u p f in
      Some (if OB_FAIL ret then (OB_ERR_UNEXPECTED, o) else (OB_SUCCESS, o)).
(** From the columns of the filters on; [cols] is [temp_exprs]. *)
Definition attach_op (st : PlanSt) (top p : ptr) (filters : list ptr) : option (Z * ptr * SE ptr 8 * PlanSt) :=
  '(ret, cols) ← extract_column_exprs (raw_ st) filters (ia_new : SE ptr 8);
  if OB_FAIL ret then Some (ret, top, cols, st)
  else
    t ← ops_ st !! top;
    '(ret, outs) ← append_array_no_dup (output_exprs_ t) (items cols);
    let st := with_ops st (<[top := set_outputs t outs]> (ops_ st)) in
    if OB_FAIL ret then Some (ret, top, cols, st)
    else
      o ← ops_ st !! p;
      '(ret, f) ← ia_assign (filter_exprs_ o) filters;
      let st := with_ops st (<[p := set_filters o f]> (ops_ st)) in
      if OB_FAIL ret then Some (ret, top, cols, st)
      else
        st ← set_first_child st p top;
        Some (if OB_FAIL (compute_property st p) then (OB_ERR_UNEXPECTED, top, cols, st) else (OB_SUCCESS, p, cols, st)).
Definition allocate_python_udf_op_as_top (st : PlanSt) (top : ptr) (udfs projections filters : list ptr) : option (Z * ptr * PlanSt) :=
  if top =? NULL then Some (OB_ERR_UNEXPECTED, top, st)
  else
    let '(p, st) := allocate LOG_PYTHON_UDF st in
    if p =? NULL then Some (OB_ALLOCATE_MEMORY_FAILED, top, st)
    else
      o ← ops_ st !! p;
      '(ret, o) ← fill_op o udfs projections filters;
      let st := with_ops st (<[p := o]> (ops_ st)) in
      if OB_FAIL ret then Some (ret, top, st)
      else
        '(ret, top, cols, st) ← attach_op st top p filters;
        if OB_FAIL ret then Some (ret, top, st)
        else s ← stmt_ st; '(ret, s) ← column_loop (raw_ st) (items cols) ret s; Some (ret, top, with_stmt st (Some s)).

(** ** The candidates *)
(** A null plan is reported, and then read. *)
Definition generate_python_udf_plans (st : PlanSt) (udfs projections filters : list ptr) (total_plans : SE CandidatePlan 8)
    (orig : CandidatePlan) : option (Z * SE CandidatePlan 8 * PlanSt) :=
  let top := plan_tree_ orig in
  _ ← ops_ st !! top;
  let dist_method := if is_distributed st top then LOCAL else NONE in
  '(ret, top, st) ← allocate_sort_and_exchange_as_top st top dist_method (get_is_local_order st top);
  if OB_FAIL ret then Some (ret, total_plans, st)
  else
    '(ret, top, st) ← allocate_python_udf_op_as_top st top udfs projections filters;
    if OB_FAIL ret then Some (ret, total_plans, st)
    else '(ret, total_plans) ← ia_push_back total_plans (mkCandidate top); Some (ret, total_plans, st).
Fixpoint plans_loop (st : PlanSt) (udfs projections filters : list ptr) (candi_plans : list CandidatePlan) (total_plans : SE CandidatePlan 8) :
    option (Z * SE CandidatePlan 8 * PlanSt) :=
  match candi_plans with
  | [] => Some (OB_SUCCESS, total_plans, st)
  | c :: l =>
      '(ret, total_plans, st) ← generate_python_udf_plans st udfs projections filters total_plans c;
      if OB_SUCC ret then plans_loop st udfs projections filters l total_plans else Some (ret, total_plans, st)
  end.
(** [candi_allocate_python_udf(python_udf_exprs, ..., total_plans)]. *)
Definition allocate_for_candidates (st : PlanSt) (udfs projections filters : list ptr) (total_plans : SE CandidatePlan 8) :
    option (Z * SE CandidatePlan 8 * PlanSt) :=
  let total_plans := ia_reuse total_plans in
  match candidate_plans_ st with
  | [] => Some (OB_ERR_UNEXPECTED, total_plans, st)
  | c :: _ =>
      if plan_tree_ c =? NULL then Some (OB_ERR_UNEXPECTED, total_plans, st)
      else plans_loop st udfs projections filters (candidate_plans_ st) total_plans
  end.
(** [candidates_.get_best_plan(best_plan)]. *)
Definition get_best_plan (st : PlanSt) : Z * ptr :=
  match (if plain_plan_ st <? 0 then None else candidate_plans_ st !! Z.to_nat (plain_plan_ st)) with
  | Some c => (OB_SUCCESS, plan_tree_ c)
  | None => (OB_ERR_UNEXPECTED, NULL)
  end.
(** [candi_allocate_python_udf()]: a null statement is read by its log. *)
Definition candi_allocate_python_udf (st : PlanSt) : option (Z * PlanSt) :=
  s ← stmt_ st;
  if negb (has_python_udf s) then Some (OB_ERR_UNEXPECTED, st)
  else
    let '(ret, best_plan) := get_best_plan st in
    if OB_FAIL ret then Some (ret, st)
    else if best_plan =? NULL then Some (OB_ERR_UNEXPECTED, st)
    else
      '(ret, projections) ← get_python_udf_exprs_from_top st best_plan (python_udf_exprs_ s) ia_new;
      if OB_FAIL ret then Some (ret, st)
      else
        '(ret, python_udf_plans, st) ←
          allocate_for_candidates st (items (python_udf_exprs_ s)) (items projections) (items (python_udf_filter_exprs_ s)) ia_new;
        if OB_FAIL ret then Some (ret, st)
        else
          let plans := items python_udf_plans in
          if ia_count python_udf_plans =? 0 then Some (OB_ERR_UNEXPECTED, st)
          else if OB_FAIL (update_plans_interesting_order_info st plans) then Some (update_plans_interesting_order_info st plans, st)
          else Some (prune_and_keep_best_plans st plans).
End Plan.
