(* ===== verification/PlanFacts.v ===== *)
(** What [UdfPlan] does to a plan when memory is available and the rest of the
    optimizer agrees. *)
From S2P Require Import Prelude FixedArray SEArray IArray HashArray SortedVector UdfSchema.
From S2P Require Import Serialization UdfObject BatchSize UdfMeta Frame UdfExpr RawExpr UdfStmt.
From S2P Require Import UdfPlan.

(** Adding again what was added changes nothing. *)
Lemma adjoin_all_in `{EqDecision T} (xs : list T) : forall l, (forall x, x ∈ xs -> x ∈ l) -> adjoin_all l xs = l.
Proof.
  induction xs as [| x xs IH]; intros l Hl; [reflexivity |]. cbn. unfold adjoin at 2. rewrite bool_decide_true by (apply Hl; left).
  apply IH. intros y Hy. apply Hl. now right.
Qed.
Lemma adjoin_all_twice `{EqDecision T} (l xs : list T) : adjoin_all (adjoin_all l xs) xs = adjoin_all l xs.
Proof. apply adjoin_all_in. intros x Hx. apply elem_of_adjoin_all. now right. Qed.
Lemma adjoin_all_length `{EqDecision T} (xs : list T) : forall l, (length (adjoin_all l xs) <= length l + length xs)%nat.
Proof.
  induction xs as [| x xs IH]; intros l; cbn; [lia |]. etransitivity; [apply IH |]. pose proof (adjoin_length l x). lia.
Qed.

Section Memory.
Context `{Allocator} (Hmem : forall n, alloc_ok n = true).
Lemma adds_ok {A T} `{!ObIArray A T, !ObIArrayLaws A T} (a : A) (l : list T) r : adds a l r ->
  exists a', r = Some (OB_SUCCESS, a') /\ ia_wf a' /\ items a' = l.
Proof. intros (ret & a' & -> & Hw & [[-> Hi] | (_ & _ & k & Hk)]); [eauto | now rewrite Hmem in Hk]. Qed.
Lemma ia_assign_ok {A T} `{!ObIArray A T, !ObIArrayLaws A T} (a : A) (l : list T) : ia_wf a -> Z.of_nat (length l) < 2 ^ 41 ->
  exists a', ia_assign a l = Some (OB_SUCCESS, a') /\ ia_wf a' /\ items a' = l.
Proof. intros Hw Hl. destruct (ia_assign_law a l Hw Hl) as (ret & a' & -> & Hw' & [[-> Hi] | (_ & _ & k & Hk)]); [eauto | now rewrite Hmem in Hk]. Qed.
End Memory.

(** ** Plans that grow *)
(** What an operator is: its type, and for an exchange the side that sends. *)
Definition layer (o : LogOp) : log_op_def * bool := (op_type_ o, is_producer_ o).
(** All of an operator but its parent, its output and the setting of a sort. *)
Definition core (o : LogOp) :=
  (layer o, child_ o, filter_exprs_ o, startup_exprs_ o, (id_ o, branch_id_ o, is_plan_root_ o),
   log_python_udf_exprs_ o, log_projection_exprs_ o, log_filter_exprs_ o).

Section Grow.
Context `{Allocator} (cols : list ptr).
Definition outs (o : LogOp) : list ptr := items (output_exprs_ o).
(** The operators there were stay; some also output [cols]. *)
Definition kept (m m' : op_heap) : Prop :=
  forall p o, m !! p = Some o -> exists o', m' !! p = Some o' /\ core o' = core o /\ (outs o' = outs o \/ outs o' = adjoin_all (outs o) cols).
(** Outputs are arrays of a size that leaves room. *)
Definition good (m : op_heap) : Prop :=
  m !! NULL = None /\
  forall p o, m !! p = Some o -> ia_wf (output_exprs_ o) /\
    exists l, Z.of_nat (length l) < 2 ^ 31 /\ (outs o = l \/ outs o = adjoin_all l cols).

#[export] Instance kept_preorder : PreOrder kept.
Proof.
  split; [intros m p o Ho; exists o; auto |]. intros m1 m2 m3 H12 H23 p o Ho.
  destruct (H12 p o Ho) as (o2 & Ho2 & Hc2 & Hi2). destruct (H23 p o2 Ho2) as (o3 & Ho3 & Hc3 & Hi3).
  exists o3. split_and!; [exact Ho3 | congruence |]. destruct Hi2 as [-> | Hi2] in Hi3 |- *; [exact Hi3 |].
  right. destruct Hi3 as [-> | ->]; [exact Hi2 |]. rewrite Hi2. apply adjoin_all_twice.
Qed.
Lemma kept_live m m' p : kept m m' -> is_Some (m !! p) -> is_Some (m' !! p).
Proof. intros Hk [o Ho]. destruct (Hk p o Ho) as (o' & -> & _). eauto. Qed.
Lemma kept_new m m' p : kept m m' -> m' !! p = None -> m !! p = None.
Proof. intros Hk Hp. destruct (m !! p) eqn:E; [| reflexivity]. destruct (Hk p _ E) as (o' & E' & _). congruence. Qed.

(** A changed operator, of the same kind and parameters. *)
Lemma kept_insert m p o o' : m !! p = Some o -> core o' = core o -> (outs o' = outs o \/ outs o' = adjoin_all (outs o) cols) ->
  kept m (<[p := o']> m).
Proof.
  intros Ho Hc Hi q x Hx. destruct (decide (q = p)) as [-> | Hq].
  - rewrite lookup_insert_eq. rewrite Ho in Hx. injection Hx as <-. exists o'. auto.
  - rewrite lookup_insert_ne by congruence. exists x. auto.
Qed.
Lemma kept_add m p o : m !! p = None -> kept m (<[p := o]> m).
Proof. intros Hp q x Hx. exists x. rewrite lookup_insert_ne by congruence. auto. Qed.
(** A new operator may change. *)
Lemma kept_over m m' p o : m !! p = None -> kept m m' -> kept m (<[p := o]> m').
Proof.
  intros Hp Hk q x Hx. destruct (Hk q x Hx) as (x' & Hx' & Hr). exists x'. rewrite lookup_insert_ne by congruence. auto.
Qed.
Lemma good_insert m p o : good m -> p <> NULL -> ia_wf (output_exprs_ o) ->
  (exists l, Z.of_nat (length l) < 2 ^ 31 /\ (outs o = l \/ outs o = adjoin_all l cols)) -> good (<[p := o]> m).
Proof.
  intros [Hn Hg] Hp Hw Hl. split; [now rewrite lookup_insert_ne |]. intros q x Hx.
  apply lookup_insert_Some in Hx as [[_ <-] | [_ Hx]]; [auto | now apply (Hg q)].
Qed.

(** From the operator [c] down to [top] over new operators with one child each,
    which are the layers [ks], from the top. *)
Inductive chain (m0 m : op_heap) (top : ptr) : list (log_op_def * bool) -> ptr -> Prop :=
| chain_top : chain m0 m top [] top
| chain_op c o d k ks : m0 !! c = None -> m !! c = Some o -> layer o = k -> items (child_ o) = [d] -> chain m0 m top ks d ->
    chain m0 m top (k :: ks) c.
Lemma chain_kept m0 m0' m m' top ks c : kept m0' m0 -> kept m m' -> chain m0 m top ks c -> chain m0' m' top ks c.
Proof.
  intros Hk0 Hk. induction 1 as [| c o d k ks Hc Ho <- Hd _ IH]; [apply chain_top |].
  destruct (Hk c o Ho) as (o' & Ho' & Hcore & _). apply (chain_op _ _ _ c o' d); [now apply (kept_new _ m0) | exact Ho' | | | exact IH].
  - unfold layer. injection Hcore. congruence.
  - injection Hcore. congruence.
Qed.
Lemma chain_trans m0 m a b c ks ks' : chain m0 m b ks c -> chain m0 m a ks' b -> chain m0 m a (ks ++ ks') c.
Proof. induction 1; [auto |]. intros Hab. eapply chain_op; eauto. Qed.
End Grow.

(** What the rest of the optimizer does when all goes well. *)
Record steady (cols : list ptr) `{Allocator} (st st' : PlanSt) : Prop := mkSteady {
  steady_raw : raw_ st' = raw_ st;
  steady_stmt : stmt_ st' = stmt_ st;
  steady_candidates : candidate_plans_ st' = candidate_plans_ st;
  steady_good : good cols (ops_ st');
  steady_kept : kept cols (ops_ st) (ops_ st')
}.
Class PlannerLaws `{Allocator} `{Planner} := {
  new_op_law m : new_op m <> NULL /\ m !! new_op m = None;
  exchange_info_law st p m : set_exchange_info st p m = OB_SUCCESS;
  compute_property_law st p : compute_property st p = OB_SUCCESS;
  (** Whether a plan is distributed stays with its top operator. *)
  distributed_law cols st st' p : is_Some (ops_ st !! p) -> kept cols (ops_ st) (ops_ st') -> is_distributed st' p = is_distributed st p;
  extract_info_law h p : extract_column_info h p = OB_SUCCESS;
  relation_id_law s p : add_relation_id s p = OB_SUCCESS;
  order_info_law st l : update_plans_interesting_order_info st l = OB_SUCCESS
}.

Section Tree.
Context `{Allocator, !Planner, !PlannerLaws} (Hmem : forall n, alloc_ok n = true) (cols : list ptr).
Implicit Type st : PlanSt.

Lemma steady_refl st : good cols (ops_ st) -> steady cols st st.
Proof. intros Hg. now split. Qed.
Lemma steady_trans st1 st2 st3 : steady cols st1 st2 -> steady cols st2 st3 -> steady cols st1 st3.
Proof. intros [] []. split; try congruence. etransitivity; eauto. Qed.

Lemma allocate_ok k st : allocate k st = (new_op (ops_ st), with_ops st (<[new_op (ops_ st) := fresh_op k]> (ops_ st))).
Proof. unfold allocate. now rewrite Hmem. Qed.
Lemma fresh_outs k : ia_wf (output_exprs_ (fresh_op k)) /\ outs (fresh_op k) = [].
Proof. exact ia_new_law. Qed.
Lemma fresh_good st k : good cols (ops_ st) -> good cols (<[new_op (ops_ st) := fresh_op k]> (ops_ st)).
Proof.
  intros Hg. apply good_insert; [exact Hg | apply new_op_law | apply fresh_outs |]. exists []. split; [cbn; lia |]. now left.
Qed.

(** The first child of a new operator. *)
Lemma set_first_child_ok st p o c oc : ops_ st !! p = Some o -> ia_wf (child_ o) -> items (child_ o) = [] ->
  ops_ st !! c = Some oc -> c <> p -> c <> NULL ->
  exists ch, items ch = [c] /\
    set_first_child st p c = Some (with_ops st (<[c := set_parent oc p]> (<[p := set_children o ch]> (ops_ st)))).
Proof.
  intros Ho Hw Hi Hc Hcp Hcn. assert (ia_count (child_ o) = 0) as Hn by (unfold ia_count; now rewrite Hi).
  unfold set_first_child. rewrite Ho. cbn [mbind option_bind]. rewrite Hn. change (0 <=? 0) with true. cbn iota.
  destruct (adds_ok Hmem (child_ o) _ _ (push_adds (child_ o) NULL Hw ltac:(rewrite Hn; lia))) as (a & -> & Hwa & Ha).
  cbn [mbind option_bind]. rewrite Hi in Ha. unfold ia_count. rewrite Ha. change (OB_SUCC OB_SUCCESS && _) with true. cbn iota.
  cbn in Ha. rewrite Ha. unfold adopt. rewrite (proj2 (Z.eqb_neq _ _) Hcn), lookup_insert_ne, Hc by congruence. cbn.
  eexists. split; [| reflexivity]. reflexivity.
Qed.

(** A new operator above another, and the plan it leaves. *)
Lemma child_steady st0 st p o c oc : steady cols st0 st -> ops_ st0 !! p = None -> ops_ st !! p = Some o -> p <> NULL ->
  ia_wf (child_ o) -> items (child_ o) = [] -> ops_ st !! c = Some oc -> c <> p ->
  exists ch st', set_first_child st p c = Some st' /\ steady cols st0 st' /\ items ch = [c] /\ ops_ st' !! p = Some (set_children o ch) /\
    ops_ st' !! c = Some (set_parent oc p) /\ (forall q, q <> p -> q <> c -> ops_ st' !! q = ops_ st !! q) /\
    kept cols (<[p := set_children o ch]> (ops_ st)) (ops_ st') /\ st' = with_ops st (ops_ st').
Proof.
  intros [Hr Hs Hca Hg Hk] Hp0 Ho Hpn Hw Hi Hc Hcp.
  assert (c <> NULL) as Hcn by (intros ->; destruct Hg; congruence).
  destruct (set_first_child_ok st p o c oc Ho Hw Hi Hc Hcp Hcn) as (ch & Hch & E).
  assert (<[p := set_children o ch]> (ops_ st) !! c = Some oc) as Hc' by now rewrite lookup_insert_ne.
  assert (kept cols (<[p := set_children o ch]> (ops_ st)) (<[c := set_parent oc p]> (<[p := set_children o ch]> (ops_ st)))) as Hkc
    by (apply (kept_insert cols _ _ oc); auto).
  eexists ch, _. split; [exact E |]. cbn [ops_ with_ops]. split_and!; auto.
  - split; auto; cbn [ops_ with_ops].
    + destruct (proj2 Hg p o Ho) as [Hwp Hlp]. destruct (proj2 Hg c oc Hc) as [Hwc Hlc].
      now apply good_insert; [apply good_insert | | |].
    + etransitivity; [| exact Hkc]. now apply kept_over.
  - rewrite lookup_insert_ne by congruence. apply lookup_insert_eq.
  - apply lookup_insert_eq.
  - intros q Hqp Hqc. now rewrite !lookup_insert_ne by congruence.
Qed.

(** A setting of a new operator. *)
Lemma set_op_ok st0 st p o f : steady cols st0 st -> ops_ st0 !! p = None -> ops_ st !! p = Some o -> output_exprs_ (f o) = output_exprs_ o ->
  exists st', set_op st p f = Some st' /\ steady cols st0 st' /\ ops_ st' !! p = Some (f o) /\ forall q, q <> p -> ops_ st' !! q = ops_ st !! q.
Proof.
  intros [Hr Hs Hca Hg Hk] Hp0 Ho Hf. unfold set_op. rewrite Ho. eexists. split; [reflexivity |]. cbn [ops_ with_ops]. split_and!.
  - split; auto; cbn [ops_ with_ops]; [| now apply kept_over]. destruct (proj2 Hg p o Ho) as [Hw Hl].
    apply good_insert; [exact Hg | intros ->; destruct Hg; congruence | now rewrite Hf | unfold outs in *; now rewrite Hf].
  - apply lookup_insert_eq.
  - intros q Hq. now rewrite lookup_insert_ne by congruence.
Qed.

(** The plan got the layers [ks] on top. *)
Definition raised st top ks (r : option (Z * ptr * PlanSt)) : Prop :=
  exists top' st', r = Some (OB_SUCCESS, top', st') /\ steady cols st st' /\ is_Some (ops_ st' !! top') /\ chain (ops_ st) (ops_ st') top ks top'.
(** An exchange: the side that receives above the side that sends. *)
Definition exchange : list (log_op_def * bool) := [(LOG_EXCHANGE, false); (LOG_EXCHANGE, true)].

Lemma exchange_ok st top m : good cols (ops_ st) -> is_Some (ops_ st !! top) -> raised st top exchange (allocate_exchange_as_top st top m).
Proof.
  intros Hg [ot Ht]. unfold allocate_exchange_as_top.
  assert (top <> NULL) as Hn by (intros ->; destruct Hg; congruence). rewrite (proj2 (Z.eqb_neq _ _) Hn), allocate_ok.
  destruct (new_op_law (ops_ st)) as [Hpn Hp]. set (p := new_op (ops_ st)) in *. rewrite (proj2 (Z.eqb_neq _ _) Hpn), allocate_ok.
  cbn [ops_ with_ops]. set (st1 := with_ops st (<[p := fresh_op LOG_EXCHANGE]> (ops_ st))).
  assert (steady cols st st1) as S1 by (split; auto; [now apply fresh_good | now apply kept_add]).
  destruct (new_op_law (ops_ st1)) as [Hcn Hc]. set (c := new_op (ops_ st1)) in *.
  change (new_op (<[p:=fresh_op LOG_EXCHANGE]> (ops_ st))) with c. rewrite (proj2 (Z.eqb_neq _ _) Hcn).
  set (st2 := with_ops _ _). assert (steady cols st1 st2) as S2 by (split; auto; [now apply fresh_good; destruct S1 | now apply kept_add]).
  assert (ops_ st !! c = None) as Hc0 by (apply (kept_new cols _ (ops_ st1)); [apply S1 | exact Hc]).
  assert (p <> c) as Hpc by (intros <-; unfold st1 in Hc; cbn [ops_ with_ops] in Hc; now rewrite lookup_insert_eq in Hc).
  assert (ops_ st2 !! p = Some (fresh_op LOG_EXCHANGE)) as Hp2.
  { unfold st2. cbn [ops_ with_ops]. rewrite lookup_insert_ne, lookup_insert_eq by congruence. reflexivity. }
  assert (ops_ st2 !! top = Some ot) as Ht2.
  { unfold st2. cbn [ops_ with_ops]. rewrite !lookup_insert_ne by congruence. exact Ht. }
  destruct (child_steady st st2 p _ top ot (steady_trans _ _ _ S1 S2) Hp Hp2 Hpn (proj1 ia_new_law) eq_refl Ht2 ltac:(congruence))
    as (ch & st3 & -> & S3 & Hch & Hp3 & Ht3 & Ho3 & Hk3 & E3). cbn [mbind option_bind].
  assert (ops_ st3 !! c = Some (fresh_op LOG_EXCHANGE)) as Hc3.
  { rewrite Ho3 by congruence. unfold st2. cbn [ops_ with_ops]. apply lookup_insert_eq. }
  destruct (child_steady st st3 c _ p _ S3 Hc0 Hc3 Hcn (proj1 ia_new_law) eq_refl Hp3 Hpc) as (ch' & st4 & -> & S4 & Hch' & Hc4 & Hp4 & _).
  cbn [mbind option_bind]. destruct (set_op_ok st st4 p _ (fun o => set_is_producer o true) S4 Hp Hp4 eq_refl) as (st5 & -> & S5 & Hp5 & Hq5).
  cbn [mbind option_bind]. rewrite <- (Hq5 c ltac:(congruence)) in Hc4.
  destruct (set_op_ok st st5 c _ (fun o => set_is_producer o false) S5 Hc0 Hc4 eq_refl) as (st6 & -> & S6 & Hc6 & Hq6).
  cbn [mbind option_bind]. rewrite <- (Hq6 p Hpc) in Hp5.
  rewrite !exchange_info_law, !compute_property_law. change (OB_FAIL OB_SUCCESS) with false. cbn iota.
  exists c, st6. split_and!; [reflexivity | exact S6 | rewrite Hc6; eauto |].
  apply (chain_op _ _ _ c _ p _ _ Hc0 Hc6 eq_refl Hch'). now apply (chain_op _ _ _ p _ top _ _ Hp Hp5); [| | apply chain_top].
Qed.
Lemma sort_ok st top b : good cols (ops_ st) -> is_Some (ops_ st !! top) -> raised st top [(LOG_SORT, false)] (allocate_sort_as_top st top b).
Proof.
  intros Hg [ot Ht]. unfold allocate_sort_as_top.
  assert (top <> NULL) as Hn by (intros ->; destruct Hg; congruence). rewrite (proj2 (Z.eqb_neq _ _) Hn), allocate_ok.
  destruct (new_op_law (ops_ st)) as [Hpn Hp]. set (p := new_op (ops_ st)) in *. rewrite (proj2 (Z.eqb_neq _ _) Hpn).
  set (st1 := with_ops st _). assert (steady cols st st1) as S1 by (split; auto; [now apply fresh_good | now apply kept_add]).
  assert (ops_ st1 !! p = Some (fresh_op LOG_SORT)) as Hp1 by apply lookup_insert_eq.
  assert (ops_ st1 !! top = Some ot) as Ht1 by (unfold st1; cbn [ops_ with_ops]; now rewrite lookup_insert_ne by congruence).
  destruct (child_steady st st1 p _ top ot S1 Hp Hp1 Hpn (proj1 ia_new_law) eq_refl Ht1 ltac:(congruence)) as (ch & st2 & -> & S2 & Hch & Hp2 & _).
  cbn [mbind option_bind]. destruct (set_op_ok st st2 p _ (fun o => set_local_merge o b) S2 Hp Hp2 eq_refl) as (st3 & -> & S3 & Hp3 & _).
  cbn [mbind option_bind]. rewrite compute_property_law. exists p, st3. split_and!; [reflexivity | exact S3 | rewrite Hp3; eauto |].
  now apply (chain_op _ _ _ p _ top _ _ Hp Hp3); [| | apply chain_top].
Qed.
Lemma raised_then st top st1 top1 ks ks1 r : steady cols st st1 -> chain (ops_ st) (ops_ st1) top ks top1 -> raised st1 top1 ks1 r ->
  raised st top (ks1 ++ ks) r.
Proof.
  intros S1 C1 (top' & st' & -> & S2 & Hl & C2). exists top', st'. split_and!; [reflexivity | now apply (steady_trans _ st1) | exact Hl |].
  destruct S1, S2. eapply chain_trans; [eapply chain_kept; [exact steady_kept0 | reflexivity | exact C2] |].
  eapply (chain_kept cols); [reflexivity | eassumption | exact C1].
Qed.
(** What comes above a plan before the functions: nothing when the plan is not
    distributed, an exchange when it is, or, when the coordinator keeps the order,
    an exchange by range, a sort and an exchange. *)
Definition gathered (distributed : bool) : list (log_op_def * bool) :=
  if distributed then if enable_px_ordered_coord then exchange ++ [(LOG_SORT, false)] ++ exchange else exchange else [].
Lemma sort_and_exchange_ok st top (distributed : bool) b : good cols (ops_ st) -> is_Some (ops_ st !! top) ->
  raised st top (gathered distributed) (allocate_sort_and_exchange_as_top st top (if distributed then LOCAL else NONE) b).
Proof.
  intros Hg Hl. assert (top <> NULL) as Hn by (intros ->; destruct Hg, Hl; congruence).
  unfold allocate_sort_and_exchange_as_top, gathered. rewrite (proj2 (Z.eqb_neq _ _) Hn). destruct distributed.
  - destruct enable_px_ordered_coord; [| now apply exchange_ok]. unfold allocate_dist_range_sort_as_top. rewrite (proj2 (Z.eqb_neq _ _) Hn).
    destruct (exchange_ok st top RANGE Hg Hl) as (top1 & st1 & -> & S1 & L1 & C1). cbn [mbind option_bind].
    change (OB_FAIL OB_SUCCESS) with false. cbn iota.
    destruct (sort_ok st1 top1 (negb false && b) (steady_good _ _ _ S1) L1) as (top2 & st2 & -> & S2 & L2 & C2). cbn [mbind option_bind].
    change (OB_FAIL OB_SUCCESS) with false. cbn iota. rewrite app_assoc.
    apply (raised_then st top st1 top1); auto. apply (raised_then st1 top1 st2 top2); auto. apply exchange_ok; [apply S2 | exact L2].
  - exists top, st. split_and!; auto using steady_refl, chain_top.
Qed.
End Tree.

(** ** The lists of the operator *)
Section Lists.
Context `{Allocator} (Hmem : forall n, alloc_ok n = true).

(** An expression with a call the statement knows. *)
Definition known (h : heap) (udfs : SE ptr 8) (p : ptr) : bool := default false (containType h udfs p T_FUN_PYTHON_UDF).
Lemma known_spec h udfs p : ordered h -> is_Some (h !! p) ->
  containType h udfs p T_FUN_PYTHON_UDF = Some (known h udfs p) /\
  (known h udfs p = true <-> exists q e, sub h p q /\ h !! q = Some e /\ type_ e = T_FUN_PYTHON_UDF /\ q ∈ items udfs).
Proof.
  intros Ho Hp. unfold known, containType.
  destruct (contains_spec (fun q e => bool_decide (type_ e = T_FUN_PYTHON_UDF) && is_contain udfs q) h p Ho Hp) as (b & -> & Hb). cbn [default].
  split; [reflexivity |]. rewrite Hb. setoid_rewrite andb_true_iff. setoid_rewrite is_contain_elem. now setoid_rewrite bool_decide_eq_true.
Qed.
Lemma projection_loop_ok h udfs l : ordered h -> forall a : SE ptr 8, (forall x, x ∈ l -> is_Some (h !! expr_ x)) ->
  ia_wf a -> ia_count a + Z.of_nat (length l) < 2 ^ 41 ->
  exists a', projection_loop h udfs l a = Some (OB_SUCCESS, a') /\ items a' = items a ++ List.filter (known h udfs) (map expr_ l).
Proof.
  intros Ho. induction l as [| x l IH]; intros a Hl Hw Hn; cbn [projection_loop map List.filter]; [exists a; now rewrite app_nil_r |].
  assert (is_Some (h !! expr_ x)) as Hx by (apply Hl; left). pose proof (ordered_null h _ Ho Hx) as Hxn.
  rewrite (proj2 (Z.eqb_neq _ _) Hxn). destruct (known_spec h udfs (expr_ x) Ho Hx) as [-> _]. cbn [mbind option_bind length] in *.
  assert (forall y, y ∈ l -> is_Some (h !! expr_ y)) as Hl' by (intros; apply Hl; now right). destruct (known h udfs (expr_ x)).
  - destruct (adds_ok Hmem a _ _ (push_adds a (expr_ x) Hw ltac:(lia))) as (a1 & -> & Hw1 & Ha1). cbn [mbind option_bind].
    change (OB_SUCC OB_SUCCESS) with true. cbn iota. destruct (IH a1) as (a' & E & Ha'); auto.
    + unfold ia_count in *. rewrite Ha1, length_app. cbn [length]. lia.
    + exists a'. rewrite E, Ha', Ha1, <- app_assoc. auto.
  - cbn [mbind option_bind]. change (OB_SUCC OB_SUCCESS) with true. cbn iota. apply IH; auto. lia.
Qed.

Lemma fill_op_ok o udfs projections filters : ia_wf (log_python_udf_exprs_ o) -> ia_wf (log_projection_exprs_ o) -> ia_wf (log_filter_exprs_ o) ->
  items (log_python_udf_exprs_ o) = [] -> items (log_projection_exprs_ o) = [] -> items (log_filter_exprs_ o) = [] ->
  Z.of_nat (length udfs) < 2 ^ 41 -> Z.of_nat (length projections) < 2 ^ 41 -> Z.of_nat (length filters) < 2 ^ 41 ->
  exists u p f, fill_op o udfs projections filters = Some (OB_SUCCESS, set_udf_arrays o u p f) /\
    items u = udfs /\ items p = projections /\ items f = filters.
Proof.
  intros Wu Wp Wf Eu Ep Ef Nu Np Nf. unfold fill_op.
  destruct (adds_ok Hmem (log_python_udf_exprs_ o) _ _ (append_adds udfs _ Wu ltac:(unfold ia_count; now rewrite Eu))) as (u & -> & _ & Hu).
  rewrite Eu in Hu. cbn [mbind option_bind]. change (OB_FAIL OB_SUCCESS) with false. cbn iota. cbn [log_projection_exprs_ log_filter_exprs_ set_udf_arrays].
  destruct (adds_ok Hmem (log_projection_exprs_ o) _ _ (append_adds projections _ Wp ltac:(unfold ia_count; now rewrite Ep))) as (p & -> & _ & Hp).
  rewrite Ep in Hp. cbn [mbind option_bind]. change (OB_FAIL OB_SUCCESS) with false. cbn iota. cbn [log_projection_exprs_ log_filter_exprs_ set_udf_arrays].
  destruct (adds_ok Hmem (log_filter_exprs_ o) _ _ (append_adds filters _ Wf ltac:(unfold ia_count; now rewrite Ef))) as (f & -> & _ & Hf).
  rewrite Ef in Hf. exists u, p, f. auto.
Qed.

Context `{!Planner, !PlannerLaws} {column_size : SizeOf ColumnItem} {column_size_ok : SizeOfOk ColumnItem}.
Definition columns_of (h : heap) (cols : list ptr) : list ColumnItem := omap (fun p => column_item p <$> h !! p) cols.
Lemma columns_of_length h cols : (length (columns_of h cols) <= length cols)%nat.
Proof. induction cols as [| p cols IH]; cbn; [lia |]. destruct (column_item p <$> h !! p); cbn; unfold columns_of in IH; lia. Qed.
Lemma column_loop_ok h l : h !! NULL = None -> forall s, (forall p, p ∈ l -> is_Some (h !! p)) ->
  ia_wf (column_items_ s) -> ia_count (column_items_ s) + Z.of_nat (length l) < 2 ^ 41 ->
  exists c, column_loop h l OB_SUCCESS s = Some (OB_SUCCESS, with_columns s c) /\ ia_wf c /\
    items c = items (column_items_ s) ++ columns_of h l.
Proof.
  intros Hnull. induction l as [| p l IH]; intros s Hl Hw Hn; cbn [column_loop columns_of omap list_omap].
  - exists (column_items_ s). rewrite app_nil_r. split_and!; auto. now destruct s.
  - destruct (Hl p) as [e He]; [left |]. rewrite He, extract_info_law. cbn [mbind option_bind fmap option_fmap option_map]. change (OB_FAIL OB_SUCCESS) with false. cbn iota.
    unfold add_column_item. cbn [ci_expr_ column_item]. destruct (Z.eqb_spec p NULL); [congruence |]. rewrite relation_id_law. change (OB_FAIL OB_SUCCESS) with false. cbn iota.
    cbn [length] in Hn.
    destruct (adds_ok Hmem (column_items_ s) _ _ (push_adds (column_items_ s) (column_item p e) Hw ltac:(lia))) as (c1 & -> & Hw1 & Hc1).
    cbn [mbind option_bind]. destruct (IH (with_columns s c1)) as (c & -> & Hwc & Hc); auto.
    + intros q Hq. apply Hl. now right.
    + cbn [column_items_ with_columns]. unfold ia_count in *. rewrite Hc1, length_app. cbn [length]. lia.
    + exists c. split_and!; auto. rewrite Hc. cbn [column_items_ with_columns]. rewrite Hc1, <- app_assoc. reflexivity.
Qed.
End Lists.

(** ** The operator on top *)
Section Place.
Context `{Allocator, !Planner, !PlannerLaws} {column_size : SizeOf ColumnItem} {column_size_ok : SizeOfOk ColumnItem}.
Context (Hmem : forall n, alloc_ok n = true) (udfs projections filters : list ptr) (found : SE ptr 8).
Abbreviation cols := (items found).
Implicit Type st : PlanSt.

(** The operator [p] computes the functions above an operator that outputs the
    columns of the filters. *)
Definition placed (m : op_heap) (p : ptr) : Prop :=
  exists o c oc, m !! p = Some o /\ op_type_ o = LOG_PYTHON_UDF /\ items (log_python_udf_exprs_ o) = udfs /\
    items (log_projection_exprs_ o) = projections /\ items (log_filter_exprs_ o) = filters /\ items (filter_exprs_ o) = filters /\
    items (child_ o) = [c] /\ m !! c = Some oc /\ forall q, q ∈ cols -> q ∈ outs oc.
Lemma placed_kept m m' p : kept cols m m' -> placed m p -> placed m' p.
Proof.
  intros Hk (o & c & oc & Ho & Ht & Hu & Hp & Hf & Hff & Hc & Hoc & Hq). destruct (Hk p o Ho) as (o' & Ho' & E & _).
  destruct (Hk c oc Hoc) as (oc' & Hoc' & _ & Hi). injection E as Et _ Ec Eff _ _ _ _ Eu Ep Ef.
  exists o', c, oc'. split_and!; try congruence. intros q Hin. destruct Hi as [-> | ->]; [auto |]. apply elem_of_adjoin_all. left. auto.
Qed.

(** The plan after [k] operators were put in. *)
Definition grown (k : nat) st st' : Prop :=
  raw_ st' = raw_ st /\ candidate_plans_ st' = candidate_plans_ st /\ good cols (ops_ st') /\ kept cols (ops_ st) (ops_ st') /\
  exists s c, stmt_ st = Some s /\ stmt_ st' = Some (with_columns s c) /\ ia_wf c /\
    items c = items (column_items_ s) ++ concat (replicate k (columns_of (raw_ st) cols)).
(** What the plan must have for it. *)
Definition ready (n : Z) st : Prop :=
  good cols (ops_ st) /\ extract_column_exprs (raw_ st) filters (ia_new : SE ptr 8) = Some (OB_SUCCESS, found) /\
  raw_ st !! NULL = None /\ (forall p, p ∈ cols -> is_Some (raw_ st !! p)) /\ Z.of_nat (length cols) < 2 ^ 20 /\
  exists s, stmt_ st = Some s /\ ia_wf (column_items_ s) /\ ia_count (column_items_ s) + n * 2 ^ 20 < 2 ^ 41.
Lemma ready_steady n st st' : steady cols st st' -> ready n st -> ready n st'.
Proof. intros [Er Es _ Hg _] (_ & He & Hn & Hl & Hc & Hs). unfold ready. rewrite Er, Es. split_and!; assumption. Qed.
Lemma ready_grown n st st' : 0 <= n -> grown 1 st st' -> ready (n + 1) st -> ready n st'.
Proof.
  intros Hn0 (Er & _ & Hg & _ & s & c & Es & Es' & Hw & Hc) (_ & He & Hn & Hl & Hlen & s0 & Es0 & _ & Hb). unfold ready. rewrite Er, Es'. split_and!; auto.
  exists (with_columns s c). rewrite Es in Es0. injection Es0 as <-. split_and!; auto. cbn [column_items_ with_columns]. unfold ia_count in *.
  rewrite Hc. cbn [replicate concat]. rewrite app_nil_r, length_app. pose proof (columns_of_length (raw_ st) cols). lia.
Qed.
Lemma grown_steady k st st1 st2 : steady cols st st1 -> grown k st1 st2 -> grown k st st2.
Proof.
  intros [Er Es Ec Hg Hk] (Er2 & Ec2 & Hg2 & Hk2 & s & c & Es1 & Es2 & Hw & Hc). unfold grown. rewrite Er, Es, Ec in *.
  split_and!; auto; [etransitivity; eauto | eauto 10].
Qed.
Lemma grown_trans k st st1 st2 : grown 1 st st1 -> grown k st1 st2 -> grown (S k) st st2.
Proof.
  intros (Er & Ec & _ & Hk & s & c & Es & Es1 & Hw & Hc) (Er2 & Ec2 & Hg2 & Hk2 & s1 & c2 & Es1' & Es2 & Hw2 & Hc2).
  rewrite Es1 in Es1'. injection Es1' as <-. split_and!; try congruence; [etransitivity; eauto |].
  exists s, c2. split_and!; auto. rewrite Hc2. cbn [column_items_ with_columns]. rewrite Hc, Er. cbn [replicate concat]. now rewrite app_nil_r, <- app_assoc.
Qed.

(** The child's output, the filters and the child of the operator. *)
Lemma attach_ok n st0 st top t p o : ready n st0 -> steady cols st0 st -> ops_ st0 !! p = None -> ops_ st !! p = Some o -> p <> NULL ->
  ia_wf (child_ o) -> items (child_ o) = [] -> ia_wf (filter_exprs_ o) -> Z.of_nat (length filters) < 2 ^ 41 ->
  ops_ st !! top = Some t -> top <> p ->
  exists ch f oc st', attach_op st top p filters = Some (OB_SUCCESS, p, found, st') /\ steady cols st0 st' /\ items ch = [top] /\ items f = filters /\
    ops_ st' !! p = Some (set_children (set_filters o f) ch) /\ ops_ st' !! top = Some oc /\ forall q, q ∈ cols -> q ∈ outs oc.
Proof.
  intros Hready Hst Hp0 Ho Hpn Hw Hi Hwf Hfl Ht Htp. pose proof (ready_steady _ _ _ Hst Hready) as (Hg & He & _ & _ & Hlen & _).
  unfold attach_op. rewrite He. cbn [mbind option_bind]. change (OB_FAIL OB_SUCCESS) with false. cbn iota. rewrite Ht. cbn [mbind option_bind].
  destruct (proj2 Hg top t Ht) as [Hwt (l & Hl & Hol)].
  assert (ia_count (output_exprs_ t) + Z.of_nat (length cols) < 2 ^ 41) as Hroom.
  { unfold ia_count. fold (outs t). pose proof (adjoin_all_length cols l). destruct Hol as [-> | ->]; lia. }
  destruct (adds_ok Hmem (output_exprs_ t) _ _ (append_no_dup_adds cols _ Hwt Hroom)) as (a & -> & Hwa & Ha).
  cbn [mbind option_bind]. change (OB_FAIL OB_SUCCESS) with false. cbn iota. fold (outs t) in Ha. cbn [ops_ with_ops].
  rewrite lookup_insert_ne, Ho by congruence. cbn [mbind option_bind].
  destruct (ia_assign_ok Hmem (filter_exprs_ o) filters Hwf Hfl) as (f & -> & _ & Hf). cbn [mbind option_bind]. change (OB_FAIL OB_SUCCESS) with false. cbn iota.
  set (st1 := with_ops (with_ops st _) _).
  assert (top <> NULL) as Htn by (intros ->; destruct Hg; congruence).
  assert (steady cols st0 st1) as S1.
  { destruct Hst as [Er Es Ec _ Hk]. split; auto; unfold st1; cbn [ops_ with_ops].
    - destruct (proj2 Hg p o Ho) as [Hwp Hlp]. apply good_insert; auto. apply good_insert; auto. exists l. split; [exact Hl |]. right.
      unfold outs at 1. cbn [output_exprs_ set_outputs]. rewrite Ha. destruct Hol as [-> | ->]; [reflexivity | apply adjoin_all_twice].
    - apply kept_over; [exact Hp0 |]. etransitivity; [exact Hk |]. apply (kept_insert cols _ _ t); auto. }
  assert (ops_ st1 !! p = Some (set_filters o f)) as Hp1 by apply lookup_insert_eq.
  assert (ops_ st1 !! top = Some (set_outputs t a)) as Ht1.
  { unfold st1. cbn [ops_ with_ops]. rewrite lookup_insert_ne, lookup_insert_eq by congruence. reflexivity. }
  destruct (child_steady Hmem cols st0 st1 p _ top _ S1 Hp0 Hp1 Hpn Hw Hi Ht1 Htp) as (ch & st2 & -> & S2 & Hch & Hp2 & Ht2 & _).
  cbn [mbind option_bind]. rewrite compute_property_law. eexists ch, f, _, st2. split_and!; auto; [exact Ht2 |].
  intros q Hq. unfold outs. cbn [output_exprs_ set_parent set_outputs]. rewrite Ha. apply elem_of_adjoin_all. now right.
Qed.

Context (Hudfs : Z.of_nat (length udfs) < 2 ^ 41) (Hprojections : Z.of_nat (length projections) < 2 ^ 41) (Hfilters : Z.of_nat (length filters) < 2 ^ 41).
Lemma op_as_top_ok n st top : 0 <= n -> ready (n + 1) st -> is_Some (ops_ st !! top) ->
  exists p st', allocate_python_udf_op_as_top st top udfs projections filters = Some (OB_SUCCESS, p, st') /\ grown 1 st st' /\
    ops_ st !! p = None /\ placed (ops_ st') p /\ chain (ops_ st) (ops_ st') top [(LOG_PYTHON_UDF, false)] p.
Proof.
  intros Hn Hready [t Ht]. pose proof Hready as (Hg & _ & Hnull & Hcols & Hlen & s & Es & Hws & Hroom).
  assert (top <> NULL) as Htn by (intros ->; destruct Hg; congruence). unfold allocate_python_udf_op_as_top. rewrite (proj2 (Z.eqb_neq _ _) Htn), (allocate_ok Hmem).
  destruct (new_op_law (ops_ st)) as [Hpn Hp]. set (p := new_op (ops_ st)) in *. rewrite (proj2 (Z.eqb_neq _ _) Hpn). cbn [ops_ with_ops].
  rewrite lookup_insert_eq. cbn [mbind option_bind]. destruct ia_new_law as [Hw0 Hi0].
  destruct (fill_op_ok Hmem (fresh_op LOG_PYTHON_UDF) udfs projections filters (proj1 ia_new_law) (proj1 ia_new_law) (proj1 ia_new_law)
    (proj2 ia_new_law) (proj2 ia_new_law) (proj2 ia_new_law) Hudfs Hprojections Hfilters) as (u & pr & f & -> & Hu & Hpr & Hf).
  cbn [mbind option_bind]. change (OB_FAIL OB_SUCCESS) with false. cbn iota. rewrite insert_insert_eq. set (o := set_udf_arrays _ u pr f).
  set (st1 := with_ops (with_ops st _) _).
  assert (steady cols st st1) as S1.
  { split; auto; [| now apply kept_add]. apply good_insert; [exact Hg | exact Hpn | exact (proj1 ia_new_law) |]. exists []. split; [cbn; lia | now left]. }
  assert (ops_ st1 !! p = Some o) as Hp1 by apply lookup_insert_eq.
  assert (ops_ st1 !! top = Some t) as Ht1 by (unfold st1; cbn [ops_ with_ops]; rewrite lookup_insert_ne by congruence; exact Ht).
  destruct (attach_ok (n + 1) st st1 top t p o Hready S1 Hp Hp1 Hpn (proj1 ia_new_law) (proj2 ia_new_law) (proj1 ia_new_law) Hfilters Ht1 ltac:(congruence))
    as (ch & ff & oc & st2 & -> & S2 & Hch & Hff & Hp2 & Ht2 & Hq).
  cbn [mbind option_bind]. change (OB_FAIL OB_SUCCESS) with false. cbn iota. destruct S2 as [Er Es2 Ec Hg2 Hk2]. rewrite Es2, Es, Er. cbn [mbind option_bind].
  destruct (column_loop_ok Hmem (raw_ st) cols Hnull s Hcols Hws ltac:(lia)) as (c & -> & Hwc & Hc). cbn [mbind option_bind].
  eexists p, _. split; [reflexivity |]. split_and!; auto.
  - unfold grown. cbn [raw_ candidate_plans_ ops_ stmt_ with_stmt]. split_and!; auto. exists s, c. rewrite Hc. cbn [replicate concat]. rewrite app_nil_r. auto.
  - eexists _, top, oc. split; [exact Hp2 |]. split_and!; auto.
  - apply (chain_op _ _ _ p _ top _ _ Hp Hp2 eq_refl Hch), chain_top.
Qed.
(** The new operators above a candidate: the one for the functions, and below it
    what gathers the rows of a distributed plan. *)
Definition layers st (cand : CandidatePlan) : list (log_op_def * bool) :=
  (LOG_PYTHON_UDF, false) :: gathered (is_distributed st (plan_tree_ cand)).
Lemma generate_plan_ok n st (total : SE CandidatePlan 8) cand : 0 <= n -> ready (n + 1) st -> is_Some (ops_ st !! plan_tree_ cand) ->
  ia_wf total -> ia_count total < 2 ^ 41 ->
  exists p total' st', generate_python_udf_plans st udfs projections filters total cand = Some (OB_SUCCESS, total', st') /\
    ia_wf total' /\ items total' = items total ++ [mkCandidate p] /\ grown 1 st st' /\
    ops_ st !! p = None /\ placed (ops_ st') p /\ chain (ops_ st) (ops_ st') (plan_tree_ cand) (layers st cand) p.
Proof.
  intros Hn Hready Hl Hw Hc. unfold generate_python_udf_plans. pose proof Hl as [t ->]. cbn [mbind option_bind].
  destruct (sort_and_exchange_ok Hmem cols st (plan_tree_ cand) (is_distributed st (plan_tree_ cand))
    (get_is_local_order st (plan_tree_ cand)) (proj1 Hready) Hl) as (top & st1 & -> & S1 & L1 & C1). cbn [mbind option_bind].
  change (OB_FAIL OB_SUCCESS) with false. cbn iota.
  destruct (op_as_top_ok n st1 top Hn (ready_steady _ _ _ S1 Hready) L1) as (p & st2 & -> & G2 & Hp & P2 & C2). cbn [mbind option_bind].
  change (OB_FAIL OB_SUCCESS) with false. cbn iota.
  destruct (adds_ok Hmem total _ _ (push_adds total (mkCandidate p) Hw Hc)) as (total' & -> & Hw' & Ht'). cbn [mbind option_bind].
  exists p, total', st2. pose proof S1 as [_ _ _ _ K1]. split_and!; auto.
  - now apply (grown_steady _ _ st1).
  - now apply (kept_new cols _ (ops_ st1)).
  - pose proof G2 as (_ & _ & _ & K2 & _). apply (chain_trans _ _ _ top _ [_]); [eapply chain_kept; [exact K1 | reflexivity | exact C2] |].
    eapply (chain_kept cols); [reflexivity | exact K2 | exact C1].
Qed.

(** The plan [p] of a candidate, after all of them. *)
Definition plan_for st st' (cand plan : CandidatePlan) : Prop :=
  ops_ st !! plan_tree_ plan = None /\ placed (ops_ st') (plan_tree_ plan) /\ chain (ops_ st) (ops_ st') (plan_tree_ cand) (layers st cand) (plan_tree_ plan).
Lemma plans_loop_ok l : forall st (total : SE CandidatePlan 8), ready (Z.of_nat (length l)) st ->
  (forall c, c ∈ l -> is_Some (ops_ st !! plan_tree_ c)) -> ia_wf total -> ia_count total + Z.of_nat (length l) < 2 ^ 41 ->
  exists plans total' st', plans_loop st udfs projections filters l total = Some (OB_SUCCESS, total', st') /\
    items total' = items total ++ plans /\ grown (length l) st st' /\ Forall2 (plan_for st st') l plans /\ NoDup (map plan_tree_ plans).
Proof.
  induction l as [| cand l IH]; intros st total Hready Hl Hw Hc; cbn [plans_loop length] in *.
  - exists [], total, st. rewrite app_nil_r. split_and!; auto; [| constructor]. destruct Hready as (Hg & _ & _ & _ & _ & s & Es & Hws & _).
    unfold grown. split_and!; auto; [reflexivity |]. exists s, (column_items_ s). cbn [replicate concat]. rewrite app_nil_r. split_and!; auto. now destruct s.
  - destruct (generate_plan_ok (Z.of_nat (length l)) st total cand) as (p & total1 & st1 & -> & Hw1 & Ht1 & G1 & Hp & P1 & C1); auto with lia.
    { replace (Z.of_nat (length l) + 1) with (Z.of_nat (S (length l))) by lia. exact Hready. }
    { apply Hl. left. }
    cbn [mbind option_bind]. change (OB_SUCC OB_SUCCESS) with true. cbn iota. pose proof G1 as (_ & _ & _ & K1 & _).
    destruct (IH st1 total1) as (plans & total2 & st2 & -> & Ht2 & G2 & F2 & D2); auto.
    { apply (ready_grown _ st); [lia | exact G1 |]. now replace (Z.of_nat (length l) + 1) with (Z.of_nat (S (length l))) by lia. }
    { intros c Hin. apply (kept_live cols (ops_ st)); [exact K1 |]. apply Hl. now right. }
    { unfold ia_count in *. rewrite Ht1, length_app. cbn [length]. lia. }
    pose proof G2 as (_ & _ & _ & K2 & _). exists (mkCandidate p :: plans), total2, st2. split_and!; [reflexivity | | now apply (grown_trans _ _ st1) | |].
    + now rewrite Ht2, Ht1, <- app_assoc.
    + constructor.
      * split_and!; [exact Hp | now apply (placed_kept (ops_ st1)) |]. eapply (chain_kept cols); [reflexivity | exact K2 | exact C1].
      * apply Forall2_same_length_lookup_2; [now apply Forall2_length in F2 |]. intros i c q Hc' Hq'.
        destruct (Forall2_lookup_lr _ _ _ _ _ _ F2 Hc' Hq') as (Hq & Pq & Cq).
        assert (layers st1 c = layers st c) as El.
        { unfold layers. rewrite (distributed_law cols st st1); auto. apply Hl. right. now apply list_elem_of_lookup_2 in Hc'. }
        rewrite El in Cq. split_and!; [now apply (kept_new cols _ (ops_ st1)) | exact Pq |].
        eapply (chain_kept cols); [exact K1 | reflexivity | exact Cq].
    + cbn [map]. constructor; [| exact D2]. intros (q & Hq & [i Hi]%list_elem_of_lookup)%list_elem_of_fmap.
      destruct (Forall2_lookup_r _ _ _ _ _ F2 Hi) as (c & _ & Hnew & _ & _). cbn [plan_tree_] in Hq. rewrite <- Hq in Hnew.
      destruct P1 as (o & c1 & oc & Ho & _). congruence.
Qed.
End Place.
