(* ===== verification/UdfGen.v ===== *)
(** The operator for Python functions after planning: what [ObLogPythonUDF]
    ([src/sql/optimizer/ob_log_python_udf.cpp]) asks of its input and computes
    itself, and [ObStaticEngineCG::generate_spec]
    ([src/sql/code_generator/ob_static_engine_cg.cpp]), which fills the
    specification the operator of [PUOp] runs with.

    The runtime expression of a resolved one, [rt_expr_], is a parameter. *)
From S2P Require Import Prelude FixedArray SEArray IArray HashArray SortedVector UdfSchema.
From S2P Require Import Serialization UdfObject BatchSize UdfMeta Frame UdfExpr RawExpr UdfStmt.
From S2P Require Import UdfPlan.

(** The members of [ObStaticEngineCG] for the current operator, and those of
    [ObPythonUDFSpec]. *)
Record CgSt := mkCg { cur_op_exprs_ : SE ptr 8; cur_op_self_produced_exprs_ : SE ptr 8 }.
Record UdfSpec := mkUdfSpec { spec_udf_exprs_ : ObFixedArray.t ptr; spec_input_exprs_ : ObFixedArray.t ptr }.

Section Gen.
Context `{Allocator}.

(** ** [ObLogPythonUDF] *)
(** [ObLogicalOperator::get_op_exprs]. *)
Definition base_get_op_exprs `{ObIArray A ptr} (o : LogOp) (all_exprs : A) : option (Z * A) :=
  '(ret, a) ← append_array_no_dup all_exprs (items (filter_exprs_ o));
  if OB_FAIL ret then Some (ret, a)
  else
    '(ret, a) ← append_array_no_dup a (items (startup_exprs_ o));
    if OB_FAIL ret then Some (ret, a)
    else if is_plan_root_ o then append_array_no_dup a (items (output_exprs_ o)) else Some (OB_SUCCESS, a).
Definition get_op_exprs `{ObIArray A ptr} (o : LogOp) (all_exprs : A) : option (Z * A) :=
  '(ret, a) ← append all_exprs (items (log_filter_exprs_ o));
  if OB_FAIL ret then Some (ret, a) else base_get_op_exprs o a.
Definition is_my_fixed_expr (h : heap) (o : LogOp) (expr : ptr) : option (Z * bool) :=
  if expr =? NULL then Some (OB_ERR_UNEXPECTED, false)
  else e ← h !! expr;
       Some (OB_SUCCESS, bool_decide (type_ e = T_FUN_PYTHON_UDF) || find_item (log_projection_exprs_ o) expr || find_item (log_filter_exprs_ o) expr).

(** ** Code generation *)
Context (h : heap) (rt_expr : ptr -> ptr).
Definition mark_expr_self_produced (cg : CgSt) (p : ptr) : option (Z * CgSt) :=
  '(ret, a) ← ia_push_back (cur_op_self_produced_exprs_ cg) p; Some (ret, mkCg (cur_op_exprs_ cg) a).
(** [generate_rt_expr(src, dst)] of the object at [p]. *)
Definition generate_rt_expr (cg : CgSt) (p : ptr) : option (Z * ptr * CgSt) :=
  _ ← h !! p;
  if rt_expr p =? NULL then Some (OB_INVALID_ARGUMENT, NULL, cg)
  else '(ret, a) ← ia_push_back (cur_op_exprs_ cg) p; Some (ret, rt_expr p, mkCg a (cur_op_self_produced_exprs_ cg)).
(** The two loops; [OZ] does nothing after an error. *)
Fixpoint udf_loop (l : list ptr) (cg : CgSt) (a : ObFixedArray.t ptr) : option (Z * CgSt * ObFixedArray.t ptr) :=
  match l with
  | [] => Some (OB_SUCCESS, cg, a)
  | p :: l' =>
      '(ret, cg) ← mark_expr_self_produced cg p;
      if OB_FAIL ret then Some (ret, cg, a)
      else
        '(ret, rt, cg) ← generate_rt_expr cg p;
        if OB_FAIL ret then Some (ret, cg, a)
        else let '(ret, a) := ObFixedArray.push_back a rt in if OB_FAIL ret then Some (ret, cg, a) else udf_loop l' cg a
  end.
Fixpoint input_loop (l : list ptr) (cg : CgSt) (a : ObFixedArray.t ptr) : option (Z * CgSt * ObFixedArray.t ptr) :=
  match l with
  | [] => Some (OB_SUCCESS, cg, a)
  | p :: l' =>
      '(ret, rt, cg) ← generate_rt_expr cg p;
      if OB_FAIL ret then Some (ret, cg, a)
      else let '(ret, a) := ObFixedArray.push_back a rt in if OB_FAIL ret then Some (ret, cg, a) else input_loop l' cg a
  end.
(** The child is read also after an error. *)
Definition generate_spec (m : op_heap) (op : ptr) (spec : UdfSpec) (cg : CgSt) : option (Z * UdfSpec * CgSt) :=
  o ← m !! op;
  let '(ret, u) := ObFixedArray.init (spec_udf_exprs_ spec) (ia_count (log_python_udf_exprs_ o)) in
  '(ret, cg, u) ← (if OB_SUCC ret then udf_loop (items (log_python_udf_exprs_ o)) cg u else Some (ret, cg, u));
  child ← m !! get_first_child o;
  if OB_FAIL ret then Some (ret, mkUdfSpec u (spec_input_exprs_ spec), cg)
  else
    let '(ret, i) := ObFixedArray.init (spec_input_exprs_ spec) (ia_count (output_exprs_ child)) in
    '(ret, cg, i) ← (if OB_SUCC ret then input_loop (items (output_exprs_ child)) cg i else Some (ret, cg, i));
    Some (ret, mkUdfSpec u i, cg).

(** ** What they do when memory is available *)
Context (Hmem : forall n, alloc_ok n = true).
(** An array of [n] entries that is to take [l]. *)
Definition room (a : ObFixedArray.t ptr) (l : list ptr) : Prop :=
  ObFixedArray.wf a /\ (ObFixedArray.data_ a <> None \/ l = []) /\ ObFixedArray.count_ a + Z.of_nat (length l) <= ObFixedArray.capacity_ a.
Lemma room_init l : Z.of_nat (length l) < 2 ^ 31 ->
  exists a, ObFixedArray.init ObFixedArray.empty (Z.of_nat (length l)) = (OB_SUCCESS, a) /\ room a l /\ ObFixedArray.elems a = [].
Proof.
  intros Hl. unfold ObFixedArray.init, ObFixedArray.UINT32_MAX. cbn [ObFixedArray.data_ ObFixedArray.empty ObFixedArray.capacity_].
  rewrite (proj2 (Z.ltb_ge _ _)), (proj2 (Z.ltb_ge _ _)) by lia. cbn [orb]. destruct (Z.eqb_spec (Z.of_nat (length l)) 0) as [E | E].
  - destruct l; [| cbn in E; lia]. exists ObFixedArray.empty. split_and!; [reflexivity | | reflexivity]. split_and!; [apply ObFixedArray.wf_empty | auto | cbn; lia].
  - change (0 =? 0) with true. cbn iota. rewrite Hmem. eexists. split_and!; [reflexivity | | reflexivity].
    split_and!; [split; unfold ObFixedArray.init_cnt_; cbn; [lia | intros _; lia] | left; discriminate | cbn; lia].
Qed.
Lemma room_push a x l : room a (x :: l) -> exists a', ObFixedArray.push_back a x = (OB_SUCCESS, a') /\ room a' l /\
  ObFixedArray.elems a' = ObFixedArray.elems a ++ [x].
Proof.
  intros (Hw & [Hd | ?] & Hc); [| discriminate]. cbn [length] in Hc. pose proof (ObFixedArray.push_back_spec a x Hw Hd) as Hp.
  rewrite (proj2 (Z.ltb_lt _ _)) in Hp by lia. destruct Hp as (a' & -> & Hw' & Hd' & He & Hcap & Hn). exists a'. unfold room. rewrite Hcap, Hn.
  split_and!; auto. lia.
Qed.

(** Every expression has its runtime expression. *)
Definition generated (l : list ptr) : Prop := forall p, p ∈ l -> is_Some (h !! p) /\ rt_expr p <> NULL.
Definition cg_wf (cg : CgSt) (n : Z) : Prop :=
  ia_wf (cur_op_exprs_ cg) /\ ia_wf (cur_op_self_produced_exprs_ cg) /\
  ia_count (cur_op_exprs_ cg) + n < 2 ^ 41 /\ ia_count (cur_op_self_produced_exprs_ cg) + n < 2 ^ 41.
(** The loops append the expressions [l], marked as computed here or not. *)
Definition filled (l : list ptr) (self : list ptr) (cg : CgSt) (a : ObFixedArray.t ptr) (r : option (Z * CgSt * ObFixedArray.t ptr)) : Prop :=
  exists cg' a', r = Some (OB_SUCCESS, cg', a') /\ ObFixedArray.elems a' = ObFixedArray.elems a ++ map rt_expr l /\
    ia_wf (cur_op_exprs_ cg') /\ items (cur_op_exprs_ cg') = items (cur_op_exprs_ cg) ++ l /\
    ia_wf (cur_op_self_produced_exprs_ cg') /\ items (cur_op_self_produced_exprs_ cg') = items (cur_op_self_produced_exprs_ cg) ++ self.
Lemma push_ok {A} `{!ObIArray A ptr, !ObIArrayLaws A ptr} (a : A) (x : ptr) : ia_wf a -> ia_count a < 2 ^ 41 ->
  exists a', ia_push_back a x = Some (OB_SUCCESS, a') /\ ia_wf a' /\ items a' = items a ++ [x].
Proof. intros Hw Hn. destruct (push_adds a x Hw Hn) as (ret & a' & -> & Hw' & [[-> Hi] | (_ & _ & k & Hk)]); [eauto | now rewrite Hmem in Hk]. Qed.
Lemma generate_rt_ok cg p n : generated [p] -> cg_wf cg (n + 1) -> 0 <= n ->
  exists a, generate_rt_expr cg p = Some (OB_SUCCESS, rt_expr p, mkCg a (cur_op_self_produced_exprs_ cg)) /\
    ia_wf a /\ items a = items (cur_op_exprs_ cg) ++ [p].
Proof.
  intros Hg (Hw & _ & Hn & _) H0. destruct (Hg p) as [[e He] Hr]; [left |]. unfold generate_rt_expr. rewrite He, (proj2 (Z.eqb_neq _ _) Hr). cbn [mbind option_bind].
  destruct (push_ok (cur_op_exprs_ cg) p Hw ltac:(lia)) as (a & -> & Hwa & Ha). eauto.
Qed.
Lemma generated_cons p l : generated (p :: l) -> generated [p] /\ generated l.
Proof. intros Hg. split; intros q Hq; apply Hg; [apply list_elem_of_singleton in Hq as ->; left | now right]. Qed.
Lemma input_loop_ok l : forall cg a, generated l -> cg_wf cg (Z.of_nat (length l)) -> room a (map rt_expr l) -> filled l [] cg a (input_loop l cg a).
Proof.
  induction l as [| p l IH]; intros cg a Hg Hc Hr; cbn [input_loop].
  - exists cg, a. destruct Hc as (? & ? & _). cbn [map]. rewrite !app_nil_r. auto 10.
  - apply generated_cons in Hg as [Hp Hg]. cbn [length map] in *.
    destruct (generate_rt_ok cg p (Z.of_nat (length l)) Hp) as (b & -> & Hwb & Hb); [now replace (Z.of_nat (length l) + 1) with (Z.of_nat (S (length l))) by lia | lia |].
    cbn [mbind option_bind]. change (OB_FAIL OB_SUCCESS) with false. cbn iota. destruct (room_push a (rt_expr p) _ Hr) as (a1 & -> & Hr1 & Ha1).
    change (OB_FAIL OB_SUCCESS) with false. cbn iota. destruct Hc as (_ & Hws & Hn & Hns).
    destruct (IH (mkCg b (cur_op_self_produced_exprs_ cg)) a1 Hg) as (cg' & a' & -> & Ha' & Hw1 & Hi1 & Hw2 & Hi2); auto.
    { unfold cg_wf, ia_count in *. cbn [cur_op_exprs_ cur_op_self_produced_exprs_]. rewrite Hb, length_app. cbn [length]. split_and!; auto; lia. }
    exists cg', a'. cbn [cur_op_exprs_ cur_op_self_produced_exprs_] in *. rewrite Ha', Ha1, Hi1, Hb, <- !app_assoc. auto 10.
Qed.
Lemma udf_loop_ok l : forall cg a, generated l -> cg_wf cg (Z.of_nat (length l)) -> room a (map rt_expr l) -> filled l l cg a (udf_loop l cg a).
Proof.
  induction l as [| p l IH]; intros cg a Hg Hc Hr; cbn [udf_loop].
  - exists cg, a. destruct Hc as (? & ? & _). cbn [map]. rewrite !app_nil_r. auto 10.
  - apply generated_cons in Hg as [Hp Hg]. cbn [length map] in *. destruct Hc as (Hw & Hws & Hn & Hns). unfold mark_expr_self_produced.
    destruct (push_ok (cur_op_self_produced_exprs_ cg) p Hws ltac:(lia)) as (s & -> & Hs & Es). cbn [mbind option_bind]. change (OB_FAIL OB_SUCCESS) with false. cbn iota.
    assert (cg_wf (mkCg (cur_op_exprs_ cg) s) (Z.of_nat (length l))) as (_ & _ & _ & Hns').
    { unfold cg_wf, ia_count in *. cbn [cur_op_exprs_ cur_op_self_produced_exprs_]. rewrite Es, length_app. cbn [length]. split_and!; auto; lia. }
    unfold generate_rt_expr. destruct (Hp p) as [[e He] Hrt]; [left |]. rewrite He, (proj2 (Z.eqb_neq _ _) Hrt). cbn [mbind option_bind cur_op_exprs_].
    destruct (push_ok (cur_op_exprs_ cg) p Hw ltac:(lia)) as (b & -> & Hwb & Hb). cbn [mbind option_bind cur_op_self_produced_exprs_].
    change (OB_FAIL OB_SUCCESS) with false. cbn iota. destruct (room_push a (rt_expr p) _ Hr) as (a1 & -> & Hr1 & Ha1).
    change (OB_FAIL OB_SUCCESS) with false. cbn iota. destruct (IH (mkCg b s) a1 Hg) as (cg' & a' & -> & Ha' & Hw1 & Hi1 & Hw2 & Hi2); auto.
    { unfold cg_wf, ia_count in *. cbn [cur_op_exprs_ cur_op_self_produced_exprs_] in *. rewrite Hb, length_app. cbn [length]. split_and!; auto; lia. }
    exists cg', a'. cbn [cur_op_exprs_ cur_op_self_produced_exprs_] in *. rewrite Ha', Ha1, Hi1, Hi2, Hb, Es, <- !app_assoc. auto 10.
Qed.
End Gen.
