(* ===== verification/UdfProduce.v ===== *)
(** Who computes which expression: [ObAllocExprContext], [ExprProducer] and
    [ObLogicalOperator::mark_expr_produced]
    ([src/sql/optimizer/ob_logical_operator.cpp] and [.h]), and
    [ObLogPythonUDF::allocate_expr_post] ([ob_log_python_udf.cpp]), by which the
    operator becomes the producer of its calls; and
    [ObLogPythonUDF::collect_expr_metadata].

    The two hash maps of the context are finite maps that have memory; [create_ret]
    is the code of creating the first.  Two members of expressions that [RawExpr]
    leaves out are parameters: the flag [CNT_COLUMN], and the dependent expression
    of a column, null for most.  The check of the stack's depth is not modelled. *)
From S2P Require Import Prelude FixedArray SEArray IArray HashArray SortedVector UdfSchema.
From S2P Require Import Serialization UdfObject BatchSize UdfMeta RawExpr UdfPlan.

Record ExprProducer := mkProducer { expr_ : ptr; producer_branch_ : Z; consumer_id_ : Z; producer_id_ : Z }.
#[global] Instance size_of_producer : SizeOf ExprProducer :=
  {| size_of := 32; default_of := mkProducer NULL OB_INVALID_ID OB_INVALID_ID OB_INVALID_ID |}.
#[global] Instance size_of_producer_ok : SizeOfOk ExprProducer.
Proof. split; reflexivity. Qed.

(** ** [ObAllocExprContext] *)
Module ObAllocExprContext.
Record t := mk { expr_producers_ : SE ExprProducer 16; expr_map_ : gmap ptr Z; flattern_expr_map_ : gmap ptr Z }.

Section Ops.
Context `{Allocator} (h : heap) (create_ret : Z).

(** [find]: the index of the producer, [None] when it is null. *)
Definition find (ctx : t) (expr : ptr) : Z * option Z :=
  let n := ia_count (expr_producers_ ctx) in
  if n =? 0 then (OB_SUCCESS, None)
  else if negb (n =? Z.of_nat (size (expr_map_ ctx))) then (OB_ERR_UNEXPECTED, None)
  else match expr_map_ ctx !! expr with
       | None => (OB_SUCCESS, None)
       | Some idx =>
           if (idx <? 0) || (n <=? idx) then (OB_ERR_UNEXPECTED, None)
           else match items (expr_producers_ ctx) !! Z.to_nat idx with
                | Some p => if expr =? expr_ p then (OB_SUCCESS, Some idx) else (OB_ERR_UNEXPECTED, None)
                | None => (OB_ERR_UNEXPECTED, None)
                end
       end.

(** [add_flattern_expr]: one more reference to the expression and to those below it. *)
Fixpoint flattern_params (f : gmap ptr Z -> ptr -> option (Z * gmap ptr Z)) (ps : list ptr) (m : gmap ptr Z) : option (Z * gmap ptr Z) :=
  match ps with
  | [] => Some (OB_SUCCESS, m)
  | p :: ps' => '(ret, m) ← f m p; if OB_SUCC ret then flattern_params f ps' m else Some (ret, m)
  end.
Fixpoint add_flattern_expr (fuel : nat) (m : gmap ptr Z) (expr : ptr) : option (Z * gmap ptr Z) :=
  match fuel with
  | O => None
  | S fuel' =>
      let '(ret, m) :=
        match m !! expr with
        | None => (OB_SUCCESS, <[expr := 1]> m)
        | Some ref_cnt => if ref_cnt <? 0 then (OB_ERR_UNEXPECTED, m) else (OB_SUCCESS, <[expr := ref_cnt + 1]> m)
        end in
      e ← h !! expr;
      if OB_SUCC ret then flattern_params (add_flattern_expr fuel') (params e) m else Some (ret, m)
  end.
(** [get_expr_ref_cnt]. *)
Definition get_expr_ref_cnt (ctx : t) (expr : ptr) : Z * Z := (OB_SUCCESS, default 0 (flattern_expr_map_ ctx !! expr)).

(** [add]: a failed creation of the map is not reported. *)
Definition add (ctx : t) (producer : ExprProducer) : option (Z * t) :=
  '(ret, a) ← ia_push_back (expr_producers_ ctx) producer;
  let ctx := mk a (expr_map_ ctx) (flattern_expr_map_ ctx) in
  if OB_FAIL ret then Some (ret, ctx)
  else if (ia_count a =? 1) && negb (create_ret =? OB_SUCCESS) then Some (ret, ctx)
  else
    match expr_map_ ctx !! expr_ producer with
    | Some _ => Some (OB_HASH_EXIST, ctx)
    | None =>
        let ctx := mk a (<[expr_ producer := ia_count a - 1]> (expr_map_ ctx)) (flattern_expr_map_ ctx) in
        '(ret, m) ← add_flattern_expr (size h) (flattern_expr_map_ ctx) (expr_ producer);
        Some (ret, mk a (expr_map_ ctx) m)
    end.

(** An assignment to members of the producer at an index. *)
Definition set_producer (ctx : t) (idx : Z) (p : ExprProducer) : t :=
  let a := se (expr_producers_ ctx) in
  mk (mkSE (ObSEArray.mk (<[Z.to_nat idx := p]> (ObSEArray.items_ a)) (ObSEArray.capacity_ a) (ObSEArray.error_ a)))
     (expr_map_ ctx) (flattern_expr_map_ ctx).
End Ops.
End ObAllocExprContext.

Section Produce.
Context `{Allocator} (h : heap) (create_ret : Z).
Context (cnt_column : ptr -> bool) (dependant_expr : ptr -> ptr).
Abbreviation Ctx := ObAllocExprContext.t.
Import ObAllocExprContext.

(** ** [ObLogicalOperator] *)
(** [mark_expr_produced], called by the operator with id [id]. *)
Definition mark_expr_produced (id : Z) (expr : ptr) (branch_id producer_id : Z) (ctx : Ctx) : option (Z * Ctx) :=
  if (expr =? NULL) || (OB_INVALID_ID =? branch_id) || (OB_INVALID_ID =? producer_id) then Some (OB_ERR_UNEXPECTED, ctx)
  else
    let '(ret, found) := find ctx expr in
    if OB_FAIL ret then Some (ret, ctx)
    else match found with
         | None => add h create_ret ctx (mkProducer expr branch_id id producer_id)
         | Some idx =>
             p ← items (expr_producers_ ctx) !! Z.to_nat idx;
             if producer_branch_ p =? OB_INVALID_ID
             then Some (OB_SUCCESS, set_producer ctx idx (mkProducer (expr_ p) branch_id (consumer_id_ p) producer_id))
             else Some (OB_SUCCESS, ctx)
         end.

(** [expr_has_been_produced], asked by an operator of branch [branch_id]. *)
Definition expr_has_been_produced (branch_id : Z) (expr : ptr) (ctx : Ctx) : option (Z * bool) :=
  let '(ret, found) := find ctx expr in
  if OB_FAIL ret then Some (ret, false)
  else match found with
       | None => Some (ret, false)
       | Some idx =>
           p ← items (expr_producers_ ctx) !! Z.to_nat idx;
           Some (ret, negb (OB_INVALID_ID =? producer_branch_ p) && (branch_id <=? producer_branch_ p))
       end.
(** [expr_can_be_produced], and its loop over the parameters. *)
Fixpoint can_params (branch_id : Z) (f : ptr -> option (Z * bool)) (ps : list ptr) (ctx : Ctx) : option (Z * bool) :=
  match ps with
  | [] => Some (OB_SUCCESS, true)
  | p :: ps' =>
      if p =? NULL then Some (OB_ERR_UNEXPECTED, true)
      else
        '(ret, param_produced) ← expr_has_been_produced branch_id p ctx;
        if OB_FAIL ret then Some (ret, true)
        else if (param_produced : bool) then can_params branch_id f ps' ctx
        else
          '(ret, param_produced) ← f p;
          if OB_FAIL ret then Some (ret, true)
          else if (param_produced : bool) then can_params branch_id f ps' ctx
          else Some (ret, false)
  end.
Fixpoint expr_can_be_produced (fuel : nat) (branch_id : Z) (expr : ptr) (ctx : Ctx) : option (Z * bool) :=
  match fuel with
  | O => None
  | S fuel' =>
      if expr =? NULL then Some (OB_ERR_UNEXPECTED, false)
      else
        e ← h !! expr;
        match params e with
        | [] =>
            '(ret, can_be_produced) ← expr_has_been_produced branch_id expr ctx;
            if OB_FAIL ret || can_be_produced then Some (ret, can_be_produced)
            else if negb (cnt_column expr) then Some (ret, true)
            else if bool_decide (type_ e = T_REF_COLUMN) && negb (dependant_expr expr =? NULL)
            then expr_can_be_produced fuel' branch_id (dependant_expr expr) ctx
            else Some (ret, false)
        | ps => can_params branch_id (fun p => expr_can_be_produced fuel' branch_id p ctx) ps ctx
        end
  end.

(** [is_child_output_exprs]. *)
Definition is_child_output_exprs (m : op_heap) (o : LogOp) (expr : ptr) : option bool :=
  (fix any (cs : list ptr) : option bool :=
     match cs with
     | [] => Some false
     | c :: cs' => if c =? NULL then any cs' else child ← m !! c; if find_item (output_exprs_ child) expr then Some true else any cs'
     end) (items (child_ o)).

(** [allocate_expr_post] of the base class for an operator that is neither an
    exchange nor passes the expressions of its child on: one producer, then all. *)
Definition produce_now (o : LogOp) (ctx : Ctx) (i : Z) (p : ExprProducer) : option (Z * Ctx) :=
  if (OB_INVALID_ID =? producer_branch_ p) && (producer_id_ p =? id_ o) then
    '(ret, can_be_produced) ← expr_can_be_produced (size h) (branch_id_ o) (expr_ p) ctx;
    Some (if OB_FAIL ret then (ret, ctx)
          else if (can_be_produced : bool) then (ret, set_producer ctx i (mkProducer (expr_ p) (branch_id_ o) (consumer_id_ p) (id_ o)))
          else (OB_ERR_UNEXPECTED, ctx))
  else Some (OB_SUCCESS, ctx).
Definition post_producer (m : op_heap) (o : LogOp) (ctx : Ctx) (i : Z) (outputs : SE ptr 8) : option (Z * Ctx * SE ptr 8) :=
  p ← items (expr_producers_ ctx) !! Z.to_nat i;
  if producer_id_ p <=? id_ o then
    if expr_ p =? NULL then Some (OB_ERR_UNEXPECTED, ctx, outputs)
    else
      '(ret, ctx) ← produce_now o ctx i p;
      p ← items (expr_producers_ ctx) !! Z.to_nat i;
      if OB_SUCC ret && negb (OB_INVALID_ID =? producer_branch_ p) && (id_ o <? consumer_id_ p) then
        if is_plan_root_ o then Some (ret, ctx, outputs)
        else
          from_child ← is_child_output_exprs m o (expr_ p);
          if from_child || (producer_id_ p =? id_ o)
          then '(ret, outputs) ← add_var_to_array_no_dup outputs (expr_ p); Some (ret, ctx, outputs)
          else Some (ret, ctx, outputs)
      else Some (ret, ctx, outputs)
  else Some (OB_SUCCESS, ctx, outputs).
Fixpoint post_loop (n : nat) (m : op_heap) (o : LogOp) (ctx : Ctx) (i : Z) (outputs : SE ptr 8) : option (Z * Ctx * SE ptr 8) :=
  match n with
  | O => Some (OB_SUCCESS, ctx, outputs)
  | S n' =>
      '(ret, ctx, outputs) ← post_producer m o ctx i outputs;
      if OB_SUCC ret then post_loop n' m o ctx (i + 1) outputs else Some (ret, ctx, outputs)
  end.
Definition base_allocate_expr_post (m : op_heap) (o : LogOp) (ctx : Ctx) (outputs : SE ptr 8) : option (Z * Ctx * SE ptr 8) :=
  post_loop (length (items (expr_producers_ ctx))) m o ctx 0 outputs.

(** ** [ObLogPythonUDF] *)
Fixpoint produce_loop (o : LogOp) (l : list ptr) (ctx : Ctx) : option (Z * Ctx) :=
  match l with
  | [] => Some (OB_SUCCESS, ctx)
  | p :: l' =>
      if p =? NULL then Some (OB_ERR_UNEXPECTED, ctx)
      else '(ret, ctx) ← mark_expr_produced (id_ o) p (branch_id_ o) (id_ o) ctx;
           if OB_SUCC ret then produce_loop o l' ctx else Some (ret, ctx)
  end.
Fixpoint output_loop (o : LogOp) (l : list ptr) (outputs : SE ptr 8) : option (Z * SE ptr 8) :=
  match l with
  | [] => Some (OB_SUCCESS, outputs)
  | p :: l' =>
      if p =? NULL then Some (OB_ERR_UNEXPECTED, outputs)
      else if is_plan_root_ o then output_loop o l' outputs
      else '(ret, outputs) ← add_var_to_array_no_dup outputs p;
           if OB_SUCC ret then output_loop o l' outputs else Some (ret, outputs)
  end.
Definition allocate_expr_post (m : op_heap) (o : LogOp) (ctx : Ctx) : option (Z * Ctx * LogOp) :=
  '(ret, ctx) ← produce_loop o (items (log_python_udf_exprs_ o)) ctx;
  if OB_FAIL ret then Some (ret, ctx, o)
  else
    '(ret, outputs) ← output_loop o (items (log_projection_exprs_ o)) (output_exprs_ o);
    if OB_FAIL ret then Some (ret, ctx, set_outputs o outputs)
    else '(ret, ctx, outputs) ← base_allocate_expr_post m o ctx outputs; Some (ret, ctx, set_outputs o outputs).

(** [collect_expr_metadata], which nothing calls: the metadata of the calls in an expression. *)
Fixpoint collect_params {A} (f : ptr -> A -> option (Z * A)) (ps : list ptr) (metas : A) : option (Z * A) :=
  match ps with
  | [] => Some (OB_SUCCESS, metas)
  | p :: ps' => '(ret, metas) ← f p metas; if OB_SUCC ret then collect_params f ps' metas else Some (ret, metas)
  end.
Fixpoint collect_expr_metadata (fuel : nat) `{ObIArray A ObPythonUDFMeta.t} (expr : ptr) (metas : A) : option (Z * A) :=
  match fuel with
  | O => None
  | S fuel' =>
      e ← h !! expr;
      '(ret, metas) ← (if decide (type_ e = T_FUN_PYTHON_UDF) then ia_push_back metas (udf_meta_ e) else Some (OB_SUCCESS, metas));
      if OB_SUCC ret then collect_params (collect_expr_metadata fuel') (params e) metas else Some (ret, metas)
  end.
End Produce.
