(* ===== verification/UdfCmd.v ===== *)
(** The statements [CREATE PYTHON_UDF] and [DROP PYTHON_UDF] from the parse tree
    to the root server: [ObDropPythonUdfResolver::resolve]
    ([src/sql/resolver/ddl/ob_drop_python_udf_resolver.cpp]; that of the other
    statement is in [UdfCreate]) and the two executors
    ([src/sql/engine/cmd/ob_python_udf_executor.cpp]).

    The call over the network, of the proxy the executor finds, is a parameter. *)
From S2P Require Import Prelude FixedArray SEArray IArray HashArray SortedVector UdfSchema.
From S2P Require Import Serialization UdfObject BatchSize UdfMeta SerialFacts UdfFacts.
From S2P Require Import UdfCreate Frame UdfExpr RawExpr.
From S2P Require Import SqlText SqlClient UdfDdl SqlFacts UdfCall.
Import ObString.

(** What the executor finds in its context. *)
Record ExecCtx := mkExec {
  get_first_stmt : Z;
  task_exec_ctx : bool;
  get_common_rpc : Z;
  common_rpc_proxy : bool
}.

Section Cmd.
Context `{Allocator, SqlClient} (cx : Ctx) (x : ExecCtx).

(** [resolve]: the code and the argument of the statement, when there is one.
    A missing name is read. *)
Definition resolve_drop (has_allocator : bool) (sizeof_stmt : Z) (casedn : bytes -> bytes) (tree : ParseNode) :
    option (Z * option ObDropPythonUdfArg) :=
  if negb (has_session cx) || negb (has_schema_checker cx) || negb has_allocator || negb (bool_decide (node_type tree = T_DROP_PYTHON_UDF))
     || negb (2 =? node_children tree)
  then Some (OB_ERR_UNEXPECTED, None)
  else
    if_node ← child tree 0;
    if match if_node with Some n => negb (bool_decide (node_type n = T_IF_EXISTS)) | None => false end then Some (OB_ERR_UNEXPECTED, None)
    else if OB_FAIL (get_collation_connection cx) then Some (get_collation_connection cx, None)
    else
      name_node ← child tree 1; name_node ← name_node;
      '(ret, s) ← ob_write_string (obstr_of (str_value_ name_node));
      if OB_FAIL ret then Some (OB_ALLOCATE_MEMORY_FAILED, None)
      else
        let lower_name := casedn (default [] (obstr_bytes s)) in
        if negb (alloc_ok sizeof_stmt) then Some (OB_ALLOCATE_MEMORY_FAILED, None)
        else Some (OB_SUCCESS, Some (mkDrop (effective_tenant_id cx) lower_name (match if_node with Some _ => true | None => false end))).

(** The two executors; the text of the statement goes along with the argument. *)
Definition execute_create (create_python_udf : ObPythonUDF.t -> Data -> option (Z * Data)) (arg : ObPythonUDF.t) (d : Data) : option (Z * Data) :=
  if OB_FAIL (get_first_stmt x) then Some (get_first_stmt x, d)
  else if negb (task_exec_ctx x) then Some (OB_NOT_INIT, d)
  else if OB_FAIL (get_common_rpc x) then Some (get_common_rpc x, d)
  else if negb (common_rpc_proxy x) then Some (OB_ERR_UNEXPECTED, d)
  else create_python_udf arg d.
Definition execute_drop (drop_python_udf : ObDropPythonUdfArg -> Data -> option (Z * Data)) (arg : ObDropPythonUdfArg) (d : Data) : option (Z * Data) :=
  if OB_FAIL (get_first_stmt x) then Some (get_first_stmt x, d)
  else if negb (task_exec_ctx x) then Some (OB_NOT_INIT, d)
  else if OB_FAIL (get_common_rpc x) then Some (get_common_rpc x, d)
  else if negb (common_rpc_proxy x) then Some (OB_ERR_UNEXPECTED, d)
  else drop_python_udf arg d.

(** A statement: it is executed when it resolves. *)
Definition create_statement rpc (sizeof_stmt : Z) (node : CreateNode) (d : Data) : option (Z * Data) :=
  match resolve sizeof_stmt (effective_tenant_id cx) node with
  | (ret, Some u) => if OB_FAIL ret then Some (ret, d) else execute_create rpc u d
  | (ret, None) => Some (ret, d)
  end.
Definition drop_statement rpc has_allocator (sizeof_stmt : Z) casedn (tree : ParseNode) (d : Data) : option (Z * Data) :=
  r ← resolve_drop has_allocator sizeof_stmt casedn tree;
  match (r : Z * option ObDropPythonUdfArg) with
  | (ret, Some a) => if OB_FAIL ret then Some (ret, d) else execute_drop rpc a d
  | (ret, None) => Some (ret, d)
  end.

(** ** What they do when nothing fails *)
Definition exec_ok : Prop :=
  get_first_stmt x = OB_SUCCESS /\ task_exec_ctx x = true /\ get_common_rpc x = OB_SUCCESS /\ common_rpc_proxy x = true.
(** [DROP PYTHON_UDF [IF EXISTS] name]. *)
Definition drop_node (if_exists : bool) (name : bytes) : ParseNode :=
  PNode T_DROP_PYTHON_UDF [] [if if_exists then Some (PNode T_IF_EXISTS [] []) else None; Some (PNode (T_NODE 0) name [])].

Lemma execute_create_ok rpc u d : exec_ok -> execute_create rpc u d = rpc u d.
Proof. intros (E1 & E2 & E3 & E4). unfold execute_create. now rewrite E1, E2, E3, E4. Qed.
Lemma execute_drop_ok rpc a d : exec_ok -> execute_drop rpc a d = rpc a d.
Proof. intros (E1 & E2 & E3 & E4). unfold execute_drop. now rewrite E1, E2, E3, E4. Qed.
Lemma resolve_drop_ok sz casedn b name : (forall n, alloc_ok n = true) -> has_session cx = true -> has_schema_checker cx = true -> get_collation_connection cx = OB_SUCCESS ->
  Forall byte_ok name -> length name < 2 ^ 31 ->
  resolve_drop true sz casedn (drop_node b name) = Some (OB_SUCCESS, Some (mkDrop (effective_tenant_id cx) (casedn name) b)).
Proof.
  intros Hmem Hs Hk Hc Hn Hl. unfold resolve_drop. rewrite Hs, Hk, Hc, Hmem. change (2 =? node_children (drop_node b name)) with true.
  cbn [node_type drop_node negb orb]. rewrite bool_decide_true by reflexivity. cbn [negb orb]. cbn iota.
  unfold child. change (0 <? 0) with false. change (1 <? 0) with false. cbn iota. change (Z.to_nat 0) with 0%nat. change (Z.to_nat 1) with 1%nat.
  cbn [children_ drop_node lookup list_lookup mbind option_bind str_value_].
  destruct (obstr_of_valid name) as [Hv Hb]; [lia | exact Hn |]. destruct (ob_write_string_ok Hmem _ _ Hv Hb) as (s & -> & Es & _).
  cbn [mbind option_bind]. rewrite Es. destruct b; reflexivity.
Qed.
End Cmd.
