(* ===== verification/QueryTheorems.v ===== *)
(** The properties of Python functions in a query: C38 and C39. *)
From S2P Require Import Prelude FixedArray SEArray IArray HashArray SortedVector UdfSchema.
From S2P Require Import Serialization UdfObject BatchSize UdfMeta SerialFacts UdfFacts Frame.
From S2P Require Import UdfExpr RawExpr UdfStmt StmtFacts.
From S2P Require Import SqlText SqlClient UdfDdl SqlFacts DdlFacts DdlRep DdlSteps DdlRequests.
From S2P Require Import UdfCall CallFacts SqlDemo DdlTheorems.
Import ObString.

(** C38. [generate_python_udf_filters] ends, whatever memory there is, for
    conditions over expressions without cycles: each round of its loop takes a
    condition out of the list or passes over it.  It looks at the conditions in
    order and moves those with a call of a Python function, however deep, to the
    end of the list of filters; the others stay, in their order, and nothing else
    of the statement changes.  It stops early at a null condition or when memory
    runs out, and then the conditions [z] from there on are untouched: no
    condition is lost or doubled. *)
Theorem python_udf_filters_split `{Allocator} (h : heap) (s : Stmt) :
  ordered h -> ia_wf (condition_exprs_ s) -> ia_wf (python_udf_filter_exprs_ s) ->
  (forall p, p ∈ items (condition_exprs_ s) -> p = NULL \/ is_Some (h !! p)) ->
  ia_count (condition_exprs_ s) < 2 ^ 31 -> ia_count (python_udf_filter_exprs_ s) < 2 ^ 31 ->
  exists ret c f a z, generate_python_udf_filters h s = Some (ret, with_conditions s c f) /\
    items (condition_exprs_ s) = a ++ z /\
    items f = items (python_udf_filter_exprs_ s) ++ List.filter (calls h) a /\
    items c = List.filter (fun p => negb (calls h p)) a ++ z /\
    (forall p, is_Some (h !! p) ->
       calls h p = true <-> exists q e, sub h p q /\ h !! q = Some e /\ type_ e = T_FUN_PYTHON_UDF) /\
    (ret = OB_SUCCESS /\ z = [] \/ ret = OB_INVALID_ARGUMENT /\ head z = Some NULL \/
     ret = OB_ALLOCATE_MEMORY_FAILED /\ exists k, alloc_ok k = false).
Proof.
  intros Ho Hc Hf Hobj Hn Hm. unfold generate_python_udf_filters. unfold ia_count in Hn, Hm.
  destruct (split_loop_spec h Ho (S (List.length (items (condition_exprs_ s)))) [] (items (condition_exprs_ s))
              (condition_exprs_ s) (python_udf_filter_exprs_ s)) as (ret & c & f & a & z & E & _ & _ & Ea & Ef & Ec & Hs); auto with lia.
  - unfold ia_count. lia.
  - exists ret, c, f, a, z. change (Z.of_nat (List.length (@nil Z))) with 0 in E. rewrite E. split_and!; auto. intros p Hp. now apply calls_spec.
Qed.

(** C39. A call [PREDICT name(args)] in a query, with or without a batch size, of a
    name without quotes and backslashes, resolves against the functions the table
    holds, in any case of letters.  A
    name with no function is [OB_ERR_FUNCTION_UNKNOWN], a number of arguments
    other than the declared one [OB_INVALID_ARGUMENT], and neither changes
    anything.  Otherwise, unless the name is [bin] or [oct], the call becomes a new
    expression of the query: its metadata holds the name, return type, body and
    argument types of that function, and the batch size asked for when that is from
    256 to 8192 (any other size is ignored: the function starts at 256 and adapts,
    as without one); its parameters are the resolved arguments in order, it is
    added to the calls of the query, and the expressions there were are unchanged.
    (A function named [bin] or [oct] is taken for the system function.) *)
Theorem call_binds_function `{Allocator, SqlLaws, ObIArray A ptr} `{!ObIArrayLaws A ptr, Resolver A, !ResolverLaws A}
    (cx : Ctx) (st : St A) d g name args batch bs expr :
  (forall n, alloc_ok n = true) -> (forall t text d, sql_up t text d = true) -> ctx_ok cx -> rep d g ->
  plain name -> name <> [] -> length name < 2 ^ 27 -> effective_tenant_id cx <> OB_INVALID_ID -> batch_asked batch bs ->
  parents_expr_info_ st = no_parents -> ia_wf (ctx_udfs st) -> ia_count (ctx_udfs st) < 2 ^ 31 ->
  match g !! key (effective_tenant_id cx) name with
  | None => process_python_udf_node cx (Some (call_node name args batch)) expr st d = Some (Returns (OB_ERR_FUNCTION_UNKNOWN, expr, st))
  | Some f =>
      (fn_arg_num f <> Z.of_nat (List.length args) ->
       process_python_udf_node cx (Some (call_node name args batch)) expr st d = Some (Returns (OB_INVALID_ARGUMENT, expr, st))) /\
      (forall names tys, fn_arg_num f = Z.of_nat (List.length args) -> args_ok (of_fn 0 [] f) names tys ->
       length (fn_name f) < 2 ^ 31 -> length (fn_pycall f) < 2 ^ 31 -> Forall (resolvable (A := A)) args ->
       case_equal (casedn name) (chars "bin") = false -> case_equal (casedn name) (chars "oct") = false ->
       exists p e st', process_python_udf_node cx (Some (call_node name args batch)) expr st d = Some (Returns (OB_SUCCESS, p, st')) /\
         st_heap st !! p = None /\ st_heap st' !! p = Some e /\ (forall q x, st_heap st !! q = Some x -> st_heap st' !! q = Some x) /\
         type_ e = T_FUN_PYTHON_UDF /\ Forall2 (resolved_to (A := A)) args (params e) /\
         carries (udf_meta_ e) (fn_name f) (fn_ret f) (fn_pycall f) tys /\ func_name_ e = casedn name /\
         takes_batch (udf_meta_ e) bs /\
         parents_expr_info_ st' = no_parents /\ items (ctx_udfs st') = items (ctx_udfs st) ++ [p])
  end.
Proof.
  intros Hmem Hup Hcx Hr Hn Hne Hl Ht Hb Hps Hw Hc.
  pose proof (call_enters Hmem cx st d name args batch bs expr Hcx Hn Hne Hl Hb Hps) as He.
  pose proof (checker_ok Hmem Hup cx d g (effective_tenant_id cx) name Hcx Hr Hn Hne Hl Ht) as Hck.
  destruct (g !! key (effective_tenant_id cx) name) as [f |] eqn:Eg.
  - split; [intros Hnum; rewrite He; exact (call_wrong_number cx st d name args bs expr _ f Hck Hnum) |].
    intros names tys Hnum Hargs Hln Hlp Hres Hbin Hoct. rewrite He. destruct (rep_ok d g _ _ f Hr Eg) as [Hok _].
    now apply (call_resolves Hmem cx st d name args bs expr (effective_tenant_id cx) f names tys).
  - rewrite He. now apply (call_unknown cx st d name args bs expr ObPythonUDF.new).
Qed.

(** ** Witnesses *)
#[local] Instance query_memory : Allocator := fun _ => true.
Definition expr_of (type : ItemType) (ps : list ptr) : RawExpr :=
  mkRaw type (mkSE (ObSEArray.mk ps 16 OB_SUCCESS)) ObPythonUDFMeta.new [] 0 0 [].
(** A column [1], a call [2] of a function of it, a comparison [3] of the call
    with the column, and a test [4] of the column. *)
Definition demo_heap : heap :=
  <[1 := expr_of T_REF_COLUMN []]> (<[2 := expr_of T_FUN_PYTHON_UDF [1]]>
  (<[3 := expr_of (T_ITEM 7) [2; 1]]> (<[4 := expr_of (T_ITEM 8) [1]]> ∅))).
Definition demo_array {N} (l : list ptr) : SE ptr N := mkSE (ObSEArray.mk l 16 OB_SUCCESS).
Definition demo_stmt : Stmt := mkStmt (demo_array [4; 3; 4]) (demo_array []) (demo_array [2]) [] (mkSE (ObSEArray.mk [] 16 OB_SUCCESS)).

Ltac demo_cases H := unfold demo_heap in H; repeat (apply lookup_insert_Some in H as [[<- <-] | [_ H]]); [.. | now rewrite lookup_empty in H].
Lemma demo_ordered : ordered demo_heap.
Proof.
  split_and!; [reflexivity | intros p e He Ht; demo_cases He; easy |]. exists (fun p => Z.to_nat p - 1)%nat.
  assert (size demo_heap = 4%nat) as -> by reflexivity. intros p e He.
  demo_cases He; (split; [cbn; lia |]); intros q Hq; cbn in Hq; repeat (apply elem_of_cons in Hq as [-> | Hq]);
    try (now apply not_elem_of_nil in Hq); (split; [eexists; reflexivity | cbn; lia]).
Qed.
Lemma python_udf_filters_split_witness : exists ret c f a z,
  generate_python_udf_filters demo_heap demo_stmt = Some (ret, with_conditions demo_stmt c f) /\
    items (condition_exprs_ demo_stmt) = a ++ z /\
    items f = items (python_udf_filter_exprs_ demo_stmt) ++ List.filter (calls demo_heap) a /\
    items c = List.filter (fun p => negb (calls demo_heap p)) a ++ z /\
    (forall p, is_Some (demo_heap !! p) ->
       calls demo_heap p = true <-> exists q e, sub demo_heap p q /\ demo_heap !! q = Some e /\ type_ e = T_FUN_PYTHON_UDF) /\
    (ret = OB_SUCCESS /\ z = [] \/ ret = OB_INVALID_ARGUMENT /\ head z = Some NULL \/
     ret = OB_ALLOCATE_MEMORY_FAILED /\ exists k, alloc_ok k = false).
Proof.
  apply (python_udf_filters_split demo_heap demo_stmt demo_ordered); [unfold ia_wf; cbn; split; easy | unfold ia_wf; cbn; split; easy | | easy | easy].
  intros p Hp. right. cbn in Hp. repeat (apply elem_of_cons in Hp as [-> | Hp]); try (now apply not_elem_of_nil in Hp); now eexists.
Defined.
(** The comparison leaves the conditions. *)
Example demo_split : (fun x => (x.1, items (condition_exprs_ x.2), items (python_udf_filter_exprs_ x.2))) <$>
  generate_python_udf_filters demo_heap demo_stmt = Some (OB_SUCCESS, [4; 4], [3]).
Proof. reflexivity. Qed.

(** A resolver whose parameters are columns. *)
#[local] Instance demo_resolver : Resolver (SE ptr 8) := {|
  new_addr h := fresh (dom h ∪ {[NULL]});
  casedn := SmallSql.collate;
  recursive_resolve _ _ st :=
    let q := fresh (dom (st_heap st) ∪ {[NULL]}) in
    Some (Returns (OB_SUCCESS, q, with_heap st (<[q := expr_of T_REF_COLUMN []]> (st_heap st))))
|}.
Lemma fresh_addr (h : heap) : fresh (dom h ∪ {[NULL]}) <> NULL /\ h !! fresh (dom h ∪ {[NULL]}) = None.
Proof.
  pose proof (is_fresh (dom h ∪ {[NULL]} : gset Z)) as Hf. rewrite not_elem_of_union, not_elem_of_singleton in Hf.
  destruct Hf as [Hd Hn]. split; [exact Hn | now apply not_elem_of_dom].
Qed.
#[local] Instance demo_resolver_laws : ResolverLaws (SE ptr 8).
Proof.
  split.
  - exact fresh_addr.
  - intros s. cbn. unfold SmallSql.collate. rewrite map_map. apply map_ext. intros c. repeat case_match; lia.
  - intros s Hs. cbn. unfold SmallSql.collate, plain. apply Forall_map. eapply Forall_impl; [exact Hs |]. unfold byte_ok. intros c Hc. cbn. case_match; lia.
  - intros s Hs. cbn. unfold SmallSql.collate. now destruct s.
  - intros s. cbn. unfold SmallSql.collate, length. rewrite length_map. lia.
Qed.
Definition demo_fn : Fn := mkFn 500001 (chars "Dist") 2 (chars "a,b") (chars "REAL,REAL") REAL (chars "pyinitial pyfun") 1700.
Definition demo_rows : @Data small_client := [(1002, zip udf_columns (cells (of_fn 0 [] demo_fn)))].
Definition demo_catalogue : gmap (Z * bytes) Fn := <[(1002, chars "dist") := demo_fn]> ∅.
Lemma demo_rep : rep demo_rows demo_catalogue.
Proof.
  apply (rep_insert no_rows demo_rows ∅ 1002 demo_fn (zip udf_columns (cells (of_fn 0 [] demo_fn))) demo_empty).
  - split_and!; try easy; apply plain_bytes; now apply plain_decided.
  - intros c. apply small_row.
  - reflexivity.
  - intros t Ht. exact (rows_other [] 1002 t _ Ht).
  - intros r Hr. now apply list_elem_of_In in Hr.
Qed.
Definition demo_ctx : Ctx := mkCtx T_FIELD_LIST_SCOPE true true OB_SUCCESS 1002 true 64 64 OB_SUCCESS OB_SUCCESS OB_SUCCESS OB_SUCCESS.
Definition demo_st : St (SE ptr 8) := mkSt ∅ no_parents ia_new.
Definition demo_args : list (option ParseNode) := [Some (PNode (T_NODE 3) (chars "x") []); Some (PNode (T_NODE 3) (chars "y") [])].
Lemma demo_resolvable : Forall (resolvable (A := SE ptr 8)) demo_args.
Proof.
  assert (forall n, resolvable (A := SE ptr 8) (Some n)) as Hn; [| repeat constructor; apply Hn].
  intros n. exists n. split; [reflexivity |]. intros prev st. eexists _, _. split; [reflexivity |]. destruct (fresh_addr (st_heap st)) as [_ Hf].
  split_and!; try reflexivity; cbn [st_heap with_heap]; [rewrite lookup_insert_eq; eauto | now apply insert_subseteq].
Qed.
Lemma demo_fn_args : args_ok (of_fn 0 [] demo_fn) [chars "a"; chars "b"] [REAL; REAL].
Proof. exists [chars "REAL"; chars "REAL"]. split_and!; try reflexivity; repeat constructor; easy. Qed.

(** [PREDICT (512) DIST(x, y)]. *)
Lemma call_binds_function_witness : exists p e st',
  process_python_udf_node demo_ctx (Some (call_node (chars "DIST") demo_args (Some (chars "512")))) NULL demo_st demo_rows =
    Some (Returns (OB_SUCCESS, p, st')) /\
  st_heap st' !! p = Some e /\ carries (udf_meta_ e) (chars "Dist") REAL (chars "pyinitial pyfun") [REAL; REAL] /\
  ObPythonUDFMeta.batch_size_ (udf_meta_ e) = 512.
Proof.
  pose proof (call_binds_function demo_ctx demo_st demo_rows demo_catalogue (chars "DIST") demo_args (Some (chars "512")) 512 NULL) as Hc.
  specialize (Hc ltac:(reflexivity) ltac:(reflexivity) ltac:(split_and!; reflexivity) demo_rep ltac:(now apply plain_decided)
    ltac:(easy) ltac:(easy) ltac:(easy) ltac:(reflexivity) ltac:(reflexivity) (proj1 ia_new_law) ltac:(easy)). destruct Hc as [_ Hc].
  destruct (Hc [chars "a"; chars "b"] [REAL; REAL]) as (p & e & st' & E & _ & He & _ & _ & _ & Hcar & _ & Hb & _);
    [reflexivity | exact demo_fn_args | easy | easy | exact demo_resolvable | reflexivity | reflexivity |].
  exists p, e, st'. split_and!; [exact E | exact He | exact Hcar | apply Hb; lia].
Defined.
