(* ===== verification/PlanTheorems.v ===== *)
(** The properties of Python functions in the plan of a query: C40, the
    operators, and C14, the code generated for them. *)
From S2P Require Import Prelude FixedArray SEArray IArray HashArray SortedVector UdfSchema.
From S2P Require Import Serialization UdfObject BatchSize UdfMeta Frame UdfExpr RawExpr UdfStmt.
From S2P Require Import UdfPlan PlanFacts UdfGen QueryTheorems.

(** A plan of a query with Python functions, as the optimizer hands it over:
    expressions without cycles, arrays of a moderate size, live operators. *)
Record plan_ok `{Allocator} {column_size : SizeOf ColumnItem} {column_size_ok : SizeOfOk ColumnItem} (st : PlanSt) (s : Stmt) : Prop := {
  pk_stmt : stmt_ st = Some s;
  pk_udfs : has_python_udf s = true;
  pk_ordered : ordered (raw_ st);
  pk_size : Z.of_nat (size (raw_ st)) < 2 ^ 20;
  pk_select : forall x, x ∈ select_items_ s -> is_Some (raw_ st !! expr_ x);
  pk_filters : forall p, p ∈ items (python_udf_filter_exprs_ s) -> is_Some (raw_ st !! p);
  pk_columns : ia_wf (column_items_ s);
  pk_counts : Z.of_nat (length (select_items_ s)) < 2 ^ 31 /\ ia_count (python_udf_filter_exprs_ s) < 2 ^ 31 /\
    ia_count (python_udf_exprs_ s) < 2 ^ 31 /\ ia_count (column_items_ s) < 2 ^ 31;
  pk_best : 0 <= plain_plan_ st < Z.of_nat (length (candidate_plans_ st));
  pk_candidates : Z.of_nat (length (candidate_plans_ st)) < 2 ^ 20 /\
    forall c, c ∈ candidate_plans_ st -> is_Some (ops_ st !! plan_tree_ c);
  pk_ops : ops_ st !! NULL = None /\
    forall p o, ops_ st !! p = Some o -> ia_wf (output_exprs_ o) /\ ia_count (output_exprs_ o) < 2 ^ 31
}.

Section Placement.
Context `{Allocator, !Planner, !PlannerLaws} {column_size : SizeOf ColumnItem} {column_size_ok : SizeOfOk ColumnItem}.
Context (Hmem : forall n, alloc_ok n = true).

(** The columns of the filters, found once. *)
Lemma columns_found st s : plan_ok st s -> exists found : SE ptr 8,
  ready (items (python_udf_filter_exprs_ s)) found (Z.of_nat (length (candidate_plans_ st))) st /\ NoDup (items found) /\
  forall q, q ∈ items found <-> exists p, p ∈ items (python_udf_filter_exprs_ s) /\ sub (raw_ st) p q /\ column (raw_ st) q.
Proof.
  intros [Es _ Ho Hsz _ Hf Hwc (_ & _ & _ & Hcc) _ [Hcn _] [Hnull Hops]].
  destruct (extract_spec (raw_ st) (items (python_udf_filter_exprs_ s)) (ia_new : SE ptr 8) Ho ltac:(lia) Hf)
    as (ret & found & E & Hobj & _ & [[-> Hc] | (_ & k & Hk)]); [| | now rewrite Hmem in Hk].
  { split; [apply ia_new_law |]. rewrite (proj2 ia_new_law). split; [constructor | intros q Hq; now apply not_elem_of_nil in Hq]. }
  exists found. pose proof (objects_count _ _ Hobj) as Hlen. unfold ia_count in Hlen. split_and!; [| apply Hobj |].
  - split_and!; [split; [exact Hnull |] | exact E | apply Ho | apply Hobj | lia | exists s; split_and!; auto; lia].
    intros p o Hp. destruct (Hops p o Hp) as [Hw Hn]. split; [exact Hw |]. exists (outs o). auto.
  - intros q. rewrite Hc, (proj2 ia_new_law). split; [intros [Hq | ?]; [now apply not_elem_of_nil in Hq | assumption] | auto].
Qed.
Lemma best_plan_live st s : plan_ok st s -> exists c, get_best_plan st = (OB_SUCCESS, plan_tree_ c) /\ plan_tree_ c <> NULL.
Proof.
  intros [_ _ _ _ _ _ _ _ Hb [_ Hl] [Hn _]]. unfold get_best_plan. rewrite (proj2 (Z.ltb_ge _ _)) by lia.
  destruct (lookup_lt_is_Some_2 (candidate_plans_ st) (Z.to_nat (plain_plan_ st))) as [c Hc]; [lia |]. rewrite Hc. exists c. split; [reflexivity |].
  intros E. destruct (Hl c (list_elem_of_lookup_2 _ _ _ Hc)) as [o Ho]. congruence.
Qed.

(** C40. Planning a query with Python functions ends, when memory is available
    and the rest of the optimizer raises no error, and puts one new operator for
    them above every candidate plan, in the order of the candidates, which are the
    plans handed to pruning.  The operator has all calls of the statement, the
    select items with such a call, however deep, and as filters the conditions
    that were taken out of the [WHERE] clause.  Between it and the candidate plan
    there is nothing when that plan is not distributed; otherwise exactly an
    exchange, which is a receiving operator above a sending one, or, with an ordered
    coordinator, two exchanges with a sort between them ([layers]).  The operator
    directly below outputs every column the filters use.  The operators there were keep their children and
    filters, and their outputs in order, to which only such columns are added;
    the statement gets the column items, once for each candidate. *)
Theorem python_udf_operator_placed (st : PlanSt) (s : Stmt) : plan_ok st s ->
  let udfs := items (python_udf_exprs_ s) in
  let filters := items (python_udf_filter_exprs_ s) in
  let projections := List.filter (known (raw_ st) (python_udf_exprs_ s)) (map expr_ (select_items_ s)) in
  exists found plans st' c, candi_allocate_python_udf st = Some (prune_and_keep_best_plans st' plans) /\
    Forall2 (plan_for udfs projections filters found st st') (candidate_plans_ st) plans /\ NoDup (map plan_tree_ plans) /\
    (forall p, is_Some (raw_ st !! p) -> known (raw_ st) (python_udf_exprs_ s) p = true <->
       exists q e, sub (raw_ st) p q /\ raw_ st !! q = Some e /\ type_ e = T_FUN_PYTHON_UDF /\ q ∈ udfs) /\
    NoDup (items found) /\ (forall q, q ∈ items found <-> exists p, p ∈ filters /\ sub (raw_ st) p q /\ column (raw_ st) q) /\
    raw_ st' = raw_ st /\ kept (items found) (ops_ st) (ops_ st') /\ stmt_ st' = Some (with_columns s c) /\
    items c = items (column_items_ s) ++ concat (replicate (length (candidate_plans_ st)) (columns_of (raw_ st) (items found))).
Proof.
  intros Hok udfs filters projections. destruct (columns_found st s Hok) as (found & Hready & Hnd & Hcols).
  destruct (best_plan_live st s Hok) as (best & Hbest & Hbn). pose proof Hok as [Es Hudf Ho _ Hsel _ _ (Hns & Hnf & Hnu & _) Hb [Hnc Hcand] _].
  destruct (projection_loop_ok Hmem (raw_ st) (python_udf_exprs_ s) (select_items_ s) Ho ia_new Hsel (proj1 ia_new_law)) as (a & Ea & Ha).
  { unfold ia_count. rewrite (proj2 ia_new_law). cbn [length]. lia. }
  rewrite (proj2 ia_new_law) in Ha. cbn [app] in Ha. fold projections in Ha.
  destruct (ia_reuse_law (ia_new : SE CandidatePlan 8) (proj1 ia_new_law)) as [Hwt Hit].
  assert (Z.of_nat (length udfs) < 2 ^ 41 /\ Z.of_nat (length filters) < 2 ^ 41 /\ Z.of_nat (length projections) < 2 ^ 41) as (Hlu & Hlf & Hlp).
  { unfold udfs, filters, projections, ia_count in *. split_and!; [lia | lia |].
    pose proof (List.filter_length_le (known (raw_ st) (python_udf_exprs_ s)) (map expr_ (select_items_ s))) as Hle. rewrite length_map in Hle. lia. }
  destruct (plans_loop_ok Hmem udfs projections filters found Hlu Hlp Hlf (candidate_plans_ st) st (ia_reuse ia_new) Hready Hcand Hwt
    ltac:(unfold ia_count; rewrite Hit; cbn [length]; lia)) as (plans & total & st' & El & Et & G & F & D).
  pose proof G as (Er & _ & _ & Hk & s0 & c & Es0 & Es' & _ & Hc). rewrite Es in Es0. injection Es0 as <-.
  exists found, plans, st', c. split_and!; auto; [| intros p Hp; now apply known_spec].
  unfold candi_allocate_python_udf. rewrite Es. cbn [mbind option_bind]. rewrite Hudf, Hbest. cbn [negb]. change (OB_FAIL OB_SUCCESS) with false. cbn iota.
  rewrite (proj2 (Z.eqb_neq _ _) Hbn). unfold get_python_udf_exprs_from_top. rewrite Es, (proj2 (Z.eqb_neq _ _) Hbn), Ea. cbn [mbind option_bind].
  change (OB_FAIL OB_SUCCESS) with false. cbn iota. rewrite Ha. fold udfs filters. unfold allocate_for_candidates.
  destruct (candidate_plans_ st) as [| c0 l] eqn:Ecand; [cbn in Hb; lia |].
  assert (plan_tree_ c0 <> NULL) as Hc0. { intros E. destruct (Hcand c0) as [o Hc0]; [left |]. destruct Hok as [_ _ _ _ _ _ _ _ _ _ [? _]]. congruence. }
  rewrite (proj2 (Z.eqb_neq _ _) Hc0), El. cbn [mbind option_bind]. change (OB_FAIL OB_SUCCESS) with false. cbn iota.
  rewrite Hit in Et. cbn [app] in Et. unfold ia_count. rewrite Et.
  inversion F as [| ? p ? ? _ F' E1 E2]; subst. rewrite (proj2 (Z.eqb_neq _ _)) by (cbn [length]; lia). now rewrite order_info_law.
Qed.
End Placement.

(** C14. Code generation for an operator that planning placed, when every call of
    the statement and every output of the operator below has its runtime
    expression: [generate_spec] succeeds and fills the specification with the
    runtime expressions of all the calls and of all the outputs of the child, in
    order, so that every column a filter of the operator uses is among the inputs
    it passes through.  The calls, and only they, are marked as produced by the
    operator; the expressions it uses are the calls and those inputs. *)
Theorem operator_spec_generated `{Allocator} (h : heap) (rt_expr : ptr -> ptr) udfs projections filters (found : SE ptr 8) (m : op_heap) p o c oc cg :
  (forall n, alloc_ok n = true) -> placed udfs projections filters found m p ->
  m !! p = Some o -> get_first_child o = c -> m !! c = Some oc ->
  generated h rt_expr udfs -> generated h rt_expr (outs oc) ->
  Z.of_nat (length udfs) < 2 ^ 31 -> Z.of_nat (length (outs oc)) < 2 ^ 31 -> cg_wf cg (2 ^ 32) ->
  exists spec cg', generate_spec h rt_expr m p (mkUdfSpec ObFixedArray.empty ObFixedArray.empty) cg = Some (OB_SUCCESS, spec, cg') /\
    ObFixedArray.elems (spec_udf_exprs_ spec) = map rt_expr udfs /\
    ObFixedArray.elems (spec_input_exprs_ spec) = map rt_expr (outs oc) /\
    (forall q, q ∈ items found -> rt_expr q ∈ ObFixedArray.elems (spec_input_exprs_ spec)) /\
    items (cur_op_self_produced_exprs_ cg') = items (cur_op_self_produced_exprs_ cg) ++ udfs /\
    items (cur_op_exprs_ cg') = items (cur_op_exprs_ cg) ++ udfs ++ outs oc.
Proof.
  intros Hmem (o' & c' & oc' & Ho' & _ & Hu & _ & _ & _ & Hch & Hoc' & Hq) Ho Hc Hoc Gu Go Nu No (Hw1 & Hw2 & Hn1 & Hn2).
  rewrite Ho in Ho'. injection Ho' as <-. unfold get_first_child in Hc. rewrite Hch in Hc. cbn in Hc. subst c'. rewrite Hoc in Hoc'. injection Hoc' as <-.
  unfold generate_spec. rewrite Ho. cbn [mbind option_bind spec_udf_exprs_ spec_input_exprs_]. unfold ia_count at 1. rewrite Hu.
  destruct (room_init Hmem (map rt_expr udfs)) as (a & Ea & Hra & Hea); [now rewrite length_map |]. rewrite length_map in Ea. rewrite Ea.
  change (OB_SUCC OB_SUCCESS) with true. cbn iota.
  destruct (udf_loop_ok h rt_expr Hmem udfs cg a Gu ltac:(unfold cg_wf; split_and!; auto; lia) Hra) as (cg1 & a1 & -> & Ha1 & W1 & I1 & W2 & I2).
  cbn [mbind option_bind]. assert (get_first_child o = c) as -> by (unfold get_first_child; now rewrite Hch). rewrite Hoc. cbn [mbind option_bind].
  change (OB_FAIL OB_SUCCESS) with false. cbn iota. unfold ia_count at 1. change (items (output_exprs_ oc)) with (outs oc).
  destruct (room_init Hmem (map rt_expr (outs oc))) as (b & Eb & Hrb & Heb); [now rewrite length_map |]. rewrite length_map in Eb. rewrite Eb.
  change (OB_SUCC OB_SUCCESS) with true. cbn iota.
  destruct (input_loop_ok h rt_expr Hmem (outs oc) cg1 b Go) as (cg2 & b2 & -> & Hb2 & _ & J1 & _ & J2); [| exact Hrb |].
  { unfold cg_wf, ia_count in *. rewrite I1, I2, !length_app. split_and!; auto; lia. }
  cbn [mbind option_bind]. eexists _, cg2. split; [reflexivity |]. cbn [spec_udf_exprs_ spec_input_exprs_]. rewrite Ha1, Hb2, Hea, Heb, J1, J2, I1, I2, app_nil_r, <- app_assoc.
  cbn [app]. split_and!; auto. intros q Hin. apply list_elem_of_fmap. eauto.
Qed.

(** ** Witnesses *)
(** An optimizer that takes the plan of the operator [10] for distributed. *)
#[local] Instance plan_memory : Allocator := fun _ => true.
#[local] Instance demo_column_size : SizeOf ColumnItem := {| size_of := 96; default_of := mkColumn NULL 0 0 [] 0 0 |}.
#[local] Instance demo_column_size_ok : SizeOfOk ColumnItem.
Proof. unfold SizeOfOk. cbn. lia. Qed.
#[local] Instance demo_planner : Planner := {|
  new_op m := fresh (dom m ∪ {[NULL]});
  sizeof_op _ := 512;
  is_distributed _ p := p =? 10;
  get_is_local_order _ _ := false;
  set_exchange_info _ _ _ := OB_SUCCESS;
  compute_property _ _ := OB_SUCCESS;
  enable_px_ordered_coord := true;
  extract_column_info _ _ := OB_SUCCESS;
  add_relation_id _ _ := OB_SUCCESS;
  update_plans_interesting_order_info _ _ := OB_SUCCESS;
  prune_and_keep_best_plans st plans := (OB_SUCCESS, mkPlan (raw_ st) (ops_ st) (stmt_ st) plans 0)
|}.
#[local] Instance demo_planner_laws : PlannerLaws.
Proof.
  split; try reflexivity.
  intros m. cbn. pose proof (is_fresh (dom m ∪ {[NULL]} : gset Z)) as Hf. rewrite not_elem_of_union, not_elem_of_singleton in Hf.
    destruct Hf as [Hd Hn]. split; [exact Hn | now apply not_elem_of_dom].
Qed.
(** [SELECT f(c), c ... WHERE f(c) = c] over the scan of a table. *)
Definition demo_query : Stmt :=
  mkStmt (demo_array [4]) (demo_array [3]) (demo_array [2]) [mkItem [] 2; mkItem [] 1] (mkSE (ObSEArray.mk [] 16 OB_SUCCESS)).
Definition demo_scan : LogOp :=
  mkOp (LOG_OTHER 1) (demo_array []) NULL (demo_array [1]) (demo_array [4]) (demo_array []) 0 0 false (demo_array []) (demo_array []) (demo_array []) false false.
Definition demo_plan : PlanSt := mkPlan demo_heap {[10 := demo_scan; 11 := demo_scan]} (Some demo_query) [mkCandidate 10; mkCandidate 11] 0.
Ltac demo_objects := repeat (match goal with H : _ ∈ _ :: _ |- _ => apply elem_of_cons in H as [-> | H] | H : _ ∈ [] |- _ => now apply not_elem_of_nil in H end).
Lemma demo_plan_ok : plan_ok demo_plan demo_query.
Proof.
  split; try reflexivity; [exact demo_ordered | | | split; easy | split_and!; easy | split; easy | split; [easy |] | split; [reflexivity |]].
  - intros x Hx. cbn in Hx. demo_objects; now eexists.
  - intros x Hx. cbn in Hx. demo_objects; now eexists.
  - intros c Hc. cbn in Hc. demo_objects; now eexists.
  - intros p o Hp. cbn in Hp. apply lookup_insert_Some in Hp as [[<- <-] | [_ [<- <-]%lookup_singleton_Some]]; (split; [split; easy | easy]).
Qed.
Lemma python_udf_operator_placed_witness : exists found plans st',
  candi_allocate_python_udf demo_plan = Some (OB_SUCCESS, mkPlan (raw_ st') (ops_ st') (stmt_ st') plans 0) /\
  Forall2 (plan_for [2] [2] [3] found demo_plan st') [mkCandidate 10; mkCandidate 11] plans.
Proof.
  destruct (python_udf_operator_placed (fun _ => eq_refl) demo_plan demo_query demo_plan_ok) as (found & plans & st' & c & E & F & _).
  exists found, plans, st'. split; [exact E | exact F].
Defined.
(** From the operator for the functions down to the scan: the distributed plan is
    gathered by two exchanges and a sort, the other one by nothing. *)
Fixpoint demo_path (m : op_heap) (fuel : nat) (p : ptr) : list (log_op_def * bool) :=
  match fuel, m !! p with
  | S fuel', Some o => layer o :: demo_path m fuel' (get_first_child o)
  | _, _ => []
  end.
Example demo_placed : (fun x => (x.1, (fun c => demo_path (ops_ x.2) 9 (plan_tree_ c)) <$> candidate_plans_ x.2)) <$> candi_allocate_python_udf demo_plan
  = Some (OB_SUCCESS, [[(LOG_PYTHON_UDF, false); (LOG_EXCHANGE, false); (LOG_EXCHANGE, true); (LOG_SORT, false); (LOG_EXCHANGE, false);
                        (LOG_EXCHANGE, true); (LOG_OTHER 1, false)]; [(LOG_PYTHON_UDF, false); (LOG_OTHER 1, false)]]).
Proof. vm_compute. reflexivity. Qed.

(** The operator [20] above the scan, and its specification. *)
Definition demo_udf_op : LogOp :=
  mkOp LOG_PYTHON_UDF (demo_array [10]) NULL (demo_array []) (demo_array [3]) (demo_array []) 1 0 false (demo_array [2]) (demo_array [2]) (demo_array [3]) false false.
Definition demo_ops : op_heap := <[20 := demo_udf_op]> {[10 := demo_scan]}.
Lemma operator_spec_generated_witness : exists spec cg',
  generate_spec demo_heap (fun p => p + 100) demo_ops 20 (mkUdfSpec ObFixedArray.empty ObFixedArray.empty) (mkCg ia_new ia_new) = Some (OB_SUCCESS, spec, cg') /\
  ObFixedArray.elems (spec_udf_exprs_ spec) = [102] /\ ObFixedArray.elems (spec_input_exprs_ spec) = [101].
Proof.
  destruct (operator_spec_generated demo_heap (fun p => p + 100) [2] [2] [3] (demo_array [1]) demo_ops 20 demo_udf_op 10 demo_scan (mkCg ia_new ia_new))
    as (spec & cg' & E & Eu & Ei & _).
  - reflexivity.
  - exists demo_udf_op, 10, demo_scan. split_and!; reflexivity || auto.
  - reflexivity.
  - reflexivity.
  - reflexivity.
  - intros q Hq. demo_objects. now split; [eexists |].
  - intros q Hq. cbn in Hq. demo_objects. now split; [eexists |].
  - cbn. lia.
  - cbn. lia.
  - split_and!; [exact (proj1 ia_new_law) | exact (proj1 ia_new_law) | easy | easy].
  - exists spec, cg'. auto.
Defined.
