(* ===== verification/ProduceTheorems.v ===== *)
(** Who computes the calls: what [UdfProduce] does when memory is available.  The
    context of producers is a map from expressions, marking claims an entry that
    nobody computes yet, the references to an expression are its occurrences, and
    after [ObLogPythonUDF::allocate_expr_post] the operator's calls have a producer
    and what operators above need of it is in its output. *)
From S2P Require Import Prelude FixedArray SEArray IArray HashArray SortedVector UdfSchema.
From S2P Require Import Serialization UdfObject BatchSize UdfMeta RawExpr UdfPlan PlanFacts.
From S2P Require Import QueryTheorems PlanTheorems UdfProduce.
Import ObAllocExprContext.

Section Facts.
Context `{Allocator}.

(** ** References *)
(** The occurrences of expressions in an expression, it first. *)
Fixpoint occurrences (fuel : nat) (h : heap) (p : ptr) : list ptr :=
  match fuel with
  | O => []
  | S fuel' => p :: concat (map (occurrences fuel' h) (from_option params [] (h !! p)))
  end.
Definition refs (m : gmap ptr Z) (q : ptr) : Z := default 0 (m !! q).
Definition refer (m : gmap ptr Z) (q : ptr) : gmap ptr Z := <[q := refs m q + 1]> m.
Definition counting (m : gmap ptr Z) : Prop := forall q n, m !! q = Some n -> 0 <= n.

Lemma counting_refer m q : counting m -> counting (refer m q).
Proof.
  intros Hm r n. unfold refer, refs. rewrite lookup_insert_Some. intros [[<- <-] | [_ Hr]]; [| eauto].
  destruct (m !! q) as [k |] eqn:E; cbn; [pose proof (Hm q k E); lia | lia].
Qed.
Lemma counting_fold l : forall m, counting m -> counting (fold_left refer l m).
Proof. induction l as [| q l IH]; intros m Hm; [exact Hm |]. cbn. apply IH, counting_refer, Hm. Qed.
Lemma refs_fold l : forall m q, refs (fold_left refer l m) q = refs m q + Z.of_nat (count_occ Z.eq_dec l q).
Proof.
  induction l as [| p l IH]; intros m q; cbn [fold_left count_occ]; [lia |]. rewrite IH. unfold refer, refs at 1.
  destruct (Z.eq_dec p q) as [-> | Hn]; [rewrite lookup_insert_eq; cbn; lia | rewrite lookup_insert_ne by done; unfold refs; lia].
Qed.

Lemma flattern_params_ok f g ps : (forall p m, p ∈ ps -> counting m -> f m p = Some (OB_SUCCESS, fold_left refer (g p) m)) ->
  forall m, counting m -> flattern_params f ps m = Some (OB_SUCCESS, fold_left refer (concat (map g ps)) m).
Proof.
  induction ps as [| p ps IH]; intros Hf m Hm; [reflexivity |]. cbn [flattern_params map concat]. rewrite Hf by (auto; left).
  cbn [mbind option_bind]. change (OB_SUCC OB_SUCCESS) with true. cbn iota. rewrite fold_left_app. apply IH; [| now apply counting_fold].
  intros q m' Hq. apply Hf. now right.
Qed.
(** As many levels as there are objects are enough. *)
Lemma add_flattern_rank h rank fuel :
  (forall p e, h !! p = Some e -> forall q, q ∈ params e -> is_Some (h !! q) /\ (rank q < rank p)%nat) ->
  forall p m, is_Some (h !! p) -> (rank p < fuel)%nat -> counting m ->
  add_flattern_expr h fuel m p = Some (OB_SUCCESS, fold_left refer (occurrences fuel h p) m).
Proof.
  intros Hrank. induction fuel as [| fuel IH]; intros p m [e He] Hp Hm; [lia |]. cbn [add_flattern_expr occurrences].
  rewrite He. cbn [from_option]. replace (match m !! p with None => _ | Some c => _ end) with (OB_SUCCESS, refer m p).
  2:{ unfold refer, refs. destruct (m !! p) as [c |] eqn:E; [| reflexivity]. cbn.
      now rewrite (proj2 (Z.ltb_ge c 0) (Hm p c E)). }
  cbn [mbind option_bind fold_left]. change (OB_SUCC OB_SUCCESS) with true. cbn iota.
  apply flattern_params_ok; [| now apply counting_refer]. intros q m' Hq. destruct (Hrank p e He q Hq). apply IH; [assumption | lia].
Qed.
Lemma add_flattern_ok h p m : ordered h -> is_Some (h !! p) -> counting m ->
  add_flattern_expr h (size h) m p = Some (OB_SUCCESS, fold_left refer (occurrences (size h) h p) m).
Proof.
  intros (_ & _ & rank & Hr) [e Hp]. apply (add_flattern_rank h rank); [intros; now apply (Hr p0 e0) | eauto | now apply (Hr p e)].
Qed.

(** ** The context *)
(** The producer of an expression. *)
Definition producer (ctx : t) (e : ptr) : option ExprProducer :=
  idx ← expr_map_ ctx !! e; items (expr_producers_ ctx) !! Z.to_nat idx.

Record ctx_ok (h : heap) (ctx : t) : Prop := {
  ctx_array : ia_wf (expr_producers_ ctx);
  ctx_size : size (expr_map_ ctx) = length (items (expr_producers_ ctx));
  ctx_index i p : items (expr_producers_ ctx) !! i = Some p -> expr_map_ ctx !! expr_ p = Some (Z.of_nat i);
  ctx_entry e z : expr_map_ ctx !! e = Some z -> exists i p, z = Z.of_nat i /\ items (expr_producers_ ctx) !! i = Some p /\ expr_ p = e;
  ctx_live e z : expr_map_ ctx !! e = Some z -> is_Some (h !! e);
  ctx_counts : counting (flattern_expr_map_ ctx)
}.

(** An expression the operator can compute, given those it sees: its parameters
    are seen or can be computed; one without parameters is no column, or is a
    column whose dependent expression can be computed. *)
Inductive producible (h : heap) (cnt_column : ptr -> bool) (dependant_expr : ptr -> ptr) (vis : ptr -> Prop) : ptr -> Prop :=
| by_leaf p e : h !! p = Some e -> params e = [] -> vis p \/ cnt_column p = false -> producible h cnt_column dependant_expr vis p
| by_dependant p e : h !! p = Some e -> params e = [] -> type_ e = T_REF_COLUMN -> dependant_expr p <> NULL ->
    producible h cnt_column dependant_expr vis (dependant_expr p) -> producible h cnt_column dependant_expr vis p
| by_params p e : h !! p = Some e -> params e <> [] ->
    (forall q, q ∈ params e -> ~ vis q -> producible h cnt_column dependant_expr vis q) -> producible h cnt_column dependant_expr vis p.
Lemma producible_more h cnt_column dependant_expr (vis vis' : ptr -> Prop) p : (forall q, vis q -> vis' q) ->
  producible h cnt_column dependant_expr vis p -> producible h cnt_column dependant_expr vis' p.
Proof.
  intros Hv. induction 1 as [p e He Hp Hl | p e He Hp Ht Hd _ IH | p e He Hp _ IH].
  - eapply by_leaf; eauto. destruct Hl; auto.
  - eapply by_dependant; eauto.
  - eapply by_params; eauto.
Qed.
Lemma producible_leaf h cnt_column dependant_expr vis p e : h !! p = Some e -> params e = [] ->
  producible h cnt_column dependant_expr vis p ->
  vis p \/ cnt_column p = false \/ type_ e = T_REF_COLUMN /\ dependant_expr p <> NULL /\ producible h cnt_column dependant_expr vis (dependant_expr p).
Proof.
  intros He Hp Hpr. destruct Hpr as [p e' He' _ Hl | p e' He' _ Ht Hd Hpr | p e' He' Hn _]; rewrite He in He'; injection He' as <-; tauto.
Qed.
Lemma producible_params h cnt_column dependant_expr vis p e : h !! p = Some e -> params e <> [] ->
  producible h cnt_column dependant_expr vis p -> forall q, q ∈ params e -> ~ vis q -> producible h cnt_column dependant_expr vis q.
Proof.
  intros He Hp Hpr. destruct Hpr as [p e' He' Hn _ | p e' He' Hn _ _ _ | p e' He' _ Hq]; rewrite He in He'; injection He' as <-; easy.
Qed.
(** Dependent expressions come before their columns in an order as [ordered] has it. *)
Definition dependants_below (h : heap) (dependant_expr : ptr -> ptr) : Prop :=
  exists rank : ptr -> nat, forall p e, h !! p = Some e ->
    (rank p < size h)%nat /\ (forall q, q ∈ params e -> is_Some (h !! q) /\ (rank q < rank p)%nat) /\
    (dependant_expr p <> NULL -> is_Some (h !! dependant_expr p) /\ (rank (dependant_expr p) < rank p)%nat).

Section Context_.
Context (h : heap) (Ho : ordered h) (Hsz : Z.of_nat (size h) < 2 ^ 41) (Hmem : forall n, alloc_ok n = true).

Lemma ctx_small ctx : ctx_ok h ctx -> ia_count (expr_producers_ ctx) <= Z.of_nat (size h).
Proof.
  intros Hc. unfold ia_count. rewrite <- (ctx_size h ctx Hc), <- !size_dom. apply inj_le, subseteq_size. intros e.
  rewrite !elem_of_dom. intros [z Hz]. exact (ctx_live h ctx Hc e z Hz).
Qed.
Lemma producer_index ctx i p : ctx_ok h ctx -> items (expr_producers_ ctx) !! i = Some p -> producer ctx (expr_ p) = Some p.
Proof. intros Hc Hi. unfold producer. rewrite (ctx_index h ctx Hc i p Hi). cbn [mbind option_bind]. now rewrite Nat2Z.id. Qed.
Lemma producer_item ctx e p : ctx_ok h ctx -> producer ctx e = Some p -> expr_ p = e /\ is_Some (h !! e) /\
  exists i, expr_map_ ctx !! e = Some (Z.of_nat i) /\ items (expr_producers_ ctx) !! i = Some p.
Proof.
  intros Hc. unfold producer. destruct (expr_map_ ctx !! e) as [z |] eqn:E; [| discriminate]. cbn [mbind option_bind].
  destruct (ctx_entry h ctx Hc e z E) as (i & q & -> & Hi & Hq). rewrite Nat2Z.id, Hi. intros [= <-]. eauto 10 using ctx_live.
Qed.

(** [find] answers the producer's place. *)
Lemma find_ok ctx e : ctx_ok h ctx -> find ctx e = (OB_SUCCESS, expr_map_ ctx !! e).
Proof.
  intros Hc. unfold find, ia_count. pose proof (ctx_size h ctx Hc) as Hs.
  destruct (Z.of_nat (length (items (expr_producers_ ctx))) =? 0) eqn:E0.
  - apply Z.eqb_eq in E0. assert (size (expr_map_ ctx) = 0%nat) as Hz by lia. apply map_size_empty_inv in Hz. rewrite Hz. now rewrite lookup_empty.
  - rewrite Hs, Z.eqb_refl. cbn [negb]. destruct (expr_map_ ctx !! e) as [z |] eqn:E; [| reflexivity].
    destruct (ctx_entry h ctx Hc e z E) as (i & p & -> & Hi & Hp). pose proof (lookup_lt_Some _ _ _ Hi).
    rewrite (proj2 (Z.ltb_ge _ _)), (proj2 (Z.leb_gt _ _)) by lia. cbn [orb]. rewrite Nat2Z.id, Hi, <- Hp. now rewrite Z.eqb_refl.
Qed.

(** [add] of an expression that is new adds its entry and no other, and counts its occurrences. *)
Lemma producer_add_ok ctx p : ctx_ok h ctx -> is_Some (h !! expr_ p) -> producer ctx (expr_ p) = None ->
  exists ctx', add h OB_SUCCESS ctx p = Some (OB_SUCCESS, ctx') /\ ctx_ok h ctx' /\ producer ctx' (expr_ p) = Some p /\
    (forall e, e <> expr_ p -> producer ctx' e = producer ctx e) /\
    forall q, snd (get_expr_ref_cnt ctx' q) = snd (get_expr_ref_cnt ctx q) + Z.of_nat (count_occ Z.eq_dec (occurrences (size h) h (expr_ p)) q).
Proof.
  intros Hc Hp Hnew. assert (expr_map_ ctx !! expr_ p = None) as Hm.
  { destruct (expr_map_ ctx !! expr_ p) as [z |] eqn:E; [| reflexivity]. destruct (ctx_entry h ctx Hc _ _ E) as (i & q & _ & Hi & Hq).
    pose proof (producer_index ctx i q Hc Hi) as Hx. rewrite Hq in Hx. congruence. }
  pose proof (ctx_small ctx Hc). unfold add.
  destruct (adds_ok Hmem _ _ _ (push_adds (expr_producers_ ctx) p (ctx_array h ctx Hc) ltac:(lia))) as (a & -> & Hw & Ha).
  cbn [mbind option_bind]. change (OB_FAIL OB_SUCCESS) with false. cbn iota. rewrite andb_false_r. cbn [expr_map_ flattern_expr_map_].
  rewrite Hm, (add_flattern_ok h (expr_ p) _ Ho Hp (ctx_counts h ctx Hc)). cbn [mbind option_bind]. eexists. split; [reflexivity |].
  assert (ia_count a - 1 = Z.of_nat (length (items (expr_producers_ ctx)))) as Hn by (unfold ia_count; rewrite Ha, length_app; cbn; lia).
  split_and!.
  - split; cbn [expr_producers_ expr_map_ flattern_expr_map_]; rewrite ?Ha, ?Hn.
    + exact Hw.
    + rewrite map_size_insert_None, (ctx_size h ctx Hc), length_app by exact Hm. cbn. lia.
    + intros i q Hi. apply lookup_app_Some in Hi as [Hi | [Hl Hi]].
      * pose proof (ctx_index h ctx Hc i q Hi) as Hq. rewrite lookup_insert_ne; [exact Hq |]. intros E. rewrite <- E in Hq. congruence.
      * apply list_lookup_singleton_Some in Hi as [Hi <-]. rewrite lookup_insert_eq. f_equal. lia.
    + intros e z. rewrite lookup_insert_Some. intros [[<- <-] | [_ Hz]].
      * eexists _, p. split_and!; [reflexivity | | reflexivity]. now rewrite lookup_app_r, Nat.sub_diag by lia.
      * destruct (ctx_entry h ctx Hc e z Hz) as (i & q & -> & Hi & Hq). exists i, q. split_and!; auto. now apply lookup_app_l_Some.
    + intros e z. rewrite lookup_insert_Some. intros [[<- _] | [_ Hz]]; [exact Hp | exact (ctx_live h ctx Hc e z Hz)].
    + apply counting_fold, ctx_counts with h, Hc.
  - unfold producer. cbn [expr_producers_ expr_map_]. rewrite lookup_insert_eq, Hn, Ha. cbn [mbind option_bind].
    now rewrite Nat2Z.id, lookup_app_r, Nat.sub_diag by lia.
  - intros e He. unfold producer. cbn [expr_producers_ expr_map_]. rewrite lookup_insert_ne by congruence.
    destruct (expr_map_ ctx !! e) as [z |] eqn:E; [| reflexivity]. destruct (ctx_entry h ctx Hc e z E) as (i & q & -> & Hi & _).
    cbn [mbind option_bind]. rewrite Ha, Nat2Z.id, Hi. now apply lookup_app_l_Some.
  - intros q. unfold get_expr_ref_cnt. cbn [snd flattern_expr_map_]. apply refs_fold.
Qed.

(** Writing an entry in place changes the producer of its expression only. *)
Lemma set_producer_ok ctx i p q : ctx_ok h ctx -> items (expr_producers_ ctx) !! i = Some p -> expr_ q = expr_ p ->
  let ctx' := set_producer ctx (Z.of_nat i) q in
  ctx_ok h ctx' /\ items (expr_producers_ ctx') = <[i := q]> (items (expr_producers_ ctx)) /\
  producer ctx' (expr_ q) = Some q /\ (forall e, e <> expr_ q -> producer ctx' e = producer ctx e).
Proof.
  intros Hc Hi Hq ctx'. pose proof (lookup_lt_Some _ _ _ Hi) as Hlt.
  assert (items (expr_producers_ ctx') = <[i := q]> (items (expr_producers_ ctx))) as Hit by (subst ctx'; cbn; now rewrite Nat2Z.id).
  pose proof (ctx_index h ctx Hc i p Hi) as Hidx. rewrite <- Hq in Hidx. split_and!; [| exact Hit | |].
  - split; try exact (ctx_live h ctx Hc); try exact (ctx_counts h ctx Hc).
    + pose proof (ctx_array h ctx Hc) as [Hl Hw]. split; [exact Hl |]. unfold ObSEArray.count in *. cbn in *. now rewrite length_insert.
    + rewrite Hit, length_insert. exact (ctx_size h ctx Hc).
    + intros j r. rewrite Hit, list_lookup_insert_Some. intros [(<- & <- & _) | [_ Hj]]; [exact Hidx | exact (ctx_index h ctx Hc j r Hj)].
    + intros e z Hz. destruct (ctx_entry h ctx Hc e z Hz) as (j & r & -> & Hj & Hr). rewrite Hit. destruct (decide (j = i)) as [-> | Hji].
      * exists i, q. split_and!; [reflexivity | now apply list_lookup_insert_eq | congruence].
      * exists j, r. split_and!; auto. rewrite list_lookup_insert_ne; auto.
  - unfold producer. change (expr_map_ ctx') with (expr_map_ ctx). rewrite Hidx. cbn [mbind option_bind]. rewrite Hit, Nat2Z.id.
    now apply list_lookup_insert_eq.
  - intros e He. unfold producer. change (expr_map_ ctx') with (expr_map_ ctx). destruct (expr_map_ ctx !! e) as [z |] eqn:E; [| reflexivity].
    destruct (ctx_entry h ctx Hc e z E) as (j & r & -> & Hj & Hr). cbn [mbind option_bind]. rewrite Hit, Nat2Z.id. apply list_lookup_insert_ne.
    intros <-. apply He. congruence.
Qed.

(** ** Marking *)
(** The entry after an operator claimed it: one that has a branch stays. *)
Definition claimed (id branch_id producer_id : Z) (e : ptr) (old : option ExprProducer) : ExprProducer :=
  match old with
  | None => mkProducer e branch_id id producer_id
  | Some p => if producer_branch_ p =? OB_INVALID_ID then mkProducer (expr_ p) branch_id (consumer_id_ p) producer_id else p
  end.
Lemma mark_ok id b pid e ctx : ctx_ok h ctx -> is_Some (h !! e) -> b <> OB_INVALID_ID -> pid <> OB_INVALID_ID ->
  exists ctx', mark_expr_produced h OB_SUCCESS id e b pid ctx = Some (OB_SUCCESS, ctx') /\ ctx_ok h ctx' /\
    producer ctx' e = Some (claimed id b pid e (producer ctx e)) /\ forall e', e' <> e -> producer ctx' e' = producer ctx e'.
Proof.
  intros Hc He Hb Hp. unfold mark_expr_produced. pose proof (ordered_null h e Ho He) as Hn.
  rewrite (proj2 (Z.eqb_neq e NULL)), (proj2 (Z.eqb_neq OB_INVALID_ID b)), (proj2 (Z.eqb_neq OB_INVALID_ID pid)) by auto.
  cbn [orb]. rewrite (find_ok ctx e Hc). change (OB_FAIL OB_SUCCESS) with false. cbn iota.
  destruct (expr_map_ ctx !! e) as [z |] eqn:E.
  - destruct (ctx_entry h ctx Hc e z E) as (i & p & -> & Hi & Hpe). pose proof (producer_index ctx i p Hc Hi) as Hpr. rewrite Hpe in Hpr.
    rewrite Nat2Z.id, Hi, Hpr. cbn [mbind option_bind claimed]. destruct (producer_branch_ p =? OB_INVALID_ID); [| eauto 10].
    destruct (set_producer_ok ctx i p (mkProducer (expr_ p) b (consumer_id_ p) pid) Hc Hi eq_refl) as (Hc' & _ & Hq & Hr).
    cbn [expr_] in *. rewrite Hpe in *. eauto 10.
  - assert (producer ctx e = None) as Hnone by (unfold producer; now rewrite E). rewrite Hnone.
    destruct (producer_add_ok ctx (mkProducer e b id pid) Hc He Hnone) as (ctx' & ? & ? & ? & ? & _). eauto 10.
Qed.

(** The calls of the operator are claimed, the rest stays. *)
Lemma produce_loop_ok o l : id_ o <> OB_INVALID_ID -> branch_id_ o <> OB_INVALID_ID -> forall ctx, ctx_ok h ctx ->
  (forall e, e ∈ l -> is_Some (h !! e)) ->
  exists ctx', produce_loop h OB_SUCCESS o l ctx = Some (OB_SUCCESS, ctx') /\ ctx_ok h ctx' /\
    (forall e, e ∈ l -> producer ctx' e = Some (claimed (id_ o) (branch_id_ o) (id_ o) e (producer ctx e))) /\
    forall e, e ∉ l -> producer ctx' e = producer ctx e.
Proof.
  intros Hid Hb. induction l as [| p l IH]; intros ctx Hc Hl; cbn [produce_loop].
  { exists ctx. split_and!; auto. intros e He. now apply not_elem_of_nil in He. }
  assert (is_Some (h !! p)) as Hp by (apply Hl; left). rewrite (proj2 (Z.eqb_neq p NULL) (ordered_null h p Ho Hp)).
  destruct (mark_ok (id_ o) (branch_id_ o) (id_ o) p ctx Hc Hp Hb Hid) as (ctx1 & -> & Hc1 & Hp1 & Hr1). cbn [mbind option_bind].
  change (OB_SUCC OB_SUCCESS) with true. cbn iota. destruct (IH ctx1 Hc1) as (ctx' & E & Hc' & Hin & Hout); [intros; apply Hl; now right |].
  exists ctx'. split_and!; [exact E | exact Hc' | |].
  - intros e He. destruct (decide (e ∈ l)) as [Hel | Hel].
    + rewrite Hin by exact Hel. destruct (decide (e = p)) as [-> | Hne]; [| now rewrite Hr1]. rewrite Hp1. f_equal.
      unfold claimed at 1. destruct (producer ctx p) as [q |]; cbn [claimed]; [destruct (producer_branch_ q =? OB_INVALID_ID) eqn:Eq |];
        cbn [producer_branch_]; rewrite ?Eq, ?(proj2 (Z.eqb_neq _ _) Hb); reflexivity.
    + apply elem_of_cons in He as [-> | He]; [| contradiction]. now rewrite Hout, Hp1.
  - intros e [Hne Hel]%not_elem_of_cons. now rewrite Hout, Hr1.
Qed.
Lemma claimed_branch id b pid e old : b <> OB_INVALID_ID -> producer_branch_ (claimed id b pid e old) <> OB_INVALID_ID.
Proof. intros Hb. unfold claimed. destruct old as [p |]; [| exact Hb]. destruct (Z.eqb_spec (producer_branch_ p) OB_INVALID_ID); auto. Qed.

(** The projections go to the output unless the operator is the root of the plan. *)
Lemma output_projections_ok o l : forall a : SE ptr 8, (forall e, e ∈ l -> is_Some (h !! e)) -> ia_wf a ->
  ia_count a + Z.of_nat (length l) < 2 ^ 41 ->
  exists a', output_loop o l a = Some (OB_SUCCESS, a') /\ ia_wf a' /\
    items a' = if is_plan_root_ o then items a else adjoin_all (items a) l.
Proof.
  induction l as [| p l IH]; intros a Hl Hw Hn; cbn [output_loop].
  { exists a. split_and!; auto. now destruct (is_plan_root_ o). }
  assert (is_Some (h !! p)) as Hp by (apply Hl; left). rewrite (proj2 (Z.eqb_neq p NULL) (ordered_null h p Ho Hp)).
  assert (forall e, e ∈ l -> is_Some (h !! e)) as Hl' by (intros; apply Hl; now right). cbn [length] in Hn.
  destruct (is_plan_root_ o) eqn:Er; [apply IH; auto; lia |].
  destruct (adds_ok Hmem _ _ _ (add_var_adds a p Hw ltac:(lia))) as (a1 & -> & Hw1 & Ha1). cbn [mbind option_bind].
  change (OB_SUCC OB_SUCCESS) with true. cbn iota. destruct (IH a1 Hl' Hw1) as (a' & E & Hw' & Ha').
  { unfold ia_count in *. rewrite Ha1. pose proof (adjoin_length (items a) p). lia. }
  exists a'. rewrite E, Ha', Ha1. auto.
Qed.

(** ** The expressions above the calls *)
Context (cnt_column : ptr -> bool) (dependant_expr : ptr -> ptr) (m : op_heap) (o : LogOp).
Context (Hid : id_ o <> OB_INVALID_ID) (Hbranch : branch_id_ o <> OB_INVALID_ID).
Context (Hch : forall c, c ∈ items (child_ o) -> c <> NULL -> is_Some (m !! c)).

Context (Hdep : dependants_below h dependant_expr).

(** An entry the operator sees: computed, and not on a branch before its own. *)
Definition seen (p : ExprProducer) : Prop := producer_branch_ p <> OB_INVALID_ID /\ branch_id_ o <= producer_branch_ p.
Definition visible (ctx : t) (e : ptr) : Prop := exists p, producer ctx e = Some p /\ seen p.

Lemma has_been_ok ctx e : ctx_ok h ctx ->
  exists b, expr_has_been_produced (branch_id_ o) e ctx = Some (OB_SUCCESS, b) /\ (b = true <-> visible ctx e).
Proof.
  intros Hc. unfold expr_has_been_produced. rewrite (find_ok ctx e Hc). change (OB_FAIL OB_SUCCESS) with false. cbn iota.
  destruct (expr_map_ ctx !! e) as [z |] eqn:E.
  - destruct (ctx_entry h ctx Hc e z E) as (i & p & -> & Hi & Hp). rewrite Nat2Z.id, Hi. cbn [mbind option_bind]. eexists. split; [reflexivity |].
    pose proof (producer_index ctx i p Hc Hi) as Hpr. rewrite Hp in Hpr. rewrite andb_true_iff, negb_true_iff, Z.eqb_neq, Z.leb_le. split.
    + intros [? ?]. exists p. split; [exact Hpr |]. split; [congruence | lia].
    + intros (q & Hq & Hb1 & Hb2). rewrite Hpr in Hq. injection Hq as <-. split; [congruence | lia].
  - exists false. split; [reflexivity |]. split; [easy |]. intros (p & Hp & _). unfold producer in Hp. now rewrite E in Hp.
Qed.
Lemma can_params_ok ctx f ps (P : ptr -> Prop) : ctx_ok h ctx -> (forall q, q ∈ ps -> q <> NULL) ->
  (forall q, q ∈ ps -> exists b, f q = Some (OB_SUCCESS, b) /\ (b = true <-> P q)) ->
  exists b, can_params (branch_id_ o) f ps ctx = Some (OB_SUCCESS, b) /\ (b = true <-> forall q, q ∈ ps -> ~ visible ctx q -> P q).
Proof.
  intros Hc. induction ps as [| p ps IH]; intros Hn Hf; cbn [can_params].
  { exists true. split; [reflexivity |]. split; [| easy]. intros _ q Hq. now apply not_elem_of_nil in Hq. }
  rewrite (proj2 (Z.eqb_neq p NULL)) by (apply Hn; left). destruct (has_been_ok ctx p Hc) as (b & -> & Hb). cbn [mbind option_bind].
  change (OB_FAIL OB_SUCCESS) with false. cbn iota.
  destruct IH as (b' & E' & Hb'); [intros; apply Hn; now right | intros; apply Hf; now right |]. destruct b.
  - exists b'. split; [exact E' |]. rewrite Hb'. split; intros Hall q Hq; [| apply Hall; now right].
    apply elem_of_cons in Hq as [-> | Hq]; [| now apply Hall]. intros Hv. destruct Hv. now apply Hb.
  - destruct (Hf p) as (c & -> & Hcp); [left |]. cbn [mbind option_bind]. change (OB_FAIL OB_SUCCESS) with false. cbn iota.
    assert (~ visible ctx p) as Hv by (intros Hv; now apply Hb in Hv). destruct c.
    + exists b'. split; [exact E' |]. rewrite Hb'. split; intros Hall q Hq; [| apply Hall; now right].
      apply elem_of_cons in Hq as [-> | Hq]; [intros _; now apply Hcp | now apply Hall].
    + exists false. split; [reflexivity |]. split; [easy |]. intros Hall. apply Hcp, Hall; [left | exact Hv].
Qed.
Lemma can_be_produced_rank ctx rank fuel : ctx_ok h ctx ->
  (forall p e, h !! p = Some e -> (forall q, q ∈ params e -> is_Some (h !! q) /\ (rank q < rank p)%nat) /\
     (dependant_expr p <> NULL -> is_Some (h !! dependant_expr p) /\ (rank (dependant_expr p) < rank p)%nat)) ->
  forall p, is_Some (h !! p) -> (rank p < fuel)%nat ->
  exists b, expr_can_be_produced h cnt_column dependant_expr fuel (branch_id_ o) p ctx = Some (OB_SUCCESS, b) /\
    (b = true <-> producible h cnt_column dependant_expr (visible ctx) p).
Proof.
  intros Hc Hrank. induction fuel as [| fuel IH]; intros p [e He] Hp; [lia |]. cbn [expr_can_be_produced].
  assert (p <> NULL) as Hpn by (apply (ordered_null h p Ho); eauto). rewrite (proj2 (Z.eqb_neq p NULL) Hpn), He. cbn [mbind option_bind].
  destruct (Hrank p e He) as [Hpar Hd]. destruct (params e) as [| q0 qs] eqn:Eps.
  - destruct (has_been_ok ctx p Hc) as (b & -> & Hb). cbn [mbind option_bind]. change (OB_FAIL OB_SUCCESS) with false. cbn [orb].
    destruct b; [exists true; split; [reflexivity |]; split; [intros _ | reflexivity]; eapply by_leaf; eauto; left; now apply Hb |].
    destruct (cnt_column p) eqn:Ec; cbn [negb]; [| exists true; split; [reflexivity |]; split; [intros _; eapply by_leaf; eauto | reflexivity]].
    assert (~ visible ctx p) as Hv by (intros Hv; now apply Hb in Hv).
    destruct (bool_decide_reflect (type_ e = T_REF_COLUMN)) as [Et | Nt]; cbn [andb].
    2:{ exists false. split; [reflexivity |]. split; [easy |]. intros Hpr. destruct (producible_leaf _ _ _ _ p e He Eps Hpr) as [? | [? | (? & ? & ?)]]; congruence || contradiction || assumption. }
    destruct (Z.eqb_spec (dependant_expr p) NULL) as [Ed | Nd]; cbn [negb].
    { exists false. split; [reflexivity |]. split; [easy |]. intros Hpr. destruct (producible_leaf _ _ _ _ p e He Eps Hpr) as [? | [? | (? & ? & ?)]]; congruence || contradiction || assumption. }
    destruct (Hd Nd) as [Hdl Hdr]. destruct (IH (dependant_expr p) Hdl ltac:(lia)) as (b & E & Hbd). exists b. split; [exact E |]. rewrite Hbd.
    split; [intros; eapply by_dependant; eauto |]. intros Hpr. destruct (producible_leaf _ _ _ _ p e He Eps Hpr) as [? | [? | (? & ? & ?)]]; congruence || contradiction || assumption.
  - rewrite <- Eps in *. destruct (can_params_ok ctx (fun q => expr_can_be_produced h cnt_column dependant_expr fuel (branch_id_ o) q ctx) (params e)
      (producible h cnt_column dependant_expr (visible ctx)) Hc) as (b & E & Hb).
    + intros q Hq. destruct (Hpar q Hq). now apply (ordered_null h q Ho).
    + intros q Hq. destruct (Hpar q Hq). apply IH; [assumption | lia].
    + exists b. rewrite Eps in E at 1. rewrite Eps. split; [exact E |]. rewrite Hb.
      split; [intros; eapply by_params; eauto; congruence |]. exact (producible_params _ _ _ _ p e He ltac:(congruence)).
Qed.
Lemma can_be_produced_ok ctx p : ctx_ok h ctx -> is_Some (h !! p) ->
  exists b, expr_can_be_produced h cnt_column dependant_expr (size h) (branch_id_ o) p ctx = Some (OB_SUCCESS, b) /\
    (b = true <-> producible h cnt_column dependant_expr (visible ctx) p).
Proof.
  intros Hc [e Hp]. destruct Hdep as (rank & Hr). apply (can_be_produced_rank ctx rank); [exact Hc | | eauto | now apply (Hr p e)].
  intros q f Hq. destruct (Hr q f Hq) as (_ & H1 & H2). auto.
Qed.

(** An entry the operator was to produce gets its branch, any other stays. *)
Definition settles (p p' : ExprProducer) : Prop :=
  p' = p \/ producer_branch_ p = OB_INVALID_ID /\ producer_id_ p = id_ o /\
            p' = mkProducer (expr_ p) (branch_id_ o) (consumer_id_ p) (id_ o).
(** What the operator produces has a branch, and is in the output if it is needed above. *)
Definition delivered (outs : list ptr) (p : ExprProducer) : Prop :=
  producer_id_ p = id_ o -> producer_branch_ p <> OB_INVALID_ID /\
    (is_plan_root_ o = false -> id_ o < consumer_id_ p -> expr_ p ∈ outs).
(** The failure of the pass: an entry the operator was to produce and cannot. *)
Definition refused (ctx : t) (p : ExprProducer) (ret : Z) : Prop :=
  ret = OB_ERR_UNEXPECTED /\ producer_id_ p = id_ o /\ producer_branch_ p = OB_INVALID_ID /\
  ~ producible h cnt_column dependant_expr (visible ctx) (expr_ p).

Lemma child_output_total e : exists b, is_child_output_exprs m o e = Some b.
Proof.
  unfold is_child_output_exprs. revert Hch. generalize (items (child_ o)) as cs. induction cs as [| c cs IH]; intros Hcs; [eauto |].
  assert (forall c', c' ∈ cs -> c' <> NULL -> is_Some (m !! c')) as Hcs' by (intros; apply Hcs; auto; now right).
  destruct (Z.eqb_spec c NULL) as [-> | Hn]; [exact (IH Hcs') |]. destruct (Hcs c) as [x Hx]; [left | exact Hn |]. rewrite Hx.
  cbn [mbind option_bind]. destruct (find_item _ e); [eauto | exact (IH Hcs')].
Qed.
Lemma settles_expr p p' : settles p p' -> expr_ p' = expr_ p.
Proof. now intros [-> | (_ & _ & ->)]. Qed.

Lemma visible_settles ctx ctx' i p p' x : ctx_ok h ctx -> ctx_ok h ctx' -> items (expr_producers_ ctx) !! i = Some p ->
  items (expr_producers_ ctx') = <[i := p']> (items (expr_producers_ ctx)) -> settles p p' -> visible ctx x -> visible ctx' x.
Proof.
  intros Hc Hc' Hi Hit Hs (q & Hq & Hsee). exists q. split; [| exact Hsee]. destruct (producer_item ctx x q Hc Hq) as (<- & _ & j & _ & Hj).
  apply (producer_index ctx' j q Hc'). rewrite Hit. destruct (decide (i = j)) as [<- | Hij]; [| now rewrite list_lookup_insert_ne].
  rewrite list_lookup_insert_eq by exact (lookup_lt_Some _ _ _ Hi). rewrite Hi in Hj. injection Hj as ->.
  destruct Hs as [-> | (Hx & _)]; [reflexivity | now destruct Hsee].
Qed.

(** Giving the entry its branch. *)
Lemma settle_ok ctx i p : ctx_ok h ctx -> items (expr_producers_ ctx) !! i = Some p ->
  exists ret ctx' p', produce_now h cnt_column dependant_expr o ctx (Z.of_nat i) p = Some (ret, ctx') /\ ctx_ok h ctx' /\
    items (expr_producers_ ctx') = <[i := p']> (items (expr_producers_ ctx)) /\ settles p p' /\
    (ret = OB_SUCCESS -> producer_id_ p' = id_ o -> producer_branch_ p' <> OB_INVALID_ID) /\ (ret <> OB_SUCCESS -> refused ctx p ret).
Proof.
  intros Hc Hi. assert (items (expr_producers_ ctx) = <[i := p]> (items (expr_producers_ ctx))) as Hsame by now rewrite list_insert_id.
  assert (is_Some (h !! expr_ p)) as Hp by exact (ctx_live h ctx Hc _ _ (ctx_index h ctx Hc i p Hi)). unfold produce_now.
  destruct (Z.eqb_spec OB_INVALID_ID (producer_branch_ p)) as [Eb | Nb]; cbn [andb].
  2:{ exists OB_SUCCESS, ctx, p. split_and!; [reflexivity | exact Hc | exact Hsame | now left | intros _ _; now apply not_eq_sym | done]. }
  destruct (Z.eqb_spec (producer_id_ p) (id_ o)) as [Ei | Ni].
  2:{ exists OB_SUCCESS, ctx, p. split_and!; [reflexivity | exact Hc | exact Hsame | now left | done | done]. }
  destruct (can_be_produced_ok ctx (expr_ p) Hc Hp) as (b & -> & Hb). cbn [mbind option_bind]. change (OB_FAIL OB_SUCCESS) with false. cbn iota.
  destruct b.
  - destruct (set_producer_ok ctx i p (mkProducer (expr_ p) (branch_id_ o) (consumer_id_ p) (id_ o)) Hc Hi eq_refl) as (Hc' & Hit & _).
    eexists _, _, _. split_and!; [reflexivity | exact Hc' | exact Hit | right; auto | done | done].
  - exists OB_ERR_UNEXPECTED, ctx, p. split_and!; [reflexivity | exact Hc | exact Hsame | now left | done |]. intros _.
    split_and!; auto. intros Hpr. now apply Hb in Hpr.
Qed.
Lemma post_producer_ok ctx i p (outs : SE ptr 8) : ctx_ok h ctx -> items (expr_producers_ ctx) !! i = Some p ->
  ia_wf outs -> ia_count outs < 2 ^ 41 ->
  exists ret ctx' outs', post_producer h cnt_column dependant_expr m o ctx (Z.of_nat i) outs = Some (ret, ctx', outs') /\ ctx_ok h ctx' /\
    ia_wf outs' /\ items outs `prefix_of` items outs' /\ ia_count outs' <= ia_count outs + 1 /\
    exists p', items (expr_producers_ ctx') = <[i := p']> (items (expr_producers_ ctx)) /\ settles p p' /\
      (ret = OB_SUCCESS -> delivered (items outs') p') /\ (ret <> OB_SUCCESS -> refused ctx p ret).
Proof.
  intros Hc Hi Hw Hn. unfold post_producer. rewrite Nat2Z.id, Hi. cbn [mbind option_bind].
  assert (is_Some (h !! expr_ p)) as Hp by exact (ctx_live h ctx Hc _ _ (ctx_index h ctx Hc i p Hi)).
  destruct (Z.leb_spec (producer_id_ p) (id_ o)) as [Hle | Hgt].
  2:{ eexists _, _, _. split_and!; [reflexivity | exact Hc | exact Hw | done | lia |]. exists p. rewrite list_insert_id by exact Hi.
      split_and!; [done | now left | | done]. intros _ Heq. lia. }
  rewrite (proj2 (Z.eqb_neq _ NULL) (ordered_null h _ Ho Hp)). destruct (settle_ok ctx i p Hc Hi) as (ret & ctx' & p' & -> & Hc' & Hit & Hsp & Hbr & Href).
  cbn [mbind option_bind]. pose proof (settles_expr p p' Hsp) as Hpe.
  assert (items (expr_producers_ ctx') !! i = Some p') as Hi'.
  { rewrite Hit. apply list_lookup_insert_eq. exact (lookup_lt_Some _ _ _ Hi). }
  rewrite Hi'. cbn [mbind option_bind]. unfold OB_SUCC. assert (ia_count outs <= ia_count outs + 1) as Hgrow by lia.
  destruct (Z.eqb_spec ret OB_SUCCESS) as [-> | Hr]; cbn [andb];
    [| eexists _, _, _; split_and!; [reflexivity | done.. | exists p'; split_and!; auto; done]].
  destruct (Z.eqb_spec OB_INVALID_ID (producer_branch_ p')) as [Ebr | Nbr]; cbn [negb andb].
  { eexists _, _, _. split_and!; [reflexivity | done.. |]. exists p'. split_and!; auto. intros _ Heq. now destruct (Hbr eq_refl Heq). }
  destruct (Z.ltb_spec (id_ o) (consumer_id_ p')) as [Hlt | Hge].
  2:{ eexists _, _, _. split_and!; [reflexivity | done.. |]. exists p'. split_and!; auto. intros _ Heq. split; [now apply Hbr | lia]. }
  destruct (is_plan_root_ o) eqn:Er.
  { eexists _, _, _. split_and!; [reflexivity | done.. |]. exists p'. split_and!; auto. intros _ Heq. split; [now apply Hbr | congruence]. }
  destruct (child_output_total (expr_ p')) as [b ->]. cbn [mbind option_bind].
  destruct (b || (producer_id_ p' =? id_ o)) eqn:Eor.
  - destruct (adds_ok Hmem _ _ _ (add_var_adds outs (expr_ p') Hw Hn)) as (outs' & -> & Hw' & Ha). cbn [mbind option_bind].
    eexists _, _, _. split_and!; [reflexivity | done | done | | |].
    + rewrite Ha. apply adjoin_prefix.
    + unfold ia_count. rewrite Ha. pose proof (adjoin_length (items outs) (expr_ p')). lia.
    + exists p'. split_and!; auto. intros _ Heq. split; [now apply Hbr |]. intros _ _. rewrite Ha. apply elem_of_adjoin. now right.
  - apply orb_false_iff in Eor as [_ Eid%Z.eqb_neq]. eexists _, _, _. split_and!; [reflexivity | done.. |]. exists p'. split_and!; auto.
    intros _ Heq. contradiction.
Qed.
Lemma delivered_more l l' p : l `prefix_of` l' -> delivered l p -> delivered l' p.
Proof. intros Hp Hd He. destruct (Hd He) as [? Ho']. split; [assumption |]. intros. eapply elem_of_prefix; eauto. Qed.

Lemma post_loop_ok n : forall i ctx (outs : SE ptr 8), ctx_ok h ctx -> (i + n = length (items (expr_producers_ ctx)))%nat ->
  ia_wf outs -> ia_count outs + Z.of_nat n < 2 ^ 41 ->
  exists ret ctx' outs', post_loop h cnt_column dependant_expr n m o ctx (Z.of_nat i) outs = Some (ret, ctx', outs') /\ ctx_ok h ctx' /\
    items outs `prefix_of` items outs' /\ length (items (expr_producers_ ctx')) = length (items (expr_producers_ ctx)) /\
    (forall j, (j < i)%nat -> items (expr_producers_ ctx') !! j = items (expr_producers_ ctx) !! j) /\
    (forall j p, (i <= j)%nat -> items (expr_producers_ ctx) !! j = Some p ->
       exists p', items (expr_producers_ ctx') !! j = Some p' /\ settles p p' /\ (ret = OB_SUCCESS -> delivered (items outs') p')) /\
    (ret <> OB_SUCCESS -> exists p, p ∈ items (expr_producers_ ctx) /\ refused ctx p ret).
Proof.
  induction n as [| n IH]; intros i ctx outs Hc Hn Hw Hcnt; cbn [post_loop].
  { eexists _, _, _. split_and!; [reflexivity | done.. | | done]. intros j p Hj Hp. apply lookup_lt_Some in Hp. lia. }
  destruct (lookup_lt_is_Some_2 (items (expr_producers_ ctx)) i ltac:(lia)) as [p Hp].
  destruct (post_producer_ok ctx i p outs Hc Hp Hw ltac:(lia)) as (ret & ctx1 & outs1 & -> & Hc1 & Hw1 & Hpre1 & Hcnt1 & p' & Hit & Hsp & Hd & Hr).
  cbn [mbind option_bind]. unfold OB_SUCC. destruct (Z.eqb_spec ret OB_SUCCESS) as [-> | Hne].
  - replace (Z.of_nat i + 1) with (Z.of_nat (S i)) by lia. destruct (IH (S i) ctx1 outs1 Hc1) as (ret & ctx' & outs' & E & Hc' & Hpre & Hlen & Hlow & Hhigh & Href);
      [rewrite Hit, length_insert; lia | exact Hw1 | lia |].
    exists ret, ctx', outs'. split_and!; [exact E | exact Hc' | now transitivity (items outs1) | now rewrite Hlen, Hit, length_insert | | |].
    + intros j Hj. rewrite Hlow, Hit by lia. apply list_lookup_insert_ne. lia.
    + intros j q Hj Hq. destruct (decide (j = i)) as [-> | Hji].
      * rewrite Hp in Hq. injection Hq as <-. exists p'. split_and!; [| exact Hsp | intros _; eapply delivered_more; eauto].
        rewrite Hlow, Hit by lia. apply list_lookup_insert_eq. lia.
      * apply Hhigh; [lia |]. rewrite Hit, list_lookup_insert_ne by auto. exact Hq.
    + intros Hne. destruct (Href Hne) as (q & Hq & Hrq). apply list_elem_of_lookup in Hq as [j Hj]. rewrite Hit in Hj.
      apply list_lookup_insert_Some in Hj as [(<- & <- & _) | [_ Hj]].
      * destruct Hrq as (_ & Hq1 & Hx & _). now destruct (Hd eq_refl Hq1).
      * exists q. split; [now apply list_elem_of_lookup_2 with j |]. destruct Hrq as (Hrt & Hq1 & Hq2 & Hq3). split_and!; auto.
        intros Hpr. apply Hq3. eapply producible_more; [| exact Hpr]. intros x. exact (visible_settles ctx ctx1 i p p' x Hc Hc1 Hp Hit Hsp).
  - eexists _, _, _. split_and!; [reflexivity | exact Hc1 | exact Hpre1 | now rewrite Hit, length_insert | | |].
    + intros j Hj. rewrite Hit. apply list_lookup_insert_ne. lia.
    + intros j q Hj Hq. rewrite Hit. destruct (decide (j = i)) as [-> | Hji].
      * rewrite Hp in Hq. injection Hq as <-. exists p'. rewrite list_lookup_insert_eq by lia. split_and!; auto; done.
      * exists q. rewrite list_lookup_insert_ne by auto. split_and!; [exact Hq | now left | done].
    + intros _. exists p. split; [now apply list_elem_of_lookup_2 with i | now apply Hr].
Qed.

(** The whole of the base class's pass, on producers. *)
Lemma base_post_ok ctx (outs : SE ptr 8) : ctx_ok h ctx -> ia_wf outs -> ia_count outs + Z.of_nat (size h) < 2 ^ 41 ->
  exists ret ctx' outs', base_allocate_expr_post h cnt_column dependant_expr m o ctx outs = Some (ret, ctx', outs') /\ ctx_ok h ctx' /\
    items outs `prefix_of` items outs' /\
    (forall e p, producer ctx e = Some p -> exists p', producer ctx' e = Some p' /\ settles p p') /\
    (ret = OB_SUCCESS -> forall e p, producer ctx' e = Some p -> delivered (items outs') p) /\
    (ret <> OB_SUCCESS -> exists e p, producer ctx e = Some p /\ refused ctx p ret).
Proof.
  intros Hc Hw Hcnt. pose proof (ctx_small ctx Hc) as Hsm.
  destruct (post_loop_ok (length (items (expr_producers_ ctx))) 0 ctx outs Hc eq_refl Hw) as (ret & ctx' & outs' & E & Hc' & Hpre & Hlen & _ & Hh & Hr).
  { unfold ia_count in *. lia. }
  exists ret, ctx', outs'. split_and!; [exact E | exact Hc' | exact Hpre | | |].
  - intros e p Hp. destruct (producer_item ctx e p Hc Hp) as (He & _ & j & _ & Hj). destruct (Hh j p ltac:(lia) Hj) as (p' & Hj' & Hs & _).
    exists p'. split; [| exact Hs]. rewrite <- He, <- (settles_expr p p' Hs). exact (producer_index ctx' j p' Hc' Hj').
  - intros Hs e p Hp. destruct (producer_item ctx' e p Hc' Hp) as (_ & _ & j & _ & Hj).
    destruct (lookup_lt_is_Some_2 (items (expr_producers_ ctx)) j) as [q Hq]; [rewrite <- Hlen; exact (lookup_lt_Some _ _ _ Hj) |].
    destruct (Hh j q ltac:(lia) Hq) as (p' & Hj' & _ & Hd). rewrite Hj in Hj'. injection Hj' as <-. exact (Hd Hs).
  - intros Hne. destruct (Hr Hne) as (p & Hp & Hrp). apply list_elem_of_lookup in Hp as [j Hj]. exists (expr_ p), p.
    split; [exact (producer_index ctx j p Hc Hj) | exact Hrp].
Qed.
End Context_.
End Facts.

(** ** The property *)
Section Theorem_.
Context `{Allocator}.

(** What the operator sees once its calls are marked. *)
Definition after_calls (o : LogOp) (ctx : t) (q : ptr) : Prop :=
  visible o ctx q \/
  q ∈ items (log_python_udf_exprs_ o) /\ seen o (claimed (id_ o) (branch_id_ o) (id_ o) q (producer ctx q)).

(** C10. [ObLogPythonUDF::allocate_expr_post] on a context whose map and array
    agree, with memory: it returns, and the context still agrees.  Every call of
    the operator has a producer with a branch, which is this operator if nobody was
    to compute the call; a producer that had its branch stays as it was.  An
    operator that is not the root of the plan has all its projections in its
    output.  When the code is a success, every expression this operator is to
    produce has a branch, and is in the output if an operator above needs it.  The
    only other code is [OB_ERR_UNEXPECTED], for an expression this operator is to
    produce and cannot: also with its own calls, an operand is neither visible nor
    can be computed. *)
Theorem calls_are_produced h cnt_column dependant_expr m o ctx :
  ordered h -> dependants_below h dependant_expr -> (forall n, alloc_ok n = true) -> id_ o <> OB_INVALID_ID -> branch_id_ o <> OB_INVALID_ID ->
  (forall c, c ∈ items (child_ o) -> c <> NULL -> is_Some (m !! c)) -> ctx_ok h ctx ->
  (forall e, e ∈ items (log_python_udf_exprs_ o) ++ items (log_projection_exprs_ o) -> is_Some (h !! e)) ->
  ia_wf (output_exprs_ o) ->
  ia_count (output_exprs_ o) + ia_count (log_projection_exprs_ o) + Z.of_nat (size h) < 2 ^ 41 ->
  exists ret ctx' o', allocate_expr_post h OB_SUCCESS cnt_column dependant_expr m o ctx = Some (ret, ctx', o') /\ ctx_ok h ctx' /\
    (forall e, e ∈ items (log_python_udf_exprs_ o) -> exists p, producer ctx' e = Some p /\ producer_branch_ p <> OB_INVALID_ID /\
       (producer ctx e = None -> p = mkProducer e (branch_id_ o) (id_ o) (id_ o))) /\
    (forall e p, producer ctx e = Some p -> producer_branch_ p <> OB_INVALID_ID -> producer ctx' e = Some p) /\
    (is_plan_root_ o = false -> forall e, e ∈ items (log_projection_exprs_ o) -> e ∈ items (output_exprs_ o')) /\
    (ret = OB_SUCCESS -> forall e p, producer ctx' e = Some p -> producer_id_ p = id_ o -> producer_branch_ p <> OB_INVALID_ID /\
       (is_plan_root_ o = false -> id_ o < consumer_id_ p -> e ∈ items (output_exprs_ o'))) /\
    (ret <> OB_SUCCESS -> ret = OB_ERR_UNEXPECTED /\ exists e p, producer ctx e = Some p /\ producer_id_ p = id_ o /\
       producer_branch_ p = OB_INVALID_ID /\ ~ producible h cnt_column dependant_expr (after_calls o ctx) e).
Proof.
  intros Ho Hdep Hmem Hid Hb Hch Hc Hlive Hw Hcnt. unfold allocate_expr_post. assert (Z.of_nat (size h) < 2 ^ 41) as Hsz by (unfold ia_count in Hcnt; lia).
  destruct (produce_loop_ok h Ho Hsz Hmem o (items (log_python_udf_exprs_ o)) Hid Hb ctx Hc) as (ctx1 & -> & Hc1 & Hin & Hout).
  { intros e He. apply Hlive, elem_of_app. now left. }
  cbn [mbind option_bind]. change (OB_FAIL OB_SUCCESS) with false. cbn iota.
  destruct (output_projections_ok h Ho Hmem o (items (log_projection_exprs_ o)) (output_exprs_ o)) as (outs1 & -> & Hw1 & Ho1);
    [intros e He; apply Hlive, elem_of_app; now right | exact Hw | unfold ia_count in *; lia |].
  cbn [mbind option_bind]. change (OB_FAIL OB_SUCCESS) with false. cbn iota.
  destruct (base_post_ok h Ho Hmem cnt_column dependant_expr m o Hb Hch Hdep ctx1 outs1 Hc1 Hw1) as (ret & ctx' & outs' & -> & Hc' & Hpre & Hset & Hdel & Href).
  { unfold ia_count in *. rewrite Ho1. destruct (is_plan_root_ o); [lia |].
    pose proof (adjoin_all_length (items (log_projection_exprs_ o)) (items (output_exprs_ o))). lia. }
  cbn [mbind option_bind]. eexists _, _, _. split_and!; [reflexivity | exact Hc' | | | | |].
  - intros e He. destruct (Hset e _ (Hin e He)) as (p & Hp & Hs). exists p.
    pose proof (claimed_branch (id_ o) (branch_id_ o) (id_ o) e (producer ctx e) Hb) as Hbr.
    destruct Hs as [-> | (Hx & _)]; [| contradiction]. split_and!; [exact Hp | exact Hbr |]. now intros ->.
  - intros e p Hp Hbr. assert (producer ctx1 e = Some p) as Hp1.
    { destruct (decide (e ∈ items (log_python_udf_exprs_ o))) as [He | He]; [| now rewrite Hout]. rewrite (Hin e He), Hp. cbn [claimed].
      now rewrite (proj2 (Z.eqb_neq _ _) Hbr). }
    destruct (Hset e p Hp1) as (p' & Hp' & [-> | (Hx & _)]); [exact Hp' | contradiction].
  - intros Hroot e He. cbn [output_exprs_ set_outputs]. eapply elem_of_prefix; [| exact Hpre]. rewrite Ho1, Hroot. apply elem_of_adjoin_all. now right.
  - intros Hs e p Hp Hpid. destruct (producer_item h ctx' e p Hc' Hp) as (<- & _). cbn [output_exprs_ set_outputs]. exact (Hdel Hs _ p Hp Hpid).
  - intros Hne. destruct (Href Hne) as (e & p & Hp & -> & Hpid & Hpb & Hx). split; [reflexivity |].
    destruct (producer_item h ctx1 e p Hc1 Hp) as (He & _). rewrite He in Hx. exists e, p.
    assert (e ∉ items (log_python_udf_exprs_ o)) as Hnot.
    { intros Hine. rewrite (Hin e Hine) in Hp. injection Hp as <-. now apply (claimed_branch (id_ o) (branch_id_ o) (id_ o) e (producer ctx e) Hb). }
    rewrite (Hout e Hnot) in Hp. split_and!; auto. intros Hpr. apply Hx. eapply producible_more; [| exact Hpr].
    intros q [(r & Hr & Hs) | [Hq Hs]].
    + exists r. split; [| exact Hs]. destruct (decide (q ∈ items (log_python_udf_exprs_ o))) as [Hq | Hq]; [| now rewrite Hout].
      rewrite (Hin q Hq), Hr. cbn [claimed]. destruct Hs as [Hs _]. now rewrite (proj2 (Z.eqb_neq _ _) Hs).
    + eexists. split; [exact (Hin q Hq) | exact Hs].
Qed.
End Theorem_.

#[local] Instance produce_memory : Allocator := fun _ => true.

(** The comparison [3] is for the operator [20] to produce and for another to
    consume, the scan produced the column [1]; the call [2] is nobody's yet. *)
Definition demo_ctx : t :=
  mk (mkSE (ObSEArray.mk [mkProducer 3 OB_INVALID_ID 2 1; mkProducer 1 0 1 0] 16 OB_SUCCESS)) {[3 := 0; 1 := 1]} {[3 := 1; 2 := 1; 1 := 3]}.
Lemma demo_ctx_ok : ctx_ok demo_heap demo_ctx.
Proof.
  split; cbn; [split; easy | reflexivity | | | |].
  - intros [| [| i]] p Hp; [| | discriminate]; now injection Hp as <-.
  - intros e z Hz. apply lookup_insert_Some in Hz as [[<- <-] | [_ [<- <-]%lookup_singleton_Some]]; [exists 0%nat | exists 1%nat]; now eexists.
  - intros e z Hz. apply lookup_insert_Some in Hz as [[<- _] | [_ [<- _]%lookup_singleton_Some]]; now eexists.
  - intros q n Hn. unfold flattern_expr_map_ in Hn. cbn in Hn. repeat (apply lookup_insert_Some in Hn as [[_ <-] | [_ Hn]]; [lia |]).
    now apply lookup_singleton_Some in Hn as [_ <-].
Qed.
Lemma calls_are_produced_witness : exists ret ctx' o',
  allocate_expr_post demo_heap OB_SUCCESS (fun _ => true) (fun _ => NULL) demo_ops demo_udf_op demo_ctx = Some (ret, ctx', o') /\
  producer ctx' 2 = Some (mkProducer 2 0 1 1) /\ 2 ∈ items (output_exprs_ o').
Proof.
  destruct (calls_are_produced demo_heap (fun _ => true) (fun _ => NULL) demo_ops demo_udf_op demo_ctx) as (ret & ctx' & o' & E & _ & Hc & _ & Hp & _).
  - exact demo_ordered.
  - destruct demo_ordered as (_ & _ & rank & Hr). exists rank. intros p e He. destruct (Hr p e He). split_and!; [assumption.. | easy].
  - reflexivity.
  - easy.
  - easy.
  - intros c Hc _. cbn in Hc. apply list_elem_of_singleton in Hc as ->. now eexists.
  - exact demo_ctx_ok.
  - intros e He. cbn in He. repeat (apply elem_of_cons in He as [-> | He]; [now eexists |]). now apply not_elem_of_nil in He.
  - split; easy.
  - vm_compute. reflexivity.
  - exists ret, ctx', o'. split_and!; [exact E | | apply (Hp eq_refl); left].
    destruct (Hc 2) as (p & Hq & _ & Hnew); [left |]. rewrite Hq. f_equal. now apply Hnew.
Defined.
(** The comparison is computed too, and both are in the output. *)
Example demo_produced : (fun x => (x.1.1, items (expr_producers_ x.1.2), items (output_exprs_ x.2))) <$>
  allocate_expr_post demo_heap OB_SUCCESS (fun _ => true) (fun _ => NULL) demo_ops demo_udf_op demo_ctx =
  Some (OB_SUCCESS, [mkProducer 3 0 2 1; mkProducer 1 0 1 0; mkProducer 2 0 1 1], [2; 3]).
Proof. vm_compute. reflexivity. Qed.
