(* ===== verification/LifeTheorems.v ===== *)
(** The life of a Python function, from the statement that creates it over its
    calls to the one that drops it: C13. *)
From S2P Require Import Prelude FixedArray SEArray IArray HashArray SortedVector UdfSchema.
From S2P Require Import Serialization UdfObject BatchSize UdfMeta SerialFacts UdfFacts.
From S2P Require Import UdfCreate UdfWire Frame UdfExpr RawExpr.
From S2P Require Import SqlText SqlClient UdfDdl SqlFacts DdlFacts DdlRep DdlSteps DdlRequests.
From S2P Require Import UdfCall CallFacts UdfCmd SqlDemo DdlTheorems QueryTheorems.
Import ObString.

Section Life.
Context `{Allocator, SqlLaws, ObIArray A ptr} `{!ObIArrayLaws A ptr, Resolver A, !ResolverLaws A}.
Context (Hmem : forall n, alloc_ok n = true) (Hup : forall t text d, sql_up t text d = true).

(** A resolver ready for a call. *)
Definition may_call (st : St A) : Prop := parents_expr_info_ st = no_parents /\ ia_wf (ctx_udfs st) /\ ia_count (ctx_udfs st) < 2 ^ 31.
(** The call resolves to an expression of the function of the statement [node]. *)
Definition call_of_statement (cx : Ctx) (node : CreateNode) nm (args : list (option ParseNode)) batch bs expr (st : St A) d : Prop :=
  exists p e st', process_python_udf_node cx (Some (call_node nm args batch)) expr st d = Some (Returns (OB_SUCCESS, p, st')) /\
    st_heap st' !! p = Some e /\ type_ e = T_FUN_PYTHON_UDF /\ Forall2 (resolved_to (A := A)) args (params e) /\
    carries (udf_meta_ e) (relation node) (type_of_value (ret_value node)) (body_of (pycall_node node)) (map (fun x => type_of_value x.2) (elements node)) /\
    takes_batch (udf_meta_ e) bs /\
    items (ctx_udfs st') = items (ctx_udfs st) ++ [p].

Definition resolved_udf (tenant_id : Z) (node : CreateNode) : ObPythonUDF.t :=
  ObPythonUDF.mk OB_SUCCESS tenant_id OB_INVALID_ID (relation node) [] (Z.of_nat (List.length (elements node)))
    (UdfFacts.join (map (fun e => c_str e.1) (elements node))) (UdfFacts.join (map (fun e => type_text e.2) (elements node)))
    (type_of_value (ret_value node)) (body_of (pycall_node node)) (-1).

Lemma created_call cx e node nm args batch bs expr st d g : ctx_ok cx -> rep d g ->
  g !! key (effective_tenant_id cx) nm = Some (made e (resolved_udf (effective_tenant_id cx) node)) ->
  elements_ok (elements node) -> plain nm -> nm <> [] -> length nm < 2 ^ 27 -> effective_tenant_id cx <> OB_INVALID_ID ->
  udf_small (resolved_udf (effective_tenant_id cx) node) ->
  case_equal (casedn nm) (chars "bin") = false -> case_equal (casedn nm) (chars "oct") = false ->
  List.length args = List.length (elements node) -> Forall (resolvable (A := A)) args -> batch_asked batch bs -> may_call st ->
  call_of_statement cx node nm args batch bs expr st d.
Proof.
  intros Hcx Hr Eg Hel Hn Hne Hl Ht Hsm Hb Ho Hnum Hres Hba (Hps & Hw & Hc).
  set (u := resolved_udf (effective_tenant_id cx) node) in *. set (f := made e u) in *.
  pose proof (checker_ok Hmem Hup cx d g (effective_tenant_id cx) nm Hcx Hr Hn Hne Hl Ht) as Hck. rewrite Eg in Hck.
  destruct (rep_ok d g _ _ f Hr Eg) as [Hok _]. unfold call_of_statement.
  rewrite (call_enters Hmem cx st d nm args batch bs expr Hcx Hn Hne Hl Hba Hps).
  destruct (call_resolves Hmem cx st d nm args bs expr (effective_tenant_id cx) f (map (fun x => c_str x.1) (elements node)) (map (fun x => type_of_value x.2) (elements node)))
    as (p & ex & st' & E & _ & He & _ & Hty & Hpar & Hcar & _ & Hbs & _ & Hi); auto.
  - cbn. now rewrite Hnum.
  - now apply resolved_args_ok.
  - destruct Hsm as (Hs & _). change (fn_name f) with (ObPythonUDF.name_ u). lia.
  - destruct Hsm as (_ & _ & _ & Hs). change (fn_pycall f) with (ObPythonUDF.pycall_ u). lia.
  - exists p, ex, st'. auto 10.
Qed.

(** C13. The life of a Python function whose name has no quote and no backslash and
    is neither [bin] nor [oct], in any case of letters.  [CREATE PYTHON_UDF] of a
    tenant that has no function of the name goes from the parse tree over the executor to the
    root server and succeeds, when nothing fails on the way and the values fit
    their columns.  From then on a call in a query, in any case of letters and
    with the declared number of arguments, resolves to an expression with the
    name, the return type, the body and the argument types of the statement.
    [DROP PYTHON_UDF], in any case of letters, succeeds, leaves the functions
    there were before, and from then on the call is [OB_ERR_FUNCTION_UNKNOWN].
    (Names with a quote or a backslash break the statements the server writes, and
    [bin] and [oct] are taken for the system functions.) *)
Theorem function_lifecycle (cx : Ctx) (x : ExecCtx) (e1 e2 : Env) sizeof_create sizeof_drop node nm if_exists rpc_create rpc_drop d g :
  ctx_ok cx -> exec_ok x -> env_ok e1 -> healthy e1 -> env_ok e2 -> healthy e2 ->
  (forall u d, rpc_create u d = root_create_python_udf e1 u d) -> (forall a d, rpc_drop a d = root_drop_python_udf e2 a d) ->
  is_create node = true -> num_child_ node = 4 -> elements_ok (elements node) -> tenant_ok (effective_tenant_id cx) ->
  rep d g -> g !! key (effective_tenant_id cx) (relation node) = None ->
  let u := resolved_udf (effective_tenant_id cx) node in
  request_ok (Create u) -> request_fits e1 (Create u) -> ObPythonUDF.check_pycall u = OB_SUCCESS ->
  plain nm -> nm <> [] -> length nm < 2 ^ 27 -> collate nm = collate (relation node) ->
  case_equal (casedn nm) (chars "bin") = false -> case_equal (casedn nm) (chars "oct") = false ->
  exists d1 d2, create_statement cx x rpc_create sizeof_create node d = Some (OB_SUCCESS, d1) /\
    (forall args batch bs expr (st : St A), List.length args = List.length (elements node) -> Forall (resolvable (A := A)) args ->
       batch_asked batch bs -> may_call st -> call_of_statement cx node nm args batch bs expr st d1) /\
    drop_statement cx x rpc_drop true sizeof_drop casedn (drop_node if_exists nm) d1 = Some (OB_SUCCESS, d2) /\ rep d2 g /\
    (forall args batch bs expr (st : St A), batch_asked batch bs -> may_call st ->
       process_python_udf_node cx (Some (call_node nm args batch)) expr st d2 = Some (Returns (OB_ERR_FUNCTION_UNKNOWN, expr, st))).
Proof.
  intros Hcx Hx He1 Hh1 He2 Hh2 Hrc Hrd Hcr Hfour Hel Ht Hr Hnone u Hq Hf Hck Hn Hne Hl Hco Hbin Hoct.
  assert (key (effective_tenant_id cx) nm = key (effective_tenant_id cx) (relation node)) as Hk by (unfold key; now rewrite Hco).
  assert (key (effective_tenant_id cx) (casedn nm) = key (effective_tenant_id cx) nm) as Hkd by (unfold key; now rewrite casedn_collate).
  destruct (healthy_serve e1 (Create u) d g Hmem Hup Hr He1 Hh1 Hq Hf) as (d1 & E1 & Hr1).
  cbn [cat_serve] in E1, Hr1. change (ObPythonUDF.tenant_id_ u) with (effective_tenant_id cx) in *. change (ObPythonUDF.name_ u) with (relation node) in *.
  rewrite Hck, bool_decide_false in E1, Hr1 by (rewrite Hnone; now intros []). change (OB_FAIL OB_SUCCESS) with false in *. cbn iota in E1, Hr1. cbn [fst snd] in E1, Hr1.
  set (a := mkDrop (effective_tenant_id cx) (casedn nm) if_exists).
  pose proof (casedn_plain nm Hn) as Hcp. pose proof (casedn_nonempty nm Hne) as Hcn. pose proof (casedn_length nm) as Hcl.
  destruct (healthy_serve e2 (Drop a) d1 _ Hmem Hup Hr1 He2 Hh2) as (d2 & E2 & Hr2); [split; [exact Ht | exact Hcp] | split; cbn; [exact Hcn | lia] |].
  cbn [cat_serve] in E2, Hr2. change (drop_tenant_id_ a) with (effective_tenant_id cx) in *. change (drop_name_ a) with (casedn nm) in *.
  rewrite Hkd, Hk, lookup_insert_eq, bool_decide_true in E2, Hr2 by eauto. cbn [fst snd] in E2, Hr2. rewrite delete_insert_id in Hr2 by exact Hnone.
  exists d1, d2. split_and!; auto.
  - unfold create_statement. rewrite (resolve_four Hmem _ _ _ Hcr Hfour). change (OB_FAIL OB_SUCCESS) with false. cbn iota.
    rewrite (execute_create_ok x _ _ _ Hx), Hrc. exact E1.
  - intros args batch bs expr st Hnum Hres Hba Hst. apply (created_call cx e1 node nm args batch bs expr st d1 _ Hcx Hr1); auto.
    + rewrite Hk. apply lookup_insert_eq.
    + apply Ht.
    + apply Hf.
  - unfold drop_statement. destruct Hcx as (_ & Hs & Hk' & Hc & _). rewrite (resolve_drop_ok cx _ _ _ _ Hmem Hs Hk' Hc) by (auto using plain_bytes; lia).
    cbn [mbind option_bind]. change (OB_FAIL OB_SUCCESS) with false. cbn iota. rewrite (execute_drop_ok x _ _ _ Hx), Hrd. exact E2.
  - intros args batch bs expr st Hba (Hps & _). rewrite (call_enters Hmem cx st d2 nm args batch bs expr Hcx Hn Hne Hl Hba Hps).
    apply (call_unknown cx st d2 nm args bs expr ObPythonUDF.new).
    rewrite (checker_ok Hmem Hup cx d2 g (effective_tenant_id cx) nm Hcx Hr2 Hn Hne Hl (proj2 Ht)). now rewrite Hk, Hnone.
Qed.
End Life.

(** ** Witness *)
#[local] Existing Instances query_memory demo_resolver demo_resolver_laws.
Definition life_node : CreateNode :=
  mkNode true 4 (chars "Dist") [(chars "a", 3); (chars "b", 3)] 3 [] (T_PYTHON_CODE (chars "def pyinitial(): def pyfun(a,b):")).
Definition life_exec : ExecCtx := mkExec OB_SUCCESS true OB_SUCCESS true.
(** [CREATE PYTHON_UDF Dist ...], [PREDICT dist(x, y)], [DROP PYTHON_UDF DIST]. *)
Lemma function_lifecycle_witness : exists d1 d2,
  create_statement demo_ctx life_exec (root_create_python_udf demo_env) 64 life_node no_rows = Some (OB_SUCCESS, d1) /\
  call_of_statement (A := SE ptr 8) demo_ctx life_node (chars "DIST") demo_args None 0 NULL demo_st d1 /\
  drop_statement demo_ctx life_exec (root_drop_python_udf demo_env) true 64 (casedn (A := SE ptr 8)) (drop_node false (chars "DIST")) d1 = Some (OB_SUCCESS, d2) /\
  process_python_udf_node demo_ctx (Some (call_node (chars "DIST") demo_args None)) NULL demo_st d2 =
    Some (Returns (OB_ERR_FUNCTION_UNKNOWN, NULL, demo_st)).
Proof.
  pose proof (function_lifecycle (H := query_memory) (H3 := se_iarray) (ObIArrayLaws0 := se_iarray_laws) (fun _ => eq_refl) (fun _ _ _ => eq_refl) demo_ctx life_exec demo_env demo_env 64 64 life_node (chars "DIST") false
    (root_create_python_udf demo_env) (root_drop_python_udf demo_env) no_rows ∅) as Hc.
  destruct Hc as (d1 & d2 & E1 & Hcall & E2 & _ & Hgone);
    [split_and!; reflexivity | split_and!; reflexivity | exact demo_env_ok | split_and!; reflexivity | exact demo_env_ok | split_and!; reflexivity |
     reflexivity | reflexivity | reflexivity | reflexivity | repeat constructor; simpl; (easy || lia) | easy | exact demo_empty | reflexivity |
     split_and!; try easy; try apply plain_bytes; now apply plain_decided | split_and!; try easy; repeat constructor | reflexivity |
     now apply plain_decided | easy | easy | reflexivity | reflexivity | reflexivity |].
  assert (may_call demo_st) as Hst by (split_and!; [reflexivity | exact (proj1 ia_new_law) | easy]).
  exists d1, d2. split_and!; [exact E1 | | exact E2 | exact (Hgone demo_args None 0 NULL demo_st eq_refl Hst)].
  exact (Hcall demo_args None 0 NULL demo_st eq_refl demo_resolvable eq_refl Hst).
Defined.
