(* ===== verification/PUStore.v ===== *)
(** The two input buffers of the Python UDF operator: [ObColInputStore], for the
    columns the operator passes through, and [ObPUInputStore], for the arguments
    of one Python UDF ([src/src/sql/engine/python_udf_engine/ob_python_udf_op.cpp]).

    A buffer is a list with one entry per row of its capacity; [None] is memory
    that was allocated and not yet written.  Reading such an entry, or writing
    past the capacity, is [None]: the C++ call has no defined result. *)
From S2P Require Import Prelude PopCount BitVector Frame FixedArray.

Definition DEFAULT_PU_LENGTH : Z := 8192.
Definition BUFFER_MAG : Z := 2.
Definition sizeof_ObDatum : Z := 12.
Definition sizeof_int : Z := 4.
Definition sizeof_double : Z := 8.

(** ** Batches *)

Record ObBatchRows := mkBrs
  { skip_ : words; size_ : Z; end_ : bool; all_rows_active_ : bool }.

Definition brs_copy (dst src : ObBatchRows) : ObBatchRows :=
  mkBrs (ObBitVector.deep_copy (skip_ dst) (skip_ src) (size_ src))
        (size_ src) (end_ src) (all_rows_active_ src).
Definition set_skip (b : ObBatchRows) (idx : Z) : ObBatchRows :=
  mkBrs (ObBitVector.set (skip_ b) idx) (size_ b) (end_ b) false.
Definition reset_skip (b : ObBatchRows) (size : Z) : ObBatchRows :=
  mkBrs (ObBitVector.reset size (skip_ b)) (size_ b) (end_ b) true.

(** [brs.size_ - brs.skip_->accumulate_bit_cnt(brs.size_)]. *)
Definition active_cnt (b : ObBatchRows) : Z :=
  size_ b - ObBitVector.accumulate_bit_cnt (skip_ b) (size_ b).

(** ** Types of arguments *)

(** The three groups of labels the switches on [datum_meta_.type_] share. *)
Inductive ArgClass := ArgStr | ArgInt | ArgDouble.

#[export] Instance ArgClass_eq_dec : EqDecision ArgClass.
Proof. solve_decision. Defined.

Definition arg_class (ty : ObObjType) : option ArgClass :=
  match ty with
  | ObCharType | ObVarcharType | ObTinyTextType | ObTextType | ObMediumTextType
  | ObLongTextType => Some ArgStr
  | ObTinyIntType | ObSmallIntType | ObMediumIntType | ObInt32Type | ObIntType => Some ArgInt
  | ObDoubleType => Some ArgDouble
  | _ => None
  end.

(** A Python UDF expression: the expression itself, whether its item type is
    [T_FUN_PYTHON_UDF], and its arguments.  Its [extra_info_] is kept apart,
    under [eid], because execution changes it. *)
Record ObUdfExpr := mkUdf { u_expr : ObExpr; is_python_udf : bool; args_ : list ObExpr }.
Definition arg_cnt_ (u : ObUdfExpr) : Z := Z.of_nat (length (args_ u)).

(** [cast_to_uniform] on the expression's slots of the context. *)
Definition cast_ctx (e : ObExpr) (size : Z) (ctx : ObEvalCtx) : option (Z * ObEvalCtx) :=
  m ← ctx !! eid e;
  '(ret, m) ← cast_to_uniform e size m;
  Some (ret, <[eid e := m]> ctx).

Section Stores.
Context `{Allocator}.

(** [dst.deep_copy(src, alloc)]: the result is ignored by the callers; when the
    allocation fails the destination keeps the source's pointer. *)
Definition datum_deep_copy (buf : bytes) (src : ObDatum) : option ObDatum :=
  if null_ src then Some src
  else
    let alloc_len := if 0 <? len_ src then len_ src else 1 in
    if alloc_ok alloc_len then
      b ← deref buf (ptr_ src) (len_ src); Some (mkDatum (PExt b) (len_ src) false)
    else Some src.

(** [for (j = 0; j < brs.size_; ++j) if (!brs.skip_->at(j)) dst[dst_idx++] = get(j)],
    the remaining [n] rows from row [j]. *)
Fixpoint save_loop {A} (n : nat) (j : Z) (skip : words) (get : Z -> option A)
    (dst : list (option A)) (dst_idx : Z) : option (list (option A)) :=
  match n with
  | O => Some dst
  | S n' =>
      if ObBitVector.at_ skip j then save_loop n' (j + 1) skip get dst dst_idx
      else x ← get j; dst' ← wr dst dst_idx (Some x);
           save_loop n' (j + 1) skip get dst' (dst_idx + 1)
  end.

(** ** [ObColInputStore] *)

Abbreviation datum_buf := (option (list (option ObDatum))).

Record ObColInputStore := mkCol
  { exprs_ : ObFixedArray.t ObExpr;
    datums_copy_ : ObFixedArray.t datum_buf;
    col_length_ : Z; col_batch_size_ : Z; col_saved_size_ : Z; col_output_idx_ : Z;
    col_inited_ : bool }.

Definition col_empty : ObColInputStore :=
  mkCol ObFixedArray.empty ObFixedArray.empty 0 0 0 0 false.

Definition new_buf (A : Type) (length : Z) : list (option A) := replicate (Z.to_nat length) None.
Definition alloc_datums (length : Z) : datum_buf :=
  if alloc_ok (sizeof_ObDatum * length) then Some (new_buf ObDatum length) else None.

Fixpoint col_init_loop (exprs : list ObExpr) (length : Z)
    (es : ObFixedArray.t ObExpr) (ds : ObFixedArray.t datum_buf)
    : Z * ObFixedArray.t ObExpr * ObFixedArray.t datum_buf :=
  match exprs with
  | [] => (OB_SUCCESS, es, ds)
  | e :: exprs' =>
      match alloc_datums length with
      | None => (OB_INIT_FAIL, es, ds)
      | Some buf =>
          let '(ret, es) := ObFixedArray.push_back es e in
          if OB_FAIL ret then (OB_INIT_FAIL, es, ds)
          else
            let '(ret, ds) := ObFixedArray.push_back ds (Some buf) in
            if OB_FAIL ret then (OB_INIT_FAIL, es, ds)
            else col_init_loop exprs' length es ds
      end
  end.

Definition col_init (st : ObColInputStore) (exprs : list ObExpr) (batch_size length : Z)
    : Z * ObColInputStore :=
  let n := Z.of_nat (List.length exprs) in
  let es := (ObFixedArray.init (exprs_ st) n).2 in
  let ds := (ObFixedArray.init (datums_copy_ st) n).2 in
  let '(ret, es, ds) := col_init_loop exprs length es ds in
  if OB_SUCC ret then (ret, mkCol es ds length batch_size 0 0 true)
  else (ret, mkCol es ds (col_length_ st) (col_batch_size_ st) (col_saved_size_ st)
               (col_output_idx_ st) (col_inited_ st)).

(** [tmp_alloc_.reset()]: the copies die, the arrays stay. *)
Definition col_free (st : ObColInputStore) : Z * ObColInputStore := (OB_SUCCESS, st).

Definition col_reuse (st : ObColInputStore) : Z * ObColInputStore :=
  (OB_SUCCESS, mkCol (exprs_ st) (datums_copy_ st) (col_length_ st) (col_batch_size_ st) 0 0
                 (col_inited_ st)).

(** [for (i = 0; i < exprs_.count(); ++i) datums_copy_.push_back(alloc(...))];
    neither the allocation nor the push is checked. *)
Fixpoint col_realloc (n : nat) (length : Z) (ds : ObFixedArray.t datum_buf)
    : ObFixedArray.t datum_buf :=
  match n with
  | O => ds
  | S n' => col_realloc n' length (ObFixedArray.push_back ds (alloc_datums length)).2
  end.

Definition col_reset (st : ObColInputStore) (length : Z) : Z * ObColInputStore :=
  if length <=? col_length_ st then (OB_SUCCESS, (col_reuse st).2)
  else
    let '(ret, st) := col_free st in
    if OB_FAIL ret then (OB_ERR_UNEXPECTED, st)
    else
      let n := ObFixedArray.count_ (exprs_ st) in
      let ds := (ObFixedArray.init (ObFixedArray.destroy (datums_copy_ st)) n).2 in
      (ret, mkCol (exprs_ st) (col_realloc (Z.to_nat n) length ds) length (col_batch_size_ st) 0 0
              (col_inited_ st)).

(** The elements of the two arrays, paired by index. *)
Definition col_slots (st : ObColInputStore) : list (ObExpr * datum_buf) :=
  zip (ObFixedArray.elems (exprs_ st)) (ObFixedArray.elems (datums_copy_ st)).

(** The inner loop of [save_vector] for one expression: a copy of each payload
    that is not skipped.  The null flag of the destination is left as it was. *)
Fixpoint save_vector_loop (n : nat) (j : Z) (skip : words) (m : ExprMem)
    (dst : list (option ObDatum)) (dst_idx : Z) : option (Z * list (option ObDatum)) :=
  match n with
  | O => Some (OB_SUCCESS, dst)
  | S n' =>
      if ObBitVector.at_ skip j then save_vector_loop n' (j + 1) skip m dst dst_idx
      else
        '(payload, copy_len) ← get_payload m j;
        old ← rd dst dst_idx;
        let null := match old with Some d => null_ d | None => false end in
        if copy_len =? 0 then
          dst' ← wr dst dst_idx (Some (mkDatum PNull 0 null));
          save_vector_loop n' (j + 1) skip m dst' (dst_idx + 1)
        else if alloc_ok copy_len then
          b ← deref (res_buf_ m) payload copy_len;
          dst' ← wr dst dst_idx (Some (mkDatum (PExt b) copy_len null));
          save_vector_loop n' (j + 1) skip m dst' (dst_idx + 1)
        else Some (OB_ALLOCATE_MEMORY_FAILED, dst)
  end.

(** The loop over the expressions; it stops at the first error, leaving the
    later buffers alone. *)
Fixpoint save_vector_exprs (slots : list (ObExpr * datum_buf)) (ctx : ObEvalCtx)
    (brs : ObBatchRows) (saved : Z) : option (Z * list datum_buf) :=
  match slots with
  | [] => Some (OB_SUCCESS, [])
  | (e, buf) :: slots' =>
      m ← ctx !! eid e;
      '(ret, dst) ← save_vector_loop (Z.to_nat (size_ brs)) 0 (skip_ brs) m (default [] buf) saved;
      if OB_SUCC ret then
        '(ret, rest) ← save_vector_exprs slots' ctx brs saved;
        Some (ret, Some dst :: rest)
      else Some (ret, Some dst :: map snd slots')
  end.

Definition set_bufs (a : ObFixedArray.t datum_buf) (bufs : list datum_buf) : ObFixedArray.t datum_buf :=
  ObFixedArray.mk (Some bufs) (ObFixedArray.count_ a) (ObFixedArray.capacity_ a).

Definition col_save_vector (st : ObColInputStore) (ctx : ObEvalCtx) (brs : ObBatchRows)
    : option (Z * ObColInputStore) :=
  let cnt := active_cnt brs in
  if col_length_ st <? col_saved_size_ st + cnt then Some (OB_ERR_UNEXPECTED, st)
  else
    '(ret, bufs) ← save_vector_exprs (col_slots st) ctx brs (col_saved_size_ st);
    let ds := match col_slots st with [] => datums_copy_ st | _ => set_bufs (datums_copy_ st) bufs end in
    Some (ret, mkCol (exprs_ st) ds (col_length_ st) (col_batch_size_ st)
                 (if OB_SUCC ret then col_saved_size_ st + cnt else col_saved_size_ st)
                 (col_output_idx_ st) (col_inited_ st)).

(** The inner loop of [load_vector]: [set_payload] of the stored copies. *)
Fixpoint load_vector_loop (n : nat) (j : Z) (src : list (option ObDatum)) (output_idx : Z)
    (m : ExprMem) : option ExprMem :=
  match n with
  | O => Some m
  | S n' =>
      x ← rd src (output_idx + j); d ← x;
      b ← deref [] (ptr_ d) (len_ d);
      m' ← set_payload m j b;
      load_vector_loop n' (j + 1) src output_idx m'
  end.

(** The result of [init_vector] is not checked; after a failed one the header
    and the vector object disagree, which has no meaning here. *)
Fixpoint load_vector_exprs (slots : list (ObExpr * datum_buf)) (ctx : ObEvalCtx)
    (load_size output_idx : Z) : option ObEvalCtx :=
  match slots with
  | [] => Some ctx
  | (e, buf) :: slots' =>
      m ← ctx !! eid e;
      '(ret, m) ← init_vector e m (get_default_res_format e) load_size true;
      if OB_SUCC ret then
        m ← load_vector_loop (Z.to_nat load_size) 0 (default [] buf) output_idx m;
        load_vector_exprs slots' (<[eid e := m]> ctx) load_size output_idx
      else None
  end.

Definition col_load_vector (st : ObColInputStore) (ctx : ObEvalCtx) (load_size : Z)
    : option (Z * ObColInputStore * ObEvalCtx) :=
  if col_saved_size_ st <? col_output_idx_ st + load_size then Some (OB_ERR_UNEXPECTED, st, ctx)
  else
    ctx ← load_vector_exprs (col_slots st) ctx load_size (col_output_idx_ st);
    Some (OB_SUCCESS, mkCol (exprs_ st) (datums_copy_ st) (col_length_ st) (col_batch_size_ st)
                        (col_saved_size_ st) (col_output_idx_ st + load_size) (col_inited_ st), ctx).

(** [save_batch]: one loop per expression; the cast's result is ignored. *)
Fixpoint save_batch_exprs (slots : list (ObExpr * datum_buf)) (ctx : ObEvalCtx)
    (brs : ObBatchRows) (saved : Z) : option (list datum_buf * ObEvalCtx) :=
  match slots with
  | [] => Some ([], ctx)
  | (e, buf) :: slots' =>
      '(_, ctx) ← cast_ctx e (size_ brs) ctx;
      m ← ctx !! eid e;
      dst ← save_loop (Z.to_nat (size_ brs)) 0 (skip_ brs)
              (fun j => d ← rd (datums_ m) (if is_const_expr e then 0 else j);
                        datum_deep_copy (res_buf_ m) d) (default [] buf) saved;
      '(rest, ctx) ← save_batch_exprs slots' ctx brs saved;
      Some (Some dst :: rest, ctx)
  end.

Definition col_save_batch (st : ObColInputStore) (ctx : ObEvalCtx) (brs : ObBatchRows)
    : option (Z * ObColInputStore * ObEvalCtx) :=
  let cnt := active_cnt brs in
  if col_length_ st <? col_saved_size_ st + cnt then Some (OB_ERR_UNEXPECTED, st, ctx)
  else
    '(bufs, ctx) ← save_batch_exprs (col_slots st) ctx brs (col_saved_size_ st);
    let ds := match col_slots st with [] => datums_copy_ st | _ => set_bufs (datums_copy_ st) bufs end in
    Some (OB_SUCCESS, mkCol (exprs_ st) ds (col_length_ st) (col_batch_size_ st)
                        (col_saved_size_ st + cnt) (col_output_idx_ st) (col_inited_ st), ctx).

(** [load_batch]: the stored datums themselves, pointers included. *)
Fixpoint load_batch_loop (n : nat) (j : Z) (src : list (option ObDatum)) (output_idx : Z)
    (dst : list ObDatum) : option (list ObDatum) :=
  match n with
  | O => Some dst
  | S n' =>
      x ← rd src (output_idx + j); d ← x; dst' ← wr dst j d;
      load_batch_loop n' (j + 1) src output_idx dst'
  end.

Fixpoint load_batch_exprs (slots : list (ObExpr * datum_buf)) (ctx : ObEvalCtx)
    (load_size output_idx : Z) : option ObEvalCtx :=
  match slots with
  | [] => Some ctx
  | (e, buf) :: slots' =>
      m ← ctx !! eid e;
      ds ← load_batch_loop (Z.to_nat load_size) 0 (default [] buf) output_idx (datums_ m);
      load_batch_exprs slots' (<[eid e := with_datums m ds]> ctx) load_size output_idx
  end.

Definition col_load_batch (st : ObColInputStore) (ctx : ObEvalCtx) (load_size : Z)
    : option (Z * ObColInputStore * ObEvalCtx) :=
  if col_saved_size_ st <? col_output_idx_ st + load_size then Some (OB_ERR_UNEXPECTED, st, ctx)
  else
    ctx ← load_batch_exprs (col_slots st) ctx load_size (col_output_idx_ st);
    Some (OB_SUCCESS, mkCol (exprs_ st) (datums_copy_ st) (col_length_ st) (col_batch_size_ st)
                        (col_saved_size_ st) (col_output_idx_ st + load_size) (col_inited_ st), ctx).

(** ** [ObPUInputStore] *)

(** The memory of one argument, by the type it is allocated for. *)
Inductive ArgBuf :=
  | BufStr (l : list (option ObDatum))
  | BufInt (l : list (option Z))
  | BufDouble (l : list (option Z)).

(** [data_ptrs_]: the null pointer, or one pointer per argument. *)
Record ObPUInputStore := mkPU
  { expr_ : option ObUdfExpr; length_ : Z; data_ptrs_ : option (list (option ArgBuf));
    saved_size_ : Z; inited_ : bool }.

Definition pu_empty : ObPUInputStore := mkPU None 0 None 0 false.

Definition alloc_arg (cls : option ArgClass) (length : Z) : option ArgBuf :=
  match cls with
  | Some ArgStr => if alloc_ok (length * sizeof_ObDatum) then Some (BufStr (new_buf _ length)) else None
  | Some ArgInt => if alloc_ok (length * sizeof_int) then Some (BufInt (new_buf _ length)) else None
  | Some ArgDouble => if alloc_ok (length * sizeof_double) then Some (BufDouble (new_buf _ length)) else None
  | None => None
  end.

(** The allocation loop; it stops at the first argument without memory, and
    the pointers after it are never set.  An argument of another type gets
    [OB_NOT_SUPPORTED], which the null check then overwrites. *)
Fixpoint alloc_args (args : list ObExpr) (length : Z) : Z * list (option ArgBuf) :=
  match args with
  | [] => (OB_SUCCESS, [])
  | e :: args' =>
      let cls := arg_class (datum_type e) in
      let ret := match cls with Some _ => OB_SUCCESS | None => OB_NOT_SUPPORTED end in
      let p := alloc_arg cls length in
      let ret := match p with None => OB_ALLOCATE_MEMORY_FAILED | Some _ => ret end in
      if OB_SUCC ret then
        let '(ret, ps) := alloc_args args' length in (ret, p :: ps)
      else (ret, p :: map (fun _ => None) args')
  end.

Definition alloc_data_ptrs (st : ObPUInputStore) (length : Z) : Z * ObPUInputStore :=
  let '(ret, ptrs) :=
    if inited_ st then (OB_INIT_TWICE, data_ptrs_ st)
    else match expr_ st with
    | None => (OB_NOT_INIT, data_ptrs_ st)
    | Some u =>
        if (arg_cnt_ u <=? 0) || (length <=? 0) then (OB_NOT_INIT, data_ptrs_ st)
        else if alloc_ok (arg_cnt_ u * 8) then
          let '(ret, ps) := alloc_args (args_ u) length in (ret, Some ps)
        else (OB_ALLOCATE_MEMORY_FAILED, None)
    end in
  (ret, mkPU (expr_ st) (if OB_SUCC ret then length else length_ st) ptrs (saved_size_ st) (inited_ st)).

(** [alloc] is never null at the call sites: it is the address of a member. *)
Definition pu_init (st : ObPUInputStore) (u : ObUdfExpr) (length : Z) : Z * ObPUInputStore :=
  if inited_ st then (OB_INIT_TWICE, st)
  else if length <=? 0 then (OB_NOT_INIT, st)
  else if negb (is_python_udf u) then (OB_NOT_SUPPORTED, st)
  else
    let st := mkPU (Some u) (length_ st) (data_ptrs_ st) (saved_size_ st) (inited_ st) in
    let '(ret, st) := alloc_data_ptrs st length in
    if OB_FAIL ret || bool_decide (data_ptrs_ st = None) then (OB_INIT_FAIL, st)
    else (ret, mkPU (expr_ st) (length_ st) (data_ptrs_ st) 0 true).

Definition pu_reuse (st : ObPUInputStore) : Z * ObPUInputStore :=
  (OB_SUCCESS, mkPU (expr_ st) (length_ st) (data_ptrs_ st) 0 (inited_ st)).

Definition pu_free (st : ObPUInputStore) : Z * ObPUInputStore :=
  (OB_SUCCESS, mkPU (expr_ st) 0 (data_ptrs_ st) 0 false).

Definition pu_reset (st : ObPUInputStore) (length : Z) : Z * ObPUInputStore :=
  if length <=? length_ st then pu_reuse st
  else
    let '(ret, st) := pu_free st in
    if OB_FAIL ret then (OB_ERR_UNEXPECTED, st)
    else
      let '(ret, st) := alloc_data_ptrs st length in
      if OB_FAIL ret then (OB_INIT_FAIL, st)
      else (ret, mkPU (expr_ st) (length_ st) (data_ptrs_ st) 0 true).

(** The source datum of row [j]: a constant has one. *)
Definition src_datum (e : ObExpr) (m : ExprMem) (j : Z) : option ObDatum :=
  rd (datums_ m) (if is_const_expr e then 0 else j).

(** [get_int()] and [get_double()]: eight bytes at the datum's pointer. *)
Definition datum_word (m : ExprMem) (d : ObDatum) : option Z :=
  b ← deref (res_buf_ m) (ptr_ d) 8; Some (bytes_int64 b).

Definition save_arg (e : ObExpr) (m : ExprMem) (brs : ObBatchRows) (saved : Z)
    (p : option ArgBuf) : option (Z * option ArgBuf) :=
  let n := Z.to_nat (size_ brs) in
  '(ret, p) ←
    match arg_class (datum_type e) with
    | Some ArgStr =>
        dst ← match p with Some (BufStr l) => Some l | None => Some [] | _ => None end;
        dst ← save_loop n 0 (skip_ brs)
                (fun j => d ← src_datum e m j; datum_deep_copy (res_buf_ m) d) dst saved;
        Some (OB_SUCCESS, match p with Some _ => Some (BufStr dst) | None => None end)
    | Some ArgInt =>
        dst ← match p with Some (BufInt l) => Some l | None => Some [] | _ => None end;
        dst ← save_loop n 0 (skip_ brs)
                (fun j => d ← src_datum e m j; v ← datum_word m d; Some (to_int32 v)) dst saved;
        Some (OB_SUCCESS, match p with Some _ => Some (BufInt dst) | None => None end)
    | Some ArgDouble =>
        dst ← match p with Some (BufDouble l) => Some l | None => Some [] | _ => None end;
        dst ← save_loop n 0 (skip_ brs)
                (fun j => d ← src_datum e m j; datum_word m d) dst saved;
        Some (OB_SUCCESS, match p with Some _ => Some (BufDouble dst) | None => None end)
    | None => Some (OB_NOT_SUPPORTED, p)
    end;
  Some (match p with None => OB_ALLOCATE_MEMORY_FAILED | Some _ => ret end, p).

(** The loop over the arguments does not stop at an error; the last code wins. *)
Fixpoint save_args (args : list ObExpr) (ctx : ObEvalCtx) (brs : ObBatchRows) (saved : Z)
    (ps : list (option ArgBuf)) (ret : Z) : option (Z * list (option ArgBuf)) :=
  match args, ps with
  | e :: args', p :: ps' =>
      m ← ctx !! eid e;
      '(r, p) ← save_arg e m brs saved p;
      '(ret, rest) ← save_args args' ctx brs saved ps' (if OB_FAIL r then r else ret);
      Some (ret, p :: rest)
  | [], _ => Some (ret, ps)
  | _ :: _, [] => None
  end.

Definition pu_save_batch (st : ObPUInputStore) (ctx : ObEvalCtx) (brs : ObBatchRows)
    : option (Z * ObPUInputStore) :=
  let brs_cnt := active_cnt brs in
  match expr_ st with
  | None => Some (OB_SUCCESS, st)
  | Some u =>
      if arg_cnt_ u <=? 0 then Some (OB_SUCCESS, st)
      else match data_ptrs_ st with
      | None => Some (OB_NOT_INIT, st)
      | Some ps =>
          if negb (inited_ st) then Some (OB_NOT_INIT, st)
          else if saved_size_ st + brs_cnt <=? length_ st then
            '(ret, ps) ← save_args (args_ u) ctx brs (saved_size_ st) ps OB_SUCCESS;
            Some (ret, mkPU (expr_ st) (length_ st) (Some ps) (saved_size_ st + brs_cnt) (inited_ st))
          else Some (OB_ERR_UNEXPECTED, st)
      end
  end.

(** [save_vector] is declared and not implemented. *)
Definition pu_save_vector (st : ObPUInputStore) (ctx : ObEvalCtx) (brs : ObBatchRows)
    : option (Z * ObPUInputStore) := Some (OB_NOT_SUPPORTED, st).

Definition get_data_ptr_at (st : ObPUInputStore) (i : Z) : option ArgBuf :=
  match expr_ st with
  | Some u =>
      if (0 <=? i) && (i <? arg_cnt_ u)
      then mjoin (rd (default [] (data_ptrs_ st)) i) else None
  | None => None
  end.
End Stores.
