(* ===== verification/PUStoreFacts.v ===== *)
(** What the input buffers hold: saving a batch appends its rows that are not
    skipped, in order, and loading gives the stored rows back. *)
From S2P Require Import Prelude PopCount BitVector Frame FrameFacts FixedArray PyApi PUStore.

(** ** The rows of a batch *)

(** The cells of the rows that are not skipped; the list starts at row [j]. *)
Fixpoint pick {A} (skip : words) (j : Z) (cells : list A) : list A :=
  match cells with
  | [] => []
  | c :: cs => if ObBitVector.at_ skip j then pick skip (j + 1) cs else c :: pick skip (j + 1) cs
  end.

Lemma pick_length {A} skip j (cells : list A) :
  Z.of_nat (length (pick skip j cells))
  = Z.of_nat (length cells) - count_nat (length cells) j (ObBitVector.at_ skip).
Proof.
  revert j. induction cells as [| c cs IH]; intros j; cbn [pick length count_nat]; [reflexivity |].
  specialize (IH (j + 1)). destruct (ObBitVector.at_ skip j); simpl length; simpl Z.b2z; lia.
Qed.

Lemma pick_map {A B} (f : A -> B) skip j (cells : list A) :
  pick skip j (map f cells) = map f (pick skip j cells).
Proof.
  revert j. induction cells as [| c cs IH]; intros j; simpl; [reflexivity |].
  rewrite IH. destruct (ObBitVector.at_ skip j); reflexivity.
Qed.

Lemma pick_none {A} skip j (cells : list A) :
  (forall k, (k < length cells)%nat -> ObBitVector.at_ skip (j + Z.of_nat k) = false) ->
  pick skip j cells = cells.
Proof.
  revert j. induction cells as [| c cs IH]; intros j H; cbn [pick]; [reflexivity |].
  pose proof (H 0%nat ltac:(simpl; lia)) as H0. rewrite Z.add_0_r in H0. rewrite H0.
  f_equal. apply IH. intros k Hk. specialize (H (S k) ltac:(simpl; lia)).
  rewrite <- H. f_equal. lia.
Qed.

Lemma pick_ext {A} s s' j (cells : list A) :
  (forall k, (k < length cells)%nat -> ObBitVector.at_ s (j + Z.of_nat k) = ObBitVector.at_ s' (j + Z.of_nat k)) ->
  pick s j cells = pick s' j cells.
Proof.
  revert j. induction cells as [| c cs IH]; intros j H; cbn [pick]; [reflexivity |].
  pose proof (H 0%nat ltac:(simpl; lia)) as H0. rewrite Z.add_0_r in H0. rewrite H0.
  rewrite (IH (j + 1)); [reflexivity |]. intros k Hk. specialize (H (S k) ltac:(simpl; lia)).
  replace (j + 1 + Z.of_nat k) with (j + Z.of_nat (S k)) by lia. exact H.
Qed.

(** A copied batch has the rows of its source. *)
Lemma pick_brs_copy {A} dst src (cells : list A) :
  ObBitVector.fits (skip_ dst) (size_ src) -> Z.of_nat (length cells) = size_ src ->
  pick (skip_ (brs_copy dst src)) 0 cells = pick (skip_ src) 0 cells.
Proof.
  intros Hf Hl. apply pick_ext. intros k Hk. simpl skip_. rewrite Z.add_0_l.
  rewrite ObBitVector.at_deep_copy by (lia || assumption).
  pose proof (ObBitVector.byte_count_spec (size_ src) ltac:(lia)).
  destruct (Z.ltb_spec (Z.of_nat k) (8 * ObBitVector.byte_count (size_ src))); [reflexivity | lia].
Qed.

(** The count the code computes is the number of rows it keeps. *)
Lemma active_cnt_pick {A} brs (cells : list A) :
  ObBitVector.wf (skip_ brs) -> Z.of_nat (length cells) = size_ brs ->
  active_cnt brs = Z.of_nat (length (pick (skip_ brs) 0 cells)).
Proof.
  intros Hw Hs. unfold active_cnt. rewrite ObBitVector.count_accumulate by (assumption || lia).
  rewrite pick_length. unfold count. rewrite <- Hs. do 2 f_equal. lia.
Qed.

Lemma pick_length_le {A} skip j (cells : list A) : (length (pick skip j cells) <= length cells)%nat.
Proof.
  revert j. induction cells as [| c cs IH]; intros j; cbn [pick length]; [lia |].
  specialize (IH (j + 1)). destruct (ObBitVector.at_ skip j); simpl; lia.
Qed.

Lemma active_cnt_range brs :
  ObBitVector.wf (skip_ brs) -> 0 <= size_ brs -> 0 <= active_cnt brs <= size_ brs.
Proof.
  intros Hw Hs. set (l := replicate (Z.to_nat (size_ brs)) tt).
  assert (Z.of_nat (length l) = size_ brs) as Hl by (unfold l; rewrite length_replicate; lia).
  pose proof (pick_length_le (skip_ brs) 0 l). rewrite (active_cnt_pick brs l Hw Hl). lia.
Qed.

(** ** Appending to a buffer *)

(** The buffer starts with the rows [xs], all written. *)
Definition starts_with {A} (l : list (option A)) (xs : list A) : Prop :=
  exists rest, l = map Some xs ++ rest.

Lemma starts_with_nil {A} (l : list (option A)) : starts_with l [].
Proof. exists l. reflexivity. Qed.

Lemma starts_with_rd {A} (l : list (option A)) xs k x :
  starts_with l xs -> xs !! k = Some x -> rd l (Z.of_nat k) = Some (Some x).
Proof.
  intros [rest ->] Hk. rewrite rd_nat. rewrite lookup_app_l.
  - now rewrite list_lookup_fmap, Hk.
  - rewrite length_fmap. now apply lookup_lt_Some in Hk.
Qed.

Lemma wr_append {A} (xs : list A) (r : option A) rest x :
  wr (map Some xs ++ r :: rest) (Z.of_nat (length xs)) (Some x)
  = Some (map Some (xs ++ [x]) ++ rest).
Proof.
  rewrite wr_Some by (rewrite length_app, length_map; simpl; lia). f_equal.
  rewrite Nat2Z.id, insert_app_r_alt by (rewrite length_map; lia).
  rewrite length_map, Nat.sub_diag, map_app, <- app_assoc. reflexivity.
Qed.

Lemma save_loop_pick {A} (v : bytes -> A) skip get cells j xs rest :
  (forall k c, cells !! k = Some c -> get (j + Z.of_nat k) = Some (v c)) ->
  (length (pick skip j cells) <= length rest)%nat ->
  save_loop (length cells) j skip get (map Some xs ++ rest) (Z.of_nat (length xs))
  = Some (map Some (xs ++ map v (pick skip j cells)) ++ drop (length (pick skip j cells)) rest).
Proof.
  revert j xs rest. induction cells as [| c cs IH]; intros j xs rest Hg Hl;
    cbn [save_loop pick length] in *.
  - now rewrite app_nil_r.
  - assert (forall k d, cs !! k = Some d -> get (j + 1 + Z.of_nat k) = Some (v d)) as Hg'.
    { intros k d Hk. rewrite <- (Hg (S k) d Hk). f_equal. lia. }
    destruct (ObBitVector.at_ skip j) eqn:E; [now apply IH |].
    pose proof (Hg 0%nat c eq_refl) as H0. rewrite Z.add_0_r in H0. rewrite H0. simpl.
    destruct rest as [| r rest]; [simpl in Hl; lia |]. rewrite wr_append. simpl.
    replace (Z.of_nat (length xs) + 1) with (Z.of_nat (length (xs ++ [v c])))
      by (rewrite length_app; simpl; lia).
    rewrite IH; [| exact Hg' | simpl in Hl; lia].
    simpl. now rewrite <- app_assoc.
Qed.

Section Facts.
Context `{Allocator} (alloc_total : forall n, alloc_ok n = true).

(** ** The pass-through columns *)

(** The datum stored for the payload [b]. *)
Definition stored_payload (b : bytes) (d : ObDatum) : Prop :=
  deref [] (ptr_ d) (len_ d) = Some b.

(** The buffer of one column holds the payloads [bs]. *)
Definition buf_holds (l : list (option ObDatum)) (bs : list bytes) : Prop :=
  exists ds, starts_with l ds /\ Forall2 stored_payload bs ds.

Lemma deref_ext b : deref [] (PExt b) (Z.of_nat (length b)) = Some b.
Proof.
  simpl. apply slice_Some. repeat split; try lia.
  rewrite Nat2Z.id. simpl. now rewrite take_ge.
Qed.

Lemma save_vector_loop_pick skip m cells j ds rest bs :
  (forall k c, cells !! k = Some c -> payload_bytes m (j + Z.of_nat k) = Some c) ->
  (length (pick skip j cells) <= length rest)%nat ->
  Forall2 stored_payload bs ds ->
  exists ds' rest',
    save_vector_loop (length cells) j skip m (map Some ds ++ rest) (Z.of_nat (length ds))
    = Some (OB_SUCCESS, map Some ds' ++ rest')
    /\ Forall2 stored_payload (bs ++ pick skip j cells) ds'
    /\ (length (map Some ds' ++ rest') = length (map Some ds ++ rest))%nat.
Proof.
  revert j ds rest bs. induction cells as [| c cs IH]; intros j ds rest bs Hg Hl Hs;
    cbn [save_vector_loop pick length] in *.
  - exists ds, rest. now rewrite app_nil_r.
  - assert (forall k d, cs !! k = Some d -> payload_bytes m (j + 1 + Z.of_nat k) = Some d) as Hg'.
    { intros k d Hk. rewrite <- (Hg (S k) d Hk). f_equal. lia. }
    destruct (ObBitVector.at_ skip j) eqn:E; [now apply IH |].
    pose proof (Hg 0%nat c eq_refl) as H0. rewrite Z.add_0_r in H0.
    unfold payload_bytes in H0. destruct (get_payload m j) as [[p len] |]; [| discriminate].
    simpl in H0. simpl.
    destruct rest as [| r rest]; [simpl in Hl; lia |].
    rewrite rd_nat, lookup_app_r by (rewrite length_fmap; lia).
    rewrite length_fmap, Nat.sub_diag. simpl. rewrite alloc_total.
    assert (len = Z.of_nat (length c)) as Hlen.
    { destruct p; simpl in H0.
      - destruct (Z.eqb_spec len 0); [| discriminate]. injection H0 as <-. simpl. lia.
      - symmetry. eapply slice_length, H0.
      - symmetry. eapply slice_length, H0. }
    set (nb := match r with Some d => null_ d | None => false end).
    assert (exists d, (forall (k : list (option ObDatum) -> option (Z * list (option ObDatum))),
      (if len =? 0 then dst' ← wr (map Some ds ++ r :: rest) (Z.of_nat (length ds)) (Some (mkDatum PNull 0 nb)); k dst'
       else b ← deref (res_buf_ m) p len;
            dst' ← wr (map Some ds ++ r :: rest) (Z.of_nat (length ds)) (Some (mkDatum (PExt b) len nb)); k dst')
      = k (map Some (ds ++ [d]) ++ rest)) /\ stored_payload c d) as (d & Hk & Hd).
    { destruct (Z.eqb_spec len 0) as [-> | Hne].
      - exists (mkDatum PNull 0 nb). split; [intros k; now rewrite wr_append |].
        destruct c; [reflexivity | simpl in Hlen; lia].
      - exists (mkDatum (PExt c) len nb). split; [intros k; rewrite H0; simpl; now rewrite wr_append |].
        unfold stored_payload. simpl ptr_. simpl len_. rewrite Hlen. apply deref_ext. }
    rewrite Hk.
    replace (Z.of_nat (length ds) + 1) with (Z.of_nat (length (ds ++ [d])))
      by (rewrite length_app; simpl; lia).
    destruct (IH (j + 1) (ds ++ [d]) rest (bs ++ [c])) as (ds' & rest' & E' & Hs' & Hl').
    + exact Hg'.
    + simpl in Hl. lia.
    + apply Forall2_app; [exact Hs | repeat constructor; exact Hd].
    + exists ds', rest'. split; [exact E' |]. split; [now rewrite <- app_assoc in Hs' |].
      rewrite Hl'. rewrite !length_app, !length_map, length_app. simpl. lia.
Qed.

(** The state of the pass-through store: [n] rows saved, [cols] their cells,
    one list per expression. *)
Record col_inv (st : ObColInputStore) (es : list ObExpr) (cols : list (list bytes)) (n : Z) : Prop :=
  mkColInv
  { ci_exprs : ObFixedArray.elems (exprs_ st) = es;
    ci_count : ObFixedArray.count_ (exprs_ st) = Z.of_nat (length es);
    ci_bufs : Forall2 (fun cells (buf : option (list (option ObDatum))) =>
                exists l, buf = Some l /\ Z.of_nat (length l) = col_length_ st /\ buf_holds l cells)
                cols (ObFixedArray.elems (datums_copy_ st));
    ci_len : length cols = length es;
    ci_rows : Forall (fun cells => Z.of_nat (length cells) = n) cols;
    ci_saved : col_saved_size_ st = n;
    ci_range : 0 <= n <= col_length_ st;
    ci_dcount : ObFixedArray.count_ (datums_copy_ st) = Z.of_nat (length es);
    ci_wf : ObFixedArray.wf (exprs_ st);
    ci_cap : ObFixedArray.capacity_ (exprs_ st) = Z.of_nat (length es) }.

(** Expression [e] shows the rows [cells] in the context. *)
Definition shows_col (ctx : ObEvalCtx) (e : ObExpr) (cells : list bytes) : Prop :=
  exists m, ctx !! eid e = Some m /\ column m cells.

Lemma column_payload m cells k b :
  column m cells -> cells !! k = Some b -> payload_bytes m (Z.of_nat k) = Some b.
Proof. intros (_ & _ & _ & Hc) Hk. apply (Hc k b Hk). Qed.

Lemma save_vector_exprs_ok ctx brs es css cols bufs n L :
  Forall2 (shows_col ctx) es css ->
  Forall (fun cs => Z.of_nat (length cs) = size_ brs) css ->
  Forall2 (fun cells (buf : option (list (option ObDatum))) =>
     exists l, buf = Some l /\ Z.of_nat (length l) = L /\ buf_holds l cells) cols bufs ->
  Forall (fun cells => Z.of_nat (length cells) = n) cols ->
  length cols = length es ->
  ObBitVector.wf (skip_ brs) -> n + active_cnt brs <= L ->
  exists bufs', save_vector_exprs (zip es bufs) ctx brs n = Some (OB_SUCCESS, bufs')
    /\ Forall2 (fun cells (buf : option (list (option ObDatum))) =>
          exists l, buf = Some l /\ Z.of_nat (length l) = L /\ buf_holds l cells)
         (zip_with app cols (map (pick (skip_ brs) 0) css)) bufs'.
Proof.
  intros Hsh. revert cols bufs. induction Hsh as [| e cs es css (m & Hm & Hcol) Hsh IH];
    intros cols bufs Hsz Hb Hn Hlen Hw HL.
  - destruct cols; [| discriminate]. apply Forall2_nil_inv_l in Hb as ->. exists []. split; [reflexivity | constructor].
  - destruct cols as [| cells cols]; [discriminate |].
    apply Forall2_cons_inv_l in Hb as (buf & bufs0 & (l & -> & Hll & (ds & (rest & ->) & Hds)) & Hb' & ->).
    apply Forall_cons in Hsz as [Hcs Hsz]. apply Forall_cons in Hn as [Hcells Hn].
    injection Hlen as Hlen.
    destruct (IH cols bufs0 Hsz Hb' Hn Hlen Hw HL) as (bufs' & E & HF).
    assert (length cells = length ds) as Hcd by (eapply Forall2_length; exact Hds).
    rewrite (active_cnt_pick brs cs Hw Hcs) in HL.
    rewrite length_app, length_map in Hll.
    destruct (save_vector_loop_pick (skip_ brs) m cs 0 ds rest cells) as (ds' & rest' & El & Hs' & Hl').
    { intros k c Hk. exact (column_payload m cs k c Hcol Hk). }
    { lia. }
    { exact Hds. }
    cbn [zip zip_with save_vector_exprs]. rewrite Hm. simpl default.
    replace (Z.to_nat (size_ brs)) with (length cs) by lia.
    replace (Z.of_nat (length ds)) with n in El by lia. cbn [mbind option_bind].
    rewrite El. cbn [mbind option_bind]. change (OB_SUCC OB_SUCCESS) with true.
    rewrite E. cbn [mbind option_bind]. eexists. split; [reflexivity |].
    constructor; [| exact HF]. exists (map Some ds' ++ rest'). split; [reflexivity |].
    split; [rewrite Hl', length_app, length_map; lia |].
    exists ds'. split; [now exists rest' | exact Hs'].
Qed.

Lemma col_save_ok st es cols n ctx brs css :
  col_inv st es cols n ->
  Forall2 (shows_col ctx) es css ->
  Forall (fun cs => Z.of_nat (length cs) = size_ brs) css ->
  ObBitVector.wf (skip_ brs) -> 0 <= active_cnt brs -> n + active_cnt brs <= col_length_ st ->
  exists st', col_save_vector st ctx brs = Some (OB_SUCCESS, st')
    /\ col_inv st' es (zip_with app cols (map (pick (skip_ brs) 0) css)) (n + active_cnt brs)
    /\ col_length_ st' = col_length_ st /\ col_output_idx_ st' = col_output_idx_ st.
Proof.
  intros [He Hec Hb Hlen Hn Hsv Hr Hdc Hwf Hcp] Hsh Hsz Hw Ha HL.
  destruct (save_vector_exprs_ok ctx brs es css cols _ n _ Hsh Hsz Hb Hn Hlen Hw HL) as (bufs' & E & HF).
  unfold col_save_vector. rewrite Hsv.
  destruct (Z.ltb_spec (col_length_ st) (n + active_cnt brs)); [lia |].
  assert (col_slots st = zip es (ObFixedArray.elems (datums_copy_ st))) as Hslots
    by (unfold col_slots; now rewrite He).
  rewrite Hslots, E. cbn [mbind option_bind]. change (OB_SUCC OB_SUCCESS) with true. cbn iota.
  eexists. split; [reflexivity |]. split; [| split; reflexivity].
  assert (length css = length es) as Hcss by (symmetry; eapply Forall2_length; exact Hsh).
  assert (length bufs' = length es) as Hbl.
  { rewrite <- (Forall2_length _ _ _ HF), length_zip_with, length_map. lia. }
  constructor; simpl; auto; [| | | lia |].
  - destruct es as [| e es].
    + destruct cols; [| discriminate]. simpl in *. inversion Hb as [Hnil |]. constructor.
    + destruct cols as [| c cols]; [discriminate |].
      destruct (ObFixedArray.elems (datums_copy_ st)) as [| b0 bs0]; [inversion Hb |].
      cbn [zip zip_with]. unfold set_bufs, ObFixedArray.elems. simpl.
      rewrite Hdc, Nat2Z.id, take_ge by lia. exact HF.
  - rewrite length_zip_with, length_map. lia.
  - clear -Hn Hsz Hw. revert css Hsz. induction Hn as [| cells cols Hc Hcs IH]; intros css Hsz.
    + constructor.
    + destruct css as [| cs css]; simpl; constructor; apply Forall_cons in Hsz as [H1 H2].
      * rewrite length_app, (active_cnt_pick brs cs Hw H1). lia.
      * apply IH, H2.
  - destruct (zip es _); simpl; auto.
Qed.

(** ** Loading *)

Lemma load_loop_write l bs n j o m :
  buf_holds l bs -> 0 <= o -> 0 <= j ->
  o + j + Z.of_nat n <= Z.of_nat (length bs) ->
  load_vector_loop n j l o m
  = write_cells set_payload m j (take n (drop (Z.to_nat (o + j)) bs)).
Proof.
  intros (ds & Hst & Hds) Ho. revert j m. induction n as [| n IH]; intros j m Hj Hle; [reflexivity |].
  destruct (lookup_lt_is_Some_2 bs (Z.to_nat (o + j)) ltac:(lia)) as [b Hb].
  destruct (Forall2_lookup_l _ _ _ _ _ Hds Hb) as (d & Hd & Hp).
  rewrite (drop_S bs b (Z.to_nat (o + j)) Hb). cbn [take write_cells load_vector_loop].
  rewrite <- (Z2Nat.id (o + j)) at 1 by lia. rewrite (starts_with_rd _ _ _ _ Hst Hd).
  cbn [mbind option_bind]. unfold stored_payload in Hp. rewrite Hp. cbn [mbind option_bind].
  destruct (set_payload m j b) as [m' |]; [| reflexivity]. cbn [mbind option_bind].
  rewrite IH by lia. do 4 f_equal. lia.
Qed.

(** The rows a frame has room for: exact width, or at most the reserved
    length of a variable-width expression. *)
Definition cell_room (e : ObExpr) (b : bytes) : Prop :=
  (is_fixed_length_data_ e = true -> Z.of_nat (length b) = res_buf_len_ e)
  /\ Z.of_nat (length b) <= res_buf_len_ e.

Lemma writable_column size L m (cells : list bytes) :
  writable size L m -> udatums_ m = None -> (length cells <= length (datums_ m))%nat ->
  (forall k c, cells !! k = Some c -> holds m (Z.of_nat k) c) -> column m cells.
Proof.
  intros [_ _ _ Hf] Hu Hl Hh. split; [| auto].
  destruct Hf as [(-> & _) | (-> & _)]; unfold column_format; auto.
Qed.

(** One expression: [init_vector] on its default format, then the copies. *)
Lemma load_expr_ok e m l bs o k n :
  batch_expr e -> cap e n m -> udatums_ m = None ->
  buf_holds l bs -> Forall (cell_room e) bs ->
  0 <= o -> 0 <= k <= n -> o + k <= Z.of_nat (length bs) ->
  exists m1 m', init_vector e m (get_default_res_format e) k true = Some (OB_SUCCESS, m1)
    /\ load_vector_loop (Z.to_nat k) 0 l o m1 = Some m'
    /\ column m' (take (Z.to_nat k) (drop (Z.to_nat o) bs))
    /\ cap e n m' /\ same_flags m m' /\ udatums_ m' = None.
Proof.
  intros He Hcap Hu Hb Hroom Ho Hk Hle.
  destruct (init_writable e m n k He Hcap Hk) as (m1 & E1 & Hw & Hcap1 & Hfl & Hfm & Hu1).
  set (cells := take (Z.to_nat k) (drop (Z.to_nat o) bs)).
  assert (Z.of_nat (length cells) = k) as Hcl
    by (unfold cells; rewrite length_take, length_drop; lia).
  destruct (write_cells_ok k (res_buf_len_ e) m1 0 cells []) as (m' & E' & Hw' & Hs' & Hh'); auto.
  - lia.
  - lia.
  - unfold cells. apply Forall_take, Forall_drop. eapply Forall_impl; [exact Hroom |].
    intros b [H1 H2]. split; [| exact H2]. intros Hf. apply H1.
    rewrite Hfm in Hf. unfold get_default_res_format in Hf.
    rewrite (batch_expr_result e He) in Hf. simpl in Hf.
    destruct (decide _); [discriminate |]. destruct (is_fixed_length_data_ e); [reflexivity | discriminate].
  - intros i c Hi. now rewrite lookup_nil in Hi.
  - exists m1, m'. split; [exact E1 |].
    rewrite (load_loop_write l bs) by (assumption || lia). rewrite Z.add_0_r.
    split; [exact E' |]. destruct Hs' as (Hfl' & Hrest).
    assert (udatums_ m' = None) as Hu'
      by (destruct Hrest as (_ & _ & -> & _); congruence).
    split.
    { apply (writable_column k (res_buf_len_ e)); auto.
      destruct Hrest as (_ & -> & _). destruct Hcap1 as (_ & Hd & _). lia. }
    split; [apply (same_shape_cap e n m1); [split; auto | exact Hcap1] |].
    split; [now transitivity m1 | exact Hu'].
Qed.

(** What the frame must offer for the columns to be loaded back. *)
Definition loadable (n : Z) (ctx : ObEvalCtx) (e : ObExpr) : Prop :=
  batch_expr e /\ exists m, ctx !! eid e = Some m /\ cap e n m /\ udatums_ m = None.

(** Expression [e] shows the rows [cells] in a frame with room for [n] rows,
    with the flags it had in [ctx0]. *)
Definition loaded (n : Z) (ctx0 ctx : ObEvalCtx) (e : ObExpr) (cells : list bytes) : Prop :=
  exists m0 m, ctx0 !! eid e = Some m0 /\ ctx !! eid e = Some m
    /\ column m cells /\ cap e n m /\ same_flags m0 m /\ udatums_ m = None.

Lemma load_exprs_ok ctx0 es cols bufs ctx k o n L :
  NoDup (map eid es) -> Forall (loadable n ctx) es ->
  Forall (fun e => ctx0 !! eid e = ctx !! eid e) es ->
  Forall2 (fun cells (buf : option (list (option ObDatum))) =>
     exists l, buf = Some l /\ Z.of_nat (length l) = L /\ buf_holds l cells) cols bufs ->
  length cols = length es ->
  Forall2 (fun e cells => Forall (cell_room e) cells) es cols ->
  Forall (fun cells => o + k <= Z.of_nat (length cells)) cols ->
  0 <= o -> 0 <= k <= n ->
  exists ctx', load_vector_exprs (zip es bufs) ctx k o = Some ctx'
    /\ Forall2 (loaded n ctx0 ctx') es (map (fun c => take (Z.to_nat k) (drop (Z.to_nat o) c)) cols)
    /\ forall i, i ∉ map eid es -> ctx' !! i = ctx !! i.
Proof.
  revert cols bufs ctx.
  induction es as [| e es IH]; intros cols bufs ctx Hnd Hld H0 Hb Hlen Hroom Hrows Ho Hk.
  - destruct cols; [| discriminate]. exists ctx. split; [reflexivity |]. split; [constructor | auto].
  - destruct cols as [| cells cols]; [discriminate |].
    apply Forall2_cons_inv_l in Hb as (buf & bufs0 & (l & -> & Hll & Hbl) & Hb' & ->).
    apply Forall_cons in Hld as [(He & m & Hm & Hcap & Hu) Hld].
    apply Forall_cons in Hrows as [Hrow Hrows]. apply Forall2_cons in Hroom as [Hr Hroom].
    apply Forall_cons in H0 as [He0 H0].
    simpl in Hnd. apply NoDup_cons in Hnd as [Hni Hnd]. injection Hlen as Hlen.
    destruct (load_expr_ok e m l cells o k n) as (m1 & m' & E1 & E2 & Hcol & Hcap' & Hfl & Hu'); auto.
    assert (forall e', e' ∈ es -> (<[eid e := m']> ctx : ObEvalCtx) !! eid e' = ctx !! eid e') as Hne.
    { intros e' He'. apply lookup_insert_ne. intros Heq. apply Hni. rewrite Heq.
      now apply list_elem_of_fmap_2. }
    assert (Forall (loadable n (<[eid e := m']> ctx)) es) as Hld'.
    { rewrite Forall_forall in Hld |- *. intros e' He'. destruct (Hld e' He') as (Hbe & m0 & Hm0 & Hrest).
      split; [exact Hbe |]. exists m0. now rewrite Hne. }
    assert (Forall (fun e' => ctx0 !! eid e' = (<[eid e := m']> ctx : ObEvalCtx) !! eid e') es) as H0'.
    { rewrite Forall_forall in H0 |- *. intros e' He'. rewrite Hne by exact He'. now apply H0. }
    destruct (IH cols bufs0 (<[eid e := m']> ctx) Hnd Hld' H0' Hb' Hlen Hroom Hrows Ho Hk)
      as (ctx' & E & HF & Hother).
    exists ctx'. cbn [zip zip_with load_vector_exprs]. rewrite Hm. cbn [mbind option_bind].
    rewrite E1. cbn [mbind option_bind]. change (OB_SUCC OB_SUCCESS) with true.
    change (default [] (Some l)) with l. rewrite E2.
    cbn [mbind option_bind]. split; [exact E |]. split.
    + cbn [map]. constructor; [| exact HF].
      exists m, m'. split; [congruence |]. split; [| auto].
      rewrite Hother by exact Hni. apply lookup_insert_eq.
    + intros i Hi. rewrite Hother by (intros Hin; apply Hi; now right).
      apply lookup_insert_ne. intros <-. apply Hi. left.
Qed.

Lemma col_load_ok st es cols n ctx k N :
  col_inv st es cols n -> NoDup (map eid es) -> Forall (loadable N ctx) es ->
  Forall2 (fun e cells => Forall (cell_room e) cells) es cols ->
  0 <= col_output_idx_ st -> 0 <= k <= N -> col_output_idx_ st + k <= n ->
  exists st' ctx', col_load_vector st ctx k = Some (OB_SUCCESS, st', ctx')
    /\ col_inv st' es cols n /\ col_length_ st' = col_length_ st
    /\ col_output_idx_ st' = col_output_idx_ st + k
    /\ Forall2 (loaded N ctx ctx') es
         (map (fun c => take (Z.to_nat k) (drop (Z.to_nat (col_output_idx_ st)) c)) cols)
    /\ forall i, i ∉ map eid es -> ctx' !! i = ctx !! i.
Proof.
  intros Hinv Hnd Hld Hroom Ho Hk Hle. pose proof Hinv as [He Hec Hb Hlen Hn Hsv Hr Hdc Hwf Hcp].
  destruct (load_exprs_ok ctx es cols (ObFixedArray.elems (datums_copy_ st)) ctx k (col_output_idx_ st) N (col_length_ st) Hnd Hld)
    as (ctx' & E & HF & Hother); auto.
  - now apply Forall_true.
  - eapply Forall_impl; [exact Hn |]. simpl. intros; lia.
  - unfold col_load_vector. rewrite Hsv.
    destruct (Z.ltb_spec n (col_output_idx_ st + k)); [lia |].
    assert (col_slots st = zip es (ObFixedArray.elems (datums_copy_ st))) as ->
      by (unfold col_slots; now rewrite He).
    rewrite E. cbn [mbind option_bind]. eexists _, ctx'. split; [reflexivity |].
    split; [| auto]. constructor; simpl; auto.
Qed.

(** ** Initialisation and resizing *)

Lemma new_buf_holds len : 0 <= len ->
  exists l, alloc_datums len = Some l /\ Z.of_nat (length l) = len /\ buf_holds l [].
Proof.
  intros Hl. unfold alloc_datums. rewrite alloc_total. eexists. split; [reflexivity |].
  split; [unfold new_buf; rewrite length_replicate; lia |].
  exists []. split; [apply starts_with_nil | constructor].
Qed.

Lemma col_realloc_push n len ds a :
  ObFixedArray.push_all ds (replicate n (alloc_datums len)) = (OB_SUCCESS, a) ->
  col_realloc n len ds = a.
Proof.
  intros H1. revert ds H1. induction n as [| n IH]; intros ds H1; simpl in *.
  - now injection H1 as <-.
  - destruct (ObFixedArray.push_back ds (alloc_datums len)) as [ret d'] eqn:E. simpl.
    destruct (OB_SUCC ret) eqn:S; [now apply IH |].
    injection H1 as -> _. discriminate.
Qed.

(** Fresh buffers of [len] rows for the expressions [es], nothing saved. *)
Lemma fresh_bufs (es : list ObExpr) len (a : ObFixedArray.t (option (list (option ObDatum)))) :
  0 <= len -> ObFixedArray.elems a = replicate (length es) (alloc_datums len) ->
  Forall2 (fun cells (buf : option (list (option ObDatum))) =>
     exists l, buf = Some l /\ Z.of_nat (length l) = len /\ buf_holds l cells)
    (map (fun _ => []) es) (ObFixedArray.elems a).
Proof.
  intros Hl ->. destruct (new_buf_holds len Hl) as (l & -> & Hll & Hb).
  induction es as [| e es IH]; simpl; constructor; eauto.
Qed.

Lemma col_reset_ok st es cols n len :
  col_inv st es cols n -> 0 <= len -> Z.of_nat (length es) <= ObFixedArray.UINT32_MAX ->
  exists st', col_reset st len = (OB_SUCCESS, st')
    /\ col_inv st' es (map (fun _ => []) es) 0
    /\ col_length_ st' = Z.max (col_length_ st) len /\ col_output_idx_ st' = 0.
Proof.
  intros [He Hec Hb Hlen Hn Hsv Hr Hdc Hwf Hcp] Hl Hmax. unfold col_reset.
  assert (Forall (fun cells : list bytes => Z.of_nat (length cells) = 0) (map (fun _ => []) es)) as H0
    by (apply Forall_map, Forall_true; reflexivity).
  destruct (Z.leb_spec len (col_length_ st)).
  - eexists. split; [reflexivity |]. split; [| simpl; split; [lia | reflexivity]].
    constructor; simpl; auto; [| rewrite length_map; reflexivity | lia].
    assert (length cols = length (ObFixedArray.elems (datums_copy_ st))) as Hcl
      by (eapply Forall2_length; exact Hb).
    rewrite Hlen in Hcl. clear -Hb Hcl.
    revert es Hcl. induction Hb as [| c b cs bs (l & -> & Hl & (ds & Hst & _)) _ IH];
      intros es Hcl; destruct es as [| e es]; try discriminate; simpl; constructor.
    + exists l. split; [reflexivity |]. split; [exact Hl |].
      exists []. split; [apply starts_with_nil | constructor].
    + apply IH. now injection Hcl.
  - simpl. rewrite Hec, Nat2Z.id.
    destruct (ObFixedArray.init_push_all (Z.of_nat (length es))
                (replicate (length es) (alloc_datums len))) as (a & E & Hw & Hel & _); auto.
    { now rewrite length_replicate. }
    { lia. }
    change (ObFixedArray.destroy (datums_copy_ st)) with (@ObFixedArray.empty (option (list (option ObDatum)))).
    rewrite (col_realloc_push _ _ _ _ E). eexists. split; [reflexivity |].
    split; [| simpl; split; [lia | reflexivity]].
    constructor; simpl; auto; [now apply fresh_bufs | now rewrite length_map | lia |].
    rewrite <- ObFixedArray.elems_count by exact Hw. rewrite Hel, length_replicate. lia.
Qed.

Lemma col_init_loop_push exprs len es ds es' ds' :
  0 <= len ->
  ObFixedArray.push_all es exprs = (OB_SUCCESS, es') ->
  ObFixedArray.push_all ds (replicate (length exprs) (alloc_datums len)) = (OB_SUCCESS, ds') ->
  col_init_loop exprs len es ds = (OB_SUCCESS, es', ds').
Proof.
  intros Hl. destruct (new_buf_holds len Hl) as (l & E & _). rewrite E.
  revert es ds. induction exprs as [| e exprs IH]; intros es ds H1 H2; simpl in *; [congruence |].
  rewrite E. destruct (ObFixedArray.push_back es e) as [r1 es1].
  destruct (ObFixedArray.push_back ds (Some l)) as [r2 ds1]. unfold OB_FAIL.
  destruct (OB_SUCC r1) eqn:S1; [| injection H1 as -> _; discriminate].
  destruct (OB_SUCC r2) eqn:S2; [| injection H2 as -> _; discriminate].
  simpl. now apply IH.
Qed.

(** The first initialisation gives empty buffers of the requested length. *)
Lemma col_init_ok exprs batch_size len :
  0 <= len -> Z.of_nat (length exprs) <= ObFixedArray.UINT32_MAX ->
  exists st, col_init col_empty exprs batch_size len = (OB_SUCCESS, st)
    /\ col_inv st exprs (map (fun _ => []) exprs) 0
    /\ col_length_ st = len /\ col_output_idx_ st = 0 /\ col_batch_size_ st = batch_size.
Proof.
  intros Hl Hmax. unfold col_init. simpl exprs_. simpl datums_copy_.
  destruct (ObFixedArray.init_push_all (Z.of_nat (length exprs)) exprs)
    as (es' & E1 & Hw1 & He1 & Hc1); [auto | auto | lia |].
  destruct (ObFixedArray.init_push_all (Z.of_nat (length exprs))
              (replicate (length exprs) (alloc_datums len)))
    as (ds' & E2 & Hw2 & He2 & Hc2); [auto | now rewrite length_replicate | lia |].
  rewrite (col_init_loop_push _ _ _ _ _ _ Hl E1 E2). eexists. split; [reflexivity |].
  split; [| auto].
  constructor; simpl; auto;
    [| now apply fresh_bufs | now rewrite length_map
     | apply Forall_map, Forall_true; reflexivity | lia |].
  - rewrite <- ObFixedArray.elems_count by exact Hw1. now rewrite He1.
  - rewrite <- ObFixedArray.elems_count by exact Hw2. rewrite He2, length_replicate. reflexivity.
Qed.

(** A second initialisation with at least one expression fails: the arrays
    are full, and [ObFixedArray::init] refuses to start them again. *)
Lemma col_init_twice st es cols n exprs batch_size len :
  col_inv st es cols n -> 0 <= len -> es <> [] -> exprs <> [] ->
  (col_init st exprs batch_size len).1 = OB_INIT_FAIL.
Proof.
  intros [He Hec _ _ _ _ _ _ Hwf Hcp] Hl Hes Hex. unfold col_init.
  assert (ObFixedArray.data_ (exprs_ st) <> None) as Hd.
  { intros E. unfold ObFixedArray.elems in He. rewrite E in He. simpl in He.
    rewrite take_nil in He. congruence. }
  assert ((ObFixedArray.init (exprs_ st) (Z.of_nat (length exprs))).2 = exprs_ st) as ->.
  { unfold ObFixedArray.init. destruct (ObFixedArray.data_ (exprs_ st)); [| contradiction].
    now destruct (_ || _). }
  destruct exprs as [| e exprs]; [contradiction |]. cbn [col_init_loop].
  destruct (new_buf_holds len Hl) as (l & -> & _).
  pose proof (ObFixedArray.push_back_spec (exprs_ st) e Hwf Hd) as Hp.
  rewrite Hec, Hcp in Hp. destruct (Z.ltb_spec (Z.of_nat (length es)) (Z.of_nat (length es))); [lia |].
  rewrite Hp. reflexivity.
Qed.

(** ** The arguments of a Python UDF *)

Definition str_datum (b : bytes) : ObDatum := mkDatum (PExt b) (Z.of_nat (length b)) false.

(** The buffer of one argument holds the elements of the array [a]. *)
Definition arg_holds (p : ArgBuf) (a : NpArray) : Prop :=
  match p, a with
  | BufStr l, NpObject bs => starts_with l (map str_datum bs)
  | BufInt l, NpInt32 zs => starts_with l zs
  | BufDouble l, NpFloat64 zs => starts_with l zs
  | _, _ => False
  end.

Definition buf_len (p : ArgBuf) : Z :=
  match p with
  | BufStr l => Z.of_nat (length l)
  | BufInt l | BufDouble l => Z.of_nat (length l)
  end.

(** What the cells of a column become when they are saved: strings as they
    are, integers converted to [int], doubles by their bits. *)
Definition arg_cells (cls : ArgClass) (cells : list bytes) : NpArray :=
  match cls with
  | ArgStr => NpObject cells
  | ArgInt => NpInt32 (map (fun c => to_int32 (bytes_int64 c)) cells)
  | ArgDouble => NpFloat64 (map bytes_int64 cells)
  end.

Definition class_kind (cls : ArgClass) (a : NpArray) : Prop :=
  match cls, a with
  | ArgStr, NpObject _ | ArgInt, NpInt32 _ | ArgDouble, NpFloat64 _ => True
  | _, _ => False
  end.

Lemma arg_cells_len cls cells : np_len (arg_cells cls cells) = length cells.
Proof. destruct cls; unfold np_len; simpl; rewrite ?length_map; reflexivity. Qed.

Lemma class_kind_same cls a cells : class_kind cls a -> same_kind a (arg_cells cls cells).
Proof. destruct cls, a; simpl; tauto. Qed.

Lemma class_kind_app cls a cells : class_kind cls a -> class_kind cls (np_app a (arg_cells cls cells)).
Proof. destruct cls, a; simpl; tauto. Qed.

Lemma class_kind_cells cls cells : class_kind cls (arg_cells cls cells).
Proof. destruct cls; exact I. Qed.

(** The datums of [e] show the rows [cells] to [save_batch]: one per row, or
    one for all rows of a constant; eight bytes wide for the numeric types. *)
Definition arg_datums (e : ObExpr) (m : ExprMem) (cls : ArgClass) (cells : list bytes) : Prop :=
  forall k b, cells !! k = Some b ->
    (cls <> ArgStr -> length b = 8%nat)
    /\ exists d, src_datum e m (Z.of_nat k) = Some d /\ null_ d = false
         /\ deref (res_buf_ m) (ptr_ d) (len_ d) = Some b.

Lemma deref_length buf p len b : deref buf p len = Some b -> Z.of_nat (length b) = len.
Proof.
  destruct p; simpl; [| apply slice_length | apply slice_length].
  destruct (Z.eqb_spec len 0); [| discriminate]. intros [= <-]. simpl. lia.
Qed.

Lemma datum_word_of m d b :
  deref (res_buf_ m) (ptr_ d) (len_ d) = Some b -> length b = 8%nat ->
  datum_word m d = Some (bytes_int64 b).
Proof.
  intros Hd Hl. pose proof (deref_length _ _ _ _ Hd) as Hlen. unfold datum_word.
  replace 8 with (len_ d) by lia. now rewrite Hd.
Qed.

Lemma deep_copy_of m d b :
  null_ d = false -> deref (res_buf_ m) (ptr_ d) (len_ d) = Some b ->
  datum_deep_copy (res_buf_ m) d = Some (str_datum b).
Proof.
  intros Hn Hd. unfold datum_deep_copy. rewrite Hn, alloc_total, Hd. simpl. unfold str_datum.
  now rewrite (deref_length _ _ _ _ Hd).
Qed.

(** Saving one argument appends its rows that are not skipped. *)
Lemma save_arg_ok e m brs cls cells p a :
  arg_class (datum_type e) = Some cls -> arg_datums e m cls cells ->
  Z.of_nat (length cells) = size_ brs -> ObBitVector.wf (skip_ brs) ->
  arg_holds p a -> class_kind cls a ->
  Z.of_nat (np_len a) + active_cnt brs <= buf_len p ->
  exists p', save_arg e m brs (Z.of_nat (np_len a)) (Some p) = Some (OB_SUCCESS, Some p')
    /\ arg_holds p' (np_app a (arg_cells cls (pick (skip_ brs) 0 cells))) /\ buf_len p' = buf_len p.
Proof.
  intros Hcls Hd Hsz Hw Hp Hk Hroom. rewrite (active_cnt_pick brs cells Hw Hsz) in Hroom.
  unfold save_arg. rewrite Hcls. replace (Z.to_nat (size_ brs)) with (length cells) by lia.
  destruct cls, p as [l | l | l], a as [bs | zs | zs]; try contradiction Hk; try contradiction Hp;
    destruct Hp as [rest ->]; cbn [mbind option_bind]; unfold np_len in *; simpl in Hroom;
    simpl np_vals; rewrite length_map in *; rewrite length_app, length_map in Hroom;
    rewrite ?length_map in Hroom.
  - rewrite <- (length_map str_datum bs).
    rewrite (save_loop_pick str_datum); [| | lia].
    2:{ intros k c Hkc. destruct (Hd k c Hkc) as (_ & d & Hsd & Hn & Hde).
        rewrite Z.add_0_l, Hsd. cbn [mbind option_bind]. now apply deep_copy_of. }
    simpl. eexists. split; [reflexivity |]. split.
    + simpl. eexists. now rewrite (map_app str_datum).
    + simpl. rewrite !length_app, !length_map, length_app, !length_map, length_drop. lia.
  - rewrite (save_loop_pick (fun c => to_int32 (bytes_int64 c))); [| | lia].
    2:{ intros k c Hkc. destruct (Hd k c Hkc) as (H8 & d & Hsd & Hn & Hde).
        rewrite Z.add_0_l, Hsd. cbn [mbind option_bind]. rewrite (datum_word_of m d c); [reflexivity | exact Hde |].
        apply H8. discriminate. }
    simpl. eexists. split; [reflexivity |]. split; [now eexists |].
    simpl. rewrite !length_app, !length_map, length_app, !length_map, length_drop. lia.
  - rewrite (save_loop_pick bytes_int64); [| | lia].
    2:{ intros k c Hkc. destruct (Hd k c Hkc) as (H8 & d & Hsd & Hn & Hde).
        rewrite Z.add_0_l, Hsd. cbn [mbind option_bind]. apply datum_word_of; [exact Hde |]. apply H8. discriminate. }
    simpl. eexists. split; [reflexivity |]. split; [now eexists |].
    simpl. rewrite !length_app, !length_map, length_app, !length_map, length_drop. lia.
Qed.

Lemma arg_cells_app cls c1 c2 :
  np_app (arg_cells cls c1) (arg_cells cls c2) = arg_cells cls (c1 ++ c2).
Proof. destruct cls; simpl; now rewrite ?map_app. Qed.

(** The slot of one argument: memory for [len] rows that starts with [cells]. *)
Definition arg_slot (len : Z) (e : ObExpr) (cells : list bytes) (p : option ArgBuf) : Prop :=
  exists b cls, p = Some b /\ arg_class (datum_type e) = Some cls
    /\ buf_len b = len /\ arg_holds b (arg_cells cls cells).

(** The state of an argument store: [n] rows saved, [cols] the cells they were
    saved from, one list per argument. *)
Record pu_inv (st : ObPUInputStore) (u : ObUdfExpr) (cols : list (list bytes)) (n : Z) : Prop :=
  mkPuInv
  { pi_expr : expr_ st = Some u;
    pi_bufs : exists ps, data_ptrs_ st = Some ps /\ Forall3 (arg_slot (length_ st)) (args_ u) cols ps;
    pi_rows : Forall (fun cells => Z.of_nat (length cells) = n) cols;
    pi_saved : saved_size_ st = n;
    pi_range : 0 <= n <= length_ st;
    pi_inited : inited_ st = true;
    pi_args : args_ u <> [] }.

(** The argument [e] shows the rows [cells] to [save_batch]. *)
Definition shows_arg (ctx : ObEvalCtx) (e : ObExpr) (cells : list bytes) : Prop :=
  exists m cls, ctx !! eid e = Some m /\ arg_class (datum_type e) = Some cls
    /\ arg_datums e m cls cells.

Lemma save_args_ok ctx brs args css cols ps n len :
  Forall2 (shows_arg ctx) args css ->
  Forall (fun cs => Z.of_nat (length cs) = size_ brs) css ->
  Forall3 (arg_slot len) args cols ps ->
  Forall (fun cells => Z.of_nat (length cells) = n) cols ->
  ObBitVector.wf (skip_ brs) -> n + active_cnt brs <= len ->
  exists ps', save_args args ctx brs n ps OB_SUCCESS = Some (OB_SUCCESS, ps')
    /\ Forall3 (arg_slot len) args (zip_with app cols (map (pick (skip_ brs) 0) css)) ps'.
Proof.
  intros Hsh Hsz H3. revert css Hsh Hsz.
  induction H3 as [| e cells p args cols ps (b & cls & -> & Hcls & Hbl & Hh) _ IH];
    intros css Hsh Hsz Hn Hw HL.
  - apply Forall2_nil_inv_l in Hsh as ->. exists []. split; [reflexivity | constructor].
  - apply Forall2_cons_inv_l in Hsh as (cs & css' & (m & cls' & Hm & Hcls' & Hd) & Hsh & ->).
    apply Forall_cons in Hsz as [Hcs Hsz]. apply Forall_cons in Hn as [Hc Hn].
    assert (cls' = cls) as -> by congruence.
    destruct (IH css' Hsh Hsz Hn Hw HL) as (ps' & E & HF).
    destruct (save_arg_ok e m brs cls cs b (arg_cells cls cells)) as (b' & E1 & Hh' & Hbl'); auto.
    { apply class_kind_cells. }
    { rewrite arg_cells_len. lia. }
    rewrite arg_cells_len, Hc in E1. rewrite arg_cells_app in Hh'.
    cbn [save_args]. rewrite Hm. cbn [mbind option_bind]. rewrite E1. cbn [mbind option_bind].
    change (OB_FAIL OB_SUCCESS) with false. cbn iota. rewrite E. cbn [mbind option_bind].
    eexists. split; [reflexivity |]. cbn [map zip_with]. constructor; [| exact HF].
    exists b', cls. split; [reflexivity |]. split; [exact Hcls |]. split; [congruence | exact Hh'].
Qed.

Lemma Forall_zip_app_rows (cols css : list (list bytes)) n a (f : list bytes -> list bytes) :
  Forall (fun cells => Z.of_nat (length cells) = n) cols ->
  Forall (fun cs => Z.of_nat (length (f cs)) = a) css ->
  Forall (fun cells => Z.of_nat (length cells) = n + a) (zip_with app cols (map f css)).
Proof.
  intros Hn. revert css. induction Hn as [| c cols Hc _ IH]; intros css Hs; [constructor |].
  destruct css as [| cs css]; simpl; constructor; apply Forall_cons in Hs as [H1 H2].
  - rewrite length_app. lia.
  - now apply IH.
Qed.

Lemma pu_save_ok st u cols n ctx brs css :
  pu_inv st u cols n -> Forall2 (shows_arg ctx) (args_ u) css ->
  Forall (fun cs => Z.of_nat (length cs) = size_ brs) css ->
  ObBitVector.wf (skip_ brs) -> 0 <= active_cnt brs -> n + active_cnt brs <= length_ st ->
  exists st', pu_save_batch st ctx brs = Some (OB_SUCCESS, st')
    /\ pu_inv st' u (zip_with app cols (map (pick (skip_ brs) 0) css)) (n + active_cnt brs)
    /\ length_ st' = length_ st.
Proof.
  intros [He (ps & Hps & H3) Hn Hsv Hr Hin Ha] Hsh Hsz Hw Ha0 HL.
  destruct (save_args_ok ctx brs _ css cols ps n _ Hsh Hsz H3 Hn Hw HL) as (ps' & E & HF).
  unfold pu_save_batch. rewrite He, Hps, Hin, Hsv.
  destruct (Z.leb_spec (arg_cnt_ u) 0) as [Hz |].
  { unfold arg_cnt_ in Hz. destruct (args_ u); [contradiction | simpl in Hz; lia]. }
  destruct (Z.leb_spec (n + active_cnt brs) (length_ st)); [| lia]. simpl negb. cbn iota.
  rewrite E. cbn [mbind option_bind]. eexists. split; [reflexivity |]. split; [| reflexivity].
  constructor; simpl; auto; [now exists ps' | | lia].
  apply Forall_zip_app_rows; [exact Hn |]. eapply Forall_impl; [exact Hsz |].
  intros cs Hcs. simpl. symmetry. now apply active_cnt_pick.
Qed.

(** ** Initialisation and resizing *)

Definition supported (e : ObExpr) : Prop := exists cls, arg_class (datum_type e) = Some cls.

Lemma alloc_args_ok args len :
  Forall supported args -> 0 <= len ->
  exists ps, alloc_args args len = (OB_SUCCESS, ps)
    /\ Forall3 (arg_slot len) args (map (fun _ => []) args) ps.
Proof.
  intros Hs Hl. induction Hs as [| e args (cls & Hcls) _ (ps & E & HF)].
  - exists []. split; [reflexivity | constructor].
  - cbn [alloc_args map]. rewrite Hcls.
    assert (exists b, alloc_arg (Some cls) len = Some b /\ buf_len b = len /\ arg_holds b (arg_cells cls []))
      as (b & Eb & Hbl & Hbh).
    { destruct cls; simpl; rewrite alloc_total; eexists; (split; [reflexivity |]);
        simpl; unfold new_buf; rewrite length_replicate; (split; [lia | apply starts_with_nil]). }
    rewrite Eb. change (OB_SUCC OB_SUCCESS) with true. cbn iota. rewrite E.
    eexists. split; [reflexivity |]. constructor; [| exact HF]. exists b, cls. auto.
Qed.

Lemma alloc_data_ptrs_ok st u len :
  inited_ st = false -> expr_ st = Some u -> args_ u <> [] -> Forall supported (args_ u) -> 0 < len ->
  exists ps, alloc_data_ptrs st len = (OB_SUCCESS, mkPU (Some u) len (Some ps) (saved_size_ st) false)
    /\ Forall3 (arg_slot len) (args_ u) (map (fun _ => []) (args_ u)) ps.
Proof.
  intros Hi He Ha Hs Hl. destruct (alloc_args_ok (args_ u) len Hs ltac:(lia)) as (ps & E & HF).
  exists ps. split; [| exact HF]. unfold alloc_data_ptrs. rewrite Hi, He.
  destruct (Z.leb_spec (arg_cnt_ u) 0) as [Hz |].
  { unfold arg_cnt_ in Hz. destruct (args_ u); [contradiction | simpl in Hz; lia]. }
  destruct (Z.leb_spec len 0); [lia |]. simpl orb. cbn iota. rewrite alloc_total, E. reflexivity.
Qed.

Lemma pu_init_ok u len :
  is_python_udf u = true -> args_ u <> [] -> Forall supported (args_ u) -> 0 < len ->
  exists st, pu_init pu_empty u len = (OB_SUCCESS, st)
    /\ pu_inv st u (map (fun _ => []) (args_ u)) 0 /\ length_ st = len.
Proof.
  intros Hp Ha Hs Hl. unfold pu_init. simpl inited_. rewrite Hp.
  destruct (Z.leb_spec len 0); [lia |]. cbn [negb]. cbn iota.
  destruct (alloc_data_ptrs_ok (mkPU (Some u) 0 None 0 false) u len) as (ps & E & HF); auto.
  simpl length_. simpl data_ptrs_. simpl saved_size_. rewrite E. simpl.
  eexists. split; [reflexivity |]. split; [| reflexivity].
  constructor; simpl; auto; [now exists ps | apply Forall_map, Forall_true; reflexivity | lia].
Qed.

Lemma pu_reset_ok st u cols n len :
  pu_inv st u cols n ->
  exists st', pu_reset st len = (OB_SUCCESS, st')
    /\ pu_inv st' u (map (fun _ => []) (args_ u)) 0 /\ length_ st' = Z.max (length_ st) len.
Proof.
  intros [He (ps & Hps & H3) Hn Hsv Hr Hin Ha]. unfold pu_reset.
  assert (Forall supported (args_ u)) as Hs.
  { clear -H3. induction H3 as [| e c p args cs ps (b & cls & _ & Hc & _)]; constructor; auto.
    now exists cls. }
  destruct (Z.leb_spec len (length_ st)).
  - eexists. split; [reflexivity |]. split; [| simpl; lia].
    constructor; simpl; auto; [| apply Forall_map, Forall_true; reflexivity | lia].
    exists ps. split; [exact Hps |]. clear -H3.
    induction H3 as [| e c p args cs ps (b & cls & -> & Hc & Hl & Hh)]; simpl; constructor; auto.
    exists b, cls. repeat split; auto.
    destruct cls, b; simpl in *; try contradiction; apply starts_with_nil.
  - simpl. destruct (alloc_data_ptrs_ok (pu_free st).2 u len) as (ps' & E & HF); simpl; auto; [lia |].
    simpl in E. rewrite E. simpl. eexists. split; [reflexivity |]. split; [| simpl; lia].
    constructor; simpl; auto; [now exists ps' | apply Forall_map, Forall_true; reflexivity | lia].
Qed.
End Facts.
