(* ===== verification/Operator.v ===== *)
(** The base class of the vectorised operators: [ObOperator::get_next_batch],
    the filters and the format conversion of
    [src/src/sql/engine/ob_operator.cpp] and [.h].

    A concrete operator gives the class [VectorOp]: its batch, the frame, and
    [inner_get_next_batch].  The evaluation of one startup filter ([ObExpr::eval])
    is a member of the specification.  The checks of the stack depth and of the session
    status, the run-time monitoring and the draining of exchanges are left out:
    they do not touch the batch. *)
From S2P Require Import Prelude PopCount BitVector BitForeach Frame PUStore.

Class VectorOp (S : Type) := mkVectorOp
  { op_brs : S -> ObBatchRows;
    op_set_brs : S -> ObBatchRows -> S;
    op_ctx : S -> ObEvalCtx;
    op_set_ctx : S -> ObEvalCtx -> S;
    op_inner_get_next_batch : S -> Z -> option (Z * S) }.

(** What a client may assume of the accessors. *)
Class VectorOpLaws (S : Type) `{VectorOp S} : Prop := mkVectorOpLaws
  { brs_set_brs : forall s b, op_brs (op_set_brs s b) = b;
    ctx_set_brs : forall s b, op_ctx (op_set_brs s b) = op_ctx s;
    ctx_set_ctx : forall s c, op_ctx (op_set_ctx s c) = c;
    brs_set_ctx : forall s c, op_brs (op_set_ctx s c) = op_brs s;
    set_brs_id : forall s, op_set_brs s (op_brs s) = s;
    set_ctx_id : forall s, op_set_ctx s (op_ctx s) = s }.

(** ** Filters *)

(** [null_ || 0 == *int_] on a datum: the row is filtered out. *)
Definition datum_false (m : ExprMem) (d : ObDatum) : option bool :=
  if null_ d then Some true
  else b ← deref (res_buf_ m) (ptr_ d) 8; Some (bytes_int64 b =? 0).

(** [0 == int_arr[idx] || nulls->at(idx)] on a fixed-length vector. *)
Definition fixed_false (m : ExprMem) (idx : Z) : option bool :=
  b ← deref (res_buf_ m) (padd (data_ m) (8 * idx)) 8;
  Some ((bytes_int64 b =? 0) || ObBitVector.at_ (nulls_ m) idx).

(** [skip], [output_rows] and [tmp_all_active] while one filter runs. *)
Definition FilterSt : Type := words * Z * bool.

Definition filter_mark (false_ : option bool) (idx : Z) (st : FilterSt) : option FilterSt :=
  let '(skip, output_rows, active) := st in
  f ← false_;
  Some (if (f : bool) then (ObBitVector.set skip idx, output_rows, false) else (skip, output_rows + 1, active)).

(** The callback of [flip_foreach].  The traversal reads a word before it runs
    the callback on its bits, and the callback sets bits of that word only, so
    the words it reads later are those of the initial vector. *)
Definition fixed_op (m : ExprMem) (idx : Z) (st : option FilterSt) : Z * option FilterSt :=
  (OB_SUCCESS, st ≫= filter_mark (fixed_false m idx) idx).

(** The loop over the datums of a uniform vector. *)
Fixpoint uniform_filter (n : nat) (i : Z) (m : ExprMem) (st : FilterSt) : option FilterSt :=
  match n with
  | O => Some st
  | S n' =>
      if ObBitVector.at_ st.1.1 i then uniform_filter n' (i + 1) m st
      else
        d ← rd (default (datums_ m) (udatums_ m)) i;
        st ← filter_mark (datum_false m d) i st;
        uniform_filter n' (i + 1) m st
  end.

(** The part of the loop of [filter_vector_rows] after the evaluation. *)
Definition filter_one (e : ObExpr) (m : ExprMem) (skip : words) (bsize : Z) : option FilterSt :=
  if negb (batch_result_ e) then
    d ← rd (default (datums_ m) (udatums_ m)) 0;
    f ← datum_false m d;
    Some (if (f : bool) then (ObBitVector.set_all skip bsize, 0, false) else (skip, 1, true))
  else match format_ m with
  | VEC_FIXED => (BitForeach.flip_foreach (fixed_op m) skip bsize (Some (skip, 0, true))).2
  | VEC_UNIFORM => uniform_filter (Z.to_nat bsize) 0 m (skip, 0, true)
  | _ => Some (skip, 0, true)
  end.

(** The result: the code, the frame, the skip vector, [all_filtered] and
    [all_active].  [tmp_all_active] is shared by the filters: it stays false. *)
Fixpoint filter_vector_rows (es : list ObExpr) (ctx : ObEvalCtx) (skip : words) (bsize : Z)
    (all_filtered tmp all_active : bool) : option (Z * ObEvalCtx * words * bool * bool) :=
  match es with
  | [] => Some (OB_SUCCESS, ctx, skip, all_filtered, all_active)
  | e :: es' =>
      if all_filtered then Some (OB_SUCCESS, ctx, skip, all_filtered, all_active)
      else
        '(ret, ctx) ← eval_vector e ctx skip bsize;
        if OB_FAIL ret then Some (ret, ctx, skip, true, all_active && tmp)
        else
          m ← ctx !! eid e;
          '(skip, output_rows, active) ← filter_one e m skip bsize;
          let tmp := tmp && active in
          filter_vector_rows es' ctx skip bsize (output_rows =? 0) tmp (all_active && tmp)
  end.

(** ** [ObOperator] *)

(** How the formats of an operator and of its parent differ. *)
Inductive FormatChange := SameFormat | OldToNew | NewToOld.

Record OpSpec := mkOpSpec
  { sp_max_batch_size : Z; sp_output : list ObExpr; sp_filters : list ObExpr;
    sp_startup_filters : list ObExpr;
    sp_eval : ObExpr -> ObEvalCtx -> option (Z * ObEvalCtx * ObDatum);   (* [ObExpr::eval] with one row *)
    sp_change : FormatChange; sp_use_rich_format : bool }.
(** [batch_reach_end_] and [startup_passed_], and the two at the start. *)
Record OpFlags := mkFlags { batch_reach_end_ : bool; startup_passed_ : bool }.
Definition initial_flags (spec : OpSpec) : OpFlags :=
  mkFlags false (match sp_startup_filters spec with [] => true | _ => false end).

Section Operator.
Context {S : Type} `{VectorOp S} (spec : OpSpec).

(** [filter_row] of the startup filters: the first that is null or zero filters. *)
Fixpoint filter_row (es : list ObExpr) (ctx : ObEvalCtx) : option (Z * ObEvalCtx * bool) :=
  match es with
  | [] => Some (OB_SUCCESS, ctx, false)
  | e :: es' =>
      '(ret, ctx, datum) ← sp_eval spec e ctx;
      if OB_FAIL ret then Some (ret, ctx, false)
      else
        m ← ctx !! eid e;
        f ← datum_false m datum;
        if (f : bool) then Some (ret, ctx, true) else filter_row es' ctx
  end.

Definition reset_batchrows (b : ObBatchRows) : ObBatchRows :=
  let b := if 0 <? size_ b
           then let b := reset_skip b (size_ b) in mkBrs (skip_ b) 0 (end_ b) (all_rows_active_ b)
           else b in
  mkBrs (skip_ b) (size_ b) (end_ b) false.

(** The loop: a batch whose rows are all skipped or filtered is replaced by
    the next one.  [None] when the fuel runs out. *)
Fixpoint next_loop (fuel : nat) (s : S) (max_row_cnt : Z) : option (Z * S) :=
  if end_ (op_brs s) then Some (OB_SUCCESS, s)
  else match fuel with
  | O => None
  | Datatypes.S fuel' =>
      '(ret, s) ← op_inner_get_next_batch s (Z.min max_row_cnt (sp_max_batch_size spec));
      let brs := op_brs s in
      if OB_FAIL ret then Some (ret, s)
      else if size_ brs =? ObBitVector.accumulate_bit_cnt (skip_ brs) (size_ brs)
      then next_loop fuel' (op_set_brs s (reset_batchrows brs)) max_row_cnt
      else match sp_filters spec with
      | [] => Some (ret, s)
      | fs =>
          '(ret, ctx, skip, all_filtered, active) ←
            filter_vector_rows fs (op_ctx s) (skip_ brs) (size_ brs) false true (all_rows_active_ brs);
          let s : S := op_set_ctx s ctx in
          if OB_FAIL ret
          then Some (ret, op_set_brs s (mkBrs skip (size_ brs) (end_ brs) active))
          else if (all_filtered : bool)
          then next_loop fuel' (op_set_brs s (mkBrs (ObBitVector.reset (size_ brs) skip) 0 (end_ brs) active))
                 max_row_cnt
          else Some (ret, op_set_brs s (mkBrs skip (size_ brs) (end_ brs) active))
      end
  end.

(** The projection of the output expressions. *)
Fixpoint project (es : list ObExpr) (ctx : ObEvalCtx) (brs : ObBatchRows) : option (Z * ObEvalCtx) :=
  match es with
  | [] => Some (OB_SUCCESS, ctx)
  | e :: es' =>
      '(ret, ctx) ← eval_vector e ctx (skip_ brs) (size_ brs);
      m ← ctx !! eid e;
      let ctx := <[eid e := with_flags m (evaluated_ m) true (eval_flags_ m)]> ctx in
      if OB_FAIL ret then Some (ret, ctx) else project es' ctx brs
  end.

Definition uniform_format (e : ObExpr) : VectorFormat :=
  if batch_result_ e then VEC_UNIFORM else VEC_UNIFORM_CONST.

(** [init_vector] of the output expressions in a uniform format. *)
Fixpoint init_outputs (es : list ObExpr) (ctx : ObEvalCtx) (size : Z) : option (Z * ObEvalCtx) :=
  match es with
  | [] => Some (OB_SUCCESS, ctx)
  | e :: es' =>
      m ← ctx !! eid e;
      '(ret, m) ← init_vector e m (uniform_format e) size false;
      let ctx := <[eid e := m]> ctx in
      if OB_FAIL ret then Some (ret, ctx) else init_outputs es' ctx size
  end.

Fixpoint cast_outputs (es : list ObExpr) (ctx : ObEvalCtx) (size : Z) : option (Z * ObEvalCtx) :=
  match es with
  | [] => Some (OB_SUCCESS, ctx)
  | e :: es' =>
      '(ret, ctx) ← cast_ctx e size ctx;
      if OB_FAIL ret then Some (ret, ctx) else cast_outputs es' ctx size
  end.

Definition convert_vector_format (ctx : ObEvalCtx) (size : Z) : option (Z * ObEvalCtx) :=
  match sp_change spec with
  | OldToNew => init_outputs (sp_output spec) ctx size
  | NewToOld => cast_outputs (sp_output spec) ctx size
  | SameFormat => Some (OB_SUCCESS, ctx)
  end.

(** The startup filters, once: when one filters there is no batch at all. *)
Definition startup (s : S) (startup_passed : bool) : option (Z * S * bool) :=
  if negb startup_passed && negb (end_ (op_brs s)) then
    '(ret, ctx, filtered) ← filter_row (sp_startup_filters spec) (op_ctx s);
    let s := op_set_ctx s ctx in
    let b := op_brs s in
    Some (if OB_FAIL ret then (ret, s, startup_passed)
          else if (filtered : bool) then (ret, op_set_brs s (mkBrs (skip_ b) (size_ b) true (all_rows_active_ b)), startup_passed)
          else (ret, s, true))
  else Some (OB_SUCCESS, s, startup_passed).

(** [get_next_batch] of an operator in rich format. *)
Definition get_next_batch (fuel : nat) (s : S) (flags : OpFlags) (max_row_cnt : Z) : option (Z * S * OpFlags) :=
  let batch_reach_end := batch_reach_end_ flags in
  let s := op_set_brs s (reset_batchrows (op_brs s)) in
  let s := if batch_reach_end
           then op_set_brs s (mkBrs (skip_ (op_brs s)) 0 true (all_rows_active_ (op_brs s)))
           else s in
  '(ret, s, startup_passed) ← startup s (startup_passed_ flags);
  '(ret, s) ← (if OB_FAIL ret then Some (ret, s) else next_loop fuel s max_row_cnt);
  '(ret, s) ←
    (if OB_SUCC ret && (0 <? size_ (op_brs s)) then
       '(ret, ctx) ← project (sp_output spec) (op_ctx s) (op_brs s); Some (ret, op_set_ctx s ctx)
     else Some (ret, s));
  '(ret, s) ←
    (if OB_SUCC ret && end_ (op_brs s) && (size_ (op_brs s) =? 0) then
       '(ret, ctx) ← init_outputs (sp_output spec) (op_ctx s) 0; Some (ret, op_set_ctx s ctx)
     else Some (ret, s));
  let b := op_brs s in
  let '(s, batch_reach_end) :=
    if OB_SUCC ret && end_ b && (0 <=? size_ b)
    then (op_set_brs s (mkBrs (skip_ b) (size_ b) (size_ b =? 0) (all_rows_active_ b)), true)
    else (s, batch_reach_end) in
  '(ret, s) ←
    (if OB_SUCC ret then
       '(ret, ctx) ← convert_vector_format (op_ctx s) (size_ (op_brs s)); Some (ret, op_set_ctx s ctx)
     else Some (ret, s));
  let b := op_brs s in
  let s := if sp_use_rich_format spec then s
           else op_set_brs s (mkBrs (skip_ b) (size_ b) (end_ b) false) in
  Some (ret, s, mkFlags batch_reach_end startup_passed).
End Operator.
