(* ===== verification/OperatorFacts.v ===== *)
(** The filters keep exactly the rows on which every filter is true, and
    [get_next_batch] hands the batches of the concrete operator on: its loop ends,
    with the end or with a batch in which exactly the filtered rows are skipped. *)
From S2P Require Import Prelude PopCount BitVector BitForeach Frame PUStore Operator.

(** ** One filter *)

(** The reference: the rows [i, i + n) one by one, [f] tells which are false. *)
Fixpoint filter_ref (n : nat) (i : Z) (f : Z -> bool) (st : FilterSt) : FilterSt :=
  match n with
  | O => st
  | S n' =>
      let '(skip, out, active) := st in
      filter_ref n' (i + 1) f
        (if ObBitVector.at_ skip i then st
         else if f i then (ObBitVector.set skip i, out, false) else (skip, out + 1, active))
  end.

Lemma wf_set v i : 0 <= i -> ObBitVector.wf v -> ObBitVector.wf (ObBitVector.set v i).
Proof.
  intros Hi Hv. unfold ObBitVector.set. apply ObBitVector.wf_set_wd; [exact Hv |].
  apply lor_range; [now apply ObBitVector.wd_range | apply uwrap64_range].
Qed.

Record filtered (skip skip' : words) (lo hi : Z) (f : Z -> bool) : Prop := mkFiltered
  { fd_bits : forall i, 0 <= i ->
      ObBitVector.at_ skip' i = ObBitVector.at_ skip i || ((lo <=? i) && (i <? hi) && f i);
    fd_len : length skip' = length skip;
    fd_wf : ObBitVector.wf skip -> ObBitVector.wf skip' }.

Lemma filter_ref_spec n : forall lo f skip out active,
  0 <= lo -> ObBitVector.fits skip (lo + Z.of_nat n) ->
  let '(skip', out', active') := filter_ref n lo f (skip, out, active) in
  filtered skip skip' lo (lo + Z.of_nat n) f
  /\ out' = out + count_nat n lo (fun i => negb (ObBitVector.at_ skip' i))
  /\ (active' = true -> active = true /\ forall i, lo <= i < lo + Z.of_nat n ->
        ObBitVector.at_ skip i = false -> f i = false).
Proof.
  induction n as [| n IH]; intros lo f skip out active Hlo Hfit; cbn [filter_ref].
  { split; [| split; [simpl; lia | intros ->; split; [reflexivity | lia]]]. split; auto.
    intros i Hi. destruct (Z.leb_spec lo i), (Z.ltb_spec i (lo + Z.of_nat 0)); simpl; try lia;
      now rewrite orb_false_r. }
  set (st := if ObBitVector.at_ skip lo then _ else _).
  assert (exists s1 o1 a1, st = (s1, o1, a1)
    /\ (forall i, 0 <= i -> ObBitVector.at_ s1 i = ObBitVector.at_ skip i || ((i =? lo) && f lo))
    /\ length s1 = length skip /\ (ObBitVector.wf skip -> ObBitVector.wf s1)
    /\ o1 = out + Z.b2z (negb (ObBitVector.at_ s1 lo))
    /\ (a1 = true -> active = true /\ (ObBitVector.at_ skip lo = false -> f lo = false)))
    as (s1 & o1 & a1 & -> & Hb & Hl & Hw & Ho & Ha).
  { unfold st. assert (ObBitVector.fits skip (lo + 1)) as Hroom
      by (unfold ObBitVector.fits in *; lia).
    destruct (ObBitVector.at_ skip lo) eqn:E; [| destruct (f lo) eqn:Ef].
    - exists skip, out, active. repeat split; auto; try congruence.
      + intros i Hi. destruct (Z.eqb_spec i lo) as [-> |]; simpl; rewrite ?E, ?orb_false_r; auto.
      + rewrite E. simpl. lia.
    - exists (ObBitVector.set skip lo), out, false. repeat split; try discriminate.
      + intros i Hi. rewrite ObBitVector.at_set by (lia || assumption). now rewrite orb_comm, andb_true_r.
      + apply ObBitVector.length_set_wd.
      + now apply wf_set.
      + rewrite ObBitVector.at_set, Z.eqb_refl by (lia || assumption). simpl. lia.
    - exists skip, (out + 1), active. repeat split; auto.
      + intros i Hi. rewrite andb_false_r. now rewrite orb_false_r.
      + rewrite E. reflexivity. }
  specialize (IH (lo + 1) f s1 o1 a1 ltac:(lia)).
  destruct (filter_ref n (lo + 1) f (s1, o1, a1)) as [[s2 o2] a2].
  destruct IH as ([Hb2 Hl2 Hw2] & Ho2 & Ha2).
  { unfold ObBitVector.fits in *. rewrite Hl. lia. }
  assert (ObBitVector.at_ s2 lo = ObBitVector.at_ s1 lo) as Elo.
  { rewrite Hb2 by lia. destruct (Z.leb_spec (lo + 1) lo); [lia |]. simpl. now rewrite orb_false_r. }
  split; [split | split].
  - intros i Hi. rewrite Hb2, Hb, <- orb_assoc by lia. f_equal.
    destruct (Z.eqb_spec i lo) as [Eq | Hne];
      destruct (Z.leb_spec (lo + 1) i), (Z.leb_spec lo i), (Z.ltb_spec i (lo + 1 + Z.of_nat n)),
        (Z.ltb_spec i (lo + Z.of_nat (S n))); simpl; try lia; rewrite ?orb_false_r; congruence || auto.
  - congruence.
  - auto.
  - cbn [count_nat]. rewrite Elo. lia.
  - intros E. destruct (Ha2 E) as [Ea1 Hf2]. destruct (Ha Ea1) as [-> Hf]. split; [reflexivity |].
    intros i Hi Hs. destruct (Z.eq_dec i lo) as [-> | Hne]; [auto |].
    apply Hf2; [lia |]. rewrite Hb by lia. destruct (Z.eqb_spec i lo); [lia |]. now rewrite orb_false_r.
Qed.

(** [flip_foreach] with the callback of the fixed format is the reference. *)
Lemma fixed_filter_ref m skip f n : forall lo sk out active,
  0 <= lo -> ObBitVector.fits sk (lo + Z.of_nat n) ->
  (forall i, lo <= i < lo + Z.of_nat n -> ObBitVector.at_ sk i = ObBitVector.at_ skip i) ->
  (forall i, lo <= i < lo + Z.of_nat n -> ObBitVector.at_ skip i = false ->
     fixed_false m i = Some (f i)) ->
  BitForeach.run_list (fixed_op m) (BitForeach.positions n lo (BitForeach.chosen true skip))
    (Some (sk, out, active))
  = (OB_SUCCESS, Some (filter_ref n lo f (sk, out, active))).
Proof.
  induction n as [| n IH]; intros lo sk out active Hlo Hfit Hs Hf; [reflexivity |].
  cbn [BitForeach.positions filter_ref]. unfold BitForeach.chosen at 1. rewrite xorb_true_l.
  rewrite (Hs lo) by lia. destruct (ObBitVector.at_ skip lo) eqn:E; cbn [negb].
  - apply IH; [lia | unfold ObBitVector.fits in *; lia | |]; intros i Hi; [apply Hs | apply Hf]; lia.
  - cbn [BitForeach.run_list]. unfold fixed_op at 1. cbn [mbind option_bind].
    unfold filter_mark. rewrite Hf by (lia || assumption). cbn [mbind option_bind].
    change (OB_SUCC OB_SUCCESS) with true. cbn iota.
    destruct (f lo); apply IH; try lia; try (intros i Hi Hi'; apply Hf; [lia | exact Hi']).
    + unfold ObBitVector.fits, ObBitVector.set in *. rewrite ObBitVector.length_set_wd. lia.
    + intros i Hi. rewrite ObBitVector.at_set by (lia || (unfold ObBitVector.fits in *; lia)).
      destruct (Z.eqb_spec i lo); [lia |]. apply Hs. lia.
    + unfold ObBitVector.fits in *. lia.
    + intros i Hi. apply Hs. lia.
Qed.

Lemma uniform_filter_ref m f n : forall lo skip out active,
  0 <= lo -> ObBitVector.fits skip (lo + Z.of_nat n) ->
  (forall i, lo <= i < lo + Z.of_nat n -> ObBitVector.at_ skip i = false ->
     exists d, rd (default (datums_ m) (udatums_ m)) i = Some d /\ datum_false m d = Some (f i)) ->
  uniform_filter n lo m (skip, out, active) = Some (filter_ref n lo f (skip, out, active)).
Proof.
  induction n as [| n IH]; intros lo skip out active Hlo Hfit Hf; [reflexivity |].
  cbn [uniform_filter filter_ref fst]. destruct (ObBitVector.at_ skip lo) eqn:E.
  - apply IH; [lia | unfold ObBitVector.fits in *; lia |]. intros i Hi. apply Hf. lia.
  - destruct (Hf lo ltac:(lia) E) as (d & Hd & Hdf). rewrite Hd. cbn [mbind option_bind].
    unfold filter_mark. rewrite Hdf. cbn [mbind option_bind].
    destruct (f lo); cbn [mbind option_bind]; apply IH; try lia.
    + unfold ObBitVector.fits, ObBitVector.set in *. rewrite ObBitVector.length_set_wd. lia.
    + intros i Hi Hi'. apply Hf; [lia |].
      rewrite ObBitVector.at_set in Hi' by (lia || (unfold ObBitVector.fits in *; lia)).
      now apply orb_false_iff in Hi' as [_ ?].
    + unfold ObBitVector.fits in *. lia.
    + intros i Hi Hi'. apply Hf; [lia | exact Hi'].
Qed.

(** ** All filters *)

(** The evaluated filter [e] shows the truth values [v] on the rows that are
    not skipped: one value for all rows of a constant, an integer per row of a
    fixed or uniform vector. *)
Definition shows_truth (e : ObExpr) (m : ExprMem) (skip : words) (bsize : Z) (v : Z -> bool) : Prop :=
  if batch_result_ e then
    (format_ m = VEC_FIXED /\ forall i, 0 <= i < bsize -> ObBitVector.at_ skip i = false ->
       fixed_false m i = Some (negb (v i)))
    \/ (format_ m = VEC_UNIFORM /\ forall i, 0 <= i < bsize -> ObBitVector.at_ skip i = false ->
       exists d, rd (default (datums_ m) (udatums_ m)) i = Some d /\ datum_false m d = Some (negb (v i)))
  else exists d b, rd (default (datums_ m) (udatums_ m)) 0 = Some d /\ datum_false m d = Some (negb b)
       /\ forall i, 0 <= i < bsize -> v i = b.

(** Some row of the batch is left. *)
Definition some_active (skip : words) (bsize : Z) : Prop :=
  exists i, 0 <= i < bsize /\ ObBitVector.at_ skip i = false.

Lemma count_nat_exists n lo p : count_nat n lo p <> 0 -> exists i, lo <= i < lo + Z.of_nat n /\ p i = true.
Proof.
  revert lo. induction n as [| n IH]; intros lo Hc; cbn [count_nat] in Hc; [lia |].
  destruct (p lo) eqn:E; [exists lo; split; [lia | exact E] |].
  destruct (IH (lo + 1) Hc) as (i & Hi & Hp). exists i. split; [lia | exact Hp].
Qed.

Lemma count_nat_negb n lo p : count_nat n lo (fun i => negb (p i)) = Z.of_nat n - count_nat n lo p.
Proof.
  revert lo. induction n as [| n IH]; intros lo; cbn [count_nat]; [reflexivity |].
  rewrite IH. destruct (p lo); simpl Z.b2z; lia.
Qed.

(** Row [i] of [skip'] is skipped when it was or when [v i] is false. *)
Definition keeps (skip skip' : words) (bsize : Z) (v : Z -> bool) : Prop :=
  (forall i, 0 <= i < bsize -> ObBitVector.at_ skip' i = ObBitVector.at_ skip i || negb (v i))
  /\ length skip' = length skip /\ ObBitVector.wf skip'.

Lemma filter_one_ok e m skip bsize v :
  0 < bsize -> ObBitVector.wf skip -> ObBitVector.fits skip bsize -> shows_truth e m skip bsize v ->
  exists skip' out active, filter_one e m skip bsize = Some (skip', out, active)
    /\ keeps skip skip' bsize v
    /\ (out = 0 -> forall i, 0 <= i < bsize -> ObBitVector.at_ skip' i = true)
    /\ (out <> 0 -> some_active skip bsize -> some_active skip' bsize).
Proof.
  intros Hb Hw Hfit Hv. unfold filter_one, shows_truth in *.
  assert (forall st, st = filter_ref (Z.to_nat bsize) 0 (fun i => negb (v i)) (skip, 0, true) ->
    exists skip' out active, Some st = Some (skip', out, active) /\ keeps skip skip' bsize v
      /\ (out = 0 -> forall i, 0 <= i < bsize -> ObBitVector.at_ skip' i = true)
      /\ (out <> 0 -> some_active skip bsize -> some_active skip' bsize)) as Href.
  { intros st ->. pose proof (filter_ref_spec (Z.to_nat bsize) 0 (fun i => negb (v i)) skip 0 true ltac:(lia)) as Hs.
    rewrite Z2Nat.id in Hs by lia. destruct (filter_ref _ _ _ _) as [[s o] a].
    destruct (Hs Hfit) as ([Hbits Hl Hwf] & Ho & _). exists s, o, a. split; [reflexivity |].
    split; [split; [| auto] |]. 2: split.
    - intros i Hi. rewrite Hbits by lia. destruct (Z.leb_spec 0 i), (Z.ltb_spec i (0 + bsize)); try lia. reflexivity.
    - intros -> i Hi. rewrite Z.add_0_l in Ho. symmetry in Ho.
      assert (forall n lo, count_nat n lo (fun i => negb (ObBitVector.at_ s i)) = 0 ->
        forall i, lo <= i < lo + Z.of_nat n -> ObBitVector.at_ s i = true) as Hz.
      { induction n as [| n IH]; intros lo Hc j Hj; [lia |]. cbn [count_nat] in Hc.
        pose proof (count_nat_bound n (lo + 1) (fun i => negb (ObBitVector.at_ s i))).
        destruct (ObBitVector.at_ s lo) eqn:E; simpl in Hc; [| lia].
        destruct (Z.eq_dec j lo) as [-> |]; [exact E | apply (IH (lo + 1)); lia]. }
      apply (Hz (Z.to_nat bsize) 0 Ho). lia.
    - intros Hne _. rewrite Z.add_0_l in Ho. rewrite Ho in Hne.
      destruct (count_nat_exists _ _ _ Hne) as (i & Hi & Hn). exists i.
      split; [lia | now apply negb_true_iff]. }
  destruct (batch_result_ e); cbn [negb].
  - destruct Hv as [[-> Hf] | [-> Hf]].
    + unfold BitForeach.flip_foreach. rewrite BitForeach.inner_foreach_spec by (assumption || lia).
      unfold BitForeach.selected. rewrite Z.sub_0_r.
      rewrite (fixed_filter_ref m skip (fun i => negb (v i))); [now apply Href | lia | | reflexivity |].
      * now rewrite Z2Nat.id by lia.
      * intros i Hi. apply Hf. lia.
    + rewrite (uniform_filter_ref m (fun i => negb (v i))); [now apply Href | lia | |].
      * now rewrite Z2Nat.id by lia.
      * intros i Hi. apply Hf. lia.
  - destruct Hv as (d & b & Hd & Hdf & Hv). rewrite Hd. cbn [mbind option_bind]. rewrite Hdf.
    cbn [mbind option_bind]. destruct b; cbn [negb].
    + exists skip, 1, true. split; [reflexivity |]. split; [| split; [discriminate | auto]]. split; [| auto].
      intros i Hi. rewrite Hv by lia. now rewrite orb_false_r.
    + exists (ObBitVector.set_all skip bsize), 0, false. split; [reflexivity |].
      assert (forall i, 0 <= i < bsize -> ObBitVector.at_ (ObBitVector.set_all skip bsize) i = true) as Hall.
      { intros i Hi. rewrite ObBitVector.at_set_all by (lia || assumption).
        destruct (Z.ltb_spec i bsize); [reflexivity | lia]. }
      split; [| split; [auto | intros []; reflexivity]].
      split; [intros i Hi; rewrite Hall, Hv by lia; now rewrite orb_true_r |].
      split; [apply ObBitVector.length_set_all | now apply ObBitVector.wf_set_all].
Qed.

(** What the filters rely on: evaluating one of them succeeds, shows its truth
    values [V], and keeps the frame in the states [I]. *)
Definition evaluates (I : ObEvalCtx -> Prop) (V : ObExpr -> Z -> bool) (es : list ObExpr) (bsize : Z) : Prop :=
  forall e ctx skip, e ∈ es -> I ctx -> ObBitVector.wf skip ->
    exists ctx' m, eval_vector e ctx skip bsize = Some (OB_SUCCESS, ctx') /\ I ctx'
      /\ ctx' !! eid e = Some m /\ shows_truth e m skip bsize (V e).

Lemma keeps_trans skip1 skip2 skip3 bsize v1 v2 v :
  keeps skip1 skip2 bsize v1 -> keeps skip2 skip3 bsize v2 ->
  (forall i, 0 <= i < bsize -> v i = v1 i && v2 i) -> keeps skip1 skip3 bsize v.
Proof.
  intros (H1 & L1 & _) (H2 & L2 & W2) Hv. split; [| split; [congruence | exact W2]].
  intros i Hi. rewrite H2, H1, Hv by exact Hi. destruct (ObBitVector.at_ skip1 i), (v1 i), (v2 i); reflexivity.
Qed.

Lemma filter_rows_ok I V es bsize : forall ctx skip tmp active,
  0 < bsize -> evaluates I V es bsize -> I ctx -> ObBitVector.wf skip -> ObBitVector.fits skip bsize ->
  exists ctx' skip' af active', filter_vector_rows es ctx skip bsize false tmp active
      = Some (OB_SUCCESS, ctx', skip', af, active')
    /\ I ctx' /\ keeps skip skip' bsize (fun i => forallb (fun e => V e i) es)
    /\ (af = true -> forall i, 0 <= i < bsize -> ObBitVector.at_ skip' i = true)
    /\ (af = false -> some_active skip bsize -> some_active skip' bsize).
Proof.
  induction es as [| e es IH]; intros ctx skip tmp active Hb Hev HI Hw Hfit.
  { exists ctx, skip, false, active. split; [reflexivity |]. split; [exact HI |]. split; [| split; [discriminate | auto]].
    split; [| auto]. intros i Hi. simpl. now rewrite orb_false_r. }
  destruct (Hev e ctx skip ltac:(left) HI Hw) as (ctx1 & m & E1 & HI1 & Hm & Hsh).
  destruct (filter_one_ok e m skip bsize (V e) Hb Hw Hfit Hsh) as (s1 & o1 & a1 & Ef & Hk1 & Hz1 & Hs1).
  cbn [filter_vector_rows]. rewrite E1. cbn [mbind option_bind]. change (OB_FAIL OB_SUCCESS) with false.
  cbn iota. rewrite Hm. cbn [mbind option_bind]. rewrite Ef. cbn [mbind option_bind].
  destruct (Z.eqb_spec o1 0) as [-> | Hne].
  - specialize (Hz1 eq_refl). exists ctx1, s1, true, (active && (tmp && a1)). split.
    { destruct es; reflexivity. }
    split; [exact HI1 |]. split; [| split; [auto | discriminate]].
    destruct Hk1 as (H1 & L1 & W1). split; [| auto]. intros i Hi. rewrite Hz1 by exact Hi. simpl forallb.
    specialize (H1 i Hi). rewrite Hz1 in H1 by exact Hi.
    destruct (ObBitVector.at_ skip i), (V e i); simpl in *; auto; discriminate.
  - pose proof Hk1 as (_ & L1 & W1).
    destruct (IH ctx1 s1 (tmp && a1) (active && (tmp && a1)) Hb) as (ctx2 & s2 & af & ac & E2 & HI2 & Hk2 & Hz2 & Hs2).
    + intros e' c k He'. apply Hev. now right.
    + exact HI1.
    + exact W1.
    + unfold ObBitVector.fits in *. now rewrite L1.
    + exists ctx2, s2, af, ac. split; [exact E2 |]. split; [exact HI2 |]. split; [| split; [exact Hz2 | auto]].
      eapply keeps_trans; [exact Hk1 | exact Hk2 |]. reflexivity.
Qed.

(** ** The loop, against the contract of a concrete operator *)

(** A batch whose skip vector has room for its rows. *)
Definition brs_ok (b : ObBatchRows) : Prop :=
  0 <= size_ b /\ ObBitVector.wf (skip_ b) /\ ObBitVector.fits (skip_ b) (size_ b).

(** What the loop needs of a concrete operator: in the states [Inv] its
    [inner_get_next_batch] returns, a successful call leaves a batch with room
    and, unless it is the end, less work ([mu]), and the filters then evaluate,
    to the truth values [V] of the frame the batch came with. *)
Record next_contract {S} `{VectorOp S} (spec : OpSpec) (Inv : S -> Prop) (mu : S -> nat)
    (Ext : ObEvalCtx -> ObEvalCtx -> Prop) (V : ObEvalCtx -> ObExpr -> Z -> bool) : Prop := mkContract
  { nc_inner : forall s n, Inv s -> end_ (op_brs s) = false ->
      exists ret s', op_inner_get_next_batch s n = Some (ret, s')
        /\ (ret = OB_SUCCESS -> Inv s' /\ brs_ok (op_brs s')
            /\ (end_ (op_brs s') = true \/ (mu s' < mu s)%nat)
            /\ evaluates (Ext (op_ctx s')) (V (op_ctx s')) (sp_filters spec) (size_ (op_brs s')));
    nc_brs : forall s b, Inv s -> Inv (op_set_brs s b) /\ mu (op_set_brs s b) = mu s;
    nc_ctx : forall s c, Inv s -> Ext (op_ctx s) c -> Inv (op_set_ctx s c) /\ mu (op_set_ctx s c) = mu s;
    nc_refl : forall c, Ext c c }.

Section Loop.
Context {S : Type} `{VectorOpLaws S} (spec : OpSpec) (Inv : S -> Prop) (mu : S -> nat)
  (Ext : ObEvalCtx -> ObEvalCtx -> Prop) (V : ObEvalCtx -> ObExpr -> Z -> bool)
  (Hc : next_contract spec Inv mu Ext V).

(** The batch in [s'] is one the concrete operator returned in [s1], less the
    rows that some filter rejects, and some row is left. *)
Definition filtered_batch (s' : S) : Prop :=
  exists s0 n s1, Inv s0 /\ op_inner_get_next_batch s0 n = Some (OB_SUCCESS, s1)
    /\ size_ (op_brs s') = size_ (op_brs s1) /\ end_ (op_brs s') = end_ (op_brs s1)
    /\ keeps (skip_ (op_brs s1)) (skip_ (op_brs s')) (size_ (op_brs s1))
         (fun i => forallb (fun e => V (op_ctx s1) e i) (sp_filters spec))
    /\ some_active (skip_ (op_brs s')) (size_ (op_brs s')).
Definition loop_result (s' : S) : Prop :=
  Inv s' /\ ((end_ (op_brs s') = true /\ size_ (op_brs s') = 0) \/ filtered_batch s').

Lemma not_all_skipped b :
  brs_ok b -> size_ b <> ObBitVector.accumulate_bit_cnt (skip_ b) (size_ b) ->
  0 < size_ b /\ some_active (skip_ b) (size_ b).
Proof.
  intros (Hs & Hw & _) Hne. rewrite ObBitVector.count_accumulate in Hne by assumption.
  unfold count in Hne. rewrite Z.sub_0_r in Hne.
  destruct (count_nat_exists (Z.to_nat (size_ b)) 0 (fun i => negb (ObBitVector.at_ (skip_ b) i)))
    as (i & Hi & Hn). { rewrite count_nat_negb. lia. }
  split; [lia |]. exists i. split; [lia | now apply negb_true_iff].
Qed.

Lemma reset_batchrows_empty b : brs_ok b -> size_ (reset_batchrows b) = 0 /\ end_ (reset_batchrows b) = end_ b.
Proof.
  intros (Hs & _). unfold reset_batchrows, reset_skip.
  destruct (Z.ltb_spec 0 (size_ b)); simpl; split; reflexivity || lia.
Qed.

(** An emptied batch: the loop stops at the end and goes on otherwise. *)
Lemma loop_goes_on fuel s max :
  Inv s -> size_ (op_brs s) = 0 ->
  (end_ (op_brs s) = false -> exists ret s', next_loop spec fuel s max = Some (ret, s')
     /\ (ret = OB_SUCCESS -> loop_result s')) ->
  exists ret s', next_loop spec fuel s max = Some (ret, s') /\ (ret = OB_SUCCESS -> loop_result s').
Proof.
  intros Hi Hz Hgo. destruct (end_ (op_brs s)) eqn:E; [| auto].
  exists OB_SUCCESS, s. destruct fuel; simpl; rewrite E; (split; [reflexivity |]); intros _; (split; [exact Hi |]);
    left; auto.
Qed.

Lemma next_loop_ok fuel : forall s max, (mu s < fuel)%nat -> Inv s -> end_ (op_brs s) = false ->
  exists ret s', next_loop spec fuel s max = Some (ret, s') /\ (ret = OB_SUCCESS -> loop_result s').
Proof.
  induction fuel as [| fuel IH]; intros s max Hmu Hi He; [lia |]. cbn [next_loop]. rewrite He.
  set (n := Z.min max _). destruct (nc_inner _ _ _ _ _ Hc s n Hi He) as (ret & s1 & E & Hs1).
  rewrite E. cbn [mbind option_bind]. unfold OB_FAIL, OB_SUCC.
  destruct (Z.eqb_spec ret OB_SUCCESS) as [-> |]; cbn [negb]; [| now exists ret, s1; split].
  destruct (Hs1 eq_refl) as (Hi1 & Hb1 & Hless & Hev).
  assert (forall b, size_ b = 0 -> end_ b = end_ (op_brs s1) -> forall c, Ext (op_ctx s1) c ->
    exists ret s', next_loop spec fuel (op_set_brs (op_set_ctx s1 c) b) max = Some (ret, s')
      /\ (ret = OB_SUCCESS -> loop_result s')) as Hagain.
  { intros b Hz Hend c Hext. destruct (nc_ctx _ _ _ _ _ Hc s1 c Hi1 Hext) as [Hi2 Hm2].
    destruct (nc_brs _ _ _ _ _ Hc _ b Hi2) as [Hi3 Hm3].
    apply loop_goes_on; [exact Hi3 | now rewrite brs_set_brs |].
    rewrite brs_set_brs. intros Hef. apply IH; [| exact Hi3 | now rewrite brs_set_brs].
    destruct Hless; [congruence | lia]. }
  destruct (Z.eqb_spec (size_ (op_brs s1)) (ObBitVector.accumulate_bit_cnt (skip_ (op_brs s1)) (size_ (op_brs s1)))) as [Hall | Hsome].
  { destruct (reset_batchrows_empty _ Hb1) as [Hz Hend].
    pose proof (Hagain _ Hz Hend _ (nc_refl _ _ _ _ _ Hc _)) as Hg. now rewrite set_ctx_id in Hg. }
  destruct (not_all_skipped _ Hb1 Hsome) as [Hpos Hact]. pose proof Hb1 as (_ & Hw1 & Hf1).
  destruct (sp_filters spec) as [| f fs] eqn:Efs.
  { exists OB_SUCCESS, s1. split; [reflexivity |]. intros _. split; [exact Hi1 |]. right.
    exists s, n, s1. rewrite Efs. repeat split; auto. intros i _. simpl. now rewrite orb_false_r. }
  destruct (filter_rows_ok _ _ _ _ (op_ctx s1) (skip_ (op_brs s1)) true (all_rows_active_ (op_brs s1)) Hpos Hev
              (nc_refl _ _ _ _ _ Hc _) Hw1 Hf1) as (c2 & k2 & af & ac & -> & Hx2 & Hk2 & _ & Hact2).
  cbn [mbind option_bind]. change (OB_SUCCESS =? OB_SUCCESS) with true. cbn [negb].
  destruct af; [now apply Hagain |].
  exists OB_SUCCESS. eexists. split; [reflexivity |]. intros _.
  destruct (nc_ctx _ _ _ _ _ Hc s1 c2 Hi1 Hx2) as [Hi2 _]. split; [apply (nc_brs _ _ _ _ _ Hc), Hi2 |]. right.
  exists s, n, s1. rewrite Efs, brs_set_brs. cbn [skip_ size_ end_].
  split; [exact Hi |]. split; [exact E |]. split; [reflexivity |]. split; [reflexivity |]. split; [exact Hk2 | auto].
Qed.
End Loop.

(** ** The startup filters *)
Section Startup.
Context {S : Type} `{VectorOpLaws S} (spec : OpSpec).

(** A startup filter that is false ends the operator: the loop does not ask for a
    batch, in this call and in the next ones. *)
Lemma startup_filters_end s ctx : end_ (op_brs s) = false ->
  filter_row spec (sp_startup_filters spec) (op_ctx s) = Some (OB_SUCCESS, ctx, true) ->
  exists s', startup spec s false = Some (OB_SUCCESS, s', false) /\ end_ (op_brs s') = true /\ size_ (op_brs s') = size_ (op_brs s)
    /\ forall fuel m, next_loop spec fuel s' m = Some (OB_SUCCESS, s').
Proof.
  intros He Hf. unfold startup. rewrite He, Hf. eexists. split; [reflexivity |]. rewrite brs_set_brs, brs_set_ctx.
  split; [reflexivity |]. split; [reflexivity |]. intros [| fuel] m; cbn [next_loop]; now rewrite brs_set_brs.
Qed.
(** When none is false the operator goes on with the frame they left, and they
    are not asked again. *)
Lemma startup_filters_pass s ctx : end_ (op_brs s) = false ->
  filter_row spec (sp_startup_filters spec) (op_ctx s) = Some (OB_SUCCESS, ctx, false) ->
  startup spec s false = Some (OB_SUCCESS, op_set_ctx s ctx, true) /\ forall s', startup spec s' true = Some (OB_SUCCESS, s', true).
Proof. intros He Hf. unfold startup. now rewrite He, Hf. Qed.
End Startup.
