(* ===== verification/PUCell.v ===== *)
(** One Python UDF of the operator: [ObPythonUDFCell]
    ([src/src/sql/engine/python_udf_engine/ob_python_udf_op.cpp]), which stores
    the arguments, calls the user function on slices of them and writes the
    results back to the frame.

    The world a cell acts on is explicit: the interpreter, the clock behind
    [gettimeofday], the [extra_info_] of the expressions (by [eid]) and the
    evaluation context. *)
From S2P Require Import Prelude PopCount BitVector Frame FixedArray PyApi BatchSize PUStore.

Section Cell.
Context `{Allocator} `{PyApi}.

Record World := mkWorld
  { w_py : PyState; w_clock : nat -> timeval; w_tick : nat;
    w_infos : gmap Z ObPythonUdfInfo; w_ctx : ObEvalCtx }.

Definition set_py (w : World) (p : PyState) : World :=
  mkWorld p (w_clock w) (w_tick w) (w_infos w) (w_ctx w).
Definition set_infos (w : World) (i : gmap Z ObPythonUdfInfo) : World :=
  mkWorld (w_py w) (w_clock w) (w_tick w) i (w_ctx w).
Definition set_ctx (w : World) (c : ObEvalCtx) : World :=
  mkWorld (w_py w) (w_clock w) (w_tick w) (w_infos w) c.

(** [gettimeofday]: the next reading of the clock. *)
Definition gettimeofday (w : World) : timeval * World :=
  (w_clock w (w_tick w), mkWorld (w_py w) (w_clock w) (S (w_tick w)) (w_infos w) (w_ctx w)).

Record ObPythonUDFCell := mkCell
  { c_expr : ObUdfExpr; c_store : ObPUInputStore; c_batch_size : Z; c_desirable : Z;
    c_result_size : Z; c_result_store : option PyObj }.

Definition set_store (c : ObPythonUDFCell) (st : ObPUInputStore) : ObPythonUDFCell :=
  mkCell (c_expr c) st (c_batch_size c) (c_desirable c) (c_result_size c) (c_result_store c).
Definition set_desirable (c : ObPythonUDFCell) (d : Z) : ObPythonUDFCell :=
  mkCell (c_expr c) (c_store c) (c_batch_size c) d (c_result_size c) (c_result_store c).
Definition set_result (c : ObPythonUDFCell) (n : Z) (r : option PyObj) : ObPythonUDFCell :=
  mkCell (c_expr c) (c_store c) (c_batch_size c) (c_desirable c) n r.

(** [new ObPythonUDFCell()] followed by [init].  The constructor leaves
    [result_size_] and [result_store_] unset; no path reads them before
    [do_process] or [free] writes them, and the model starts them at zero. *)
Definition cell_init (u : ObUdfExpr) (batch_size length : Z) (infos : gmap Z ObPythonUdfInfo)
    : option (Z * option ObPythonUDFCell) :=
  let '(ret, st) := pu_init pu_empty u length in
  if OB_FAIL ret then Some (OB_NOT_INIT, None)
  else
    info ← infos !! eid (u_expr u);
    Some (ret, Some (mkCell u st batch_size (predict_size info) 0 None)).

Definition cell_free (c : ObPythonUDFCell) : Z * ObPythonUDFCell :=
  let '(ret, st) := pu_free (c_store c) in
  if OB_FAIL ret then (OB_ERR_UNEXPECTED, set_store c st)
  else (ret, set_result (set_store c st) 0 None).

Definition cell_reset (c : ObPythonUDFCell) (size : Z) : Z * ObPythonUDFCell :=
  let '(ret, st) := pu_reset (c_store c) size in (ret, set_store c st).
Definition reset_input_store (c : ObPythonUDFCell) : Z * ObPythonUDFCell := cell_reset c 0.

Definition get_store_size (c : ObPythonUDFCell) : Z := saved_size_ (c_store c).

(** The loop of [do_store] over the arguments. *)
Fixpoint eval_args (args : list ObExpr) (ctx : ObEvalCtx) (brs : ObBatchRows)
    : option (Z * ObEvalCtx) :=
  match args with
  | [] => Some (OB_SUCCESS, ctx)
  | e :: args' =>
      '(ret, ctx) ← eval_vector e ctx (skip_ brs) (size_ brs);
      if OB_FAIL ret then Some (OB_ERR_UNEXPECTED, ctx)
      else
        '(ret, ctx) ← cast_ctx e (size_ brs) ctx;
        if OB_FAIL ret then Some (OB_ERR_UNEXPECTED, ctx)
        else eval_args args' ctx brs
  end.

Definition do_store (c : ObPythonUDFCell) (ctx : ObEvalCtx) (brs : ObBatchRows)
    : option (Z * ObPythonUDFCell * ObEvalCtx) :=
  '(ret, ctx) ← eval_args (args_ (c_expr c)) ctx brs;
  if OB_FAIL ret then Some (OB_ERR_UNEXPECTED, c, ctx)
  else
    '(ret, st) ← pu_save_batch (c_store c) ctx brs;
    if OB_FAIL ret then Some (OB_ERR_UNEXPECTED, set_store c st, ctx)
    else Some (ret, set_store c st, ctx).

(** ** Wrapping the arguments *)

(** The entries [idx, idx + n) of a buffer; all of them must have been written. *)
Fixpoint read_entries {A} (l : list (option A)) (idx : Z) (n : nat) : option (list A) :=
  match n with
  | O => Some []
  | S n' => x ← rd l idx; v ← x; r ← read_entries l (idx + 1) n'; Some (v :: r)
  end.

(** One string: [PyUnicode_FromStringAndSize(ptr_, len_)]; numpy gives no
    meaning to storing the null pointer it returns for malformed UTF-8. *)
Fixpoint wrap_strings (ds : list ObDatum) : option (list bytes) :=
  match ds with
  | [] => Some []
  | d :: ds' =>
      b ← deref [] (ptr_ d) (len_ d);
      if PyUnicode_ok b then r ← wrap_strings ds'; Some (b :: r) else None
  end.

(** The array of one argument.  The numeric arrays are views of the buffer;
    it does not change while they live. *)
Definition wrap_arg (st : ObPUInputStore) (i : Z) (e : ObExpr) (idx eval_size : Z)
    : option (Z * option NpArray) :=
  let n := Z.to_nat eval_size in
  match arg_class (datum_type e) with
  | None => Some (OB_NOT_SUPPORTED, None)
  | Some cls =>
      p ← get_data_ptr_at st i;
      match cls, p with
      | ArgStr, BufStr l => ds ← read_entries l idx n; bs ← wrap_strings ds; Some (OB_SUCCESS, Some (NpObject bs))
      | ArgInt, BufInt l => zs ← read_entries l idx n; Some (OB_SUCCESS, Some (NpInt32 zs))
      | ArgDouble, BufDouble l => zs ← read_entries l idx n; Some (OB_SUCCESS, Some (NpFloat64 zs))
      | _, _ => None
      end
  end.

(** The loop does not stop at an error; a null array leaves a hole in the tuple. *)
Fixpoint wrap_args (st : ObPUInputStore) (i : Z) (args : list ObExpr) (idx eval_size ret : Z)
    : option (Z * list (option NpArray)) :=
  match args with
  | [] => Some (ret, [])
  | e :: args' =>
      '(r, a) ← wrap_arg st i e idx eval_size;
      '(ret, rest) ← wrap_args st (i + 1) args' idx eval_size (if OB_FAIL r then r else ret);
      Some (ret, a :: rest)
  end.

(** [wrap_input_numpy(pArgs, idx, predict_size, eval_size)]. *)
Definition wrap_input_numpy (c : ObPythonUDFCell) (w : World) (idx predict_size : Z)
    : option (Z * list (option NpArray) * Z) :=
  if PyTuple_New_ok (w_py w) (arg_cnt_ (c_expr c)) then
    let saved_size := saved_size_ (c_store c) in
    let eval_size := if idx + predict_size <? saved_size then predict_size else saved_size - idx in
    '(ret, args) ← wrap_args (c_store c) 0 (args_ (c_expr c)) idx eval_size OB_SUCCESS;
    Some (ret, args, eval_size)
  else None.

(** ** Evaluation *)

Definition pyfun_handler (name : string) : string := (name +:+ "_pyfun")%string.

Definition cell_eval (c : ObPythonUDFCell) (w : World) (pArgs : list NpArray) (eval_size : Z)
    : option (Z * ObPythonUDFCell * World) :=
  info ← w_infos w !! eid (u_expr (c_expr c));
  let handler := pyfun_handler (name_ info) in
  if negb (find_pyfun (w_py w) handler) then Some (OB_ERR_UNEXPECTED, c, w)
  else
    let '(py, res) := PyObject_CallObject (w_py w) handler pArgs in
    let w := set_py w py in
    match res with
    | None => Some (OB_ERR_UNEXPECTED, c, w)
    | Some pResult =>
        let r := match c_result_store c with
                 | None => Some pResult
                 | Some old => PyArray_Concatenate old pResult
                 end in
        Some (OB_SUCCESS, set_result c (c_result_size c + eval_size) r, w)
    end.

(** The loop of [do_process] from row [idx]; [None] when the fuel runs out,
    which stands for a loop that does not end. *)
Fixpoint process_loop (fuel : nat) (c : ObPythonUDFCell) (w : World) (idx : Z)
    : option (Z * ObPythonUDFCell * World) :=
  if idx <? saved_size_ (c_store c) then
    match fuel with
    | O => None
    | S fuel' =>
        let '(t1, w) := gettimeofday w in
        '(ret, args, eval_size) ← wrap_input_numpy c w idx (c_desirable c);
        if OB_FAIL ret then Some (OB_ERR_UNEXPECTED, c, w)
        else
          args ← mapM id args;
          '(ret, c, w) ← cell_eval c w args eval_size;
          if OB_FAIL ret then Some (OB_ERR_UNEXPECTED, c, w)
          else
            let '(t2, w) := gettimeofday w in
            let i := eid (u_expr (c_expr c)) in
            info ← w_infos w !! i;
            let info := modify_desirable info t1 t2 eval_size in
            process_loop fuel' (set_desirable c (predict_size info))
              (set_infos w (<[i := info]> (w_infos w))) (idx + eval_size)
    end
  else Some (OB_SUCCESS, c, w).

(** One round per saved row is enough when the batch size is positive. *)
Definition do_process (c : ObPythonUDFCell) (w : World) : option (Z * ObPythonUDFCell * World) :=
  process_loop (Z.to_nat (saved_size_ (c_store c))) (set_result c 0 None) w 0.

(** [do_process_all]: one call on everything saved. *)
Definition do_process_all (c : ObPythonUDFCell) (w : World) : option (Z * ObPythonUDFCell * World) :=
  let c := set_result c 0 None in
  '(ret, args, eval_size) ← wrap_input_numpy c w 0 (saved_size_ (c_store c));
  if OB_FAIL ret then Some (OB_ERR_UNEXPECTED, c, w)
  else
    args ← mapM id args;
    '(ret, c, w) ← cell_eval c w args eval_size;
    if OB_FAIL ret then Some (OB_ERR_UNEXPECTED, c, w) else Some (ret, c, w).

(** ** Writing the results *)

(** [ObString] from a C string: up to the first zero byte; empty for null. *)
Fixpoint cstr (b : bytes) : bytes :=
  match b with [] => [] | x :: b' => if x =? 0 then [] else x :: cstr b' end.

(** The payload one element of the result becomes. *)
Definition item_bytes (cls : ArgClass) (it : PyItem) : bytes :=
  match cls with
  | ArgStr => cstr (default [] (PyUnicode_AsUTF8 it))
  | ArgInt => int64_bytes (PyLong_AsLong it)
  | ArgDouble => int64_bytes (PyFloat_AsDouble it)
  end.

Definition set_item (cls : ArgClass) (m : ExprMem) (i : Z) (b : bytes) : option ExprMem :=
  match cls with
  | ArgStr => set_string m i b
  | ArgInt | ArgDouble => set_payload m i b
  end.

Fixpoint restore_loop (n : nat) (i : Z) (cls : ArgClass) (res : PyObj) (output_idx : Z)
    (m : ExprMem) : option ExprMem :=
  match n with
  | O => Some m
  | S n' =>
      it ← PyArray_GETITEM res (output_idx + i);
      m ← set_item cls m i (item_bytes cls it);
      restore_loop n' (i + 1) cls res output_idx m
  end.

(** [do_restore_vector]; the result of [init_vector_for_write] is not checked,
    and writing through a vector it could not build has no meaning. *)
Definition do_restore_vector (c : ObPythonUDFCell) (info : ObPythonUdfInfo) (m : ExprMem)
    (output_idx output_size : Z) : option (Z * ExprMem) :=
  let e := u_expr (c_expr c) in
  '(ret, format) ← Some
    match ret_ info with
    | STRING => (OB_SUCCESS, VEC_DISCRETE)
    | INTEGER | REAL => (OB_SUCCESS, VEC_FIXED)
    | _ => (OB_NOT_SUPPORTED, VEC_INVALID)
    end;
  '(r, m) ← init_vector_for_write e m format (c_batch_size c);
  if OB_FAIL r then None
  else match arg_class (datum_type e) with
  | None => Some (OB_NOT_SUPPORTED, m)
  | Some cls =>
      res ← c_result_store c;
      m ← restore_loop (Z.to_nat output_size) 0 cls res output_idx m;
      Some (ret, m)
  end.

(** [do_restore_batch]: the datum of row [i] points to its reserved buffer,
    or, for a string, to the Python object's bytes. *)
Fixpoint restore_batch_loop (n : nat) (i : Z) (e : ObExpr) (cls : ArgClass) (res : PyObj)
    (output_idx : Z) (m : ExprMem) : option ExprMem :=
  match n with
  | O => Some m
  | S n' =>
      it ← PyArray_GETITEM res (output_idx + i);
      let b := item_bytes cls it in
      let p := PFrame (i * res_buf_len_ e) in
      m ← match cls with
          | ArgStr => ds ← wr (datums_ m) i (mkDatum (PExt b) (Z.of_nat (length b)) false);
                      Some (with_datums m ds)
          | _ => buf ← memcpy_to (res_buf_ m) p b;
                 ds ← wr (datums_ m) i (mkDatum p 8 false);
                 Some (with_res_buf (with_datums m ds) buf)
          end;
      restore_batch_loop n' (i + 1) e cls res output_idx m
  end.

Definition do_restore_batch (c : ObPythonUDFCell) (m : ExprMem) (output_idx output_size : Z)
    : option (Z * ExprMem) :=
  let e := u_expr (c_expr c) in
  match arg_class (datum_type e) with
  | None => Some (OB_NOT_SUPPORTED, m)
  | Some cls =>
      res ← c_result_store c;
      m ← restore_batch_loop (Z.to_nat output_size) 0 e cls res output_idx m;
      Some (OB_SUCCESS, m)
  end.

Definition do_restore (c : ObPythonUDFCell) (w : World) (output_idx output_size : Z)
    : option (Z * World) :=
  let e := u_expr (c_expr c) in
  if c_result_size c <? output_idx + output_size then Some (OB_ERR_UNEXPECTED, w)
  else
    m ← w_ctx w !! eid e;
    '(ret, m) ←
      (if rich_format e then
         info ← w_infos w !! eid e; do_restore_vector c info m output_idx output_size
       else do_restore_batch c m output_idx output_size);
    if OB_FAIL ret then Some (OB_NOT_SUPPORTED, set_ctx w (<[eid e := m]> (w_ctx w)))
    else Some (ret, set_ctx w (<[eid e := with_flags m true true (eval_flags_ m)]> (w_ctx w))).
End Cell.
