(* ===== verification/PUCellFacts.v ===== *)
(** What one cell does: storing a batch appends its rows to the argument
    buffers, processing calls the user function on consecutive slices and
    collects one result per row, restoring shows a range of the results. *)
From S2P Require Import Prelude PopCount BitVector Frame FrameFacts FixedArray PyApi BatchSize.
From S2P Require Import PUStore PUStoreFacts PUCell.

(** ** Expressions the child has produced *)

Section Visible.
(** The frame has room for [N] rows; [K] are the values of the constants. *)
Context (N : Z) (K : Z -> bytes).

(** A column the child projects, or a constant, whose slots show [cells]. *)
Definition col_vis (e : ObExpr) (m : ExprMem) (cells : list bytes) : Prop :=
  batch_expr e /\ is_const_expr e = false /\ projected_ m = true /\ column m cells /\ cap e N m.

Definition const_vis (e : ObExpr) (m : ExprMem) (b : bytes) : Prop :=
  batch_result_ e = false /\ is_const_expr e = true /\ has_eval_batch_func e = false
  /\ format_ m = VEC_UNIFORM_CONST /\ udatums_ m = None
  /\ exists d, rd (datums_ m) 0 = Some d /\ null_ d = false
       /\ deref (res_buf_ m) (ptr_ d) (len_ d) = Some b.

Definition vis (e : ObExpr) (m : ExprMem) (cells : list bytes) : Prop :=
  col_vis e m cells \/ const_vis e m (K (eid e)) /\ Forall (eq (K (eid e))) cells.

(** After [cast_to_uniform]. *)
Definition uniform (e : ObExpr) (m : ExprMem) : Prop :=
  is_const_expr e = false -> format_ m = VEC_UNIFORM.

Lemma column_valid m cells : column m cells -> format_ m <> VEC_INVALID.
Proof. intros ([-> | [-> | [-> | ->]]] & _); discriminate. Qed.

(** [eval_vector] has nothing to do on such an expression. *)
Lemma eval_vector_vis e ctx m cells skip size :
  ctx !! eid e = Some m -> vis e m cells -> eval_vector e ctx skip size = Some (OB_SUCCESS, ctx).
Proof.
  intros Hm Hv. unfold eval_vector. rewrite Hm. cbn [mbind option_bind].
  assert (format_ m <> VEC_INVALID) as Hf.
  { destruct Hv as [(_ & _ & _ & Hc & _) | ((_ & _ & _ & Hf & _) & _)];
      [eapply column_valid; exact Hc | rewrite Hf; discriminate]. }
  rewrite bool_decide_eq_false_2 by exact Hf. cbn [andb mbind option_bind].
  change (OB_FAIL OB_SUCCESS) with false. cbn iota.
  assert (projected_ m || negb (has_eval_batch_func e)
          || (negb (batch_result_ e) && evaluated_ m) = true) as ->.
  { destruct Hv as [(_ & _ & -> & _) | ((_ & _ & -> & _) & _)];
      [reflexivity | now rewrite orb_true_r]. }
  cbn [mbind option_bind]. change (OB_SUCC OB_SUCCESS) with true. cbn [andb].
  now rewrite insert_id.
Qed.

Lemma cast_vis e ctx m cells :
  ctx !! eid e = Some m -> vis e m cells ->
  exists m', cast_ctx e (Z.of_nat (length cells)) ctx = Some (OB_SUCCESS, <[eid e := m']> ctx)
    /\ vis e m' cells /\ uniform e m'.
Proof.
  intros Hm [(He & Hc & Hp & Hcol & Hcap) | (Hcv & Hall)]; unfold cast_ctx; rewrite Hm;
    cbn [mbind option_bind].
  - destruct (cast_column e m cells He Hcol) as (m' & E & Hcol' & Hf & Hfl & Hcap').
    exists m'. rewrite E. split; [reflexivity |]. split; [left | now intros _].
    split; [exact He |]. split; [exact Hc |]. split; [destruct Hfl as (_ & -> & _); exact Hp |].
    split; [exact Hcol' | now apply Hcap'].
  - exists m. pose proof Hcv as (_ & Hc & _ & Hf & Hu & _). unfold cast_to_uniform. rewrite Hf, Hu.
    split; [reflexivity |]. split; [right; auto | intros E; congruence].
Qed.

(** Such an expression, once uniform, shows its rows to [save_batch]. *)
Lemma vis_arg_datums e m cells cls :
  vis e m cells -> uniform e m -> (cls <> ArgStr -> Forall (fun b => length b = 8%nat) cells) ->
  arg_datums e m cls cells.
Proof.
  intros Hv Hu Hw k b Hk. split.
  { intros Hcls. specialize (Hw Hcls). rewrite Forall_lookup in Hw. eauto. }
  unfold src_datum. destruct Hv as [(_ & Hc & _ & Hcol & _) | (Hcv & Hall)].
  - rewrite Hc. apply (uniform_datum_of m cells k b Hcol); [now apply Hu | exact Hk].
  - destruct Hcv as (_ & -> & _ & _ & _ & d & Hd & Hn & Hde). exists d.
    rewrite Forall_lookup in Hall. rewrite <- (Hall k b Hk). auto.
Qed.

(** ** All expressions of a plan *)

Context (univ : list ObExpr).
Hypothesis ids_unique : forall e e', e ∈ univ -> e' ∈ univ -> eid e = eid e' -> e = e'.

(** Every expression of the plan shows its rows; [val] gives them by [eid]. *)
Definition ctx_vis (val : Z -> list bytes) (ctx : ObEvalCtx) : Prop :=
  forall e, e ∈ univ -> exists m, ctx !! eid e = Some m /\ vis e m (val (eid e)).
Definition ctx_uniform (ctx : ObEvalCtx) (e : ObExpr) : Prop :=
  exists m, ctx !! eid e = Some m /\ uniform e m.

Lemma eval_args_vis val ctx brs args :
  ctx_vis val ctx -> Forall (fun e => e ∈ univ) args ->
  (forall e, e ∈ args -> Z.of_nat (length (val (eid e))) = size_ brs) ->
  exists ctx', eval_args args ctx brs = Some (OB_SUCCESS, ctx') /\ ctx_vis val ctx'
    /\ (forall e, e ∈ args -> ctx_uniform ctx' e)
    /\ (forall e, e ∈ univ -> ctx_uniform ctx e -> ctx_uniform ctx' e)
    /\ (forall i, i ∉ map eid args -> ctx' !! i = ctx !! i).
Proof.
  revert ctx. induction args as [| e args IH]; intros ctx Hv Hu Hsz.
  - exists ctx. split; [reflexivity |]. split; [exact Hv |].
    split; [intros e He; now apply elem_of_nil in He |]. auto.
  - apply Forall_cons in Hu as [He Hu].
    destruct (Hv e He) as (m & Hm & Hvm).
    destruct (cast_vis e ctx m _ Hm Hvm) as (m' & Ec & Hvm' & Hum').
    assert (ctx_vis val (<[eid e := m']> ctx)) as Hv'.
    { intros e' He'. destruct (decide (eid e' = eid e)) as [Eq | Ne].
      - rewrite (ids_unique e' e He' He Eq). exists m'. split; [apply lookup_insert_eq | exact Hvm'].
      - destruct (Hv e' He') as (m1 & Hm1 & Hvm1). exists m1. rewrite lookup_insert_ne by auto. auto. }
    assert (forall e', e' ∈ univ -> ctx_uniform ctx e' -> ctx_uniform (<[eid e := m']> ctx) e') as Hkeep.
    { intros e' He' (m1 & Hm1 & Hu1). destruct (decide (eid e' = eid e)) as [Eq | Ne].
      - rewrite (ids_unique e' e He' He Eq). exists m'. split; [apply lookup_insert_eq | exact Hum'].
      - exists m1. rewrite lookup_insert_ne by auto. auto. }
    destruct (IH (<[eid e := m']> ctx) Hv' Hu) as (ctx' & E & Hv2 & Hun & Hk2 & Hother).
    { intros e' He'. apply Hsz. now right. }
    exists ctx'. cbn [eval_args]. rewrite (eval_vector_vis e ctx m _ _ _ Hm Hvm).
    cbn [mbind option_bind]. change (OB_FAIL OB_SUCCESS) with false. cbn iota.
    rewrite <- (Hsz e) by now left. rewrite Ec. cbn [mbind option_bind].
    change (OB_FAIL OB_SUCCESS) with false. cbn iota. split; [exact E |]. split; [exact Hv2 |].
    split.
    { intros e' He'. apply elem_of_cons in He' as [-> | He']; [| now apply Hun].
      apply Hk2; [exact He |]. exists m'. split; [apply lookup_insert_eq | exact Hum']. }
    split; [auto |]. intros i Hi. rewrite Hother by (intros Hin; apply Hi; now right).
    apply lookup_insert_ne. intros <-. apply Hi. left.
Qed.
End Visible.

Section Cells.
Context `{Allocator} `{PyApi} (alloc_total : forall n, alloc_ok n = true).
Context (N : Z) (K : Z -> bytes) (univ : list ObExpr).
Hypothesis ids_unique : forall e e', e ∈ univ -> e' ∈ univ -> eid e = eid e' -> e = e'.

(** The type of an argument, and the width of its cells. *)
Definition arg_cls (e : ObExpr) : ArgClass := default ArgStr (arg_class (datum_type e)).
Definition arg_width (e : ObExpr) (cells : list bytes) : Prop :=
  supported e /\ (arg_cls e <> ArgStr -> Forall (fun b => length b = 8%nat) cells).

(** The rows saved so far, by [eid], extended by a batch. *)
Definition extend (acc val : Z -> list bytes) (skip : words) (i : Z) : list bytes :=
  acc i ++ pick skip 0 (val i).

Lemma zip_extend (acc val : Z -> list bytes) skip (es : list ObExpr) :
  zip_with app (map (fun e => acc (eid e)) es)
    (map (pick skip 0) (map (fun e => val (eid e)) es))
  = map (fun e => extend acc val skip (eid e)) es.
Proof. induction es as [| e es IH]; simpl; [reflexivity | now rewrite IH]. Qed.

(** The cell of [u] with [n] rows saved, room for [L]. *)
Record cell_inv (c : ObPythonUDFCell) (u : ObUdfExpr) (acc : Z -> list bytes) (n L : Z) : Prop :=
  mkCellInv
  { k_expr : c_expr c = u;
    k_store : pu_inv (c_store c) u (map (fun e => acc (eid e)) (args_ u)) n;
    k_len : length_ (c_store c) = L }.

Lemma shows_args val ctx args :
  ctx_vis N K univ val ctx -> Forall (fun e => e ∈ univ) args ->
  (forall e, e ∈ args -> ctx_uniform ctx e) ->
  Forall (fun e => arg_width e (val (eid e))) args ->
  Forall2 (shows_arg ctx) args (map (fun e => val (eid e)) args).
Proof.
  intros Hv Hu Hun Hw. apply Forall2_fmap_r. apply Forall_Forall2_diag.
  rewrite Forall_forall in *. intros e He. destruct (Hv e (Hu e He)) as (m & Hm & Hvm).
  destruct (Hun e He) as (m' & Hm' & Hum). assert (m' = m) as -> by congruence.
  destruct (Hw e He) as ((cls & Hcls) & Hwd). exists m, cls. split; [exact Hm |].
  split; [exact Hcls |]. apply (vis_arg_datums N K); auto.
  intros Hne. apply Hwd. unfold arg_cls. now rewrite Hcls.
Qed.

Lemma do_store_ok c u acc val n L ctx brs :
  cell_inv c u acc n L -> ctx_vis N K univ val ctx ->
  Forall (fun e => e ∈ univ) (args_ u) ->
  Forall (fun e => arg_width e (val (eid e))) (args_ u) ->
  (forall e, e ∈ args_ u -> Z.of_nat (length (val (eid e))) = size_ brs) ->
  ObBitVector.wf (skip_ brs) -> 0 <= active_cnt brs -> n + active_cnt brs <= L ->
  exists c' ctx', do_store c ctx brs = Some (OB_SUCCESS, c', ctx')
    /\ cell_inv c' u (extend acc val (skip_ brs)) (n + active_cnt brs) L
    /\ ctx_vis N K univ val ctx'
    /\ (forall i, i ∉ map eid (args_ u) -> ctx' !! i = ctx !! i)
    /\ c_desirable c' = c_desirable c /\ c_batch_size c' = c_batch_size c.
Proof.
  intros [He Hst HL] Hv Hu Hw Hsz Hwf Ha Hroom. subst u L.
  destruct (eval_args_vis N K univ ids_unique val ctx brs (args_ (c_expr c)) Hv Hu Hsz)
    as (ctx' & E & Hv' & Hun & _ & Hother).
  destruct (pu_save_ok alloc_total (c_store c) (c_expr c) _ n ctx' brs
              (map (fun e => val (eid e)) (args_ (c_expr c))) Hst) as (st' & Es & Hst' & Hl'); auto.
  { now apply shows_args. }
  { apply Forall_map. rewrite Forall_forall. intros e He. now apply Hsz. }
  unfold do_store. rewrite E. cbn [mbind option_bind]. change (OB_FAIL OB_SUCCESS) with false.
  cbn iota. rewrite Es. cbn [mbind option_bind]. change (OB_FAIL OB_SUCCESS) with false. cbn iota.
  eexists _, ctx'. split; [reflexivity |]. split; [| auto].
  constructor; simpl; auto. rewrite zip_extend in Hst'. exact Hst'.
Qed.

(** ** Wrapping *)

(** The arrays of the arguments, from the saved rows. *)
Definition arg_arrays (u : ObUdfExpr) (acc : Z -> list bytes) : list NpArray :=
  map (fun e => arg_cells (arg_cls e) (acc (eid e))) (args_ u).

Lemma read_entries_ok {A} (l : list (option A)) xs off n :
  starts_with l xs -> (off + n <= length xs)%nat ->
  read_entries l (Z.of_nat off) n = Some (take n (drop off xs)).
Proof.
  intros Hs. revert off. induction n as [| n IH]; intros off Hle; [reflexivity |].
  destruct (lookup_lt_is_Some_2 xs off ltac:(lia)) as [x Hx].
  cbn [read_entries]. rewrite (starts_with_rd _ _ _ _ Hs Hx). cbn [mbind option_bind].
  replace (Z.of_nat off + 1) with (Z.of_nat (S off)) by lia. rewrite IH by lia.
  cbn [mbind option_bind]. now rewrite (drop_S xs x off Hx).
Qed.

Lemma wrap_strings_ok bs :
  Forall (fun b => PyUnicode_ok b = true) bs -> wrap_strings (map str_datum bs) = Some bs.
Proof.
  induction 1 as [| b bs Hb _ IH]; [reflexivity |]. cbn [map wrap_strings].
  change (ptr_ (str_datum b)) with (PExt b). change (len_ (str_datum b)) with (Z.of_nat (length b)).
  rewrite deref_ext. cbn [mbind option_bind]. rewrite Hb, IH. reflexivity.
Qed.

(** Every string argument is text Python accepts. *)
Definition utf8_args (u : ObUdfExpr) (acc : Z -> list bytes) : Prop :=
  Forall (fun e => arg_cls e = ArgStr -> Forall (fun b => PyUnicode_ok b = true) (acc (eid e))) (args_ u).

Lemma wrap_arg_ok st i e p cells len off n :
  get_data_ptr_at st i = p -> arg_slot len e cells p -> (off + n <= length cells)%nat ->
  (arg_cls e = ArgStr -> Forall (fun b => PyUnicode_ok b = true) cells) ->
  wrap_arg st i e (Z.of_nat off) (Z.of_nat n)
  = Some (OB_SUCCESS, Some (np_slice off n (arg_cells (arg_cls e) cells))).
Proof.
  intros Hp (b & cls & -> & Hcls & Hbl & Hh) Hle Hutf. unfold wrap_arg, arg_cls in *.
  rewrite Hcls in *. simpl default in *. rewrite Hp, Nat2Z.id. cbn [mbind option_bind].
  destruct cls, b as [l | l | l]; simpl arg_cells in *; try contradiction Hh; cbn [arg_holds] in Hh.
  - rewrite (read_entries_ok l (map str_datum cells)) by (rewrite ?length_map; auto).
    cbn [mbind option_bind]. rewrite skipn_map, firstn_map.
    rewrite (wrap_strings_ok (take n (drop off cells))); [reflexivity |].
    now apply Forall_take, Forall_drop, Hutf.
  - rewrite (read_entries_ok l _ off n Hh) by (rewrite length_map; auto). reflexivity.
  - rewrite (read_entries_ok l _ off n Hh) by (rewrite length_map; auto). reflexivity.
Qed.

Lemma wrap_args_ok st u (acc : Z -> list bytes) ps off n i args ps' :
  expr_ st = Some u -> data_ptrs_ st = Some ps ->
  (i + length args <= length (args_ u))%nat -> drop i ps = ps' ->
  Forall3 (arg_slot (length_ st)) args (map (fun e => acc (eid e)) args) ps' ->
  Forall (fun e => (off + n <= length (acc (eid e)))%nat) args ->
  Forall (fun e => arg_cls e = ArgStr -> Forall (fun b => PyUnicode_ok b = true) (acc (eid e))) args ->
  wrap_args st (Z.of_nat i) args (Z.of_nat off) (Z.of_nat n) OB_SUCCESS
  = Some (OB_SUCCESS, map (fun e => Some (np_slice off n (arg_cells (arg_cls e) (acc (eid e))))) args).
Proof.
  intros He Hps. revert i ps'. induction args as [| e args IH]; intros i ps' Hi Hd H3 Hlen Hutf;
    [reflexivity |].
  destruct ps' as [| p ps']; cbn [map] in H3; inversion H3 as [| ? ? ? ? ? ? Hslot H3' Ee Ec Ep]; subst x y z l k k'.
  apply Forall_cons in Hlen as [Hl Hlen]. apply Forall_cons in Hutf as [Hut Hutf]. simpl in Hi.
  assert (ps !! i = Some p) as Hp.
  { rewrite <- (Nat.add_0_r i), <- lookup_drop. now rewrite Hd. }
  assert (drop (S i) ps = ps') as Hd'.
  { rewrite <- Nat.add_1_r, <- drop_drop, Hd. reflexivity. }
  cbn [wrap_args].
  rewrite (wrap_arg_ok st (Z.of_nat i) e p (acc (eid e)) (length_ st) off n); auto.
  2:{ unfold get_data_ptr_at. rewrite He, Hps. simpl default. unfold arg_cnt_.
      destruct (Z.leb_spec 0 (Z.of_nat i)), (Z.ltb_spec (Z.of_nat i) (Z.of_nat (length (args_ u)))); try lia.
      simpl. rewrite rd_nat, Hp. reflexivity. }
  cbn [mbind option_bind]. change (OB_FAIL OB_SUCCESS) with false. cbn iota.
  replace (Z.of_nat i + 1) with (Z.of_nat (S i)) by lia.
  rewrite (IH (S i) ps') by (auto; lia). reflexivity.
Qed.

(** [wrap_input_numpy] gives the rows [idx, idx + eval_size) of every argument. *)
Lemma wrap_input_ok c u acc n L w off d :
  cell_inv c u acc n L -> PyTuple_New_ok (w_py w) (arg_cnt_ u) = true -> utf8_args u acc ->
  0 < d -> Z.of_nat off < n ->
  let ev := Z.min d (n - Z.of_nat off) in
  wrap_input_numpy c w (Z.of_nat off) d
  = Some (OB_SUCCESS, map Some (map (np_slice off (Z.to_nat ev)) (arg_arrays u acc)), ev).
Proof.
  intros [He [Hx (ps & Hps & H3) Hrows Hsv Hr Hin Ha] HL] Htup Hutf Hd Hoff ev.
  unfold wrap_input_numpy. rewrite He, Htup, Hsv.
  assert ((if Z.of_nat off + d <? n then d else n - Z.of_nat off) = ev) as ->.
  { unfold ev. destruct (Z.ltb_spec (Z.of_nat off + d) n); lia. }
  assert (Forall (fun e => (off + Z.to_nat ev <= length (acc (eid e)))%nat) (args_ u)) as Hl.
  { rewrite Forall_map in Hrows. eapply Forall_impl; [exact Hrows |].
    intros e Hle. simpl in Hle. unfold ev. lia. }
  pose proof (wrap_args_ok (c_store c) u acc ps off (Z.to_nat ev) 0 (args_ u) ps
                Hx Hps (Nat.le_refl _) eq_refl H3 Hl Hutf) as Hw.
  rewrite Z2Nat.id in Hw by (unfold ev; lia). change (Z.of_nat 0) with 0 in Hw. rewrite Hw.
  cbn [mbind option_bind]. unfold arg_arrays. now rewrite !map_map.
Qed.

(** ** Processing *)

Context `{!PyLaws _}.

Definition row_result (f : list (option ArgVal) -> PyItem) (u : ObUdfExpr)
    (acc : Z -> list bytes) (k : nat) : PyItem := f (row_at (arg_arrays u acc) k).

(** The results of the first [idx] rows are in the cell. *)
Definition results_upto (c : ObPythonUDFCell) (res : nat -> PyItem) (d : dtype_t) (idx : nat) : Prop :=
  c_result_size c = Z.of_nat idx
  /\ match c_result_store c with
     | None => idx = 0%nat
     | Some o => dtype o = d /\ items o = map res (seq 0 idx)
     end.

(** What processing [r] rows may change outside the cell: the interpreter, the
    clock, and the batch-size state of this expression, whose size only grows as
    long as the [int] has room for a step per row. *)
Record world_step (i r : Z) (w w' : World) : Prop := mkWorldStep
  { ws_ctx : w_ctx w' = w_ctx w;
    ws_py : py_ok (w_py w) -> py_ok (w_py w');
    ws_info : forall info, w_infos w !! i = Some info ->
      exists info', w_infos w' !! i = Some info' /\ same_params info info'
        /\ (0 < predict_size info -> 0 <= delta info -> forall k, 0 <= k -> size_fits info (k + r) ->
            predict_size info <= predict_size info' /\ size_fits info' k);
    ws_other : forall j, j <> i -> w_infos w' !! j = w_infos w !! j }.

Lemma world_step_refl i w : world_step i 0 w w.
Proof.
  constructor; auto. intros info Hi. exists info. split; [exact Hi |].
  split; [reflexivity |]. intros _ _ k _. rewrite Z.add_0_r. split; [lia | assumption].
Qed.

Lemma world_step_trans i r1 r2 w1 w2 w3 : 0 <= r1 -> 0 <= r2 ->
  world_step i r1 w1 w2 -> world_step i r2 w2 w3 -> world_step i (r1 + r2) w1 w3.
Proof.
  intros Hr1 Hr2 [Hc1 Hp1 Hi1 Ho1] [Hc2 Hp2 Hi2 Ho2]. constructor; [congruence | auto | |].
  - intros info Hi. destruct (Hi1 info Hi) as (j & Hj & Hs & Hle).
    destruct (Hi2 j Hj) as (k & Hk & Hs' & Hle'). exists k. split; [exact Hk |].
    split; [now transitivity j |]. intros Hp Hd c Hc Hf. pose proof Hs as (_ & _ & _ & _ & _ & Hdl).
    rewrite Hdl in Hle'. destruct (Hle Hp Hd (c + r2) ltac:(lia)) as [Hle1 Hf1]; [now rewrite <- Z.add_assoc, (Z.add_comm r2) |].
    destruct (Hle' ltac:(lia) Hd c Hc Hf1). split; [lia | assumption].
  - intros j Hj. rewrite Ho2, Ho1 by exact Hj. reflexivity.
Qed.

Lemma mapM_id_Some {A} (l : list A) : mapM id (map Some l) = Some l.
Proof. induction l as [| x l IH]; simpl; [reflexivity |]. now rewrite IH. Qed.

Lemma map_seq_off {A} (g : nat -> A) off n :
  map g (seq off n) = map (fun k => g (off + k)%nat) (seq 0 n).
Proof. induction n as [| n IH]; [reflexivity |]. now rewrite !seq_S, !map_app, IH. Qed.

(** Evaluating one slice adds its results. *)
Lemma cell_eval_ok c u f w info off n d :
  c_expr c = u -> w_infos w !! eid (u_expr u) = Some info -> py_ok (w_py w) ->
  (forall s args m, py_ok s -> (0 < m)%nat -> args <> [] -> Forall (fun a => np_len a = m) args ->
     find_pyfun s (pyfun_handler (name_ info)) = true
     /\ exists s' o, PyObject_CallObject s (pyfun_handler (name_ info)) args = (s', Some o)
          /\ py_ok s' /\ dtype o = d /\ items o = map (fun k => f (row_at args k)) (seq 0 m)) ->
  args_ u <> [] -> forall acc, (0 < n)%nat ->
  Forall (fun e => (off + n <= length (acc (eid e)))%nat) (args_ u) ->
  results_upto c (row_result f u acc) d off ->
  exists c' w', cell_eval c w (map (np_slice off n) (arg_arrays u acc)) (Z.of_nat n)
                = Some (OB_SUCCESS, c', w')
    /\ results_upto c' (row_result f u acc) d (off + n)
    /\ c_store c' = c_store c /\ c_expr c' = u /\ c_desirable c' = c_desirable c
    /\ c_batch_size c' = c_batch_size c
    /\ world_step (eid (u_expr u)) 0 w w' /\ w_infos w' = w_infos w /\ py_ok (w_py w').
Proof.
  intros He Hi Hpy Hf Ha acc Hn Hlen [Hrs Hro].
  set (args := map (np_slice off n) (arg_arrays u acc)).
  destruct (Hf (w_py w) args n Hpy Hn) as (Hfind & s' & o & Hcall & Hpy' & Hdt & Hit).
  { unfold args, arg_arrays. destruct (args_ u); [contradiction | discriminate]. }
  { unfold args, arg_arrays. rewrite !Forall_map. eapply Forall_impl; [exact Hlen |].
    intros e Hl. cbn beta in Hl |- *. unfold np_len. rewrite np_slice_vals, length_take, length_drop.
    pose proof (arg_cells_len (arg_cls e) (acc (eid e))) as Hc. unfold np_len in Hc. lia. }
  assert (items o = map (row_result f u acc) (seq off n)) as Hit'.
  { rewrite Hit, (map_seq_off _ off). apply map_ext_in. intros k Hk. apply in_seq in Hk.
    unfold args. rewrite row_at_slice by lia. reflexivity. }
  unfold cell_eval. rewrite He, Hi. cbn [mbind option_bind]. rewrite Hfind. cbn [negb]. cbn iota.
  rewrite Hcall.
  assert (world_step (eid (u_expr u)) 0 w (set_py w s')) as Hws.
  { constructor; auto. intros info' Hi'. exists info'. split; [exact Hi' |]. split; [reflexivity |].
    intros _ _ k _. rewrite Z.add_0_r. split; [lia | assumption]. }
  destruct (c_result_store c) as [old |].
  - destruct Hro as [Hdo Hio].
    assert (dtype old = dtype o) as Hdd by congruence.
    destruct (concat_items old o Hdd) as (r & Er & Hdr & Hir). rewrite Er.
    eexists _, _. split; [reflexivity |]. split; [| auto 10].
    split; simpl; [lia |]. split; [congruence |].
    rewrite Hir, Hio, Hit', seq_app, map_app. reflexivity.
  - subst off. eexists _, _. split; [reflexivity |]. split; [| auto 10].
    split; simpl; [lia |]. split; [exact Hdt |]. rewrite Hit'. reflexivity.
Qed.

(** The loop: from row [off] on, with fuel for one round per row. *)
Lemma process_loop_ok f fuel : forall c u acc n L w info off d,
  cell_inv c u acc n L -> w_infos w !! eid (u_expr u) = Some info ->
  0 < predict_size info -> 0 <= delta info -> 0 < c_desirable c -> py_ok (w_py w) ->
  (forall s args m, py_ok s -> (0 < m)%nat -> args <> [] -> Forall (fun a => np_len a = m) args ->
     find_pyfun s (pyfun_handler (name_ info)) = true
     /\ exists s' o, PyObject_CallObject s (pyfun_handler (name_ info)) args = (s', Some o)
          /\ py_ok s' /\ dtype o = d /\ items o = map (fun k => f (row_at args k)) (seq 0 m)) ->
  utf8_args u acc -> Z.of_nat off <= n -> n <= Z.of_nat off + Z.of_nat fuel ->
  size_fits info (n - Z.of_nat off) ->
  results_upto c (row_result f u acc) d off ->
  exists c' w', process_loop fuel c w (Z.of_nat off) = Some (OB_SUCCESS, c', w')
    /\ results_upto c' (row_result f u acc) d (Z.to_nat n)
    /\ cell_inv c' u acc n L /\ 0 < c_desirable c' /\ c_batch_size c' = c_batch_size c
    /\ world_step (eid (u_expr u)) (n - Z.of_nat off) w w' /\ py_ok (w_py w').
Proof.
  induction fuel as [| fuel IH];
    intros c u acc n L w info off d Hinv Hi Hp Hdel Hdes Hpy Hf Hutf Hoff Hfuel Hfit Hres;
    pose proof Hinv as [He Hst HL]; pose proof Hst as [_ _ Hrows Hsv Hr _ Ha];
    cbn [process_loop]; rewrite Hsv; destruct (Z.ltb_spec (Z.of_nat off) n).
  - lia.
  - exists c, w. replace (Z.to_nat n) with off by lia. replace (n - Z.of_nat off) with 0 by lia. auto 10 using world_step_refl.
  - unfold gettimeofday at 1. cbn iota beta.
    set (w1 := mkWorld (w_py w) (w_clock w) (S (w_tick w)) (w_infos w) (w_ctx w)).
    set (ev := Z.min (c_desirable c) (n - Z.of_nat off)).
    pose proof (wrap_input_ok c u acc n L w1 off (c_desirable c) Hinv
                  (py_tuple (w_py w1) _ Hpy) Hutf Hdes ltac:(lia)) as Hwrap.
    cbv zeta in Hwrap. fold ev in Hwrap. rewrite Hwrap. cbn [mbind option_bind].
    change (OB_FAIL OB_SUCCESS) with false. cbn iota. rewrite mapM_id_Some. cbn [mbind option_bind].
    assert (Forall (fun e => (off + Z.to_nat ev <= length (acc (eid e)))%nat) (args_ u)) as Hl.
    { rewrite Forall_map in Hrows. eapply Forall_impl; [exact Hrows |].
      intros e Hle. cbn beta in *. unfold ev. lia. }
    assert (0 < Z.to_nat ev)%nat as Hev by (unfold ev; lia).
    destruct (cell_eval_ok c u f w1 info off (Z.to_nat ev) d He Hi Hpy Hf Ha acc Hev Hl Hres)
      as (c2 & w2 & E2 & Hres2 & Hst2 & He2 & Hd2 & Hb2 & Hws2 & Hi2 & Hpy2).
    rewrite Z2Nat.id in E2 by (unfold ev; lia). rewrite E2. cbn [mbind option_bind].
    change (OB_FAIL OB_SUCCESS) with false. cbn iota. unfold gettimeofday. cbn iota beta.
    rewrite He2. cbn [w_infos]. rewrite Hi2. cbn [w_infos w1].
    rewrite Hi. cbn [mbind option_bind].
    set (info' := modify_desirable info _ _ ev).
    pose proof (modify_same_params info) as Hsp.
    assert (same_params info info') as Hsp' by apply Hsp. clear Hsp.
    assert (forall k, 0 <= k -> size_fits info (k + ev) ->
      (predict_size info' = predict_size info \/ predict_size info' = predict_size info + delta info) /\ size_fits info' k) as Hps.
    { intros k Hk Hfk. apply (modify_fits info); auto. unfold size_fits in *. assert (1 <= ev) by (unfold ev; lia). nia. }
    destruct (Hps (n - Z.of_nat (off + Z.to_nat ev))) as [Hgrow Hfit'];
      [unfold ev; lia | replace (_ + ev) with (n - Z.of_nat off) by (unfold ev; lia); exact Hfit |].
    set (w3 := set_infos _ _).
    assert (world_step (eid (u_expr u)) ev w w3) as Hws3.
    { constructor.
      - simpl. apply Hws2.
      - intros Hpy0. simpl. exact Hpy2.
      - intros info0 Hi0. assert (info0 = info) as -> by congruence.
        exists info'. split; [apply lookup_insert_eq |]. split; [exact Hsp' |].
        intros _ _ k Hk Hfk. destruct (Hps k Hk Hfk). split; [lia | assumption].
      - intros j Hj. simpl. rewrite lookup_insert_ne by auto. reflexivity. }
    destruct (IH (set_desirable c2 (predict_size info')) u acc n L w3 info' (off + Z.to_nat ev)%nat d)
      as (c' & w' & E' & Hres' & Hinv' & Hdes' & Hb' & Hws' & Hpy').
    + constructor; simpl; [exact He2 | now rewrite Hst2 | now rewrite Hst2].
    + apply lookup_insert_eq.
    + lia.
    + destruct Hsp' as (_ & _ & _ & _ & _ & ->). exact Hdel.
    + simpl. lia.
    + exact Hpy2.
    + destruct Hsp' as (-> & _). exact Hf.
    + exact Hutf.
    + unfold ev. lia.
    + unfold ev in *. lia.
    + exact Hfit'.
    + exact Hres2.
    + exists c', w'. replace (Z.of_nat off + ev) with (Z.of_nat (off + Z.to_nat ev)) by (unfold ev; lia).
      split; [exact E' |]. split; [exact Hres' |]. split; [exact Hinv' |]. split; [exact Hdes' |].
      split; [rewrite Hb'; exact Hb2 |]. split; [| exact Hpy'].
      replace (n - Z.of_nat off) with (ev + (n - Z.of_nat (off + Z.to_nat ev))) by (unfold ev; lia).
      eapply world_step_trans; eauto; unfold ev; lia.
  - exists c, w. replace (Z.to_nat n) with off by lia. replace (n - Z.of_nat off) with 0 by lia. auto 10 using world_step_refl.
Qed.

(** The contract of the user function of [u]. *)
Definition udf_contract (w : World) (u : ObUdfExpr) (f : list (option ArgVal) -> PyItem) : Prop :=
  exists info, w_infos w !! eid (u_expr u) = Some info /\ 0 < predict_size info
    /\ 0 <= delta info /\ row_function (pyfun_handler (name_ info)) f.

Lemma do_process_ok c u acc n L w f :
  cell_inv c u acc n L -> udf_contract w u f -> 0 < c_desirable c -> py_ok (w_py w) ->
  utf8_args u acc -> (forall info, w_infos w !! eid (u_expr u) = Some info -> size_fits info n) ->
  exists c' w' d, do_process c w = Some (OB_SUCCESS, c', w')
    /\ results_upto c' (row_result f u acc) d (Z.to_nat n)
    /\ cell_inv c' u acc n L /\ 0 < c_desirable c' /\ c_batch_size c' = c_batch_size c
    /\ world_step (eid (u_expr u)) n w w' /\ py_ok (w_py w').
Proof.
  intros Hinv (info & Hi & Hp & Hdel & (d & Hf)) Hdes Hpy Hutf Hfit. unfold do_process.
  pose proof Hinv as [He Hst HL]. pose proof Hst as [_ _ _ Hsv Hr _ _].
  destruct (process_loop_ok f (Z.to_nat (saved_size_ (c_store c))) (set_result c 0 None) u acc n L w info 0 d)
    as (c' & w' & E & Hres & Hrest); auto; try lia.
  - constructor; simpl; auto.
  - rewrite Z.sub_0_r. now apply Hfit.
  - split; reflexivity.
  - rewrite Z.sub_0_r in Hrest. exists c', w', d. auto.
Qed.

(** The other strategy, one call on everything saved, gives the same results. *)
Lemma do_process_all_ok c u acc n L w f :
  cell_inv c u acc n L -> udf_contract w u f -> py_ok (w_py w) -> utf8_args u acc -> 0 < n ->
  exists c' w' d, do_process_all c w = Some (OB_SUCCESS, c', w')
    /\ results_upto c' (row_result f u acc) d (Z.to_nat n) /\ py_ok (w_py w').
Proof.
  intros Hinv (info & Hi & Hp & Hdel & (d & Hf)) Hpy Hutf Hn. unfold do_process_all.
  pose proof Hinv as [He Hst HL]. pose proof Hst as [_ _ Hrows Hsv Hr _ Ha].
  set (c0 := set_result c 0 None). assert (cell_inv c0 u acc n L) as Hinv0 by (constructor; assumption).
  pose proof (wrap_input_ok c0 u acc n L w 0 n Hinv0 (py_tuple (w_py w) _ Hpy) Hutf Hn ltac:(lia)) as Hw.
  cbv zeta in Hw. change (Z.of_nat 0) with 0 in Hw. rewrite Z.sub_0_r, Z.min_id in Hw.
  change (saved_size_ (c_store c0)) with (saved_size_ (c_store c)). rewrite Hsv, Hw.
  cbn [mbind option_bind]. change (OB_FAIL OB_SUCCESS) with false. cbn iota. rewrite mapM_id_Some.
  cbn [mbind option_bind].
  destruct (cell_eval_ok c0 u f w info 0 (Z.to_nat n) d He Hi Hpy Hf Ha acc ltac:(lia))
    as (c1 & w1 & E & Hres & _ & _ & _ & _ & _ & _ & Hpy1).
  { rewrite Forall_map in Hrows. eapply Forall_impl; [exact Hrows |]. intros e Hle. cbn beta in *. lia. }
  { split; reflexivity. }
  rewrite Z2Nat.id in E by lia. rewrite E. cbn [mbind option_bind].
  change (OB_FAIL OB_SUCCESS) with false. cbn iota. exists c1, w1, d. auto.
Qed.

(** ** Restoring *)

(** The result expression: its type agrees with the declared return type. *)
Definition result_expr (e : ObExpr) (ret : PyUdfRetType) (cls : ArgClass) : Prop :=
  rich_format e = true /\ arg_class (datum_type e) = Some cls
  /\ match cls with
     | ArgStr => ret = STRING /\ var_expr e
     | ArgInt => ret = INTEGER /\ fixed_expr e /\ res_buf_len_ e = 8
     | ArgDouble => ret = REAL /\ fixed_expr e /\ res_buf_len_ e = 8
     end.

Lemma restore_loop_write o its n i cls m off :
  items o = its -> 0 <= i -> 0 <= off -> off + i + Z.of_nat n <= Z.of_nat (length its) ->
  restore_loop n i cls o off m
  = write_cells (set_item cls) m i (map (item_bytes cls) (take n (drop (Z.to_nat (off + i)) its))).
Proof.
  intros Hit. revert i m. induction n as [| n IH]; intros i m Hi Ho Hle; [reflexivity |].
  destruct (lookup_lt_is_Some_2 its (Z.to_nat (off + i)) ltac:(lia)) as [x Hx].
  cbn [restore_loop]. rewrite getitem_items, Hit.
  rewrite (proj2 (rd_Some its (off + i) x)) by (split; [lia | exact Hx]).
  rewrite (drop_S its x _ Hx). cbn [mbind option_bind take map write_cells].
  destruct (set_item cls m i (item_bytes cls x)) as [m' |]; [| reflexivity].
  cbn [mbind option_bind]. rewrite IH by lia. do 5 f_equal. lia.
Qed.

Lemma result_expr_batch e ret cls : result_expr e ret cls -> batch_expr e.
Proof. intros (_ & _ & Hc). destruct cls; [right | left | left]; apply Hc. Qed.

Lemma item_bytes_room e ret cls it m :
  result_expr e ret cls -> cls <> ArgStr -> cell_fits m (res_buf_len_ e) (item_bytes cls it).
Proof.
  intros (_ & _ & Hc) Hne. unfold cell_fits.
  destruct cls; [contradiction | |]; destruct Hc as (_ & _ & ->); simpl; split; intros; lia.
Qed.

(** The format the return type selects is the default one of the expression. *)
Lemma result_expr_format e ret cls :
  result_expr e ret cls ->
  match ret with
  | STRING => (OB_SUCCESS, VEC_DISCRETE)
  | INTEGER | REAL => (OB_SUCCESS, VEC_FIXED)
  | _ => (OB_NOT_SUPPORTED, VEC_INVALID)
  end = (OB_SUCCESS, get_default_res_format e).
Proof.
  intros (_ & _ & Hc). unfold get_default_res_format.
  destruct cls; destruct Hc as (-> & Hc); [| destruct Hc as [Hc _] | destruct Hc as [Hc _]];
    destruct Hc as (-> & -> & Hty & _); simpl;
    (destruct (decide (datum_type e = ObNullType)); [contradiction | reflexivity]).
Qed.

(** [do_restore_vector]: the results of rows [off, off + k) become the rows of
    the expression. *)
Lemma restore_vector_ok c u info cls m o its off k :
  c_expr c = u -> result_expr (u_expr u) (ret_ info) cls ->
  c_result_store c = Some o -> items o = its ->
  cap (u_expr u) N m -> udatums_ m = None ->
  0 <= off -> 0 <= k <= c_batch_size c -> c_batch_size c <= N -> off + k <= Z.of_nat (length its) ->
  exists m', do_restore_vector c info m off k = Some (OB_SUCCESS, m')
    /\ column m' (map (item_bytes cls) (take (Z.to_nat k) (drop (Z.to_nat off) its)))
    /\ cap (u_expr u) N m' /\ udatums_ m' = None.
Proof.
  intros He Hre Hro Hit Hcap Hu Hoff Hk HN Hle.
  set (e := u_expr u) in *. set (bs := map (item_bytes cls) _).
  assert (Z.of_nat (length bs) = k) as Hbl
    by (unfold bs; rewrite length_map, length_take, length_drop; lia).
  destruct (init_writable e m N (c_batch_size c) (result_expr_batch _ _ _ Hre) Hcap ltac:(lia))
    as (m1 & E1 & Hw & Hcap1 & _ & Hfm & Hu1).
  assert (exists m', write_cells (set_item cls) m1 0 bs = Some m' /\ same_shape m1 m'
            /\ forall i c, bs !! i = Some c -> holds m' (Z.of_nat i) c) as (m' & E' & Hs' & Hh').
  { destruct (decide (cls = ArgStr)) as [-> | Hne].
    - destruct (write_strings_ok (c_batch_size c) m1 0 bs []) as (m' & E' & Hs' & Hh'); auto; try lia.
      + destruct Hw as [Hn _ _ [(Ef & _) | (Ef & Hl & Hp)]].
        * rewrite Ef in Hfm. destruct Hre as (_ & _ & _ & (Hb & Hfx & Hty & _)).
          unfold get_default_res_format in Hfm. rewrite Hb, Hfx in Hfm. simpl in Hfm.
          destruct (decide _); discriminate.
        * split; [exact Ef |]. destruct Hcap1 as (_ & _ & Hpl & _). split; [lia |]. split; [lia | exact Hn].
      + intros i x Hx. now rewrite lookup_nil in Hx.
      + exists m'. auto.
    - destruct (write_cells_ok (c_batch_size c) (res_buf_len_ e) m1 0 bs [])
        as (m' & E' & _ & Hs' & Hh'); auto; try lia.
      + apply Forall_map, Forall_true. intros it. eapply item_bytes_room; eauto.
      + intros i x Hx. now rewrite lookup_nil in Hx.
      + exists m'. destruct cls; [contradiction | |]; auto. }
  exists m'. split.
  { unfold do_restore_vector. rewrite He. fold e. rewrite (result_expr_format _ _ _ Hre).
    cbn [mbind option_bind]. unfold init_vector_for_write. rewrite E1. cbn [mbind option_bind].
    change (OB_FAIL OB_SUCCESS) with false. cbn iota.
    destruct Hre as (_ & -> & _). rewrite Hro. cbn [mbind option_bind].
    rewrite (restore_loop_write o its) by (assumption || lia). rewrite Z.add_0_r. fold bs.
    rewrite E'. reflexivity. }
  pose proof Hs' as (_ & Hf' & Hd' & Hu' & _).
  split; [| split; [now apply (same_shape_cap e N m1) | congruence]].
  split; [| split; [congruence | split; [| exact Hh']]].
  - rewrite Hf'. destruct Hw as [_ _ _ [(-> & _) | (-> & _)]]; unfold column_format; auto.
  - rewrite Hd'. destruct Hcap1 as (_ & Hdl & _). lia.
Qed.

Lemma do_restore_ok c u w info cls o its off k m :
  c_expr c = u -> w_infos w !! eid (u_expr u) = Some info ->
  result_expr (u_expr u) (ret_ info) cls ->
  c_result_store c = Some o -> items o = its -> c_result_size c = Z.of_nat (length its) ->
  w_ctx w !! eid (u_expr u) = Some m -> cap (u_expr u) N m -> udatums_ m = None ->
  0 <= off -> 0 <= k <= c_batch_size c -> c_batch_size c <= N -> off + k <= Z.of_nat (length its) ->
  exists m', do_restore c w off k = Some (OB_SUCCESS, set_ctx w (<[eid (u_expr u) := m']> (w_ctx w)))
    /\ column m' (map (item_bytes cls) (take (Z.to_nat k) (drop (Z.to_nat off) its)))
    /\ cap (u_expr u) N m' /\ udatums_ m' = None /\ evaluated_ m' = true /\ projected_ m' = true.
Proof.
  intros He Hi Hre Hro Hit Hrs Hm Hcap Hu Hoff Hk HN Hle.
  destruct (restore_vector_ok c u info cls m o its off k) as (m' & E & Hcol & Hcap' & Hu'); auto.
  exists (with_flags m' true true (eval_flags_ m')). split.
  { unfold do_restore. rewrite He, Hrs. destruct (Z.ltb_spec (Z.of_nat (length its)) (off + k)); [lia |].
    rewrite Hm. cbn [mbind option_bind]. destruct Hre as (-> & _). rewrite Hi. cbn [mbind option_bind].
    rewrite E. reflexivity. }
  split; [exact Hcol |]. split; [exact Hcap' |]. auto.
Qed.
End Cells.
