(* ===== verification/PUOp.v ===== *)
(** The Python UDF operator: [ObPUStoreController], which drives the buffers and
    the cells, and [ObPythonUDFOp], which pulls batches from its child
    ([src/src/sql/engine/python_udf_engine/ob_python_udf_op.cpp] and [.h]).

    The child is the sequence of results its [get_next_batch] will return; a
    result is an error code, or a batch with the new content of the slots the
    child writes.  After the last one the child reports its end. *)
From S2P Require Import Prelude PopCount BitVector Frame FixedArray PyApi BatchSize PUStore.
From S2P Require Import PUCell.

(** [static bool with_batch_control_ = true]. *)
Definition with_batch_control_ : bool := true.

Section Op.
Context `{Allocator} `{PyApi}.

(** ** [ObPUStoreController] *)

Record Controller := mkCtl
  { cells_list_ : list ObPythonUDFCell; other_store_ : ObColInputStore;
    capacity_ : Z; desirable_ : Z; stored_input_cnt_ : Z; stored_output_cnt_ : Z;
    output_idx_ : Z; batch_size_ : Z }.

Definition ctl_new : Controller := mkCtl [] col_empty DEFAULT_PU_LENGTH 0 0 0 0 256.

Definition set_cells (k : Controller) (cs : list ObPythonUDFCell) : Controller :=
  mkCtl cs (other_store_ k) (capacity_ k) (desirable_ k) (stored_input_cnt_ k)
    (stored_output_cnt_ k) (output_idx_ k) (batch_size_ k).
Definition set_other (k : Controller) (o : ObColInputStore) : Controller :=
  mkCtl (cells_list_ k) o (capacity_ k) (desirable_ k) (stored_input_cnt_ k)
    (stored_output_cnt_ k) (output_idx_ k) (batch_size_ k).
Definition set_counts (k : Controller) (i o x : Z) : Controller :=
  mkCtl (cells_list_ k) (other_store_ k) (capacity_ k) (desirable_ k) i o x (batch_size_ k).

(** The loop of [init] over the UDF expressions.  The cell's own allocation is
    not checked by the code and is taken to succeed. *)
Fixpoint init_cells (us : list ObUdfExpr) (batch_size capacity : Z)
    (infos : gmap Z ObPythonUdfInfo) (cs : list ObPythonUDFCell)
    : option (Z * list ObPythonUDFCell) :=
  match us with
  | [] => Some (OB_SUCCESS, cs)
  | u :: us' =>
      '(ret, c) ← cell_init u batch_size capacity infos;
      match c with
      | Some c => init_cells us' batch_size capacity infos (cs ++ [c])
      | None => Some (OB_INIT_FAIL, cs)
      end
  end.

Definition ctl_init (k : Controller) (batch_size : Z) (us : list ObUdfExpr)
    (input_exprs : list ObExpr) (infos : gmap Z ObPythonUdfInfo) : option (Z * Controller) :=
  '(ret, cs) ← init_cells us batch_size (capacity_ k) infos (cells_list_ k);
  let k := set_cells k cs in
  if OB_SUCC ret then
    let '(ret, o) := col_init (other_store_ k) input_exprs batch_size (capacity_ k) in
    let k := set_other k o in
    if OB_FAIL ret then Some (OB_INIT_FAIL, k)
    else Some (ret, mkCtl (cells_list_ k) (other_store_ k) (capacity_ k) (desirable_ k) 0 0 0 batch_size)
  else Some (ret, k).

(** A loop over the cells that stops at the first error, with the code [err]. *)
Fixpoint each_cell (f : ObPythonUDFCell -> Z * ObPythonUDFCell) (err : Z)
    (cs : list ObPythonUDFCell) : Z * list ObPythonUDFCell :=
  match cs with
  | [] => (OB_SUCCESS, [])
  | c :: cs' =>
      let '(ret, c) := f c in
      if OB_FAIL ret then (err, c :: cs')
      else let '(ret, cs') := each_cell f err cs' in (ret, c :: cs')
  end.

Definition ctl_free (k : Controller) : Z * Controller :=
  let '(ret, cs) := each_cell cell_free OB_NOT_SUPPORTED (cells_list_ k) in
  let k := set_cells k cs in
  if OB_SUCC ret then
    let '(ret, o) := col_free (other_store_ k) in
    if OB_FAIL ret then (OB_NOT_SUPPORTED, set_other k o)
    else (ret, set_counts (set_other k o) 0 0 0)
  else (ret, k).

Fixpoint store_cells (cs : list ObPythonUDFCell) (ctx : ObEvalCtx) (brs : ObBatchRows)
    : option (Z * list ObPythonUDFCell * ObEvalCtx) :=
  match cs with
  | [] => Some (OB_SUCCESS, [], ctx)
  | c :: cs' =>
      '(ret, c, ctx) ← do_store c ctx brs;
      if OB_FAIL ret then Some (OB_ERR_UNEXPECTED, c :: cs', ctx)
      else '(ret, cs', ctx) ← store_cells cs' ctx brs; Some (ret, c :: cs', ctx)
  end.

Definition ctl_store (k : Controller) (w : World) (brs : ObBatchRows)
    : option (Z * Controller * World) :=
  let cnt := active_cnt brs in
  '(ret, cs, ctx) ← store_cells (cells_list_ k) (w_ctx w) brs;
  let k := set_cells k cs in
  let w := set_ctx w ctx in
  if OB_SUCC ret then
    '(ret, o) ← col_save_vector (other_store_ k) (w_ctx w) brs;
    let k := set_other k o in
    if OB_FAIL ret then Some (OB_ERR_UNEXPECTED, k, w)
    else Some (ret, set_counts k (stored_input_cnt_ k + cnt) (stored_output_cnt_ k) (output_idx_ k), w)
  else Some (ret, k, w).

Definition is_full (k : Controller) : bool :=
  desirable_ k * (BUFFER_MAG - 1) <? stored_input_cnt_ k.
Definition is_empty (k : Controller) : bool := stored_input_cnt_ k =? 0.
Definition can_output (k : Controller) : bool := output_idx_ k <? stored_output_cnt_ k.
Definition end_output (k : Controller) : bool := output_idx_ k =? stored_output_cnt_ k.

(** [get_desirable]: the largest size a cell asks for, kept as a running
    maximum.  Its C++ type is [int]. *)
Definition get_desirable (k : Controller) : Z * Controller :=
  let d := fold_left (fun d c => Z.max d (c_desirable c)) (cells_list_ k) (desirable_ k) in
  (d, mkCtl (cells_list_ k) (other_store_ k) (capacity_ k) d (stored_input_cnt_ k)
        (stored_output_cnt_ k) (output_idx_ k) (batch_size_ k)).

(** One cell of [process]. *)
Definition process_cell (n : Z) (c : ObPythonUDFCell) (w : World)
    : option (Z * ObPythonUDFCell * World) :=
  if negb (get_store_size c =? n) then Some (OB_ERR_UNEXPECTED, c, w)
  else
    '(ret, c, w) ← (if with_batch_control_ then do_process c w else do_process_all c w);
    if OB_FAIL ret then Some (OB_ERR_UNEXPECTED, c, w)
    else if negb (c_result_size c =? n) then Some (OB_ERR_UNEXPECTED, c, w)
    else Some (ret, (reset_input_store c).2, w).

Fixpoint process_cells (n : Z) (cs : list ObPythonUDFCell) (w : World)
    : option (Z * list ObPythonUDFCell * World) :=
  match cs with
  | [] => Some (OB_SUCCESS, [], w)
  | c :: cs' =>
      '(ret, c, w) ← process_cell n c w;
      if OB_FAIL ret then Some (ret, c :: cs', w)
      else '(ret, cs', w) ← process_cells n cs' w; Some (ret, c :: cs', w)
  end.

Definition ctl_process (k : Controller) (w : World) : option (Z * Controller * World) :=
  if is_empty k then Some (OB_SUCCESS, k, w)
  else
    '(ret, cs, w) ← process_cells (stored_input_cnt_ k) (cells_list_ k) w;
    let k := set_cells k cs in
    if OB_SUCC ret then Some (ret, set_counts k 0 (stored_input_cnt_ k) 0, w)
    else Some (ret, k, w).

Fixpoint restore_cells (cs : list ObPythonUDFCell) (w : World) (output_idx output_size : Z)
    : option (Z * World) :=
  match cs with
  | [] => Some (OB_SUCCESS, w)
  | c :: cs' =>
      '(ret, w) ← do_restore c w output_idx output_size;
      if OB_FAIL ret then Some (OB_ERR_UNEXPECTED, w)
      else restore_cells cs' w output_idx output_size
  end.

Definition ctl_restore (k : Controller) (w : World) (brs : ObBatchRows) (max_row_cnt : Z)
    : option (Z * Controller * World * ObBatchRows) :=
  if (stored_output_cnt_ k <=? 0) || negb (can_output k) then Some (OB_SUCCESS, k, w, brs)
  else
    let output_size := Z.min max_row_cnt (stored_output_cnt_ k - output_idx_ k) in
    '(ret, w) ← restore_cells (cells_list_ k) w (output_idx_ k) output_size;
    '(ret, k, w, brs) ←
      (if OB_SUCC ret then
         '(ret, o, ctx) ← col_load_vector (other_store_ k) (w_ctx w) output_size;
         let k := set_other k o in
         let w := set_ctx w ctx in
         if OB_FAIL ret then Some (OB_ERR_UNEXPECTED, k, w, brs)
         else
           let k := set_counts k (stored_input_cnt_ k) (stored_output_cnt_ k)
                      (output_idx_ k + output_size) in
           let brs := mkBrs (skip_ brs) output_size (end_ brs) (all_rows_active_ brs) in
           let brs := reset_skip brs output_size in
           Some (ret, k, w, mkBrs (skip_ brs) (size_ brs) false (all_rows_active_ brs))
       else Some (ret, k, w, brs));
    if OB_SUCC ret && end_output k
    then Some (ret, set_other k (col_reuse (other_store_ k)).2, w, brs)
    else Some (ret, k, w, brs).

Definition ctl_resize (k : Controller) (size : Z) : Z * Controller :=
  let '(ret, cs) := each_cell (fun c => cell_reset c size) OB_ERR_UNEXPECTED (cells_list_ k) in
  let k := set_cells k cs in
  let '(ret, k) :=
    if OB_SUCC ret then let '(ret, o) := col_reset (other_store_ k) size in (ret, set_other k o)
    else (ret, k) in
  (ret, set_counts k 0 0 0).

(** ** [ObPythonUDFOp] *)

Inductive ChildResult := ChildErr (code : Z) | ChildBatch (brs : ObBatchRows) (cols : ObEvalCtx).

Definition child_end : ChildResult := ChildBatch (mkBrs [] 0 true false) ∅.

(** [child_->get_next_batch]: the next result, and what remains. *)
Definition child_next (script : list ChildResult) : ChildResult * list ChildResult :=
  match script with [] => (child_end, []) | r :: script' => (r, script') end.

Record ObPythonUDFSpec := mkSpec
  { max_batch_size_ : Z; udf_exprs_ : list ObUdfExpr; input_exprs_ : list ObExpr;
    calc_exprs_ : list Z; filters_ : list Z }.

(** The operator, the world it runs in, and whether the calling thread holds
    the interpreter lock. *)
Record OpState := mkOp
  { o_ctl : Controller; o_brs : ObBatchRows; o_world : World; o_child : list ChildResult;
    o_gil : bool }.

(** [ObOperator::clear_evaluated_flag]: the flags of the expressions this
    operator calculates. *)
Definition clear_flags (ids : list Z) (ctx : ObEvalCtx) : ObEvalCtx :=
  fold_left (fun ctx i =>
    match ctx !! i with
    | Some m => <[i := with_flags m false false (eval_flags_ m)]> ctx
    | None => ctx
    end) ids ctx.

(** The reset of the filters: the flag of row 0, then the expression's flags. *)
Definition clear_filters (ids : list Z) (ctx : ObEvalCtx) : ObEvalCtx :=
  fold_left (fun ctx i =>
    match ctx !! i with
    | Some m => <[i := with_flags m false false (ObBitVector.unset (eval_flags_ m) 0)]> ctx
    | None => ctx
    end) ids ctx.

Definition inner_open (spec : ObPythonUDFSpec) (s : OpState) : option (Z * OpState) :=
  '(ret, k) ← ctl_init (o_ctl s) (max_batch_size_ spec) (udf_exprs_ spec) (input_exprs_ spec)
                (w_infos (o_world s));
  let s := mkOp k (o_brs s) (o_world s) (o_child s) (o_gil s) in
  if OB_FAIL ret then Some (OB_INIT_FAIL, s) else Some (OB_SUCCESS, s).

Definition inner_close (s : OpState) : Z * OpState :=
  let '(ret, k) := ctl_free (o_ctl s) in
  let s := mkOp k (o_brs s) (o_world s) (o_child s) (o_gil s) in
  if OB_FAIL ret then (OB_ERR_UNEXPECTED, s) else (OB_SUCCESS, s).

(** [inner_rescan], up to the base class's own reset. *)
Definition inner_rescan (spec : ObPythonUDFSpec) (s : OpState) : option (Z * OpState) :=
  let '(ret, k) := ctl_free (o_ctl s) in
  if OB_FAIL ret then Some (OB_ERR_UNEXPECTED, mkOp k (o_brs s) (o_world s) (o_child s) (o_gil s))
  else
    '(ret, k) ← ctl_init k (max_batch_size_ spec) (udf_exprs_ spec) (input_exprs_ spec)
                  (w_infos (o_world s));
    let s := mkOp k (o_brs s) (o_world s) (o_child s) (o_gil s) in
    if OB_FAIL ret then Some (OB_ERR_UNEXPECTED, s) else Some (OB_SUCCESS, s).

(** One turn of the filling loop: the child's batch, copied and stored. *)
Definition fetch (s : OpState) : option (Z * OpState) :=
  let '(r, script) := child_next (o_child s) in
  match r with
  | ChildErr _ => Some (OB_ERR_UNEXPECTED, mkOp (o_ctl s) (o_brs s) (o_world s) script (o_gil s))
  | ChildBatch cbrs cols =>
      let w := set_ctx (o_world s) (cols ∪ w_ctx (o_world s)) in
      let brs := brs_copy (o_brs s) cbrs in
      '(ret, k, w) ← ctl_store (o_ctl s) w brs;
      Some (if OB_FAIL ret then OB_ERR_UNEXPECTED else ret, mkOp k brs w script (o_gil s))
  end.

(** The filling loop; the child's script bounds its length. *)
Fixpoint fill_loop (fuel : nat) (s : OpState) : option (Z * OpState) :=
  if negb (end_ (o_brs s)) && negb (is_full (o_ctl s)) then
    match fuel with
    | O => None
    | S fuel' =>
        '(ret, s) ← fetch s;
        if OB_SUCC ret then fill_loop fuel' s else Some (ret, s)
    end
  else Some (OB_SUCCESS, s).

Definition run_process (s : OpState) : option (Z * OpState) :=
  '(ret, k, w) ← ctl_process (o_ctl s) (o_world s);
  Some (if OB_FAIL ret then OB_ERR_UNEXPECTED else ret,
        mkOp k (o_brs s) w (o_child s) (o_gil s)).

(** [clear_evaluated_flag()] and [resize(get_desirable() * BUFFER_MAG)]. *)
Definition prepare (spec : ObPythonUDFSpec) (s : OpState) : OpState :=
  let w := set_ctx (o_world s) (clear_flags (calc_exprs_ spec) (w_ctx (o_world s))) in
  let '(d, k) := get_desirable (o_ctl s) in
  let k := (ctl_resize k (d * BUFFER_MAG)).2 in
  mkOp k (o_brs s) w (o_child s) (o_gil s).

(** [inner_get_next_batch].  When the thread already holds the interpreter
    lock, [PyGILState_Release] is called with a state that was never set. *)
Definition inner_get_next_batch (spec : ObPythonUDFSpec) (s : OpState) (max_row_cnt : Z)
    : option (Z * OpState) :=
  let held := o_gil s in
  let s := mkOp (o_ctl s) (o_brs s) (o_world s) (o_child s) true in
  '(ret, s) ←
    (if with_batch_control_ then
       if negb (can_output (o_ctl s)) then
         '(ret, s) ← fill_loop (S (length (o_child s))) (prepare spec s);
         if OB_FAIL ret then Some (OB_ERR_UNEXPECTED, s) else run_process s
       else Some (OB_SUCCESS, s)
     else
       '(ret, s) ← fetch (prepare spec s);
       if OB_FAIL ret then Some (ret, s) else run_process s);
  '(ret, s) ←
    (if OB_FAIL ret then Some (OB_ERR_UNEXPECTED, s)
     else
       '(ret, k, w, brs) ← ctl_restore (o_ctl s) (o_world s) (o_brs s) max_row_cnt;
       if OB_FAIL ret then Some (OB_ERR_UNEXPECTED, mkOp k brs w (o_child s) (o_gil s))
       else
         let w := set_ctx w (clear_filters (filters_ spec) (w_ctx w)) in
         Some (ret, mkOp k brs w (o_child s) (o_gil s)));
  if held then None
  else Some (ret, mkOp (o_ctl s) (o_brs s) (o_world s) (o_child s) false).
End Op.
