(* ===== verification/UdfInit.v ===== *)
(** The import of the functions by the operator: [ObPythonUDFOp::init_udfs] and
    [import_udf] ([src/sql/engine/python_udf_engine/ob_python_udf_op.cpp]), whose
    call in [inner_open] is commented out, against the import at code generation
    ([UdfExpr]), which the program uses; and the row-at-a-time path of the operator. *)
From S2P Require Import Prelude PopCount BitVector Frame FixedArray SEArray HashArray.
From S2P Require Import SortedVector UdfSchema.
From S2P Require Import Serialization UdfObject BatchSize UdfMeta UdfFacts UdfExpr PyApi.
From S2P Require Import PUStore PUCell PUOp.

(** ** [init_udfs] *)
Module ObPythonUDFOpInit.
Import ObPythonUDFMeta.

(** A function's expression: the metadata of its extra information, the bytes
    behind the two strings, and the types of its arguments. *)
Record UdfExprArg := mkArg { udf_meta_ : ObPythonUDFMeta.t; rest_name : bytes; rest_pycall : bytes; args_ : list (option ObObjType) }.

Section Import.
Context `{Allocator} `{PyMain}.

(** An object that is found and cannot be called fails in the call, without effect. *)
Definition import_udf (st : UdfExpr.PyState) (m : ObPythonUDFMeta.t) (rest_name rest_pycall : bytes) : option (outcome (Z * UdfExpr.PyState)) :=
  name ← std_string (name_ m) rest_name;
  pycall ← std_string (pycall_ m) rest_pycall;
  match program name pycall with
  | None => Some Throws
  | Some pycall_c =>
      Some (Returns (
        if negb (PyImport_AddModule_ok st) then (OB_ERR_UNEXPECTED, st)
        else if negb (PyModule_GetDict_ok st) then (OB_ERR_UNEXPECTED, st)
        else
          let '(st, v) := PyRun_String st pycall_c in
          if negb v then (OB_ERR_UNEXPECTED, st)
          else if negb (PyObject_GetAttr_callable st (pyinitial_handler name)) then (OB_ERR_UNEXPECTED, st)
          else
            let '(st, called) := PyObject_CallNoArgs st (pyinitial_handler name) in
            if negb called then (OB_ERR_UNEXPECTED, st) else (OB_SUCCESS, st)))
  end.

(** The loop over the expressions, each on a copy of its metadata. *)
Fixpoint init_loop (st : UdfExpr.PyState) (udf_exprs : list UdfExprArg) : option (outcome (Z * UdfExpr.PyState)) :=
  match udf_exprs with
  | [] => Some (Returns (OB_SUCCESS, st))
  | e :: udf_exprs' =>
      m ← op_assign new (udf_meta_ e);
      if init_ m then init_loop st udf_exprs'
      else if decide (ret_ m = UDF_UNINITIAL) then Some (Returns (OB_ERR_UNEXPECTED, st))
      else if data_length_ (pycall_ m) =? 0 then Some (Returns (OB_ERR_UNEXPECTED, st))
      else
        ret ← ObExprPythonUdf.check_params (ObSEArray.items_ (udf_attributes_types_ m)) (args_ e) 0;
        if OB_FAIL ret then Some (Returns (OB_INIT_FAIL, st))
        else
          r ← import_udf st m (rest_name e) (rest_pycall e);
          match r with
          | Throws => Some Throws
          | Returns (ret, st) => if OB_FAIL ret then Some (Returns (OB_INIT_FAIL, st)) else init_loop st udf_exprs'
          end
  end.

(** With the interpreter lock; a thread that holds it releases a state that was
    never set. *)
Definition init_udfs (gil_held : bool) (st : UdfExpr.PyState) (udf_exprs : list UdfExprArg) : option (outcome (Z * UdfExpr.PyState)) :=
  r ← init_loop st udf_exprs;
  match r with
  | Throws => Some Throws
  | Returns x => if gil_held then None else Some (Returns x)
  end.

(** ** Against the import at code generation *)

(** [ObExprPythonUdf::init_udf] of each expression in turn, up to the first failure. *)
Fixpoint init_each (st : UdfExpr.PyState) (udf_exprs : list UdfExprArg) : option (outcome (Z * UdfExpr.PyState)) :=
  match udf_exprs with
  | [] => Some (Returns (OB_SUCCESS, st))
  | e :: udf_exprs' =>
      r ← ObExprPythonUdf.init_udf false st (udf_meta_ e) (rest_name e) (rest_pycall e) (args_ e);
      match r with
      | Throws => Some Throws
      | Returns (ret, _, st) => if OB_FAIL ret then Some (Returns (ret, st)) else init_each st udf_exprs'
      end
  end.

(** The same outcome up to the code of a failure. *)
Definition same_outcome (x y : option (outcome (Z * UdfExpr.PyState))) : Prop :=
  match x, y with
  | None, None | Some Throws, Some Throws => True
  | Some (Returns (ret, st)), Some (Returns (ret', st')) => (ret = OB_SUCCESS <-> ret' = OB_SUCCESS) /\ st = st'
  | _, _ => False
  end.

(** Metadata whose code is null or has bytes, with arrays of a size that exists. *)
Definition meta_ok (m : ObPythonUDFMeta.t) : Prop :=
  (match ptr_ (pycall_ m) with Null => data_length_ (pycall_ m) = 0 | _ => 0 <= data_length_ (pycall_ m) end)
  /\ ObSEArray.count (udf_attributes_names_ m) < 2 ^ 41 /\ ObSEArray.count (udf_attributes_types_ m) < 2 ^ 41.

Lemma copy_array_ok {T} `{!ObSEArray.SEParams T, !ObSEArray.SELaws T} (Hmem : forall n, alloc_ok n = true) (other : ObSEArray.t T) :
  ObSEArray.count other < 2 ^ 41 -> exists a, ObSEArray.op_assign ObSEArray.empty other = Some a /\ ObSEArray.items_ a = ObSEArray.items_ other.
Proof.
  intros Hc. unfold ObSEArray.op_assign.
  assert (ObSEArray.wf (ObSEArray.reuse (ObSEArray.empty (T := T)))) as Hw.
  { pose proof (ObSEArray.local_pos (T := T)). unfold ObSEArray.wf, ObSEArray.reuse, ObSEArray.count. simpl. lia. }
  pose proof (ObSEArray.reserve_spec _ (ObSEArray.count other) Hw ltac:(unfold ObSEArray.count in *; lia)) as Hr.
  destruct (ObSEArray.reserve _ _) as [ret a]. destruct Hr as (_ & _ & _ & [[-> Hcap] | (_ & _ & _ & k & Hk)]); [| now rewrite Hmem in Hk].
  change (OB_SUCC OB_SUCCESS) with true. cbn iota. rewrite (proj2 (Z.leb_le _ _)) by lia. eauto.
Qed.

Lemma copy_meta_ok (Hmem : forall n, alloc_ok n = true) m : meta_ok m ->
  exists c, op_assign new m = Some c /\ name_ c = name_ m /\ ret_ c = ret_ m /\ pycall_ c = pycall_ m /\ init_ c = init_ m
    /\ ObSEArray.items_ (udf_attributes_types_ c) = ObSEArray.items_ (udf_attributes_types_ m).
Proof.
  intros (_ & Hn & Ht). unfold op_assign, new. cbn [udf_attributes_names_ udf_attributes_types_].
  destruct (copy_array_ok Hmem _ Hn) as (a & -> & _), (copy_array_ok Hmem _ Ht) as (b & -> & Hb). cbn [mbind option_bind].
  eexists. split; [reflexivity |]. auto.
Qed.

Lemma null_agrees m : meta_ok m -> ObExprPythonUdf.str_null (pycall_ m) = (data_length_ (pycall_ m) =? 0).
Proof.
  intros [Hp _]. unfold ObExprPythonUdf.str_null. destruct (ptr_ (pycall_ m)); cbn [negb andb].
  - now rewrite Hp.
  - destruct (Z.ltb_spec 0 (data_length_ (pycall_ m))), (Z.eqb_spec (data_length_ (pycall_ m)) 0); try reflexivity; lia.
  - destruct (Z.ltb_spec 0 (data_length_ (pycall_ m))), (Z.eqb_spec (data_length_ (pycall_ m)) 0); try reflexivity; lia.
Qed.

(** The operator's import of its functions succeeds, throws or fails as the
    imports at code generation do, and leaves the interpreter in the same state. *)
Theorem init_udfs_agrees (Hmem : forall n, alloc_ok n = true) exprs : forall st,
  Forall (fun e => meta_ok (udf_meta_ e)) exprs -> same_outcome (init_udfs false st exprs) (init_each st exprs).
Proof.
  unfold init_udfs. enough (forall st, Forall (fun e => meta_ok (udf_meta_ e)) exprs -> same_outcome (init_loop st exprs) (init_each st exprs)) as He.
  { intros st Hf. specialize (He st Hf). destruct (init_loop st exprs) as [[| x] |]; exact He. }
  induction exprs as [| e exprs IH]; intros st Hf; [now split |]. apply Forall_cons in Hf as [Hm Hf]. cbn [init_loop init_each].
  destruct (copy_meta_ok Hmem _ Hm) as (c & -> & En & Er & Ep & Ei & Et). cbn [mbind option_bind]. unfold ObExprPythonUdf.init_udf.
  rewrite Ei, Er, Ep, Et, <- (null_agrees _ Hm). destruct (init_ (udf_meta_ e)); [now apply IH |].
  destruct (decide (ret_ (udf_meta_ e) = UDF_UNINITIAL)); [now split |]. destruct (ObExprPythonUdf.str_null _); [now split |].
  cbn [mbind option_bind]. destruct (ObExprPythonUdf.check_params _ _ _) as [ret |]; [| exact I]. cbn [mbind option_bind].
  destruct (OB_FAIL ret) eqn:Ef; cbn [mbind option_bind].
  { rewrite Ef. split; [| reflexivity]. unfold OB_FAIL, OB_SUCC in Ef. destruct (Z.eqb_spec ret OB_SUCCESS); [discriminate |].
    split; [discriminate | contradiction]. }
  (* the two copies of the import are the same text *)
  change (ObExprPythonUdf.import_udf false st (udf_meta_ e)) with (import_udf st (udf_meta_ e)).
  assert (import_udf st c (rest_name e) (rest_pycall e) = import_udf st (udf_meta_ e) (rest_name e) (rest_pycall e)) as ->
    by (unfold import_udf; now rewrite En, Ep).
  destruct (import_udf st (udf_meta_ e) _ _) as [[| [ret' st']] |]; cbn [mbind option_bind]; [exact I | | exact I].
  destruct (OB_FAIL ret') eqn:Ef'; [| now apply IH]. split; [| reflexivity]. unfold OB_FAIL, OB_SUCC in Ef'.
  destruct (Z.eqb_spec ret' OB_SUCCESS); [discriminate |]. split; [discriminate | contradiction].
Qed.
End Import.
End ObPythonUDFOpInit.

(** ** Row by row *)
Section Row.
Context `{Allocator} `{PyApi}.

(** [inner_get_next_row]: the child's row, its code and what it writes. *)
Definition inner_get_next_row (spec : ObPythonUDFSpec) (s : OpState) (child_row : Z * ObEvalCtx) : Z * OpState :=
  let w := set_ctx (o_world s) (clear_flags (calc_exprs_ spec) (w_ctx (o_world s))) in
  let '(ret, cols) := child_row in
  (ret, mkOp (o_ctl s) (o_brs s) (set_ctx w (cols ∪ w_ctx w)) (o_child s) (o_gil s)).

Lemma clear_flags_other ids i : i ∉ ids -> forall ctx, clear_flags ids ctx !! i = ctx !! i.
Proof.
  unfold clear_flags. induction ids as [| x ids IH]; intros Hi ctx; [reflexivity |]. apply not_elem_of_cons in Hi as [Hne Hi].
  cbn [fold_left]. rewrite IH by exact Hi. destruct (ctx !! x); [| reflexivity]. now rewrite lookup_insert_ne by auto.
Qed.

(** No function runs: the interpreter, the buffers and every expression that is
    neither the child's nor one the operator calculates stay as they were. *)
Lemma row_path_calls_nothing spec s ret cols i : cols !! i = None -> i ∉ calc_exprs_ spec ->
  let '(code, s') := inner_get_next_row spec s (ret, cols) in
  code = ret /\ w_py (o_world s') = w_py (o_world s) /\ o_ctl s' = o_ctl s /\ w_ctx (o_world s') !! i = w_ctx (o_world s) !! i.
Proof.
  intros Hc Hi. cbn. split; [reflexivity |]. split; [reflexivity |]. split; [reflexivity |].
  rewrite lookup_union_r by exact Hc. now apply clear_flags_other.
Qed.
End Row.
