(* ===== verification/PUOpFacts.v ===== *)
(** What the operator computes: filling, processing and restoring keep the
    buffers, the cells and the frame in step, and a call of
    [inner_get_next_batch] outputs the next rows of its input with the value of
    every Python UDF on them. *)
From S2P Require Import Prelude PopCount BitVector Frame FrameFacts FixedArray PyApi BatchSize.
From S2P Require Import PUStore PUStoreFacts PUCell PUCellFacts PUOp.

Section OpFacts.
Context `{Allocator} `{PyApi} `{!PyLaws _} (alloc_total : forall n, alloc_ok n = true).

(** The plan: [univ] are the expressions the child produces (arguments and
    columns passed through), [ins] the columns passed through, [us] the UDFs,
    [F] what their functions compute on a row, [K] the values of constants.
    The frame has room for [N] rows and the operator's batch size is [B]. *)
Context (N B : Z) (K : Z -> bytes) (univ ins : list ObExpr) (us : list ObUdfExpr)
        (F : ObUdfExpr -> list (option ArgVal) -> PyItem).

Definition uid (u : ObUdfExpr) : Z := eid (u_expr u).
Definition ucls (u : ObUdfExpr) : ArgClass := arg_cls (u_expr u).

Record plan_ok : Prop := mkPlanOk
  { p_unique : forall e e', e ∈ univ -> e' ∈ univ -> eid e = eid e' -> e = e';
    p_ins : Forall (fun e => e ∈ univ /\ is_const_expr e = false) ins;
    p_ins_nodup : NoDup (map eid ins);
    p_ins_count : Z.of_nat (length ins) <= ObFixedArray.UINT32_MAX;
    p_us_nodup : NoDup (map uid us);
    p_us_new : forall u, u ∈ us -> uid u ∉ map eid univ;
    p_args : Forall (fun u => Forall (fun e => e ∈ univ) (args_ u)) us;
    p_types : Forall (fun u => Forall supported (args_ u)) us;
    p_udf : Forall (fun u => is_python_udf u = true /\ args_ u <> []) us;
    p_some : univ <> [];
    p_batch : 0 < B <= N }.
Hypothesis Hplan : plan_ok.

(** ** Storing *)

Definition cell_ok (acc : Z -> list bytes) (n L : Z) (c : ObPythonUDFCell) (u : ObUdfExpr) : Prop :=
  cell_inv c u acc n L /\ 0 < c_desirable c /\ c_batch_size c = B.

(** The rows of a batch as the columns [val] of the frame, one list of cells
    per expression, wide enough for its type. *)
Record batch_vals (val : Z -> list bytes) (size : Z) : Prop := mkBatchVals
  { bv_len : forall e, e ∈ univ -> Z.of_nat (length (val (eid e))) = size;
    bv_width : Forall (fun u => Forall (fun e => arg_width e (val (eid e))) (args_ u)) us }.

Lemma store_cells_ok cs vs ctx acc val n L brs :
  Forall2 (cell_ok acc n L) cs vs -> vs ⊆ us ->
  ctx_vis N K univ val ctx -> batch_vals val (size_ brs) ->
  ObBitVector.wf (skip_ brs) -> 0 <= active_cnt brs -> n + active_cnt brs <= L ->
  exists cs' ctx', store_cells cs ctx brs = Some (OB_SUCCESS, cs', ctx')
    /\ Forall2 (cell_ok (extend acc val (skip_ brs)) (n + active_cnt brs) L) cs' vs
    /\ ctx_vis N K univ val ctx'
    /\ map c_desirable cs' = map c_desirable cs
    /\ forall i, i ∉ map eid univ -> ctx' !! i = ctx !! i.
Proof.
  intros H2 Hsub Hv Hb Hwf Ha Hroom. revert ctx Hv.
  induction H2 as [| c u cs vs (Hinv & Hd & HB) H2 IH]; intros ctx Hv.
  { exists [], ctx. auto using Forall2_nil. }
  assert (u ∈ us) as Hu by (apply Hsub; left).
  pose proof (proj1 (Forall_forall _ _) (p_args Hplan) u Hu) as Hargs.
  pose proof (proj1 (Forall_forall _ _) (bv_width _ _ Hb) u Hu) as Hwd.
  destruct (do_store_ok alloc_total N K univ (p_unique Hplan) c u acc val n L ctx brs)
    as (c' & ctx1 & E1 & Hinv1 & Hv1 & Ho1 & Hd1 & HB1); auto.
  { intros e He. apply (bv_len _ _ Hb). rewrite Forall_forall in Hargs. auto. }
  destruct (IH ltac:(intros x Hx; apply Hsub; now right) ctx1 Hv1)
    as (cs' & ctx2 & E2 & H2' & Hv2 & Hds & Ho2).
  exists (c' :: cs'), ctx2. cbn [store_cells]. rewrite E1. cbn [mbind option_bind].
  change (OB_FAIL OB_SUCCESS) with false. cbn iota. rewrite E2. split; [reflexivity |].
  split; [constructor; [| exact H2']; split; [exact Hinv1 | split; congruence] |].
  split; [exact Hv2 |]. split; [simpl; congruence |].
  intros i Hi. rewrite Ho2 by exact Hi. apply Ho1. intros Hin. apply Hi.
  apply list_elem_of_fmap in Hin as (e & -> & He). apply list_elem_of_fmap_2.
  rewrite Forall_forall in Hargs. auto.
Qed.

(** The controller while it fills: [n] rows saved in every buffer, room for [L]. *)
Record filling (k : Controller) (acc : Z -> list bytes) (n L : Z) : Prop := mkFilling
  { fl_cells : Forall2 (cell_ok acc n L) (cells_list_ k) us;
    fl_col : col_inv (other_store_ k) ins (map (fun e => acc (eid e)) ins) n;
    fl_idx : col_output_idx_ (other_store_ k) = 0;
    fl_len : col_length_ (other_store_ k) = L;
    fl_stored : stored_input_cnt_ k = n;
    fl_rows : forall e, e ∈ univ -> Z.of_nat (length (acc (eid e))) = n;
    fl_range : 0 <= n <= L }.

Lemma vis_shows_col val ctx :
  ctx_vis N K univ val ctx ->
  Forall2 (shows_col ctx) ins (map (fun e => val (eid e)) ins).
Proof.
  intros Hv. apply Forall2_fmap_r, Forall_Forall2_diag.
  eapply Forall_impl; [exact (p_ins Hplan) |]. intros e [He Hc]. cbn beta.
  destruct (Hv e He) as (m & Hm & [Hvm | (Hcv & _)]).
  - exists m. split; [exact Hm | apply Hvm].
  - destruct Hcv as (_ & Hc' & _). congruence.
Qed.

(** The part of the controller a store leaves alone. *)
Definition same_outputs (k k' : Controller) : Prop :=
  map c_desirable (cells_list_ k') = map c_desirable (cells_list_ k)
  /\ stored_output_cnt_ k' = stored_output_cnt_ k /\ output_idx_ k' = output_idx_ k
  /\ desirable_ k' = desirable_ k /\ capacity_ k' = capacity_ k /\ batch_size_ k' = batch_size_ k.

Lemma ctl_store_ok k w acc val n L brs :
  filling k acc n L -> ctx_vis N K univ val (w_ctx w) -> batch_vals val (size_ brs) ->
  ObBitVector.wf (skip_ brs) -> 0 <= active_cnt brs -> n + active_cnt brs <= L ->
  exists k' ctx', ctl_store k w brs = Some (OB_SUCCESS, k', set_ctx w ctx')
    /\ filling k' (extend acc val (skip_ brs)) (n + active_cnt brs) L
    /\ ctx_vis N K univ val ctx' /\ same_outputs k k'
    /\ forall i, i ∉ map eid univ -> ctx' !! i = w_ctx w !! i.
Proof.
  intros [Hcs Hcol Hidx Hlen Hst Hrows Hr] Hv Hb Hwf Ha Hroom.
  destruct (store_cells_ok _ _ (w_ctx w) acc val n L brs Hcs ltac:(intros x Hx; exact Hx) Hv Hb Hwf Ha Hroom)
    as (cs' & ctx' & E & Hcs' & Hv' & Hds & Ho).
  destruct (col_save_ok alloc_total (other_store_ k) ins _ n ctx' brs
              (map (fun e => val (eid e)) ins) Hcol (vis_shows_col val ctx' Hv'))
    as (o' & Eo & Hcol' & Hl' & Hi'); auto; try lia.
  { apply Forall_map. eapply Forall_impl; [exact (p_ins Hplan) |].
    intros e [He _]. now apply (bv_len _ _ Hb). }
  eexists _, ctx'. unfold ctl_store. rewrite E. cbn [mbind option_bind].
  change (OB_SUCC OB_SUCCESS) with true. cbn iota. cbn [set_cells other_store_ set_ctx w_ctx].
  rewrite Eo. cbn [mbind option_bind]. change (OB_FAIL OB_SUCCESS) with false. cbn iota.
  split; [reflexivity |]. split; [| split; [exact Hv' | split; [| exact Ho]]].
  - constructor; simpl; auto; try congruence.
    + rewrite zip_extend in Hcol'. exact Hcol'.
    + intros e He. unfold extend. rewrite length_app.
      rewrite (active_cnt_pick brs (val (eid e)) Hwf (bv_len _ _ Hb e He)).
      specialize (Hrows e He). lia.
    + lia.
  - repeat split. exact Hds.
Qed.

(** ** Processing *)

Definition udf_ready (w : World) (u : ObUdfExpr) : Prop :=
  exists info, w_infos w !! uid u = Some info /\ 0 < predict_size info /\ 0 <= delta info
    /\ row_function (pyfun_handler (name_ info)) (F u)
    /\ result_expr (u_expr u) (ret_ info) (ucls u).
Definition world_ok (w : World) : Prop := py_ok (w_py w) /\ Forall (udf_ready w) us.

(** The batch size of [u] has room for [c] more rows. *)
Definition size_ok (c : Z) (w : World) (u : ObUdfExpr) : Prop :=
  forall info, w_infos w !! uid u = Some info -> size_fits info c.
Definition sizes_ok (c : Z) (w : World) : Prop := Forall (size_ok c w) us.

Lemma ready_step v r c w w' u : world_step (uid v) r w w' -> 0 <= c -> 0 <= r -> size_ok (c + r) w v ->
  udf_ready w u -> size_ok c w u -> udf_ready w' u /\ size_ok c w' u.
Proof.
  intros [_ _ Hi Ho] Hc Hr Hv (info & E & Hp & Hd & Hf & Hre) Hs. destruct (decide (uid u = uid v)) as [He | Hne].
  - rewrite He in E. destruct (Hi info E) as (info' & E' & (Hn & Hrt & _ & _ & _ & Hdl) & Hle).
    destruct (Hle Hp Hd c Hc (Hv info E)) as [Hle1 Hf1]. split.
    + exists info'. rewrite He, Hn, Hrt, Hdl. split; [exact E' |]. split; [lia | auto].
    + intros x Hx. rewrite He in Hx. congruence.
  - unfold size_ok, udf_ready. rewrite Ho by exact Hne. split; [exists info; auto | exact Hs].
Qed.

Lemma world_ok_step v r c w w' : world_step (uid v) r w w' -> 0 <= c -> 0 <= r -> size_ok (c + r) w v ->
  world_ok w -> sizes_ok c w -> world_ok w' /\ sizes_ok c w'.
Proof.
  intros Hs Hc Hr Hv [Hp Hrd] Hsz. pose proof (ws_py _ _ _ _ Hs Hp). unfold world_ok, sizes_ok in *.
  rewrite Forall_forall in Hrd, Hsz. rewrite !Forall_forall.
  assert (forall u, u ∈ us -> udf_ready w' u /\ size_ok c w' u) as Hall by (intros; eapply ready_step; eauto).
  split; [split; [assumption |] |]; intros u Hu; now apply Hall.
Qed.
Lemma size_ok_less c c' w u : udf_ready w u -> c' <= c -> size_ok c w u -> size_ok c' w u.
Proof.
  intros (info & E & _ & Hd & _) Hc Hs x Hx. assert (x = info) as -> by congruence.
  specialize (Hs info E). unfold size_fits in *. nia.
Qed.

(** A processed cell: no rows saved, one result per row of [acc]. *)
Definition cell_done (acc : Z -> list bytes) (n L : Z) (c : ObPythonUDFCell) (u : ObUdfExpr) : Prop :=
  cell_ok (fun _ => []) 0 L c u
  /\ exists d, results_upto c (row_result (F u) u acc) d (Z.to_nat n).

Lemma process_cell_ok c u acc n L w :
  cell_ok acc n L c u -> udf_ready w u -> size_ok n w u -> py_ok (w_py w) -> utf8_args u acc -> 0 <= n <= L ->
  exists c' w', process_cell n c w = Some (OB_SUCCESS, c', w')
    /\ cell_done acc n L c' u /\ world_step (uid u) n w w'.
Proof.
  intros (Hinv & Hd & HB) (info & Hi & Hp & Hdel & Hf & _) Hsz Hpy Hutf Hn.
  destruct (do_process_ok c u acc n L w (F u) Hinv) as (c1 & w1 & d & E & Hres & Hinv1 & Hd1 & HB1 & Hws & _);
    auto; [now exists info |].
  destruct Hinv1 as [He1 Hst1 HL1]. pose proof (pi_saved _ _ _ _ (k_store _ _ _ _ _ Hinv)) as Hsv.
  destruct (pu_reset_ok alloc_total (c_store c1) u _ n 0 Hst1) as (st' & Er & Hst' & Hl').
  exists (set_store c1 st'), w1. unfold process_cell, get_store_size. rewrite Hsv, Z.eqb_refl.
  cbn [negb]. cbn iota. change with_batch_control_ with true. cbn iota. rewrite E.
  cbn [mbind option_bind]. change (OB_FAIL OB_SUCCESS) with false. cbn iota.
  destruct Hres as [Hrs Hro]. rewrite Hrs, Z2Nat.id, Z.eqb_refl by lia. cbn [negb]. cbn iota.
  unfold reset_input_store, cell_reset. rewrite Er. split; [reflexivity |].
  split; [| exact Hws]. split; [| exists d; split; assumption].
  split; [| split; [exact Hd1 | simpl; congruence]].
  constructor; simpl; [exact He1 | exact Hst' | lia].
Qed.

Lemma process_cells_ok cs vs acc n L w c :
  Forall2 (cell_ok acc n L) cs vs -> vs ⊆ us -> NoDup (map uid vs) -> world_ok w -> Forall (fun u => utf8_args u acc) us ->
  0 <= n <= L -> 0 <= c -> Forall (size_ok (c + n) w) vs -> sizes_ok c w ->
  exists cs' w', process_cells n cs w = Some (OB_SUCCESS, cs', w')
    /\ Forall2 (cell_done acc n L) cs' vs /\ world_ok w' /\ sizes_ok c w' /\ w_ctx w' = w_ctx w.
Proof.
  intros H2 Hsub Hnd Hw Hutf Hn Hc. revert w Hw Hnd.
  induction H2 as [| cell u cs vs Hcell H2 IH]; intros w Hw Hnd Hvs Hsz.
  { exists [], w. auto using Forall2_nil. }
  assert (u ∈ us) as Hu by (apply Hsub; left). pose proof Hw as [Hpy Hready].
  rewrite Forall_forall in Hready, Hutf. apply Forall_cons in Hvs as [Hu1 Hvs]. apply NoDup_cons in Hnd as [Hnu Hnd].
  destruct (process_cell_ok cell u acc n L w Hcell (Hready u Hu) (size_ok_less (c + n) n w u (Hready u Hu) ltac:(lia) Hu1) Hpy (Hutf u Hu) Hn)
    as (c' & w1 & E1 & Hc' & Hws).
  destruct (world_ok_step u n c w w1 Hws Hc ltac:(lia) Hu1 Hw Hsz) as [Hw1 Hsz1].
  destruct (IH ltac:(intros x Hx; apply Hsub; now right) w1 Hw1 Hnd) as (cs' & w2 & E2 & H2' & Hw2 & Hsz2 & Hctx2); [| exact Hsz1 |].
  { rewrite Forall_forall in Hvs |- *. intros x Hx info. rewrite (ws_other _ _ _ _ Hws); [exact (Hvs x Hx info) |].
    intros E. apply Hnu. rewrite <- E. now apply (list_elem_of_fmap_2 uid). }
  exists (c' :: cs'), w2. cbn [process_cells]. rewrite E1. cbn [mbind option_bind].
  change (OB_FAIL OB_SUCCESS) with false. cbn iota. rewrite E2. split; [reflexivity |].
  split; [now constructor |]. split; [exact Hw2 |]. split; [exact Hsz2 |]. rewrite Hctx2. apply Hws.
Qed.

(** The controller while it outputs the rows [acc], [o] of [n] already gone. *)
Record draining (k : Controller) (acc : Z -> list bytes) (n o L : Z) : Prop := mkDraining
  { dr_cells : Forall2 (cell_done acc n L) (cells_list_ k) us;
    dr_col : col_inv (other_store_ k) ins (map (fun e => acc (eid e)) ins) n;
    dr_idx : col_output_idx_ (other_store_ k) = o;
    dr_len : col_length_ (other_store_ k) = L;
    dr_out : stored_output_cnt_ k = n;
    dr_oidx : output_idx_ k = o;
    dr_rows : forall e, e ∈ univ -> Z.of_nat (length (acc (eid e))) = n;
    dr_range : 0 <= o < n }.

Lemma ctl_process_ok k w acc n L c :
  filling k acc n L -> 0 < n -> world_ok w -> 0 <= c -> sizes_ok (c + n) w -> Forall (fun u => utf8_args u acc) us ->
  exists k' w', ctl_process k w = Some (OB_SUCCESS, k', w')
    /\ draining k' acc n 0 L /\ world_ok w' /\ sizes_ok c w' /\ w_ctx w' = w_ctx w
    /\ desirable_ k' = desirable_ k /\ capacity_ k' = capacity_ k.
Proof.
  intros [Hcs Hcol Hidx Hlen Hst Hrows Hr] Hn Hw Hc Hsz Hutf.
  destruct (process_cells_ok _ _ acc n L w c Hcs ltac:(intros x Hx; exact Hx) (p_us_nodup Hplan) Hw Hutf Hr Hc Hsz)
    as (cs' & w' & E & Hcs' & Hw' & Hsz' & Hctx).
  { unfold sizes_ok in *. rewrite Forall_forall in Hsz |- *. intros u Hu. apply (size_ok_less (c + n)); [| lia | exact (Hsz u Hu)].
    exact (proj1 (Forall_forall _ _) (proj2 Hw) u Hu). }
  eexists _, w'. unfold ctl_process, is_empty. rewrite Hst.
  destruct (Z.eqb_spec n 0); [lia |]. rewrite E. cbn [mbind option_bind].
  change (OB_SUCC OB_SUCCESS) with true. cbn iota. split; [reflexivity |].
  split; [| auto 10]. constructor; simpl; auto. lia.
Qed.

(** ** Restoring *)

(** The result column of [u] on the rows [acc]. *)
Definition udf_cell (u : ObUdfExpr) (acc : Z -> list bytes) (k : nat) : bytes :=
  item_bytes (ucls u) (row_result (F u) u acc k).
Definition udf_col (u : ObUdfExpr) (acc : Z -> list bytes) (n : nat) : list bytes :=
  map (udf_cell u acc) (seq 0 n).

Definition udf_frame (ctx : ObEvalCtx) (u : ObUdfExpr) : Prop :=
  exists m, ctx !! uid u = Some m /\ cap (u_expr u) N m /\ udatums_ m = None.

Lemma uid_inj u v : u ∈ us -> v ∈ us -> uid u = uid v -> u = v.
Proof.
  intros Hu Hv E. apply list_elem_of_lookup in Hu as [i Hi], Hv as [j Hj].
  assert (i = j) as ->; [| congruence].
  apply (NoDup_lookup (map uid us) i j (uid u)); [apply Hplan | |]; rewrite list_lookup_fmap.
  - now rewrite Hi.
  - now rewrite Hj, E.
Qed.

(** Expression [e] shows exactly the rows [cells], ready for the parent. *)
Definition shown (ctx : ObEvalCtx) (e : ObExpr) (cells : list bytes) : Prop :=
  exists m, ctx !! eid e = Some m /\ column m cells /\ cap e N m.

Lemma chunk_of_seq {A} (g : nat -> A) off k n :
  (off + k <= n)%nat -> take k (drop off (map g (seq 0 n))) = map (fun j => g (off + j)%nat) (seq 0 k).
Proof.
  intros Hle. rewrite skipn_map, firstn_map, <- (map_seq_off g off k). f_equal.
  replace n with (off + (k + (n - off - k)))%nat by lia.
  rewrite seq_app, drop_app_length' by (rewrite length_seq; lia).
  rewrite seq_app, take_app_length' by (rewrite length_seq; lia). reflexivity.
Qed.

Lemma restore_cells_ok cs vs acc n L w off k :
  Forall2 (cell_done acc n L) cs vs -> vs ⊆ us -> NoDup (map uid vs) -> Forall (udf_ready w) us ->
  Forall (udf_frame (w_ctx w)) us -> 0 <= off -> 0 < k <= B -> off + k <= n ->
  exists ctx', restore_cells cs w off k = Some (OB_SUCCESS, set_ctx w ctx')
    /\ Forall (udf_frame ctx') us
    /\ Forall (fun u => shown ctx' (u_expr u)
                  (map (fun j => udf_cell u acc (Z.to_nat off + j)%nat) (seq 0 (Z.to_nat k)))
                /\ exists m, ctx' !! uid u = Some m /\ evaluated_ m = true /\ projected_ m = true) vs
    /\ forall i, i ∉ map uid vs -> ctx' !! i = w_ctx w !! i.
Proof.
  intros H2 Hsub Hnd Hready Hfr Hoff Hk Hle. revert w Hready Hfr.
  induction H2 as [| c u cs vs ((Hinv & _ & HB) & d & Hrs & Hro) H2 IH]; intros w Hready Hfr.
  { exists (w_ctx w). split; [now destruct w |]. auto. }
  assert (u ∈ us) as Hu by (apply Hsub; left). cbn [map] in Hnd. apply NoDup_cons in Hnd as [Hnin Hnd].
  destruct (proj1 (Forall_forall _ _) Hready u Hu) as (info & Hi & _ & _ & _ & Hre).
  destruct (proj1 (Forall_forall _ _) Hfr u Hu) as (m & Hm & Hcap & Hud).
  destruct (c_result_store c) as [o |] eqn:Eo; [| lia]. destruct Hro as [_ Hit].
  destruct (do_restore_ok N c u w info (ucls u) o _ off k m (k_expr _ _ _ _ _ Hinv) Hi Hre Eo Hit)
    as (m' & E & Hcol & Hcap' & Hud' & Hev & Hpr); auto; rewrite ?length_map, ?length_seq; try lia.
  { pose proof (p_batch Hplan). lia. }
  destruct (IH ltac:(intros x Hx; apply Hsub; now right) Hnd (set_ctx w (<[uid u := m']> (w_ctx w))))
    as (ctx2 & E2 & Hfr2 & Hsh2 & Ho2).
  { exact Hready. }
  { rewrite Forall_forall in Hfr |- *. intros v Hv. destruct (Hfr v Hv) as (mv & Hmv & Hrest).
    cbn [w_ctx set_ctx].
    destruct (decide (uid v = uid u)) as [Eq | Ne].
    - exists m'. rewrite (uid_inj v u Hv Hu Eq), lookup_insert_eq. auto.
    - exists mv. rewrite lookup_insert_ne by auto. auto. }
  exists ctx2. cbn [restore_cells]. rewrite E. cbn [mbind option_bind].
  change (OB_FAIL OB_SUCCESS) with false. cbn iota. split; [exact E2 |]. split; [exact Hfr2 |].
  assert (ctx2 !! uid u = Some m') as Hm2.
  { rewrite Ho2 by exact Hnin. apply lookup_insert_eq. }
  split.
  - constructor; [| exact Hsh2]. split; [| exists m'; auto]. exists m'. split; [exact Hm2 |].
    split; [| exact Hcap']. rewrite chunk_of_seq, map_map in Hcol by lia. exact Hcol.
  - intros i Hin. rewrite Ho2 by (intros Hx; apply Hin; now right).
    apply lookup_insert_ne. intros <-. apply Hin. left.
Qed.

(** ** The frame between calls *)

Lemma vis_empty e m cells : vis N K e m cells -> vis N K e m [].
Proof.
  intros [(Hb & Hc & Hp & (Hf & Hu & _) & Hcap) | (Hcv & _)].
  - left. split; [exact Hb |]. split; [exact Hc |]. split; [exact Hp |].
    split; [| exact Hcap]. split; [exact Hf |]. split; [exact Hu |]. split; [simpl; lia |].
    intros k x Hk. now rewrite lookup_nil in Hk.
  - right. auto.
Qed.

Lemma ctx_vis_empty val ctx : ctx_vis N K univ val ctx -> ctx_vis N K univ (fun _ => []) ctx.
Proof. intros Hv e He. destruct (Hv e He) as (m & Hm & H1). exists m. eauto using vis_empty. Qed.

(** The frame: the slots of the child's expressions are valid, those of the
    UDFs have room. *)
Definition frame_ok (ctx : ObEvalCtx) : Prop :=
  ctx_vis N K univ (fun _ => []) ctx /\ Forall (udf_frame ctx) us.

Lemma ins_loadable ctx : ctx_vis N K univ (fun _ => []) ctx -> Forall (loadable N ctx) ins.
Proof.
  intros Hv. eapply Forall_impl; [exact (p_ins Hplan) |]. intros e [He Hc]. cbn beta.
  destruct (Hv e He) as (m & Hm & [(Hb & _ & _ & (_ & Hu & _) & Hcap) | (Hcv & _)]).
  - split; [exact Hb |]. exists m. auto.
  - destruct Hcv as (_ & Hc' & _). congruence.
Qed.

Lemma loaded_vis ctx0 ctx e cells :
  e ∈ ins -> (exists m, ctx0 !! eid e = Some m /\ vis N K e m []) ->
  loaded N ctx0 ctx e cells -> exists m, ctx !! eid e = Some m /\ col_vis N e m cells.
Proof.
  intros He (m0 & Hm0 & Hv0) (m0' & m & Hm0' & Hm & Hcol & Hcap & (_ & Hp & _) & _).
  assert (m0' = m0) as -> by congruence. exists m. split; [exact Hm |].
  destruct (proj1 (Forall_forall _ _) (p_ins Hplan) e He) as [_ Hc].
  destruct Hv0 as [(Hb & _ & Hpr & _) | (Hcv & _)].
  - split; [exact Hb |]. split; [exact Hc |]. split; [congruence | auto].
  - destruct Hcv as (_ & Hc' & _). congruence.
Qed.

(** Values of pass-through columns fit the reserved buffers of the frame. *)
Definition ins_room (acc : Z -> list bytes) : Prop :=
  Forall (fun e => Forall (cell_room e) (acc (eid e))) ins.

(** After loading, every column passed through shows its rows and the frame
    is valid. *)
Lemma load_frame ctx0 ctx' (cells : ObExpr -> list bytes) :
  frame_ok ctx0 -> Forall2 (loaded N ctx0 ctx') ins (map cells ins) ->
  (forall i, i ∉ map eid ins -> ctx' !! i = ctx0 !! i) ->
  frame_ok ctx' /\ Forall (fun e => exists m, ctx' !! eid e = Some m /\ col_vis N e m (cells e)) ins.
Proof.
  intros [Hv Hu] H2 Ho.
  assert (forall e, e ∈ ins -> exists m, ctx' !! eid e = Some m /\ col_vis N e m (cells e)) as Hins.
  { intros e He. assert (loaded N ctx0 ctx' e (cells e)) as Hl.
    { apply list_elem_of_lookup in He as [i Hi].
      destruct (Forall2_lookup_l _ _ _ _ _ H2 Hi) as (y & Hy & Hl).
      rewrite list_lookup_fmap, Hi in Hy. injection Hy as <-. exact Hl. }
    apply (loaded_vis ctx0 ctx' e (cells e) He); [| exact Hl].
    destruct (proj1 (Forall_forall _ _) (p_ins Hplan) e He) as [Hin _]. exact (Hv e Hin). }
  split; [split |].
  - intros e He. destruct (decide (eid e ∈ map eid ins)) as [Hin | Hin].
    + apply list_elem_of_fmap in Hin as (e' & Eq & He').
      destruct (proj1 (Forall_forall _ _) (p_ins Hplan) e' He') as [Hin' _].
      rewrite (p_unique Hplan e e' He Hin' Eq). destruct (Hins e' He') as (m & Hm & Hc).
      exists m. split; [exact Hm |]. apply (vis_empty e' m (cells e')). now left.
    + destruct (Hv e He) as (m & Hm & H1). exists m. rewrite Ho by exact Hin. auto.
  - rewrite Forall_forall in Hu |- *. intros u Hin. destruct (Hu u Hin) as (m & Hm & H1).
    exists m. rewrite Ho; [auto |]. intros Hx. apply list_elem_of_fmap in Hx as (e & Eq & He).
    apply (p_us_new Hplan u Hin). rewrite Eq. apply list_elem_of_fmap_2.
    now destruct (proj1 (Forall_forall _ _) (p_ins Hplan) e He).
  - now apply Forall_forall.
Qed.

(** ** The controller at rest *)

(** Nothing to output: the buffers can be reset. *)
Record idle (k : Controller) (L : Z) : Prop := mkIdle
  { id_cells : Forall2 (cell_ok (fun _ => []) 0 L) (cells_list_ k) us;
    id_col : exists cols n, col_inv (other_store_ k) ins cols n;
    id_len : col_length_ (other_store_ k) = L;
    id_out : output_idx_ k = stored_output_cnt_ k;
    id_range : 0 <= L }.

(** What the parent sees after [restore]: rows [o, o + size) of [acc]. *)
Record output (ctx : ObEvalCtx) (brs : ObBatchRows) (acc : Z -> list bytes) (o size : Z) : Prop :=
  mkOutput
  { ot_size : size_ brs = size;
    ot_end : end_ brs = false;
    ot_skip : forall i, 0 <= i < size -> ObBitVector.at_ (skip_ brs) i = false;
    ot_ins : Forall (fun e => exists m, ctx !! eid e = Some m
               /\ col_vis N e m (take (Z.to_nat size) (drop (Z.to_nat o) (acc (eid e))))) ins;
    ot_us : Forall (fun u => shown ctx (u_expr u)
                (map (fun j => udf_cell u acc (Z.to_nat o + j)%nat) (seq 0 (Z.to_nat size)))
              /\ exists m, ctx !! uid u = Some m /\ evaluated_ m = true /\ projected_ m = true) us }.

Lemma col_load_frame k ctx acc n o L sz :
  draining k acc n o L -> frame_ok ctx -> ins_room acc -> 0 <= sz <= N -> o + sz <= n ->
  exists st' ctx', col_load_vector (other_store_ k) ctx sz = Some (OB_SUCCESS, st', ctx')
    /\ col_inv st' ins (map (fun e => acc (eid e)) ins) n
    /\ col_length_ st' = L /\ col_output_idx_ st' = o + sz
    /\ frame_ok ctx'
    /\ Forall (fun e => exists m, ctx' !! eid e = Some m
               /\ col_vis N e m (take (Z.to_nat sz) (drop (Z.to_nat o) (acc (eid e))))) ins
    /\ forall i, i ∉ map eid ins -> ctx' !! i = ctx !! i.
Proof.
  intros [_ Hcol Hidx Hlen _ _ _ Hr] Hf Hroom Hsz Hle. pose proof Hf as [Hv _].
  destruct (col_load_ok (other_store_ k) ins _ n ctx sz N Hcol (p_ins_nodup Hplan) (ins_loadable ctx Hv))
    as (st' & ctx' & E & Hcol' & Hl' & Hi' & H2 & Ho); auto; try lia.
  { apply Forall2_fmap_r, Forall_Forall2_diag. exact Hroom. }
  rewrite Hidx in *. rewrite map_map in H2.
  destruct (load_frame ctx ctx' (fun e => take (Z.to_nat sz) (drop (Z.to_nat o) (acc (eid e)))) Hf H2 Ho)
    as [Hf' Hins].
  exists st', ctx'. split; [exact E |]. split; [exact Hcol' |]. split; [congruence |]. auto.
Qed.

Lemma cell_done_ok acc n L c u : cell_done acc n L c u -> cell_ok (fun _ => []) 0 L c u.
Proof. now intros [Hc _]. Qed.

Lemma ins_not_udf u : u ∈ us -> uid u ∉ map eid ins.
Proof.
  intros Hu Hx. apply list_elem_of_fmap in Hx as (e & Eq & He). apply (p_us_new Hplan u Hu).
  rewrite Eq. apply list_elem_of_fmap_2. now destruct (proj1 (Forall_forall _ _) (p_ins Hplan) e He).
Qed.

Lemma frame_ok_udf ctx ctx' :
  frame_ok ctx -> Forall (udf_frame ctx') us ->
  (forall i, i ∉ map uid us -> ctx' !! i = ctx !! i) -> frame_ok ctx'.
Proof.
  intros [Hv _] Hu Ho. split; [| exact Hu]. intros e He. destruct (Hv e He) as (m & Hm & H1).
  exists m. rewrite Ho; [auto |]. intros Hx. apply list_elem_of_fmap in Hx as (u & Eq & Hin).
  apply (p_us_new Hplan u Hin). rewrite <- Eq. now apply list_elem_of_fmap_2.
Qed.

Lemma ctl_restore_ok k w brs acc n o L m :
  draining k acc n o L -> Forall (udf_ready w) us -> frame_ok (w_ctx w) -> ins_room acc ->
  0 < m <= B -> ObBitVector.fits (skip_ brs) B ->
  let sz := Z.min m (n - o) in
  exists k' ctx' brs', ctl_restore k w brs m = Some (OB_SUCCESS, k', set_ctx w ctx', brs')
    /\ output ctx' brs' acc o sz /\ frame_ok ctx'
    /\ skip_ brs' = ObBitVector.reset sz (skip_ brs)
    /\ desirable_ k' = desirable_ k
    /\ (if decide (o + sz < n) then draining k' acc n (o + sz) L else idle k' L).
Proof.
  intros Hdr Hready Hf Hroom Hm Hfits sz. pose proof Hdr as [Hcs Hcol Hidx Hlen Hout Hoi Hrows Hr].
  pose proof (p_batch Hplan) as HB.
  destruct (restore_cells_ok (cells_list_ k) us acc n L w o sz Hcs) as (ctx1 & E1 & Hfr1 & Hsh & Ho1);
    auto; try (unfold sz; lia); [apply Hplan | apply Hf |].
  pose proof (frame_ok_udf _ _ Hf Hfr1 Ho1) as Hf1.
  destruct (col_load_frame k ctx1 acc n o L sz Hdr Hf1 Hroom) as (st2 & ctx2 & E2 & Hcol2 & Hl2 & Hi2 & Hf2 & Hins & Ho2);
    try (unfold sz; lia).
  destruct (col_reset_ok alloc_total st2 ins _ n 0 Hcol2 ltac:(lia) (p_ins_count Hplan))
    as (st3 & E3 & Hcol3 & Hl3 & Hi3).
  assert (col_reuse st2 = (OB_SUCCESS, st3)) as E3'.
  { unfold col_reset in E3. pose proof (ci_range _ _ _ _ Hcol2) as Hcr.
    destruct (Z.leb_spec 0 (col_length_ st2)); [| lia]. injection E3 as <-. reflexivity. }
  assert (output ctx2 (mkBrs (ObBitVector.reset sz (skip_ brs)) sz false true) acc o sz) as Hot.
  { constructor; simpl; auto.
    - intros i Hi. rewrite ObBitVector.at_reset; [| unfold sz; lia | lia |].
      + pose proof (ObBitVector.word_count_spec sz ltac:(unfold sz; lia)).
        destruct (Z.ltb_spec i (64 * ObBitVector.word_count sz)); [reflexivity | lia].
      + unfold ObBitVector.fits in *. unfold sz. lia.
    - rewrite Forall_forall in Hsh |- *. intros u Hu. unfold shown.
      change (eid (u_expr u)) with (uid u). rewrite Ho2 by now apply ins_not_udf.
      now apply Hsh. }
  unfold ctl_restore, can_output. rewrite Hout, Hoi.
  destruct (Z.leb_spec n 0), (Z.ltb_spec o n); try lia. cbn [negb orb]. cbn iota.
  fold sz. rewrite E1. cbn [mbind option_bind]. change (OB_SUCC OB_SUCCESS) with true. cbn iota.
  cbn [w_ctx set_ctx]. rewrite E2. cbn [mbind option_bind]. change (OB_FAIL OB_SUCCESS) with false.
  cbn iota. cbn [mbind option_bind andb OB_SUCC OB_SUCCESS]. change (OB_SUCC OB_SUCCESS) with true.
  cbn [andb]. unfold end_output. cbn [output_idx_ stored_output_cnt_ set_counts set_other other_store_].
  rewrite Hout, Hoi, E3'. cbn [snd].
  assert (Forall2 (cell_ok (fun _ => []) 0 L) (cells_list_ k) us) as Hidle
    by (eapply Forall2_impl; [exact Hcs | intros; eapply cell_done_ok; eauto]).
  destruct (Z.eqb_spec (o + sz) n) as [Eq | Ne]; eexists _, ctx2, _;
    (split; [reflexivity |]; split; [exact Hot |]; split; [exact Hf2 |]; split; [reflexivity |];
     split; [reflexivity |]);
    destruct (decide (o + sz < n)); unfold sz in *; try lia.
  - pose proof (ci_range _ _ _ _ Hcol2). constructor; simpl; auto; try lia; eauto.
  - constructor; simpl; auto; lia.
Qed.

(** ** Making room *)

Lemma reset_cells_ok cs vs acc n L size :
  Forall2 (cell_ok acc n L) cs vs ->
  exists cs', each_cell (fun c => cell_reset c size) OB_ERR_UNEXPECTED cs = (OB_SUCCESS, cs')
    /\ Forall2 (cell_ok (fun _ => []) 0 (Z.max L size)) cs' vs
    /\ map c_desirable cs' = map c_desirable cs.
Proof.
  induction 1 as [| c u cs vs ([He Hst HL] & Hd & HB) H2 (cs' & E & H2' & Hds)].
  { exists []. auto using Forall2_nil. }
  destruct (pu_reset_ok alloc_total (c_store c) u _ n size Hst) as (st' & Er & Hst' & Hl').
  exists (set_store c st' :: cs'). cbn [each_cell]. unfold cell_reset at 1. rewrite Er. cbn iota beta.
  change (OB_FAIL OB_SUCCESS) with false. cbn iota. rewrite E. split; [reflexivity |].
  split; [constructor; [| exact H2'] | simpl; congruence].
  split; [| split; [exact Hd | exact HB]]. constructor; simpl; [exact He | exact Hst' | lia].
Qed.

Lemma fold_max_ge l d : d <= fold_left (fun d c => Z.max d (c_desirable c)) l d.
Proof.
  revert d. induction l as [| c l IH]; intros d; simpl; [lia |].
  specialize (IH (Z.max d (c_desirable c))). lia.
Qed.

Lemma ctl_resize_ok k L size :
  idle k L -> 0 <= size ->
  exists k', ctl_resize k size = (OB_SUCCESS, k') /\ filling k' (fun _ => []) 0 (Z.max L size)
    /\ desirable_ k' = desirable_ k /\ stored_output_cnt_ k' = 0 /\ output_idx_ k' = 0.
Proof.
  intros [Hcs (cols & n & Hcol) Hlen Hout HL] Hs.
  destruct (reset_cells_ok _ _ _ 0 L size Hcs) as (cs' & E & Hcs' & Hds).
  destruct (col_reset_ok alloc_total (other_store_ k) ins cols n size Hcol Hs (p_ins_count Hplan))
    as (st' & Er & Hcol' & Hl' & Hi').
  unfold ctl_resize. rewrite E. change (OB_SUCC OB_SUCCESS) with true. cbn iota.
  cbn [set_cells other_store_]. rewrite Er. eexists. split; [reflexivity |].
  split; [| auto]. constructor; simpl; auto; try lia.
Qed.

Lemma prepare_ok spec s L :
  idle (o_ctl s) L -> 0 <= desirable_ (o_ctl s) ->
  let d := (get_desirable (o_ctl s)).1 in
  exists k', prepare spec s = mkOp k' (o_brs s)
                (set_ctx (o_world s) (clear_flags (calc_exprs_ spec) (w_ctx (o_world s))))
                (o_child s) (o_gil s)
    /\ filling k' (fun _ => []) 0 (Z.max L (d * BUFFER_MAG))
    /\ desirable_ k' = d /\ desirable_ (o_ctl s) <= d
    /\ stored_output_cnt_ k' = 0 /\ output_idx_ k' = 0.
Proof.
  intros Hid Hd d. pose proof (fold_max_ge (cells_list_ (o_ctl s)) (desirable_ (o_ctl s))) as Hge.
  unfold get_desirable in d. simpl in d. fold d in Hge.
  destruct (ctl_resize_ok (get_desirable (o_ctl s)).2 L (d * BUFFER_MAG)) as (k' & E & Hf & Hdk & Ho & Hi).
  { destruct Hid; constructor; auto. }
  { change BUFFER_MAG with 2. lia. }
  exists k'. unfold prepare. unfold get_desirable in E |- *. cbn [snd] in E. fold d in E |- *.
  cbn iota beta. rewrite E. split; [reflexivity |]. split; [exact Hf |].
  split; [exact Hdk |]. auto.
Qed.

(** ** The child *)

(** A batch of the child: its size, the rows it does not skip, and the slots
    it wrote; constants are not among them. *)
Record good_batch (M : Z) (brs : ObBatchRows) (cols : ObEvalCtx) (val : Z -> list bytes) : Prop :=
  mkGoodBatch
  { gb_size : 0 <= size_ brs <= M;
    gb_wf : ObBitVector.wf (skip_ brs);
    gb_vals : batch_vals val (size_ brs);
    gb_cols : forall e, e ∈ univ -> is_const_expr e = false ->
      exists m, cols !! eid e = Some m /\ col_vis N e m (val (eid e));
    gb_const : forall e, e ∈ univ -> is_const_expr e = true ->
      cols !! eid e = None /\ Forall (eq (K (eid e))) (val (eid e));
    gb_udf : forall u, u ∈ us -> cols !! uid u = None;
    gb_room : ins_room val;
    gb_utf8 : Forall (fun u => utf8_args u val) us }.

(** What the child never writes: the constants and the results. *)
Definition frame_pre (ctx : ObEvalCtx) : Prop :=
  (forall e, e ∈ univ -> is_const_expr e = true ->
     exists m, ctx !! eid e = Some m /\ const_vis e m (K (eid e)))
  /\ Forall (udf_frame ctx) us.

Lemma frame_ok_pre ctx : frame_ok ctx -> frame_pre ctx.
Proof.
  intros [Hv Hu]. split; [| exact Hu]. intros e He Hc. destruct (Hv e He) as (m & Hm & [Hx | Hx]).
  - destruct Hx as (_ & Hc' & _). congruence.
  - exists m. split; [exact Hm | apply Hx].
Qed.

Lemma good_batch_frame M brs cols ctx val :
  good_batch M brs cols val -> frame_pre ctx ->
  ctx_vis N K univ val (cols ∪ ctx) /\ Forall (udf_frame (cols ∪ ctx)) us.
Proof.
  intros G [Hk Hu]. split.
  - intros e He. destruct (is_const_expr e) eqn:Ec.
    + destruct (gb_const _ _ _ _ G e He Ec) as [Hn Hall]. destruct (Hk e He Ec) as (m & Hm & Hcv).
      exists m. rewrite lookup_union_r by exact Hn. split; [exact Hm | right; auto].
    + destruct (gb_cols _ _ _ _ G e He Ec) as (m & Hm & Hc). exists m.
      split; [now apply lookup_union_Some_l | now left].
  - rewrite Forall_forall in Hu |- *. intros u Hin. destruct (Hu u Hin) as (m & Hm & H1).
    exists m. rewrite lookup_union_r by now apply (gb_udf _ _ _ _ G). auto.
Qed.

(** The rest of the child's output: batches of rows, then one empty batch that
    reports the end; [bs] are the rows. *)
Inductive child_script (M : Z) : list ChildResult -> list (words * (Z -> list bytes)) -> Prop :=
  | script_done : child_script M [] []
  | script_end brs cols : good_batch M brs cols (fun _ => []) -> size_ brs = 0 -> end_ brs = true ->
      child_script M [ChildBatch brs cols] []
  | script_rows brs cols val rest bs : good_batch M brs cols val -> end_ brs = false ->
      rest <> [] -> child_script M rest bs ->
      child_script M (ChildBatch brs cols :: rest) ((skip_ brs, val) :: bs).

(** The rows of a list of batches, by expression. *)
Definition rows_of (bs : list (words * (Z -> list bytes))) (i : Z) : list bytes :=
  mjoin (map (fun b => pick b.1 0 (b.2 i)) bs).

(** ** Filling *)

Definition brs_ok (b : ObBatchRows) : Prop :=
  ObBitVector.wf (skip_ b) /\ ObBitVector.fits (skip_ b) B.
Definition frame_for (script : list ChildResult) (ctx : ObEvalCtx) : Prop :=
  match script with [] => frame_ok ctx | _ => frame_pre ctx end.

Lemma frame_for_pre script ctx : frame_for script ctx -> frame_pre ctx.
Proof. destruct script; [apply frame_ok_pre | auto]. Qed.
Lemma frame_ok_for script ctx : frame_ok ctx -> frame_for script ctx.
Proof. intros Hf. destruct script; [exact Hf | now apply frame_ok_pre]. Qed.

Lemma brs_copy_ok dst src :
  brs_ok dst -> ObBitVector.wf (skip_ src) -> brs_ok (brs_copy dst src).
Proof.
  intros [Hw Hf] Hs. split; simpl; [now apply ObBitVector.wf_deep_copy |].
  unfold ObBitVector.fits in *. now rewrite ObBitVector.length_deep_copy.
Qed.

(** The operator between the child and the parent: the parts one turn keeps. *)
Record fetched (s s' : OpState) (acc : Z -> list bytes) (rows : Z -> list bytes)
    (n' L : Z) (acc' : Z -> list bytes) : Prop := mkFetched
  { ft_fill : filling (o_ctl s') acc' n' L;
    ft_acc : forall e, e ∈ univ -> acc' (eid e) = acc (eid e) ++ rows (eid e);
    ft_same : same_outputs (o_ctl s) (o_ctl s');
    ft_brs : brs_ok (o_brs s');
    ft_frame : frame_ok (w_ctx (o_world s'));
    ft_world : o_world s' = set_ctx (o_world s) (w_ctx (o_world s'));
    ft_gil : o_gil s' = o_gil s }.

Lemma fetch_batch_ok s brs cols val rest acc n L M :
  o_child s = ChildBatch brs cols :: rest \/ (o_child s = [] /\ ChildBatch brs cols = child_end /\ rest = []) ->
  filling (o_ctl s) acc n L -> brs_ok (o_brs s) -> M <= B -> n + M <= L ->
  0 <= size_ brs <= M -> ObBitVector.wf (skip_ brs) -> batch_vals val (size_ brs) ->
  ctx_vis N K univ val (cols ∪ w_ctx (o_world s)) -> Forall (udf_frame (cols ∪ w_ctx (o_world s))) us ->
  exists s' acc' n', fetch s = Some (OB_SUCCESS, s')
    /\ fetched s s' acc (fun i => pick (skip_ brs) 0 (val i)) n' L acc'
    /\ n <= n' <= n + M /\ o_child s' = rest
    /\ end_ (o_brs s') = end_ brs /\ size_ (o_brs s') = size_ brs /\ (size_ brs = 0 -> n' = n).
Proof.
  intros Hchild Hfill Hbrs HMB HL Hsz Hwf Hbv Hv Hu.
  set (b := brs_copy (o_brs s) brs). set (w := set_ctx (o_world s) (cols ∪ w_ctx (o_world s))).
  assert (ObBitVector.fits (skip_ (o_brs s)) (size_ brs)) as Hfits.
  { destruct Hbrs as [_ Hf]. unfold ObBitVector.fits in *. lia. }
  pose proof (brs_copy_ok (o_brs s) brs Hbrs Hwf) as Hb.
  assert (0 <= active_cnt b <= size_ brs) as Ha.
  { apply (active_cnt_range b (proj1 Hb)). simpl. lia. }
  destruct (ctl_store_ok (o_ctl s) w acc val n L b Hfill Hv Hbv (proj1 Hb)) as (k' & ctx' & E & Hf' & Hv' & Hs' & Ho');
    try lia.
  eexists _, (extend acc val (skip_ b)), (n + active_cnt b). split.
  { unfold fetch. assert (child_next (o_child s) = (ChildBatch brs cols, rest)) as ->
      by (destruct Hchild as [-> | (-> & -> & ->)]; reflexivity).
    fold w b. rewrite E. cbn [mbind option_bind]. reflexivity. }
  split; [| repeat split; simpl; try lia].
  - constructor; simpl; auto.
    + intros e He. unfold extend. f_equal. apply pick_brs_copy; [exact Hfits |]. now apply (bv_len _ _ Hbv).
    + split; [now apply (ctx_vis_empty val) |]. rewrite Forall_forall in Hu |- *. intros u Hin.
      destruct (Hu u Hin) as (m & Hm & H1). exists m. rewrite Ho'; [auto |].
      intros Hx. exact (p_us_new Hplan u Hin Hx).
Qed.

(** One turn: the next batch of rows is appended, or the end is reported. *)
Lemma fetch_ok s bs acc n L M :
  child_script M (o_child s) bs -> frame_for (o_child s) (w_ctx (o_world s)) ->
  filling (o_ctl s) acc n L -> brs_ok (o_brs s) -> 0 <= M <= B -> n + M <= L ->
  exists s' acc' n' bs1 bs2, fetch s = Some (OB_SUCCESS, s')
    /\ fetched s s' acc (rows_of bs1) n' L acc' /\ n <= n' <= n + M
    /\ bs = bs1 ++ bs2 /\ child_script M (o_child s') bs2
    /\ (length (o_child s') <= length (o_child s) - 1)%nat
    /\ (if end_ (o_brs s') then bs2 = [] /\ o_child s' = [] /\ size_ (o_brs s') = 0 /\ n' = n
        else o_child s' <> []).
Proof.
  intros Hcs Hf Hfill Hb HM HL. pose proof (frame_for_pre _ _ Hf) as Hpre.
  inversion Hcs as [Es Eb | brs cols G Hz He Es Eb | brs cols val rest bs' G He Hne Hrest Es Eb];
    rewrite <- Es in Hf.
  - destruct (fetch_batch_ok s (mkBrs [] 0 true false) ∅ (fun _ => []) [] acc n L M)
      as (s' & acc' & n' & E & Hft & Hn & Hc & He & Hz & Hn0); auto; try (simpl; lia).
    + constructor.
    + constructor; [intros; reflexivity |]. rewrite Forall_forall. intros u Hu.
      eapply Forall_impl; [exact (proj1 (Forall_forall _ _) (p_types Hplan) u Hu) |].
      intros e Hs. split; [exact Hs |]. intros _. constructor.
    + rewrite (left_id_L ∅ (∪)). apply Hf.
    + rewrite (left_id_L ∅ (∪)). apply Hf.
    + exists s', acc', n', [], []. rewrite Hc, He. simpl. rewrite Hz.
      split; [exact E |]. split; [exact Hft |]. specialize (Hn0 eq_refl). repeat split; auto; try lia.
      constructor.
  - destruct (good_batch_frame M brs cols _ _ G Hpre) as [Hv Hu].
    destruct (fetch_batch_ok s brs cols (fun _ => []) [] acc n L M)
      as (s' & acc' & n' & E & Hft & Hn & Hc & He' & Hz' & Hn0);
      auto; try apply G; try lia.
    exists s', acc', n', [], []. rewrite Hc, He', He. simpl. rewrite Hz', Hz.
    specialize (Hn0 Hz). split; [exact E |]. split; [exact Hft |]. repeat split; auto; try lia. constructor.
  - destruct (good_batch_frame M brs cols _ _ G Hpre) as [Hv Hu].
    destruct (fetch_batch_ok s brs cols val rest acc n L M)
      as (s' & acc' & n' & E & Hft & Hn & Hc & He' & Hz' & _);
      auto; try apply G; try lia.
    exists s', acc', n', [(skip_ brs, val)], bs'. rewrite Hc, He', He. split; [exact E |].
    split; [| repeat split; auto; simpl; lia].
    destruct Hft; constructor; auto. intros e Hin. rewrite ft_acc0 by exact Hin.
    unfold rows_of. simpl. now rewrite app_nil_r.
Qed.

Lemma rows_of_app bs1 bs2 i : rows_of (bs1 ++ bs2) i = rows_of bs1 i ++ rows_of bs2 i.
Proof. unfold rows_of. now rewrite map_app, join_app. Qed.

Lemma same_outputs_trans k1 k2 k3 : same_outputs k1 k2 -> same_outputs k2 k3 -> same_outputs k1 k3.
Proof. unfold same_outputs. intuition congruence. Qed.

Lemma fetched_trans s1 s2 s3 acc1 acc2 acc3 bs1 bs2 n2 n3 L :
  fetched s1 s2 acc1 (rows_of bs1) n2 L acc2 -> fetched s2 s3 acc2 (rows_of bs2) n3 L acc3 ->
  fetched s1 s3 acc1 (rows_of (bs1 ++ bs2)) n3 L acc3.
Proof.
  intros [_ A1 S1 _ _ W1 G1] [F2 A2 S2 B2 R2 W2 G2]. constructor; auto.
  - intros e He. rewrite A2, A1, rows_of_app, app_assoc by exact He. reflexivity.
  - now apply (same_outputs_trans _ (o_ctl s2)).
  - rewrite W2, W1. reflexivity.
  - congruence.
Qed.

(** The filling loop: it stops with the buffers above the threshold, or at
    the end of the child. *)
Lemma fill_loop_ok fuel : forall s bs acc n L M,
  child_script M (o_child s) bs -> frame_for (o_child s) (w_ctx (o_world s)) ->
  filling (o_ctl s) acc n L -> brs_ok (o_brs s) -> 0 <= M <= B -> desirable_ (o_ctl s) + M <= L ->
  (length (o_child s) < fuel)%nat -> end_ (o_brs s) = false -> n <= desirable_ (o_ctl s) ->
  exists s' acc' n' bs1 bs2, fill_loop fuel s = Some (OB_SUCCESS, s')
    /\ fetched s s' acc (rows_of bs1) n' L acc' /\ n <= n'
    /\ bs = bs1 ++ bs2 /\ child_script M (o_child s') bs2
    /\ (desirable_ (o_ctl s) < n' \/
        bs2 = [] /\ o_child s' = [] /\ size_ (o_brs s') = 0 /\ end_ (o_brs s') = true).
Proof.
  induction fuel as [| fuel IH]; intros s bs acc n L M Hcs Hf Hfill Hb HM HL Hfuel He Hn; [lia |].
  assert (is_full (o_ctl s) = false) as Hnf.
  { unfold is_full. change (BUFFER_MAG - 1) with 1. rewrite (fl_stored _ _ _ _ Hfill). lia. }
  destruct (fetch_ok s bs acc n L M Hcs Hf Hfill Hb HM ltac:(lia))
    as (s1 & acc1 & n1 & bs1 & bs2 & E & Hft & Hn1 & Hbs & Hcs1 & Hlen & Hend).
  pose proof Hft as [Hfill1 _ (Hd1 & _ & _ & Hdes & _) Hb1 Hf1 _ _].
  cbn [fill_loop]. rewrite He, Hnf. cbn [negb andb]. cbn iota. rewrite E. cbn [mbind option_bind].
  change (OB_SUCC OB_SUCCESS) with true. cbn iota.
  destruct (end_ (o_brs s1)) eqn:Ee.
  { destruct Hend as (Hbs2 & Hc1 & Hz & _). exists s1, acc1, n1, bs1, bs2.
    split; [destruct fuel; cbn [fill_loop]; rewrite Ee; reflexivity |]. split; [exact Hft |].
    split; [lia |]. split; [exact Hbs |]. split; [exact Hcs1 |]. right. auto. }
  destruct (Z.le_gt_cases n1 (desirable_ (o_ctl s1))) as [Hle | Hgt].
  - destruct (IH s1 bs2 acc1 n1 L M) as (s2 & acc2 & n2 & bs3 & bs4 & E2 & Hft2 & Hn2 & Hbs2 & Hcs2 & Hor);
      auto; try lia; [now apply frame_ok_for | |].
    { assert (o_child s <> []) by (intros Hnil; rewrite Hnil in *; simpl in *;
        destruct (o_child s1); [contradiction | simpl in *; lia]).
      destruct (o_child s); [contradiction | simpl in *; lia]. }
    exists s2, acc2, n2, (bs1 ++ bs3), bs4. split; [exact E2 |].
    split; [now apply (fetched_trans s s1 s2 acc acc1 acc2 bs1 bs3 n1 n2 L) |]. split; [lia |].
    split; [now rewrite <- app_assoc, <- Hbs2 |]. split; [exact Hcs2 |]. rewrite <- Hdes. exact Hor.
  - exists s1, acc1, n1, bs1, bs2. split.
    { destruct fuel; cbn [fill_loop]; rewrite Ee;
        assert (is_full (o_ctl s1) = true) as ->
          by (unfold is_full; change (BUFFER_MAG - 1) with 1; rewrite (fl_stored _ _ _ _ Hfill1); lia);
        reflexivity. }
    split; [exact Hft |]. split; [lia |]. split; [exact Hbs |]. split; [exact Hcs1 |]. left. lia.
Qed.

(** ** Clearing flags *)

(** The two contexts differ in the flags of the slots [ids]. *)
Definition flags_only (ids : list Z) (ctx ctx' : ObEvalCtx) : Prop :=
  forall i m, ctx !! i = Some m -> exists m', ctx' !! i = Some m'
    /\ (i ∉ ids -> m' = m) /\ exists a b c, m' = with_flags m a b c.

Lemma flags_only_fold ids (g : ExprMem -> words) ctx :
  flags_only ids ctx (fold_left (fun ctx i =>
    match ctx !! i with
    | Some m => <[i := with_flags m false false (g m)]> ctx
    | None => ctx
    end) ids ctx).
Proof.
  revert ctx. induction ids as [| i ids IH]; intros ctx j m Hj; simpl.
  { exists m. split; [exact Hj |]. split; [auto |].
    exists (evaluated_ m), (projected_ m), (eval_flags_ m). now destruct m. }
  destruct (ctx !! i) as [mi |] eqn:Ei.
  - destruct (decide (j = i)) as [-> | Hne].
    + assert (mi = m) as -> by congruence.
      destruct (IH (<[i := with_flags m false false (g m)]> ctx) i _ (lookup_insert_eq _ _ _))
        as (m' & Hm' & _ & a & b & c & Ef).
      exists m'. split; [exact Hm' |]. split; [intros Hx; exfalso; apply Hx; left |].
      exists a, b, c. rewrite Ef. reflexivity.
    + destruct (IH (<[i := with_flags mi false false (g mi)]> ctx) j m) as (m' & Hm' & Hx & He).
      { now rewrite lookup_insert_ne by auto. }
      exists m'. split; [exact Hm' |]. split; [| exact He]. intros Hn. apply Hx.
      intros Hin. apply Hn. now right.
  - destruct (IH ctx j m Hj) as (m' & Hm' & Hx & He). exists m'. split; [exact Hm' |].
    split; [| exact He]. intros Hn. apply Hx. intros Hin. apply Hn. now right.
Qed.

Lemma flags_only_udf ids ctx ctx' :
  flags_only ids ctx ctx' -> Forall (udf_frame ctx) us -> Forall (udf_frame ctx') us.
Proof.
  intros Hfl Hall. eapply Forall_impl; [exact Hall |]. intros u (m & Hm & Hcap & Hu).
  destruct (Hfl _ _ Hm) as (m' & Hm' & _ & a & b & c & ->). exists (with_flags m a b c). auto.
Qed.

Lemma flags_only_frame ids script ctx ctx' :
  flags_only ids ctx ctx' -> (forall i, i ∈ ids -> i ∉ map eid univ) ->
  frame_for script ctx -> frame_for script ctx'.
Proof.
  intros Hfl Hids. assert (forall e, e ∈ univ -> eid e ∉ ids) as Hn.
  { intros e He Hin. apply (Hids _ Hin). now apply list_elem_of_fmap_2. }
  destruct script; simpl; intros [Hv Hu]; (split; [| now apply (flags_only_udf ids ctx)]).
  - intros e He. destruct (Hv e He) as (m & Hm & H1). destruct (Hfl _ _ Hm) as (m' & Hm' & Heq & _).
    exists m'. rewrite (Heq (Hn e He)) in *. auto.
  - intros e He Hc. destruct (Hv e He Hc) as (m & Hm & H1).
    destruct (Hfl _ _ Hm) as (m' & Hm' & Heq & _). exists m'. rewrite (Heq (Hn e He)) in *. auto.
Qed.

(** ** One call of the operator *)

(** The flags the operator clears are not those of the child's expressions,
    nor, for the filters, those of the results. *)
Definition spec_ok (spec : ObPythonUDFSpec) : Prop :=
  (forall i, i ∈ calc_exprs_ spec -> i ∉ map eid univ)
  /\ (forall i, i ∈ filters_ spec -> (i ∉ map eid univ) /\ (i ∉ map uid us)).

Lemma flags_only_output ids ctx ctx' brs acc o sz :
  flags_only ids ctx ctx' -> (forall i, i ∈ ids -> (i ∉ map eid univ) /\ (i ∉ map uid us)) ->
  output ctx brs acc o sz -> output ctx' brs acc o sz.
Proof.
  intros Hfl Hids [Hs He Hk Hi Hu]. constructor; auto.
  - rewrite Forall_forall in Hi |- *. intros e Hin. destruct (Hi e Hin) as (m & Hm & Hc).
    destruct (Hfl _ _ Hm) as (m' & Hm' & Heq & _). exists m'. rewrite <- Heq in Hc; [auto |].
    intros Hx. apply (proj1 (Hids _ Hx)). apply list_elem_of_fmap_2.
    now destruct (proj1 (Forall_forall _ _) (p_ins Hplan) e Hin).
  - rewrite Forall_forall in Hu |- *. intros u Hin. destruct (Hu u Hin) as ((m & Hm & Hc) & m2 & Hm2 & Hf).
    assert (m2 = m) as -> by (unfold uid in *; congruence).
    destruct (Hfl _ _ Hm) as (m' & Hm' & Heq & _).
    assert (m' = m) as ->.
    { apply Heq. intros Hx. destruct (Hids _ Hx) as [_ Hy]. apply Hy. now apply (list_elem_of_fmap_2 uid). }
    split; exists m; auto.
Qed.

(** The rows to come, [R]: what is left in the buffers, then the child's. *)
Inductive pending (s : OpState) (M L : Z) (R : Z -> list bytes) : Prop :=
  | pending_rows bs acc n o :
      child_script M (o_child s) bs -> draining (o_ctl s) acc n o L ->
      frame_ok (w_ctx (o_world s)) -> ins_room acc ->
      (forall e, e ∈ univ -> R (eid e) = drop (Z.to_nat o) (acc (eid e)) ++ rows_of bs (eid e)) ->
      (forall e, e ∈ univ -> sizes_ok (Z.of_nat (length (rows_of bs (eid e)))) (o_world s)) ->
      pending s M L R
  | pending_none bs :
      child_script M (o_child s) bs -> idle (o_ctl s) L ->
      frame_for (o_child s) (w_ctx (o_world s)) ->
      (forall e, e ∈ univ -> R (eid e) = rows_of bs (eid e)) ->
      (forall e, e ∈ univ -> sizes_ok (Z.of_nat (length (rows_of bs (eid e)))) (o_world s)) ->
      pending s M L R.

(** The operator between two calls. *)
Record op_inv (s : OpState) (M : Z) (R : Z -> list bytes) (total : nat) : Prop := mkOpInv
  { oi_pending : exists L, DEFAULT_PU_LENGTH <= L /\ pending s M L R;
    oi_world : world_ok (o_world s);
    oi_brs : brs_ok (o_brs s);
    oi_end : end_ (o_brs s) = false;
    oi_des : 0 <= desirable_ (o_ctl s);
    oi_gil : o_gil s = false;
    oi_total : forall e, e ∈ univ -> length (R (eid e)) = total }.

Lemma arg_cells_lookup cls cells k :
  np_vals (arg_cells cls cells) !! k
  = (fun c => match cls with
              | ArgStr => VStr c
              | ArgInt => VInt (to_int32 (bytes_int64 c))
              | ArgDouble => VDouble (bytes_int64 c)
              end) <$> cells !! k.
Proof.
  destruct cls; simpl; rewrite ?map_map, list_lookup_fmap; reflexivity.
Qed.

(** A result depends on its row only. *)
Lemma udf_cell_row u acc acc' k k' :
  Forall (fun e => acc (eid e) !! k = acc' (eid e) !! k') (args_ u) ->
  udf_cell u acc k = udf_cell u acc' k'.
Proof.
  intros Hrow. unfold udf_cell, row_result, row_at, arg_arrays. do 2 f_equal.
  rewrite !map_map. induction Hrow as [| e args He Hrest IH]; [reflexivity |].
  cbn [map]. f_equal; [| exact IH]. now rewrite !arg_cells_lookup, He.
Qed.

Lemma output_shift ctx brs acc R o sz n (rest : Z -> list bytes) :
  output ctx brs acc o sz -> 0 <= o -> 0 <= sz -> o + sz <= n ->
  (forall e, e ∈ univ -> Z.of_nat (length (acc (eid e))) = n) ->
  (forall e, e ∈ univ -> R (eid e) = drop (Z.to_nat o) (acc (eid e)) ++ rest (eid e)) ->
  output ctx brs R 0 sz.
Proof.
  intros [Hs He Hk Hi Hu] Ho Hsz Hle Hlen HR. constructor; auto.
  - rewrite Forall_forall in Hi |- *. intros e Hin. destruct (Hi e Hin) as (m & Hm & Hc).
    destruct (proj1 (Forall_forall _ _) (p_ins Hplan) e Hin) as [Huniv _].
    exists m. split; [exact Hm |]. change (Z.to_nat 0) with 0%nat. rewrite drop_0, HR by exact Huniv.
    rewrite take_app_le; [exact Hc |]. rewrite length_drop. specialize (Hlen e Huniv). lia.
  - rewrite Forall_forall in Hu |- *. intros u Hin. destruct (Hu u Hin) as [Hsh Hf].
    split; [| exact Hf]. erewrite map_ext_in; [exact Hsh |]. intros j Hj. apply in_seq in Hj.
    apply udf_cell_row. pose proof (proj1 (Forall_forall _ _) (p_args Hplan) u Hin) as Ha.
    eapply Forall_impl; [exact Ha |]. intros e Huniv. cbn beta. rewrite HR by exact Huniv.
    specialize (Hlen e Huniv). rewrite lookup_app_l by (rewrite length_drop; lia).
    now rewrite lookup_drop.
Qed.

(** The second half of a call: [restore] and the filters. *)
Lemma restore_step spec s M L R acc n o bs total m :
  spec_ok spec -> child_script M (o_child s) bs -> draining (o_ctl s) acc n o L ->
  frame_ok (w_ctx (o_world s)) -> ins_room acc -> DEFAULT_PU_LENGTH <= L ->
  (forall e, e ∈ univ -> R (eid e) = drop (Z.to_nat o) (acc (eid e)) ++ rows_of bs (eid e)) ->
  (forall e, e ∈ univ -> sizes_ok (Z.of_nat (length (rows_of bs (eid e)))) (o_world s)) ->
  world_ok (o_world s) -> brs_ok (o_brs s) -> 0 <= desirable_ (o_ctl s) ->
  (forall e, e ∈ univ -> length (R (eid e)) = total) -> 0 < m <= B ->
  exists k ctx brs,
    ctl_restore (o_ctl s) (o_world s) (o_brs s) m = Some (OB_SUCCESS, k, set_ctx (o_world s) ctx, brs)
    /\ let s' := mkOp k brs (set_ctx (o_world s) (clear_filters (filters_ spec) ctx)) (o_child s) false in
       exists sz, 0 < sz <= m /\ sz <= Z.of_nat total
         /\ output (w_ctx (o_world s')) (o_brs s') R 0 sz
         /\ op_inv s' M (fun i => drop (Z.to_nat sz) (R i)) (total - Z.to_nat sz).
Proof.
  intros [_ Hfil] Hcs Hdr Hf Hroom HL HR Hsz [Hpy Hready] [Hwf Hfits] Hdes Htot Hm.
  pose proof (dr_range _ _ _ _ _ Hdr) as Hr. pose proof (dr_rows _ _ _ _ _ Hdr) as Hrows.
  set (sz := Z.min m (n - o)).
  destruct (ctl_restore_ok (o_ctl s) (o_world s) (o_brs s) acc n o L m Hdr Hready Hf Hroom Hm Hfits)
    as (k & ctx & brs & E & Hot & Hf' & Hskip & Hd & Hnext). fold sz in Hot, Hskip, Hnext.
  exists k, ctx, brs. split; [exact E |]. cbn zeta. exists sz. cbn [o_world o_brs w_ctx set_ctx].
  pose proof (flags_only_fold (filters_ spec) (fun m => ObBitVector.unset (eval_flags_ m) 0) ctx) as Hfl.
  change (flags_only (filters_ spec) ctx (clear_filters (filters_ spec) ctx)) in Hfl.
  assert (forall i, i ∈ filters_ spec -> i ∉ map eid univ) as Hfu by (intros i Hi; now apply Hfil).
  assert (sz <= Z.of_nat total) as Hszt.
  { destruct univ as [| e0 l] eqn:Eu; [now destruct (p_some Hplan) |].
    rewrite <- (Htot e0), (HR e0), length_app, length_drop by left.
    specialize (Hrows e0 ltac:(left)). unfold sz. lia. }
  split; [unfold sz; lia |]. split; [exact Hszt |]. split.
  { apply (flags_only_output (filters_ spec) ctx); [exact Hfl | exact Hfil |].
    apply (output_shift ctx brs acc R o sz n (rows_of bs)); auto; unfold sz; lia. }
  constructor; cbn [o_ctl o_child o_world o_brs o_gil w_ctx set_ctx]; auto.
  - exists L. split; [exact HL |]. destruct (decide (o + sz < n)) as [Hlt | Hge].
    + apply (pending_rows _ M L _ bs acc n (o + sz)); cbn [o_ctl o_child o_world w_ctx set_ctx]; auto.
      * apply (flags_only_frame (filters_ spec) [] ctx _ Hfl Hfu Hf').
      * intros e He. rewrite HR, drop_app_le, drop_drop by (auto; rewrite ?length_drop; specialize (Hrows e He); lia).
        do 2 f_equal. lia.
    + apply (pending_none _ M L _ bs); cbn [o_ctl o_child o_world w_ctx set_ctx]; auto.
      * apply (flags_only_frame (filters_ spec) _ ctx _ Hfl Hfu), frame_ok_for, Hf'.
      * intros e He. rewrite HR by exact He. specialize (Hrows e He).
        rewrite drop_app_ge by (rewrite length_drop; unfold sz in *; lia).
        rewrite length_drop. replace (_ - _)%nat with 0%nat by (unfold sz in *; lia). reflexivity.
  - split; [exact Hpy | exact Hready].
  - split; rewrite Hskip; [now apply ObBitVector.wf_reset |].
    unfold ObBitVector.fits in *. now rewrite ObBitVector.length_reset.
  - apply Hot.
  - lia.
  - intros e He. rewrite length_drop, Htot by exact He. reflexivity.
Qed.

(** ** What holds of the batches holds of the collected rows *)

Lemma pick_Forall {A} (P : A -> Prop) skip j cells : Forall P cells -> Forall P (pick skip j cells).
Proof.
  intros Hall. revert j. induction Hall as [| c cs Hc _ IH]; intros j; cbn [pick]; [constructor |].
  destruct (ObBitVector.at_ skip j); auto.
Qed.

Lemma script_cells M script bs i (P : bytes -> Prop) :
  child_script M script bs ->
  (forall brs cols val, good_batch M brs cols val -> Forall P (val i)) -> Forall P (rows_of bs i).
Proof.
  intros Hcs HP. induction Hcs as [| | brs cols val rest bs G He Hne Hcs IH]; try constructor.
  unfold rows_of. cbn [map mjoin list_join]. apply Forall_app. split; [| exact IH].
  apply pick_Forall. cbn [snd]. exact (HP _ _ _ G).
Qed.

Lemma script_rows_ok M script bs1 bs2 acc :
  child_script M script (bs1 ++ bs2) ->
  (forall e, e ∈ univ -> acc (eid e) = rows_of bs1 (eid e)) ->
  ins_room acc /\ Forall (fun u => utf8_args u acc) us.
Proof.
  intros Hcs Hacc.
  assert (forall i (P : bytes -> Prop),
    (forall brs cols val, good_batch M brs cols val -> Forall P (val i)) -> Forall P (rows_of bs1 i)) as Hall.
  { intros i P HP. pose proof (script_cells M script _ i P Hcs HP) as Hf.
    rewrite rows_of_app in Hf. now apply Forall_app in Hf as [Hf _]. }
  split.
  - unfold ins_room. rewrite Forall_forall. intros e He.
    destruct (proj1 (Forall_forall _ _) (p_ins Hplan) e He) as [Hu _]. rewrite Hacc by exact Hu.
    apply Hall. intros brs cols val G. exact (proj1 (Forall_forall _ _) (gb_room _ _ _ _ G) e He).
  - rewrite Forall_forall. intros u Hu. unfold utf8_args. rewrite Forall_forall. intros e He Hcls.
    pose proof (proj1 (Forall_forall _ _) (proj1 (Forall_forall _ _) (p_args Hplan) u Hu) e He) as Huniv.
    rewrite Hacc by exact Huniv. apply Hall. intros brs cols val G.
    exact (proj1 (Forall_forall _ _) (proj1 (Forall_forall _ _) (gb_utf8 _ _ _ _ G) u Hu) e He Hcls).
Qed.

(** The buffers have room for one more batch whenever the loop asks for one. *)
Lemma capacity_ok L d M :
  DEFAULT_PU_LENGTH <= L -> 0 <= M <= 4096 -> 0 <= d -> d + M <= Z.max L (d * BUFFER_MAG).
Proof. change DEFAULT_PU_LENGTH with 8192. change BUFFER_MAG with 2. lia. Qed.

(** ** The main step *)

(** The first half of a call with nothing to output: the buffers are filled
    and processed. *)
Lemma refill_step spec s M L R bs total :
  spec_ok spec -> child_script M (o_child s) bs -> idle (o_ctl s) L ->
  frame_for (o_child s) (w_ctx (o_world s)) -> DEFAULT_PU_LENGTH <= L ->
  (forall e, e ∈ univ -> R (eid e) = rows_of bs (eid e)) ->
  (forall e, e ∈ univ -> sizes_ok (Z.of_nat (length (rows_of bs (eid e)))) (o_world s)) ->
  world_ok (o_world s) -> brs_ok (o_brs s) -> end_ (o_brs s) = false -> 0 <= desirable_ (o_ctl s) ->
  (forall e, e ∈ univ -> length (R (eid e)) = total) -> 0 <= M <= 4096 -> M <= B ->
  exists s1 s2, fill_loop (S (length (o_child s))) (prepare spec s) = Some (OB_SUCCESS, s1)
    /\ run_process s1 = Some (OB_SUCCESS, s2)
    /\ brs_ok (o_brs s2) /\ world_ok (o_world s2) /\ frame_ok (w_ctx (o_world s2))
    /\ 0 <= desirable_ (o_ctl s2)
    /\ ((total = 0%nat /\ size_ (o_brs s2) = 0 /\ end_ (o_brs s2) = true
         /\ stored_output_cnt_ (o_ctl s2) = 0)
        \/ exists bs2 acc n L2, child_script M (o_child s2) bs2 /\ draining (o_ctl s2) acc n 0 L2
           /\ ins_room acc /\ DEFAULT_PU_LENGTH <= L2
           /\ (forall e, e ∈ univ -> R (eid e) = drop (Z.to_nat 0) (acc (eid e)) ++ rows_of bs2 (eid e))
           /\ (forall e, e ∈ univ -> sizes_ok (Z.of_nat (length (rows_of bs2 (eid e)))) (o_world s2))).
Proof.
  intros [Hcalc _] Hcs Hid Hf HL HR Hsz Hw Hb He Hdes Htot HM HMB.
  destruct (prepare_ok spec s L Hid Hdes) as (k & Ep & Hfill & Hdk & Hge & Hso & Hoi).
  set (d := (get_desirable (o_ctl s)).1) in *. rewrite Ep. set (L' := Z.max L (d * BUFFER_MAG)) in *.
  set (s0 := mkOp _ _ _ _ _).
  pose proof (flags_only_fold (calc_exprs_ spec) eval_flags_ (w_ctx (o_world s))) as Hfl.
  change (flags_only (calc_exprs_ spec) (w_ctx (o_world s)) (w_ctx (o_world s0))) in Hfl.
  pose proof (capacity_ok L d M HL HM ltac:(lia)) as Hcap. fold L' in Hcap.
  destruct (fill_loop_ok (S (length (o_child s))) s0 bs (fun _ => []) 0 L' M)
    as (s1 & acc & n & bs1 & bs2 & E1 & Hft & Hn & Hbs & Hcs1 & Hend); subst s0; simpl; auto; try lia.
  { apply (flags_only_frame (calc_exprs_ spec) _ (w_ctx (o_world s))); auto. }
  pose proof Hft as [Hfill1 Hacc Hsame Hb1 Hf1 Hw1 _]. destruct Hsame as (_ & Hso1 & _ & Hd1 & _).
  simpl in Hso1, Hd1, Hacc.
  assert (world_ok (o_world s1)) as Hwk1 by (rewrite Hw1; exact Hw).
  subst bs. destruct (script_rows_ok M _ bs1 bs2 acc Hcs Hacc) as [Hroom Hutf].
  assert (DEFAULT_PU_LENGTH <= L') as HL' by (unfold L'; lia).
  assert (forall e, e ∈ univ -> R (eid e) = acc (eid e) ++ rows_of bs2 (eid e)) as HR2.
  { intros e Hin. rewrite HR, rows_of_app, Hacc by exact Hin. reflexivity. }
  exists s1. simpl in E1. rewrite E1. unfold run_process.
  destruct (Z.eq_dec n 0) as [-> | Hnz].
  - exists (mkOp (o_ctl s1) (o_brs s1) (o_world s1) (o_child s1) (o_gil s1)). split; [reflexivity |].
    unfold ctl_process, is_empty. rewrite (fl_stored _ _ _ _ Hfill1). cbn [Z.eqb mbind option_bind].
    split; [reflexivity |]. split; [exact Hb1 |]. split; [exact Hwk1 |]. split; [exact Hf1 |].
    cbn [o_ctl]. split; [lia |]. left. simpl.
    destruct Hend as [Hx | (-> & _ & Hz & He1)]; [simpl in Hx; lia |]. split.
    { destruct univ as [| e0 l] eqn:Eu; [now destruct (p_some Hplan) |].
      rewrite <- (Htot e0), HR2, length_app by left.
      pose proof (fl_rows _ _ _ _ Hfill1 e0 ltac:(rewrite Eu; left)). unfold rows_of. simpl. lia. }
    split; [exact Hz |]. split; [exact He1 |]. lia.
  - assert (exists r2, (forall e, e ∈ univ -> length (rows_of bs2 (eid e)) = r2) /\ sizes_ok (Z.of_nat r2 + n) (o_world s1)) as (r2 & Hr2 & Hsz1).
    { assert (forall e, e ∈ univ -> Z.of_nat (length (rows_of bs2 (eid e))) = Z.of_nat total - n) as Hlen2.
      { intros e Hin. pose proof (fl_rows _ _ _ _ Hfill1 e Hin) as Hrow. rewrite <- (Htot e Hin), (HR2 e Hin), length_app. lia. }
      exists (Z.to_nat (Z.of_nat total - n)). split; [intros e Hin; rewrite <- (Hlen2 e Hin); lia |].
      destruct univ as [| e0 l] eqn:Eu; [now destruct (p_some Hplan) |].
      specialize (Hlen2 e0 ltac:(left)). specialize (Hsz e0 ltac:(left)). rewrite <- HR, (Htot e0) in Hsz by left.
      rewrite Z2Nat.id by lia. replace (_ + n) with (Z.of_nat total) by lia. rewrite Hw1. exact Hsz. }
    destruct (ctl_process_ok (o_ctl s1) (o_world s1) acc n L' (Z.of_nat r2) Hfill1 ltac:(lia) Hwk1 ltac:(lia) Hsz1 Hutf)
      as (k2 & w2 & E2 & Hdr & Hw2 & Hsz2 & Hctx2 & Hd2 & _).
    rewrite E2. cbn [mbind option_bind]. eexists. split; [reflexivity |]. split; [reflexivity |].
    simpl. split; [exact Hb1 |]. split; [exact Hw2 |]. rewrite Hctx2. split; [exact Hf1 |].
    split; [lia |]. right. exists bs2, acc, n, L'. split_and!; auto. intros e Hin. now rewrite Hr2.
Qed.

(** A call outputs the next rows, at least one, or reports the end when there
    are none left. *)
Lemma next_ok spec s M R total m :
  spec_ok spec -> op_inv s M R total -> 0 <= M <= 4096 -> M <= B -> 0 < m <= B ->
  exists s', inner_get_next_batch spec s m = Some (OB_SUCCESS, s')
    /\ ((total = 0%nat /\ size_ (o_brs s') = 0 /\ end_ (o_brs s') = true
         /\ frame_ok (w_ctx (o_world s')))
        \/ exists sz, 0 < sz <= m /\ sz <= Z.of_nat total
             /\ output (w_ctx (o_world s')) (o_brs s') R 0 sz
             /\ op_inv s' M (fun i => drop (Z.to_nat sz) (R i)) (total - Z.to_nat sz)).
Proof.
  intros Hspec [(L & HL & Hp) Hw Hb He Hdes Hgil Htot] HM HMB Hm.
  unfold inner_get_next_batch. rewrite Hgil. change with_batch_control_ with true. cbn iota.
  set (s0 := mkOp _ _ _ _ true). destruct Hp as [bs acc n o Hcs Hdr Hf Hroom HR Hsz | bs Hcs Hid Hf HR Hsz].
  - destruct (restore_step spec s0 M L R acc n o bs total m) as (k & ctx & brs & E & Hres); auto.
    unfold can_output. simpl o_ctl. rewrite (dr_out _ _ _ _ _ Hdr), (dr_oidx _ _ _ _ _ Hdr).
    pose proof (dr_range _ _ _ _ _ Hdr). destruct (Z.ltb_spec o n); [| lia]. cbn [negb]. cbn iota.
    cbn [mbind option_bind]. change (OB_FAIL OB_SUCCESS) with false. cbn iota. rewrite E.
    cbn [mbind option_bind]. change (OB_FAIL OB_SUCCESS) with false. cbn iota.
    eexists. split; [reflexivity |]. right. exact Hres.
  - destruct (refill_step spec s0 M L R bs total) as (s1 & s2 & E1 & E2 & Hb2 & Hw2 & Hf2 & Hd2 & Hor); auto.
    unfold can_output. simpl o_ctl. rewrite (id_out _ _ Hid), Z.ltb_irrefl. cbn [negb]. cbn iota.
    rewrite E1. cbn [mbind option_bind]. change (OB_FAIL OB_SUCCESS) with false. cbn iota. rewrite E2.
    cbn [mbind option_bind]. change (OB_FAIL OB_SUCCESS) with false. cbn iota.
    destruct Hor as [(Ht & Hz & He2 & Hso) | (bs2 & acc & n & L2 & Hcs2 & Hdr & Hroom & HL2 & HR2 & Hsz2)].
    + unfold ctl_restore. rewrite Hso. cbn [Z.leb orb]. change (0 <=? 0) with true. cbn [orb]. cbn iota.
      cbn [mbind option_bind]. change (OB_FAIL OB_SUCCESS) with false. cbn iota.
      eexists. split; [reflexivity |]. left. split; [exact Ht |]. split; [exact Hz |]. split; [exact He2 |].
      cbn [o_world w_ctx set_ctx].
      apply (flags_only_frame (filters_ spec) [] (w_ctx (o_world s2))); [| | exact Hf2].
      * apply (flags_only_fold (filters_ spec) (fun m => ObBitVector.unset (eval_flags_ m) 0)).
      * intros i Hi. now apply (proj2 Hspec).
    + destruct (restore_step spec s2 M L2 R acc n 0 bs2 total m) as (k & ctx & brs & E & Hres); auto.
      rewrite E. cbn [mbind option_bind]. change (OB_FAIL OB_SUCCESS) with false. cbn iota.
      eexists. split; [reflexivity |]. right. exact Hres.
Qed.
End OpFacts.
