(* ===== verification/PUOpRun.v ===== *)
(** The operator from its opening on: the state [inner_open] reaches, and what a
    parent reads from the batches of a run. *)
From S2P Require Import Prelude PopCount BitVector Frame FrameFacts FixedArray PyApi BatchSize.
From S2P Require Import PUStore PUStoreFacts PUCell PUCellFacts PUOp PUOpFacts.

(** ** What the parent reads *)

(** The cell of row [k]: [None] when it is null or unreadable. *)
Definition read_cell (m : ExprMem) (k : Z) : option bytes :=
  match is_null m k with Some false => payload_bytes m k | _ => None end.
Definition read_col (m : ExprMem) (n : nat) : option (list bytes) :=
  mapM (fun k => read_cell m (Z.of_nat k)) (seq 0 n).

Lemma mapM_seq {A} (f : nat -> option A) (l : list A) off :
  (forall k x, l !! k = Some x -> f (off + k)%nat = Some x) -> mapM f (seq off (length l)) = Some l.
Proof.
  revert off. induction l as [| x l IH]; intros off Hf; simpl; [reflexivity |].
  pose proof (Hf 0%nat x eq_refl) as H0. rewrite Nat.add_0_r in H0. rewrite H0. simpl.
  rewrite (IH (S off)); [reflexivity |]. intros k y Hk. specialize (Hf (S k) y Hk).
  now rewrite Nat.add_succ_r in Hf.
Qed.

Lemma read_column m cells : column m cells -> read_col m (length cells) = Some cells.
Proof.
  intros (_ & _ & _ & Hh). unfold read_col. apply mapM_seq. intros k b Hk.
  destruct (Hh k b Hk) as [Hn Hp]. unfold read_cell. simpl. now rewrite Hn.
Qed.

Section Run.
Context `{Allocator} `{PyApi}.

(** A run is the list of the batches the parent received: their sizes and the
    frames it saw. *)

(** The rows the parent read from expression [i]. *)
Fixpoint received (outs : list (Z * ObEvalCtx)) (i : Z) : option (list bytes) :=
  match outs with
  | [] => Some []
  | (size, ctx) :: outs' =>
      m ← ctx !! i; cells ← read_col m (Z.to_nat size);
      rest ← received outs' i; Some (cells ++ rest)
  end.

Context `{!PyLaws _} (alloc_total : forall n, alloc_ok n = true).
Context (N B : Z) (K : Z -> bytes) (univ ins : list ObExpr) (us : list ObUdfExpr)
        (F : ObUdfExpr -> list (option ArgVal) -> PyItem).
Hypothesis Hplan : plan_ok N B univ ins us.

(** ** Opening *)

Lemma init_cells_ok vs infos L :
  vs ⊆ us -> 0 < L ->
  Forall (fun u => exists info, infos !! uid u = Some info /\ 0 < predict_size info) us ->
  forall cs, exists cs', init_cells vs B L infos cs = Some (OB_SUCCESS, cs ++ cs')
    /\ Forall2 (cell_ok B (fun _ => []) 0 L) cs' vs.
Proof.
  intros Hsub HL Hinfo. induction vs as [| u vs IH]; intros cs.
  { exists []. rewrite app_nil_r. auto using Forall2_nil. }
  assert (u ∈ us) as Hu by (apply Hsub; left).
  destruct (proj1 (Forall_forall _ _) (p_udf _ _ _ _ _ Hplan) u Hu) as [Hpy Ha].
  destruct (pu_init_ok alloc_total u L Hpy Ha
              (proj1 (Forall_forall _ _) (p_types _ _ _ _ _ Hplan) u Hu) HL) as (st & Est & Hst & Hl).
  destruct (proj1 (Forall_forall _ _) Hinfo u Hu) as (info & Hi & Hp).
  cbn [init_cells]. unfold cell_init at 1. rewrite Est. cbn iota.
  change (OB_FAIL OB_SUCCESS) with false. cbn iota. fold (uid u). rewrite Hi. cbn [mbind option_bind].
  destruct (IH ltac:(intros x Hx; apply Hsub; now right)
              (cs ++ [mkCell u st B (predict_size info) 0 None])) as (cs' & E & H2').
  exists (mkCell u st B (predict_size info) 0 None :: cs'). rewrite <- app_assoc in E. split; [exact E |].
  constructor; [| exact H2']. split; [| split; [exact Hp | reflexivity]]. constructor; auto.
Qed.

(** ** A fresh operator *)

(** The state before [inner_open]. *)
Definition fresh (brs : ObBatchRows) (w : World) (script : list ChildResult) : OpState :=
  mkOp ctl_new brs w script false.

Record run_ok (spec : ObPythonUDFSpec) (brs : ObBatchRows) (w : World) (script : list ChildResult)
    (M : Z) (bs : list (words * (Z -> list bytes))) : Prop := mkRunOk
  { r_batch : max_batch_size_ spec = B;
    r_udfs : udf_exprs_ spec = us;
    r_ins : input_exprs_ spec = ins;
    r_spec : spec_ok univ us spec;
    r_brs : brs_ok B brs /\ end_ brs = false;
    r_world : world_ok us F w;
    r_frame : frame_for N K univ us script (w_ctx w);
    r_script : child_script N K univ ins us M script bs;
    r_bound : 0 <= M <= 4096 /\ M <= B }.

Lemma open_ok spec brs w script M bs :
  run_ok spec brs w script M bs ->
  exists s, inner_open spec (fresh brs w script) = Some (OB_SUCCESS, s)
    /\ capacity_ (o_ctl s) = DEFAULT_PU_LENGTH /\ o_world s = w
    /\ idle B ins us (o_ctl s) DEFAULT_PU_LENGTH
    /\ forall total, (forall e, e ∈ univ -> length (rows_of bs (eid e)) = total) -> sizes_ok us (Z.of_nat total) w ->
         op_inv N B K univ ins us F s M (rows_of bs) total.
Proof.
  intros [HB Hus Hins Hsp [Hbrs He] Hw Hf Hcs HM].
  assert (Forall (fun u => exists info, w_infos w !! uid u = Some info /\ 0 < predict_size info) us) as Hinfo.
  { destruct Hw as [_ Hr]. eapply Forall_impl; [exact Hr |].
    intros u (info & Hi & Hp & _). now exists info. }
  destruct (init_cells_ok us (w_infos w) DEFAULT_PU_LENGTH ltac:(intros x Hx; exact Hx) eq_refl Hinfo [])
    as (cs & Ecs & Hcells). cbn [app] in Ecs.
  destruct (col_init_ok alloc_total ins B DEFAULT_PU_LENGTH ltac:(discriminate) (p_ins_count _ _ _ _ _ Hplan))
    as (st & Est & Hst & Hl & Hi & _).
  unfold inner_open, ctl_init. cbn [fresh o_ctl ctl_new capacity_ cells_list_ o_world].
  rewrite HB, Hus, Hins, Ecs. cbn [mbind option_bind]. change (OB_SUCC OB_SUCCESS) with true. cbn iota.
  cbn [set_cells other_store_ capacity_ fresh o_ctl ctl_new]. rewrite Est. change (OB_FAIL OB_SUCCESS) with false. cbn iota.
  cbn [mbind option_bind]. change (OB_FAIL OB_SUCCESS) with false. cbn iota.
  eexists. split; [reflexivity |]. split; [reflexivity |]. split; [reflexivity |].
  assert (forall k, cells_list_ k = cs -> other_store_ k = st -> output_idx_ k = stored_output_cnt_ k ->
    idle B ins us k DEFAULT_PU_LENGTH) as Hidle.
  { intros k Hk1 Hk2 Hk3. constructor; rewrite ?Hk1, ?Hk2; auto; [eauto | discriminate]. }
  split; [now apply Hidle |]. intros total Htot Hsz. constructor; simpl; auto; [| lia].
  exists DEFAULT_PU_LENGTH. split; [lia |]. apply (pending_none _ _ _ _ _ _ _ _ _ _ _ bs); simpl; auto.
  intros e Hin. now rewrite Htot.
Qed.

(** ** Running to the end *)

(** The batches [outs] show the rows [R], [total] of them, at most [m] each. *)
Record outputs (outs : list (Z * ObEvalCtx)) (m : Z) (R : Z -> list bytes) (total : nat) : Prop :=
  mkOutputs
  { os_sizes : Forall (fun o => 0 < o.1 <= m) outs;
    os_sum : foldr Z.add 0 (map fst outs) = Z.of_nat total;
    os_ins : forall e, e ∈ ins -> received outs (eid e) = Some (R (eid e));
    os_us : forall u, u ∈ us -> received outs (uid u) = Some (udf_col F u R total) }.

Lemma output_received ctx brs R sz outs m total :
  output N ins us F ctx brs R 0 sz -> 0 < sz <= m -> sz <= Z.of_nat total ->
  (forall e, e ∈ univ -> length (R (eid e)) = total) ->
  outputs outs m (fun i => drop (Z.to_nat sz) (R i)) (total - Z.to_nat sz) ->
  outputs ((sz, ctx) :: outs) m R total.
Proof.
  intros [_ _ _ Hi Hu] Hsz Ht Htot [Hss Hsum Hri Hru]. constructor.
  - constructor; [exact Hsz | exact Hss].
  - simpl. lia.
  - intros e He. destruct (proj1 (Forall_forall _ _) Hi e He) as (m' & Hm & (_ & _ & _ & Hcol & _)).
    change (Z.to_nat 0) with 0%nat in Hcol. rewrite drop_0 in Hcol. simpl. rewrite Hm. simpl.
    destruct (proj1 (Forall_forall _ _) (p_ins _ _ _ _ _ Hplan) e He) as [Huniv _].
    pose proof (read_column _ _ Hcol) as Hr. rewrite length_take, Htot, Nat.min_l in Hr by (auto; lia).
    rewrite Hr. simpl. rewrite Hri by exact He. simpl. now rewrite take_drop.
  - intros u Hin. destruct (proj1 (Forall_forall _ _) Hu u Hin) as [(m' & Hm & Hcol & _) _].
    fold (uid u) in Hm. simpl. rewrite Hm. simpl. pose proof (read_column _ _ Hcol) as Hr.
    rewrite length_map, length_seq in Hr. rewrite Hr. simpl. rewrite Hru by exact Hin. simpl. f_equal.
    unfold udf_col. replace total with (Z.to_nat sz + (total - Z.to_nat sz))%nat at 2 by lia.
    rewrite seq_app, map_app. f_equal. simpl. rewrite (map_seq_off _ (Z.to_nat sz)).
    apply map_ext_in. intros k Hk. apply udf_cell_row.
    eapply Forall_impl; [exact (proj1 (Forall_forall _ _) (p_args _ _ _ _ _ Hplan) u Hin) |].
    intros e _. cbn beta. now rewrite lookup_drop.
Qed.

(** All expressions of the child have the same number of rows. *)
Lemma script_total M script bs :
  child_script N K univ ins us M script bs ->
  exists total, forall e, e ∈ univ -> length (rows_of bs (eid e)) = total.
Proof.
  induction 1 as [| | brs cols val rest bs G He Hne Hcs (total & IH)]; try now exists 0%nat.
  exists (Z.to_nat (active_cnt brs) + total)%nat. intros e He'.
  change (rows_of ((skip_ brs, val) :: bs) (eid e))
    with (pick (skip_ brs) 0 (val (eid e)) ++ rows_of bs (eid e)). rewrite length_app, IH by exact He'.
  pose proof (active_cnt_pick brs (val (eid e)) (gb_wf _ _ _ _ _ _ _ _ _ G)
                (bv_len _ _ _ _ (gb_vals _ _ _ _ _ _ _ _ _ G) e He')).
  lia.
Qed.
End Run.

(** ** What the UDFs are to compute *)
Section Values.
Context `{Allocator} `{PyApi}.

(** The argument of a cell as SQL has it: strings, the whole integer, doubles. *)
Definition arg_value (cls : ArgClass) (c : bytes) : ArgVal :=
  match cls with
  | ArgStr => VStr c
  | ArgInt => VInt (bytes_int64 c)
  | ArgDouble => VDouble (bytes_int64 c)
  end.
Definition sql_row (u : ObUdfExpr) (R : Z -> list bytes) (k : nat) : list (option ArgVal) :=
  map (fun e => arg_value (arg_cls e) <$> R (eid e) !! k) (args_ u).
(** The column of [u]: the function on every row. *)
Definition udf_values (F : ObUdfExpr -> list (option ArgVal) -> PyItem) (u : ObUdfExpr) (R : Z -> list bytes) (n : nat) : list bytes :=
  map (fun k => item_bytes (ucls u) (F u (sql_row u R k))) (seq 0 n).

(** The integer arguments are in the range of [int], to which the operator converts them. *)
Definition int_args (us : list ObUdfExpr) (R : Z -> list bytes) : Prop :=
  Forall (fun u => Forall (fun e => arg_cls e = ArgInt -> Forall (fun c => int_range (bytes_int64 c)) (R (eid e))) (args_ u)) us.

Lemma udf_col_values F us u R n : int_args us R -> u ∈ us -> udf_col F u R n = udf_values F u R n.
Proof.
  unfold int_args. rewrite Forall_forall. intros Hi Hu. specialize (Hi u Hu). apply map_ext. intros k.
  unfold udf_cell, row_result, row_at, arg_arrays, sql_row. do 2 f_equal. rewrite map_map.
  induction Hi as [| e es He _ IH]; [reflexivity |]. cbn [map]. f_equal; [| exact IH]. rewrite arg_cells_lookup.
  destruct (R (eid e) !! k) as [c |] eqn:Ec; [| reflexivity]. cbn [fmap option_fmap option_map]. f_equal.
  destruct (arg_cls e) eqn:Ecls; try reflexivity. cbn [arg_value]. f_equal. apply to_int32_small.
  exact (proj1 (Forall_forall _ _) (He eq_refl) c (list_elem_of_lookup_2 _ _ _ Ec)).
Qed.
End Values.
