(* ===== verification/PUOpNext.v ===== *)
(** The Python UDF operator as a vectorised operator: what its parent gets from
    [ObOperator::get_next_batch]. *)
From S2P Require Import Prelude PopCount BitVector Frame FrameFacts FixedArray PyApi BatchSize.
From S2P Require Import PUStore PUStoreFacts Operator PUCell PUCellFacts PUOp PUOpFacts PUOpRun.

Section Next.
Context `{Allocator} `{PyApi}.

Definition set_brs (s : OpState) (b : ObBatchRows) : OpState :=
  mkOp (o_ctl s) b (o_world s) (o_child s) (o_gil s).
Definition set_frame (s : OpState) (c : ObEvalCtx) : OpState :=
  mkOp (o_ctl s) (o_brs s) (set_ctx (o_world s) c) (o_child s) (o_gil s).

(** The concrete operator behind the interface of the base class. *)
#[export] Instance python_udf_vector_op (spec : ObPythonUDFSpec) : VectorOp OpState :=
  {| op_brs := o_brs; op_set_brs := set_brs;
     op_ctx s := w_ctx (o_world s); op_set_ctx := set_frame;
     op_inner_get_next_batch := inner_get_next_batch spec |}.

#[export] Instance python_udf_vector_op_laws spec :
  @VectorOpLaws OpState (python_udf_vector_op spec).
Proof.
  constructor; try reflexivity.
  - now intros [].
  - intros [k b [] c g]. reflexivity.
Qed.

(** A parent that calls [get_next_batch] until the end. *)
Fixpoint drain_op (fuel : nat) (os : OpSpec) (spec : ObPythonUDFSpec) (s : OpState) (flags : OpFlags) (m : Z)
    : option (Z * list (Z * ObEvalCtx)) :=
  match fuel with
  | O => None
  | S fuel' =>
      '(ret, s, flags) ← get_next_batch (H := python_udf_vector_op spec) os fuel' s flags m;
      if OB_FAIL ret then Some (ret, [])
      else if end_ (o_brs s) then Some (ret, [])
      else
        '(ret, outs) ← drain_op fuel' os spec s flags m;
        Some (ret, (size_ (o_brs s), w_ctx (o_world s)) :: outs)
  end.

Context `{!PyLaws _} (alloc_total : forall n, alloc_ok n = true).
Context (N B : Z) (K : Z -> bytes) (univ ins : list ObExpr) (us : list ObUdfExpr)
        (F : ObUdfExpr -> list (option ArgVal) -> PyItem).
Hypothesis Hplan : plan_ok N B univ ins us.

(** ** The base class leaves the operator's output alone *)

Lemma eval_vector_projected e ctx m skip size :
  ctx !! eid e = Some m -> projected_ m = true -> format_ m <> VEC_INVALID ->
  eval_vector e ctx skip size = Some (OB_SUCCESS, ctx).
Proof.
  intros Hm Hp Hf. unfold eval_vector. rewrite Hm. cbn [mbind option_bind].
  rewrite bool_decide_eq_false_2 by exact Hf. cbn [andb mbind option_bind].
  change (OB_FAIL OB_SUCCESS) with false. cbn iota. rewrite Hp. cbn [orb mbind option_bind].
  change (OB_SUCC OB_SUCCESS) with true. cbn [andb]. now rewrite insert_id.
Qed.

Definition ready_output (ctx : ObEvalCtx) (e : ObExpr) : Prop :=
  exists m, ctx !! eid e = Some m /\ projected_ m = true /\ format_ m <> VEC_INVALID.

Lemma project_ready es ctx brs :
  Forall (ready_output ctx) es -> project es ctx brs = Some (OB_SUCCESS, ctx).
Proof.
  induction 1 as [| e es (m & Hm & Hp & Hf) _ IH]; cbn [project]; [reflexivity |].
  rewrite (eval_vector_projected e ctx m _ _ Hm Hp Hf). cbn [mbind option_bind]. rewrite Hm.
  cbn [mbind option_bind]. change (OB_FAIL OB_SUCCESS) with false. cbn iota.
  assert (with_flags m (evaluated_ m) true (eval_flags_ m) = m) as ->
    by (destruct m; cbn in Hp; subst; reflexivity).
  rewrite insert_id by exact Hm. exact IH.
Qed.

(** The output list: columns passed through and results. *)
Definition output_list (es : list ObExpr) : Prop :=
  Forall (fun e => e ∈ ins \/ exists u, u ∈ us /\ e = u_expr u) es.

Lemma output_ready es ctx brs R sz :
  output_list es -> output N ins us F ctx brs R 0 sz -> Forall (ready_output ctx) es.
Proof.
  intros Hes [_ _ _ Hi Hu]. eapply Forall_impl; [exact Hes |]. intros e [He | (u & Hin & ->)].
  - destruct (proj1 (Forall_forall _ _) Hi e He) as (m & Hm & (_ & _ & Hp & Hc & _)).
    exists m. eauto using column_valid.
  - destruct (proj1 (Forall_forall _ _) Hu u Hin) as [(m & Hm & Hc & _) (m2 & Hm2 & _ & Hp)].
    exists m. unfold uid in Hm2. assert (m2 = m) as -> by congruence. eauto using column_valid.
Qed.

(** At the end the output expressions get an empty uniform vector. *)
Lemma init_outputs_ok es ctx :
  Forall (fun e => batch_expr e /\ exists m, ctx !! eid e = Some m) es ->
  exists ctx', init_outputs es ctx 0 = Some (OB_SUCCESS, ctx').
Proof.
  revert ctx. induction es as [| e es IH]; intros ctx Hes; cbn [init_outputs]; [eauto |].
  apply Forall_cons in Hes as [(Hb & m & Hm) Hes]. rewrite Hm. cbn [mbind option_bind].
  pose proof (batch_expr_result e Hb) as Hbr. pose proof (batch_expr_uniform e Hb) as Hun.
  unfold uniform_format. rewrite Hbr. unfold init_vector. rewrite Hbr. cbn [negb andb mbind option_bind].
  rewrite Hun. cbn [mbind option_bind]. change (OB_FAIL OB_SUCCESS) with false. cbn iota. apply IH.
  eapply Forall_impl; [exact Hes |]. intros e' (Hb' & m' & Hm'). split; [exact Hb' |].
  destruct (decide (eid e' = eid e)) as [-> | Hne].
  - eexists. apply lookup_insert_eq.
  - exists m'. now rewrite lookup_insert_ne by auto.
Qed.

Lemma outputs_in_frame es w ctx :
  output_list es -> frame_ok N K univ us ctx -> Forall (udf_ready F w) us ->
  Forall (fun e => batch_expr e /\ exists m, ctx !! eid e = Some m) es.
Proof.
  intros Hes [Hv Hu] Hready. eapply Forall_impl; [exact Hes |]. intros e [He | (u & Hin & ->)].
  - destruct (proj1 (Forall_forall _ _) (ins_loadable N B K univ ins us Hplan ctx Hv) e He)
      as (Hb & m & Hm & _). eauto.
  - destruct (proj1 (Forall_forall _ _) Hu u Hin) as (m & Hm & _).
    destruct (proj1 (Forall_forall _ _) Hready u Hin) as (info & _ & _ & _ & _ & Hre).
    split; [exact (result_expr_batch _ _ _ Hre) | eauto].
Qed.

(** ** One call *)

(** An operator in rich format under a parent in rich format, without filters and
    startup filters. *)
Definition plain_spec (os : OpSpec) : Prop :=
  sp_max_batch_size os = B /\ output_list (sp_output os) /\ sp_filters os = [] /\ sp_startup_filters os = []
  /\ sp_change os = SameFormat /\ sp_use_rich_format os = true.

Lemma op_inv_reset s M R total :
  op_inv N B K univ ins us F s M R total ->
  op_inv N B K univ ins us F (set_brs s (reset_batchrows (o_brs s))) M R total.
Proof.
  intros [Hp Hw [Hwf Hf] He Hd Hg Ht]. constructor; simpl; auto.
  - destruct Hp as (L & HL & [bs acc n o | bs]); exists L; (split; [exact HL |]);
      [eapply pending_rows | eapply pending_none]; simpl; eauto.
  - unfold reset_batchrows. destruct (0 <? size_ (o_brs s)); split; simpl; auto.
    + now apply ObBitVector.wf_reset.
    + unfold ObBitVector.fits in *. now rewrite ObBitVector.length_reset.
  - unfold reset_batchrows. destruct (0 <? size_ (o_brs s)); exact He.
Qed.

Lemma accumulate_none v size :
  ObBitVector.wf v -> 0 <= size -> (forall i, 0 <= i < size -> ObBitVector.at_ v i = false) ->
  ObBitVector.accumulate_bit_cnt v size = 0.
Proof.
  intros Hw Hs Hz. rewrite ObBitVector.count_accumulate by assumption. unfold count.
  rewrite (count_nat_ext _ _ _ (fun _ => false)) by (intros i Hi; apply Hz; lia).
  assert (forall n lo, count_nat n lo (fun _ => false) = 0) as Hc
    by (induction n as [| n IH]; intros lo; cbn [count_nat Z.b2z]; [| rewrite IH]; reflexivity).
  apply Hc.
Qed.

Lemma next_batch_ok os spec fuel s M R total m :
  plain_spec os -> spec_ok univ us spec -> op_inv N B K univ ins us F s M R total ->
  0 <= M <= 4096 -> M <= B -> 0 < m ->
  exists s' flags, get_next_batch (H := python_udf_vector_op spec) os (S fuel) s (mkFlags false true) m = Some (OB_SUCCESS, s', flags)
    /\ ((total = 0%nat /\ end_ (o_brs s') = true)
        \/ exists sz, 0 < sz <= Z.min m B /\ sz <= Z.of_nat total /\ flags = mkFlags false true
             /\ output N ins us F (w_ctx (o_world s')) (o_brs s') R 0 sz
             /\ op_inv N B K univ ins us F s' M (fun i => drop (Z.to_nat sz) (R i)) (total - Z.to_nat sz)).
Proof.
  intros (HB & Hout & Hfil & _ & Hch & Hrich) Hspec Hinv HM HMB Hm. pose proof (p_batch _ _ _ _ _ Hplan) as HBN.
  set (s0 := set_brs s (reset_batchrows (o_brs s))).
  pose proof (op_inv_reset s M R total Hinv) as Hinv0. fold s0 in Hinv0.
  destruct (next_ok alloc_total N B K univ ins us F Hplan spec s0 M R total (Z.min m B)
              Hspec Hinv0 HM HMB ltac:(lia)) as (s1 & E & Hor).
  unfold get_next_batch, startup. cbn [batch_reach_end_ startup_passed_ negb andb mbind option_bind]. change (OB_FAIL OB_SUCCESS) with false. cbn iota.
  cbn [op_set_brs op_brs python_udf_vector_op]. fold s0. cbn [next_loop]. cbn [op_brs python_udf_vector_op op_inner_get_next_batch].
  rewrite (oi_end _ _ _ _ _ _ _ _ _ _ _ Hinv0), HB, E. cbn [mbind option_bind].
  change (OB_FAIL OB_SUCCESS) with false. cbn iota.
  destruct Hor as [(Ht & Hz & He & Hfr) | (sz & Hsz & Hszt & Hot & Hinv1)].
  - rewrite Hz. change (ObBitVector.accumulate_bit_cnt (skip_ (o_brs s1)) 0) with 0. cbn [Z.eqb].
    change (0 =? 0) with true. cbn iota.
    cbn [op_set_brs python_udf_vector_op]. set (s2 := set_brs s1 _).
    assert (end_ (o_brs s2) = true /\ size_ (o_brs s2) = 0) as (He2 & Hz2).
    { unfold s2. cbn. unfold reset_batchrows. rewrite Hz. cbn. auto. }
    assert (next_loop (H := python_udf_vector_op spec) os fuel s2 m = Some (OB_SUCCESS, s2)) as ->
      by (destruct fuel; cbn [next_loop op_brs python_udf_vector_op]; now rewrite He2).
    cbn [mbind option_bind]. change (OB_SUCC OB_SUCCESS) with true.
    cbn [op_brs op_ctx python_udf_vector_op]. rewrite Hz2. cbn [andb Z.ltb].
    change (0 <? 0) with false. cbn iota. cbn [mbind option_bind]. change (OB_SUCC OB_SUCCESS) with true.
    cbn [op_brs op_ctx python_udf_vector_op].
    rewrite He2, Hz2. cbn [andb]. change (0 =? 0) with true. cbn iota.
    destruct (init_outputs_ok (sp_output os) (w_ctx (o_world s2))) as (ctx' & Ei).
    { eapply outputs_in_frame; eauto. apply (oi_world _ _ _ _ _ _ _ _ _ _ _ Hinv0). }
    rewrite Ei. cbn [mbind option_bind]. change (OB_SUCC OB_SUCCESS) with true. cbn [andb].
    cbn [op_brs op_ctx python_udf_vector_op op_set_ctx set_frame o_brs]. rewrite He2, Hz2. cbn [andb].
    change (0 <=? 0) with true. cbn iota. unfold convert_vector_format. rewrite Hch. cbn [mbind option_bind].
    rewrite Hrich. eexists _, (mkFlags true true). split; [reflexivity |]. left. split; [exact Ht | reflexivity].
  - pose proof (ot_size _ _ _ _ _ _ _ _ _ Hot) as Hs1. pose proof (ot_end _ _ _ _ _ _ _ _ _ Hot) as He1.
    rewrite Hs1, accumulate_none; [| apply (oi_brs _ _ _ _ _ _ _ _ _ _ _ Hinv1) | lia
                              | apply (ot_skip _ _ _ _ _ _ _ _ _ Hot)].
    destruct (Z.eqb_spec sz 0); [lia |]. rewrite Hfil. cbn [mbind option_bind].
    change (OB_SUCC OB_SUCCESS) with true. cbn [op_brs op_ctx python_udf_vector_op]. rewrite Hs1.
    destruct (Z.ltb_spec 0 sz); [| lia]. cbn [andb]. cbn iota.
    rewrite (project_ready _ _ _ (output_ready _ _ _ _ _ Hout Hot)). cbn [mbind option_bind].
    change (OB_SUCC OB_SUCCESS) with true. cbn [op_set_ctx python_udf_vector_op].
    assert (set_frame s1 (w_ctx (o_world s1)) = s1) as -> by (destruct s1 as [? ? [] ? ?]; reflexivity).
    cbn [op_brs python_udf_vector_op]. rewrite He1. cbn [andb mbind option_bind].
    change (OB_SUCC OB_SUCCESS) with true. cbn [andb]. rewrite He1. cbn [andb]. cbn iota.
    change (OB_SUCC OB_SUCCESS) with true. cbn iota. unfold convert_vector_format. rewrite Hch.
    cbn [mbind option_bind]. rewrite Hrich. cbn [op_set_ctx op_ctx python_udf_vector_op].
    assert (set_frame s1 (w_ctx (o_world s1)) = s1) as -> by (destruct s1 as [? ? [] ? ?]; reflexivity).
    eexists s1, (mkFlags false true). split; [reflexivity |]. right. exists sz. auto.
Qed.

Lemma drain_op_ok os spec M m fuel : forall s R total,
  plain_spec os -> spec_ok univ us spec -> op_inv N B K univ ins us F s M R total ->
  0 <= M <= 4096 -> M <= B -> 0 < m -> (total < fuel)%nat ->
  exists outs, drain_op (S fuel) os spec s (mkFlags false true) m = Some (OB_SUCCESS, outs)
    /\ outputs ins us F outs (Z.min m B) R total.
Proof.
  induction fuel as [| fuel IH]; intros s R total Hos Hspec Hinv HM HMB Hm Hfuel; [lia |].
  destruct (next_batch_ok os spec fuel s M R total m Hos Hspec Hinv HM HMB Hm)
    as (s' & flags & E & [(Ht & He) | (sz & Hsz & Hszt & -> & Hot & Hinv')]);
    remember (S fuel) as f eqn:Ef; cbn [drain_op]; rewrite E; subst f;
    cbn [mbind option_bind]; change (OB_FAIL OB_SUCCESS) with false; cbn iota.
  - rewrite He. exists []. split; [reflexivity |]. subst total. constructor; simpl; auto.
    intros e He'. destruct (proj1 (Forall_forall _ _) (p_ins _ _ _ _ _ Hplan) e He') as [Huniv _].
    pose proof (oi_total _ _ _ _ _ _ _ _ _ _ _ Hinv e Huniv) as Hl. now destruct (R (eid e)).
  - rewrite (ot_end _ _ _ _ _ _ _ _ _ Hot).
    destruct (IH s' _ _ Hos Hspec Hinv' HM HMB Hm ltac:(lia)) as (outs & E' & Hos').
    rewrite E'. cbn [mbind option_bind]. eexists. split; [reflexivity |].
    rewrite (ot_size _ _ _ _ _ _ _ _ _ Hot).
    eapply (output_received N B univ ins us F Hplan); eauto. apply (oi_total _ _ _ _ _ _ _ _ _ _ _ Hinv).
Qed.
End Next.
