(* ===== verification/Demo.v ===== *)
(** A small concrete engine, at which the general theorems are instantiated: an
    allocator that never fails, an interpreter with two functions, a plan with
    an integer column, a string column, a constant and two Python UDFs, and a
    child with two batches of rows. *)
From S2P Require Import Prelude PopCount BitVector Frame FrameFacts FixedArray PyApi BatchSize.
From S2P Require Import PUStore PUStoreFacts PUCell PUCellFacts PUOp PUOpFacts PUOpRun Operator.
From S2P Require Import PUOpNext.

Module Demo.

#[export] Instance ample : Allocator := fun _ => true.

(** ** The interpreter: [add] on two integers, [echo] on a string *)

Definition add (row : list (option ArgVal)) : ArgVal :=
  match row with [Some (VInt x); Some (VInt y)] => VInt (x + y) | _ => VInt 0 end.
Definition echo (row : list (option ArgVal)) : ArgVal :=
  match row with [Some (VStr b)] => VStr (b ++ b) | _ => VStr [] end.

Definition py_call (name : string) (args : list NpArray) : list ArgVal :=
  let f := if String.eqb name "add_pyfun" then add else echo in
  map (fun k => f (row_at args k)) (seq 0 (match args with [] => 0%nat | a :: _ => np_len a end)).

#[export] Instance api : PyApi :=
  { PyState := unit; PyObj := list ArgVal; PyItem := ArgVal;
    PyTuple_New_ok _ _ := true; PyUnicode_ok _ := true; find_pyfun _ _ := true;
    PyObject_CallObject s name args := (s, Some (py_call name args));
    PyArray_Concatenate a b := Some (a ++ b);
    PyArray_GETITEM o i := rd o i;
    PyUnicode_AsUTF8 v := match v with VStr b => Some b | _ => None end;
    PyLong_AsLong v := match v with VInt z => z | _ => -1 end;
    PyFloat_AsDouble v := match v with VDouble z => z | _ => 0 end }.

#[export] Instance laws : PyLaws api.
Proof.
  refine {| dtype_t := unit; items := fun o : @PyObj api => o; dtype := fun _ => tt;
            py_ok := fun _ => True |}.
  - reflexivity.
  - intros a b _. exists (a ++ b). auto.
  - reflexivity.
Defined.

Lemma add_contract : row_function "add_pyfun" add.
Proof.
  exists tt. intros s args n _ Hn Ha Hlen. split; [reflexivity |].
  eexists _, _. split; [reflexivity |]. split; [exact I |]. split; [reflexivity |].
  simpl. unfold py_call. simpl. destruct args as [| a args]; [contradiction |].
  apply Forall_cons in Hlen as [-> _]. reflexivity.
Qed.

Lemma echo_contract : row_function "echo_pyfun" echo.
Proof.
  exists tt. intros s args n _ Hn Ha Hlen. split; [reflexivity |].
  eexists _, _. split; [reflexivity |]. split; [exact I |]. split; [reflexivity |].
  simpl. unfold py_call. simpl. destruct args as [| a args]; [contradiction |].
  apply Forall_cons in Hlen as [-> _]. reflexivity.
Qed.

(** ** The plan *)

Definition col_int : ObExpr :=
  mkExpr 1 ObIntType VEC_TC_INTEGER true true false true 8 false true None.
Definition col_str : ObExpr :=
  mkExpr 2 ObVarcharType VEC_TC_STRING true false false true 16 false true None.
Definition seven : ObExpr :=
  mkExpr 3 ObIntType VEC_TC_INTEGER false true true true 8 false true None.
Definition add_udf : ObUdfExpr :=
  mkUdf (mkExpr 4 ObIntType VEC_TC_INTEGER true true false true 8 true true None) true [col_int; seven].
Definition echo_udf : ObUdfExpr :=
  mkUdf (mkExpr 5 ObVarcharType VEC_TC_STRING true false false true 16 true true None) true [col_str].

Definition univ : list ObExpr := [col_int; col_str; seven].
Definition ins : list ObExpr := [col_int; col_str].
Definition us : list ObUdfExpr := [add_udf; echo_udf].
Definition F (u : ObUdfExpr) : list (option ArgVal) -> @PyItem api :=
  if eid (u_expr u) =? 4 then add else echo.
Definition K (i : Z) : bytes := int64_bytes 7.
Definition spec : ObPythonUDFSpec := mkSpec 4 us ins [4; 5] [9].

Definition op_spec : OpSpec :=
  mkOpSpec 4 [col_int; u_expr echo_udf; u_expr add_udf] [] [] (fun _ _ => None) SameFormat true.

Lemma plan : plan_ok 4 4 univ ins us.
Proof.
  assert (forall e, e ∈ univ -> e = col_int \/ e = col_str \/ e = seven) as Hu.
  { intros e He. unfold univ in He. rewrite !elem_of_cons, elem_of_nil in He. intuition. }
  assert (forall e, e = col_int \/ e = col_str \/ e = seven -> e ∈ univ) as Hin.
  { intros e He. unfold univ. rewrite !elem_of_cons. intuition. }
  constructor.
  - intros e e' He He' E. apply Hu in He, He'. intuition; subst; reflexivity || discriminate.
  - repeat (constructor; [split; [apply Hin; auto | reflexivity] |]). constructor.
  - apply (bool_decide_eq_true_1 (NoDup (map eid ins))). reflexivity.
  - discriminate.
  - apply (bool_decide_eq_true_1 (NoDup (map uid us))). reflexivity.
  - intros u Hin'. apply (bool_decide_eq_true_1 (uid u ∉ map eid univ)).
    unfold us in Hin'. rewrite !elem_of_cons, elem_of_nil in Hin'.
    destruct Hin' as [-> | [-> | []]]; reflexivity.
  - repeat (constructor; [repeat (constructor; [apply Hin; auto |]); constructor |]). constructor.
  - repeat (constructor; [repeat (constructor; [eexists; reflexivity |]); constructor |]). constructor.
  - repeat (constructor; [split; [reflexivity | discriminate] |]). constructor.
  - discriminate.
  - lia.
Qed.

(** ** Frames *)

Definition zeros (n : nat) : list Z := replicate n 0.
Definition empty_datums : list ObDatum := replicate 4 (mkDatum PNull 0 false).

(** Four rows of eight bytes, with the integers [vs] in the first ones. *)
Definition int_mem (vs : list Z) : ExprMem :=
  let b := mjoin (map int64_bytes vs) in
  mkMem VEC_FIXED (PFrame 0) 8 (replicate 4 PNull) (zeros 4) [] [] [0] empty_datums None
    (b ++ zeros (32 - length b)) false true [0].

Definition str_mem (bs : list bytes) : ExprMem :=
  let k := (4 - length bs)%nat in
  mkMem VEC_DISCRETE PNull 0 (map PExt bs ++ replicate k PNull)
    (map (fun b => Z.of_nat (length b)) bs ++ zeros k) [] [] [0] empty_datums None
    (zeros 64) false true [0].

(** The strings [bs] as a uniform vector. *)
Definition uniform_str (bs : list bytes) : ExprMem :=
  mkMem VEC_UNIFORM PNull 0 (replicate 4 PNull) (zeros 4) [] [] [0]
    (map str_datum bs ++ replicate (4 - length bs) (mkDatum PNull 0 false)) None (zeros 64) false true [0].

Definition const_mem : ExprMem :=
  mkMem VEC_UNIFORM_CONST PNull 0 [] [] [] [] [0] [mkDatum (PExt (int64_bytes 7)) 8 false] None [] false false [0].

Definition val (ints : list Z) (strs : list bytes) (i : Z) : list bytes :=
  if i =? 1 then map int64_bytes ints
  else if i =? 2 then strs
  else if i =? 3 then map (fun _ => int64_bytes 7) ints
  else [].

Definition batch (ints : list Z) (strs : list bytes) (skip : Z) (fin : bool) : ChildResult :=
  ChildBatch (mkBrs [skip] (Z.of_nat (length ints)) fin false)
    {[1 := int_mem ints; 2 := str_mem strs]}.

Definition script : list ChildResult :=
  [batch [10; 20; 30] [[97]; [98; 99]; []] 2 false;
   batch [40; 50] [[120]; [121; 122]] 0 false;
   batch [] [] 0 true].
Definition bs : list (words * (Z -> list bytes)) :=
  [([2], val [10; 20; 30] [[97]; [98; 99]; []]); ([0], val [40; 50] [[120]; [121; 122]])].

(** A clock that ticks once a microsecond. *)
Definition world : World :=
  mkWorld tt (fun n => mkTime 0 (Z.of_nat n)) 0
    {[4 := initial_info "add" INTEGER; 5 := initial_info "echo" STRING]}
    {[3 := const_mem; 4 := int_mem []; 5 := str_mem []]}.
Definition brs0 : ObBatchRows := mkBrs [0] 0 false false.

(** ** The hypotheses hold *)

Lemma column_read m cells :
  column_format (format_ m) -> udatums_ m = None -> (length cells <= length (datums_ m))%nat ->
  read_col m (length cells) = Some cells -> column m cells.
Proof.
  intros Hf Hu Hl Hr. split; [exact Hf |]. split; [exact Hu |]. split; [exact Hl |].
  intros k b Hk. unfold read_col in Hr. apply mapM_Some in Hr.
  destruct (Forall2_lookup_r _ _ _ _ _ Hr Hk) as (j & Hj & Hc).
  apply lookup_seq in Hj as [-> _]. simpl in Hc. unfold read_cell in Hc.
  unfold holds. destruct (is_null m (Z.of_nat k)) as [[] |]; try discriminate. auto.
Qed.

Ltac col_ok :=
  apply column_read;
  [unfold column_format; (left; reflexivity) || (right; left; reflexivity)
  | reflexivity | simpl; lia | vm_compute; reflexivity].
Ltac wf_ok :=
  unfold ObBitVector.wf; cbn [skip_ brs0]; rewrite ?Forall_cons, Forall_nil; unfold W64; lia.
Ltac cap_ok :=
  repeat split; try (vm_compute; discriminate).

Lemma plain : plain_spec 4 ins us op_spec.
Proof.
  split; [reflexivity |]. split; [| auto]. 
  constructor; [| constructor; [| constructor; [| constructor]]].
  - left. left.
  - right. exists echo_udf. split; [unfold us; right; left | reflexivity].
  - right. exists add_udf. split; [unfold us; left | reflexivity].
Qed.

Lemma in_univ (P : ObExpr -> Prop) : P col_int -> P col_str -> P seven -> forall e, e ∈ univ -> P e.
Proof.
  intros H1 H2 H3 e He. unfold univ in He. rewrite !elem_of_cons, elem_of_nil in He.
  destruct He as [-> | [-> | [-> | []]]]; assumption.
Qed.
Lemma in_us (P : ObUdfExpr -> Prop) : P add_udf -> P echo_udf -> forall u, u ∈ us -> P u.
Proof.
  intros H1 H2 u Hu. unfold us in Hu. rewrite !elem_of_cons, elem_of_nil in Hu.
  destruct Hu as [-> | [-> | []]]; assumption.
Qed.

Lemma int_batch_expr : batch_expr col_int.
Proof. left. repeat split; discriminate. Qed.
Lemma str_batch_expr : batch_expr col_str.
Proof. right. repeat split; discriminate. Qed.

Lemma world_is_ok : world_ok us F world.
Proof.
  split; [exact I |]. apply Forall_forall, in_us; eexists; split; try reflexivity;
    (split; [vm_compute; reflexivity |]; split; [vm_compute; discriminate |]; split).
  - exact add_contract.
  - split; [reflexivity |]. split; [reflexivity |]. split; [reflexivity |].
    repeat split; discriminate.
  - exact echo_contract.
  - split; [reflexivity |]. split; [reflexivity |]. split; [reflexivity |].
    repeat split; discriminate.
Qed.

Lemma frame_is_ok : frame_for 4 K univ us script (w_ctx world).
Proof.
  split.
  - apply (in_univ (fun e => is_const_expr e = true -> _)); try discriminate. intros _.
    exists const_mem. split; [reflexivity |]. repeat split. exists (mkDatum (PExt (int64_bytes 7)) 8 false).
    repeat split.
  - apply Forall_forall, in_us; eexists; (split; [reflexivity |]; split; [cap_ok | reflexivity]).
Qed.

Ltac fall tac :=
  repeat match goal with
         | |- Forall _ [] => apply List.Forall_nil
         | |- Forall _ (_ :: _) => apply List.Forall_cons
         end; tac.
Ltac reduce := cbn beta; match goal with |- Forall _ ?l => let l' := eval vm_compute in l in change l with l' end.

Ltac good :=
  constructor;
  [ simpl; lia
  | wf_ok
  | constructor; [apply in_univ; reflexivity |];
    apply Forall_forall, in_us; cbn [args_ add_udf echo_udf];
    fall ltac:(split; [eexists; reflexivity |]; intros Hne;
               first [exfalso; apply Hne; reflexivity | reduce; fall ltac:(reflexivity)])
  | apply (in_univ (fun e => is_const_expr e = false -> _)); try discriminate; intros _;
    eexists; (split; [reflexivity |]);
    (split; [exact int_batch_expr || exact str_batch_expr |];
     split; [reflexivity |]; split; [reflexivity |]; split; [col_ok | cap_ok])
  | apply (in_univ (fun e => is_const_expr e = true -> _)); try discriminate; intros _;
    split; [reflexivity |]; reduce; fall ltac:(reflexivity)
  | apply in_us; reflexivity
  | unfold ins_room, ins; fall ltac:(reduce; fall ltac:(split; vm_compute; (reflexivity || discriminate)))
  | apply Forall_forall, in_us; unfold utf8_args; cbn [args_ add_udf echo_udf];
    fall ltac:(intros _; reduce; fall ltac:(reflexivity)) ].

Lemma script_is_ok : child_script 4 K univ ins us 3 script bs.
Proof.
  apply (script_rows _ _ _ _ _ 3 (mkBrs [2] 3 false false) _ (val [10; 20; 30] [[97]; [98; 99]; []]));
    [good | reflexivity | discriminate |].
  apply (script_rows _ _ _ _ _ 3 (mkBrs [0] 2 false false) _ (val [40; 50] [[120]; [121; 122]]));
    [good | reflexivity | discriminate |].
  apply script_end; [good | reflexivity | reflexivity].
Qed.

Lemma run : run_ok 4 4 K univ ins us F spec brs0 world script 3 bs.
Proof.
  constructor; try reflexivity.
  - split; intros i Hi; apply list_elem_of_In in Hi; simpl in Hi.
    + apply (bool_decide_eq_true_1 (i ∉ map eid univ)). destruct Hi as [<- | [<- | []]]; reflexivity.
    + split; [apply (bool_decide_eq_true_1 (i ∉ map eid univ)) | apply (bool_decide_eq_true_1 (i ∉ map uid us))];
        destruct Hi as [<- | []]; reflexivity.
  - split; [| reflexivity]. split; [wf_ok | vm_compute; discriminate].
  - exact world_is_ok.
  - exact frame_is_ok.
  - exact script_is_ok.
  - lia.
Qed.

Lemma ints : int_args us (rows_of bs).
Proof.
  apply Forall_forall, in_us; cbn [args_ add_udf echo_udf]; fall ltac:(intros Hc; first [discriminate Hc | reduce; fall ltac:(split; vm_compute; congruence)]).
Qed.
Lemma sizes : forall e, e ∈ univ -> sizes_ok us (Z.of_nat (length (rows_of bs (eid e)))) world.
Proof.
  apply in_univ; apply Forall_forall, in_us; intros info Hi; injection Hi as <-; vm_compute; reflexivity.
Qed.

(** ** A cell with five saved rows *)

Definition echo_cells : list bytes := [[97]; [98; 99]; []; [100]; [101; 102; 103]].
Definition echo_rows (i : Z) : list bytes := if i =? 2 then echo_cells else [].
Definition echo_cell : ObPythonUDFCell :=
  mkCell echo_udf
    (mkPU (Some echo_udf) 8 (Some [Some (BufStr (map (fun b => Some (str_datum b)) echo_cells ++ replicate 3 None))])
       5 true) 4 2 0 None.

Lemma echo_cell_inv : cell_inv echo_cell echo_udf echo_rows 5 8.
Proof.
  constructor; [reflexivity | | reflexivity]. constructor; try reflexivity; try discriminate; [| | cbn; lia].
  - eexists. split; [reflexivity |]. constructor; [| constructor].
    eexists _, ArgStr. split; [reflexivity |]. split; [reflexivity |]. split; [reflexivity |].
    exists (replicate 3 None). reflexivity.
  - repeat constructor.
Qed.

Lemma echo_ready : udf_contract world echo_udf echo.
Proof.
  exists (initial_info "echo" STRING). split; [reflexivity |]. split; [reflexivity |].
  split; [discriminate | exact echo_contract].
Qed.

Lemma echo_sizes : forall info, w_infos world !! eid (u_expr echo_udf) = Some info -> size_fits info 5.
Proof. intros info Hi. injection Hi as <-. vm_compute. reflexivity. Qed.
Lemma echo_utf8 : utf8_args echo_udf echo_rows.
Proof. constructor; [| constructor]. intros _. repeat constructor. Qed.

End Demo.
