(* ===== verification/EngineTheorems.v ===== *)
(** The properties of the engine around the operator: the batch loop with its
    filters, the vector formats, and the fixed array. *)
From S2P Require Import Prelude PopCount BitVector Frame FrameFacts FixedArray PUStore Operator.
From S2P Require Import OperatorFacts PyApi PUOpRun Demo.

(** ** A scan to instantiate the loop: batches of integers, filtered by their own column *)

Module Scan.
Record t := mk { brs : ObBatchRows; ctx : ObEvalCtx; todo : list (list Z) }.

#[export] Instance scan_op : VectorOp t :=
  { op_brs := brs; op_set_brs s b := mk b (ctx s) (todo s);
    op_ctx := ctx; op_set_ctx s c := mk (brs s) c (todo s);
    op_inner_get_next_batch s _ :=
      match todo s with
      | [] => Some (OB_SUCCESS, mk (mkBrs [0] 0 true false) {[1 := Demo.int_mem []]} [])
      | vs :: rest =>
          Some (OB_SUCCESS, mk (mkBrs [0] (Z.of_nat (length vs)) (bool_decide (rest = [])) false)
                               {[1 := Demo.int_mem vs]} rest)
      end }.
#[export] Instance scan_laws : VectorOpLaws t.
Proof. split; try reflexivity; intros []; reflexivity. Qed.

Definition spec : OpSpec := mkOpSpec 4 [Demo.col_int] [Demo.col_int] [] (fun _ _ => None) SameFormat true.
Definition batches : list (list Z) := [[0; 0]; [5; 0; 7]].
Definition start : t := mk (mkBrs [0] 0 false false) ∅ batches.

Definition Inv (s : t) : Prop := exists k, (k <= 2)%nat /\ todo s = drop k batches.
Definition V (c : ObEvalCtx) (e : ObExpr) (i : Z) : bool :=
  match c !! eid e with Some m => negb (default true (fixed_false m i)) | None => false end.

Lemma truth vs n : vs ∈ [] :: batches -> n = Z.of_nat (length vs) ->
  evaluates (eq {[1 := Demo.int_mem vs]}) (V {[1 := Demo.int_mem vs]}) (sp_filters spec) n.
Proof.
  intros Hvs -> e c k He <- _. apply list_elem_of_singleton in He as ->.
  exists {[1 := Demo.int_mem vs]}, (Demo.int_mem vs). split.
  { unfold eval_vector. change (eid Demo.col_int) with 1. rewrite lookup_singleton_eq.
    reflexivity. }
  split; [reflexivity |]. split; [reflexivity |]. left. split; [reflexivity |]. intros i Hi _.
  unfold V. change (eid Demo.col_int) with 1. rewrite lookup_singleton_eq, negb_involutive.
  unfold batches in Hvs. rewrite !list_elem_of_In in Hvs. destruct Hvs as [<- | [<- | [<- | []]]]; simpl in Hi;
    assert (i = 0 \/ i = 1 \/ i = 2) as [-> | [-> | ->]] by lia; (lia || reflexivity).
Qed.

Lemma room vs b : vs ∈ [] :: batches -> brs_ok (mkBrs [0] (Z.of_nat (length vs)) b false).
Proof.
  intros Hvs. unfold batches in Hvs. rewrite list_elem_of_In in Hvs. destruct Hvs as [<- | [<- | [<- | []]]];
    (split; [simpl; lia |]; split; [Demo.wf_ok | vm_compute; discriminate]).
Qed.

Lemma contract : next_contract spec Inv (fun s => length (todo s)) eq V.
Proof.
  split; [| auto | auto | reflexivity]. intros s n (k & Hk & Ht) _. simpl. rewrite Ht.
  destruct k as [| [| [| k]]]; [| | | lia]; cbn [drop batches]; eexists _, _; (split; [reflexivity |]); intros _;
    cbn [brs ctx todo size_ end_ length].
  - split; [now exists 1%nat; split; [lia |] |]. split; [apply (room [0; 0]); repeat constructor |].
    split; [right; lia | apply truth; [repeat constructor | reflexivity]].
  - split; [now exists 2%nat; split; [lia |] |]. split; [apply (room [5; 0; 7]); repeat constructor |].
    split; [right; lia | apply truth; [repeat constructor | reflexivity]].
  - split; [now exists 2%nat; split; [lia |] |]. split; [apply (room []); repeat constructor |].
    split; [now left | apply truth; [repeat constructor | reflexivity]].
Qed.
End Scan.

(** C19.  The loop of [ObOperator::get_next_batch], for any operator that keeps the
    contract: it returns within as many rounds as the operator has batches left,
    and when it succeeds it has either reached the end with no row, or it leaves a
    batch the operator returned in which a row is skipped exactly when the operator
    skipped it or some filter is not true on it, with at least one row left. *)
Theorem next_batch_filtered {S} `{VectorOpLaws S} spec Inv mu Ext V (s : S) max :
  next_contract spec Inv mu Ext V -> Inv s -> end_ (op_brs s) = false ->
  exists ret s', next_loop spec (Datatypes.S (mu s)) s max = Some (ret, s')
    /\ (ret = OB_SUCCESS -> loop_result spec Inv V s').
Proof. intros Hc Hi He. eapply next_loop_ok; [exact Hc | lia | exact Hi | exact He]. Qed.

Section AtScan.
#[local] Existing Instances Scan.scan_op Scan.scan_laws.

Lemma next_batch_filtered_witness :
  exists ret s', next_loop Scan.spec 3 Scan.start 4 = Some (ret, s')
    /\ (ret = OB_SUCCESS -> loop_result Scan.spec Scan.Inv Scan.V s')
    /\ ret = OB_SUCCESS /\ skip_ (op_brs s') = [2] /\ size_ (op_brs s') = 3.
Proof.
  destruct (next_batch_filtered Scan.spec Scan.Inv (fun s => length (Scan.todo s)) eq Scan.V Scan.start 4
              Scan.contract) as (ret & s' & E & Hr); [now exists 0%nat; split; [lia |] | reflexivity |].
  exists ret, s'. split; [exact E |]. split; [exact Hr |].
  vm_compute in E. injection E as <- <-. repeat split.
Defined.
End AtScan.

(** C20.  [cast_to_uniform], with which the operator brings a column of a child in
    the fixed, discrete, continuous or uniform format into the format it reads,
    succeeds and keeps every row: a value stays the value and a NULL stays NULL; it
    leaves the flags alone, and keeps the room for as many rows as the expression
    had.  A vector of no format and a uniform one over the expression's own datums,
    constant or not, stay as they are, and one over other datums is refused. *)
Theorem cast_to_uniform_keeps_rows e m cells :
  (batch_expr e -> nullable_column m cells ->
   exists m', cast_to_uniform e (Z.of_nat (length cells)) m = Some (OB_SUCCESS, m')
     /\ format_ m' = VEC_UNIFORM /\ nullable_column m' cells /\ same_flags m m'
     /\ (forall n, cap e n m -> cap e n m'))
  /\ (format_ m = VEC_INVALID -> forall size, cast_to_uniform e size m = Some (OB_SUCCESS, m))
  /\ (format_ m = VEC_UNIFORM \/ format_ m = VEC_UNIFORM_CONST -> forall size,
      cast_to_uniform e size m = Some (if decide (udatums_ m = None) then OB_SUCCESS else OB_ERR_UNEXPECTED, m)).
Proof.
  split_and!.
  - intros He Hm. destruct (cast_nullable e m cells He Hm) as (m' & E & Hc & Hf & Hs & Hcap). exists m'. auto.
  - intros Hf size. unfold cast_to_uniform. now rewrite Hf.
  - intros Hf size. unfold cast_to_uniform. destruct Hf as [-> | ->]; now destruct (udatums_ m).
Qed.

(** Three integers, the second NULL. *)
Definition demo_nulls : ExprMem := let m := Demo.int_mem [10; -20; 30] in with_fixed m (data_ m) (flen_ m) [2].
Lemma cast_to_uniform_keeps_rows_witness :
  exists m', cast_to_uniform Demo.col_int 3 demo_nulls = Some (OB_SUCCESS, m')
    /\ format_ m' = VEC_UNIFORM /\ nullable_column m' [Some (int64_bytes 10); None; Some (int64_bytes 30)].
Proof.
  destruct (cast_to_uniform_keeps_rows Demo.col_int demo_nulls [Some (int64_bytes 10); None; Some (int64_bytes 30)]) as [Hcast _].
  destruct Hcast as (m' & E & Hf & Hc & _).
  - exact Demo.int_batch_expr.
  - split_and!; [now left | reflexivity | simpl; lia |]. intros [| [| [| k]]] c Hk; [..| discriminate]; injection Hk as <-;
      split; vm_compute; eauto.
  - exists m'. auto.
Defined.

(** C21.  Writing rows into the reserved buffer of a fixed or discrete vector and
    reading them back: after [set_payload] on the rows [0 .. n-1] in turn, every row
    shows the bytes written to it, whatever was there before, as long as each
    payload fits its slot. *)
Theorem written_rows_read_back e m bs n :
  batch_expr e -> cap e n m -> Z.of_nat (length bs) <= n ->
  (forall b, b ∈ bs -> (fixed_expr e -> Z.of_nat (length b) = res_buf_len_ e)
                       /\ Z.of_nat (length b) <= res_buf_len_ e) ->
  exists m1 m2, init_vector_for_write e m (get_default_res_format e) n = Some (OB_SUCCESS, m1)
    /\ write_cells set_payload m1 0 bs = Some m2
    /\ forall k b, bs !! k = Some b -> holds m2 (Z.of_nat k) b.
Proof.
  intros He Hcap Hn Hfit. unfold init_vector_for_write.
  destruct (init_writable e m n n He Hcap ltac:(lia)) as (m1 & E1 & Hw & _ & _ & Hf & _).
  destruct (write_cells_ok n (res_buf_len_ e) m1 0 bs [] Hw) as (m2 & E2 & _ & _ & Hh); try (simpl; lia).
  - apply Forall_forall. intros b Hb. destruct (Hfit b Hb) as [H1 H2]. split; [| exact H2].
    intros Hfx. apply H1. destruct He as [He | He]; [exact He |]. exfalso. rewrite Hfx in Hf.
    unfold get_default_res_format in Hf. destruct He as (Hb1 & Hb2 & Hb3 & _). rewrite Hb1, Hb2 in Hf. simpl in Hf.
    destruct (decide (datum_type e = ObNullType)); [contradiction | discriminate].
  - constructor.
  - discriminate.
  - exists m1, m2. auto.
Qed.

Lemma written_rows_read_back_witness :
  exists m1 m2,
    init_vector_for_write Demo.col_int (Demo.int_mem [1; 2]) (get_default_res_format Demo.col_int) 4
      = Some (OB_SUCCESS, m1)
    /\ write_cells set_payload m1 0 (map int64_bytes [7; -8; 9]) = Some m2
    /\ forall k b, map int64_bytes [7; -8; 9] !! k = Some b -> holds m2 (Z.of_nat k) b.
Proof.
  apply (written_rows_read_back Demo.col_int (Demo.int_mem [1; 2]) (map int64_bytes [7; -8; 9]) 4).
  - exact Demo.int_batch_expr.
  - Demo.cap_ok.
  - simpl. lia.
  - intros b Hb. rewrite list_elem_of_In in Hb.
    destruct Hb as [<- | [<- | [<- | []]]]; (split; [reflexivity | vm_compute; discriminate]).
Defined.

(** C22.  [ObFixedArray], in which the operator keeps its cells: once [init] has
    given it a capacity, [push_back] appends while there is room and afterwards
    fails with [OB_SIZE_OVERFLOW] and changes nothing, so an array initialised for
    [n] elements holds exactly the first [n] that are pushed; a second [init] fails
    with [OB_INIT_TWICE]. *)
Theorem fixed_array_capacity `{Allocator} {A} (n : Z) (xs : list A) x m :
  (forall k, alloc_ok k = true) -> 0 < n <= ObFixedArray.UINT32_MAX -> Z.of_nat (length xs) = n ->
  0 <= m <= ObFixedArray.UINT32_MAX ->
  exists a, ObFixedArray.push_all (ObFixedArray.init ObFixedArray.empty n).2 xs = (OB_SUCCESS, a)
    /\ ObFixedArray.elems a = xs
    /\ ObFixedArray.push_back a x = (OB_SIZE_OVERFLOW, a)
    /\ ObFixedArray.init a m = (OB_INIT_TWICE, a).
Proof.
  intros Ha Hn Hl Hm. destruct (ObFixedArray.init_push_all n xs Ha Hl ltac:(lia)) as (a & E & Hw & He & Hc).
  exists a. split; [exact E |]. split; [exact He |].
  assert (ObFixedArray.data_ a <> None) as Hd.
  { intros Hd. unfold ObFixedArray.elems in He. rewrite Hd in He. simpl in He. rewrite take_nil in He. subst xs.
    simpl in *. lia. }
  split.
  - pose proof (ObFixedArray.push_back_spec a x Hw Hd) as Hp. rewrite <- (ObFixedArray.elems_count a Hw), He, Hl, Hc in Hp.
    now rewrite Z.ltb_irrefl in Hp.
  - unfold ObFixedArray.init. destruct (ObFixedArray.data_ a); [| contradiction].
    destruct (Z.ltb_spec m 0), (Z.ltb_spec ObFixedArray.UINT32_MAX m); (lia || reflexivity).
Qed.

Section AtAmple.
#[local] Existing Instance Demo.ample.

Lemma fixed_array_capacity_witness :
  exists a, ObFixedArray.push_all (ObFixedArray.init ObFixedArray.empty 2).2 [true; false] = (OB_SUCCESS, a)
    /\ ObFixedArray.elems a = [true; false]
    /\ ObFixedArray.push_back a true = (OB_SIZE_OVERFLOW, a)
    /\ ObFixedArray.init a 5 = (OB_INIT_TWICE, a).
Proof.
  apply (fixed_array_capacity 2 [true; false] true 5); [reflexivity | | reflexivity |];
    unfold ObFixedArray.UINT32_MAX; lia.
Defined.
End AtAmple.
