(* ===== verification/PUTheorems.v ===== *)
(** The properties of the Python UDF operator. *)
From S2P Require Import Prelude PopCount BitVector Frame FrameFacts FixedArray PyApi BatchSize.
From S2P Require Import PUStore PUStoreFacts PUCell PUCellFacts PUOp PUOpFacts PUOpRun Operator.
From S2P Require Import PUOpNext Demo.


Section AtDemo1.
#[local] Existing Instances Demo.ample Demo.api Demo.laws.


End AtDemo1.

Section AtDemo5.
#[local] Existing Instances Demo.ample Demo.api Demo.laws.

(** The run of the demonstration engine, evaluated. *)
Example demo_run :
  match inner_open Demo.spec (fresh Demo.brs0 Demo.world Demo.script) with
  | Some (_, s) =>
      match drain_op 6 Demo.op_spec Demo.spec s (initial_flags Demo.op_spec) 2 with
      | Some (_, outs) => map fst outs = [2; 2] /\ received outs 4 = Some (map int64_bytes [17; 37; 47; 57])
          /\ received outs 5 = Some [[97; 97]; []; [120; 120]; [121; 122; 121; 122]]
      | None => False
      end
  | None => False
  end.
Proof. vm_compute. auto. Qed.

End AtDemo5.

(** C2.  Batching does not change the results: on the same saved rows, the loop
    of [do_process], which calls the user function on slices whose length the
    batch-size control picks, and the single call of [do_process_all] both
    succeed, count every row, and leave the same list of results, the function's
    value on each row in order.  The 32-bit batch size has room to grow by a step
    per row. *)
Theorem do_process_equals_process_all `{Allocator} `{PyApi} `{!PyLaws _} c u acc n L w f :
  cell_inv c u acc n L -> udf_contract w u f -> 0 < c_desirable c -> py_ok (w_py w) ->
  utf8_args u acc -> (forall info, w_infos w !! eid (u_expr u) = Some info -> size_fits info n) -> 0 < n ->
  exists c1 w1 o1 c2 w2 o2,
    do_process c w = Some (OB_SUCCESS, c1, w1) /\ do_process_all c w = Some (OB_SUCCESS, c2, w2)
    /\ c_result_size c1 = n /\ c_result_size c2 = n
    /\ c_result_store c1 = Some o1 /\ c_result_store c2 = Some o2
    /\ items o1 = items o2
    /\ items o1 = map (fun k => f (row_at (arg_arrays u acc) k)) (seq 0 (Z.to_nat n)).
Proof.
  intros Hinv Hc Hd Hpy Hutf Hsz Hn.
  destruct (do_process_ok c u acc n L w f Hinv Hc Hd Hpy Hutf Hsz) as (c1 & w1 & d1 & E1 & [Hs1 Hr1] & _).
  destruct (do_process_all_ok c u acc n L w f Hinv Hc Hpy Hutf Hn) as (c2 & w2 & d2 & E2 & [Hs2 Hr2] & _).
  destruct (c_result_store c1) as [o1 |] eqn:Eo1; [| lia].
  destruct (c_result_store c2) as [o2 |] eqn:Eo2; [| lia].
  destruct Hr1 as [_ Hi1], Hr2 as [_ Hi2]. exists c1, w1, o1, c2, w2, o2.
  repeat (split; [assumption || lia |]). split; [congruence | exact Hi1].
Qed.

Section AtDemo2.
#[local] Existing Instances Demo.ample Demo.api Demo.laws.

(** Five rows in the cell of [echo], processed two at a time and at once. *)
Lemma do_process_equals_process_all_witness :
  exists c1 w1 o1 c2 w2 o2,
    do_process Demo.echo_cell Demo.world = Some (OB_SUCCESS, c1, w1)
    /\ do_process_all Demo.echo_cell Demo.world = Some (OB_SUCCESS, c2, w2)
    /\ c_result_size c1 = 5 /\ c_result_size c2 = 5
    /\ c_result_store c1 = Some o1 /\ c_result_store c2 = Some o2
    /\ items o1 = items o2
    /\ items o1 = map (fun k => Demo.echo (row_at (arg_arrays Demo.echo_udf Demo.echo_rows) k)) (seq 0 5).
Proof.
  exact (do_process_equals_process_all Demo.echo_cell Demo.echo_udf Demo.echo_rows 5 8 Demo.world Demo.echo
           Demo.echo_cell_inv Demo.echo_ready eq_refl I Demo.echo_utf8 Demo.echo_sizes eq_refl).
Defined.

End AtDemo2.

(** ** Errors *)

Lemma ctl_free_ok `{Allocator} `{PyApi} k :
  exists cs, ctl_free k = (OB_SUCCESS, set_counts (set_cells k cs) 0 0 0).
Proof.
  assert (forall cs, exists cs', each_cell cell_free OB_NOT_SUPPORTED cs = (OB_SUCCESS, cs')) as Hf.
  { induction cs as [| c cs [cs' IH]]; [now exists [] |]. cbn [each_cell]. unfold cell_free at 1, pu_free.
    change (OB_FAIL OB_SUCCESS) with false. cbn iota beta. rewrite IH. eauto. }
  destruct (Hf (cells_list_ k)) as [cs E]. exists cs. unfold ctl_free. rewrite E. reflexivity.
Qed.

(** C3.  The operator cannot be rescanned: after a successful [inner_open] with
    at least one pass-through column, [inner_rescan] fails with
    [OB_ERR_UNEXPECTED].  [ObColInputStore::init] is called again on arrays that
    [free] did not empty, and their capacity is used up. *)
Theorem rescan_after_open_fails `{Allocator} `{PyApi} `{!PyLaws _} N B K univ ins us F
    spec brs w script M bs :
  (forall n, alloc_ok n = true) -> plan_ok N B univ ins us ->
  run_ok N B K univ ins us F spec brs w script M bs -> ins <> [] ->
  exists s s', inner_open spec (fresh brs w script) = Some (OB_SUCCESS, s)
    /\ inner_rescan spec s = Some (OB_ERR_UNEXPECTED, s').
Proof.
  intros Hal Hplan Hrun Hne.
  destruct (open_ok Hal N B K univ ins us F Hplan spec brs w script M bs Hrun)
    as (s & Eo & Hcap & Hw & [_ (cols & n & Hcol) _ _ _] & _).
  destruct Hrun as [HB Hus Hins _ _ [_ Hr] _ _ _].
  assert (Forall (fun u => exists info, w_infos w !! uid u = Some info /\ 0 < predict_size info) us) as Hinfo.
  { eapply Forall_impl; [exact Hr |]. intros u (info & Hi & Hp & _). now exists info. }
  exists s. destruct (ctl_free_ok (o_ctl s)) as [cs0 Ef]. unfold inner_rescan. rewrite Ef.
  change (OB_FAIL OB_SUCCESS) with false. cbn iota. unfold ctl_init.
  cbn [set_counts set_cells capacity_ cells_list_ other_store_]. rewrite Hcap, Hw, HB, Hus, Hins.
  destruct (init_cells_ok Hal N B univ ins us Hplan us (w_infos w) DEFAULT_PU_LENGTH
              ltac:(intros x Hx; exact Hx) eq_refl Hinfo cs0) as (cs' & Ec & _).
  rewrite Ec. cbn [mbind option_bind]. change (OB_SUCC OB_SUCCESS) with true. cbn iota.
  cbn [set_cells other_store_].
  pose proof (col_init_twice Hal (other_store_ (o_ctl s)) ins cols n ins B DEFAULT_PU_LENGTH Hcol
                ltac:(discriminate) Hne Hne) as Hfail.
  destruct (col_init (other_store_ (o_ctl s)) ins B DEFAULT_PU_LENGTH) as [ret o]. cbn [fst] in Hfail. subst ret.
  change (OB_FAIL OB_INIT_FAIL) with true. cbn iota. cbn [mbind option_bind].
  change (OB_FAIL OB_INIT_FAIL) with true. cbn iota. eauto.
Qed.

Section AtDemo3.
#[local] Existing Instances Demo.ample Demo.api Demo.laws.

Lemma rescan_after_open_fails_witness :
  exists s s', inner_open Demo.spec (fresh Demo.brs0 Demo.world Demo.script) = Some (OB_SUCCESS, s)
    /\ inner_rescan Demo.spec s = Some (OB_ERR_UNEXPECTED, s').
Proof.
  apply (rescan_after_open_fails 4 4 Demo.K Demo.univ Demo.ins Demo.us Demo.F Demo.spec Demo.brs0 Demo.world
           Demo.script 3 Demo.bs (fun _ => eq_refl) Demo.plan Demo.run). discriminate.
Defined.

End AtDemo3.

(** C4.  An error of the child ends the call: when the operator has nothing
    buffered and the child's [get_next_batch] fails, [inner_get_next_batch]
    fails with [OB_ERR_UNEXPECTED] whatever the child's code was, releases the
    interpreter lock, consumes that one result of the child, and outputs
    nothing. *)
Theorem child_error_propagates `{Allocator} `{PyApi} spec s m code rest :
  can_output (o_ctl s) = false -> 0 <= desirable_ (o_ctl s) -> end_ (o_brs s) = false ->
  o_gil s = false -> o_child s = ChildErr code :: rest ->
  exists s', inner_get_next_batch spec s m = Some (OB_ERR_UNEXPECTED, s')
    /\ o_gil s' = false /\ o_child s' = rest /\ o_brs s' = o_brs s.
Proof.
  intros Hout Hd He Hg Hc. unfold inner_get_next_batch. rewrite Hg. change with_batch_control_ with true.
  cbn iota. cbn [o_ctl]. rewrite Hout. cbn [negb]. cbn iota.
  pose proof (fold_max_ge (cells_list_ (o_ctl s)) (desirable_ (o_ctl s))) as Hge.
  assert (exists k w, prepare spec (mkOp (o_ctl s) (o_brs s) (o_world s) (o_child s) true)
                      = mkOp k (o_brs s) w (o_child s) true /\ is_full k = false) as (k & w & -> & Hf).
  { unfold prepare, get_desirable. cbn [o_ctl o_world o_brs o_child o_gil]. unfold ctl_resize.
    destruct (each_cell _ _ _) as [ret cs]. eexists _, _. split; [reflexivity |].
    unfold is_full. destruct (OB_SUCC ret); [destruct (col_reset _ _) |]; cbn;
      change (BUFFER_MAG - 1) with 1; lia. }
  rewrite Hc. cbn [fill_loop o_brs o_ctl length]. rewrite He, Hf. cbn [negb andb]. cbn iota.
  unfold fetch at 1. cbn [o_child child_next o_ctl o_brs o_world o_gil mbind option_bind].
  change (OB_SUCC OB_ERR_UNEXPECTED) with false. cbn iota.
  change (OB_FAIL OB_ERR_UNEXPECTED) with true. cbn iota. cbn [mbind option_bind].
  change (OB_FAIL OB_ERR_UNEXPECTED) with true. cbn iota. cbn [mbind option_bind].
  eexists. split; [reflexivity |]. auto.
Qed.

Section AtDemo4.
#[local] Existing Instances Demo.ample Demo.api Demo.laws.

Lemma child_error_propagates_witness :
  exists s', inner_get_next_batch Demo.spec (fresh Demo.brs0 Demo.world [ChildErr OB_ITER_END]) 4
             = Some (OB_ERR_UNEXPECTED, s')
    /\ o_gil s' = false /\ o_child s' = [] /\ o_brs s' = Demo.brs0.
Proof.
  apply (child_error_propagates Demo.spec (fresh Demo.brs0 Demo.world [ChildErr OB_ITER_END]) 4 OB_ITER_END []);
    reflexivity || discriminate.
Defined.

End AtDemo4.

(** ** The buffers *)

(** C5.  What [ObColInputStore] is given it gives back, for columns without NULLs
    whose cells fit the buffer an expression reserves per row (the store keeps no
    NULLs, and copies longer strings past their slot): after [init], saving a
    batch that fits and loading [k] of its rows makes every column show the
    first [k] cells the batch did not skip, in order. *)
Theorem col_store_roundtrip `{Allocator} es B len ctx brs css k N :
  (forall n, alloc_ok n = true) ->
  NoDup (map eid es) -> Z.of_nat (length es) <= ObFixedArray.UINT32_MAX ->
  Forall (loadable N ctx) es -> Forall2 (shows_col ctx) es css ->
  Forall (fun cs => Z.of_nat (length cs) = size_ brs) css ->
  Forall2 (fun e cs => Forall (cell_room e) cs) es css ->
  ObBitVector.wf (skip_ brs) -> 0 <= size_ brs -> active_cnt brs <= len ->
  0 <= k <= N -> k <= active_cnt brs ->
  exists st1 st2 st3 ctx',
    col_init col_empty es B len = (OB_SUCCESS, st1)
    /\ col_save_vector st1 ctx brs = Some (OB_SUCCESS, st2)
    /\ col_load_vector st2 ctx k = Some (OB_SUCCESS, st3, ctx')
    /\ Forall2 (shows_col ctx') es (map (fun cs => take (Z.to_nat k) (pick (skip_ brs) 0 cs)) css).
Proof.
  intros Hal Hnd Hcnt Hload Hshow Hlen Hroom Hwf Hsz Hfit Hk Hka.
  pose proof (active_cnt_range brs Hwf Hsz) as Ha.
  destruct (col_init_ok Hal es B len ltac:(lia) Hcnt) as (st1 & E1 & Hi1 & Hl1 & Ho1 & _).
  destruct (col_save_ok Hal st1 es _ 0 ctx brs css Hi1 Hshow Hlen Hwf ltac:(lia) ltac:(lia))
    as (st2 & E2 & Hi2 & Hl2 & Ho2).
  assert (zip_with app (map (fun _ => []) es) (map (pick (skip_ brs) 0) css) = map (pick (skip_ brs) 0) css) as Hz.
  { clear -Hshow. induction Hshow; simpl; congruence. }
  rewrite Hz in Hi2. rewrite Ho1 in Ho2.
  destruct (col_load_ok st2 es _ _ ctx k N Hi2 Hnd Hload) as (st3 & ctx' & E3 & _ & _ & _ & Hld & _); auto; try lia.
  { clear -Hroom. induction Hroom as [| e cs es css Hr Hrs IH]; simpl; constructor; auto. now apply pick_Forall. }
  exists st1, st2, st3, ctx'. split; [exact E1 |]. split; [exact E2 |]. split; [exact E3 |].
  rewrite Ho2, map_map in Hld. change (Z.to_nat 0) with 0%nat in Hld. cbn beta in Hld.
  eapply Forall2_impl; [exact Hld |]. intros e cells (m0 & m & _ & Hm & Hc & _). exists m. auto.
Qed.

Section AtDemo5.
#[local] Existing Instances Demo.ample.

Definition demo_batch : ObBatchRows := mkBrs [2] 3 false false.
Definition demo_frame : ObEvalCtx := {[1 := Demo.int_mem [10; 20; 30]; 2 := Demo.str_mem [[97]; [98; 99]; []]]}.

Lemma col_store_roundtrip_witness :
  exists st1 st2 st3 ctx',
    col_init col_empty Demo.ins 4 8192 = (OB_SUCCESS, st1)
    /\ col_save_vector st1 demo_frame demo_batch = Some (OB_SUCCESS, st2)
    /\ col_load_vector st2 demo_frame 2 = Some (OB_SUCCESS, st3, ctx')
    /\ Forall2 (shows_col ctx') Demo.ins [map int64_bytes [10; 30]; [[97]; []]].
Proof.
  apply (col_store_roundtrip Demo.ins 4 8192 demo_frame demo_batch
           [map int64_bytes [10; 20; 30]; [[97]; [98; 99]; []]] 2 4).
  - reflexivity.
  - apply (bool_decide_eq_true_1 (NoDup (map eid Demo.ins))). reflexivity.
  - discriminate.
  - constructor; [| constructor; [| constructor]]; (split; [exact Demo.int_batch_expr || exact Demo.str_batch_expr |]);
      eexists; (split; [reflexivity |]); (split; [Demo.cap_ok | reflexivity]).
  - constructor; [| constructor; [| constructor]]; eexists; (split; [reflexivity | Demo.col_ok]).
  - repeat constructor.
  - constructor; [| constructor; [| constructor]]; Demo.reduce; Demo.fall ltac:(split; vm_compute; (reflexivity || discriminate)).
  - unfold demo_batch. Demo.wf_ok.
  - discriminate.
  - vm_compute. discriminate.
  - lia.
  - vm_compute. discriminate.
Defined.
End AtDemo5.

(** C6.  The argument store never grows past its memory: for a store with [n]
    rows saved, [save_batch] on a batch of visible arguments succeeds exactly
    when the rows it keeps fit, counts them, and otherwise reports
    [OB_ERR_UNEXPECTED] and leaves the store as it was. *)
Theorem pu_store_bounded `{Allocator} st u cols n ctx brs css :
  (forall k, alloc_ok k = true) ->
  pu_inv st u cols n -> Forall2 (shows_arg ctx) (args_ u) css ->
  Forall (fun cs => Z.of_nat (length cs) = size_ brs) css ->
  ObBitVector.wf (skip_ brs) -> 0 <= size_ brs ->
  exists ret st', pu_save_batch st ctx brs = Some (ret, st')
    /\ (ret = OB_SUCCESS <-> n + active_cnt brs <= length_ st)
    /\ (ret = OB_SUCCESS -> saved_size_ st' = n + active_cnt brs /\ length_ st' = length_ st
         /\ pu_inv st' u (zip_with app cols (map (pick (skip_ brs) 0) css)) (n + active_cnt brs))
    /\ (ret <> OB_SUCCESS -> ret = OB_ERR_UNEXPECTED /\ st' = st).
Proof.
  intros Hal Hinv Hsh Hlen Hwf Hsz. pose proof (active_cnt_range brs Hwf Hsz) as Ha.
  destruct (Z.le_gt_cases (n + active_cnt brs) (length_ st)) as [Hle | Hgt].
  - destruct (pu_save_ok Hal st u cols n ctx brs css Hinv Hsh Hlen Hwf ltac:(lia) Hle) as (st' & E & Hinv' & Hl).
    exists OB_SUCCESS, st'. split; [exact E |]. split; [tauto |]. split; [| congruence].
    intros _. split; [apply Hinv' | auto].
  - exists OB_ERR_UNEXPECTED, st. split.
    + destruct Hinv as [Hx (ps & Hps & _) _ Hsv _ Hin Hne]. unfold pu_save_batch. rewrite Hx, Hps, Hin, Hsv.
      unfold arg_cnt_. destruct (args_ u) as [| a l]; [contradiction |].
      destruct (Z.leb_spec (Z.of_nat (length (a :: l))) 0); [simpl in *; lia |]. cbn [negb]. cbn iota.
      destruct (Z.leb_spec (n + active_cnt brs) (length_ st)); [lia | reflexivity].
    + split; [split; [discriminate | lia] |]. split; [discriminate | auto].
Qed.

Section AtDemo6.
#[local] Existing Instances Demo.ample.

Definition demo_args : ObEvalCtx := {[2 := Demo.uniform_str [[97]; [98; 99]; []]]}.

Lemma pu_store_bounded_witness :
  exists ret st', pu_save_batch (c_store Demo.echo_cell) demo_args demo_batch = Some (ret, st')
    /\ (ret = OB_SUCCESS <-> 5 + active_cnt demo_batch <= 8)
    /\ (ret = OB_SUCCESS -> saved_size_ st' = 5 + active_cnt demo_batch /\ length_ st' = 8
         /\ pu_inv st' Demo.echo_udf [Demo.echo_cells ++ [[97]; []]] (5 + active_cnt demo_batch))
    /\ (ret <> OB_SUCCESS -> ret = OB_ERR_UNEXPECTED /\ st' = c_store Demo.echo_cell).
Proof.
  apply (pu_store_bounded (c_store Demo.echo_cell) Demo.echo_udf [Demo.echo_cells] 5 demo_args demo_batch
           [[[97]; [98; 99]; []]]).
  - reflexivity.
  - apply (k_store _ _ _ _ _ Demo.echo_cell_inv).
  - constructor; [| constructor]. exists (Demo.uniform_str [[97]; [98; 99]; []]), ArgStr.
    split; [reflexivity |]. split; [reflexivity |]. intros k b Hk. split; [congruence |].
    destruct k as [| [| [| k]]]; try discriminate; injection Hk as <-; eexists; repeat split; reflexivity.
  - repeat constructor.
  - unfold demo_batch. Demo.wf_ok.
  - discriminate.
Defined.
End AtDemo6.

(** C7.  An argument of a type the engine does not handle makes the allocation of
    the argument buffers fail, and the code it reports is
    [OB_ALLOCATE_MEMORY_FAILED] even when memory is ample: the check for a null
    buffer overwrites [OB_NOT_SUPPORTED].  Opening the store then fails with
    [OB_INIT_FAIL]. *)
Theorem unsupported_argument_code `{Allocator} u len pre e post :
  (forall n, alloc_ok n = true) ->
  args_ u = pre ++ e :: post -> Forall supported pre -> arg_class (datum_type e) = None ->
  is_python_udf u = true -> 0 < len ->
  (alloc_data_ptrs (mkPU (Some u) 0 None 0 false) len).1 = OB_ALLOCATE_MEMORY_FAILED
  /\ (pu_init pu_empty u len).1 = OB_INIT_FAIL.
Proof.
  intros Hal Ha Hpre He Hpy Hlen.
  assert (forall pre, Forall supported pre -> (alloc_args (pre ++ e :: post) len).1 = OB_ALLOCATE_MEMORY_FAILED) as Hall.
  { clear -Hal He Hlen. induction 1 as [| a pre (cls & Hc) _ IH]; cbn [app alloc_args].
    - rewrite He. reflexivity.
    - rewrite Hc. assert (exists b, alloc_arg (Some cls) len = Some b) as [b ->]
        by (destruct cls; cbn [alloc_arg]; rewrite Hal; eauto).
      change (OB_SUCC OB_SUCCESS) with true. cbn iota. destruct (alloc_args (pre ++ e :: post) len). exact IH. }
  assert (forall sv, (alloc_data_ptrs (mkPU (Some u) 0 None sv false) len).1 = OB_ALLOCATE_MEMORY_FAILED) as H1.
  { intros sv. unfold alloc_data_ptrs. cbn [inited_ expr_]. unfold arg_cnt_. rewrite Ha.
    destruct (Z.leb_spec (Z.of_nat (length (pre ++ e :: post))) 0) as [Hz |];
      [rewrite length_app in Hz; simpl in Hz; lia |].
    destruct (Z.leb_spec len 0); [lia |]. cbn [orb]. rewrite Hal. pose proof (Hall pre Hpre) as Hc.
    destruct (alloc_args (pre ++ e :: post) len) as [ret ps]. exact Hc. }
  split; [apply H1 |]. unfold pu_init. cbn [inited_ pu_empty]. destruct (Z.leb_spec len 0); [lia |].
  rewrite Hpy. cbn [negb]. cbn iota. cbn [length_ data_ptrs_ saved_size_ inited_ pu_empty].
  specialize (H1 0). destruct (alloc_data_ptrs (mkPU (Some u) 0 None 0 false) len) as [ret st].
  cbn [fst] in H1. subst ret. reflexivity.
Qed.

Section AtDemo7.
#[local] Existing Instances Demo.ample.

Definition decimal_arg : ObExpr :=
  mkExpr 6 ObNumberType VEC_TC_NUMBER true false false true 40 false true None.
Definition decimal_udf : ObUdfExpr := mkUdf (u_expr Demo.add_udf) true [Demo.col_int; decimal_arg].

Lemma unsupported_argument_code_witness :
  (alloc_data_ptrs (mkPU (Some decimal_udf) 0 None 0 false) 8192).1 = OB_ALLOCATE_MEMORY_FAILED
  /\ (pu_init pu_empty decimal_udf 8192).1 = OB_INIT_FAIL.
Proof.
  apply (unsupported_argument_code decimal_udf 8192 [Demo.col_int] decimal_arg []); try reflexivity.
  constructor; [eexists; reflexivity | constructor].
Defined.
End AtDemo7.
