(* ===== verification/PUFindings.v ===== *)
(** Runs of the operator outside the conditions of its correctness theorem, on
    the demonstration engine: what the code does there. *)
From S2P Require Import Prelude PopCount BitVector Frame FrameFacts FixedArray PyApi BatchSize.
From S2P Require Import PUStore PUStoreFacts Operator PUCell PUCellFacts PUOp PUOpFacts PUOpRun.
From S2P Require Import PUOpNext Demo.

#[local] Existing Instances Demo.ample Demo.api Demo.laws.

(** Opens the operator and reads all its batches. *)
Definition run_all (spec : ObPythonUDFSpec) (w : World) (script : list ChildResult) (m : Z)
    : option (Z * list (Z * ObEvalCtx)) :=
  '(ret, s) ← inner_open spec (fresh Demo.brs0 w script);
  if OB_FAIL ret then Some (ret, []) else drain_op 8 Demo.op_spec spec s (initial_flags Demo.op_spec) m.

(** A string of 18 bytes for a column with 16 reserved bytes a row. *)
Definition long_strings : list bytes := [repeat 97 18; [98; 98; 98]].
Definition long_script : list ChildResult :=
  [Demo.batch [1; 2] long_strings 0 false; Demo.batch [] [] 0 true].

(** A string longer than the buffer reserved for its column in the frame
    does not survive the operator: [load_vector] copies every string to the
    reserved buffer of its row without looking at its length, so the end of a
    long string is overwritten by the next row.  Here the buffers have 16 bytes
    and the first of two strings has 18; the run succeeds and the parent reads a
    first string that differs in its last two bytes. *)
Theorem long_strings_corrupted :
  match run_all Demo.spec Demo.world long_script 4 with
  | Some (ret, outs) =>
    ret = OB_SUCCESS
    /\ read_col (Demo.str_mem long_strings) 2 = Some long_strings
    /\ received outs 2 = Some [repeat 97 16 ++ [98; 98]; [98; 98; 98]]
  | None => False
  end.
Proof. vm_compute. repeat split. Qed.

(** An integer column with a NULL in its first row. *)
Definition null_mem : ExprMem :=
  let m := Demo.int_mem [0; 5] in with_fixed m (data_ m) (flen_ m) [1].
Definition null_script : list ChildResult :=
  [ChildBatch (mkBrs [0] 2 false false) {[1 := null_mem; 2 := Demo.str_mem [[97]; [98]]]};
   Demo.batch [] [] 0 true].
Definition echo_spec : ObPythonUDFSpec := mkSpec 4 [Demo.echo_udf] Demo.ins [5] [].

(** The first batch after opening: its size, and the cells of expression [i]. *)
Definition first_batch (spec : ObPythonUDFSpec) (w : World) (script : list ChildResult) (m i : Z)
    : option (Z * Z * option (list bytes)) :=
  '(ret, s) ← inner_open spec (fresh Demo.brs0 w script);
  '(ret, s) ← inner_get_next_batch spec s m;
  mem ← w_ctx (o_world s) !! i;
  Some (ret, size_ (o_brs s), read_col mem (Z.to_nat (size_ (o_brs s)))).

(** NULLs of pass-through columns are not handled: saving copies the
    payload and not the null flag, and loading clears it.  When the column is no
    argument of a UDF, the child's NULL in the first row comes out as the number
    0; when it is one, the cast to the uniform format has made the payload empty,
    and loading it into a fixed-length column has no defined result (a failed
    assertion, or a read through a null pointer in a release build). *)
Theorem nulls_not_preserved :
  is_null null_mem 0 = Some true
  /\ first_batch echo_spec Demo.world null_script 4 1 = Some (OB_SUCCESS, 2, Some (map int64_bytes [0; 5]))
  /\ first_batch Demo.spec Demo.world null_script 4 1 = None.
Proof. vm_compute. repeat split. Qed.

(** An integer beyond 32 bits. *)
Definition big_script : list ChildResult :=
  [Demo.batch [4294967301; 5] [[97]; [98]] 0 false; Demo.batch [] [] 0 true].

(** Integer arguments reach the user function modulo [2^32]: [save_batch]
    converts them to [int].  On the value [2^32 + 5] the function [add], which
    adds the constant 7, returns 12. *)
Theorem bigint_arguments_truncated :
  match run_all Demo.spec Demo.world big_script 4 with
  | Some (ret, outs) =>
    ret = OB_SUCCESS
    /\ received outs 1 = Some (map int64_bytes [4294967301; 5])
    /\ received outs 4 = Some (map int64_bytes [12; 12])
  | None => False
  end.
Proof. vm_compute. repeat split. Qed.

(** An argument the operator computes: [col_int] plus one.  The function marks
    the rows it evaluates. *)
Definition incr_func (ctx : ObEvalCtx) (skip : words) (size : Z) : option (Z * ObEvalCtx) :=
  src ← ctx !! 1; m ← ctx !! 6;
  cells ← read_col src (Z.to_nat size);
  let b := mjoin (map (fun c => int64_bytes (bytes_int64 c + 1)) cells) in
  Some (OB_SUCCESS, <[6 := with_flags (with_res_buf (with_format m VEC_FIXED) (b ++ drop (length b) (res_buf_ m)))
                             (evaluated_ m) (projected_ m) [2 ^ size - 1]]> ctx).
Definition incr_expr : ObExpr :=
  mkExpr 6 ObIntType VEC_TC_INTEGER true true false true 8 true false (Some incr_func).
Definition incr_udf : ObUdfExpr := mkUdf (u_expr Demo.add_udf) true [incr_expr; Demo.seven].
Definition incr_spec : ObPythonUDFSpec := mkSpec 4 [incr_udf] Demo.ins [4; 6] [].
Definition incr_world : World :=
  set_ctx Demo.world (<[6 := with_flags (Demo.int_mem []) false false [0]]> (w_ctx Demo.world)).
Definition incr_script : list ChildResult :=
  [Demo.batch [10; 20] [[97]; [98]] 0 false; Demo.batch [30; 40] [[99]; [100]] 0 false; Demo.batch [] [] 0 true].

(** An argument that is computed in the operator (not projected by the
    child) is evaluated for the first child batch of a refill only:
    [clear_evaluated_flag] runs once, before the filling loop, so for the next
    batches the expression still counts as evaluated and its old rows are saved
    again.  Here the argument is [col_int] plus one; the rows of the second
    batch get the results of the first. *)
Theorem computed_arguments_stale :
  first_batch incr_spec incr_world incr_script 4 1 = Some (OB_SUCCESS, 4, Some (map int64_bytes [10; 20; 30; 40]))
  /\ first_batch incr_spec incr_world incr_script 4 4 = Some (OB_SUCCESS, 4, Some (map int64_bytes [18; 28; 18; 28])).
Proof. vm_compute. repeat split. Qed.
